(* ===== verification/_CoqProject ===== *)
-Q . S2P
Prelude.v
Cnode.v
CnodeResult.v
CnodeFacts.v
CnodeBuild.v
CnodeOps.v
Classifier.v
CnodeSearch.v
ClassifierSpec.v
ClassifierHistory.v
Bytes.v
Buffer.v
Ethernetaddr.v
Flow.v
FlowSpec.v
OfpWire.v
OfpCore.v
OfpActions.v
OfpStats.v
OfpMessages.v
OfpAll.v
FlowMatch.v
FlowProps.v
PacketExpr.v
ClassifierProps.v
Timeval.v
OpenflowStream.v
OpenflowConnection.v
OpenflowTransport.v
OpenflowProps.v
OpenflowSend.v
Switch.v
SwitchProps.v
EventDispatcher.v
EventFacts.v
EventProps.v
TimerDispatcher.v
TimerFacts.v
TimerProps.v
Routing.v
RoutingFacts.v
RoutingProps.v
Topology.v
TopologyFacts.v
TopologyProps.v
Hosttracker.v
HosttrackerFacts.v
HosttrackerProps.v
Kernel.v
KernelFacts.v
KernelProps.v
Messenger.v
MessengerProps.v
FlowSetup.v
FlowSetupRoute.v
FlowSetupProps.v
FlowSetupFlood.v
Registry.v
RegistryProps.v
Sha1.v
Sha1Props.v
Cfg.v
CfgProps.v
Ofmp.v
OfmpProps.v
OpenflowEvent.v
OpenflowEventProps.v
OfmpExtended.v
Handshake.v
HandshakeProps.v
SwitchMgr.v
SwitchMgrProps.v
PollLoop.v
PollLoopProps.v
CoThreads.v
CoThreadsProps.v
CoSyncProps.v
Addresses.v
NetworkState.v
RouteInstaller.v
