(* ===== verification/Prelude.v ===== *)
(** * A verification library for the NOX network controller

    NOX is an OpenFlow controller: it accepts connections from switches, turns
    their messages into events, dispatches the events to components, and lets
    components send messages back.  This library models the parts of it that
    carry logic of their own, function by function, and proves what the other
    parts rely on.  Paths below are relative to src/.

    ** The parts of the program and where they are modelled

    - The packet classifier, a tree that is rebuilt while rules come and go
      (src/include/cnode.hh, rule.hh, cnode-result.hh, classifier.hh): [Cnode],
      [CnodeResult], [Classifier].  Nodes have the addresses of the C++ objects,
      so that the pointers a rule keeps into the tree can dangle.  The expression
      and data types are interfaces ([ExprOps], [DataOps]); [PacketExpr] is the
      instance the controller uses (src/include/expr.hh, src/lib/expr.cc).
      Facts: [CnodeFacts], [CnodeBuild], [CnodeOps], [CnodeSearch],
      [ClassifierSpec], [ClassifierHistory].  Properties: [ClassifierProps].
    - Packets: byte order ([Bytes]), buffers ([Buffer], src/include/buffer.hh),
      addresses ([Ethernetaddr]), their text, IP addresses and prefixes
      ([Addresses], src/lib/netinet++/ethernetaddr.cc, src/include/netinet++/),
      header parsing and flows ([Flow], [FlowMatch],
      src/lib/flow.cc).  Facts and reference encodings of frames: [FlowSpec].  Properties: [FlowProps].
    - The wrappers of the OpenFlow structures (src/lib/openflow-pack-raw.cc): the
      interface [Message] in [OfpWire]; [OfpCore], [OfpActions], [OfpStats] and
      [OfpMessages] model the 41 classes, [OfpAll] states the properties once for
      all of them.
    - OpenFlow connections (src/lib/openflow.cc, async_io.cc): framing over a
      byte stream ([OpenflowStream]), the handshake ([OpenflowConnection], over
      the interface [Transport], which [OpenflowTransport] discharges for
      streams) and the construction of messages ([OpenflowSend]).  Properties:
      [OpenflowProps] and, for the messages, [SwitchProps].
    - Events (src/lib/event-dispatcher.cc) and timers (src/lib/timer-dispatcher.cc,
      timeval.cc): [EventDispatcher], [TimerDispatcher], [Timeval], with
      [EventFacts], [TimerFacts].  Client code is a program over the dispatcher's
      own methods and may block in the middle of a call, so that several threads
      are inside [poll] at once.  Properties: [EventProps], [TimerProps].
    - The controller (src/builtin/nox.cc): the registry of connections in
      [Registry], [RegistryProps]; the handshake with a new connection in
      [Handshake], with its protocol as an automaton in [HandshakeProps].
    - Messages as events (src/lib/openflow-event.cc, flow-stats-in.cc,
      queue-stats-in.cc, queue-config-in.cc and the headers of the events):
      [OpenflowEvent], [OpenflowEventProps].
    - The management protocol (src/include/openflow/openflow/openflow-mgmt.h,
      ofmp-*.hh): [Ofmp], [OfmpProps]; long messages, cut up by switch-mgr.cc and
      put together by openflow-event.cc, in [OfmpExtended]; the managers of
      src/lib/switch-mgr.cc in [SwitchMgr], and against a switch in
      [SwitchMgrProps].  What they exchange is text of configurations
      (src/lib/cfg.cc: [Cfg], [CfgProps]) named by their SHA-1 (src/lib/sha1.cc:
      [Sha1], with the FIPS 180 definition in its module [Fips], [Sha1Props]).
    - The poll loop (src/lib/poll-loop.cc), a pool of cooperative threads over a
      list of pollables, of which the connections of the registry are some:
      [PollLoop], [PollLoopProps].
    - The cooperative threads' own queues and locks (src/lib/threads/impl.cc,
      cooperative.cc): waitqueues as linked lists in memory and the primitives over
      them in [CoThreads]; [CoThreadsProps] shows that the lists are queues,
      [CoSyncProps] what histories of locking show.
    - The component kernel (src/builtin/kernel.cc, deployer.cc): [Kernel],
      [KernelFacts], [KernelProps].
    - The messenger (src/nox/coreapps/messenger/), which cuts the bytes of other
      programs into messages: [Messenger] with the interface [MessageProcessor]
      of its two protocols, [MessengerProps].
    - Applications: the learning switch (src/nox/coreapps/switch/switch.cc) and
      the hub (hub/hub.cc) in [Switch] and [SwitchProps]; incremental all-pairs shortest paths
      (src/nox/netapps/routing/routing.cc) in [Routing], [RoutingFacts],
      [RoutingProps]; the flow entries
      that the same file sends along a route, with address translation, in
      [FlowSetup], [FlowSetupRoute], [FlowSetupProps],
      [FlowSetupFlood]; multicast routes as trees and their installation
      (src/nox/netapps/route/routeinstaller.cc, src/lib/network_graph.cc,
      openflow-action.cc) in [RouteInstaller]; the topology
      (src/nox/netapps/topology/topology.cc) in [Topology], [TopologyFacts],
      [TopologyProps]; host locations (src/nox/netapps/hoststate/hosttracker.cc,
      trackhost_pktin.cc) in [Hosttracker], [HosttrackerFacts],
      [HosttrackerProps]; known datapaths, link load, round-trip times
      (src/nox/netapps/networkstate/) and addresses of hosts (hoststate/hostip.cc)
      in [NetworkState].

    ** How the code is translated

    A method is a function on an explicit state, in the order of its statements.
    A failed assertion, a use of freed memory or of an iterator to an erased
    element, and an exception are results of the model ([res] below, or a result
    type of the component when the state after an exception matters).  Integers
    are kept at their width where the code can exceed it ([wrap]).  A hash table
    is a finite map; where its order of traversal, the tie-breaking of a heap or
    the reuse of an address can be observed, it is an argument or a class, and
    the theorems hold for every choice.  Code of other parties (sockets, clocks,
    handlers, components) is an argument too.

    ** What the theorems show

    - Classifier: any history of operations behaves as a map from ids to rules,
      lookups return exactly the matching rules in order of priority, deletion
      during iteration is exact, rebuilding is invisible and terminates.
    - Packets and structures: parsing reads only inside the packet and recovers
      the headers of well-formed frames; packing and unpacking are inverse, in
      wire format; matches and flows convert without loss; texts of Ethernet addresses
      and of prefixes are read exactly, and prefixes match by their leading bits.
    - Connections: messages are reassembled under any chunking and sent in order;
      nothing is delivered before the handshake; connecting terminates.
    - Events and timers: first in, first out, in order of priority, under every
      schedule and re-entrant poll; no timer is used after deletion or leaked;
      timers fire once, in order, when due.
    - Controller: the registry names exactly the open connections and uses none
      after its deletion, with polls that overlap and close connections; the
      handshake follows its protocol against any other side, registers nothing
      without approval, and completes with a switch that answers.
    - Message events: an event has the fields of its message, for all encoded
      messages; long management messages survive being cut up.
    - Management: resources are parsed as they are encoded; configurations
      survive their text form, and both sides compute the same cookie; SHA-1 is
      that of FIPS 180; a manager has the configuration of its switch once the
      answers are handled, whatever is committed and changed meanwhile.
    - Poll loop: whatever pollables do, no removed one is called, no erased node
      is used, and one thread at a time services the list.
    - Threads: every sequence of waiting, waking and giving up keeps the waitqueues
      first in, first out, whatever uninitialised links hold; a mutex excludes and is
      granted in order, semaphores and barriers count, and a reader-writer lock
      excludes until a writer hands it to a writer.
    - Messenger: both protocols reassemble their messages from blocks of any
      size.
    - Kernel: installation terminates and installs exactly what can be installed,
      dependencies first.
    - Applications: the switch forwards to the port last seen; routes are simple
      paths over links that are up, and are the links the topology lists; the
      entries sent along a route carry a packet to its end, with the headers and
      addresses prescribed; the tree of a multicast route delivers a packet once to
      every destination; the topology answers from the events alone; hosts have their most recently
      seen places; link loads are the differences of the last two statistics.
    - Where the code does not do what it means to, a theorem says what it does:
      [RoutingProps.routes_may_be_missing], [TopologyProps.port_state_is_lost],
      [HosttrackerProps.timeouts_never_start] and
      [remove_location_takes_too_much], [KernelProps.lower_state_refused] and
      [missing_description_wedges], [MessengerProps.bad_length_is_fatal],
      [braces_in_strings_split_messages] and [echoes_are_empty],
      [FlowSetupProps.tos_is_not_followed], [flooding_loses_actions] and
      [long_actions_overflow], [RegistryProps.leaves_as_manager],
      [HandshakeProps.short_error_is_fatal], [CfgProps.text_reorders_values],
      [OfmpProps.empty_tlv_hangs] and [long_tlv_overreads],
      [OfmpExtended.limit_is_off_by_one], [nested_pieces_are_fatal] and
      [busy_connection_drops_pieces], [OpenflowEventProps.queue_ids_are_lost],
      [queue_properties_are_lost], [empty_action_hangs] and
      [short_messages_are_fatal], [SwitchMgrProps.revert_hides_conflict],
      [CoSyncProps.write_handover_fails], [reader_stranded] and
      [recursive_read_deadlock], [Addresses.ip_classes] and [long_mask_undefined],
      [NetworkState.departure_dangles], [rtt_from_first] and
      [Hostip.tests_last_octet], [Switch.Hub.hub_floods],
      [RouteInstaller.rejoining_ways_lose] and [actions_accumulate].

    ** Bounds

    Loops that are not structural take fuel.  Each is shown to be enough:
    [build_fuel] (height and number of fields) for building the tree, the number
    of stored rules for iterations over results, five turns for connecting, the
    number of locations for timeouts, the transitions left plus the components
    known for the kernel, the length of a message for the elements in it and for
    the pieces of it, one level for messages inside pieces, the number of events for
    the lists of a waitqueue, 32 rounds for the length of a mask; for routing some bound exists for every sequence of
    link events, and any larger one gives the same result.

    ** Not modelled

    Vendor messages and reconnection of openflow.cc and the reaction to flows of
    sprouting.cc could be modelled in the same way.  Of the
    cooperative threads, stacks, context switches, signals, polling of descriptors,
    timers and the growth of a thread's list of events are left out.  The predicates over authenticated flows (flow_util.cc) negate by
    negative values of an enumeration whose signedness the language leaves open.
    Sockets, TLS, the resolver, logging, the command line, shared objects and the Python runtime are calls of
    the operating system or of other libraries.  The authenticator, the bindings
    and the storage are chains of callbacks over an asynchronous store and may
    follow later. *)

From Stdlib Require Export ZArith Lia Sorting.Sorted.
From stdpp Require Export base numbers list sorting gmap.

(** ** Outcomes of C++ code

    [Ret x] is a normal return, [Aborted] a failed [assert] (the process dies)
    or a use of memory that is no longer valid,
    [Throw] a C++ exception, and [NoFuel] marks a loop that was cut short by
    the bound given to its model; theorems show it never arises. *)
Inductive res (A : Type) : Type :=
| Ret (x : A)
| Throw (errno : Z)
| Aborted
| NoFuel.
Arguments Ret {A} x.
Arguments Throw {A} errno.
Arguments Aborted {A}.
Arguments NoFuel {A}.

#[export] Instance res_ret : MRet res := @Ret.
#[export] Instance res_bind : MBind res := fun A B f m =>
  match m with
  | Ret x => f x
  | Throw e => Throw e
  | Aborted => Aborted
  | NoFuel => NoFuel
  end.

(** ** Machine integers

    A [w]-bit unsigned integer is a [Z] in [0, 2^w); [uN] is the conversion
    C++ performs when a value is stored in (or an operation yields) an
    [N]-bit unsigned type. *)
Declare Scope nox_scope.
Delimit Scope nox_scope with nox.

Definition wrap (w : Z) (x : Z) : Z := x `mod` 2 ^ w.
Abbreviation u8 := (wrap 8).
Abbreviation u16 := (wrap 16).
Abbreviation u32 := (wrap 32).
Abbreviation u64 := (wrap 64).

Definition in_width (w : Z) (x : Z) : Prop := (0 <= x < 2 ^ w)%Z.
Abbreviation is_u8 := (in_width 8).
Abbreviation is_u16 := (in_width 16).
Abbreviation is_u32 := (in_width 32).
Abbreviation is_u64 := (in_width 64).

#[export] Instance in_width_dec w x : Decision (in_width w x).
Proof. unfold in_width. apply _. Defined.

(** Lemmas the components register for [auto with nox] *)
Create HintDb nox.

(** Case analysis on a proposition the goal decides several times *)
Ltac split_decide P :=
  let H := fresh "Hd" in
  destruct (decide P) as [H|H]; [rewrite !(bool_decide_true P) by done|rewrite !(bool_decide_false P) by done].

(** ** Loops over C++ containers that thread state *)

(** [upd_first p f l s] runs [f] on the first element of [l] that satisfies
    [p], as a scan of a linked chain that stops at its first hit. *)
Definition upd_first {A S : Type} (p : A -> bool) (f : A -> S -> A * S)
    : list A -> S -> list A * S :=
  fix go (l : list A) (s : S) : list A * S :=
    match l with
    | [] => ([], s)
    | x :: l' =>
        if p x then let '(x', s') := f x s in (x' :: l', s')
        else let '(l'', s') := go l' s in (x :: l'', s')
    end.

(** [upd_nth f i l s] runs [f] on [l[i]] in place. *)
Definition upd_nth {A S : Type} (f : A -> S -> A * S)
    : nat -> list A -> S -> list A * S :=
  fix go (i : nat) (l : list A) (s : S) {struct l} : list A * S :=
    match l, i with
    | [], _ => ([], s)
    | x :: l', O => let '(x', s') := f x s in (x' :: l', s')
    | x :: l', Datatypes.S i' => let '(l'', s') := go i' l' s in (x :: l'', s')
    end.

(** [map_st f l s] runs [f] on every element in order. *)
Definition map_st {A B S : Type} (f : A -> S -> B * S)
    : list A -> S -> list B * S :=
  fix go (l : list A) (s : S) : list B * S :=
    match l with
    | [] => ([], s)
    | x :: l' =>
        let '(y, s1) := f x s in
        let '(ys, s2) := go l' s1 in (y :: ys, s2)
    end.

(** [swap_remove i l] overwrites [l[i]] by the last element and drops the
    last one: the vector idiom [v[i] = v[--n]]. *)
Definition swap_remove {A : Type} (i : nat) (l : list A) : list A :=
  match last l with
  | Some x => take (length l - 1) (<[i := x]> l)
  | None => []
  end.

(** [remove_first p l] erases the first element that satisfies [p]. *)
Fixpoint remove_first {A : Type} (p : A -> bool) (l : list A) : list A :=
  match l with
  | [] => []
  | x :: l' => if p x then l' else x :: remove_first p l'
  end.

(** [list::empty] and the null test of a pointer. *)
Definition is_nil {A : Type} (l : list A) : bool :=
  match l with [] => true | _ => false end.

Definition is_none {A : Type} (o : option A) : bool :=
  match o with None => true | Some _ => false end.

(** ** Lists *)

Section list_facts.
Context {A : Type}.
Implicit Types (l : list A) (x y : A).

Lemma insert_delete_Permutation l (i : nat) x y :
  l !! i = Some x -> <[i := y]> l ≡ₚ y :: delete i l.
Proof.
  intros Hi. pose proof (lookup_lt_Some _ _ _ Hi).
  rewrite (delete_Permutation (<[i:=y]> l) i y) by (by apply list_lookup_insert_eq).
  f_equiv. rewrite list_insert_alter. revert i Hi H.
  induction l as [|z l IH]; intros [|i] Hi Hl; simplify_eq/=; [done|].
  f_equiv. apply IH; [done|lia].
Qed.

Lemma swap_remove_length l (i : nat) x :
  l !! i = Some x -> length (swap_remove i l) = pred (length l).
Proof.
  intros Hi. pose proof (lookup_lt_Some _ _ _ Hi). unfold swap_remove.
  destruct (last l) eqn:El.
  - rewrite length_take, length_insert. lia.
  - apply last_None in El. by subst.
Qed.

Lemma swap_remove_lookup_lt l (i j : nat) x :
  l !! i = Some x -> (j < i)%nat -> swap_remove i l !! j = l !! j.
Proof.
  intros Hi Hj. pose proof (lookup_lt_Some _ _ _ Hi). unfold swap_remove.
  destruct (last l) eqn:El.
  - rewrite lookup_take_lt by lia. apply list_lookup_insert_ne. lia.
  - apply last_None in El. by subst.
Qed.

Lemma swap_remove_Permutation l (i : nat) x :
  l !! i = Some x -> l ≡ₚ x :: swap_remove i l.
Proof.
  intros Hi. pose proof (lookup_lt_Some _ _ _ Hi) as Hlt. unfold swap_remove.
  destruct (last l) as [z|] eqn:El; [|apply last_None in El; by subst].
  apply last_Some in El as [l' ->]. rewrite length_app in *. simpl in *.
  replace (length l' + 1 - 1)%nat with (length l') by lia.
  destruct (decide (i = length l')) as [->|Hne].
  - rewrite lookup_app_r in Hi by lia. rewrite Nat.sub_diag in Hi. simplify_eq/=.
    rewrite list_insert_id by (rewrite lookup_app_r, Nat.sub_diag; done).
    rewrite take_app_length. by rewrite Permutation_app_comm.
  - rewrite lookup_app_l in Hi by lia. rewrite insert_app_l by lia.
    rewrite take_app_le, firstn_all2 by (rewrite length_insert; lia).
    rewrite (insert_delete_Permutation _ _ _ z Hi).
    rewrite (delete_Permutation _ _ _ Hi) at 1.
    rewrite Permutation_app_comm. simpl. constructor.
Qed.

Lemma remove_first_Permutation (p : A -> bool) l x :
  x ∈ l -> (forall y, y ∈ l -> p y = true <-> y = x) ->
  l ≡ₚ x :: remove_first p l.
Proof.
  induction l as [|z l IH]; intros Hx Hp; [by apply elem_of_nil in Hx|]. simpl.
  destruct (p z) eqn:Ez.
  - apply Hp in Ez; [by subst|left].
  - apply elem_of_cons in Hx as [->|Hx].
    { assert (p z = true) by (apply Hp; [left|done]). congruence. }
    rewrite IH at 1; [constructor|done|]. intros y Hy. apply Hp. by right.
Qed.

Lemma elem_of_flat_map {B : Type} (f : A -> list B) l (y : B) :
  y ∈ flat_map f l <-> exists x, x ∈ l /\ y ∈ f x.
Proof.
  rewrite list_elem_of_In, in_flat_map. setoid_rewrite <- list_elem_of_In. done.
Qed.

Lemma elem_of_concat (ls : list (list A)) x :
  x ∈ concat ls <-> exists l, l ∈ ls /\ x ∈ l.
Proof.
  rewrite list_elem_of_In, in_concat. setoid_rewrite <- list_elem_of_In. naive_solver.
Qed.

Lemma flat_map_Permutation_ext {B : Type} (f g : A -> list B) l :
  (forall x, x ∈ l -> f x ≡ₚ g x) -> flat_map f l ≡ₚ flat_map g l.
Proof.
  induction l as [|x l IH]; simpl; intros Hfg; [done|].
  rewrite Hfg by left. rewrite IH; [done|]. intros. apply Hfg. by right.
Qed.

Lemma filter_all (P : A -> Prop) `{!forall x, Decision (P x)} l :
  (forall x, x ∈ l -> P x) -> filter P l = l.
Proof.
  induction l as [|x l IH]; intros HP; [done|]. rewrite filter_cons_True by (apply HP; left).
  f_equal. apply IH. intros. apply HP. by right.
Qed.

Lemma filter_none (P : A -> Prop) `{!forall x, Decision (P x)} l :
  (forall x, x ∈ l -> ~ P x) -> filter P l = [].
Proof.
  induction l as [|x l IH]; intros HP; [done|]. rewrite filter_cons_False by (apply HP; left).
  apply IH. intros. apply HP. by right.
Qed.

Lemma filter_submseteq (P : A -> Prop) `{!forall x, Decision (P x)} l l' :
  l ⊆+ l' -> filter P l ⊆+ filter P l'.
Proof.
  intros [k ->]%submseteq_Permutation. rewrite filter_app. by apply submseteq_inserts_r.
Qed.

Lemma filter_partition (P : A -> Prop) `{!forall x, Decision (P x)} l :
  filter P l ++ filter (fun x => ~ P x) l ≡ₚ l.
Proof.
  induction l as [|x l IH]; [done|]. rewrite !filter_cons. destruct (decide (P x)).
  - rewrite decide_False by auto. simpl. by rewrite IH.
  - rewrite decide_True by done. rewrite <- Permutation_middle. by rewrite IH.
Qed.

Lemma submseteq_NoDup l l' : l ⊆+ l' -> NoDup l' -> NoDup l.
Proof. intros [k ->]%submseteq_Permutation. by intros [? _]%NoDup_app. Qed.

(** Sublists picked by different values of a key add up to a sublist. *)
Lemma flat_map_key_submseteq {K : Type} `{EqDecision K} (key : A -> K) (g : K -> list A) vs l :
  NoDup vs -> (forall v, g v ⊆+ l) -> (forall v x, x ∈ g v -> key x = v) ->
  flat_map g vs ⊆+ l.
Proof.
  revert l g. induction vs as [|v vs IH]; intros l g Hnd Hsub Hkey; [apply submseteq_nil_l|]. simpl.
  apply NoDup_cons in Hnd as [Hv Hnd]. rewrite <- (filter_partition (fun x => key x = v) l).
  apply submseteq_app.
  - rewrite <- (filter_all (fun x => key x = v) (g v)) by apply Hkey. by apply filter_submseteq.
  - set (g' := fun w => filter (fun x => key x <> v) (g w)).
    assert (Hg : flat_map g vs = flat_map g' vs).
    { clear -Hv Hkey. induction vs as [|w vs IH]; [done|]. simpl.
      apply not_elem_of_cons in Hv as [Hw Hv]. rewrite IH by done. f_equal. symmetry.
      apply filter_all. intros x Hx. rewrite (Hkey w x Hx). auto. }
    rewrite Hg. apply (IH _ g'); [done| |].
    + intros w. by apply filter_submseteq.
    + intros w x [_ Hx]%list_elem_of_filter. eauto.
Qed.
End list_facts.

(** ** The [res] monad *)

Lemma res_bind_Ret {A B : Type} (f : A -> res B) (m : res A) (y : B) :
  m ≫= f = Ret y <-> exists x, m = Ret x /\ f x = Ret y.
Proof. destruct m; simpl; split; try (intros (? & ? & ?)); naive_solver. Qed.

Section loop_facts.
Context {A S : Type}.

Lemma upd_first_split (p : A -> bool) (f : A -> S -> A * S) l s :
  existsb p l = true ->
  exists l1 x l2, l = l1 ++ x :: l2 /\ p x = true /\ Forall (fun y => p y = false) l1 /\
    upd_first p f l s = (l1 ++ fst (f x s) :: l2, snd (f x s)).
Proof.
  induction l as [|y l IH]; simpl; [done|]. destruct (p y) eqn:Ey; simpl.
  - intros _. exists [], y, l. destruct (f y s). done.
  - intros Hl. destruct (IH Hl) as (l1 & x & l2 & -> & Hx & Hl1 & ->).
    exists (y :: l1), x, l2. split_and!; try done. by constructor.
Qed.

Lemma upd_nth_lookup (f : A -> S -> A * S) (i : nat) l s x :
  l !! i = Some x -> upd_nth f i l s = (<[i := fst (f x s)]> l, snd (f x s)).
Proof.
  revert i. induction l as [|y l IH]; intros [|i] Hi; simplify_eq/=.
  - by destruct (f x s).
  - by rewrite (IH _ Hi).
Qed.

Lemma upd_nth_None (f : A -> S -> A * S) (i : nat) l s :
  l !! i = None -> upd_nth f i l s = (l, s).
Proof.
  revert i. induction l as [|y l IH]; intros [|i] Hi; simplify_eq/=; [done..|].
  by rewrite (IH _ Hi).
Qed.

Lemma map_st_app {B} (f : A -> S -> B * S) l1 l2 s :
  map_st f (l1 ++ l2) s =
  (fst (map_st f l1 s) ++ fst (map_st f l2 (snd (map_st f l1 s))),
   snd (map_st f l2 (snd (map_st f l1 s)))).
Proof.
  revert s. induction l1 as [|x l1 IH]; intros s; simpl; [by destruct (map_st f l2 s)|].
  destruct (f x s) as [y s1] eqn:Ef. rewrite IH. by destruct (map_st f l1 s1).
Qed.

Lemma map_st_length {B} (f : A -> S -> B * S) l s :
  length (fst (map_st f l s)) = length l.
Proof.
  revert s. induction l as [|x l IH]; intros s; simpl; [done|].
  destruct (f x s) as [y s1]. specialize (IH s1). destruct (map_st f l s1). simpl in *. lia.
Qed.

Lemma map_st_ext {B} (f g : A -> S -> B * S) l s :
  (forall x s, x ∈ l -> f x s = g x s) -> map_st f l s = map_st g l s.
Proof.
  revert s. induction l as [|x l IH]; intros s Hfg; simpl; [done|].
  rewrite Hfg by left. destruct (g x s). rewrite IH; [done|]. intros. apply Hfg. by right.
Qed.

(** A loop over the chains of a hash table is a loop over their concatenation. *)
Lemma map_st_concat {B} (f : A -> S -> B * S) (ls : list (list A)) s :
  concat (fst (map_st (map_st f) ls s)) = fst (map_st f (concat ls) s) /\
  snd (map_st (map_st f) ls s) = snd (map_st f (concat ls) s) /\
  Forall2 (fun l l' => length l = length l') ls (fst (map_st (map_st f) ls s)).
Proof.
  revert s. induction ls as [|l ls IH]; intros s; simpl; [done|].
  rewrite map_st_app. destruct (map_st f l s) as [l' s1] eqn:El.
  destruct (IH s1) as (IH1 & IH2 & IH3). destruct (map_st (map_st f) ls s1). simpl in *.
  rewrite IH1, IH2. split_and!; try done. constructor; [|done].
  by rewrite <- (map_st_length f l s), El.
Qed.

Lemma Forall2_concat_inv {B} (P : A -> B -> Prop) (ls : list (list A)) (ls' : list (list B)) :
  Forall2 (fun l l' => length l = length l') ls ls' ->
  Forall2 P (concat ls) (concat ls') -> Forall2 (Forall2 P) ls ls'.
Proof.
  induction 1 as [|l l' ls ls' Hl _ IH]; simpl; intros HP; [constructor|].
  apply Forall2_app_inv in HP as [??]; [|done]. constructor; auto.
Qed.
End loop_facts.
