(* ===== verification/Cnode.v ===== *)
(** * The packet classifier's tree (src/include/cnode.hh, rule.hh)

    Data and operations of [Cnode<Expr, Action>], generic in the expression
    type through the interface [ExprOps] and in the classified data through
    [DataOps]. *)

From S2P Require Import Prelude.

Open Scope Z_scope.

(** ** The interface of an expression class *)

(** What [Cnode] asks of [Expr] (the "required interface" of expr.hh). *)
Class ExprOps (E : Type) := {
  num_fields : nat;
  leaf_threshold : nat;
  splittable : E -> Z -> bool;
  get_field : E -> Z -> option Z
}.

(** What [Cnode] and [Cnode_result] ask of a classified data type: the free
    functions [get_field<Expr, Data>] and [matches<Expr, Data>].  Both may
    fail an [assert].  [data_max_idx] bounds the index at which [get_field]
    starts to answer "no more values". *)
Class DataOps (E D : Type) := {
  data_get_field : Z -> D -> nat -> res (option Z);
  data_matches : Z -> E -> D -> res bool;
  data_max_idx : nat
}.

(** ** Data *)

Section data.
Context {E A : Type}.

(** [Rule<Expr, Action>]; [r_node] is the [Cnode*] back pointer, as the
    address of the node. *)
Record rule := Rule {
  r_id : Z;
  r_priority : Z;
  r_expr : E;
  r_action : A;
  r_node : option Z
}.

(** The rule objects reachable by pointer, keyed by their (constant, unique)
    id, and the next address [new] hands out. *)
Record state := State { heap : gmap Z rule; brk : Z }.

End data.

Arguments rule : clear implicits.
Arguments state : clear implicits.

Definition with_node {E A} (p : option Z) (r : rule E A) : rule E A :=
  Rule (r_id r) (r_priority r) (r_expr r) (r_action r) p.

Definition with_priority {E A} (p : Z) (r : rule E A) : rule E A :=
  Rule (r_id r) p (r_expr r) (r_action r) (r_node r).

(** A node: its address, the field value it stands for and its list of rule
    pointers; an internal node adds the split field, the hash buckets (each a
    chain linked by [next]) and the [any_node].  [bucket_mask] is derived: -1
    for a leaf, the number of buckets minus one otherwise. *)
#[warnings="-register-all"]
Inductive cnode : Type :=
| Leaf (addr value : Z) (rules : list Z)
| Split (addr value : Z) (rules : list Z) (split_field : Z)
    (buckets : list (list cnode)) (any_node : option cnode).

Definition node_addr (n : cnode) : Z :=
  match n with Leaf a _ _ => a | Split a _ _ _ _ _ => a end.

Definition node_value (n : cnode) : Z :=
  match n with Leaf _ v _ => v | Split _ v _ _ _ _ => v end.

Definition node_rules (n : cnode) : list Z :=
  match n with Leaf _ _ rs => rs | Split _ _ rs _ _ _ => rs end.

Definition set_rules (n : cnode) (rs : list Z) : cnode :=
  match n with
  | Leaf a v _ => Leaf a v rs
  | Split a v _ f bks any => Split a v rs f bks any
  end.

Definition bucket_mask (n : cnode) : Z :=
  match n with
  | Leaf _ _ _ => -1
  | Split _ _ _ _ bks _ => Z.of_nat (length bks) - 1
  end.

(** Every node of a tree, in the order the recursive member functions visit
    them: the node, its buckets' chains, its [any_node]. *)
Fixpoint nodes (n : cnode) : list cnode :=
  n :: match n with
       | Leaf _ _ _ => []
       | Split _ _ _ _ bks any =>
           flat_map (flat_map nodes) bks
           ++ match any with Some c => nodes c | None => [] end
       end.

(** [Cnode::MASKS[i]] *)
Definition masks (f : Z) : Z := u32 (Z.shiftl 1 f).

Definition hash_multiplier : Z := 2654435761.

(** [Cnode::get_bucket] *)
Definition get_bucket (value mask : Z) : Z :=
  Z.land (u32 (value * hash_multiplier)) mask.

(** ** Operations that change the tree *)

Section ops.
Context {E A : Type} `{ExprOps E}.
Implicit Types (R : gmap Z (rule E A)) (st : state E A) (n : cnode).

(** The priority of the rule a list cell points to. *)
Definition pri R (id : Z) : Z :=
  match R !! id with Some r => r_priority r | None => 0 end.

Definition set_node (id : Z) (p : option Z) st : state E A :=
  State (alter (with_node p) id (heap st)) (brk st).

(** [new Cnode(value)] *)
Definition new_leaf (value : Z) st : cnode * state E A :=
  (Leaf (brk st) value [], State (heap st) (brk st + 1)).

(** [Cnode::add_rule_to_list] *)
Fixpoint add_rule_to_list R (id p : Z) (rules : list Z) : list Z :=
  match rules with
  | [] => [id]
  | x :: rest =>
      if p <=? pri R x then id :: x :: rest
      else x :: add_rule_to_list R id p rest
  end.

(** The branch of [Cnode::add_rule] that stops at the current node. *)
Definition add_here (r : rule E A) (set_pointer : bool) n st : cnode * state E A :=
  (set_rules n (add_rule_to_list (heap st) (r_id r) (r_priority r) (node_rules n)),
   if set_pointer then set_node (r_id r) (Some (node_addr n)) st else st).

(** [Cnode::add_rule] *)
Fixpoint add_rule (r : rule E A) (path : Z) (set_pointer : bool) n st {struct n}
    : cnode * state E A :=
  match n with
  | Leaf _ _ _ => add_here r set_pointer n st
  | Split a v rs f bks any =>
      if negb (splittable (r_expr r) path) then add_here r set_pointer n st
      else
        let path' := Z.lor path (masks f) in
        match get_field (r_expr r) f with
        | Some rule_value =>
            let bucket := Z.to_nat (get_bucket rule_value (bucket_mask n)) in
            let '(bks', st') :=
              upd_nth (fun chain st =>
                if existsb (fun c => node_value c =? rule_value) chain then
                  upd_first (fun c => node_value c =? rule_value)
                    (fun c st => add_rule r path' set_pointer c st) chain st
                else
                  let '(child, st1) := new_leaf rule_value st in
                  let '(child', st2) := add_here r set_pointer child st1 in
                  (child' :: chain, st2)) bucket bks st in
            (Split a v rs f bks' any, st')
        | None =>
            let '(child', st') :=
              match any with
              | Some c => add_rule r path' set_pointer c st
              | None => let '(child, st1) := new_leaf 0 st in
                        add_here r set_pointer child st1
              end in
            (Split a v rs f bks (Some child'), st')
        end
  end.

(** The loop of [split] and [split_node] that adds a list of rules to a
    node without touching the rules' node pointers. *)
Fixpoint add_rules (path : Z) (ids : list Z) n st : cnode * state E A :=
  match ids with
  | [] => (n, st)
  | id :: rest =>
      match heap st !! id with
      | Some r => let '(n', st') := add_rule r path false n st in
                  add_rules path rest n' st'
      | None => add_rules path rest n st
      end
  end.

(** [Cnode::change_rule_priority] at node [n]: whether the rule was found,
    the node with its list reordered, and the rule store. *)
Definition change_rule_priority_at (id priority : Z) n st
    : bool * cnode * state E A :=
  if existsb (Z.eqb id) (node_rules n) then
    let R' := alter (with_priority priority) id (heap st) in
    (true,
     set_rules n (add_rule_to_list R' id priority
                    (remove_first (Z.eqb id) (node_rules n))),
     State R' (brk st))
  else (false, n, st).

(** The effect on a rule of a node that lets go of it: its back pointer is
    cleared only when it points to that node. *)
Definition unlink (a : Z) (id : Z) st : state E A :=
  State (alter (fun r => if decide (r_node r = Some a) then with_node None r else r)
           id (heap st)) (brk st).

(** [Cnode::remove_rule] at node [n]. *)
Definition remove_rule_at (id : Z) n st : bool * cnode * state E A :=
  if existsb (Z.eqb id) (node_rules n) then
    (true, set_rules n (remove_first (Z.eqb id) (node_rules n)),
     unlink (node_addr n) id st)
  else (false, n, st).

(** Following a [Cnode*]: [f] runs on the node of the tree whose address is
    [a]; [None] when no node of the tree has it (a dangling pointer). *)
Fixpoint find_node (a : Z) n : option cnode :=
  if node_addr n =? a then Some n
  else match n with
       | Leaf _ _ _ => None
       | Split _ _ _ _ bks any =>
           head (flat_map (flat_map (fun c => option_list (find_node a c))) bks
                 ++ match any with Some c => option_list (find_node a c) | None => [] end)
       end.

(** The tree after the node at address [a] has had its list replaced. *)
Fixpoint put_rules (a : Z) (rs : list Z) n : cnode :=
  match n with
  | Leaf b v rs0 => Leaf b v (if b =? a then rs else rs0)
  | Split b v rs0 f bks any =>
      Split b v (if b =? a then rs else rs0) f
        (map (map (put_rules a rs)) bks)
        (match any with Some c => Some (put_rules a rs c) | None => None end)
  end.

(** [Cnode::~Cnode] *)
Definition destroy n st : state E A :=
  foldl (fun st m => foldl (fun st id => unlink (node_addr m) id st) st (node_rules m))
    st (nodes n).

(** [Cnode::set_node_pointers] *)
Definition set_node_pointers n st : state E A :=
  foldl (fun st m => foldl (fun st id => set_node id (Some (node_addr m)) st)
                       st (node_rules m))
    st (nodes n).

(** ** Splitting *)

(** [while (n_buckets < bound) n_buckets = n_buckets << 1], an [int]. *)
Fixpoint grow_buckets (fuel : nat) (n_buckets bound : Z) : Z :=
  match fuel with
  | O => n_buckets
  | S k => if n_buckets <? bound then grow_buckets k (Z.shiftl n_buckets 1) bound
           else n_buckets
  end.

(** One rule of the loop of [exp_rules_with_split]: counters of rules with
    and without a value, the buckets hit and how many they are. *)
Definition count_rule R (field mask : Z) (acc : Z * Z * list bool * Z) (id : Z)
    : Z * Z * list bool * Z :=
  let '(n_anys, n_def, tmp_buckets, n_distinct) := acc in
  match R !! id with
  | None => acc
  | Some r =>
      match get_field (r_expr r) field with
      | Some rule_value =>
          let bucket := Z.to_nat (get_bucket rule_value mask) in
          if default false (tmp_buckets !! bucket)
          then (n_anys, n_def + 1, tmp_buckets, n_distinct)
          else (n_anys, n_def + 1, <[bucket := true]> tmp_buckets, n_distinct + 1)
      | None => (n_anys + 1, n_def, tmp_buckets, n_distinct)
      end
  end.

(** [Cnode::exp_rules_with_split]: the expected number of rules left to check
    and the number of distinct buckets. *)
Definition exp_rules_with_split R (ids : list Z) (field mask : Z) : Z * Z :=
  let '(n_anys, n_def, _, n_distinct) :=
    foldl (count_rule R field mask)
      (0, 0, replicate (Z.to_nat (mask + 1)) false, 0) ids in
  if n_distinct =? 0 then (n_anys, n_distinct)
  else (n_anys + n_def / n_distinct, n_distinct).

(** [Cnode::best_split]: the best field ([num_fields] when there is none), the
    expected number of rules and the number of distinct buckets. *)
Definition best_split R (ids : list Z) (path : Z) : Z * Z * Z :=
  let n_buckets := grow_buckets 31 1 (Z.of_nat (length ids) * 3) in
  let none := Z.of_nat num_fields in
  foldl (fun '(best_field, min_rules, min_distinct) i =>
           if Z.land path (masks i) =? 0 then
             let '(exp, n_distinct) := exp_rules_with_split R ids i (n_buckets - 1) in
             if (best_field =? none) || (exp <? min_rules)
             then (i, exp, n_distinct)
             else (best_field, min_rules, min_distinct)
           else (best_field, min_rules, min_distinct))
    (none, 0, 0) (map Z.of_nat (seq 0 num_fields)).

(** [Cnode::split] (with [split_node] inlined for the copied case): a leaf is
    either left alone or becomes an internal node with the same value, at the
    same address when it already belongs to a copy. *)
Definition split (path : Z) (is_copy : bool) n st : cnode * state E A :=
  let '(field, n_branch_rules, n_distinct) := best_split (heap st) (node_rules n) path in
  if (field =? Z.of_nat num_fields)
     || (u64 (Z.of_nat (length (node_rules n)) - n_branch_rules)
         <? Z.of_nat leaf_threshold)
  then (n, st)
  else
    let n_buckets := grow_buckets 31 1 (n_distinct * 3) in
    let buckets := replicate (Z.to_nat n_buckets) [] in
    if is_copy then
      add_rules path (node_rules n)
        (Split (node_addr n) (node_value n) [] field buckets None) st
    else
      add_rules path (node_rules n)
        (Split (brk st) (node_value n) [] field buckets None)
        (State (heap st) (brk st + 1)).

(** [Cnode::build] and [Cnode::build_children].  [fuel] bounds the depth of
    the recursion; [build_fuel] below is always enough. *)
Fixpoint build (fuel : nat) (path : Z) (is_copy : bool) n st : cnode * state E A :=
  match fuel with
  | O => (n, st)
  | S fuel' =>
      let build_child (path' : Z) (copy' : bool) (c : cnode) (st : state E A) :=
        let '(c', st') := build fuel' path' copy' c st in
        (c', if copy' then st'
             else if node_addr c' =? node_addr c then st' else destroy c st') in
      let build_children (m : cnode) (st : state E A) :=
        match m with
        | Leaf _ _ _ => (m, st)
        | Split a v rs f bks any =>
            let path' := Z.lor path (masks f) in
            let copy' := is_copy || negb (a =? node_addr n) in
            let '(bks', st1) := map_st (map_st (build_child path' copy')) bks st in
            let '(any', st2) :=
              match any with
              | Some c => let '(c', s) := build_child path' copy' c st1 in (Some c', s)
              | None => (None, st1)
              end in
            let new_this := Split a v rs f bks' any' in
            (new_this,
             if negb is_copy && copy' then set_node_pointers new_this st2 else st2)
        end in
      match n with
      | Leaf _ _ rs =>
          if Nat.leb (length rs) leaf_threshold then (n, st)
          else let '(m, st1) := split path is_copy n st in build_children m st1
      | Split _ _ _ _ _ _ => build_children n st
      end
  end.

(** The depth of a tree. *)
Fixpoint height n : nat :=
  match n with
  | Leaf _ _ _ => 0
  | Split _ _ _ _ bks any =>
      S (max_list (map (fun ch => max_list (map height ch)) bks)
         `max` match any with Some c => height c | None => 0 end)
  end%nat.

Definition build_fuel n : nat := S (height n + num_fields).

(** ** Unbuilding and cleaning *)

(** [std::list::merge] with [Rule::list_compare]: elements of the receiver
    come first among equals. *)
Fixpoint merge_rules R (l1 : list Z) : list Z -> list Z :=
  fix go (l2 : list Z) : list Z :=
    match l1, l2 with
    | [], _ => l2
    | _, [] => l1
    | x :: l1', y :: l2' =>
        if pri R y <? pri R x then y :: go l2' else x :: merge_rules R l1' l2
    end.

(** [Cnode::add_node_rules] *)
Definition add_node_rules R (rs : list Z) n : list Z :=
  foldl (fun acc m => merge_rules R acc (node_rules m)) rs (nodes n).

(** [Cnode::unbuild] *)
Definition unbuild n st : cnode * state E A :=
  match n with
  | Leaf _ _ _ => (n, st)
  | Split _ v _ _ _ _ =>
      let new_this := Leaf (brk st) v (add_node_rules (heap st) [] n) in
      (new_this, set_node_pointers new_this (State (heap st) (brk st + 1)))
  end.

End ops.

(** [Cnode::clean]: the tree without its empty subtrees, and whether the node
    itself may go. *)
Fixpoint clean (n : cnode) : cnode * bool :=
  let clean_chain :=
    fix go (ch : list cnode) : list cnode :=
      match ch with
      | [] => []
      | c :: rest => let '(c', gone) := clean c in
                     if gone then go rest else c' :: go rest
      end in
  match n with
  | Leaf _ _ rs => (n, is_nil rs)
  | Split a v rs f bks any =>
      let bks' := map clean_chain bks in
      let any' := match any with
                  | Some c => let '(c', gone) := clean c in
                              if gone then None else Some c'
                  | None => None
                  end in
      (Split a v rs f bks' any',
       is_nil rs && forallb is_nil bks' && is_none any')
  end.

(** ** Traversal *)

Section traverse.
Context {E D : Type} `{DataOps E D}.

(** The [while (get_field(split_field, data, idx, value))] loop: the values
    the data takes on a field. *)
Fixpoint field_values (fuel : nat) (f : Z) (d : D) (idx : nat) : res (list Z) :=
  match fuel with
  | O => NoFuel
  | S k =>
      v ← data_get_field f d idx;
      match v with
      | None => Ret []
      | Some x => xs ← field_values k f d (S idx); Ret (x :: xs)
      end
  end.

(** The child of a chain that stands for a value. *)
Definition chain_find (value : Z) (chain : list cnode) : list cnode :=
  option_list (List.find (fun c => node_value c =? value) chain).

(** The children [Cnode::traverse] pushes, in the order it pushes them. *)
Definition selected (d : D) (n : cnode) : res (list cnode) :=
  match n with
  | Leaf _ _ _ => Ret []
  | Split _ _ _ f bks any =>
      vs ← field_values (S data_max_idx) f d 0;
      Ret (option_list any ++
           match vs with
           | [] => concat bks
           | _ => flat_map (fun v =>
                    chain_find v (default [] (bks !! Z.to_nat (get_bucket v (bucket_mask n)))))
                    vs
           end)
  end.

End traverse.
