(* ===== verification/CnodeResult.v ===== *)
(** * The classifier's result set (src/include/cnode-result.hh)

    [Cnode_result] holds one cursor per rule list reached by the traversal
    and merges them lazily by priority. *)

From S2P Require Import Prelude Cnode.

Open Scope Z_scope.

(** [current_rule]: the cells from [rule] to [end], and [ismatch]. *)
Record current_rule := Current { cur_rules : list Z; ismatch : bool }.

(** [Cnode_result::traversed], restricted to its first [num_lists] slots; the
    slots beyond are never read. *)
Abbreviation result := (list current_rule).

(** [Cnode_result::push] *)
Definition push (rules : list Z) (tv : result) : result :=
  if is_nil rules then tv else tv ++ [Current rules false].

Section next.
Context {E A D : Type} `{DataOps E D}.
Implicit Types (R : gmap Z (rule E A)) (d : D) (tv : result).

(** [++(current.rule)] on slot [i], which is given up to the last slot when
    its list is exhausted. *)
Definition advance (i : nat) (rest : list Z) tv : result :=
  match rest with
  | [] => swap_remove i tv
  | _ => <[i := Current rest false]> tv
  end.

(** The scan of [Cnode_result::next]; [best] is the rule, priority and slot of
    the best match so far. *)
Fixpoint next_loop (fuel : nat) R d (i : nat) (best : option (Z * Z * nat)) tv
    : res (option (Z * Z * nat) * result) :=
  match fuel with
  | O => NoFuel
  | S fuel' =>
      match tv !! i with
      | None => Ret (best, tv)
      | Some (Current [] _) => Aborted
      | Some (Current (id :: rest) m) =>
          match R !! id with
          | None => Aborted
          | Some r =>
              if match best with
                 | None => true
                 | Some (_, min_pri, _) => r_priority r <? min_pri
                 end
              then
                ok ← (if m then Ret true else data_matches id (r_expr r) d);
                if (ok : bool)
                then next_loop fuel' R d (S i) (Some (id, r_priority r, i))
                       (<[i := Current (id :: rest) true]> tv)
                else next_loop fuel' R d i best (advance i rest tv)
              else next_loop fuel' R d (S i) best tv
          end
      end
  end.

(** The number of cells not yet passed. *)
Definition pending tv : nat := sum_list_with (fun c => length (cur_rules c)) tv.

(** [Cnode_result::next]: the id of the next rule, if any. *)
Definition next R d tv : res (option Z * result) :=
  '(best, tv1) ← next_loop (S (pending tv + length tv)) R d 0 None tv;
  match best with
  | None => Ret (None, tv1)
  | Some (id, _, min_idx) =>
      match tv1 !! min_idx with
      | Some (Current (_ :: rest) _) => Ret (Some id, advance min_idx rest tv1)
      | _ => Aborted
      end
  end.

(** A client's [while (r = res.next())] loop. *)
Fixpoint drain (fuel : nat) R d tv : res (list Z) :=
  match fuel with
  | O => NoFuel
  | S k =>
      '(o, tv') ← next R d tv;
      match o with
      | None => Ret []
      | Some id => ids ← drain k R d tv'; Ret (id :: ids)
      end
  end.

End next.

(** ** What a cursor set still holds *)

Section next_facts.
Context {E A D : Type} `{DataOps E D}.
Implicit Types (R : gmap Z (rule E A)) (d : D) (tv : result) (c : current_rule).

(** Whether the rule behind a cell matches the data. *)
Definition matching R d (id : Z) : bool :=
  match R !! id with
  | Some r => match data_matches id (r_expr r) d with Ret b => b | _ => false end
  | None => false
  end.

(** The cell points to a live rule on which [matches] does not abort. *)
Definition defined R d (id : Z) : Prop :=
  exists r b, R !! id = Some r /\ data_matches id (r_expr r) d = Ret b.

(** Priority order on cells. *)
Definition pri_le R (x y : Z) : Prop := pri R x <= pri R y.

Definition cells tv : list Z := concat (cur_rules <$> tv).

Abbreviation remaining R d tv := (filter (fun id => matching R d id = true) (cells tv)).

(** A cursor: some cells left, in priority order, and [ismatch] honest. *)
Definition cursor_ok R d c : Prop :=
  cur_rules c <> [] /\ StronglySorted (pri_le R) (cur_rules c) /\
  Forall (defined R d) (cur_rules c) /\
  (ismatch c = true -> forall id rest, cur_rules c = id :: rest -> matching R d id = true).

#[local] Instance pri_le_trans R : Transitive (pri_le R).
Proof. unfold pri_le. intros ???. lia. Qed.

Lemma matching_defined R d id :
  defined R d id ->
  exists r, R !! id = Some r /\ data_matches id (r_expr r) d = Ret (matching R d id).
Proof.
  intros (r & b & Hr & Hm). exists r. unfold matching. by rewrite Hr, Hm.
Qed.

Lemma cells_Permutation tv1 tv2 : tv1 ≡ₚ tv2 -> cells tv1 ≡ₚ cells tv2.
Proof.
  unfold cells. induction 1; simpl; [done|by f_equiv| |by etrans].
  rewrite !app_assoc. by rewrite (Permutation_app_comm (cur_rules y)).
Qed.

Lemma pending_cells tv : pending tv = length (cells tv).
Proof.
  unfold pending, cells. induction tv as [|c tv IH]; simpl; [done|].
  by rewrite length_app, IH.
Qed.

(** [advance] drops exactly the head cell of one slot. *)
Lemma advance_cells tv (i : nat) id rest m :
  tv !! i = Some (Current (id :: rest) m) -> cells tv ≡ₚ id :: cells (advance i rest tv).
Proof.
  intros Hi. unfold advance. destruct rest as [|x rest].
  - rewrite (cells_Permutation _ _ (swap_remove_Permutation _ _ _ Hi)). done.
  - rewrite (cells_Permutation _ _ (insert_delete_Permutation _ _ _ (Current (x :: rest) false) Hi)).
    rewrite (cells_Permutation _ _ (delete_Permutation _ _ _ Hi)). done.
Qed.

Lemma advance_length tv (i : nat) rest c :
  tv !! i = Some c -> (length (advance i rest tv) <= length tv)%nat.
Proof.
  intros Hi. unfold advance. destruct rest; [|by rewrite length_insert].
  rewrite (swap_remove_length _ _ _ Hi). lia.
Qed.

Lemma advance_lookup_lt tv (i j : nat) rest c :
  tv !! i = Some c -> (j < i)%nat -> advance i rest tv !! j = tv !! j.
Proof.
  intros Hi Hj. unfold advance. destruct rest.
  - by eapply swap_remove_lookup_lt.
  - apply list_lookup_insert_ne. lia.
Qed.

Lemma advance_ok R d tv (i : nat) id rest m :
  Forall (cursor_ok R d) tv -> tv !! i = Some (Current (id :: rest) m) ->
  Forall (cursor_ok R d) (advance i rest tv).
Proof.
  intros Hok Hi. unfold advance. destruct rest as [|x rest].
  - rewrite (swap_remove_Permutation _ _ _ Hi) in Hok. by inversion Hok.
  - rewrite (insert_delete_Permutation _ _ _ _ Hi).
    rewrite (delete_Permutation _ _ _ Hi) in Hok.
    inversion Hok as [|? ? (_ & Hs & Hd & _) ?]; subst. constructor; [|done].
    split; [done|]. simpl in *. inversion Hs; inversion Hd; subst. naive_solver.
Qed.

Lemma set_match_ok R d tv (i : nat) id rest m :
  Forall (cursor_ok R d) tv -> tv !! i = Some (Current (id :: rest) m) ->
  matching R d id = true ->
  Forall (cursor_ok R d) (<[i := Current (id :: rest) true]> tv).
Proof.
  intros Hok Hi Hm. rewrite (insert_delete_Permutation _ _ _ _ Hi).
  rewrite (delete_Permutation _ _ _ Hi) in Hok.
  inversion Hok as [|? ? (? & Hs & Hd & _) ?]; subst. constructor; [|done].
  unfold cursor_ok. simpl in *. naive_solver.
Qed.

Lemma set_match_cells tv (i : nat) rs m m' :
  tv !! i = Some (Current rs m) -> cells (<[i := Current rs m']> tv) = cells tv.
Proof.
  intros Hi. unfold cells. f_equal. apply list_eq. intros j.
  rewrite !list_lookup_fmap. destruct (decide (i = j)) as [<-|Hne].
  - rewrite list_lookup_insert_eq by (by eapply lookup_lt_Some). by rewrite Hi.
  - by rewrite list_lookup_insert_ne.
Qed.

(** ** The scan *)

(** What the scan has established about the slots before [i]. *)
Definition scan_inv R d (i : nat) (best : option (Z * Z * nat)) tv : Prop :=
  match best with
  | None => i = 0%nat
  | Some (id, p, k) =>
      (k < i)%nat /\ pri R id = p /\ matching R d id = true /\
      (exists rest, tv !! k = Some (Current (id :: rest) true)) /\
      (forall j c x, (j < i)%nat -> tv !! j = Some c -> x ∈ cur_rules c -> p <= pri R x)
  end.

Lemma sorted_head_le R d c id rest x :
  cursor_ok R d c -> cur_rules c = id :: rest -> x ∈ cur_rules c -> pri R id <= pri R x.
Proof.
  intros (_ & Hs & _) Hc Hx. rewrite Hc in *.
  apply StronglySorted_inv in Hs as [_ Hall].
  apply elem_of_cons in Hx as [->|Hx]; [lia|]. rewrite Forall_forall in Hall.
  by apply Hall.
Qed.

Lemma scan_inv_match R d (i : nat) best tv id rest m r :
  Forall (cursor_ok R d) tv -> tv !! i = Some (Current (id :: rest) m) ->
  R !! id = Some r -> matching R d id = true -> scan_inv R d i best tv ->
  match best with None => true | Some (_, p, _) => r_priority r <? p end = true ->
  scan_inv R d (S i) (Some (id, r_priority r, i)) (<[i := Current (id :: rest) true]> tv).
Proof.
  intros Hok Hi Hr Hm Hinv Hlt. pose proof (lookup_lt_Some _ _ _ Hi).
  assert (Hp : pri R id = r_priority r) by (unfold pri; by rewrite Hr).
  simpl. repeat split; [lia|done|done|exists rest; by rewrite list_lookup_insert_eq|].
  intros j c x Hj Hc Hx. destruct (decide (j = i)) as [->|Hne].
  - rewrite list_lookup_insert_eq in Hc by done. simplify_eq.
    rewrite <- Hp. apply (sorted_head_le R d (Current (id :: rest) m) id rest); [|done..].
    by eapply Forall_lookup_1.
  - rewrite list_lookup_insert_ne in Hc by done.
    destruct best as [[[id' p] k]|]; simpl in Hinv; [|lia].
    destruct Hinv as (_ & _ & _ & _ & Hle).
    assert (p <= pri R x) by (apply (Hle j c x); [lia|done|done]). lia.
Qed.

Lemma scan_inv_advance R d (i : nat) best tv id rest m :
  tv !! i = Some (Current (id :: rest) m) -> scan_inv R d i best tv ->
  scan_inv R d i best (advance i rest tv).
Proof.
  intros Hi. destruct best as [[[id' p] k]|]; simpl; [|done].
  intros (Hk & Hp & Hm & (rest' & Hrest) & Hle). repeat split; [done..| |].
  - exists rest'. by erewrite advance_lookup_lt.
  - intros j c x Hj Hc. erewrite advance_lookup_lt in Hc by done. by eapply Hle.
Qed.

Lemma scan_inv_skip R d (i : nat) id' p k tv c id rest :
  cursor_ok R d c -> tv !! i = Some c -> cur_rules c = id :: rest -> p <= pri R id ->
  scan_inv R d i (Some (id', p, k)) tv -> scan_inv R d (S i) (Some (id', p, k)) tv.
Proof.
  intros Hc Hi Hid Hp (Hk & ? & ? & ? & Hle). simpl. repeat split; [lia|done..|].
  intros j c' x Hj Hc' Hx. destruct (decide (j = i)) as [->|];
    [simplify_eq|apply (Hle j c' x); [lia|done|done]]. pose proof (sorted_head_le R d c _ _ _ Hc Hid Hx). lia.
Qed.

(** The scan ends, keeps every matching cell, and has looked at every slot. *)
Lemma next_loop_spec fuel R d (i : nat) best tv :
  Forall (cursor_ok R d) tv -> (i <= length tv)%nat -> scan_inv R d i best tv ->
  (pending tv + (length tv - i) < fuel)%nat ->
  exists best' tv' skipped,
    next_loop fuel R d i best tv = Ret (best', tv') /\
    Forall (cursor_ok R d) tv' /\ scan_inv R d (length tv') best' tv' /\
    cells tv ≡ₚ skipped ++ cells tv' /\
    Forall (fun id => matching R d id = false) skipped.
Proof.
  revert i best tv. induction fuel as [|fuel IH]; intros i best tv Hok Hi Hinv Hfuel; [lia|].
  simpl. destruct (tv !! i) as [[ids m]|] eqn:Ei; cycle 1.
  { apply lookup_ge_None in Ei. replace i with (length tv) in * by lia.
    eexists best, tv, []. naive_solver. }
  pose proof (lookup_lt_Some _ _ _ Ei) as Hlt.
  pose proof (Forall_lookup_1 _ _ _ _ Hok Ei) as Hc.
  destruct ids as [|id rest]; [by destruct Hc|].
  pose proof Hc as (_ & _ & Hdef & Hmok). simpl in Hdef. inversion Hdef as [|? ? Hd _]; subst.
  destruct (matching_defined _ _ _ Hd) as (r & Hr & Hmr). rewrite Hr.
  destruct (match best with None => true | Some (_, p, _) => r_priority r <? p end) eqn:Eb.
  - assert ((if m then Ret true else data_matches id (r_expr r) d) = Ret (matching R d id)) as ->.
    { destruct m; [|done]. f_equal. symmetry. by eapply Hmok. }
    simpl. destruct (matching R d id) eqn:Em.
    + destruct (IH (S i) (Some (id, r_priority r, i)) (<[i:=Current (id :: rest) true]> tv))
        as (b' & tv' & sk & -> & ? & ? & Hcells & ?).
      * by eapply set_match_ok.
      * rewrite length_insert. lia.
      * by eapply scan_inv_match.
      * rewrite pending_cells, (set_match_cells _ _ _ _ _ Ei), <- pending_cells, length_insert. lia.
      * rewrite (set_match_cells _ _ _ _ _ Ei) in Hcells. naive_solver.
    + pose proof (advance_cells _ _ _ _ _ Ei) as Hadv.
      pose proof (advance_length tv i rest _ Ei).
      destruct (IH i best (advance i rest tv)) as (b' & tv' & sk & -> & ? & ? & Hcells & ?).
      * by eapply advance_ok.
      * unfold advance. destruct rest; [|rewrite length_insert; lia].
        rewrite (swap_remove_length _ _ _ Ei). lia.
      * by eapply scan_inv_advance.
      * rewrite !pending_cells in *. apply Permutation_length in Hadv. simpl in Hadv. lia.
      * exists b', tv', (id :: sk). rewrite Hadv, Hcells. simpl. naive_solver.
  - destruct best as [[[id' p] k]|]; [|done]. apply Z.ltb_ge in Eb.
    destruct (IH (S i) (Some (id', p, k)) tv) as (b' & tv' & sk & -> & Hrest); try done.
    + eapply scan_inv_skip; [exact Hc|done|done|unfold pri; by rewrite Hr|done].
    + lia.
    + by exists b', tv', sk.
Qed.

Lemma filter_skipped R d skipped (l : list Z) :
  Forall (fun id => matching R d id = false) skipped ->
  filter (fun id => matching R d id = true) (skipped ++ l)
  = filter (fun id => matching R d id = true) l.
Proof.
  induction 1 as [|x sk Hx _ IH]; simpl; [done|]. rewrite filter_cons_False by congruence. done.
Qed.

(** [next] returns a matching rule of least priority and removes it, or
    returns null when no matching rule is left. *)
Lemma next_spec R d tv :
  Forall (cursor_ok R d) tv ->
  exists o tv', next R d tv = Ret (o, tv') /\ Forall (cursor_ok R d) tv' /\
    cells tv' ⊆+ cells tv /\
    match o with
    | None => remaining R d tv = []
    | Some id => remaining R d tv ≡ₚ id :: remaining R d tv' /\
                 matching R d id = true /\ Forall (pri_le R id) (remaining R d tv)
    end.
Proof.
  intros Hok. unfold next.
  destruct (next_loop_spec (S (pending tv + length tv)) R d 0 None tv)
    as (best & tv1 & sk & -> & Hok1 & Hinv & Hcells & Hsk); [done|lia|done|lia|].
  simpl. destruct best as [[[id p] k]|]; simpl in *.
  - destruct Hinv as (Hk & Hp & Hm & (rest & Hrest) & Hle). rewrite Hrest.
    pose proof (advance_cells _ _ _ _ _ Hrest) as Hadv.
    eexists (Some id), _. split; [done|]. split; [by eapply advance_ok|].
    split; [rewrite Hcells, Hadv; apply submseteq_inserts_l; by apply submseteq_cons|].
    rewrite Hcells, filter_skipped, Hadv by done. rewrite filter_cons_True by done.
    split; [done|]. split; [done|]. rewrite Forall_forall. intros x Hx.
    assert (x ∈ cells tv1) as Hx1.
    { rewrite Hadv. apply elem_of_cons in Hx as [->|Hx]; [left|].
      apply list_elem_of_filter in Hx as [_ Hx]. by right. }
    unfold cells in Hx1. apply elem_of_concat in Hx1 as (cs & Hcs & Hx1).
    apply list_elem_of_fmap in Hcs as (c & -> & Hc). apply list_elem_of_lookup in Hc as (j & Hj).
    pose proof (lookup_lt_Some _ _ _ Hj). unfold pri_le. rewrite Hp. by eapply Hle.
  - destruct tv1; [|done]. eexists None, []. split; [done|]. split; [done|].
    split; [apply submseteq_nil_l|]. apply Permutation_nil_r.
    rewrite Hcells. by rewrite filter_skipped.
Qed.
(** Iterating [next] yields every matching rule once, by priority. *)
Lemma drain_spec fuel R d tv :
  Forall (cursor_ok R d) tv -> (length (remaining R d tv) < fuel)%nat ->
  exists ids, drain fuel R d tv = Ret ids /\ ids ≡ₚ remaining R d tv /\
              StronglySorted (pri_le R) ids.
Proof.
  revert tv. induction fuel as [|fuel IH]; intros tv Hok Hf; [lia|]. simpl.
  destruct (next_spec R d tv Hok) as (o & tv' & -> & Hok' & _ & Ho). simpl.
  destruct o as [id|].
  - destruct Ho as (Hperm & _ & Hle).
    destruct (IH tv') as (ids & -> & Hids & Hsort); [done| |].
    { apply Permutation_length in Hperm. simpl in Hperm. lia. }
    eexists. split; [done|]. split; [by rewrite Hperm, Hids|].
    constructor; [done|]. rewrite Hperm in Hle. inversion Hle; subst. by rewrite Hids.
  - exists []. rewrite Ho. repeat constructor.
Qed.

End next_facts.

Abbreviation remaining R d tv := (filter (fun id => matching R d id = true) (cells tv)).
