(* ===== verification/CnodeFacts.v ===== *)
(** * The classifier tree: invariant and what each operation does to it *)

From S2P Require Import Prelude Cnode CnodeResult.

Open Scope Z_scope.

(** ** Reading a tree *)

(** The children of an internal node. *)
Definition kids (bks : list (list cnode)) (any : option cnode) : list cnode :=
  concat bks ++ option_list any.

(** Each node as its address and its list of rules. *)
Definition entry (n : cnode) : Z * list Z := (node_addr n, node_rules n).
Definition entries (n : cnode) : list (Z * list Z) := entry <$> nodes n.
Definition forest (ns : list cnode) : list (Z * list Z) := flat_map entries ns.

Definition ent_rules (es : list (Z * list Z)) : list Z := flat_map snd es.
Definition tree_rules (n : cnode) : list Z := ent_rules (entries n).

(** Induction on a tree, with a hypothesis for every child. *)
Lemma cnode_tree_ind (P : cnode -> Prop) :
  (forall a v rs, P (Leaf a v rs)) ->
  (forall a v rs f bks any, (forall c, c ∈ kids bks any -> P c) -> P (Split a v rs f bks any)) ->
  forall n, P n.
Proof.
  intros Hleaf Hsplit. fix IH 1. intros [a v rs|a v rs f bks any]; [apply Hleaf|].
  apply Hsplit.
  assert (Hb : Forall (Forall P) bks).
  { clear -IH. induction bks as [|ch bks IHb]; constructor; [|exact IHb].
    clear -IH. induction ch as [|c ch IHc]; constructor; [apply IH|exact IHc]. }
  assert (Ha : forall c, any = Some c -> P c).
  { destruct any as [c0|]; intros c Hc; [|discriminate].
    assert (P c0) by apply IH. clear IH. congruence. }
  clear IH. unfold kids. intros c [Hc|Hc]%elem_of_app.
  - apply elem_of_concat in Hc as (ch & Hch & Hc).
    rewrite Forall_forall in Hb. specialize (Hb ch Hch). rewrite Forall_forall in Hb. auto.
  - destruct any; simpl in Hc; [|by apply elem_of_nil in Hc].
    apply list_elem_of_singleton in Hc as ->. auto.
Qed.

Lemma nodes_Split a v rs f bks any :
  nodes (Split a v rs f bks any) = Split a v rs f bks any :: flat_map nodes (kids bks any).
Proof.
  simpl. f_equal. unfold kids. rewrite flat_map_app. f_equal.
  - induction bks as [|ch bks IH]; simpl; [done|]. by rewrite flat_map_app, IH.
  - destruct any; simpl; [by rewrite app_nil_r|done].
Qed.

Lemma forest_nodes ns : entry <$> flat_map nodes ns = forest ns.
Proof.
  induction ns as [|c ns IH]; [done|].
  change (entry <$> nodes c ++ flat_map nodes ns = entries c ++ forest ns).
  by rewrite fmap_app, IH.
Qed.

Lemma entries_Split a v rs f bks any :
  entries (Split a v rs f bks any) = (a, rs) :: forest (kids bks any).
Proof. unfold entries. by rewrite nodes_Split, fmap_cons, forest_nodes. Qed.

Lemma entries_Leaf a v rs : entries (Leaf a v rs) = [(a, rs)].
Proof. done. Qed.

Lemma forest_app ns1 ns2 : forest (ns1 ++ ns2) = forest ns1 ++ forest ns2.
Proof. apply flat_map_app. Qed.

Lemma forest_Permutation ns1 ns2 : ns1 ≡ₚ ns2 -> forest ns1 ≡ₚ forest ns2.
Proof. unfold forest. intros. by apply Permutation_flat_map. Qed.

Lemma ent_rules_app es1 es2 : ent_rules (es1 ++ es2) = ent_rules es1 ++ ent_rules es2.
Proof. apply flat_map_app. Qed.

Lemma ent_rules_Permutation es1 es2 : es1 ≡ₚ es2 -> ent_rules es1 ≡ₚ ent_rules es2.
Proof. unfold ent_rules. intros. by apply Permutation_flat_map. Qed.

#[export] Instance ent_rules_proper : Proper (Permutation ==> Permutation) ent_rules.
Proof. intros es1 es2. apply ent_rules_Permutation. Qed.

#[export] Instance forest_proper : Proper (Permutation ==> Permutation) forest.
Proof. intros ns1 ns2. apply forest_Permutation. Qed.

Lemma elem_of_ent_rules id es :
  id ∈ ent_rules es <-> exists a rs, (a, rs) ∈ es /\ id ∈ rs.
Proof.
  unfold ent_rules. rewrite elem_of_flat_map. split.
  - intros ([a rs] & ? & ?). eauto.
  - intros (a & rs & ? & ?). by exists (a, rs).
Qed.

Lemma elem_of_forest e ns : e ∈ forest ns <-> exists n, n ∈ ns /\ e ∈ entries n.
Proof. apply elem_of_flat_map. Qed.

Lemma tree_rules_Leaf a v rs : tree_rules (Leaf a v rs) = rs.
Proof. apply app_nil_r. Qed.

Lemma tree_rules_Split a v rs f bks any :
  tree_rules (Split a v rs f bks any) = rs ++ ent_rules (forest (kids bks any)).
Proof. unfold tree_rules. by rewrite entries_Split. Qed.

Lemma tree_rules_kid c bks any id :
  c ∈ kids bks any -> id ∈ tree_rules c -> id ∈ ent_rules (forest (kids bks any)).
Proof.
  intros Hc (a & rs & He & Hid)%elem_of_ent_rules. apply elem_of_ent_rules.
  exists a, rs. split; [|done]. apply elem_of_forest. eauto.
Qed.

Lemma ent_rules_forest_inv ns id :
  id ∈ ent_rules (forest ns) -> exists c, c ∈ ns /\ id ∈ tree_rules c.
Proof.
  intros (a & rs & (c & Hc & He)%elem_of_forest & Hid)%elem_of_ent_rules.
  exists c. split; [done|]. apply elem_of_ent_rules. eauto.
Qed.

Lemma entries_head n : exists es, entries n = (node_addr n, node_rules n) :: es.
Proof. destruct n; eexists; [done|apply entries_Split]. Qed.

(** ** Where the rules may sit *)

Section placed.
Context {E A : Type} `{ExprOps E}.
Implicit Types (R : gmap Z (rule E A)) (n : cnode).

(** The value of the rule's expression on a field. *)
Definition rule_field R (id f : Z) : option Z :=
  r ← R !! id; get_field (r_expr r) f.

(** Every rule below a bucket has the bucket child's value on the split
    field, every rule below [any_node] is wildcarded on it, the children of a
    chain stand for different values and are in the chain their value hashes
    to, and the number of buckets is a power of two. *)
#[warnings="-register-all"]
Inductive placed R : cnode -> Prop :=
| placed_leaf a v rs : placed R (Leaf a v rs)
| placed_split a v rs f bks any :
    (exists k, length bks = 2 ^ k)%nat ->
    (forall i ch c, bks !! i = Some ch -> c ∈ ch ->
       get_bucket (node_value c) (Z.of_nat (length bks) - 1) = Z.of_nat i /\
       placed R c /\
       forall id, id ∈ tree_rules c -> rule_field R id f = Some (node_value c)) ->
    (forall ch, ch ∈ bks -> NoDup (node_value <$> ch)) ->
    (forall c, any = Some c ->
       placed R c /\ forall id, id ∈ tree_rules c -> rule_field R id f = None) ->
    placed R (Split a v rs f bks any).

Lemma placed_ext R R' n :
  (forall id f, id ∈ tree_rules n -> rule_field R' id f = rule_field R id f) ->
  placed R n -> placed R' n.
Proof.
  induction n as [a v rs|a v rs f bks any IH] using cnode_tree_ind; intros Hext Hp;
    [constructor|].
  inversion Hp as [|? ? ? ? ? ? Hlen Hb Hnd Hany]; subst.
  rewrite tree_rules_Split in Hext.
  assert (Hsub : forall c id, c ∈ kids bks any -> id ∈ tree_rules c ->
                 forall f, rule_field R' id f = rule_field R id f).
  { intros c id Hc Hid f'. apply Hext, elem_of_app. right. by eapply tree_rules_kid. }
  constructor; [done| |done|].
  - intros i ch c Hi Hc. destruct (Hb i ch c Hi Hc) as (? & Hpc & Hv).
    assert (Hk : c ∈ kids bks any).
    { apply elem_of_app. left. apply elem_of_concat.
      eauto using list_elem_of_lookup_2. }
    split; [done|]. split; [eapply IH; eauto|]. intros id Hid. rewrite (Hsub c) by done. auto.
  - intros c ->. destruct (Hany c) as [Hpc Hv]; [done|].
    assert (Hk : c ∈ kids bks (Some c)) by (apply elem_of_app; right; simpl; left).
    split; [eapply IH; eauto|]. intros id Hid. rewrite (Hsub c) by done. auto.
Qed.

Lemma pow2_mask_range (k : nat) v :
  0 <= get_bucket v (Z.of_nat (2 ^ k) - 1) < Z.of_nat (2 ^ k).
Proof.
  unfold get_bucket. rewrite Nat2Z.inj_pow.
  replace (Z.of_nat 2 ^ Z.of_nat k - 1) with (Z.ones (Z.of_nat k))
    by (rewrite Z.ones_equiv; lia).
  rewrite Z.land_ones by lia. apply Z.mod_pos_bound. apply Z.pow_pos_nonneg; lia.
Qed.
End placed.

(** ** Adding a rule *)

Section add_rule.
Context {E A : Type} `{ExprOps E}.
Implicit Types (R : gmap Z (rule E A)) (st : state E A) (n c : cnode) (r : rule E A).

(** Entry lists that differ by rule [id] put in the list at address [a],
    either an existing one or one that was just allocated. *)
Definition inserted R (id p b0 b1 a : Z) (es es' : list (Z * list Z)) : Prop :=
  exists rs rest,
    es' ≡ₚ (a, add_rule_to_list R id p rs) :: rest /\
    ((es ≡ₚ (a, rs) :: rest /\ b1 = b0) \/
     (es ≡ₚ rest /\ rs = [] /\ a = b0 /\ b1 = b0 + 1)).

Lemma add_rule_to_list_Permutation R id p rs : add_rule_to_list R id p rs ≡ₚ id :: rs.
Proof.
  induction rs as [|x rs IH]; simpl; [done|]. destruct (p <=? pri R x); [done|].
  rewrite IH. constructor.
Qed.

Lemma add_rule_to_list_sorted R id p rs :
  pri R id = p -> StronglySorted (pri_le R) rs ->
  StronglySorted (pri_le R) (add_rule_to_list R id p rs).
Proof.
  intros Hp. induction 1 as [|x rs Hs IH Hall]; simpl; [repeat constructor|].
  destruct (p <=? pri R x) eqn:Ex.
  - constructor; [by constructor|]. constructor; [unfold pri_le; lia|].
    eapply Forall_impl; [exact Hall|]. unfold pri_le. intros; simpl in *; lia.
  - constructor; [done|]. rewrite add_rule_to_list_Permutation.
    constructor; [unfold pri_le; lia|done].
Qed.

Lemma inserted_frame R id p b0 b1 a es es' fr :
  inserted R id p b0 b1 a es es' -> inserted R id p b0 b1 a (es ++ fr) (es' ++ fr).
Proof.
  intros (rs & rest & He' & He). exists rs, (rest ++ fr). rewrite He'. split; [done|].
  destruct He as [[He ?]|(He & ?)]; rewrite He; [left|right]; done.
Qed.

Lemma inserted_Permutation R id p b0 b1 a es es' fs fs' :
  es ≡ₚ fs -> es' ≡ₚ fs' -> inserted R id p b0 b1 a fs fs' -> inserted R id p b0 b1 a es es'.
Proof.
  intros H1 H2 (rs & rest & He' & He). exists rs, rest. by rewrite H1, H2.
Qed.

Lemma inserted_rules R id p b0 b1 a es es' :
  inserted R id p b0 b1 a es es' -> ent_rules es' ≡ₚ id :: ent_rules es.
Proof.
  intros (rs & rest & He' & He). rewrite (ent_rules_Permutation _ _ He'). simpl.
  rewrite add_rule_to_list_Permutation.
  destruct He as [[He _]|(He & -> & _)]; by rewrite (ent_rules_Permutation _ _ He).
Qed.

Lemma inserted_here R id p b n :
  inserted R id p b b (node_addr n) (entries n)
    (entries (set_rules n (add_rule_to_list R id p (node_rules n)))).
Proof.
  exists (node_rules n). destruct n as [a v rs|a v rs f bks any]; simpl.
  - exists []. auto.
  - rewrite !entries_Split. eauto.
Qed.

(** Replacing one chain of a node. *)
Lemma placed_set_chain R a v rs f bks any (b : nat) ch ch' :
  placed R (Split a v rs f bks any) -> bks !! b = Some ch ->
  (forall c, c ∈ ch' ->
     get_bucket (node_value c) (Z.of_nat (length bks) - 1) = Z.of_nat b /\
     placed R c /\ forall id, id ∈ tree_rules c -> rule_field R id f = Some (node_value c)) ->
  NoDup (node_value <$> ch') ->
  placed R (Split a v rs f (<[b := ch']> bks) any).
Proof.
  intros Hp Hb Hch' Hnd'. inversion Hp as [|? ? ? ? ? ? Hlen Hbk Hnd Hany]; subst.
  pose proof (lookup_lt_Some _ _ _ Hb). constructor; rewrite ?length_insert; [done| | |done].
  - intros i ch0 c Hi Hc. destruct (decide (i = b)) as [->|Hne].
    + rewrite list_lookup_insert_eq in Hi by done. simplify_eq. auto.
    + rewrite list_lookup_insert_ne in Hi by done. eauto.
  - intros ch0 [i Hi]%list_elem_of_lookup. destruct (decide (i = b)) as [->|Hne].
    + rewrite list_lookup_insert_eq in Hi by done. by simplify_eq.
    + rewrite list_lookup_insert_ne in Hi by done. eauto using list_elem_of_lookup_2.
Qed.

Lemma placed_set_any R a v rs f bks any c' :
  placed R (Split a v rs f bks any) -> placed R c' ->
  (forall id, id ∈ tree_rules c' -> rule_field R id f = None) ->
  placed R (Split a v rs f bks (Some c')).
Proof.
  intros Hp Hc Hv. inversion Hp; subst. constructor; try done. intros ? [= <-]. done.
Qed.

Lemma placed_set_rules R n rs : placed R n -> placed R (set_rules n rs).
Proof. intros Hp. destruct n; inversion Hp; subst; by constructor. Qed.

(** The forest of a node whose chain [b] changes in one place. *)
Lemma forest_set_chain bks any (b : nat) (ch ch' : list cnode) :
  bks !! b = Some ch ->
  exists fr, forest (kids bks any) ≡ₚ forest ch ++ fr /\
             forest (kids (<[b := ch']> bks) any) ≡ₚ forest ch' ++ fr.
Proof.
  intros Hb. exists (forest (concat (take b bks ++ drop (S b) bks) ++ option_list any)).
  unfold kids. rewrite <- !forest_app.
  assert (forall ch0, concat (<[b := ch0]> bks)
          ≡ₚ ch0 ++ concat (take b bks ++ drop (S b) bks)) as Hc.
  { intros ch0. rewrite insert_take_drop by (by eapply lookup_lt_Some).
    rewrite !concat_app. simpl. by rewrite Permutation_app_swap_app. }
  split; apply forest_Permutation; rewrite app_assoc; f_equiv; [|apply Hc].
  rewrite <- Hc. by rewrite list_insert_id.
Qed.

Lemma rule_field_heap R r f :
  R !! r_id r = Some r -> rule_field R (r_id r) f = get_field (r_expr r) f.
Proof. intros Hr. unfold rule_field. by rewrite Hr. Qed.

(** What [add_rule] leaves behind. *)
Record added r (sp : bool) n st n' st' : Prop := {
  added_value : node_value n' = node_value n;
  added_addr : node_addr n' = node_addr n;
  added_placed : placed (heap st) n';
  added_where : exists a,
    heap st' = (if sp then alter (with_node (Some a)) (r_id r) (heap st) else heap st) /\
    inserted (heap st) (r_id r) (r_priority r) (brk st) (brk st') a (entries n) (entries n')
}.

Lemma added_rules r sp n st n' st' :
  added r sp n st n' st' -> tree_rules n' ≡ₚ r_id r :: tree_rules n.
Proof. intros [_ _ _ (a & _ & Hi)]. by eapply inserted_rules. Qed.

Lemma add_here_added r sp n st :
  placed (heap st) n ->
  added r sp n st (fst (add_here r sp n st)) (snd (add_here r sp n st)).
Proof.
  intros Hp. unfold add_here. simpl. split.
  - by destruct n.
  - by destruct n.
  - by apply placed_set_rules.
  - exists (node_addr n). destruct sp; simpl; (split; [done|apply inserted_here]).
Qed.

(** A fresh leaf for the rule. *)
Lemma add_new_leaf r sp v st :
  let st1 := State (heap st) (brk st + 1) in
  let m := Leaf (brk st) v [] in
  exists a,
    heap (snd (add_here r sp m st1))
      = (if sp then alter (with_node (Some a)) (r_id r) (heap st) else heap st) /\
    inserted (heap st) (r_id r) (r_priority r) (brk st) (brk (snd (add_here r sp m st1))) a
      [] (entries (fst (add_here r sp m st1))).
Proof.
  exists (brk st). simpl. destruct sp; simpl; (split; [done|]);
    exists [], []; (split; [done|right; done]).
Qed.

(** Adding to the bucket chain where the rule's value hashes. *)
Lemma add_to_chain r path sp (a v : Z) rs f bks any st rv (b : nat) ch :
  (forall c, c ∈ kids bks any -> forall path st, placed (heap st) c ->
     heap st !! r_id r = Some r ->
     added r sp c st (fst (add_rule r path sp c st)) (snd (add_rule r path sp c st))) ->
  placed (heap st) (Split a v rs f bks any) -> heap st !! r_id r = Some r ->
  get_field (r_expr r) f = Some rv -> bks !! b = Some ch ->
  get_bucket rv (Z.of_nat (length bks) - 1) = Z.of_nat b ->
  let out :=
    if existsb (fun c => node_value c =? rv) ch then
      upd_first (fun c => node_value c =? rv) (fun c st => add_rule r path sp c st) ch st
    else
      let '(child, st1) := new_leaf rv st in
      let '(child', st2) := add_here r sp child st1 in (child' :: ch, st2) in
  added r sp (Split a v rs f bks any) st
    (Split a v rs f (<[b := fst out]> bks) any) (snd out).
Proof.
  intros IH Hp Hr Hf Hb Hbk. simpl.
  pose proof Hp as Hp'. inversion Hp' as [|? ? ? ? ? ? _ Hin Hnd _]; subst.
  assert (Hrf : rule_field (heap st) (r_id r) f = Some rv) by (by rewrite rule_field_heap).
  specialize (Hnd ch (list_elem_of_lookup_2 _ _ _ Hb)).
  destruct (existsb (fun c => node_value c =? rv) ch) eqn:Ex.
  - destruct (upd_first_split (fun c => node_value c =? rv)
      (fun c st => add_rule r path sp c st) ch st Ex) as (l1 & c & l2 & -> & Hc & _ & ->).
    simpl. apply Z.eqb_eq in Hc.
    destruct (Hin b _ c Hb) as (Hbc & Hpc & Hvc); [apply elem_of_app; right; left|].
    assert (Hkid : c ∈ kids bks any).
    { apply elem_of_app; left. apply elem_of_concat. eexists.
      split; [by eapply list_elem_of_lookup_2|]. apply elem_of_app; right; left. }
    specialize (IH c Hkid path st Hpc Hr).
    destruct (add_rule r path sp c st) as [c' st'] eqn:Ec. simpl in *.
    pose proof (added_rules _ _ _ _ _ _ IH) as Hperm.
    destruct IH as [Hval Haddr Hpl (w & Hheap & Hins)]. split; try done.
    + eapply placed_set_chain; [done..| |].
      * intros x [Hx|[->|Hx]%elem_of_cons]%elem_of_app.
        -- eapply Hin; [done|]. apply elem_of_app; by left.
        -- rewrite Hval. split_and!; [done..|]. intros id. rewrite Hperm.
           intros [->|Hid]%elem_of_cons; [congruence|auto].
        -- eapply Hin; [done|]. apply elem_of_app; right; by right.
      * rewrite fmap_app, fmap_cons, Hval, <- fmap_cons, <- fmap_app. done.
    + exists w. split; [done|]. rewrite !entries_Split.
      destruct (forest_set_chain bks any b _ (l1 ++ c' :: l2) Hb) as (fr & HF1 & HF2).
      eapply inserted_Permutation; [| |exact (inserted_frame _ _ _ _ _ _ _ _
        ((a, rs) :: forest l1 ++ forest l2 ++ fr) Hins)].
      * rewrite HF1, forest_app. simpl. solve_Permutation.
      * rewrite HF2, forest_app. simpl. solve_Permutation.
  - destruct (add_new_leaf r sp rv st) as (w & Hheap & Hins). simpl in *.
    assert (Hfresh : rv ∉ (node_value <$> ch)).
    { intros (c & -> & Hc)%list_elem_of_fmap. assert (existsb (fun c0 => node_value c0 =? node_value c) ch = true);
        [|congruence]. apply existsb_exists. exists c. rewrite <- list_elem_of_In. split; [done|lia]. }
    split; try done.
    + eapply placed_set_chain; [done..| |].
      * intros x [->|Hx]%elem_of_cons; [|by eapply Hin]. simpl. split_and!; [done|constructor|].
        intros id [->|Hid]%elem_of_cons; [done|by apply elem_of_nil in Hid].
      * rewrite fmap_cons. by constructor.
    + exists w. split; [done|]. rewrite !entries_Split.
      destruct (forest_set_chain bks any b _
        (Leaf (brk st) rv [r_id r] :: ch) Hb) as (fr & HF1 & HF2).
      eapply inserted_Permutation; [| |exact (inserted_frame _ _ _ _ _ _ _ _
        ((a, rs) :: forest ch ++ fr) Hins)].
      * by rewrite HF1.
      * rewrite HF2. simpl. solve_Permutation.
Qed.

Lemma add_rule_added r path sp n st :
  placed (heap st) n -> heap st !! r_id r = Some r ->
  added r sp n st (fst (add_rule r path sp n st)) (snd (add_rule r path sp n st)).
Proof.
  revert path st.
  induction n as [a v rs|a v rs f bks any IH] using cnode_tree_ind; intros path st Hp Hr.
  { by apply add_here_added. }
  simpl. destruct (splittable (r_expr r) path); simpl; [|by apply add_here_added].
  pose proof Hp as Hp'. inversion Hp' as [|? ? ? ? ? ? [k Hlen] Hin _ Hany]; subst.
  destruct (get_field (r_expr r) f) as [rv|] eqn:Ef.
  - set (b := Z.to_nat (get_bucket rv (Z.of_nat (length bks) - 1))).
    pose proof (pow2_mask_range k rv) as Hrange. rewrite <- Hlen in Hrange.
    destruct (bks !! b) as [ch|] eqn:Eb; [|apply lookup_ge_None in Eb; lia].
    rewrite (upd_nth_lookup _ _ _ _ _ Eb).
    eapply (add_to_chain r (Z.lor path (masks f)) sp a v rs f bks any st rv b ch); try done.
    lia.
  - destruct any as [c|].
    + assert (Hkid : c ∈ kids bks (Some c)) by (apply elem_of_app; right; left).
      destruct (Hany c) as [Hpc Hvc]; [done|].
      specialize (IH c Hkid (Z.lor path (masks f)) st Hpc Hr).
      destruct (add_rule r (Z.lor path (masks f)) sp c st) as [c' st'] eqn:Ec. simpl in *.
      pose proof (added_rules _ _ _ _ _ _ IH) as Hperm.
      destruct IH as [Hval Haddr Hpl (w & Hheap & Hins)]. split; try done.
      * eapply placed_set_any; [done..|]. intros id. rewrite Hperm.
        intros [->|Hid]%elem_of_cons; [by rewrite rule_field_heap|auto].
      * exists w. split; [done|]. rewrite !entries_Split. unfold kids. rewrite !forest_app.
        eapply inserted_Permutation; [| |exact (inserted_frame _ _ _ _ _ _ _ _
          ((a, rs) :: forest (concat bks)) Hins)]; simpl; rewrite app_nil_r; solve_Permutation.
    + destruct (add_new_leaf r sp 0 st) as (w & Hheap & Hins). simpl in *. split; try done.
      * eapply placed_set_any; [done|constructor|]. intros id [->|Hid]%elem_of_cons;
          [by rewrite rule_field_heap|by apply elem_of_nil in Hid].
      * exists w. split; [done|]. rewrite !entries_Split. unfold kids. rewrite !forest_app.
        eapply inserted_Permutation; [| |exact (inserted_frame _ _ _ _ _ _ _ _
          ((a, rs) :: forest (concat bks)) Hins)]; simpl; rewrite ?app_nil_r; solve_Permutation.
Qed.
End add_rule.

(** ** Rule stores up to node pointers *)

Section store.
Context {E A : Type}.
Implicit Types (R : gmap Z (rule E A)) (st : state E A) (es : list (Z * list Z)).

(** Two stores hold the same rules, whatever their node pointers. *)
Definition same_rules R R' : Prop := with_node None <$> R = with_node None <$> R'.

#[global] Instance same_rules_equiv : Equivalence same_rules.
Proof. split; unfold same_rules; [done|by intros ??->|by intros ???->]. Qed.

Lemma same_rules_lookup R R' id r :
  same_rules R R' -> R !! id = Some r ->
  exists r', R' !! id = Some r' /\ with_node None r' = with_node None r.
Proof.
  intros Heq Hr. assert ((with_node None <$> R') !! id = Some (with_node None r)) as H.
  { rewrite <- Heq, lookup_fmap, Hr. done. }
  rewrite lookup_fmap in H. destruct (R' !! id) as [r'|]; [|done].
  apply (inj Some) in H. eauto.
Qed.

Lemma same_rules_pri R R' id : same_rules R R' -> pri R' id = pri R id.
Proof.
  intros Heq. unfold pri. destruct (R !! id) as [r|] eqn:Er.
  - destruct (same_rules_lookup _ _ _ _ Heq Er) as (r' & -> & [=]). done.
  - destruct (R' !! id) as [r'|] eqn:Er'; [|done]. symmetry in Heq.
    destruct (same_rules_lookup _ _ _ _ Heq Er') as (? & ? & _). congruence.
Qed.

Lemma same_rules_field `{ExprOps E} R R' id f :
  same_rules R R' -> rule_field R' id f = rule_field R id f.
Proof.
  intros Heq. unfold rule_field. destruct (R !! id) as [r|] eqn:Er.
  - destruct (same_rules_lookup _ _ _ _ Heq Er) as (r' & -> & [=]). simpl. congruence.
  - destruct (R' !! id) as [r'|] eqn:Er'; [|done]. symmetry in Heq.
    destruct (same_rules_lookup _ _ _ _ Heq Er') as (? & ? & _). congruence.
Qed.

Lemma same_rules_alter (g : rule E A -> rule E A) id R :
  (forall r, with_node None (g r) = with_node None r) -> same_rules (alter g id R) R.
Proof.
  intros Hg. apply map_eq. intros j. rewrite !lookup_fmap, lookup_alter.
  case_decide; [subst|done]. destruct (R !! j); [|done]. cbn [fmap option_fmap option_map]. f_equal. apply Hg.
Qed.

Lemma placed_same_rules `{ExprOps E} R R' n : same_rules R R' -> placed R n -> placed R' n.
Proof. intros Heq. apply placed_ext. intros. by apply same_rules_field. Qed.

(** Addresses are distinct and allocated, and every list is in order. *)
Definition ents_ok R (b : Z) es : Prop :=
  NoDup es.*1 /\ Forall (fun e => e.1 < b) es /\
  Forall (fun e => StronglySorted (pri_le R) e.2) es.

(** Every rule points back to the node that lists it. *)
Definition ptrs_ok R es : Prop :=
  forall a rs id, (a, rs) ∈ es -> id ∈ rs ->
    exists r, R !! id = Some r /\ r_node r = Some a.

Lemma ents_ok_Permutation R b es es' : es ≡ₚ es' -> ents_ok R b es -> ents_ok R b es'.
Proof. intros Hp (H1 & H2 & H3). unfold ents_ok. by rewrite <- !Hp. Qed.

Lemma ptrs_ok_Permutation R es es' : es ≡ₚ es' -> ptrs_ok R es -> ptrs_ok R es'.
Proof. intros Hp Hok a rs id He. rewrite <- Hp in He. by apply Hok. Qed.

Lemma pri_le_same R R' x y : same_rules R R' -> pri_le R x y -> pri_le R' x y.
Proof. intros Heq. unfold pri_le. by rewrite !(same_rules_pri R R'). Qed.

Lemma sorted_mono (P Q : Z -> Z -> Prop) (l : list Z) :
  (forall x y, x ∈ l -> y ∈ l -> P x y -> Q x y) -> StronglySorted P l -> StronglySorted Q l.
Proof.
  intros HPQ. induction 1 as [|x l Hs IH Hall]; constructor.
  - apply IH. intros. apply HPQ; auto; by right.
  - rewrite Forall_forall in *. intros y Hy. apply HPQ; [left|by right|auto].
Qed.

Lemma ents_ok_same R R' b es : same_rules R R' -> ents_ok R b es -> ents_ok R' b es.
Proof.
  intros Heq (H1 & H2 & H3). split_and!; [done..|]. eapply Forall_impl; [exact H3|].
  intros e. apply sorted_mono. intros x y _ _. by apply pri_le_same.
Qed.

Lemma ents_ok_mono R b b' es : b <= b' -> ents_ok R b es -> ents_ok R b' es.
Proof.
  intros Hb (H1 & H2 & H3). split_and!; [done| |done]. eapply Forall_impl; [exact H2|].
  intros; simpl in *; lia.
Qed.

Lemma ents_ok_app R b es1 es2 :
  ents_ok R b (es1 ++ es2) <->
  ents_ok R b es1 /\ ents_ok R b es2 /\ (forall x, x ∈ es1.*1 -> x ∉ es2.*1).
Proof.
  unfold ents_ok. rewrite fmap_app, NoDup_app, !Forall_app. tauto.
Qed.

Lemma ents_ok_lt R b es a : ents_ok R b es -> a ∈ es.*1 -> a < b.
Proof.
  intros (_ & Hlt & _) (e & -> & He)%list_elem_of_fmap. rewrite Forall_forall in Hlt. auto.
Qed.

(** ** Inserting keeps the entries in order *)

Lemma inserted_ents_ok R id p b0 b1 a es es' :
  inserted R id p b0 b1 a es es' -> pri R id = p -> ents_ok R b0 es ->
  b0 <= b1 /\ ents_ok R b1 es' /\ (forall x, x ∈ es'.*1 -> x ∈ es.*1 \/ b0 <= x).
Proof.
  intros (rs & rest & He' & He) Hp Hok.
  assert (Hs : forall rs, StronglySorted (pri_le R) rs ->
               StronglySorted (pri_le R) (add_rule_to_list R id p rs)).
  { intros. by apply add_rule_to_list_sorted. }
  destruct He as [[He ->]|(He & -> & -> & ->)].
  - apply (ents_ok_Permutation _ _ _ _ He) in Hok as (Hnd & Hlt & Hsort).
    inversion Hsort; inversion Hlt; subst. split; [lia|]. split.
    + apply (ents_ok_Permutation _ _ _ _ (symmetry He')). split_and!; [exact Hnd|by constructor|].
      constructor; [by apply Hs|done].
    + intros x. rewrite He', He. auto.
  - apply (ents_ok_Permutation _ _ _ _ He) in Hok as (Hnd & Hlt & Hsort).
    split; [lia|]. split.
    + apply (ents_ok_Permutation _ _ _ _ (symmetry He')). split_and!; simpl.
      * constructor; [|done]. intros (e & -> & Hin)%list_elem_of_fmap.
        rewrite Forall_forall in Hlt. specialize (Hlt _ Hin). lia.
      * constructor; [simpl; lia|]. eapply Forall_impl; [exact Hlt|]. intros; simpl in *; lia.
      * constructor; [repeat constructor|done].
    + intros x. rewrite He', He. simpl. intros [->|Hx]%elem_of_cons; [right; lia|by left].
Qed.

(** ** Node pointers *)

Definition set_ptrs es st : state E A :=
  foldl (fun st e => foldl (fun st id => set_node id (Some e.1) st) st e.2) st es.

Lemma set_node_pointers_entries n st : set_node_pointers n st = set_ptrs (entries n) st.
Proof.
  unfold set_node_pointers, set_ptrs, entries. revert st.
  induction (nodes n) as [|m ms IH]; intros st; simpl; [done|]. apply IH.
Qed.

Lemma set_list_spec (a : Z) ids st :
  NoDup ids ->
  let st' := foldl (fun st id => set_node id (Some a) st) st ids in
  brk st' = brk st /\ same_rules (heap st') (heap st) /\
  (forall id, heap st' !! id =
     if decide (id ∈ ids) then with_node (Some a) <$> heap st !! id else heap st !! id).
Proof.
  revert st. induction ids as [|x ids IH]; intros st Hnd; simpl.
  { done. }
  apply NoDup_cons in Hnd as [Hx Hnd]. destruct (IH (set_node x (Some a) st) Hnd) as (H1 & H2 & H3).
  split; [done|]. split; [rewrite H2; by apply same_rules_alter|].
  intros id. rewrite H3. unfold set_node; simpl. rewrite lookup_alter.
  repeat case_decide; set_solver.
Qed.

Lemma set_ptrs_spec es st :
  NoDup (ent_rules es) ->
  let st' := set_ptrs es st in
  brk st' = brk st /\ same_rules (heap st') (heap st) /\
  (forall id, id ∉ ent_rules es -> heap st' !! id = heap st !! id) /\
  (forall a rs id, (a, rs) ∈ es -> id ∈ rs ->
     heap st' !! id = with_node (Some a) <$> heap st !! id).
Proof.
  revert st. induction es as [|[a0 rs0] es IH]; intros st Hnd.
  { simpl. split_and!; try done. intros ? ? ? Hin%elem_of_nil. done. }
  apply NoDup_app in Hnd as (Hnd0 & Hdisj & Hnd). simpl.
  destruct (set_list_spec a0 rs0 st Hnd0) as (B1 & B2 & B3). simpl in *.
  set (st1 := foldl (fun st id => set_node id (Some a0) st) st rs0) in *.
  destruct (IH st1 Hnd) as (C1 & C2 & C3 & C4). fold (set_ptrs es st1).
  split; [congruence|]. split; [by rewrite C2|]. split.
  - intros id Hid. rewrite C3 by set_solver. rewrite B3. case_decide; set_solver.
  - intros a rs id [[= -> ->]|Hin]%elem_of_cons Hid.
    + rewrite C3 by auto. rewrite B3. by rewrite decide_True.
    + rewrite (C4 _ _ _ Hin Hid), B3. case_decide as Hd; [|done].
      exfalso. apply (Hdisj _ Hd). apply elem_of_ent_rules. eauto.
Qed.

Lemma unlink_noop a id st :
  (forall r, heap st !! id = Some r -> r_node r <> Some a) -> unlink a id st = st.
Proof.
  intros Hno. destruct st as [R b]. unfold unlink. simpl in *. f_equal.
  apply map_eq. intros j. rewrite lookup_alter. case_decide; [subst|done].
  destruct (R !! j) as [r|]; simpl; [|done]. rewrite decide_False by auto. done.
Qed.

(** Destroying a tree whose rules have all moved on changes nothing. *)
Lemma destroy_noop n st :
  (forall a rs id r, (a, rs) ∈ entries n -> id ∈ rs -> heap st !! id = Some r ->
     r_node r <> Some a) ->
  destroy n st = st.
Proof.
  intros Hno. unfold destroy.
  assert (Hm : forall m, m ∈ nodes n -> foldl (fun st id => unlink (node_addr m) id st) st (node_rules m) = st).
  { intros m Hm. assert (He : (node_addr m, node_rules m) ∈ entries n)
      by (unfold entries; apply list_elem_of_fmap; by exists m).
    assert (Hids : forall id r, id ∈ node_rules m -> heap st !! id = Some r -> r_node r <> Some (node_addr m))
      by eauto.
    clear -Hids. induction (node_rules m) as [|x l IH]; simpl; [done|].
    rewrite unlink_noop by (intros; eapply Hids; [left|done]). apply IH.
    intros. eapply Hids; [by right|done]. }
  clear Hno. induction (nodes n) as [|m ms IH]; simpl; [done|].
  rewrite Hm by left. apply IH. intros. apply Hm. by right.
Qed.
End store.
