(* ===== verification/CnodeBuild.v ===== *)
(** * Building the classifier tree

    [Cnode::split] and [Cnode::build] redistribute rules over a deeper tree;
    these lemmas show what they preserve and that [build_fuel] is enough. *)

From S2P Require Import Prelude Cnode CnodeResult CnodeFacts.

Open Scope Z_scope.

Section build.
Context {E A : Type} `{ExprOps E}.
Implicit Types (R : gmap Z (rule E A)) (st : state E A) (n c : cnode).

(** A cell points to a live rule with that id. *)
Definition live R (id : Z) : Prop := exists r, R !! id = Some r /\ r_id r = id.

Lemma live_same R R' id : same_rules R R' -> live R id -> live R' id.
Proof.
  intros Heq (r & Hr & Hid). destruct (same_rules_lookup _ _ _ _ Heq Hr) as (r' & ? & [=]).
  exists r'. split; [done|congruence].
Qed.

(** ** Adding a list of rules *)

Record extended (ids : list Z) n st n' st' : Prop := {
  ex_heap : heap st' = heap st;
  ex_brk : brk st <= brk st';
  ex_value : node_value n' = node_value n;
  ex_addr : node_addr n' = node_addr n;
  ex_placed : placed (heap st) n';
  ex_ents : ents_ok (heap st) (brk st') (entries n');
  ex_rules : tree_rules n' ≡ₚ ids ++ tree_rules n;
  ex_addrs : forall x, x ∈ (entries n').*1 -> x ∈ (entries n).*1 \/ brk st <= x
}.

Lemma add_rule_extended r path n st :
  placed (heap st) n -> ents_ok (heap st) (brk st) (entries n) ->
  heap st !! r_id r = Some r ->
  extended [r_id r] n st (fst (add_rule r path false n st)) (snd (add_rule r path false n st)).
Proof.
  intros Hp He Hr. pose proof (add_rule_added r path false n st Hp Hr) as Ha.
  pose proof (added_rules _ _ _ _ _ _ Ha) as Hrules.
  destruct Ha as [Hv Haddr Hpl (a & Hheap & Hins)].
  destruct (inserted_ents_ok _ _ _ _ _ _ _ _ Hins) as (? & ? & ?);
    [unfold pri; by rewrite Hr|done|].
  by split.
Qed.

Lemma extended_trans ids1 ids2 n st n1 st1 n2 st2 :
  extended ids1 n st n1 st1 -> extended ids2 n1 st1 n2 st2 ->
  extended (ids1 ++ ids2) n st n2 st2.
Proof.
  intros [H1 H2 H3 H4 H5 H6 H7 H8] [G1 G2 G3 G4 G5 G6 G7 G8]. rewrite H1 in *.
  split; try congruence; try lia.
  - rewrite G7, H7. solve_Permutation.
  - intros x [Hx|?]%G8; [|right; lia]. by apply H8.
Qed.

Lemma extended_nil n st :
  placed (heap st) n -> ents_ok (heap st) (brk st) (entries n) -> extended [] n st n st.
Proof. intros. split; auto; lia. Qed.

Lemma add_rules_extended path ids n st :
  placed (heap st) n -> ents_ok (heap st) (brk st) (entries n) ->
  (forall id, id ∈ ids -> live (heap st) id) ->
  extended ids n st (fst (add_rules path ids n st)) (snd (add_rules path ids n st)).
Proof.
  revert n st. induction ids as [|id ids IH]; intros n st Hp He Hlive; simpl.
  { by apply extended_nil. }
  destruct (Hlive id) as (r & Hr & Hid); [left|]. rewrite Hr. subst id.
  pose proof (add_rule_extended r path n st Hp He Hr) as H1.
  destruct (add_rule r path false n st) as [n1 st1]. simpl in *.
  apply (extended_trans [r_id r] ids _ _ n1 st1); [done|].
  apply IH; rewrite ?(ex_heap _ _ _ _ _ H1); try apply H1.
  intros id Hid. apply Hlive. by right.
Qed.

(** The shape of the root survives: an internal node keeps its field. *)
Definition node_field n : option Z :=
  match n with Leaf _ _ _ => None | Split _ _ _ f _ _ => Some f end.

Lemma add_rule_field r path sp n st :
  node_field (fst (add_rule r path sp n st)) = node_field n.
Proof.
  destruct n as [|a v rs f bks any]; simpl; [done|].
  destruct (splittable (r_expr r) path); simpl; [|done].
  destruct (get_field (r_expr r) f).
  - by destruct (upd_nth _ _ _ _).
  - by destruct any; simpl; [destruct (add_rule _ _ _ _ _)|].
Qed.

Lemma add_rules_field path ids n st :
  node_field (fst (add_rules path ids n st)) = node_field n.
Proof.
  revert n st. induction ids as [|id ids IH]; intros n st; simpl; [done|].
  destruct (heap st !! id); [|done]. pose proof (add_rule_field r path false n st).
  destruct (add_rule r path false n st) as [n1 st1]. by rewrite IH.
Qed.

(** ** Splitting a leaf *)

Lemma grow_buckets_pow2 fuel (k : nat) bound :
  exists k', grow_buckets fuel (2 ^ Z.of_nat k) bound = 2 ^ Z.of_nat k'.
Proof.
  revert k. induction fuel as [|fuel IH]; intros k; simpl; [eauto|].
  destruct (_ <? bound); [|eauto]. destruct (IH (S k)) as (k' & Hk'). exists k'.
  rewrite <- Hk'. f_equal. rewrite Z.shiftl_mul_pow2 by lia.
  rewrite Nat2Z.inj_succ, Z.pow_succ_r by lia. lia.
Qed.

Lemma grow_buckets_length fuel bound :
  exists k, length (replicate (Z.to_nat (grow_buckets fuel 1 bound)) (@nil cnode)) = (2 ^ k)%nat.
Proof.
  destruct (grow_buckets_pow2 fuel 0 bound) as (k & Hk). exists k.
  change (2 ^ Z.of_nat 0) with 1 in Hk. rewrite Hk, length_replicate.
  apply Nat2Z.inj. rewrite Z2Nat.id, Nat2Z.inj_pow by lia. done.
Qed.

Lemma concat_replicate_nil (k : nat) : concat (replicate k (@nil cnode)) = [].
Proof. by induction k. Qed.

Lemma empty_split_placed R a v f fuel bound :
  placed R (Split a v [] f (replicate (Z.to_nat (grow_buckets fuel 1 bound)) []) None).
Proof.
  constructor; [apply grow_buckets_length| | |done].
  - intros i ch c Hi Hc. apply lookup_replicate in Hi as [-> _]. by apply elem_of_nil in Hc.
  - intros ch Hch. apply elem_of_replicate in Hch as [-> _]. constructor.
Qed.

Lemma empty_split_entries a v f (k : nat) :
  entries (Split a v [] f (replicate k []) None) = [(a, [])].
Proof. rewrite entries_Split. unfold kids. by rewrite concat_replicate_nil. Qed.

(** The two outcomes of [split] on a leaf. *)
Lemma split_spec path copy n st :
  node_field n = None -> ents_ok (heap st) (brk st) (entries n) ->
  (forall id, id ∈ node_rules n -> live (heap st) id) ->
  split path copy n st = (n, st) \/
  exists field (k : nat) m st',
    split path copy n st = (m, st') /\ node_field m = Some field /\
    field = (best_split (heap st) (node_rules n) path).1.1 /\ field <> Z.of_nat num_fields /\
    let a := if copy then node_addr n else brk st in
    let b := if copy then brk st else brk st + 1 in
    let n0 := Split a (node_value n) [] field (replicate k []) None in
    (m, st') = add_rules path (node_rules n) n0 (State (heap st) b) /\
    extended (node_rules n) n0 (State (heap st) b) m st' /\
    (forall x, x ∈ (entries m).*1 -> x = a \/ brk st <= x) /\
    tree_rules m ≡ₚ node_rules n.
Proof.
  intros Hleaf He Hlive. unfold split.
  destruct (best_split (heap st) (node_rules n) path) as [[field exp] dist] eqn:Eb.
  destruct ((field =? Z.of_nat num_fields) || _) eqn:Ec; [by left|]. right.
  apply orb_false_iff in Ec as [Hf _]. apply Z.eqb_neq in Hf.
  set (k := Z.to_nat (grow_buckets 31 1 (dist * 3))).
  set (a := if copy then node_addr n else brk st).
  set (b := if copy then brk st else brk st + 1).
  set (n0 := Split a (node_value n) [] field (replicate k []) None).
  assert (Hn0 : entries n0 = [(a, [])]) by apply empty_split_entries.
  assert (Hext : extended (node_rules n) n0 (State (heap st) b)
            (fst (add_rules path (node_rules n) n0 (State (heap st) b)))
            (snd (add_rules path (node_rules n) n0 (State (heap st) b)))).
  { apply add_rules_extended; [apply empty_split_placed| |done]. rewrite Hn0. simpl.
    split_and!; [apply NoDup_singleton|constructor; [|done]|repeat constructor].
    subst a b. simpl. destruct copy; [|lia]. destruct (entries_head n) as [es Hes].
    eapply ents_ok_lt; [exact He|]. rewrite Hes. left. }
  exists field, k, (fst (add_rules path (node_rules n) n0 (State (heap st) b))),
    (snd (add_rules path (node_rules n) n0 (State (heap st) b))).
  split; [subst n0 a b; destruct st, copy; apply surjective_pairing|].
  split; [by rewrite add_rules_field|]. split; [done|]. split; [done|].
  simpl. split; [symmetry; apply surjective_pairing|]. split; [done|]. split.
  - intros x Hx. apply (ex_addrs _ _ _ _ _ Hext) in Hx as [Hx|Hx].
    + rewrite Hn0 in Hx. left. by apply list_elem_of_singleton in Hx.
    + right. subst b. simpl in Hx. destruct copy; lia.
  - rewrite (ex_rules _ _ _ _ _ Hext). unfold tree_rules. rewrite Hn0. simpl.
    by rewrite app_nil_r.
Qed.

(** ** Rebuilding a list of trees *)

Record buildable (l : list cnode) st : Prop := {
  bd_placed : Forall (placed (heap st)) l;
  bd_ents : ents_ok (heap st) (brk st) (forest l);
  bd_nodup : NoDup (ent_rules (forest l));
  bd_live : forall id, id ∈ ent_rules (forest l) -> live (heap st) id
}.

(** Each tree still stands for the same value and holds the same rules, in
    the right places; node pointers are kept up to date unless the trees are
    copies, whose construction leaves the rules alone. *)
Record rebuilt (copy : bool) (l : list cnode) st (l' : list cnode) st' : Prop := {
  rb_shape : Forall2 (fun c c' => node_value c' = node_value c /\
                        tree_rules c' ≡ₚ tree_rules c /\ placed (heap st') c') l l';
  rb_same : same_rules (heap st') (heap st);
  rb_brk : brk st <= brk st';
  rb_ents : ents_ok (heap st') (brk st') (forest l');
  rb_addrs : forall x, x ∈ (forest l').*1 -> x ∈ (forest l).*1 \/ brk st <= x;
  rb_copy : copy = true -> heap st' = heap st;
  rb_frame : forall id, id ∉ ent_rules (forest l) -> heap st' !! id = heap st !! id;
  rb_ptrs : copy = false -> ptrs_ok (heap st) (forest l) -> ptrs_ok (heap st') (forest l')
}.

Lemma forest_one n : forest [n] = entries n.
Proof. apply app_nil_r. Qed.

Lemma rebuilt_rules copy l st l' st' :
  rebuilt copy l st l' st' -> ent_rules (forest l') ≡ₚ ent_rules (forest l).
Proof.
  intros [Hs _ _ _ _ _ _ _]. induction Hs as [|c c' l l' (_ & Hr & _) _ IH]; [done|].
  change (forest (c' :: l')) with (entries c' ++ forest l').
  change (forest (c :: l)) with (entries c ++ forest l).
  rewrite !ent_rules_app, IH. fold (tree_rules c') (tree_rules c). by rewrite Hr.
Qed.

Lemma rebuilt_refl copy l st : buildable l st -> rebuilt copy l st l st.
Proof.
  intros [Hp He _ _]. split; try done; try lia; [|by left].
  apply Forall_Forall2_diag. eapply Forall_impl; [exact Hp|]. done.
Qed.

Lemma buildable_cons c l st :
  buildable (c :: l) st -> buildable [c] st /\ buildable l st /\
  (forall x, x ∈ (entries c).*1 -> x ∉ (forest l).*1) /\
  (forall id, id ∈ tree_rules c -> id ∉ ent_rules (forest l)).
Proof.
  intros [Hp He Hn Hl]. inversion Hp; subst.
  change (forest (c :: l)) with (entries c ++ forest l) in *.
  rewrite ent_rules_app in *. apply ents_ok_app in He as (? & ? & ?).
  apply NoDup_app in Hn as (? & ? & ?). setoid_rewrite elem_of_app in Hl.
  split_and!; try done; split; rewrite ?forest_one; auto.
Qed.

Lemma buildable_same l st st' :
  same_rules (heap st') (heap st) -> brk st <= brk st' -> buildable l st -> buildable l st'.
Proof.
  intros Hs Hb [Hp He Hn Hl]. symmetry in Hs. split; [| |done|].
  - eapply Forall_impl; [exact Hp|]. intros. by eapply placed_same_rules.
  - eapply ents_ok_mono, ents_ok_same; eauto.
  - intros. eapply live_same; eauto.
Qed.

Lemma rebuilt_cons copy c l st c' st1 l' st2 :
  buildable (c :: l) st -> rebuilt copy [c] st [c'] st1 -> rebuilt copy l st1 l' st2 ->
  rebuilt copy (c :: l) st (c' :: l') st2.
Proof.
  intros (_ & [_ Hel _ _] & Hda & Hdr)%buildable_cons H1 H2.
  pose proof (rebuilt_rules _ _ _ _ _ H1) as Hr1. pose proof (rebuilt_rules _ _ _ _ _ H2) as Hr2.
  destruct H1 as [S1 Q1 B1 E1 A1 C1 F1 P1], H2 as [S2 Q2 B2 E2 A2 C2 F2 P2].
  rewrite !forest_one in *. fold (tree_rules c) (tree_rules c') in *.
  inversion S1 as [|? ? ? ? (? & ? & ?) _]; subst.
  assert (Hsplit : forall (d : cnode) k, forest (d :: k) = entries d ++ forest k) by done.
  split; rewrite ?Hsplit, ?ent_rules_app; fold (tree_rules c) (tree_rules c').
  - constructor; [|done]. split_and!; [done..|]. symmetry in Q2. by eapply placed_same_rules.
  - by rewrite Q2.
  - lia.
  - apply ents_ok_app. split; [|split; [done|]].
    + symmetry in Q2. eapply ents_ok_mono, ents_ok_same; eauto.
    + intros x Hx Hx'. pose proof (ents_ok_lt _ _ _ _ E1 Hx).
      apply A1 in Hx as [Hx|Hx]; apply A2 in Hx' as [Hx'|Hx']; try lia.
      * by apply (Hda x).
      * pose proof (ents_ok_lt _ _ _ _ Hel Hx'). lia.
  - intros x. rewrite !fmap_app, !elem_of_app. intros [Hx|Hx].
    + apply A1 in Hx as [?|?]; auto.
    + apply A2 in Hx as [?|?]; [auto|right; lia].
  - intros ->. rewrite C2, C1; done.
  - intros id [Hid1 Hid2]%not_elem_of_app. rewrite F2 by done. by apply F1.
  - intros -> Hp a rs id. rewrite elem_of_app. intros [He|He] Hid.
    + rewrite F2.
      * eapply P1; [done| |done|done]. intros ????. apply Hp, elem_of_app. by left.
      * apply Hdr. rewrite <- Hr1. apply elem_of_ent_rules. eauto.
    + eapply P2; [done| |done|done]. intros a0 rs0 id0 He0 Hid0. rewrite F1.
      * eapply Hp; [|done]. apply elem_of_app. by right.
      * intros Hin. apply (Hdr _ Hin). apply elem_of_ent_rules. eauto.
Qed.

(** A loop over trees, each step of which rebuilds one of them. *)
Lemma map_st_rebuilt copy (f : cnode -> state E A -> cnode * state E A) l st :
  (forall c st, c ∈ l -> buildable [c] st ->
     rebuilt copy [c] st [fst (f c st)] (snd (f c st))) ->
  buildable l st ->
  rebuilt copy l st (fst (map_st f l st)) (snd (map_st f l st)).
Proof.
  revert st. induction l as [|c l IH]; intros st Hf Hb; simpl; [by apply rebuilt_refl|].
  pose proof (buildable_cons _ _ _ Hb) as (Hb1 & Hb2 & _).
  specialize (Hf c st) as Hc. destruct (f c st) as [c' st1]. simpl in Hc.
  specialize (Hc ltac:(left) Hb1).
  specialize (IH st1). destruct (map_st f l st1) as [l' st2]. simpl in *.
  eapply rebuilt_cons; [done..|]. apply IH.
  - intros. apply Hf; [by right|done].
  - eapply buildable_same; [apply Hc|apply Hc|done].
Qed.

(** ** Rebuilding the children of a node *)

Lemma buildable_kids a v rs f bks any st :
  buildable [Split a v rs f bks any] st -> buildable (kids bks any) st.
Proof.
  intros [Hp He Hn Hl]. inversion Hp as [|? ? Hpn _]; subst.
  inversion Hpn as [|? ? ? ? ? ? _ Hb _ Ha]; subst.
  rewrite forest_one, entries_Split in *. simpl in *.
  change ((a, rs) :: forest (kids bks any)) with ([(a, rs)] ++ forest (kids bks any)) in He.
  apply ents_ok_app in He as (_ & ? & _). apply NoDup_app in Hn as (_ & _ & ?).
  split; [|done|done|intros; apply Hl, elem_of_app; by right].
  rewrite Forall_forall. intros c [Hc|Hc]%elem_of_app.
  - apply elem_of_concat in Hc as (ch & [i Hi]%list_elem_of_lookup & Hc). by eapply Hb.
  - destruct any; simpl in Hc; [|by apply elem_of_nil in Hc].
    apply list_elem_of_singleton in Hc as ->. by eapply Ha.
Qed.

Lemma rebuilt_node copy a v rs f bks any bks' any' st st' :
  buildable [Split a v rs f bks any] st ->
  rebuilt copy (kids bks any) st (kids bks' any') st' ->
  Forall2 (fun ch ch' => length ch = length ch') bks bks' ->
  length (option_list any) = length (option_list any') ->
  rebuilt copy [Split a v rs f bks any] st [Split a v rs f bks' any'] st'.
Proof.
  intros Hbd Hrb Hsh Hany. pose proof (rebuilt_rules _ _ _ _ _ Hrb) as Hrules.
  destruct Hrb as [Hs Q B E0 A0 C F P]. destruct Hbd as [Hp He Hn _].
  inversion Hp as [|? ? Hpn _]; subst. inversion Hpn as [|? ? ? ? ? ? Hlen Hb Hnd Ha]; subst.
  rewrite forest_one, entries_Split in *. simpl in Hn.
  apply NoDup_app in Hn as (_ & Hdisj & _).
  change ((a, rs) :: forest (kids bks any)) with ([(a, rs)] ++ forest (kids bks any)) in *.
  apply ents_ok_app in He as (Hers & Hek & Hfresh).
  assert (Hconcat : length (concat bks) = length (concat bks')).
  { apply Forall2_length in Hs. unfold kids in Hs. rewrite !length_app in Hs. lia. }
  unfold kids in Hs. apply Forall2_app_inv in Hs as [Hs1 Hs2]; [|done].
  apply Forall2_concat_inv in Hs1; [|done].
  assert (Ha_lt : a < brk st) by (eapply ents_ok_lt; [exact Hers|left]).
  split; rewrite ?forest_one, ?entries_Split; try done.
  - constructor; [|constructor]. split; [done|]. split.
    { rewrite !tree_rules_Split. by rewrite Hrules. }
    rewrite (Forall2_length _ _ _ Hsh) in *. constructor; [done| | |].
    + intros i ch' c' Hi Hc'. destruct (Forall2_lookup_r _ _ _ _ _ Hs1 Hi) as (ch & Hch & Hf2).
      apply list_elem_of_lookup in Hc' as [j Hj].
      destruct (Forall2_lookup_r _ _ _ _ _ Hf2 Hj) as (c & Hc & Hv & Hr & Hpc).
      destruct (Hb i ch c Hch) as (Hbc & _ & Hval); [by eapply list_elem_of_lookup_2|].
      rewrite Hv. split_and!; [done..|]. intros id. rewrite Hr. intros Hid.
      rewrite (same_rules_field (heap st) (heap st')) by (by symmetry). auto.
    + intros ch' [i Hi]%list_elem_of_lookup.
      destruct (Forall2_lookup_r _ _ _ _ _ Hs1 Hi) as (ch & Hch & Hf2).
      assert (node_value <$> ch' = node_value <$> ch) as ->.
      { clear -Hf2. induction Hf2 as [|c c' l l' (Hv & _) _ IH]; [done|].
        by rewrite !fmap_cons, Hv, IH. }
      eauto using list_elem_of_lookup_2.
    + intros c' ->. destruct any as [c|]; [|done]. simpl in Hs2.
      inversion Hs2 as [|? ? ? ? (_ & Hr & Hpc) _]; subst. split; [done|]. intros id.
      rewrite Hr. intros Hid. rewrite (same_rules_field (heap st) (heap st')) by (by symmetry).
      by eapply Ha.
  - change ((a, rs) :: forest (kids bks' any')) with ([(a, rs)] ++ forest (kids bks' any')).
    apply ents_ok_app. split_and!; [|done|].
    + symmetry in Q. eapply ents_ok_mono, ents_ok_same; eauto.
    + intros x Hx%list_elem_of_singleton Hx'. simpl in Hx. subst x.
      apply A0 in Hx' as [Hx'|Hx']; [|lia]. apply (Hfresh a); [left|done].
  - simpl. intros x [->|Hx]%elem_of_cons; [left; left|]. apply A0 in Hx as [?|?]; [|auto].
    left. by right.
  - simpl. intros id [_ Hid]%not_elem_of_app. by apply F.
  - intros -> Hok a0 rs0 id [[= -> ->]|He0]%elem_of_cons Hid.
    + rewrite F by auto. eapply Hok; [left|done].
    + eapply P; [done| |done|done]. intros ? ? ? He1. apply Hok. by right.
Qed.

(** ** [Cnode::build] *)

(** The loop of [build_children] over buckets and [any_node], as one loop over
    the children. *)
Lemma build_kids copy (f : cnode -> state E A -> cnode * state E A) a v rs fld bks any st :
  (forall c st, c ∈ kids bks any -> buildable [c] st ->
     rebuilt copy [c] st [fst (f c st)] (snd (f c st))) ->
  buildable [Split a v rs fld bks any] st ->
  let '(bks', st1) := map_st (map_st f) bks st in
  let '(any', st2) := match any with
                      | Some c => let '(c', s) := f c st1 in (Some c', s)
                      | None => (None, st1)
                      end in
  rebuilt copy [Split a v rs fld bks any] st [Split a v rs fld bks' any'] st2.
Proof.
  intros Hf Hb. pose proof (map_st_rebuilt copy f (kids bks any) st Hf (buildable_kids _ _ _ _ _ _ _ Hb)) as Hr.
  unfold kids in Hr. rewrite map_st_app in Hr.
  destruct (map_st_concat f bks st) as (Hc1 & Hc2 & Hsh).
  destruct (map_st (map_st f) bks st) as [bks' st1]. simpl in *.
  rewrite <- Hc1, <- Hc2 in Hr. destruct any as [c|]; simpl in *.
  - destruct (f c st1) as [c' s]. simpl in Hr. by apply rebuilt_node.
  - by apply rebuilt_node.
Qed.

(** What [build] does to one tree; the last clause says that a node that was
    replaced (and is then destroyed by the caller) has lost all its rules. *)
Definition built (copy : bool) n st n' st' : Prop :=
  rebuilt copy [n] st [n'] st' /\
  (node_addr n' = node_addr n \/
   copy = false /\ (forall x, x ∈ (entries n').*1 -> brk st <= x) /\
   ptrs_ok (heap st') (entries n')).

Lemma built_destroy n st n' st' :
  buildable [n] st -> built false n st n' st' -> node_addr n' <> node_addr n ->
  destroy n st' = st'.
Proof.
  intros [_ He _ _] [Hrb [?|(_ & Hnew & Hptr)]] Hne; [done|]. rewrite forest_one in He.
  pose proof (rebuilt_rules _ _ _ _ _ Hrb) as Hr. rewrite !forest_one in Hr.
  apply destroy_noop. intros a rs id r Hin Hid Hheap Hnode.
  assert (id ∈ ent_rules (entries n')) as (a' & rs' & Hin' & Hid')%elem_of_ent_rules.
  { rewrite Hr. apply elem_of_ent_rules. eauto. }
  destruct (Hptr _ _ _ Hin' Hid') as (r' & Hr' & Hnode'). simplify_eq.
  assert (a < brk st) by (eapply ents_ok_lt; [exact He|]; by apply (list_elem_of_fmap_2 fst _ _ Hin)).
  assert (brk st <= a) by (apply Hnew; by apply (list_elem_of_fmap_2 fst _ _ Hin')). lia.
Qed.

(** The split leaf, its children built in the copy, its pointers set. *)
Lemma built_split (copy : bool) n st m st1 m' st2 :
  node_field n = None -> buildable [n] st ->
  let a := if copy then node_addr n else brk st in
  let b := if copy then brk st else brk st + 1 in
  heap st1 = heap st -> b <= brk st1 ->
  node_addr m = a -> node_value m = node_value n -> tree_rules m ≡ₚ node_rules n ->
  (forall x, x ∈ (entries m).*1 -> x = a \/ brk st <= x) ->
  rebuilt true [m] st1 [m'] st2 -> node_addr m' = a ->
  built copy n st m' (if negb copy && true then set_node_pointers m' st2 else st2).
Proof.
  intros Hleaf Hbd a b Hh Hb Ha Hv Hr Haddr Hrb Ha'.
  destruct n as [a0 v rs|]; [|done]. simpl in Hv, Hr.
  pose proof Hbd as [_ Hents Hnd _]. rewrite forest_one in Hents, Hnd. simpl in Hnd.
  rewrite app_nil_r in Hnd.
  assert (Hlt0 : a0 < brk st) by (eapply ents_ok_lt; [exact Hents|left]).
  pose proof (rebuilt_rules _ _ _ _ _ Hrb) as Hrr. rewrite !forest_one in Hrr.
  fold (tree_rules m) (tree_rules m') in Hrr. rewrite Hr in Hrr.
  destruct Hrb as [Hs _ B E0 A0 C _ _]. rewrite forest_one in E0. rewrite !forest_one in A0.
  assert (Hh2 : heap st2 = heap st) by (by rewrite C). clear C. rewrite Hh2 in *.
  inversion Hs as [|? ? ? ? (Hv' & _ & Hp') _]; subst.
  assert (Hbge : brk st <= brk st2) by (destruct copy; simpl in *; lia).
  assert (HA : forall x, x ∈ (entries m').*1 -> x = a \/ brk st <= x).
  { intros x Hx. apply A0 in Hx as [Hx|Hx]; [auto|]. right. subst b. destruct copy; lia. }
  destruct copy; simpl in *.
  - split; [|by left]. split; rewrite ?forest_one, ?Hh2; try done; try lia.
    + constructor; [|constructor]. split_and!; [simpl; congruence|by rewrite tree_rules_Leaf|done].
    + intros x Hx. apply HA in Hx as [->|?]; [left; left|by right].
  - rewrite set_node_pointers_entries.
    assert (Hnd' : NoDup (ent_rules (entries m'))) by (fold (tree_rules m'); by rewrite Hrr).
    destruct (set_ptrs_spec (entries m') st2 Hnd') as (S1 & S2 & S3 & S4). rewrite Hh2 in *.
    assert (Hptr : ptrs_ok (heap (set_ptrs (entries m') st2)) (entries m')).
    { intros x rs' id Hin Hid. rewrite (S4 _ _ _ Hin Hid). destruct (bd_live _ _ Hbd id) as (r & -> & _).
      - rewrite forest_one. simpl. rewrite app_nil_r, <- Hrr. apply elem_of_ent_rules. eauto.
      - by eexists. }
    split; [|right; split_and!; [done| |done]; intros x Hx; apply HA in Hx as [->|?]; [simpl; lia|done]].
    split; rewrite ?forest_one, ?S1; try done; try lia.
    + constructor; [|constructor]. split_and!; [simpl; congruence|by rewrite tree_rules_Leaf|].
      symmetry in S2. by eapply placed_same_rules.
    + symmetry in S2. by eapply ents_ok_same.
    + intros x Hx. right. apply HA in Hx as [->|?]; [simpl; lia|done].
    + simpl. rewrite app_nil_r. intros id Hid. apply S3. by rewrite Hrr.
Qed.

Lemma built_refl copy n st : buildable [n] st -> built copy n st n st.
Proof. intros. split; [by apply rebuilt_refl|by left]. Qed.

(** One level of [build] for an internal node, given the recursive calls. *)
Definition build_child (f : cnode -> state E A -> cnode * state E A) (copy : bool) c st :=
  let '(c', st') := f c st in
  (c', if copy then st' else if node_addr c' =? node_addr c then st' else destroy c st').

Lemma build_child_rebuilt copy f c st :
  buildable [c] st -> built copy c st (fst (f c st)) (snd (f c st)) ->
  rebuilt copy [c] st [fst (build_child f copy c st)] (snd (build_child f copy c st)).
Proof.
  intros Hb Hbu. unfold build_child. destruct (f c st) as [c' st']. simpl in *.
  destruct copy; [apply Hbu|]. destruct (Z.eqb_spec (node_addr c') (node_addr c)); [apply Hbu|].
  rewrite (built_destroy c st c' st') by done. apply Hbu.
Qed.

Lemma extended_buildable ids n st n' st' :
  extended ids n st n' st' -> NoDup (ids ++ tree_rules n) ->
  (forall id, id ∈ ids ++ tree_rules n -> live (heap st) id) -> buildable [n'] st'.
Proof.
  intros [H1 H2 H3 H4 H5 H6 H7 H8] Hnd Hl. split; rewrite ?forest_one, ?H1.
  - by repeat constructor.
  - done.
  - fold (tree_rules n'). by rewrite H7.
  - fold (tree_rules n'). intros id Hid. apply Hl. by rewrite <- H7.
Qed.

Lemma extended_leaf_buildable a v f (k : nat) b n st m st1 :
  node_field n = None -> buildable [n] st ->
  extended (node_rules n) (Split a v [] f (replicate k []) None) (State (heap st) b) m st1 ->
  buildable [m] st1.
Proof.
  intros Hn [_ _ Hnd Hl] Hext. destruct n as [a0 v0 rs0|]; [|done].
  rewrite forest_one in *. fold (tree_rules (Leaf a0 v0 rs0)) in *.
  rewrite tree_rules_Leaf in *.
  eapply extended_buildable; [exact Hext|..];
    unfold tree_rules; rewrite empty_split_entries; simpl; rewrite app_nil_r; auto.
Qed.

(** [build] with its local functions named. *)
Lemma build_unfold fuel path copy n st :
  build (S fuel) path copy n st =
  let build_children m st :=
    match m with
    | Leaf _ _ _ => (m, st)
    | Split a v rs f bks any =>
        let copy' := copy || negb (a =? node_addr n) in
        let g := build_child (build fuel (Z.lor path (masks f)) copy') copy' in
        let '(bks', st1) := map_st (map_st g) bks st in
        let '(any', st2) := match any with
                            | Some c => let '(c', s) := g c st1 in (Some c', s)
                            | None => (None, st1)
                            end in
        let new_this := Split a v rs f bks' any' in
        (new_this, if negb copy && copy' then set_node_pointers new_this st2 else st2)
    end in
  match n with
  | Leaf _ _ rs =>
      if Nat.leb (length rs) leaf_threshold then (n, st)
      else let '(m, st1) := split path copy n st in build_children m st1
  | Split _ _ _ _ _ _ => build_children n st
  end.
Proof. done. Qed.

Lemma build_built fuel path copy n st :
  buildable [n] st ->
  built copy n st (fst (build fuel path copy n st)) (snd (build fuel path copy n st)).
Proof.
  revert path copy n st. induction fuel as [|fuel IH]; intros path copy n st Hb;
    [by apply built_refl|].
  assert (Hkids : forall copy' path' a v rs f bks any st,
    buildable [Split a v rs f bks any] st ->
    let g := build_child (build fuel path' copy') copy' in
    let '(bks', st1) := map_st (map_st g) bks st in
    let '(any', st2) := match any with
                        | Some c => let '(c', s) := g c st1 in (Some c', s)
                        | None => (None, st1)
                        end in
    rebuilt copy' [Split a v rs f bks any] st [Split a v rs f bks' any'] st2).
  { intros. apply build_kids; [|done]. intros. by apply build_child_rebuilt, IH. }
  rewrite build_unfold. cbn zeta. destruct n as [a0 v0 rs0|a v rs f bks any].
  - destruct (Nat.leb (length rs0) leaf_threshold); [by apply built_refl|].
    pose proof Hb as [_ He Hnd Hl]. rewrite forest_one in *.
    destruct (split_spec path copy (Leaf a0 v0 rs0) st) as [->|Hsp];
      [done|done| |by apply built_refl|].
    { intros id Hid. apply Hl. fold (tree_rules (Leaf a0 v0 rs0)). by rewrite tree_rules_Leaf. }
    destruct Hsp as (fld & dist & m & st1 & -> & Hfld & _ & _ & _ & Hext & Haddr & Hrules).
    destruct m as [|a v rs f bks any]; [done|]. injection Hfld as ->.
    pose proof (ex_addr _ _ _ _ _ Hext) as Ha. cbn [node_addr] in Ha, Haddr.
    assert (copy || negb (a =? a0) = true) as Hcopy.
    { destruct copy; [done|]. simpl. apply negb_true_iff, Z.eqb_neq.
      pose proof (ents_ok_lt _ _ _ a0 He ltac:(left)). lia. }
    cbn [node_addr]. rewrite Hcopy.
    assert (Hbm : buildable [Split a v rs fld bks any] st1)
      by (eapply (extended_leaf_buildable _ _ _ _ _ (Leaf a0 v0 rs0)); [done|exact Hb|exact Hext]).
    specialize (Hkids true (Z.lor path (masks fld)) a v rs fld bks any st1 Hbm). cbn zeta in Hkids.
    destruct (map_st (map_st _) bks st1) as [bks' st2].
    destruct (match any with Some c => _ | None => _ end) as [any' st3].
    eapply (built_split copy (Leaf a0 v0 rs0) st (Split a v rs fld bks any) st1); try done.
    + by apply (ex_heap _ _ _ _ _ Hext).
    + by apply (ex_brk _ _ _ _ _ Hext).
    + by apply (ex_value _ _ _ _ _ Hext).
  - specialize (Hkids copy (Z.lor path (masks f)) a v rs f bks any st Hb).
    cbn [node_addr]. rewrite Z.eqb_refl. cbn [negb]. rewrite orb_false_r. cbn zeta in Hkids.
    destruct (map_st (map_st _) bks st) as [bks' st2].
    destruct (match any with Some c => _ | None => _ end) as [any' st3].
    split; [|by left]. destruct copy; exact Hkids.
Qed.

(** ** [build_fuel] is enough *)

Lemma max_list_le (k : nat) l : (max_list l <= k <-> forall x, x ∈ l -> x <= k)%nat.
Proof.
  induction l as [|y l IH]; simpl.
  - split; [|lia]. intros _ x Hx. by apply elem_of_nil in Hx.
  - rewrite Nat.max_lub_iff, IH. setoid_rewrite elem_of_cons. split.
    + intros [? ?] x [->|?]; auto.
    + intros Hl. auto.
Qed.

Lemma height_Split (k : nat) a v rs f bks any :
  (height (Split a v rs f bks any) <= S k <-> forall c, c ∈ kids bks any -> height c <= k)%nat.
Proof.
  simpl. rewrite <- Nat.succ_le_mono, Nat.max_lub_iff, max_list_le.
  setoid_rewrite list_elem_of_In. setoid_rewrite in_map_iff. unfold kids.
  setoid_rewrite in_app_iff. setoid_rewrite <- list_elem_of_In. setoid_rewrite elem_of_concat.
  split.
  - intros [Hb Ha] c [(ch & Hch & Hc)|Hc].
    + assert (max_list (map height ch) <= k)%nat as Hm by (apply Hb; eauto).
      rewrite max_list_le in Hm. apply Hm. apply list_elem_of_In, in_map. by apply list_elem_of_In.
    + destruct any; simpl in Hc; [|by apply elem_of_nil in Hc].
      by apply list_elem_of_singleton in Hc as ->.
  - intros Hk. split.
    + intros x (ch & <- & Hch). apply max_list_le. intros y Hy.
      apply list_elem_of_In, in_map_iff in Hy as (c & <- & Hc%list_elem_of_In). eauto.
    + destruct any as [c|]; [|lia]. apply Hk. right. left.
Qed.

Lemma height_set_rules n rs : height (set_rules n rs) = height n.
Proof. by destruct n. Qed.

Lemma add_rule_height r path sp n st (k : nat) :
  (height n <= k -> height (fst (add_rule r path sp n st)) <= k)%nat.
Proof.
  revert path st k.
  induction n as [a v rs|a v rs f bks any IH] using cnode_tree_ind; intros path st k Hk; [done|].
  destruct k as [|k]; [simpl in Hk; lia|]. cbn [add_rule].
  destruct (splittable (r_expr r) path); cbn [negb fst add_here];
    [|by rewrite height_set_rules].
  rewrite height_Split in Hk. destruct (get_field (r_expr r) f) as [rv|].
  - set (b := Z.to_nat _). destruct (bks !! b) as [ch|] eqn:Eb; cycle 1.
    { rewrite upd_nth_None by done. by apply height_Split. }
    rewrite (upd_nth_lookup _ _ _ _ _ Eb). cbn [fst]. apply height_Split.
    assert (Hch : forall c, c ∈ ch -> c ∈ kids bks any).
    { intros c Hc. apply elem_of_app. left. apply elem_of_concat. eauto using list_elem_of_lookup_2. }
    unfold kids. intros c [(ch' & Hch' & Hc)%elem_of_concat|Hc]%elem_of_app;
      [|apply Hk, elem_of_app; by right].
    apply list_elem_of_lookup in Hch' as [i Hi]. apply list_lookup_insert_Some in Hi as [(-> & <- & _)|[_ Hi]];
      [|apply Hk, elem_of_app; left; apply elem_of_concat; eauto using list_elem_of_lookup_2].
    destruct (existsb _ ch) eqn:Ex.
    + destruct (upd_first_split _ (fun c st => add_rule r (Z.lor path (masks f)) sp c st) ch st Ex)
        as (l1 & c0 & l2 & -> & _ & _ & Hu). rewrite Hu in Hc. cbn [fst] in Hc.
      apply elem_of_app in Hc as [Hc|[->|Hc]%elem_of_cons].
      * apply Hk, Hch, elem_of_app. by left.
      * apply IH; [|apply Hk]; apply Hch, elem_of_app; right; left.
      * apply Hk, Hch, elem_of_app. right. by right.
    + cbn in Hc. apply elem_of_cons in Hc as [->|Hc]; [simpl; lia|by apply Hk, Hch].
  - destruct any as [c|].
    + assert (Hc0 : c ∈ kids bks (Some c)) by (apply elem_of_app; right; left).
      specialize (IH c Hc0 (Z.lor path (masks f)) st k (Hk _ Hc0)).
      destruct (add_rule r (Z.lor path (masks f)) sp c st) as [c' st']. cbn [fst] in *.
      apply height_Split. intros x [Hx|Hx]%elem_of_app; [apply Hk, elem_of_app; by left|].
      by apply list_elem_of_singleton in Hx as ->.
    + cbn [fst]. apply height_Split. intros x [Hx|Hx]%elem_of_app; [apply Hk, elem_of_app; by left|].
      apply list_elem_of_singleton in Hx as ->. simpl. lia.
Qed.

Lemma add_rules_height path ids n st (k : nat) :
  (height n <= k -> height (fst (add_rules path ids n st)) <= k)%nat.
Proof.
  revert n st. induction ids as [|id ids IH]; intros n st Hk; simpl; [done|].
  destruct (heap st !! id); [|auto]. pose proof (add_rule_height r path false n st k Hk).
  destruct (add_rule r path false n st). auto.
Qed.

(** The fields not yet split on along a path. *)
Definition free_fields (path : Z) : list Z :=
  filter (fun i => Z.land path (masks i) = 0) (map Z.of_nat (seq 0 num_fields)).

(** [best_split] answers [num_fields] or a field that is still free. *)
Lemma best_split_free R ids path :
  let f := (best_split R ids path).1.1 in
  f = Z.of_nat num_fields \/ f ∈ free_fields path.
Proof.
  unfold best_split. match goal with |- context [foldl ?g _ _] => set (step := g) end.
  set (P := fun acc : Z * Z * Z => acc.1.1 = Z.of_nat num_fields \/ acc.1.1 ∈ free_fields path).
  assert (Hfold : forall l acc, (forall i, i ∈ l -> i ∈ map Z.of_nat (seq 0 num_fields)) ->
                  P acc -> P (foldl step acc l)); [|apply Hfold; [done|by left]].
  induction l as [|i l IH]; intros acc Hl Hacc; simpl; [done|].
  apply IH; [intros; apply Hl; by right|]. destruct acc as [[bf mr] md]. subst step. simpl.
  destruct (Z.land path (masks i) =? 0) eqn:Ei; [|done].
  destruct (exp_rules_with_split _ _ _ _) as [ex nd].
  destruct ((bf =? _) || (ex <? mr)); [|done]. right. simpl.
  apply list_elem_of_filter. split; [lia|]. apply Hl. left.
Qed.

Lemma masks_testbit i j : 0 <= i < 32 -> 0 <= j -> Z.testbit (masks i) j = (i =? j).
Proof.
  intros Hi Hj. unfold masks, wrap. rewrite Z.shiftl_1_l, Z.mod_small.
  - rewrite Z.pow2_bits_eqb by lia. done.
  - split; [lia|]. apply Z.pow_lt_mono_r; lia.
Qed.

Lemma land_masks path i : 0 <= i < 32 -> Z.land path (masks i) = 0 <-> Z.testbit path i = false.
Proof.
  intros Hi. split.
  - intros H0. assert (Z.testbit (Z.land path (masks i)) i = false) as Hb by (by rewrite H0, Z.bits_0).
    rewrite Z.land_spec, masks_testbit, Z.eqb_refl, andb_true_r in Hb by lia. done.
  - intros Hb. apply Z.bits_inj'. intros j Hj. rewrite Z.land_spec, masks_testbit, Z.bits_0 by lia.
    destruct (Z.eqb_spec i j) as [<-|]; [by rewrite Hb|by rewrite andb_false_r].
Qed.

Context (nf32 : (num_fields <= 32)%nat).

Lemma free_fields_range path i : i ∈ free_fields path -> 0 <= i < 32.
Proof.
  intros [_ Hi]%list_elem_of_filter. apply list_elem_of_In, in_map_iff in Hi as (k & <- & Hk).
  apply in_seq in Hk. lia.
Qed.

(** A split uses up a free field; going down an existing split frees none. *)
Lemma free_fields_lor path f (l : list Z) :
  (forall i, i ∈ l -> 0 <= i < 32) ->
  filter (fun i => Z.land (Z.lor path (masks f)) (masks i) = 0) l
  = filter (fun i => Z.land (masks f) (masks i) = 0)
      (filter (fun i => Z.land path (masks i) = 0) l).
Proof.
  intros Hl. rewrite list_filter_filter. induction l as [|i l IH]; [done|].
  assert (Hi : 0 <= i < 32) by (apply Hl; left).
  rewrite !filter_cons, IH by (intros; apply Hl; by right).
  assert (Z.land (Z.lor path (masks f)) (masks i) = 0 <->
          Z.land (masks f) (masks i) = 0 /\ Z.land path (masks i) = 0) as Hiff.
  { rewrite !land_masks by done. rewrite Z.lor_spec, orb_false_iff. tauto. }
  by rewrite (decide_ext _ _ _ _ Hiff).
Qed.

Lemma free_fields_le path f : (length (free_fields (Z.lor path (masks f))) <= length (free_fields path))%nat.
Proof.
  unfold free_fields. rewrite free_fields_lor; [apply length_filter|].
  intros i Hi. apply list_elem_of_In, in_map_iff in Hi as (k & <- & Hk). apply in_seq in Hk. lia.
Qed.

Lemma free_fields_lt path f :
  f ∈ free_fields path ->
  (length (free_fields (Z.lor path (masks f))) < length (free_fields path))%nat.
Proof.
  intros Hf. pose proof (free_fields_range _ _ Hf) as Hr. unfold free_fields in *.
  rewrite free_fields_lor.
  - eapply (length_filter_lt _ _ f); [done|]. rewrite land_masks by done.
    rewrite masks_testbit, Z.eqb_refl by lia. done.
  - intros i Hi. apply list_elem_of_In, in_map_iff in Hi as (k & <- & Hk). apply in_seq in Hk. lia.
Qed.

Lemma split_height path copy n st :
  node_field n = None -> (height (fst (split path copy n st)) <= 1)%nat.
Proof.
  intros Hn. unfold split. destruct (best_split _ _ _) as [[fld ex] nd].
  destruct (_ || _); [destruct n; [simpl; lia|done]|].
  destruct copy; apply add_rules_height; apply height_Split; intros c; unfold kids;
    rewrite concat_replicate_nil; by intros ?%elem_of_nil.
Qed.

Lemma split_field path copy n st f :
  node_field n = None -> node_field (fst (split path copy n st)) = Some f ->
  f ∈ free_fields path.
Proof.
  intros Hn. unfold split. pose proof (best_split_free (heap st) (node_rules n) path) as Hb.
  destruct (best_split _ _ _) as [[fld ex] nd]. simpl in Hb.
  destruct ((fld =? Z.of_nat num_fields) || _) eqn:Ec; [simpl; congruence|].
  apply orb_false_iff in Ec as [Hf%Z.eqb_neq _].
  destruct copy; rewrite add_rules_field; intros [= <-]; naive_solver.
Qed.

(** With more fuel than the depth of the tree plus the number of free fields,
    the amount of fuel does not matter: [build] has finished. *)
Lemma build_fuel_stable fuel fuel' path copy n st :
  (height n + length (free_fields path) < fuel)%nat ->
  (height n + length (free_fields path) < fuel')%nat ->
  build fuel path copy n st = build fuel' path copy n st.
Proof.
  revert fuel' path copy n st.
  induction fuel as [|fuel IH]; intros [|fuel'] path copy n st Hf Hf'; try lia.
  rewrite !build_unfold. cbn zeta.
  assert (Hkids : forall copy' path' bks any st,
    (forall c, c ∈ kids bks any -> height c + length (free_fields path') < fuel /\
                                   height c + length (free_fields path') < fuel')%nat ->
    let g := build_child (build fuel path' copy') copy' in
    let g' := build_child (build fuel' path' copy') copy' in
    map_st (map_st g) bks st = map_st (map_st g') bks st /\
    forall c st, any = Some c -> g c st = g' c st).
  { intros copy' path' bks any st0 Hh g g'.
    assert (Hg : forall c st, c ∈ kids bks any -> g c st = g' c st).
    { intros c st1 Hc. subst g g'. unfold build_child. destruct (Hh c Hc).
      by rewrite (IH fuel'). }
    split.
    - apply map_st_ext. intros ch st1 Hch. apply map_st_ext. intros c st2 Hc. apply Hg.
      apply elem_of_app. left. apply elem_of_concat. eauto.
    - intros c st1 ->. apply Hg. apply elem_of_app. right. left. }
  destruct n as [a0 v0 rs0|a v rs f bks any].
  - destruct (Nat.leb (length rs0) leaf_threshold); [done|].
    pose proof (split_height path copy (Leaf a0 v0 rs0) st eq_refl) as Hh.
    pose proof (split_field path copy (Leaf a0 v0 rs0) st) as Hfld.
    destruct (split path copy (Leaf a0 v0 rs0) st) as [[|a v rs f bks any] st1]; [done|].
    cbn [fst node_field] in *. specialize (Hfld f eq_refl eq_refl). apply free_fields_lt in Hfld.
    rewrite height_Split in Hh.
    set (copy' := copy || _).
    destruct (Hkids copy' (Z.lor path (masks f)) bks any st1) as [-> Hany].
    { intros c Hc. specialize (Hh c Hc). simpl in Hf, Hf'. lia. }
    destruct (map_st (map_st _) bks st1) as [bks' st2].
    destruct any as [c|]; [by rewrite Hany|done].
  - pose proof (free_fields_le path f).
    set (copy' := copy || _).
    destruct (Hkids copy' (Z.lor path (masks f)) bks any st) as [-> Hany].
    { intros c Hc. destruct (height (Split a v rs f bks any)) as [|k] eqn:Ek; [done|].
      assert (height c <= k)%nat; [|lia]. eapply height_Split; [|exact Hc]. by rewrite Ek. }
    destruct (map_st (map_st _) bks st) as [bks' st2].
    destruct any as [c|]; [by rewrite Hany|done].
Qed.

Lemma build_fuel_enough fuel copy n st :
  (build_fuel n <= fuel)%nat ->
  build fuel 0 copy n st = build (build_fuel n) 0 copy n st.
Proof.
  intros Hf. assert (length (free_fields 0) <= num_fields)%nat.
  { unfold free_fields. etrans; [apply length_filter|]. by rewrite length_map, length_seq. }
  unfold build_fuel in *. apply build_fuel_stable; lia.
Qed.
End build.
