(* ===== verification/CnodeOps.v ===== *)
(** * Unbuilding, cleaning, following node pointers, and traversal *)

From S2P Require Import Prelude Cnode CnodeResult CnodeFacts CnodeBuild.

Open Scope Z_scope.

Section unbuild.
Context {E A : Type} `{ExprOps E}.
Implicit Types (R : gmap Z (rule E A)) (st : state E A) (n c : cnode).

Lemma merge_rules_Permutation R l1 l2 : merge_rules R l1 l2 ≡ₚ l1 ++ l2.
Proof.
  revert l2. induction l1 as [|x l1 IH1]; intros l2; [by destruct l2|].
  induction l2 as [|y l2 IH2]; simpl; [by rewrite app_nil_r|].
  destruct (pri R y <? pri R x).
  - simpl in IH2. rewrite IH2. solve_Permutation.
  - rewrite IH1. done.
Qed.

Lemma merge_rules_sorted R l1 l2 :
  StronglySorted (pri_le R) l1 -> StronglySorted (pri_le R) l2 ->
  StronglySorted (pri_le R) (merge_rules R l1 l2).
Proof.
  revert l2. induction l1 as [|x l1 IH1]; intros l2 H1 H2; [by destruct l2|].
  pose proof (StronglySorted_inv H1) as [H1' Hx].
  induction l2 as [|y l2 IH2]; [done|]. pose proof (StronglySorted_inv H2) as [H2' Hy].
  cbn [merge_rules]. destruct (pri R y <? pri R x) eqn:Exy.
  - constructor; [by apply IH2|]. change (Forall (pri_le R y) (merge_rules R (x :: l1) l2)).
    rewrite merge_rules_Permutation. apply Forall_app. split; [|done].
    constructor; [unfold pri_le; lia|]. eapply Forall_impl; [exact Hx|].
    unfold pri_le. intros; simpl in *; lia.
  - constructor; [by apply IH1|]. rewrite merge_rules_Permutation. apply Forall_app.
    split; [done|]. constructor; [unfold pri_le; lia|]. eapply Forall_impl; [exact Hy|].
    unfold pri_le. intros; simpl in *; lia.
Qed.

Lemma add_node_rules_spec R n b :
  ents_ok R b (entries n) ->
  add_node_rules R [] n ≡ₚ tree_rules n /\ StronglySorted (pri_le R) (add_node_rules R [] n).
Proof.
  intros (_ & _ & Hs). unfold add_node_rules, tree_rules, entries in *.
  assert (Hfold : forall ms acc, Forall (fun e => StronglySorted (pri_le R) e.2) (entry <$> ms) ->
    StronglySorted (pri_le R) acc ->
    foldl (fun acc m => merge_rules R acc (node_rules m)) acc ms ≡ₚ acc ++ ent_rules (entry <$> ms) /\
    StronglySorted (pri_le R) (foldl (fun acc m => merge_rules R acc (node_rules m)) acc ms)).
  { induction ms as [|m ms IH]; intros acc Hms Hacc; simpl; [by rewrite app_nil_r|].
    rewrite fmap_cons in Hms. inversion Hms; subst.
    destruct (IH (merge_rules R acc (node_rules m))) as [IH1 IH2];
      [done|by apply merge_rules_sorted|].
    split; [|done]. rewrite IH1, merge_rules_Permutation. by rewrite app_assoc. }
  apply Hfold; [done|constructor].
Qed.

Lemma unbuild_built n st :
  buildable [n] st -> built false n st (fst (unbuild n st)) (snd (unbuild n st)).
Proof.
  intros Hb. destruct n as [a v rs|a v rs f bks any]; [by apply built_refl|].
  set (n := Split a v rs f bks any) in *. pose proof Hb as [_ He Hnd Hl].
  rewrite forest_one in *. destruct (add_node_rules_spec _ _ _ He) as [Hperm Hsort].
  fold (tree_rules n) in *.
  change (unbuild n st) with
    (let new_this := Leaf (brk st) v (add_node_rules (heap st) [] n) in
     (new_this, set_node_pointers new_this (State (heap st) (brk st + 1)))). simpl.
  set (m := Leaf (brk st) v (add_node_rules (heap st) [] n)).
  rewrite set_node_pointers_entries.
  assert (Hm : tree_rules m ≡ₚ tree_rules n) by (subst m; by rewrite tree_rules_Leaf).
  destruct (set_ptrs_spec (entries m) (State (heap st) (brk st + 1))) as (S1 & S2 & S3 & S4).
  { fold (tree_rules m). by rewrite Hm. }
  assert (Hptr : ptrs_ok (heap (set_ptrs (entries m) (State (heap st) (brk st + 1)))) (entries m)).
  { intros x rs' id Hin Hid. rewrite (S4 _ _ _ Hin Hid). destruct (Hl id) as (r & Hr & _).
    - rewrite <- Hm. apply elem_of_ent_rules. eauto.
    - simpl. rewrite Hr. by eexists. }
  split.
  - split; rewrite ?forest_one, ?S1; simpl brk; try done; try lia.
    + constructor; [|constructor]. split_and!; [done|done|constructor].
    + symmetry in S2. eapply ents_ok_same; [exact S2|]. simpl.
      split_and!; [apply NoDup_singleton|repeat constructor; simpl; lia|by repeat constructor].
    + intros x Hx%list_elem_of_singleton. right. simpl in Hx. lia.
    + intros id Hid. apply S3. fold (tree_rules m). by rewrite Hm.
  - right. split_and!; [done| |done]. intros x Hx%list_elem_of_singleton. simpl in Hx. lia.
Qed.
End unbuild.

(** ** Cleaning *)

Definition clean_chain : list cnode -> list cnode :=
  fix go (ch : list cnode) : list cnode :=
    match ch with
    | [] => []
    | c :: rest => let '(c', gone) := clean c in
                   if gone then go rest else c' :: go rest
    end.

Definition clean_any (any : option cnode) : option cnode :=
  match any with
  | Some c => let '(c', gone) := clean c in if gone then None else Some c'
  | None => None
  end.

Lemma clean_Split a v rs f bks any :
  clean (Split a v rs f bks any) =
  (Split a v rs f (map clean_chain bks) (clean_any any),
   is_nil rs && forallb is_nil (map clean_chain bks) && is_none (clean_any any)).
Proof. done. Qed.

Lemma elem_of_clean_chain c' ch :
  c' ∈ clean_chain ch <-> exists c, c ∈ ch /\ clean c = (c', false).
Proof.
  induction ch as [|c ch IH]; simpl.
  - split; [by intros ?%elem_of_nil|]. by intros (? & ?%elem_of_nil & _).
  - destruct (clean c) as [c0 gone] eqn:Ec. setoid_rewrite elem_of_cons. destruct gone.
    + rewrite IH. split; [naive_solver|]. intros (x & [->|Hx] & Hc); [congruence|eauto].
    + rewrite elem_of_cons, IH. split.
      * intros [->|(x & ? & ?)]; eauto.
      * intros (x & [->|Hx] & Hc); [left; congruence|eauto].
Qed.

Lemma elem_of_clean_kids c' bks any :
  c' ∈ kids (map clean_chain bks) (clean_any any) <->
  exists c, c ∈ kids bks any /\ clean c = (c', false).
Proof.
  unfold kids. rewrite elem_of_app, elem_of_concat. setoid_rewrite elem_of_app.
  setoid_rewrite elem_of_concat. split.
  - intros [(ch & Hch & Hc)|Hc].
    + apply list_elem_of_In, in_map_iff in Hch as (ch0 & <- & Hch0%list_elem_of_In).
      apply elem_of_clean_chain in Hc as (c & ? & ?). eauto 6.
    + destruct any as [c|]; simpl in Hc; [|by apply elem_of_nil in Hc].
      destruct (clean c) as [c0 gone] eqn:Ec. destruct gone; [by apply elem_of_nil in Hc|].
      apply list_elem_of_singleton in Hc as ->. exists c. split; [right; left|done].
  - intros (c & [(ch & Hch & Hc)|Hc] & Hcl).
    + left. exists (clean_chain ch). split; [|by apply elem_of_clean_chain; eauto].
      apply list_elem_of_In, in_map, list_elem_of_In. done.
    + right. destruct any as [c0|]; simpl in Hc; [|by apply elem_of_nil in Hc].
      apply list_elem_of_singleton in Hc as ->. simpl. rewrite Hcl. left.
Qed.

(** Cleaning only removes nodes without rules. *)
Lemma clean_entries n :
  exists dead, entries n ≡ₚ entries (fst (clean n)) ++ dead /\ ent_rules dead = [] /\
    (snd (clean n) = true <-> tree_rules n = []) /\
    node_addr (fst (clean n)) = node_addr n /\ node_value (fst (clean n)) = node_value n.
Proof.
  induction n as [a v rs|a v rs f bks any IH] using cnode_tree_ind.
  { exists []. rewrite app_nil_r, tree_rules_Leaf. simpl. split_and!; try done. by destruct rs. }
  assert (Hdead : forall c, c ∈ kids bks any -> snd (clean c) = true -> tree_rules c = []).
  { intros c Hc Hg. by destruct (IH c Hc) as (? & _ & _ & Hiff & _); apply Hiff. }
  assert (Hk : exists dead, forest (kids bks any) ≡ₚ
                 forest (kids (map clean_chain bks) (clean_any any)) ++ dead /\ ent_rules dead = []).
  { unfold kids in *. rewrite !forest_app.
    assert (Hchain : forall ch, (forall c, c ∈ ch -> c ∈ concat bks ++ option_list any) ->
      exists dead, forest ch ≡ₚ forest (clean_chain ch) ++ dead /\ ent_rules dead = []).
    { induction ch as [|c ch IHc]; intros Hch; [by exists []|].
      destruct IHc as (d1 & P1 & R1); [intros; apply Hch; by right|].
      destruct (IH c) as (d0 & P0 & R0 & Hiff & _ & _); [apply Hch; left|].
      assert (Hcc : forest (c :: ch) ≡ₚ
        (entries (fst (clean c)) ++ d0) ++ (forest (clean_chain ch) ++ d1)).
      { change (forest (c :: ch)) with (entries c ++ forest ch). by rewrite P1, P0. }
      setoid_rewrite Hcc. simpl. destruct (clean c) as [c' gone] eqn:Ec. simpl in *. destruct gone.
      - exists (entries c' ++ d0 ++ d1). split; [solve_Permutation|].
        assert (ent_rules (entries c' ++ d0) = []) as Hz.
        { apply Permutation_nil_r. rewrite <- (ent_rules_Permutation _ _ P0).
          fold (tree_rules c). by rewrite (proj1 Hiff eq_refl). }
        rewrite app_assoc, ent_rules_app, Hz, R1. done.
      - exists (d0 ++ d1). change (forest (c' :: clean_chain ch)) with (entries c' ++ forest (clean_chain ch)).
        split; [solve_Permutation|]. by rewrite ent_rules_app, R0, R1. }
    assert (Hbks : forall bs, (forall c, c ∈ concat bs -> c ∈ concat bks ++ option_list any) ->
      exists dead, forest (concat bs) ≡ₚ forest (concat (map clean_chain bs)) ++ dead /\ ent_rules dead = []).
    { induction bs as [|ch bs IHb]; intros Hbs; simpl; [by exists []|].
      destruct IHb as (d1 & P1 & R1); [intros; apply Hbs, elem_of_app; by right|].
      destruct (Hchain ch) as (d0 & P0 & R0); [intros; apply Hbs, elem_of_app; by left|].
      exists (d0 ++ d1). rewrite !forest_app, P0, P1. split; [solve_Permutation|].
      by rewrite ent_rules_app, R0, R1. }
    destruct (Hbks bks) as (d1 & P1 & R1); [intros; apply elem_of_app; by left|].
    destruct (Hchain (option_list any)) as (d2 & P2 & R2); [intros; apply elem_of_app; by right|].
    assert (clean_chain (option_list any) = option_list (clean_any any)) as Ha.
    { destruct any as [c|]; [|done]. simpl. by destruct (clean c) as [? []]. }
    rewrite Ha in P2. exists (d1 ++ d2). rewrite P1, P2. split; [solve_Permutation|].
    by rewrite ent_rules_app, R1, R2. }
  destruct Hk as (dead & Hperm & Hr). exists dead. rewrite clean_Split. cbn [fst snd].
  rewrite !entries_Split. split; [by rewrite Hperm|]. split; [done|]. split; [|done].
  rewrite tree_rules_Split.
  assert (Hnil : kids (map clean_chain bks) (clean_any any) = [] <->
                 forallb is_nil (map clean_chain bks) && is_none (clean_any any) = true).
  { rewrite andb_true_iff. unfold kids. destruct (clean_any any); simpl.
    - split; [intros [_ [=]]%app_nil|intros [_ [=]]].
    - rewrite app_nil_r. induction (map clean_chain bks) as [|ch bs IHb]; simpl; [done|].
      destruct ch; simpl; [rewrite IHb; done|naive_solver]. }
  rewrite <- andb_assoc, andb_true_iff, <- Hnil. split.
  - intros [Hrs Hk]. destruct rs; [|done]. apply Permutation_nil_r.
    rewrite (ent_rules_Permutation _ _ Hperm), ent_rules_app, Hk, Hr. done.
  - intros [-> Hz]%app_nil. split; [done|].
    destruct (kids (map clean_chain bks) (clean_any any)) as [|c' ks] eqn:Ek; [done|].
    destruct (proj1 (elem_of_clean_kids c' bks any)) as (c & Hc & Hcl); [rewrite Ek; left|].
    destruct (IH c Hc) as (_ & _ & _ & Hiff & _). rewrite Hcl in Hiff. simpl in Hiff.
    destruct Hiff as [_ Hiff]. exfalso. assert (false = true); [|done]. apply Hiff.
    destruct (tree_rules c) as [|id l] eqn:Et; [done|].
    assert (id ∈ ent_rules (forest (kids bks any))) as Hid; [|rewrite Hz in Hid; by apply elem_of_nil in Hid].
    eapply tree_rules_kid; [exact Hc|]. rewrite Et. left.
Qed.

Lemma clean_rules n : tree_rules (fst (clean n)) ≡ₚ tree_rules n.
Proof.
  destruct (clean_entries n) as (dead & Hp & Hd & _).
  unfold tree_rules. by rewrite (ent_rules_Permutation _ _ Hp), ent_rules_app, Hd, app_nil_r.
Qed.

Lemma clean_kept c c' gone :
  clean c = (c', gone) ->
  tree_rules c' ≡ₚ tree_rules c /\ node_value c' = node_value c /\
  (gone = true <-> tree_rules c = []).
Proof.
  intros Hc. pose proof (clean_rules c) as Hr.
  destruct (clean_entries c) as (_ & _ & _ & Hg & _ & Hv). rewrite Hc in *. done.
Qed.

Lemma clean_chain_values ch : node_value <$> clean_chain ch `sublist_of` node_value <$> ch.
Proof.
  induction ch as [|c ch IH]; simpl; [done|]. destruct (clean c) as [c' gone] eqn:Ec.
  destruct (clean_kept _ _ _ Ec) as (_ & Hv & _). destruct gone; [by constructor|].
  rewrite !fmap_cons, Hv. by constructor.
Qed.

Section clean_placed.
Context {E A : Type} `{ExprOps E}.
Implicit Types (R : gmap Z (rule E A)).

Lemma clean_placed R n : placed R n -> placed R (fst (clean n)).
Proof.
  induction n as [a v rs|a v rs f bks any IH] using cnode_tree_ind; intros Hp; [done|].
  inversion Hp as [|? ? ? ? ? ? Hlen Hb Hnd Hany]; subst. rewrite clean_Split. simpl.
  constructor; rewrite ?length_map; [done| | |].
  - intros i ch' c' Hi Hc'. apply list_lookup_fmap_Some in Hi as (ch & -> & Hi).
    apply elem_of_clean_chain in Hc' as (c & Hc & Hcl).
    destruct (clean_kept _ _ _ Hcl) as (Hr & -> & _).
    destruct (Hb i ch c Hi Hc) as (Hbk & Hpc & Hv). split; [done|]. split.
    + assert (c ∈ kids bks any).
      { apply elem_of_app. left. apply elem_of_concat. eauto using list_elem_of_lookup_2. }
      specialize (IH c). rewrite Hcl in IH. auto.
    + intros id. rewrite Hr. auto.
  - intros ch' (ch & -> & Hch)%list_elem_of_fmap. eapply sublist_NoDup; [|by apply clean_chain_values].
    auto.
  - intros c'. destruct any as [c|]; [|done]. simpl.
    destruct (clean c) as [c0 gone] eqn:Ec. destruct gone; [done|]. intros [= <-].
    destruct (Hany c eq_refl) as [Hpc Hv]. destruct (clean_kept _ _ _ Ec) as (Hr & _ & _).
    split.
    + specialize (IH c). rewrite Ec in IH. apply IH; [|done].
      apply elem_of_app. right. simpl. left.
    + intros id. rewrite Hr. auto.
Qed.
End clean_placed.

(** ** Following node pointers *)

Lemma find_flat_map {B C : Type} (p : C -> bool) (f : B -> list C) l :
  List.find p (flat_map f l) = head (flat_map (fun x => option_list (List.find p (f x))) l).
Proof.
  induction l as [|x l IH]; simpl; [done|]. induction (f x) as [|y ys IHy]; simpl; [done|].
  by destruct (p y).
Qed.

Lemma find_node_find a n : find_node a n = List.find (fun m => node_addr m =? a) (nodes n).
Proof.
  induction n as [b v rs|b v rs f bks any IH] using cnode_tree_ind.
  { simpl. by destruct (b =? a). }
  rewrite nodes_Split. cbn [find_node List.find node_addr]. destruct (b =? a); [done|].
  rewrite find_flat_map. unfold kids in *. rewrite flat_map_app. f_equal. f_equal.
  - clear -IH. induction bks as [|ch bks IHb]; simpl; [done|]. rewrite flat_map_app. f_equal.
    + assert (Hch : forall c, c ∈ ch -> find_node a c = List.find (fun m => node_addr m =? a) (nodes c)).
      { intros c Hc. apply IH. simpl. rewrite !elem_of_app. auto. }
      clear -Hch. induction ch as [|c ch IHc]; simpl; [done|].
      rewrite (Hch c) by left. f_equal. apply IHc. intros. apply Hch. by right.
    + apply IHb. intros c Hc. apply IH. simpl. rewrite !elem_of_app in *. tauto.
  - destruct any as [c|]; simpl; [|done]. rewrite IH; [by rewrite app_nil_r|].
    apply elem_of_app. right. left.
Qed.

Lemma find_node_Some a n m : find_node a n = Some m -> m ∈ nodes n /\ node_addr m = a.
Proof.
  rewrite find_node_find. intros [Hm Ha]%find_some. split; [by apply list_elem_of_In|lia].
Qed.

Lemma find_node_total a rs n :
  NoDup (entries n).*1 -> (a, rs) ∈ entries n ->
  exists m, find_node a n = Some m /\ node_addr m = a /\ node_rules m = rs.
Proof.
  intros Hnd Hin. destruct (find_node a n) as [m|] eqn:Hf.
  - exists m. destruct (find_node_Some _ _ _ Hf) as [Hm Ha]. split_and!; try done.
    assert (Hm' : (a, node_rules m) ∈ entries n)
      by (apply list_elem_of_fmap; exists m; subst a; done).
    apply list_elem_of_lookup in Hin as [i Hi]. apply list_elem_of_lookup in Hm' as [j Hj].
    assert (i = j) as ->; [|congruence].
    eapply (NoDup_lookup _ _ _ a Hnd); rewrite list_lookup_fmap; [by rewrite Hi|by rewrite Hj].
  - exfalso. apply list_elem_of_fmap in Hin as (m & [= -> ->] & Hm). rewrite find_node_find in Hf.
    apply list_elem_of_In in Hm. pose proof (find_none _ _ Hf _ Hm) as Hne. simpl in Hne. lia.
Qed.

(** ** Replacing the list of the node at an address *)

Definition put_entry (a : Z) (rs : list Z) (e : Z * list Z) : Z * list Z :=
  (e.1, if e.1 =? a then rs else e.2).

Lemma kids_put a rs bks any :
  kids (map (map (put_rules a rs)) bks)
    (match any with Some c => Some (put_rules a rs c) | None => None end)
  = put_rules a rs <$> kids bks any.
Proof.
  unfold kids. rewrite fmap_app, <- concat_map. by destruct any.
Qed.

Lemma put_rules_value a rs n : node_value (put_rules a rs n) = node_value n.
Proof. by destruct n. Qed.

Lemma entries_put a rs n : entries (put_rules a rs n) = put_entry a rs <$> entries n.
Proof.
  induction n as [b v rs0|b v rs0 f bks any IH] using cnode_tree_ind; [done|].
  cbn [put_rules]. rewrite !entries_Split, kids_put, fmap_cons. unfold put_entry at 1. simpl. f_equal.
  revert IH. generalize (kids bks any). intros ks IH. induction ks as [|c ks IHk]; [done|].
  change (entries (put_rules a rs c) ++ forest (put_rules a rs <$> ks) =
          put_entry a rs <$> (entries c ++ forest ks)).
  rewrite fmap_app, IH by left. f_equal. apply IHk. intros. apply IH. by right.
Qed.

Lemma put_entry_split a rs rs0 es :
  NoDup es.*1 -> (a, rs0) ∈ es ->
  exists rest, es ≡ₚ (a, rs0) :: rest /\ put_entry a rs <$> es ≡ₚ (a, rs) :: rest.
Proof.
  intros Hnd Hin. apply list_elem_of_split in Hin as (l1 & l2 & ->). exists (l1 ++ l2).
  split; [solve_Permutation|]. rewrite fmap_app, fmap_cons.
  assert (Hid : forall l, a ∉ l.*1 -> put_entry a rs <$> l = l).
  { induction l as [|[b rb] l IH]; intros Ha; [done|]. rewrite !fmap_cons in *.
    apply not_elem_of_cons in Ha as [Hb Ha]. simpl in Hb. rewrite IH by done.
    unfold put_entry. simpl. destruct (Z.eqb_spec b a); [congruence|done]. }
  rewrite fmap_app, fmap_cons in Hnd. apply NoDup_app in Hnd as (_ & Hd & Hnd).
  apply NoDup_cons in Hnd as [Ha _]. simpl in *.
  rewrite !Hid; [|done|intros Hx; apply (Hd _ Hx); left].
  unfold put_entry. simpl. rewrite Z.eqb_refl. solve_Permutation.
Qed.

Lemma elem_of_put_rules a rs n id :
  (forall m, m ∈ nodes n -> node_addr m = a -> forall x, x ∈ rs -> x ∈ node_rules m) ->
  id ∈ tree_rules (put_rules a rs n) -> id ∈ tree_rules n.
Proof.
  intros Hsub. unfold tree_rules. rewrite !elem_of_ent_rules, entries_put.
  intros (b & l & Hin & Hid). apply list_elem_of_fmap in Hin as (e & [= -> ->] & He).
  apply list_elem_of_fmap in He as (m & -> & Hm). exists (node_addr m), (node_rules m).
  split; [apply list_elem_of_fmap; by exists m|]. simpl in *.
  destruct (Z.eqb_spec (node_addr m) a); eauto.
Qed.

Lemma nodes_kid m c a v rs f bks any :
  c ∈ kids bks any -> m ∈ nodes c -> m ∈ nodes (Split a v rs f bks any).
Proof. intros Hc Hm. rewrite nodes_Split. right. apply elem_of_flat_map. eauto. Qed.

Lemma put_rules_placed {E A} `{ExprOps E} (R : gmap Z (rule E A)) a rs n :
  (forall m, m ∈ nodes n -> node_addr m = a -> forall x, x ∈ rs -> x ∈ node_rules m) ->
  placed R n -> placed R (put_rules a rs n).
Proof.
  induction n as [b v rs0|b v rs0 f bks any IH] using cnode_tree_ind; intros Hsub Hp; [constructor|].
  inversion Hp as [|? ? ? ? ? ? Hlen Hb Hnd Hany]; subst. cbn [put_rules].
  assert (Hk : forall c, c ∈ kids bks any -> forall m, m ∈ nodes c -> node_addr m = a ->
                 forall x, x ∈ rs -> x ∈ node_rules m) by eauto using nodes_kid.
  constructor; rewrite ?length_map; [done| | |].
  - intros i ch' c' Hi Hc'. apply list_lookup_fmap_Some in Hi as (ch & -> & Hi).
    apply list_elem_of_fmap in Hc' as (c & -> & Hc). rewrite put_rules_value.
    destruct (Hb i ch c Hi Hc) as (? & Hpc & Hv).
    assert (c ∈ kids bks any).
    { apply elem_of_app. left. apply elem_of_concat. eauto using list_elem_of_lookup_2. }
    split; [done|]. split; [by apply IH; eauto|]. intros id Hid. apply Hv.
    eapply elem_of_put_rules; [|exact Hid]. eauto.
  - intros ch' (ch & -> & Hch)%list_elem_of_fmap. rewrite <- list_fmap_compose.
    erewrite list_fmap_ext; [by apply Hnd|]. intros ? c ?. apply put_rules_value.
  - intros c'. destruct any as [c|]; [|done]. intros [= <-].
    destruct (Hany c eq_refl) as [Hpc Hv].
    assert (c ∈ kids bks (Some c)) by (apply elem_of_app; right; simpl; left).
    split; [by apply IH; eauto|]. intros id Hid. apply Hv.
    eapply elem_of_put_rules; [|exact Hid]. eauto.
Qed.
