(* ===== verification/Classifier.v ===== *)
(** * The packet classifier (src/include/classifier.hh) *)

From S2P Require Import Prelude Cnode CnodeResult.

Open Scope Z_scope.

(** [Classifier<Expr, Action>]: the tree, the rules by id (the [Id_map] and
    the rule objects it owns), the id counter and the allocator. *)
Record classifier (E A : Type) := Classifier {
  root : cnode;
  rules : gmap Z (rule E A);
  id_counter : Z;
  next_addr : Z
}.
Arguments Classifier {E A} root rules id_counter next_addr.
Arguments root {E A} c.
Arguments rules {E A} c.
Arguments id_counter {E A} c.
Arguments next_addr {E A} c.

Definition UINT32_MAX : Z := 2 ^ 32 - 1.
Definition ENOMEM : Z := 12.

Section classifier.
Context {E A : Type} `{ExprOps E}.
Implicit Types (c : classifier E A) (R : gmap Z (rule E A)).

(** [Classifier::Classifier()] *)
Definition init : classifier E A := Classifier (Leaf 1 0 []) ∅ 1 2.

(** [Classifier::Classifier(split_field, n_buckets)]; the asserts of the
    [Cnode] constructor. *)
Definition init_split (split_field n_buckets : Z) : res (classifier E A) :=
  if (split_field <? 32) && (0 <? n_buckets)
     && (Z.land n_buckets (n_buckets - 1) =? 0)
  then Ret (Classifier (Split 1 0 [] split_field
                          (replicate (Z.to_nat n_buckets) []) None) ∅ 1 2)
  else Aborted.

(** [Classifier::reset()]: the old tree goes first, then the rules. *)
Definition reset c : classifier E A :=
  Classifier (Leaf (next_addr c) 0 []) ∅ 1 (next_addr c + 1).

(** [Classifier::reset(split_field, n_buckets)] *)
Definition reset_split c (split_field n_buckets : Z) : res (classifier E A) :=
  if (split_field <? 32) && (0 <? n_buckets)
     && (Z.land n_buckets (n_buckets - 1) =? 0)
  then Ret (Classifier (Split (next_addr c) 0 [] split_field
                          (replicate (Z.to_nat n_buckets) []) None) ∅ 1
              (next_addr c + 1))
  else Aborted.

(** The loop of [Classifier::get_id]. *)
Fixpoint get_id_loop (fuel : nat) R (id_counter : Z) (loop : bool) : res Z :=
  match fuel with
  | O => NoFuel
  | S k =>
      match R !! id_counter with
      | None => Ret id_counter
      | Some _ =>
          if id_counter =? UINT32_MAX then
            if loop then Throw ENOMEM else get_id_loop k R 1 true
          else get_id_loop k R (u32 (id_counter + 1)) loop
      end
  end.

(** [Classifier::get_id]: the id and the new counter. *)
Definition get_id R (id_counter : Z) : res (Z * Z) :=
  id ← get_id_loop (2 * size R + 3) R id_counter false;
  Ret (id, if id =? UINT32_MAX then 1 else id).

(** [Classifier::add_rule]: the id of the new rule. *)
Definition add_rule c (priority : Z) (expr : E) (action : A)
    : res (Z * classifier E A) :=
  '(new_id, counter) ← get_id (rules c) (id_counter c);
  let r := Rule new_id priority expr action None in
  match rules c !! new_id with
  | Some _ => Throw ENOMEM
  | None =>
      let '(root', st) :=
        Cnode.add_rule r 0 true (root c)
          (State (<[new_id := r]> (rules c)) (next_addr c)) in
      Ret (new_id, Classifier root' (heap st) counter (brk st))
  end.

(** [Classifier::change_rule_priority] *)
Definition change_rule_priority c (id priority : Z) : res (bool * classifier E A) :=
  match rules c !! id with
  | None => Ret (false, c)
  | Some r =>
      match r_node r with
      | None => Ret (false, c)
      | Some a =>
          match find_node a (root c) with
          | None => Aborted
          | Some n =>
              let '(found, n', st) :=
                change_rule_priority_at id priority n (State (rules c) (next_addr c)) in
              Ret (found, Classifier (put_rules a (node_rules n') (root c))
                            (heap st) (id_counter c) (brk st))
          end
      end
  end.

(** [Classifier::get_rule] *)
Definition get_rule c (id : Z) : option (rule E A) := rules c !! id.

(** [Classifier::delete_rule] *)
Definition delete_rule c (id : Z) : res (bool * classifier E A) :=
  match rules c !! id with
  | None => Ret (false, c)
  | Some r =>
      match r_node r with
      | None => Ret (true, Classifier (root c) (delete id (rules c))
                             (id_counter c) (next_addr c))
      | Some a =>
          match find_node a (root c) with
          | None => Aborted
          | Some n =>
              let '(_, n', st) := remove_rule_at id n (State (rules c) (next_addr c)) in
              Ret (true, Classifier (put_rules a (node_rules n') (root c))
                           (delete id (heap st)) (id_counter c) (brk st))
          end
      end
  end.

(** [Classifier::build] *)
Definition build c : classifier E A :=
  let '(tmp, st) := Cnode.build (build_fuel (root c)) 0 false (root c)
                      (State (rules c) (next_addr c)) in
  let st' := if node_addr tmp =? node_addr (root c) then st else destroy (root c) st in
  Classifier tmp (heap st') (id_counter c) (brk st').

(** [Classifier::unbuild] *)
Definition unbuild c : classifier E A :=
  let '(tmp, st) := Cnode.unbuild (root c) (State (rules c) (next_addr c)) in
  let st' := if node_addr tmp =? node_addr (root c) then st else destroy (root c) st in
  Classifier tmp (heap st') (id_counter c) (brk st').

(** [Classifier::clean] *)
Definition clean c : classifier E A :=
  Classifier (fst (Cnode.clean (root c))) (rules c) (id_counter c) (next_addr c).

Section lookup.
Context {D : Type} `{DataOps E D}.
Implicit Types (d : D) (tv : result).

(** The loop of [Classifier::get_rules] over the stack [to_traverse], whose
    head is the vector's back. *)
Fixpoint get_rules_loop (fuel : nat) d (to_traverse : list cnode) tv : res result :=
  match to_traverse with
  | [] => Ret tv
  | n :: rest =>
      match fuel with
      | O => NoFuel
      | S k =>
          cs ← selected d n;
          get_rules_loop k d (rev cs ++ rest) (push (node_rules n) tv)
      end
  end.

(** [Classifier::get_rules] *)
Definition get_rules c d tv : res result :=
  get_rules_loop (length (nodes (root c))) d [root c] tv.

(** The loop of [Classifier::delete_rules]: how many rules were deleted. *)
Fixpoint delete_loop (fuel : nat) d c tv (n_del : Z) : res (Z * classifier E A) :=
  match fuel with
  | O => NoFuel
  | S k =>
      '(o, tv') ← next (rules c) d tv;
      match o with
      | None => Ret (n_del, c)
      | Some id =>
          '(found, c') ← delete_rule c id;
          delete_loop k d c' tv' (if (found : bool) then u32 (n_del + 1) else n_del)
      end
  end.

(** [Classifier::delete_rules] *)
Definition delete_rules c d : res (Z * classifier E A) :=
  tv ← get_rules c d [];
  delete_loop (S (size (rules c))) d c tv 0.

(** A client's lookup: [get_rules] on a fresh result, then [next] until it
    returns null. *)
Definition classify c d : res (list Z) :=
  tv ← get_rules c d [];
  drain (S (size (rules c))) (rules c) d tv.

End lookup.
End classifier.
