(* ===== verification/CnodeSearch.v ===== *)
(** * Lookup in the classifier tree: which nodes a traversal reaches, and the fields
    its nodes are split on *)

From S2P Require Import Prelude Classifier Cnode CnodeResult CnodeFacts CnodeBuild CnodeOps.

Open Scope Z_scope.

(** What a data type owes the tree: [get_field] runs out of values at an index
    within the bound, never repeats a value, and agrees with [matches] (an
    expression that matches and constrains a field has one of the data's
    values there, unless the data has none: "unspecified, try every child"). *)
Class DataLaws (E D : Type) `{ExprOps E, DataOps E D} := {
  field_values_fuel f d : field_values (S data_max_idx) f d 0 <> NoFuel;
  field_values_NoDup f d vs :
    field_values (S data_max_idx) f d 0 = Ret vs -> NoDup vs;
  field_values_match f d vs id e v :
    field_values (S data_max_idx) f d 0 = Ret vs ->
    data_matches id e d = Ret true -> get_field e f = Some v -> vs = [] \/ v ∈ vs
}.

Section search.
Context {E A D : Type} `{DataLaws E D}.
Implicit Types (R : gmap Z (rule E A)) (d : D) (n c : cnode) (tv : result).

(** The data's values on a field can be read (no [assert] fails). *)
Definition readable d (f : Z) : Prop :=
  exists vs, field_values (S data_max_idx) f d 0 = Ret vs.

Definition readable_node d n : Prop :=
  match node_field n with Some f => readable d f | None => True end.

(** ** The children a node sends the traversal to *)

Lemma chain_find_spec v ch : NoDup (node_value <$> ch) ->
  chain_find v ch = filter (fun c => node_value c = v) ch.
Proof.
  unfold chain_find. induction ch as [|c ch IH]; intros Hnd; [done|].
  rewrite fmap_cons in Hnd. apply NoDup_cons in Hnd as [Hc Hnd]. cbn [List.find].
  destruct (Z.eqb_spec (node_value c) v) as [<-|Hne].
  - rewrite filter_cons_True by done. simpl. f_equal. symmetry.
    apply filter_none. intros x Hx Heq. apply Hc. rewrite <- Heq. by apply list_elem_of_fmap_2.
  - rewrite filter_cons_False by done. by apply IH.
Qed.

Lemma chain_find_elem v ch c : c ∈ chain_find v ch -> c ∈ ch /\ node_value c = v.
Proof.
  unfold chain_find. destruct (List.find _ ch) as [x|] eqn:Ef; simpl; [|by intros ?%elem_of_nil].
  intros ->%list_elem_of_singleton. apply find_some in Ef as [Hx Hv].
  split; [by apply list_elem_of_In|lia].
Qed.

Lemma chain_find_in v ch c :
  NoDup (node_value <$> ch) -> c ∈ ch -> node_value c = v -> c ∈ chain_find v ch.
Proof.
  intros Hnd Hc Hv. rewrite chain_find_spec by done. by apply list_elem_of_filter.
Qed.

Lemma lookup_chain_submseteq (bks : list (list cnode)) (i : nat) :
  default [] (bks !! i) ⊆+ concat bks.
Proof.
  revert i. induction bks as [|ch bks IH]; intros [|i]; simpl; [apply submseteq_nil_l..| |].
  - by apply submseteq_inserts_r.
  - by apply submseteq_inserts_l.
Qed.

(** A node sends the traversal to some of its children, and to every one
    below which a rule may match. *)
Lemma selected_spec R d n :
  placed R n -> readable_node d n ->
  exists cs, selected d n = Ret cs /\
    match n with
    | Leaf _ _ _ => cs = []
    | Split _ _ _ _ bks any =>
        cs ⊆+ kids bks any /\
        forall c id, c ∈ kids bks any -> id ∈ tree_rules c -> matching R d id = true -> c ∈ cs
    end.
Proof.
  intros Hp Hr. destruct n as [a v rs|a v rs f bks any]; [by exists []|].
  destruct Hr as [vs Hvs]. unfold selected. rewrite Hvs. cbn [mbind res_bind].
  inversion Hp as [|? ? ? ? ? ? [k Hlen] Hb Hnd Hany]; subst.
  eexists. split; [done|]. unfold kids. destruct vs as [|v0 vs0] eqn:Evs.
  { split; [rewrite (Permutation_app_comm (concat bks)); done|].
    intros c id. rewrite !elem_of_app. tauto. }
  rewrite <- Evs in *. set (g := fun v => chain_find v (default [] (bks !! _))).
  split.
  { rewrite (Permutation_app_comm (concat bks)). apply submseteq_skips_l.
    apply (flat_map_key_submseteq node_value); [by eapply field_values_NoDup| |].
    - intros w. subst g. simpl. etrans; [|apply lookup_chain_submseteq].
      unfold chain_find. destruct (List.find _ _) as [x|] eqn:Ef; [|apply submseteq_nil_l].
      apply find_some in Ef as [Hx%list_elem_of_In _]. by apply singleton_submseteq_l.
    - intros w c Hc. by apply chain_find_elem in Hc as [_ ?]. }
  intros c id [Hc|Hc]%elem_of_app Hid Hm; apply elem_of_app; [|by left]. right.
  apply elem_of_concat in Hc as (ch & [i Hi]%list_elem_of_lookup & Hc).
  destruct (Hb i ch c Hi Hc) as (Hbk & _ & Hval). specialize (Hval id Hid).
  unfold rule_field in Hval. unfold matching in Hm.
  destruct (R !! id) as [r|]; [|done]. simpl in Hval.
  destruct (data_matches id (r_expr r) d) as [[]| | |] eqn:Em; try done.
  destruct (field_values_match f d vs id (r_expr r) (node_value c)) as [->|Hin]; try done.
  apply elem_of_flat_map. exists (node_value c). split; [done|]. subst g. simpl.
  rewrite Hbk, Nat2Z.id, Hi. simpl.
  apply chain_find_in; eauto using list_elem_of_lookup_2.
Qed.

(** ** The traversal *)

Abbreviation stack_nodes st := (flat_map nodes st).

Lemma cells_push rs tv : cells (push rs tv) = cells tv ++ rs.
Proof.
  unfold push, cells. destruct rs; simpl; [by rewrite app_nil_r|].
  rewrite fmap_app, concat_app. simpl. by rewrite app_nil_r.
Qed.

Lemma result_push_ok R d rs tv :
  StronglySorted (pri_le R) rs -> Forall (defined R d) rs ->
  Forall (cursor_ok R d) tv -> Forall (cursor_ok R d) (push rs tv).
Proof.
  intros Hs Hd Htv. unfold push. destruct rs; [done|]. apply Forall_app. split; [done|].
  constructor; [|constructor]. by split_and!.
Qed.

Lemma stack_nodes_submseteq (l1 l2 : list cnode) : l1 ⊆+ l2 -> stack_nodes l1 ⊆+ stack_nodes l2.
Proof.
  intros [k Hk]%submseteq_Permutation. rewrite (Permutation_flat_map nodes Hk), flat_map_app.
  by apply submseteq_inserts_r.
Qed.

Lemma nodes_kids n : nodes n = n :: stack_nodes (match n with Leaf _ _ _ => [] | Split _ _ _ _ bks any => kids bks any end).
Proof. destruct n; [done|apply nodes_Split]. Qed.

Lemma nodes_placed R n m : placed R n -> m ∈ nodes n -> placed R m.
Proof.
  induction n as [a v rs|a v rs f bks any IH] using cnode_tree_ind; intros Hp.
  { by intros ->%list_elem_of_singleton. }
  rewrite nodes_Split. intros [->|(c & Hc & Hm)%elem_of_flat_map]%elem_of_cons; [done|].
  eapply IH; [exact Hc| |exact Hm]. inversion Hp as [|? ? ? ? ? ? _ Hb _ Hany]; subst.
  apply elem_of_app in Hc as [Hc|Hc].
  - apply elem_of_concat in Hc as (ch & [i Hi]%list_elem_of_lookup & Hc).
    by destruct (Hb i ch c Hi Hc) as (_ & ? & _).
  - destruct any; [|by apply elem_of_nil in Hc]. apply list_elem_of_singleton in Hc as ->.
    by apply Hany.
Qed.

(** With fuel for every node below the stack the traversal ends; it visits
    each node at most once and misses no matching rule. *)
Lemma get_rules_loop_spec fuel R d stack tv :
  (length (stack_nodes stack) <= fuel)%nat ->
  Forall (fun m => placed R m /\ readable_node d m) (stack_nodes stack) ->
  Forall (fun m => StronglySorted (pri_le R) (node_rules m) /\
                   Forall (defined R d) (node_rules m)) (stack_nodes stack) ->
  Forall (cursor_ok R d) tv ->
  exists tv' seen, get_rules_loop fuel d stack tv = Ret tv' /\
    Forall (cursor_ok R d) tv' /\ seen ⊆+ stack_nodes stack /\
    cells tv' ≡ₚ cells tv ++ ent_rules (entry <$> seen) /\
    forall id, id ∈ ent_rules (forest stack) -> matching R d id = true ->
               id ∈ ent_rules (entry <$> seen).
Proof.
  revert stack tv. induction fuel as [|fuel IH]; intros [|n stack] tv Hf Hp Hs Htv; cbn [get_rules_loop].
  1,3: exists tv, []; split_and!; try done; try (by rewrite app_nil_r); by intros ? ?%elem_of_nil.
  { cbn [flat_map] in Hf. rewrite nodes_kids in Hf. simpl in Hf. lia. }
  assert (Hn : n ∈ stack_nodes (n :: stack)) by (simpl; rewrite nodes_kids; left).
  rewrite Forall_forall in Hp, Hs. destruct (Hp n Hn) as [Hpn Hrn], (Hs n Hn) as [Hsn Hdn].
  destruct (selected_spec R d n Hpn Hrn) as (cs & -> & Hcs). cbn [mbind res_bind].
  set (ks := match n with Leaf _ _ _ => [] | Split _ _ _ _ bks any => kids bks any end).
  assert (Hks : cs ⊆+ ks /\ forall c id, c ∈ ks -> id ∈ tree_rules c -> matching R d id = true -> c ∈ cs).
  { subst ks. destruct n; [|done]. subst cs. split; [done|]. by intros ? ? ?%elem_of_nil. }
  destruct Hks as [Hsub Hcomp].
  assert (Hstack : stack_nodes (rev cs ++ stack) ⊆+ stack_nodes (ks ++ stack)).
  { apply stack_nodes_submseteq. apply submseteq_skips_r. by rewrite <- Permutation_rev. }
  assert (Hall : stack_nodes (n :: stack) = n :: stack_nodes (ks ++ stack)).
  { simpl. by rewrite nodes_kids, flat_map_app. }
  assert (Hin : forall m, m ∈ stack_nodes (rev cs ++ stack) -> m ∈ stack_nodes (n :: stack)).
  { intros m Hm. rewrite Hall. right. by eapply elem_of_submseteq. }
  destruct (IH (rev cs ++ stack) (push (node_rules n) tv)) as (tv' & seen & -> & Hok & Hseen & Hcells & Hfound).
  - apply submseteq_length in Hstack. rewrite Hall in Hf. simpl in Hf. lia.
  - rewrite Forall_forall. auto.
  - rewrite Forall_forall. auto.
  - by apply result_push_ok.
  - exists tv', (n :: seen). split_and!; try done.
    + rewrite Hall. apply submseteq_skip. by etrans.
    + rewrite Hcells, cells_push. simpl. by rewrite app_assoc.
    + intros id Hid Hm. change (id ∈ node_rules n ++ ent_rules (entry <$> seen)).
      apply elem_of_app. change (forest (n :: stack)) with (entries n ++ forest stack) in Hid.
      rewrite ent_rules_app, elem_of_app in Hid.
      assert (Hrec : forall c, c ∈ rev cs ++ stack -> id ∈ tree_rules c -> id ∈ ent_rules (entry <$> seen)).
      { intros c Hc Hidc. apply Hfound; [|done].
        apply elem_of_ent_rules in Hidc as (a' & rs' & He & Hid'). apply elem_of_ent_rules.
        exists a', rs'. split; [|done]. apply elem_of_forest. eauto. }
      destruct Hid as [Hid|Hid].
      * assert (id ∈ node_rules n \/ id ∈ ent_rules (forest ks)) as [?|Hk]; [|by left|].
        { subst ks. destruct n.
          - left. fold (tree_rules (Leaf addr value rules)) in Hid. by rewrite tree_rules_Leaf in Hid.
          - fold (tree_rules (Split addr value rules split_field buckets any_node)) in Hid.
            rewrite tree_rules_Split, elem_of_app in Hid. done. }
        right. apply ent_rules_forest_inv in Hk as (c & Hc & Hidc). apply (Hrec c); [|done].
        apply elem_of_app. left. rewrite <- Permutation_rev. eauto.
      * right. apply ent_rules_forest_inv in Hid as (c & Hc & Hidc). apply (Hrec c); [|done].
        apply elem_of_app. by right.
Qed.
End search.

(** ** Which fields a tree is split on

    [build] only splits on a field for which some rule below the node has a
    value: a split must save at least [leaf_threshold] rules. *)

(** The fields the nodes of a tree are split on. *)
Definition splits_on (n : cnode) (f : Z) : Prop :=
  exists m, m ∈ nodes n /\ node_field m = Some f.

Lemma splits_on_Leaf a v rs f : ~ splits_on (Leaf a v rs) f.
Proof. intros (m & ->%list_elem_of_singleton & Hf). done. Qed.

Lemma splits_on_Split a v rs f bks any g :
  splits_on (Split a v rs f bks any) g <->
  g = f \/ exists c, c ∈ kids bks any /\ splits_on c g.
Proof.
  unfold splits_on. rewrite nodes_Split. setoid_rewrite elem_of_cons.
  setoid_rewrite elem_of_flat_map. split.
  - intros (m & [->|(c & Hc & Hm)] & Hg); [left; by injection Hg as ->|right; eauto].
  - intros [->|(c & Hc & m & Hm & Hg)]; [eauto|]. exists m. eauto.
Qed.

Section fields.
Context {E A : Type} `{ExprOps E}.
Implicit Types (R : gmap Z (rule E A)) (st : state E A) (n c : cnode).

(** Some of the rules has a value for the field. *)
Definition useful R (ids : list Z) (f : Z) : Prop :=
  exists id, id ∈ ids /\ is_Some (rule_field R id f).

Lemma useful_mono R R' ids ids' f :
  same_rules R R' -> (forall id, id ∈ ids -> id ∈ ids') -> useful R ids f -> useful R' ids' f.
Proof.
  intros Hs Hsub (id & Hid & Hv). exists id. split; [auto|]. by rewrite (same_rules_field R R').
Qed.

(** ** Adding rules creates leaves only *)

Lemma add_here_splits r sp n st f : splits_on (fst (add_here r sp n st)) f <-> splits_on n f.
Proof.
  destruct n as [a v rs|a v rs g bks any]; simpl.
  - split; by intros ?%splits_on_Leaf.
  - by rewrite !splits_on_Split.
Qed.

Lemma kids_insert_sub bks any (b : nat) ch ch' c :
  bks !! b = Some ch -> c ∈ kids (<[b := ch']> bks) any -> c ∈ ch' \/ c ∈ kids bks any.
Proof.
  intros Hb. unfold kids. rewrite !elem_of_app, !elem_of_concat.
  intros [(l & [i Hi]%list_elem_of_lookup & Hc)|Hc]; [|auto].
  destruct (decide (i = b)) as [->|Hne].
  - rewrite list_lookup_insert_eq in Hi by (by eapply lookup_lt_Some). simplify_eq. auto.
  - rewrite list_lookup_insert_ne in Hi by done. right. left. exists l.
    split; [by eapply list_elem_of_lookup_2|done].
Qed.

Lemma add_rule_splits r path sp n st f :
  splits_on (fst (add_rule r path sp n st)) f -> splits_on n f.
Proof.
  revert path st. induction n as [a v rs|a v rs g bks any IH] using cnode_tree_ind; intros path st.
  { intros Hs. by apply (add_here_splits r sp (Leaf a v rs) st f). }
  cbn [add_rule]. destruct (splittable (r_expr r) path); cbn [negb]; [|by rewrite add_here_splits].
  destruct (get_field (r_expr r) g) as [rv|].
  - set (b := Z.to_nat _). match goal with |- context [upd_nth ?u b bks st] => set (upd := u) end.
    destruct (bks !! b) as [ch|] eqn:Eb; [|by rewrite (upd_nth_None _ _ _ _ Eb)].
    rewrite (upd_nth_lookup _ _ _ _ _ Eb). cbn [fst]. rewrite !splits_on_Split.
    intros [->|(c & Hc & Hf)]; [by left|]. right.
    apply (kids_insert_sub _ _ _ _ _ _ Eb) in Hc as [Hc|Hc]; [|eauto].
    assert (Hkid : forall x, x ∈ ch -> x ∈ kids bks any).
    { intros x Hx. apply elem_of_app. left. apply elem_of_concat. eauto using list_elem_of_lookup_2. }
    subst upd. cbn beta in Hc. destruct (existsb (fun c => node_value c =? rv) ch) eqn:Ex.
    + destruct (upd_first_split _ (fun c st => add_rule r (Z.lor path (masks g)) sp c st) ch st Ex)
        as (l1 & x & l2 & -> & _ & _ & Heq). rewrite Heq in Hc. cbn [fst] in Hc.
      apply elem_of_app in Hc as [Hc|[->|Hc]%elem_of_cons].
      * exists c. split; [apply Hkid, elem_of_app; by left|done].
      * assert (Hx : x ∈ kids bks any) by (apply Hkid, elem_of_app; right; left). eauto.
      * exists c. split; [apply Hkid, elem_of_app; right; by right|done].
    + simpl in Hc. apply elem_of_cons in Hc as [->|Hc]; [by apply splits_on_Leaf in Hf|eauto].
  - destruct any as [x|].
    + destruct (add_rule r (Z.lor path (masks g)) sp x st) as [x' st'] eqn:Ex. cbn [fst].
      rewrite !splits_on_Split. intros [->|(c & Hc & Hf)]; [by left|]. right.
      apply elem_of_app in Hc as [Hc|Hc]; [exists c; split; [apply elem_of_app; by left|done]|].
      apply list_elem_of_singleton in Hc as ->. exists x.
      assert (Hx : x ∈ kids bks (Some x)) by (apply elem_of_app; right; left). split; [done|].
      apply (IH x Hx (Z.lor path (masks g)) st). by rewrite Ex.
    + simpl. rewrite !splits_on_Split. intros [->|(c & Hc & Hf)]; [by left|]. right.
      apply elem_of_app in Hc as [Hc|Hc]; [exists c; split; [apply elem_of_app; by left|done]|].
      apply list_elem_of_singleton in Hc as ->. by apply splits_on_Leaf in Hf.
Qed.

Lemma add_rules_splits path ids n st f :
  splits_on (fst (add_rules path ids n st)) f -> splits_on n f.
Proof.
  revert n st. induction ids as [|id ids IH]; intros n st; simpl; [done|].
  destruct (heap st !! id) as [r|]; [|apply IH].
  destruct (add_rule r path false n st) as [n' st'] eqn:Ea. intros Hf%IH.
  apply (add_rule_splits r path false n st). by rewrite Ea.
Qed.

(** ** Splits are useful *)

Lemma count_rule_useless R ids f mask acc :
  (forall id, id ∈ ids -> live R id) -> ~ useful R ids f ->
  foldl (count_rule R f mask) acc ids
  = (acc.1.1.1 + Z.of_nat (length ids), acc.1.1.2, acc.1.2, acc.2).
Proof.
  revert acc. induction ids as [|id ids IH]; intros [[[na nd] tmp] dist] Hl Hu; simpl.
  { by rewrite Z.add_0_r. }
  destruct (Hl id ltac:(left)) as (r & Hr & _). rewrite Hr.
  destruct (get_field (r_expr r) f) as [v|] eqn:Ev.
  { exfalso. apply Hu. exists id. split; [left|]. unfold rule_field. rewrite Hr. by exists v. }
  rewrite IH; [simpl; do 3 f_equal; lia|intros; apply Hl; by right|].
  intros (x & Hx & Hv). apply Hu. exists x. split; [by right|done].
Qed.

Lemma best_split_exp R ids path :
  let '(f, exp, dist) := best_split R ids path in
  f = Z.of_nat num_fields \/ exists mask, exp_rules_with_split R ids f mask = (exp, dist).
Proof.
  unfold best_split. match goal with |- context [foldl ?g _ _] => set (step := g) end.
  set (P := fun acc : Z * Z * Z => let '(f, exp, dist) := acc in
     f = Z.of_nat num_fields \/ exists mask, exp_rules_with_split R ids f mask = (exp, dist)).
  assert (Hfold : forall l acc, P acc -> P (foldl step acc l)); [|apply Hfold; by left].
  induction l as [|i l IH]; intros acc Hacc; simpl; [done|]. apply IH.
  destruct acc as [[bf mr] md]. subst step. cbn beta iota. destruct (Z.land path (masks i) =? 0); [|done].
  destruct (exp_rules_with_split R ids i _) as [ex nd] eqn:Ex.
  destruct ((bf =? _) || (ex <? mr)); [|done]. right. by eexists.
Qed.

Hypothesis threshold_pos : (1 <= leaf_threshold)%nat.

Lemma split_useful path copy n st f :
  node_field n = None -> (forall id, id ∈ node_rules n -> live (heap st) id) ->
  splits_on (fst (split path copy n st)) f -> useful (heap st) (node_rules n) f.
Proof using threshold_pos.
  intros Hn Hl. unfold split. pose proof (best_split_exp (heap st) (node_rules n) path) as Hb.
  destruct (best_split (heap st) (node_rules n) path) as [[fld exp] dist].
  destruct ((fld =? Z.of_nat num_fields) || _) eqn:Ec.
  { destruct n; [|done]. by intros ?%splits_on_Leaf. }
  apply orb_false_iff in Ec as [Hf%Z.eqb_neq Hthr]. destruct Hb as [?|[mask Hexp]]; [done|].
  intros Hs. assert (f = fld) as ->.
  { destruct copy; apply add_rules_splits, splits_on_Split in Hs as [?|(c & Hc & _)]; try done;
      unfold kids in Hc; rewrite concat_replicate_nil in Hc; by apply elem_of_nil in Hc. }
  destruct (decide (Exists (fun id => is_Some (rule_field (heap st) id fld)) (node_rules n))) as [Hex|Hno].
  { apply Exists_exists in Hex as (id & ? & ?). by exists id. }
  exfalso. unfold exp_rules_with_split in Hexp. rewrite count_rule_useless in Hexp;
    [|done|intros (id & Hid & Hv); apply Hno, Exists_exists; eauto].
  simpl in Hexp. injection Hexp as <- _. rewrite Z.sub_diag in Hthr.
  change (u64 0) with 0 in Hthr. lia.
Qed.

(** ** Building *)

Lemma map_st_Forall2 {S : Type} (I : S -> Prop) (Q : cnode -> cnode -> Prop) (f : cnode -> S -> cnode * S) l s :
  (forall c s, c ∈ l -> I s -> Q c (fst (f c s)) /\ I (snd (f c s))) -> I s ->
  Forall2 Q l (fst (map_st f l s)) /\ I (snd (map_st f l s)).
Proof.
  revert s. induction l as [|c l IH]; intros s Hf Hs; simpl; [done|].
  destruct (Hf c s ltac:(left) Hs) as [Hq Hi]. destruct (f c s) as [c' s1]. simpl in *.
  destruct (IH s1) as [Hl Hi2]; [intros; apply Hf; [by right|done]|done|].
  destruct (map_st f l s1). simpl in *. split; [by constructor|done].
Qed.

(** One round of [build_children]: the children's splits come from the
    children, given that this holds of the function run on each. *)
Lemma build_kids_splits copy (f : cnode -> state E A -> cnode * state E A) a v rs fld bks any st g :
  (forall c st, c ∈ kids bks any -> buildable [c] st ->
     rebuilt copy [c] st [fst (f c st)] (snd (f c st)) /\
     (splits_on (fst (f c st)) g -> splits_on c g \/ useful (heap st) (tree_rules c) g)) ->
  buildable [Split a v rs fld bks any] st ->
  let '(bks', st1) := map_st (map_st f) bks st in
  let '(any', st2) := match any with
                      | Some c => let '(c', s) := f c st1 in (Some c', s)
                      | None => (None, st1)
                      end in
  splits_on (Split a v rs fld bks' any') g ->
  splits_on (Split a v rs fld bks any) g \/
  useful (heap st) (tree_rules (Split a v rs fld bks any)) g.
Proof.
  intros Hf Hb. pose proof (buildable_kids _ _ _ _ _ _ _ Hb) as Hbk.
  assert (Hone : forall c, c ∈ kids bks any -> buildable [c] st).
  { destruct Hbk as [Hp He Hn Hl]. intros c Hc. apply elem_of_Permutation in Hc as (ks & Hks).
    assert (Hb' : buildable (c :: ks) st).
    { split; [by rewrite <- Hks|eapply ents_ok_Permutation; [|exact He]; by rewrite Hks|
              by rewrite <- Hks|intros id; rewrite <- Hks; apply Hl]. }
    by apply buildable_cons in Hb' as [? _]. }
  set (I := fun st' : state E A => same_rules (heap st') (heap st) /\ brk st <= brk st').
  set (Q := fun c c' => splits_on c' g -> splits_on c g \/ useful (heap st) (tree_rules c) g).
  destruct (map_st_Forall2 I Q f (kids bks any) st) as [HQ _].
  { intros c s Hc [Hs Hbr]. assert (Hbc : buildable [c] s) by (eapply buildable_same; eauto).
    destruct (Hf c s Hc Hbc) as [Hrb Hsp]. split.
    - intros Hg. destruct (Hsp Hg) as [?|Hu]; [by left|]. right. by eapply useful_mono.
    - destruct Hrb as [_ Hsame Hbrk _ _ _ _ _]. split; [by rewrite Hsame|lia]. }
  { split; [done|lia]. }
  unfold kids in HQ. rewrite map_st_app in HQ.
  destruct (map_st_concat f bks st) as (Hc1 & Hc2 & _).
  destruct (map_st (map_st f) bks st) as [bks' st1]. simpl in *. rewrite <- Hc1, <- Hc2 in HQ.
  assert (Hfin : forall any', Forall2 Q (concat bks ++ option_list any) (concat bks' ++ option_list any') ->
    splits_on (Split a v rs fld bks' any') g ->
    splits_on (Split a v rs fld bks any) g \/ useful (heap st) (tree_rules (Split a v rs fld bks any)) g).
  { intros any' H2. rewrite !splits_on_Split. intros [->|(c' & Hc' & Hg)]; [auto|].
    apply list_elem_of_lookup in Hc' as [i Hi]. destruct (Forall2_lookup_r _ _ _ _ _ H2 Hi) as (c & Hci & Hq).
    apply list_elem_of_lookup_2 in Hci. destruct (Hq Hg) as [?|Hu]; [left; right; by exists c|]. right.
    destruct Hu as (id & Hid & Hv). exists id. split; [|done]. rewrite tree_rules_Split. apply elem_of_app.
    right. by eapply tree_rules_kid. }
  destruct any as [c|]; simpl in *.
  - destruct (f c st1) as [c' s]. by apply (Hfin (Some c')).
  - by apply (Hfin None).
Qed.

Lemma build_splits fuel path copy n st g :
  buildable [n] st -> splits_on (fst (build fuel path copy n st)) g ->
  splits_on n g \/ useful (heap st) (tree_rules n) g.
Proof using threshold_pos.
  revert path copy n st. induction fuel as [|fuel IH]; intros path copy n st Hb; [by left|].
  assert (Hkids : forall copy' path' bks any c st,
    c ∈ kids bks any -> buildable [c] st ->
    let f := build_child (build fuel path' copy') copy' in
    rebuilt copy' [c] st [fst (f c st)] (snd (f c st)) /\
    (splits_on (fst (f c st)) g -> splits_on c g \/ useful (heap st) (tree_rules c) g)).
  { intros copy' path' bks any c st' Hc Hbc f. split; [by apply build_child_rebuilt, build_built|].
    specialize (IH path' copy' c st' Hbc). subst f. unfold build_child.
    by destruct (build fuel path' copy' c st'). }
  rewrite build_unfold. cbn zeta. destruct n as [a0 v0 rs0|a v rs f bks any].
  - destruct (Nat.leb (length rs0) leaf_threshold); [by left|].
    pose proof Hb as [_ He Hnd Hl]. rewrite forest_one in *.
    assert (Hlive : forall id, id ∈ node_rules (Leaf a0 v0 rs0) -> live (heap st) id).
    { intros id Hid. apply Hl. fold (tree_rules (Leaf a0 v0 rs0)). by rewrite tree_rules_Leaf. }
    pose proof (split_useful path copy (Leaf a0 v0 rs0) st g eq_refl Hlive) as Huse.
    rewrite (tree_rules_Leaf a0 v0 rs0).
    destruct (split_spec path copy (Leaf a0 v0 rs0) st) as [->|Hsp]; [done|done|done|by left|].
    destruct Hsp as (fld & k & m & st1 & Heq & Hfld & _ & _ & _ & Hext & _ & Hrules). rewrite Heq in *.
    destruct m as [|a v rs f bks any]; [done|].
    assert (Hbm : buildable [Split a v rs f bks any] st1)
      by (eapply (extended_leaf_buildable _ _ _ _ _ (Leaf a0 v0 rs0)); [done|exact Hb|exact Hext]).
    pose proof (build_kids_splits (copy || negb (a =? a0))
      (build_child (build fuel (Z.lor path (masks f)) (copy || negb (a =? a0))) (copy || negb (a =? a0)))
      a v rs f bks any st1 g (fun c s Hc Hs => Hkids _ _ bks any c s Hc Hs) Hbm) as Hk.
    cbn [node_addr] in *. destruct (map_st (map_st _) bks st1) as [bks' st2].
    destruct (match any with Some c => _ | None => _ end) as [any' st3]. cbn [fst] in *.
    intros Hg. right. destruct (Hk Hg) as [Hs|Hu]; [by apply Huse|].
    rewrite (ex_heap _ _ _ _ _ Hext) in Hu. cbn [heap] in Hu.
    eapply useful_mono; [done| |exact Hu]. intros id Hid. by rewrite <- Hrules.
  - pose proof (build_kids_splits (copy || negb (a =? a))
      (build_child (build fuel (Z.lor path (masks f)) (copy || negb (a =? a))) (copy || negb (a =? a)))
      a v rs f bks any st g (fun c s Hc Hs => Hkids _ _ bks any c s Hc Hs) Hb) as Hk.
    cbn [node_addr] in *. destruct (map_st (map_st _) bks st) as [bks' st2].
    destruct (match any with Some c => _ | None => _ end) as [any' st3]. exact Hk.
Qed.
End fields.

(** ** The other operations *)

Lemma put_rules_splits a rs n f : splits_on (put_rules a rs n) f -> splits_on n f.
Proof.
  induction n as [b v rs0|b v rs0 g bks any IH] using cnode_tree_ind.
  { by intros ?%splits_on_Leaf. }
  cbn [put_rules]. rewrite !splits_on_Split, kids_put. intros [->|(c & Hc & Hf)]; [by left|].
  apply list_elem_of_fmap in Hc as (c0 & -> & Hc0). right. eauto.
Qed.

Lemma clean_splits n f : splits_on (fst (clean n)) f -> splits_on n f.
Proof.
  induction n as [a v rs|a v rs g bks any IH] using cnode_tree_ind.
  { done. }
  rewrite clean_Split. cbn [fst]. rewrite !splits_on_Split. intros [->|(c & Hc & Hf)]; [by left|].
  apply elem_of_clean_kids in Hc as (c0 & Hc0 & Hcl). right. exists c0. split; [done|].
  apply IH; [done|]. by rewrite Hcl.
Qed.
