(* ===== verification/ClassifierSpec.v ===== *)
(** * The classifier refines a map from rule ids to rules

    The abstract state is the map [view c]; restructuring the tree is
    invisible in it, and a lookup returns the rules of the map that match. *)

From S2P Require Import Prelude Cnode CnodeResult CnodeFacts CnodeBuild CnodeOps Classifier CnodeSearch.

Open Scope Z_scope.

Section invariant.
Context {E A : Type} `{ExprOps E}.
Implicit Types (c : classifier E A) (R : gmap Z (rule E A)).

(** The tree is well placed, lists every rule exactly once and in priority
    order, each rule points back to the node that lists it, and ids are
    non-zero 32-bit numbers. *)
Record wf c : Prop := {
  wf_placed : placed (rules c) (root c);
  wf_ents : ents_ok (rules c) (next_addr c) (entries (root c));
  wf_nodup : NoDup (tree_rules (root c));
  wf_dom : forall id, id ∈ tree_rules (root c) <-> is_Some (rules c !! id);
  wf_id : forall id r, rules c !! id = Some r -> r_id r = id /\ 1 <= id <= UINT32_MAX;
  wf_ptrs : ptrs_ok (rules c) (entries (root c));
  wf_counter : 1 <= id_counter c <= UINT32_MAX
}.

(** What a client can see of a rule, and of the classifier. *)
Definition view_of (r : rule E A) : Z * E * A := (r_priority r, r_expr r, r_action r).
Definition view c : gmap Z (Z * E * A) := view_of <$> rules c.

Lemma view_same R R' : same_rules R R' -> view_of <$> R = view_of <$> R'.
Proof.
  intros Hs. assert (Hv : forall R, view_of <$> R = view_of <$> (with_node None <$> R)).
  { intros R0. rewrite <- map_fmap_compose. by apply map_fmap_ext. }
  by rewrite Hv, Hs, <- Hv.
Qed.

Lemma wf_buildable c : wf c -> buildable [root c] (State (rules c) (next_addr c)).
Proof.
  intros [Hp He Hn Hd Hi Hpt _]. split; cbn [heap brk]; rewrite ?forest_one; [by constructor|done|done|].
  intros id [r Hr]%Hd. exists r. by destruct (Hi _ _ Hr).
Qed.

(** ** A fresh id *)

(** The live ids at or above a counter. *)
Definition ids_from R (k : Z) : list Z := filter (fun j => k <= j) (elements (dom R)).

Lemma ids_from_lt R k : is_Some (R !! k) ->
  (length (ids_from R (k + 1)) < length (ids_from R k))%nat.
Proof.
  intros Hk. unfold ids_from.
  rewrite <- (list_filter_filter_l (fun j => k + 1 <= j) (fun j => k <= j)) by lia.
  apply length_filter_lt with (x := k); [|lia]. apply list_elem_of_filter.
  split; [lia|]. by apply elem_of_elements, elem_of_dom.
Qed.

Lemma ids_from_size R k : (length (ids_from R k) <= size R)%nat.
Proof.
  unfold ids_from. etrans; [apply length_filter|]. rewrite <- size_dom. done.
Qed.

Lemma get_id_loop_spec fuel R k (loop : bool) :
  1 <= k <= UINT32_MAX ->
  (length (ids_from R k) + (if loop then 0 else S (length (ids_from R 1))) < fuel)%nat ->
  (loop = true -> forall j, 1 <= j < k -> is_Some (R !! j)) ->
  (exists id, get_id_loop fuel R k loop = Ret id /\ R !! id = None /\ 1 <= id <= UINT32_MAX) \/
  (get_id_loop fuel R k loop = Throw ENOMEM /\ forall j, 1 <= j <= UINT32_MAX -> is_Some (R !! j)).
Proof.
  revert k loop. induction fuel as [|fuel IH]; intros k loop Hk Hf Hall; [lia|]. simpl.
  destruct (R !! k) as [r|] eqn:Er; [|left; eauto].
  assert (Hs : is_Some (R !! k)) by eauto. pose proof (ids_from_lt R k Hs).
  destruct (Z.eqb_spec k UINT32_MAX) as [->|Hne].
  - destruct loop.
    + right. split; [done|]. intros j Hj. destruct (decide (j = UINT32_MAX)) as [->|]; [done|].
      apply Hall; [done|lia].
    + apply IH; [unfold UINT32_MAX; lia|lia|]. intros _ j ?. lia.
  - assert (u32 (k + 1) = k + 1) as ->.
    { unfold wrap. apply Z.mod_small. unfold UINT32_MAX in *. lia. }
    apply IH; [lia|lia|]. intros Hl j Hj. destruct (decide (j = k)) as [->|]; [done|].
    apply Hall; [done|lia].
Qed.

Lemma get_id_spec R k :
  1 <= k <= UINT32_MAX ->
  (exists id k', get_id R k = Ret (id, k') /\ R !! id = None /\
     1 <= id <= UINT32_MAX /\ 1 <= k' <= UINT32_MAX) \/
  (get_id R k = Throw ENOMEM /\ forall j, 1 <= j <= UINT32_MAX -> is_Some (R !! j)).
Proof.
  intros Hk. unfold get_id.
  destruct (get_id_loop_spec (2 * size R + 3) R k false Hk) as [(id & -> & Hn & Hid)|[-> Hall]].
  - pose proof (ids_from_size R k). pose proof (ids_from_size R 1). lia.
  - done.
  - left. eexists id, _. split; [done|]. split_and!; try done; destruct (id =? UINT32_MAX);
      unfold UINT32_MAX in *; lia.
  - right. done.
Qed.

(** ** Adding a rule *)

Lemma placed_insert R id r n :
  id ∉ tree_rules n -> placed R n -> placed (<[id := r]> R) n.
Proof.
  intros Hid. apply placed_ext. intros x f Hx. unfold rule_field.
  rewrite lookup_insert_ne; [done|]. congruence.
Qed.

Lemma ents_ok_agree R R' b es :
  (forall id, id ∈ ent_rules es -> pri R' id = pri R id) -> ents_ok R b es -> ents_ok R' b es.
Proof.
  intros Hpri (H1 & H2 & H3). split_and!; [done..|]. rewrite Forall_forall in *.
  intros [a rs] He. eapply sorted_mono; [|by apply H3]. unfold pri_le.
  intros x y Hx Hy. rewrite !Hpri; [done|apply elem_of_ent_rules; eauto..].
Qed.

Lemma inserted_ptrs R id p b0 b1 a es es' :
  inserted R id p b0 b1 a es es' -> is_Some (R !! id) -> NoDup (id :: ent_rules es) ->
  ptrs_ok R es -> ptrs_ok (alter (with_node (Some a)) id R) es'.
Proof.
  intros (rs & rest & He' & He) [r Hr] [Hid _]%NoDup_cons Hok.
  apply (ptrs_ok_Permutation _ _ _ (symmetry He')).
  assert (Hold : forall b l x, (b, l) ∈ es -> x ∈ l ->
            exists r, alter (with_node (Some a)) id R !! x = Some r /\ r_node r = Some b).
  { intros b l x Hb Hx. rewrite lookup_alter_ne; [by eapply Hok|]. intros ->.
    apply Hid, elem_of_ent_rules. eauto. }
  intros b l x [[= -> ->]|Hin]%elem_of_cons Hx.
  - rewrite add_rule_to_list_Permutation in Hx. apply elem_of_cons in Hx as [->|Hx].
    + rewrite lookup_alter_eq, Hr. by eexists.
    + destruct He as [[He _]|(_ & -> & _)]; [|by apply elem_of_nil in Hx].
      eapply Hold; [|exact Hx]. rewrite He. left.
  - eapply Hold; [|exact Hx].
    destruct He as [[He _]|(He & _)]; rewrite He; [by right|done].
Qed.

Lemma add_rule_spec c p e a :
  wf c ->
  (exists id c', add_rule c p e a = Ret (id, c') /\ wf c' /\ view c !! id = None /\
     1 <= id <= UINT32_MAX /\ view c' = <[id := (p, e, a)]> (view c)) \/
  (add_rule c p e a = Throw ENOMEM /\ forall j, 1 <= j <= UINT32_MAX -> is_Some (view c !! j)).
Proof.
  intros Hwf. pose proof Hwf as [Hp He Hn Hd Hi Hpt Hc]. unfold add_rule.
  destruct (get_id_spec (rules c) (id_counter c) Hc) as [(id & k & -> & Hnew & Hid & Hk)|[-> Hall]];
    cbn [mbind res_bind]; [|right; split; [done|]; intros j Hj; unfold view;
                             rewrite lookup_fmap; destruct (Hall j Hj) as [r ->]; by eexists].
  left. rewrite Hnew. set (r := Rule id p e a None). set (R := <[id := r]> (rules c)).
  assert (Hfresh : id ∉ tree_rules (root c)).
  { intros Hin. apply Hd in Hin as [? ?]. congruence. }
  assert (Hlk : forall x, x ∈ tree_rules (root c) -> R !! x = rules c !! x).
  { intros x Hx. apply lookup_insert_ne. congruence. }
  assert (Hr : R !! r_id r = Some r) by apply lookup_insert_eq.
  pose proof (add_rule_added r 0 true (root c) (State R (next_addr c))) as Hadd. simpl in Hadd.
  specialize (Hadd (placed_insert _ _ _ _ Hfresh Hp) Hr).
  destruct (Cnode.add_rule r 0 true (root c) (State R (next_addr c))) as [n' st'] eqn:Ea.
  simpl in Hadd. pose proof (added_rules _ _ _ _ _ _ Hadd) as Hrules. simpl in Hrules.
  destruct Hadd as [_ _ Hpl (w & Hheap & Hins)]. simpl in *.
  assert (Hsame : same_rules (heap st') R) by (rewrite Hheap; by apply same_rules_alter).
  assert (Hok : ents_ok R (next_addr c) (entries (root c))).
  { eapply ents_ok_agree; [|exact He]. intros x Hx. unfold pri. by rewrite Hlk. }
  destruct (inserted_ents_ok _ _ _ _ _ _ _ _ Hins) as (Hb & Hok' & _);
    [unfold pri; by rewrite Hr|done|].
  eexists id, _. split; [done|]. split; [|split_and!].
  - split; simpl.
    + symmetry in Hsame. by eapply placed_same_rules.
    + symmetry in Hsame. by eapply ents_ok_same.
    + rewrite Hrules. by constructor.
    + intros x. rewrite Hrules, elem_of_cons, Hd, Hheap, lookup_alter_is_Some. subst R.
      rewrite lookup_insert_is_Some. destruct (decide (id = x)); naive_solver.
    + intros x rx. rewrite Hheap, lookup_alter. subst R. case_decide; [subst x|].
      * rewrite Hr. simpl. intros [= <-]. done.
      * rewrite lookup_insert_ne by done. apply Hi.
    + rewrite Hheap. eapply inserted_ptrs; [exact Hins|by eexists|by constructor|].
      intros b l x Hin Hx. rewrite Hlk; [by eapply Hpt|]. apply elem_of_ent_rules. eauto.
    + done.
  - unfold view. by rewrite lookup_fmap, Hnew.
  - lia.
  - lia.
  - unfold view. simpl. rewrite (view_same _ _ Hsame). subst R. by rewrite fmap_insert.
Qed.

(** ** Operations on a rule already there *)

(** Where the rule with some id lives. *)
Record located c (id a : Z) (m : cnode) (rest : list (Z * list Z)) : Prop := {
  lo_find : find_node a (root c) = Some m;
  lo_addr : node_addr m = a;
  lo_in : id ∈ node_rules m;
  lo_entries : entries (root c) ≡ₚ (a, node_rules m) :: rest;
  lo_nodup : NoDup (node_rules m ++ ent_rules rest);
  lo_put : forall rs, entries (put_rules a rs (root c)) ≡ₚ (a, rs) :: rest;
  lo_placed : forall rs, (forall x, x ∈ rs -> x ∈ node_rules m) ->
                placed (rules c) (put_rules a rs (root c))
}.

Lemma wf_located c id r :
  wf c -> rules c !! id = Some r ->
  exists a m rest, r_node r = Some a /\ located c id a m rest.
Proof.
  intros [Hp He Hn Hd Hi Hpt _] Hr.
  assert (id ∈ tree_rules (root c)) as (a & l & Hin & Hid)%elem_of_ent_rules by (apply Hd; eauto).
  destruct (Hpt _ _ _ Hin Hid) as (r' & Hr' & Hnode). simplify_eq.
  pose proof (proj1 He) as Hnd.
  destruct (find_node_total a l (root c) Hnd Hin) as (m & Hf & Ha & Hl). subst l.
  destruct (put_entry_split a [] _ _ Hnd Hin) as (rest & Hrest & _).
  exists a, m, rest. split; [done|]. split; try done.
  - unfold tree_rules in Hn. by rewrite (ent_rules_Permutation _ _ Hrest) in Hn.
  - intros rs. rewrite entries_put. destruct (put_entry_split a rs _ _ Hnd Hin) as (rest' & H1 & H2).
    rewrite H2. f_equiv. rewrite Hrest in H1. apply Permutation_cons_inv in H1. by symmetry.
  - intros rs Hsub. apply put_rules_placed; [|done]. intros m' Hm' Ha' x Hx.
    assert (Hin' : (a, node_rules m') ∈ entries (root c))
      by (apply list_elem_of_fmap; exists m'; unfold entry; by rewrite Ha').
    destruct (find_node_total a _ _ Hnd Hin') as (m'' & Hf' & _ & <-). simplify_eq. auto.
Qed.

Lemma existsb_elem (id : Z) l : id ∈ l -> existsb (Z.eqb id) l = true.
Proof. intros Hid. apply existsb_exists. exists id. rewrite <- list_elem_of_In. split; [done|lia]. Qed.

Lemma remove_id (id : Z) l : id ∈ l -> l ≡ₚ id :: remove_first (Z.eqb id) l.
Proof. intros Hid. apply remove_first_Permutation; [done|]. intros y _. lia. Qed.

Lemma remove_first_sorted R (p : Z -> bool) l :
  StronglySorted (pri_le R) l -> StronglySorted (pri_le R) (remove_first p l).
Proof.
  induction 1 as [|x l Hs IH Hall]; simpl; [constructor|]. destruct (p x); [done|].
  constructor; [done|]. rewrite Forall_forall in *. intros y Hy. apply Hall.
  clear -Hy. induction l as [|z l IH]; simpl in Hy; [done|]. destruct (p z); [by right|].
  apply elem_of_cons in Hy as [->|Hy]; [left|right; auto].
Qed.

Lemma alter_priority_field R id p x f :
  rule_field (alter (with_priority p) id R) x f = rule_field R x f.
Proof.
  unfold rule_field. rewrite lookup_alter. case_decide; [subst|done]. by destruct (R !! x).
Qed.

Lemma change_rule_priority_spec c id p :
  wf c ->
  match view c !! id with
  | None => change_rule_priority c id p = Ret (false, c)
  | Some _ => exists c', change_rule_priority c id p = Ret (true, c') /\ wf c' /\
                view c' = alter (fun '(_, e, a) => (p, e, a)) id (view c)
  end.
Proof.
  intros Hwf. unfold view at 1. rewrite lookup_fmap. unfold change_rule_priority.
  destruct (rules c !! id) as [r|] eqn:Er; simpl; [|done].
  destruct (wf_located c id r Hwf Er) as (a & m & rest & -> & [-> Ha Hin Hent Hnd Hput Hplace]).
  pose proof Hwf as [Hp He Hn Hd Hi Hpt Hc]. unfold change_rule_priority_at.
  rewrite existsb_elem by done. cbn [heap brk].
  set (R' := alter (with_priority p) id (rules c)).
  set (l := remove_first (Z.eqb id) (node_rules m)).
  pose proof (remove_id id _ Hin) as Hl. fold l in Hl.
  set (l' := add_rule_to_list R' id p l).
  assert (Hrs : node_rules (set_rules m l') = l') by (by destruct m). rewrite Hrs.
  assert (Hl' : l' ≡ₚ node_rules m) by (rewrite Hl; apply add_rule_to_list_Permutation).
  specialize (Hput l'). 
  assert (Hpri : forall x, x <> id -> pri R' x = pri (rules c) x).
  { intros x Hx. unfold pri, R'. by rewrite lookup_alter_ne. }
  rewrite Hl in Hnd. apply NoDup_cons in Hnd as [Hnid Hnd].
  apply not_elem_of_app in Hnid as [Hidl Hidrest].
  assert (Htree : tree_rules (put_rules a l' (root c)) ≡ₚ tree_rules (root c)).
  { unfold tree_rules. rewrite (ent_rules_Permutation _ _ Hput), (ent_rules_Permutation _ _ Hent).
    simpl. by rewrite Hl'. }
  eexists. split; [done|]. split.
  - split; cbn [root rules next_addr id_counter]; [| | | | | |done].
    + eapply placed_ext; [|apply Hplace; intros x; by rewrite Hl'].
      intros. apply alter_priority_field.
    + apply (ents_ok_Permutation _ _ _ _ Hent) in He. destruct He as (H1 & H2 & H3).
      apply (ents_ok_Permutation _ _ _ _ (symmetry Hput)).
      inversion H2; inversion H3; subst. split_and!; [done|by constructor|]. constructor.
      * apply add_rule_to_list_sorted.
        { unfold pri, R'. rewrite lookup_alter_eq, Er. done. }
        eapply sorted_mono; [|by apply remove_first_sorted].
        unfold pri_le. intros x y Hx Hy. rewrite !Hpri; [done|congruence..].
      * assert (Hok : ents_ok (rules c) (next_addr c) rest)
          by (split_and!; [by inversion H1|done|done]).
        eapply ents_ok_agree in Hok; [by apply Hok|]. intros x Hx. apply Hpri. congruence.
    + by rewrite Htree.
    + intros x. rewrite Htree, Hd. unfold R'. by rewrite lookup_alter_is_Some.
    + intros x rx. unfold R'. rewrite lookup_alter. case_decide; [subst x|apply Hi].
      rewrite Er. intros [= <-]. simpl. by apply Hi.
    + apply (ptrs_ok_Permutation _ _ _ (symmetry Hput)).
      apply (ptrs_ok_Permutation _ _ _ Hent) in Hpt. intros b rs x Hb Hx.
      assert (exists rs0, (b, rs0) ∈ (a, node_rules m) :: rest /\ x ∈ rs0) as (rs0 & Hb0 & Hx0).
      { apply elem_of_cons in Hb as [[= -> ->]|Hb]; [|exists rs; split; [by right|done]].
        exists (node_rules m). split; [left|by rewrite <- Hl']. }
      destruct (Hpt _ _ _ Hb0 Hx0) as (rx & Hrx & Hnode). unfold R'. rewrite lookup_alter.
      case_decide; [subst x|by eauto]. rewrite Hrx. simpl. eexists. done.
  - unfold view. cbn [rules]. subst R'. symmetry. apply map_eq. intros x.
    rewrite lookup_alter, !lookup_fmap, lookup_alter. case_decide; [subst x|done].
    rewrite Er. done.
Qed.

(** Deleting leaves every other rule exactly as it was. *)
Lemma delete_rule_spec c id :
  wf c ->
  match rules c !! id with
  | None => delete_rule c id = Ret (false, c)
  | Some _ => exists c', delete_rule c id = Ret (true, c') /\ wf c' /\
                rules c' = delete id (rules c)
  end.
Proof.
  intros Hwf. unfold delete_rule. destruct (rules c !! id) as [r|] eqn:Er; [|done].
  destruct (wf_located c id r Hwf Er) as (a & m & rest & -> & [-> Ha Hin Hent Hnd Hput Hplace]).
  pose proof Hwf as [Hp He Hn Hd Hi Hpt Hc]. unfold remove_rule_at.
  rewrite existsb_elem by done. cbn [heap brk unlink].
  assert (Hdel : delete id (alter (fun r => if decide (r_node r = Some (node_addr m))
                   then with_node None r else r) id (rules c)) = delete id (rules c)).
  { apply map_eq. intros x. rewrite !lookup_delete. case_decide; [done|]. by rewrite lookup_alter_ne. }
  rewrite Hdel. clear Hdel. set (l := remove_first (Z.eqb id) (node_rules m)).
  assert (Hrs : node_rules (set_rules m l) = l) by (by destruct m). rewrite Hrs.
  pose proof (remove_id id _ Hin) as Hl. fold l in Hl. specialize (Hput l).
  rewrite Hl in Hnd. apply NoDup_cons in Hnd as [Hnid Hnd].
  assert (Htree : tree_rules (root c) ≡ₚ id :: tree_rules (put_rules a l (root c))).
  { unfold tree_rules. rewrite (ent_rules_Permutation _ _ Hput), (ent_rules_Permutation _ _ Hent).
    simpl. by rewrite Hl. }
  assert (Hother : forall x, x ∈ tree_rules (put_rules a l (root c)) -> x <> id).
  { intros x Hx ->. rewrite Htree in Hn. by apply NoDup_cons in Hn as [? _]. }
  eexists. split; [done|]. split; [|done].
  split; cbn [root rules next_addr id_counter]; [| | | | | |done].
  - eapply placed_ext; [|apply Hplace; intros x Hx; rewrite Hl; by right].
    intros x f Hx. unfold rule_field. rewrite lookup_delete_ne; [done|]. intros ->. by apply (Hother x).
  - eapply ents_ok_agree with (R := rules c).
    { intros x Hx. unfold pri. rewrite lookup_delete_ne; [done|]. intros ->. by apply (Hother x). }
    apply (ents_ok_Permutation _ _ _ _ Hent) in He. destruct He as (H1 & H2 & H3).
    apply (ents_ok_Permutation _ _ _ _ (symmetry Hput)).
    inversion H2; inversion H3; subst. split_and!; [done|by constructor|].
    constructor; [by apply remove_first_sorted|done].
  - rewrite Htree in Hn. by apply NoDup_cons in Hn as [_ ?].
  - intros x. rewrite lookup_delete_is_Some, <- Hd, Htree, elem_of_cons. naive_solver.
  - intros x rx [_ Hx]%lookup_delete_Some. by apply Hi.
  - apply (ptrs_ok_Permutation _ _ _ Hent) in Hpt. intros b rs x Hb Hx.
    assert (x <> id) by (apply Hother, elem_of_ent_rules; eauto).
    rewrite lookup_delete_ne by done. rewrite Hput in Hb.
    apply elem_of_cons in Hb as [[= -> ->]|Hb]; [|by eapply Hpt; [right|]].
    eapply Hpt; [left|]. rewrite Hl. by right.
Qed.

(** ** Restructuring the tree *)

Lemma rebuilt_wf c n' st' :
  wf c -> rebuilt false [root c] (State (rules c) (next_addr c)) [n'] st' ->
  let c' := Classifier n' (heap st') (id_counter c) (brk st') in
  wf c' /\ view c' = view c.
Proof.
  intros Hwf Hrb. pose proof Hwf as [Hp He Hn Hd Hi Hpt Hc].
  destruct Hrb as [Hsh Hsame Hbrk Hents _ _ _ Hptrs]. rewrite !forest_one in *. cbn [heap brk] in *.
  inversion Hsh as [|? ? ? ? (_ & Hrules & Hpl) _]; subst.
  split; [|by apply view_same]. split; cbn [root rules next_addr id_counter]; try done.
  - by rewrite Hrules.
  - intros x. rewrite Hrules, Hd. split; intros [r Hr].
    + symmetry in Hsame. destruct (same_rules_lookup _ _ _ _ Hsame Hr) as (? & ? & _). eauto.
    + destruct (same_rules_lookup _ _ _ _ Hsame Hr) as (? & ? & _). eauto.
  - intros x r Hr. destruct (same_rules_lookup _ _ _ _ Hsame Hr) as (r' & Hr' & Heq).
    apply (f_equal r_id) in Heq. simpl in Heq. rewrite <- Heq. by apply Hi.
  - by apply Hptrs.
Qed.

Lemma built_wf c n' st' :
  wf c -> built false (root c) (State (rules c) (next_addr c)) n' st' ->
  let st'' := if node_addr n' =? node_addr (root c) then st' else destroy (root c) st' in
  let c' := Classifier n' (heap st'') (id_counter c) (brk st'') in
  wf c' /\ view c' = view c.
Proof.
  intros Hwf Hb. pose proof (wf_buildable c Hwf) as Hbd. simpl.
  assert ((if node_addr n' =? node_addr (root c) then st' else destroy (root c) st') = st') as ->.
  { destruct (Z.eqb_spec (node_addr n') (node_addr (root c))); [done|].
    by eapply built_destroy. }
  by apply rebuilt_wf, Hb.
Qed.

Lemma build_spec c : wf c -> wf (build c) /\ view (build c) = view c.
Proof.
  intros Hwf. pose proof (build_built (build_fuel (root c)) 0 false (root c) _ (wf_buildable c Hwf)) as Hb.
  unfold build. destruct (Cnode.build _ _ _ _ _) as [n' st']. by apply built_wf.
Qed.

Lemma unbuild_spec c : wf c -> wf (unbuild c) /\ view (unbuild c) = view c.
Proof.
  intros Hwf. pose proof (unbuild_built (root c) _ (wf_buildable c Hwf)) as Hb.
  unfold unbuild. destruct (Cnode.unbuild _ _) as [n' st']. by apply built_wf.
Qed.

Lemma clean_spec c : wf c -> wf (clean c) /\ view (clean c) = view c.
Proof.
  intros Hwf. pose proof Hwf as [Hp He Hn Hd Hi Hpt Hc]. split; [|done].
  destruct (clean_entries (root c)) as (dead & Hperm & _).
  split; cbn [clean root rules next_addr id_counter]; try done.
  - by apply clean_placed.
  - apply (ents_ok_Permutation _ _ _ _ Hperm) in He. by apply ents_ok_app in He as [? _].
  - by rewrite clean_rules.
  - intros x. by rewrite clean_rules.
  - intros b rs x Hb. apply (ptrs_ok_Permutation _ _ _ Hperm) in Hpt. apply Hpt.
    apply elem_of_app. by left.
Qed.

(** ** Empty classifiers *)

Lemma pow2_land n : 0 < n -> Z.land n (n - 1) = 0 -> exists k : nat, n = 2 ^ Z.of_nat k.
Proof.
  intros Hn Hl. exists (Z.to_nat (Z.log2 n)). rewrite Z2Nat.id by apply Z.log2_nonneg.
  destruct (Z.log2_spec n Hn) as [H1 H2].
  destruct (decide (n = 2 ^ Z.log2 n)) as [|Hne]; [done|].
  assert (Z.log2 (n - 1) = Z.log2 n) as Hlog by (apply Z.log2_unique; [apply Z.log2_nonneg|lia]).
  assert (Z.testbit (Z.land n (n - 1)) (Z.log2 n) = true) as Hb.
  { rewrite Z.land_spec, Z.bit_log2 by done. rewrite <- Hlog, Z.bit_log2; [done|].
    pose proof (Z.pow_pos_nonneg 2 (Z.log2 n) ltac:(lia) (Z.log2_nonneg n)). lia. }
  rewrite Hl, Z.bits_0 in Hb. done.
Qed.

Lemma empty_wf n b k :
  tree_rules n = [] -> placed (E := E) (A := A) ∅ n -> ents_ok (E := E) (A := A) ∅ b (entries n) ->
  1 <= k <= UINT32_MAX -> wf (Classifier n ∅ k b).
Proof.
  intros Hr Hp He Hk. split; cbn [root rules next_addr id_counter]; rewrite ?Hr; try done.
  - constructor.
  - intros id. rewrite lookup_empty. split; [by intros ?%elem_of_nil|by intros []].
  - intros a rs id Hin Hid. exfalso. assert (id ∈ tree_rules n) as H0 by (apply elem_of_ent_rules; eauto).
    rewrite Hr in H0. by apply elem_of_nil in H0.
Qed.

Lemma empty_leaf_wf a : wf (Classifier (E := E) (A := A) (Leaf a 0 []) ∅ 1 (a + 1)).
Proof.
  apply empty_wf; [done|constructor| |unfold UINT32_MAX; lia].
  split_and!; [apply NoDup_singleton|repeat constructor; simpl; lia|repeat constructor].
Qed.

Lemma empty_split_wf a f n_buckets :
  0 < n_buckets -> Z.land n_buckets (n_buckets - 1) = 0 ->
  wf (Classifier (E := E) (A := A)
        (Split a 0 [] f (replicate (Z.to_nat n_buckets) []) None) ∅ 1 (a + 1)).
Proof.
  intros Hn Hl. destruct (pow2_land _ Hn Hl) as [k Hk].
  pose proof (empty_split_entries a 0 f (Z.to_nat n_buckets)) as Hent. apply empty_wf.
  - unfold tree_rules. by rewrite Hent.
  - constructor.
    + exists k. rewrite length_replicate, Hk. rewrite <- (Nat2Z.id (2 ^ k)), Nat2Z.inj_pow. done.
    + intros i ch c Hi Hc. apply lookup_replicate in Hi as [-> _]. by apply elem_of_nil in Hc.
    + intros ch [-> _]%elem_of_replicate. constructor.
    + done.
  - rewrite Hent.
    split_and!; [apply NoDup_singleton|repeat constructor; simpl; lia|repeat constructor].
  - unfold UINT32_MAX; lia.
Qed.
End invariant.
