(* ===== verification/ClassifierHistory.v ===== *)
(** * Classifying data, deleting by data, and histories of operations *)

From S2P Require Import Prelude Cnode CnodeResult CnodeFacts CnodeBuild CnodeOps Classifier CnodeSearch ClassifierSpec.

Open Scope Z_scope.

Section lookup.
Context {E A D : Type} `{DataLaws E D}.
Implicit Types (c : classifier E A) (R : gmap Z (rule E A)) (d : D) (tv : result).

(** No [assert] fails when [d] is looked up: the fields the tree is split on
    can be read off [d], and every expression can be matched against it. *)
Definition supports c d : Prop :=
  Forall (readable_node d) (nodes (root c)) /\
  (forall id r, rules c !! id = Some r -> exists b, data_matches id (r_expr r) d = Ret b).

(** The rules that match, by the abstract map. *)
Definition hits (v : gmap Z (Z * E * A)) d (id : Z) : Prop :=
  exists p e a, v !! id = Some (p, e, a) /\ data_matches id e d = Ret true.

Lemma hits_matching c d id : hits (view c) d id <-> matching (rules c) d id = true.
Proof.
  unfold hits, view, matching. rewrite lookup_fmap. destruct (rules c !! id) as [r|]; simpl.
  - split.
    + intros (p & e & a & [= <- <- <-] & ->). done.
    + destruct (data_matches id (r_expr r) d) as [[]| | |] eqn:Em; try done. eauto 6.
  - split; [by intros (? & ? & ? & ? & _)|done].
Qed.

Lemma supports_defined c d id : wf c -> supports c d -> id ∈ tree_rules (root c) -> defined (rules c) d id.
Proof.
  intros Hwf [_ Hd] Hid. apply (wf_dom _ Hwf) in Hid as [r Hr]. destruct (Hd _ _ Hr) as [b Hb].
  by exists r, b.
Qed.

(** The cursors [get_rules] leaves behind. *)
Lemma get_rules_spec c d :
  wf c -> supports c d ->
  exists tv, get_rules c d [] = Ret tv /\ Forall (cursor_ok (rules c) d) tv /\
    NoDup (cells tv) /\ (forall id, id ∈ cells tv -> is_Some (rules c !! id)) /\
    forall id, id ∈ remaining (rules c) d tv <-> matching (rules c) d id = true.
Proof.
  intros Hwf Hsup. pose proof Hwf as [Hp He Hn Hd _ _ _].
  assert (Hnode : forall m id, m ∈ nodes (root c) -> id ∈ node_rules m -> id ∈ tree_rules (root c)).
  { intros m id Hm Hid. apply elem_of_ent_rules. exists (node_addr m), (node_rules m).
    split; [|done]. apply list_elem_of_fmap. by exists m. }
  destruct (get_rules_loop_spec (length (nodes (root c))) (rules c) d [root c] [])
    as (tv & seen & Heq & Hok & Hseen & Hcells & Hfound).
  - simpl. by rewrite app_nil_r.
  - simpl. rewrite app_nil_r, Forall_forall. intros m Hm. split; [by eapply nodes_placed|].
    destruct Hsup as [Hr _]. rewrite Forall_forall in Hr. auto.
  - simpl. rewrite app_nil_r, Forall_forall. intros m Hm. destruct He as (_ & _ & Hs). split.
    + rewrite Forall_forall in Hs. apply (Hs (entry m)). by apply list_elem_of_fmap_2.
    + rewrite Forall_forall. intros. eapply supports_defined; eauto.
  - constructor.
  - assert (Hsub : cells tv ⊆+ tree_rules (root c)).
    { rewrite Hcells. simpl in Hseen |- *. rewrite app_nil_r in Hseen.
      apply submseteq_Permutation in Hseen as [k Hk]. unfold tree_rules, entries.
      rewrite Hk, fmap_app, ent_rules_app. by apply submseteq_inserts_r. }
    exists tv. split; [done|]. split; [done|]. split; [by eapply submseteq_NoDup|]. split.
    + intros id Hid. apply Hd. by eapply elem_of_submseteq.
    + intros id. rewrite list_elem_of_filter. split; [by intros [? _]|]. intros Hm.
      split; [done|]. rewrite Hcells. simpl. apply Hfound; [|done]. rewrite forest_one. apply Hd.
      unfold matching in Hm. destruct (rules c !! id); [by eexists|done].
Qed.

Lemma NoDup_incl_size R (l : list Z) :
  NoDup l -> (forall id, id ∈ l -> is_Some (R !! id)) -> (length l <= size R)%nat.
Proof.
  intros Hnd Hin. rewrite <- size_dom, <- (size_list_to_set (C := gset Z) l) by done.
  apply subseteq_size. intros id Hid. apply elem_of_dom, Hin. by apply elem_of_list_to_set in Hid.
Qed.

Lemma remaining_size R d tv :
  NoDup (cells tv) -> (forall id, id ∈ cells tv -> is_Some (R !! id)) ->
  (length (remaining R d tv) <= size R)%nat.
Proof.
  intros Hnd Hin. etrans; [apply length_filter|]. by apply NoDup_incl_size.
Qed.

Lemma classify_spec c d :
  wf c -> supports c d ->
  exists ids, classify c d = Ret ids /\ NoDup ids /\
    StronglySorted (pri_le (rules c)) ids /\ (forall id, id ∈ ids <-> hits (view c) d id).
Proof.
  intros Hwf Hsup. destruct (get_rules_spec c d Hwf Hsup) as (tv & Htv & Hok & Hnd & Hin & Hiff).
  destruct (drain_spec (S (size (rules c))) (rules c) d tv Hok) as (ids & Hids & Hperm & Hsort).
  { pose proof (remaining_size _ d _ Hnd Hin). lia. }
  exists ids. unfold classify. rewrite Htv. split; [done|]. split.
  { rewrite Hperm. by apply NoDup_filter. }
  split; [done|]. intros id. by rewrite Hperm, Hiff, hits_matching.
Qed.

(** ** Deleting while iterating *)

Lemma cursor_ok_agree R R' d (cu : current_rule) :
  (forall x, x ∈ cur_rules cu -> R' !! x = R !! x) -> cursor_ok R d cu -> cursor_ok R' d cu.
Proof.
  intros Hag (? & K2 & K3 & K4). split_and!; [done| | |].
  - eapply sorted_mono; [|exact K2]. intros x y Hx Hy. unfold pri_le, pri. by rewrite !Hag.
  - rewrite Forall_forall in *. intros x Hx. destruct (K3 x Hx) as (r & b & Hr & Hb).
    exists r, b. by rewrite Hag.
  - intros Hm id rest Heq. unfold matching. rewrite Hag by (rewrite Heq; left). by eapply K4.
Qed.

Lemma remaining_agree R R' d tv :
  (forall x, x ∈ cells tv -> R' !! x = R !! x) -> remaining R' d tv = remaining R d tv.
Proof.
  induction (cells tv) as [|x l IH]; intros Hag; [done|]. rewrite !filter_cons, IH by (intros; apply Hag; by right).
  unfold matching. by rewrite Hag by left.
Qed.

Lemma delete_loop_spec fuel c d tv n :
  wf c -> Forall (cursor_ok (rules c) d) tv -> NoDup (cells tv) ->
  (forall id, id ∈ cells tv -> is_Some (rules c !! id)) ->
  (length (remaining (rules c) d tv) < fuel)%nat -> u32 n = n ->
  exists c', delete_loop fuel d c tv n
               = Ret (u32 (n + Z.of_nat (length (remaining (rules c) d tv))), c') /\
    wf c' /\ forall id, rules c' !! id =
               if decide (id ∈ remaining (rules c) d tv) then None else rules c !! id.
Proof.
  revert c tv n. induction fuel as [|fuel IH]; intros c tv n Hwf Hok Hnd Hin Hf Hn; [lia|].
  cbn [delete_loop]. destruct (next_spec (rules c) d tv Hok) as (o & tv' & -> & Hok' & Hsub & Ho).
  cbn [mbind res_bind]. destruct o as [id|].
  - destruct Ho as (Hperm & Hm & _).
    assert (Hid : id ∈ cells tv).
    { assert (id ∈ remaining (rules c) d tv) as Hr by (rewrite Hperm; left).
      by apply list_elem_of_filter in Hr as [_ ?]. }
    assert (Hnid : id ∉ cells tv').
    { pose proof (NoDup_filter (fun id => matching (rules c) d id = true) _ Hnd) as Hnf.
      rewrite Hperm in Hnf. apply NoDup_cons in Hnf as [Hx _]. intros Hc. apply Hx.
      by apply list_elem_of_filter. }
    pose proof (delete_rule_spec c id Hwf) as Hdel. destruct (Hin id Hid) as [r Hr]. rewrite Hr in Hdel.
    destruct Hdel as (c1 & -> & Hwf1 & Hrules1). cbn [mbind res_bind].
    assert (Hag : forall x, x ∈ cells tv' -> rules c1 !! x = rules c !! x).
    { intros x Hx. rewrite Hrules1, lookup_delete_ne; [done|]. congruence. }
    pose proof (remaining_agree _ _ d tv' Hag) as Hrem.
    pose proof (Permutation_length Hperm) as Hlen. simpl in Hlen.
    destruct (IH c1 tv' (u32 (n + 1))) as (c' & -> & Hwf' & Hl').
    + done.
    + rewrite Forall_forall in *. intros cu Hcu. eapply cursor_ok_agree; [|by apply Hok'].
      intros x Hx. apply Hag. apply elem_of_concat. exists (cur_rules cu).
      split; [by apply list_elem_of_fmap_2|done].
    + by eapply submseteq_NoDup.
    + intros x Hx. rewrite Hag by done. apply Hin. by eapply elem_of_submseteq.
    + rewrite Hrem. lia.
    + unfold wrap. by rewrite Z.mod_mod.
    + exists c'. rewrite Hrem in *. split.
      * f_equal. f_equal. unfold wrap. rewrite Z.add_mod_idemp_l by done. f_equal. lia.
      * split; [done|]. intros x. rewrite Hl', Hrules1, lookup_delete.
        assert (x ∈ remaining (rules c) d tv <-> x = id \/ x ∈ remaining (rules c) d tv') as Hx
          by (rewrite Hperm; apply elem_of_cons).
        repeat case_decide; try done; naive_solver.
  - exists c. rewrite Ho. cbn [length Z.of_nat]. rewrite Z.add_0_r, Hn. split; [done|]. split; [done|].
    intros id. rewrite decide_False; [done|apply not_elem_of_nil].
Qed.

Lemma delete_rules_spec c d :
  wf c -> supports c d ->
  exists c' ids, delete_rules c d = Ret (u32 (Z.of_nat (length ids)), c') /\ wf c' /\
    NoDup ids /\ (forall id, id ∈ ids <-> hits (view c) d id) /\
    forall id, view c' !! id = if decide (id ∈ ids) then None else view c !! id.
Proof.
  intros Hwf Hsup. destruct (get_rules_spec c d Hwf Hsup) as (tv & Htv & Hok & Hnd & Hin & Hiff).
  destruct (delete_loop_spec (S (size (rules c))) c d tv 0 Hwf Hok Hnd Hin) as (c' & Heq & Hwf' & Hl).
  - pose proof (remaining_size _ d _ Hnd Hin). lia.
  - done.
  - exists c', (remaining (rules c) d tv). unfold delete_rules. rewrite Htv.
    cbn [mbind res_bind]. rewrite Heq. split; [done|]. split; [done|].
    split; [by apply NoDup_filter|]. split.
    + intros id. by rewrite Hiff, hits_matching.
    + intros id. unfold view. rewrite !lookup_fmap, Hl. by case_decide.
Qed.
End lookup.

(** ** Histories of classifier operations

    Any sequence of the operations that change a classifier, and the
    abstract machine it refines: a map from ids to (priority, expression,
    action), in which building, unbuilding and cleaning the tree do nothing. *)

Section history.
Context {E A : Type} `{ExprOps E}.
Implicit Types (c : classifier E A) (v : gmap Z (Z * E * A)).

Inductive op : Type :=
| Add (priority : Z) (expr : E) (action : A)
| Change (id priority : Z)
| Delete (id : Z)
| Build
| Unbuild
| Clean
| Reset.

(** What an operation returns: a rule id, whether the rule was there, or
    nothing. *)
Inductive out : Type :=
| Id (id : Z)
| Found (b : bool)
| Done.

Definition step (o : op) c : res (out * classifier E A) :=
  match o with
  | Add p e a => '(id, c') ← add_rule c p e a; Ret (Id id, c')
  | Change id p => '(b, c') ← change_rule_priority c id p; Ret (Found b, c')
  | Delete id => '(b, c') ← delete_rule c id; Ret (Found b, c')
  | Build => Ret (Done, build c)
  | Unbuild => Ret (Done, unbuild c)
  | Clean => Ret (Done, clean c)
  | Reset => Ret (Done, reset c)
  end.

Fixpoint run (ops : list op) c : res (list out * classifier E A) :=
  match ops with
  | [] => Ret ([], c)
  | o :: ops' => '(r, c1) ← step o c; '(rs, c2) ← run ops' c1; Ret (r :: rs, c2)
  end.

(** The abstract machine. *)
Inductive abs_step : op -> gmap Z (Z * E * A) -> out -> gmap Z (Z * E * A) -> Prop :=
| abs_add p e a v id :
    v !! id = None -> 1 <= id <= UINT32_MAX -> abs_step (Add p e a) v (Id id) (<[id := (p, e, a)]> v)
| abs_change id p v :
    abs_step (Change id p) v (Found (bool_decide (is_Some (v !! id))))
      (alter (fun '(_, e, a) => (p, e, a)) id v)
| abs_delete id v :
    abs_step (Delete id) v (Found (bool_decide (is_Some (v !! id)))) (delete id v)
| abs_build v : abs_step Build v Done v
| abs_unbuild v : abs_step Unbuild v Done v
| abs_clean v : abs_step Clean v Done v
| abs_reset v : abs_step Reset v Done ∅.

Inductive abs_run : list op -> gmap Z (Z * E * A) -> list out -> gmap Z (Z * E * A) -> Prop :=
| abs_nil v : abs_run [] v [] v
| abs_cons o ops v r v1 rs v2 :
    abs_step o v r v1 -> abs_run ops v1 rs v2 -> abs_run (o :: ops) v (r :: rs) v2.

(** ** One step *)

Lemma map_alter_id {B} (f : B -> B) (m : gmap Z B) i : m !! i = None -> alter f i m = m.
Proof.
  intros Hi. apply map_eq. intros j. rewrite lookup_alter. case_decide; [subst|done]. by rewrite Hi.
Qed.

Lemma full_size v : (forall j, 1 <= j <= UINT32_MAX -> is_Some (v !! j)) -> UINT32_MAX <= Z.of_nat (size v).
Proof.
  intros Hall. assert (Hl : (length (seqZ 1 UINT32_MAX) <= size v)%nat).
  { rewrite <- size_dom, <- (size_list_to_set (C := gset Z) (seqZ 1 UINT32_MAX)) by apply NoDup_seqZ.
    apply subseteq_size. intros id Hid. apply elem_of_list_to_set, elem_of_seqZ in Hid.
    apply elem_of_dom, Hall. lia. }
  rewrite length_seqZ in Hl. apply Z2Nat.inj_le in Hl || apply inj_le in Hl.
  rewrite Z2Nat.id in Hl by (unfold UINT32_MAX; lia). done.
Qed.

Lemma view_lookup c id : is_Some (view c !! id) <-> is_Some (rules c !! id).
Proof. unfold view. by rewrite lookup_fmap, fmap_is_Some. Qed.

Lemma step_refines o c :
  wf c -> Z.of_nat (size (view c)) < UINT32_MAX ->
  exists r c', step o c = Ret (r, c') /\ wf c' /\ abs_step o (view c) r (view c') /\
    (size (view c') <= S (size (view c)))%nat.
Proof.
  intros Hwf Hsz. destruct o as [p e a|id p|id| | | |]; simpl.
  - destruct (add_rule_spec c p e a Hwf) as [(id & c' & -> & Hwf' & Hn & Hid & Hv)|[_ Hfull]].
    + exists (Id id), c'. split; [done|]. split; [done|]. rewrite Hv. split; [by constructor|].
      rewrite map_size_insert_None by done. lia.
    + apply full_size in Hfull. lia.
  - pose proof (change_rule_priority_spec c id p Hwf) as Hch. destruct (view c !! id) as [x|] eqn:Ex.
    + destruct Hch as (c' & -> & Hwf' & Hv). eexists _, c'. split; [done|]. split; [done|]. rewrite Hv.
      split; [|rewrite <- !size_dom, dom_alter_L; lia].
      replace true with (bool_decide (is_Some (view c !! id))) by (rewrite bool_decide_true; [done|by eexists]).
      constructor.
    + rewrite Hch. eexists _, c. split; [done|]. split; [done|]. split; [|lia].
      pose proof (abs_change id p (view c)) as Ha.
      rewrite bool_decide_false in Ha by (rewrite Ex; by intros []).
      rewrite map_alter_id in Ha by done. done.
  - pose proof (delete_rule_spec c id Hwf) as Hd. destruct (rules c !! id) as [r|] eqn:Er.
    + destruct Hd as (c' & -> & Hwf' & Hr). assert (Hv : view c' = delete id (view c)).
      { unfold view. by rewrite Hr, fmap_delete. }
      eexists _, c'. split; [done|]. split; [done|]. rewrite Hv.
      split; [|rewrite <- !size_dom, dom_delete_L; apply Nat.le_le_succ_r, subseteq_size; set_solver].
      replace true with (bool_decide (is_Some (view c !! id)))
        by (rewrite bool_decide_true; [done|]; apply view_lookup; by eexists).
      constructor.
    + rewrite Hd. eexists _, c. split; [done|]. split; [done|]. split; [|lia].
      assert (Hno : view c !! id = None) by (unfold view; by rewrite lookup_fmap, Er).
      pose proof (abs_delete id (view c)) as Ha.
      rewrite bool_decide_false in Ha by (rewrite Hno; by intros []).
      rewrite delete_id in Ha by done. done.
  - destruct (build_spec c Hwf) as [Hwf' Hv]. eexists _, _. split; [done|]. split; [done|].
    rewrite Hv. split; [constructor|lia].
  - destruct (unbuild_spec c Hwf) as [Hwf' Hv]. eexists _, _. split; [done|]. split; [done|].
    rewrite Hv. split; [constructor|lia].
  - destruct (clean_spec c Hwf) as [Hwf' Hv]. eexists _, _. split; [done|]. split; [done|].
    rewrite Hv. split; [constructor|lia].
  - eexists _, _. split; [done|]. split; [apply empty_leaf_wf|].
    assert (Hv : view (reset c) = ∅) by apply fmap_empty. rewrite Hv.
    split; [constructor|]. rewrite map_size_empty. lia.
Qed.

Lemma run_refines ops c :
  wf c -> Z.of_nat (size (view c) + length ops) <= UINT32_MAX ->
  exists rs c', run ops c = Ret (rs, c') /\ wf c' /\ abs_run ops (view c) rs (view c').
Proof.
  revert c. induction ops as [|o ops IH]; intros c Hwf Hsz; simpl.
  { eexists _, c. split; [done|]. split; [done|constructor]. }
  simpl in Hsz. destruct (step_refines o c Hwf) as (r & c1 & -> & Hwf1 & Ha & Hs1); [lia|].
  cbn [mbind res_bind]. destruct (IH c1 Hwf1) as (rs & c2 & -> & Hwf2 & Hrun); [lia|].
  eexists _, c2. split; [done|]. split; [done|]. by econstructor.
Qed.

Lemma init_wf_view : wf (init (E := E) (A := A)) /\ view (init (E := E) (A := A)) = ∅.
Proof. split; [apply (empty_leaf_wf 1)|apply fmap_empty]. Qed.
End history.
