(* ===== verification/Bytes.v ===== *)
(** * Bytes, words in memory and byte order (src/include/xtoxll.h)

    The host is little-endian: a [w]-bit integer [x] is stored in memory as
    [to_le (w/8) x] and read back with [of_le].  [htons], [htonl] and their
    inverses exchange the bytes; [htonll] and [ntohll] are the functions of
    xtoxll.h. *)

From S2P Require Import Prelude.

Open Scope Z_scope.

(** Memory holds lists of numbers below 256. *)
Abbreviation bytes := (list Z).
Abbreviation is_bytes := (Forall is_u8).

Fixpoint of_le (l : bytes) : Z :=
  match l with [] => 0 | b :: l' => b + 256 * of_le l' end.

Fixpoint to_le (n : nat) (x : Z) : bytes :=
  match n with O => [] | S n' => x `mod` 256 :: to_le n' (x `div` 256) end.

(** The bytes of a number in network order. *)
Definition to_be (n : nat) (x : Z) : bytes := rev (to_le n x).
Definition of_be (l : bytes) : Z := of_le (rev l).

Definition htons (x : Z) : Z := of_le (rev (to_le 2 x)).
Definition htonl (x : Z) : Z := of_le (rev (to_le 4 x)).
Definition ntohs : Z -> Z := htons.
Definition ntohl : Z -> Z := htonl.

(** [htonll] *)
Definition htonll (n : Z) : Z :=
  if htonl 1 =? 1 then n
  else Z.lor (u64 (Z.shiftl (htonl (u32 n)) 32)) (htonl (u32 (Z.shiftr n 32))).

(** [ntohll] *)
Definition ntohll (n : Z) : Z :=
  if htonl 1 =? 1 then n
  else Z.lor (u64 (Z.shiftl (ntohl (u32 n)) 32)) (ntohl (u32 (Z.shiftr n 32))).

(** ** Reading and writing memory *)

(** [memcpy(mem + off, bs, len)]; the caller keeps it within bounds. *)
Definition store (off : nat) (bs mem : bytes) : bytes :=
  take off mem ++ bs ++ drop (off + length bs) mem.

Definition load (off len : nat) (mem : bytes) : bytes := take len (drop off mem).

Definition load_word (off len : nat) (mem : bytes) : Z := of_le (load off len mem).

(** ** Facts *)

Lemma wrap_small w x : 0 <= x < 2 ^ w -> wrap w x = x.
Proof. apply Z.mod_small. Qed.

Lemma wrap_range w x : 0 <= w -> in_width w (wrap w x).
Proof. intros. apply Z.mod_pos_bound. apply Z.pow_pos_nonneg; lia. Qed.

Lemma length_to_le n x : length (to_le n x) = n.
Proof. revert x. induction n; intros; simpl; auto. Qed.

Lemma length_to_be n x : length (to_be n x) = n.
Proof. unfold to_be. by rewrite length_rev, length_to_le. Qed.

Lemma to_le_bytes n x : is_bytes (to_le n x).
Proof.
  revert x. induction n as [|n IH]; intros x; simpl; constructor; [|apply IH].
  apply Z.mod_pos_bound. lia.
Qed.

Lemma to_be_bytes n x : is_bytes (to_be n x).
Proof. unfold to_be. rewrite <- Permutation_rev. apply to_le_bytes. Qed.

Lemma of_le_range l : is_bytes l -> 0 <= of_le l < 2 ^ (8 * Z.of_nat (length l)).
Proof.
  induction 1 as [|b l Hb _ IH]; simpl; [lia|]. unfold in_width in Hb.
  replace (8 * Z.of_nat (S (length l))) with (8 + 8 * Z.of_nat (length l)) by lia.
  rewrite Z.pow_add_r by lia. change (2 ^ 8) with 256 in *. lia.
Qed.

Lemma of_le_to_le n x : of_le (to_le n x) = x `mod` 2 ^ (8 * Z.of_nat n).
Proof.
  revert x. induction n as [|n IH]; intros x; simpl; [by rewrite Z.mod_1_r|].
  rewrite IH. replace (8 * Z.of_nat (S n)) with (8 + 8 * Z.of_nat n) by lia.
  rewrite Z.pow_add_r by lia. change (2 ^ 8) with 256.
  rewrite Z.rem_mul_r; [done|lia|]. apply Z.pow_pos_nonneg; lia.
Qed.

Lemma of_le_to_le_id n x : 0 <= x < 2 ^ (8 * Z.of_nat n) -> of_le (to_le n x) = x.
Proof. intros. rewrite of_le_to_le. by apply Z.mod_small. Qed.

Lemma to_le_of_le l : is_bytes l -> to_le (length l) (of_le l) = l.
Proof.
  induction 1 as [|b l Hb _ IH]; simpl; [done|]. unfold in_width in Hb. change (2 ^ 8) with 256 in Hb.
  rewrite (Z.mul_comm 256), Z.mod_add, Z.mod_small by lia. f_equal.
  rewrite Z.div_add, Z.div_small by lia. done.
Qed.

Lemma to_le_of_le_n (n : nat) l : is_bytes l -> length l = n -> to_le n (of_le l) = l.
Proof. intros ? <-. by apply to_le_of_le. Qed.

Lemma of_be_to_be n x : 0 <= x < 2 ^ (8 * Z.of_nat n) -> of_be (to_be n x) = x.
Proof. intros. unfold of_be, to_be. rewrite rev_involutive. by apply of_le_to_le_id. Qed.

Lemma to_be_of_be (n : nat) l : is_bytes l -> length l = n -> to_be n (of_be l) = l.
Proof.
  intros Hl Hn. unfold of_be, to_be. rewrite to_le_of_le_n, rev_involutive; [done| |].
  - by rewrite <- Permutation_rev.
  - by rewrite length_rev.
Qed.

Lemma is_bytes_rev l : is_bytes l -> is_bytes (rev l).
Proof. by rewrite <- Permutation_rev. Qed.

Lemma to_le_app n m x : to_le (n + m) x = to_le n x ++ to_le m (x `div` 2 ^ (8 * Z.of_nat n)).
Proof.
  revert x. induction n as [|n IH]; intros x; simpl; [by rewrite Z.div_1_r|].
  rewrite IH. do 2 f_equal. f_equal.
  replace (8 * Z.of_nat (S n)) with (8 + 8 * Z.of_nat n) by lia.
  rewrite Z.pow_add_r by lia. change (2 ^ 8) with 256. rewrite Z.div_div; [done|lia|].
  apply Z.pow_pos_nonneg; lia.
Qed.

Lemma of_le_app l1 l2 : of_le (l1 ++ l2) = of_le l1 + 2 ^ (8 * Z.of_nat (length l1)) * of_le l2.
Proof.
  induction l1 as [|b l1 IH]; simpl; [lia|]. rewrite IH.
  replace (8 * Z.of_nat (S (length l1))) with (8 + 8 * Z.of_nat (length l1)) by lia.
  rewrite Z.pow_add_r by lia. change (2 ^ 8) with 256. lia.
Qed.

Lemma to_le_mod n x : to_le n (x `mod` 2 ^ (8 * Z.of_nat n)) = to_le n x.
Proof.
  rewrite <- of_le_to_le. apply to_le_of_le_n; [apply to_le_bytes|apply length_to_le].
Qed.

(** *** Byte swaps *)

Lemma swap_range (n : nat) x : 0 <= of_le (rev (to_le n x)) < 2 ^ (8 * Z.of_nat n).
Proof.
  pose proof (of_le_range (rev (to_le n x))) as H. rewrite length_rev, length_to_le in H.
  apply H, is_bytes_rev, to_le_bytes.
Qed.

Lemma swap_bytes (n : nat) x : to_le n (of_le (rev (to_le n x))) = to_be n x.
Proof. apply to_le_of_le_n; [apply to_be_bytes|apply length_to_be]. Qed.

Lemma swap_swap (n : nat) x :
  of_le (rev (to_le n (of_le (rev (to_le n x))))) = x `mod` 2 ^ (8 * Z.of_nat n).
Proof. rewrite swap_bytes. unfold to_be. by rewrite rev_involutive, of_le_to_le. Qed.

Lemma htons_bytes x : to_le 2 (htons x) = to_be 2 x.
Proof. apply swap_bytes. Qed.
Lemma htonl_bytes x : to_le 4 (htonl x) = to_be 4 x.
Proof. apply swap_bytes. Qed.

Lemma htons_range x : is_u16 (htons x).
Proof. apply (swap_range 2). Qed.
Lemma htonl_range x : is_u32 (htonl x).
Proof. apply (swap_range 4). Qed.

Lemma ntohs_htons x : is_u16 x -> ntohs (htons x) = x.
Proof. intros Hx. unfold ntohs, htons. rewrite (swap_swap 2). by apply Z.mod_small. Qed.
Lemma ntohl_htonl x : is_u32 x -> ntohl (htonl x) = x.
Proof. intros Hx. unfold ntohl, htonl. rewrite (swap_swap 4). by apply Z.mod_small. Qed.

Lemma ntohs_be l : length l = 2%nat -> is_bytes l -> ntohs (of_le l) = of_be l.
Proof. intros. unfold ntohs, htons. by rewrite to_le_of_le_n. Qed.
Lemma ntohl_be l : length l = 4%nat -> is_bytes l -> ntohl (of_le l) = of_be l.
Proof. intros. unfold ntohl, htonl. by rewrite to_le_of_le_n. Qed.

Lemma lor_disjoint a b k : 0 <= k -> 0 <= b < 2 ^ k -> Z.lor (a * 2 ^ k) b = a * 2 ^ k + b.
Proof.
  intros Hk Hb. assert (Z.land (a * 2 ^ k) b = 0) as Hl.
  { apply Z.bits_inj'. intros i Hi. rewrite Z.land_spec, Z.bits_0.
    destruct (decide (i < k)); [by rewrite Z.mul_pow2_bits_low|].
    rewrite <- (Z.mod_small b (2 ^ k)), Z.mod_pow2_bits_high by lia. apply andb_false_r. }
  by rewrite <- Z.lxor_lor, <- Z.add_nocarry_lxor.
Qed.

(** The two 32-bit swaps of xtoxll.h make a 64-bit swap. *)
Lemma htonll_swap x : htonll x = of_le (rev (to_le 8 x)).
Proof.
  unfold htonll. change (htonl 1 =? 1) with false. cbv iota.
  pose proof (htonl_range (u32 x)) as H1. pose proof (htonl_range (u32 (Z.shiftr x 32))) as H2.
  unfold in_width in *.
  rewrite (Z.shiftl_mul_pow2 _ 32), wrap_small by lia.
  rewrite lor_disjoint by lia.
  change 8%nat with (4 + 4)%nat. rewrite to_le_app, rev_app_distr, of_le_app.
  rewrite length_rev, length_to_le. unfold htonl, wrap.
  change (2 ^ 32) with (2 ^ (8 * Z.of_nat 4)). rewrite !to_le_mod.
  rewrite Z.shiftr_div_pow2 by lia. change (2 ^ 32) with (2 ^ (8 * Z.of_nat 4)). lia.
Qed.

Lemma htonll_range x : is_u64 (htonll x).
Proof. rewrite htonll_swap. apply (swap_range 8). Qed.

Lemma htonll_bytes x : to_le 8 (htonll x) = to_be 8 x.
Proof. rewrite htonll_swap. apply swap_bytes. Qed.

Lemma ntohll_htonll x : is_u64 x -> ntohll (htonll x) = x.
Proof.
  intros Hx. change ntohll with htonll. unfold in_width in Hx.
  rewrite !htonll_swap, (swap_swap 8). by apply Z.mod_small.
Qed.

Lemma ntohll_be l : length l = 8%nat -> is_bytes l -> ntohll (of_le l) = of_be l.
Proof.
  intros Hl Hb. change ntohll with htonll. rewrite htonll_swap. by rewrite to_le_of_le_n.
Qed.

(** *** Memory *)

Lemma length_store off bs mem :
  (off + length bs <= length mem)%nat -> length (store off bs mem) = length mem.
Proof. intros. unfold store. rewrite !length_app, length_take, length_drop. lia. Qed.

Lemma length_load off len mem : (off + len <= length mem)%nat -> length (load off len mem) = len.
Proof. intros. unfold load. rewrite length_take, length_drop. lia. Qed.

Lemma load_bytes off len mem : is_bytes mem -> is_bytes (load off len mem).
Proof. intros. unfold load. by apply Forall_take, Forall_drop. Qed.

Lemma store_bytes off bs mem : is_bytes bs -> is_bytes mem -> is_bytes (store off bs mem).
Proof.
  intros. unfold store. rewrite !Forall_app. split_and!; [by apply Forall_take|done|by apply Forall_drop].
Qed.

Lemma load_app_l off len l1 l2 : (off + len <= length l1)%nat -> load off len (l1 ++ l2) = load off len l1.
Proof.
  intros. unfold load. rewrite drop_app_le by lia. rewrite take_app_le; [done|].
  rewrite length_drop. lia.
Qed.

Lemma load_app_r (off len : nat) l1 l2 :
  (length l1 <= off)%nat -> load off len (l1 ++ l2) = load (off - length l1) len l2.
Proof. intros. unfold load. rewrite drop_app_ge by lia. done. Qed.

Lemma load_here (len : nat) l1 l2 : length l1 = len -> load 0 len (l1 ++ l2) = l1.
Proof. intros <-. unfold load. rewrite drop_0. by rewrite take_app_length. Qed.

Lemma drop_drop_add (i j : nat) (l : bytes) : drop i (drop j l) = drop (j + i) l.
Proof. rewrite drop_drop. done. Qed.

Lemma take_store (off : nat) bs mem : (off <= length mem)%nat ->
  take (off + length bs) (store off bs mem) = take off mem ++ bs.
Proof.
  intros. unfold store. rewrite app_assoc, take_app_le by (rewrite length_app, length_take; lia).
  apply firstn_all2. rewrite length_app, length_take. lia.
Qed.

Lemma load_store_before (off len o : nat) bs mem : (off + len <= o)%nat -> (o <= length mem)%nat ->
  load off len (store o bs mem) = load off len mem.
Proof.
  intros. unfold store. rewrite load_app_l by (rewrite length_take; lia).
  unfold load. rewrite List.skipn_firstn_comm, take_take. f_equal. lia.
Qed.

Lemma load_store_here (o : nat) bs mem : (o <= length mem)%nat -> load o (length bs) (store o bs mem) = bs.
Proof.
  intros. unfold load, store. rewrite drop_app_ge, length_take by (rewrite length_take; lia).
  replace (o - min o (length mem))%nat with 0%nat by lia. rewrite drop_0. apply take_app_length.
Qed.

Lemma store_app_l (off : nat) bs l r : (off + length bs <= length l)%nat ->
  store off bs (l ++ r) = store off bs l ++ r.
Proof.
  intros. unfold store. rewrite take_app_le by lia. rewrite drop_app_le by lia. by rewrite <- !app_assoc.
Qed.

Lemma store_end (off : nat) bs l r : length l = off -> length bs = length r -> store off bs (l ++ r) = l ++ bs.
Proof.
  intros <- Hr. unfold store. rewrite take_app_length, drop_app_ge by lia.
  rewrite drop_ge by lia. by rewrite app_nil_r.
Qed.

(** Deciding that concrete data are bytes. *)
Lemma bytes_check (l : bytes) : forallb (fun x => (0 <=? x) && (x <? 256)) l = true -> is_bytes l.
Proof.
  intros Hl. apply Forall_forall. intros x Hx%list_elem_of_In. rewrite forallb_forall in Hl.
  specialize (Hl x Hx). unfold in_width. change (2 ^ 8) with 256. lia.
Qed.
