(* ===== verification/Buffer.v ===== *)
(** * Buffers (src/include/buffer.hh, src/lib/buffer.cc)

    A [Buffer] is a window [m_data, m_data + m_size) on an array; pointers
    into it are offsets in that array.  [Array_buffer] owns the array (its
    [base] is offset 0 and its [capacity] the array's length) and can grow
    the window at either end; [Nonowning_buffer] only shrinks it. *)

From S2P Require Import Prelude Bytes.

Open Scope Z_scope.

Record buffer := Buffer { base : bytes; m_data : Z; m_size : Z }.

Definition capacity (b : buffer) : Z := Z.of_nat (length (base b)).

(** ** Operations *)

(** [Buffer::pull]: the pointer to the first byte dropped. *)
Definition pull (n : Z) (b : buffer) : res (Z * buffer) :=
  if n <=? m_size b
  then Ret (m_data b, Buffer (base b) (m_data b + n) (m_size b - n))
  else Aborted.

(** [Buffer::try_pull] *)
Definition try_pull (n : Z) (b : buffer) : res (option Z * buffer) :=
  if m_size b <? n then Ret (None, b)
  else '(p, b') ← pull n b; Ret (Some p, b').

(** [Buffer::trim] *)
Definition trim (n : Z) (b : buffer) : res buffer :=
  if n <=? m_size b then Ret (Buffer (base b) (m_data b) n) else Aborted.

(** [Buffer::at<T>], with [sizeof(T)] as an argument; the sum is a [size_t]. *)
Definition at_ (offset sizeof_T : Z) (b : buffer) : res Z :=
  if u64 (offset + sizeof_T) <=? m_size b then Ret (m_data b + offset) else Aborted.

(** [Buffer::try_at<T>] *)
Definition try_at (offset sizeof_T : Z) (b : buffer) : res (option Z) :=
  if u64 (offset + sizeof_T) <=? m_size b
  then p ← at_ offset sizeof_T b; Ret (Some p)
  else Ret None.

(** [Nonowning_buffer(buffer, offset, length)] *)
Definition subbuffer (b : buffer) (offset length : Z) : res buffer :=
  '(_, b') ← pull offset b;
  if length <? m_size b' then trim length b' else Ret b'.

(** The operations that grow an [Array_buffer]; [new_uint8 n] is the array
    [new uint8_t[n]] returns, whose contents are unspecified. *)
Section grow.
Variable new_uint8 : Z -> bytes.

Definition memcpy (dst : bytes) (off : Z) (src : bytes) : bytes := store (Z.to_nat off) src dst.

Definition contents (b : buffer) : bytes := load (Z.to_nat (m_data b)) (Z.to_nat (m_size b)) (base b).

(** [Array_buffer::Array_buffer(size)] *)
Definition array_buffer (size : Z) : buffer := Buffer (new_uint8 size) 0 size.

(** [Array_buffer::push] *)
Definition push (n : Z) (b : buffer) : Z * buffer :=
  let headroom := m_data b in
  if n <=? headroom then
    let b' := Buffer (base b) (m_data b - n) (m_size b + n) in (m_data b', b')
  else
    let capacity' := capacity b + (n - headroom) in
    let new_base := memcpy (new_uint8 capacity') n (contents b) in
    let b' := Buffer new_base 0 (m_size b + n) in (m_data b', b').

(** [Array_buffer::put] *)
Definition put (n : Z) (b : buffer) : Z * buffer :=
  let tailroom := capacity b - (m_data b + m_size b) in
  let b1 :=
    if tailroom <? n then
      let headroom := m_data b in
      let capacity' := capacity b + Z.max (capacity b) (n - tailroom) in
      Buffer (memcpy (new_uint8 capacity') headroom (contents b)) headroom (m_size b)
    else b in
  (m_data b1 + m_size b1, Buffer (base b1) (m_data b1) (m_size b1 + n)).
End grow.

(** ** Well-formed buffers *)

(** The window lies within the array, which is smaller than the address
    space. *)
Record buffer_ok (b : buffer) : Prop := {
  ok_data : 0 <= m_data b;
  ok_size : 0 <= m_size b;
  ok_window : m_data b + m_size b <= capacity b;
  ok_space : capacity b < 2 ^ 63;
  ok_bytes : is_bytes (base b)
}.

(** [sub b' b]: the window of [b'] lies in that of [b], on the same array. *)
Definition sub (b' b : buffer) : Prop :=
  base b' = base b /\ m_data b <= m_data b' /\ 0 <= m_size b' /\
  m_data b' + m_size b' <= m_data b + m_size b.

Lemma length_contents b : buffer_ok b -> length (contents b) = Z.to_nat (m_size b).
Proof. intros [? ? ? ? ?]. unfold contents. apply length_load. unfold capacity in *. lia. Qed.

Lemma pull_spec n b :
  buffer_ok b -> 0 <= n <= m_size b ->
  exists b', pull n b = Ret (m_data b, b') /\ buffer_ok b' /\ sub b' b /\
    m_size b' = m_size b - n /\ contents b' = drop (Z.to_nat n) (contents b).
Proof.
  intros [? ? ? ? ?] Hn. unfold pull. rewrite (proj2 (Z.leb_le _ _)) by lia.
  eexists. split; [done|]. split; [split; simpl; try done; try lia; unfold capacity in *; simpl; lia|].
  split; [split_and!; simpl; done || lia|]. split; [done|]. unfold contents. simpl. unfold load.
  rewrite List.skipn_firstn_comm, drop_drop_add. f_equal; [lia|]. f_equal. lia.
Qed.

Lemma try_pull_spec n b :
  buffer_ok b -> 0 <= n ->
  (m_size b < n /\ try_pull n b = Ret (None, b)) \/
  (n <= m_size b /\ exists b', try_pull n b = Ret (Some (m_data b), b') /\ buffer_ok b' /\ sub b' b /\
     m_data b' = m_data b + n /\ m_size b' = m_size b - n /\
     contents b' = drop (Z.to_nat n) (contents b)).
Proof.
  intros Hok Hn. unfold try_pull. destruct (Z.ltb_spec (m_size b) n); [by left|]. right.
  split; [done|]. destruct (pull_spec n b Hok) as (b' & Hp & ? & ? & ? & ?); [lia|].
  exists b'. rewrite Hp. split; [done|]. split_and!; try done.
  unfold pull in Hp. rewrite (proj2 (Z.leb_le _ _)) in Hp by lia. by injection Hp as <-.
Qed.

Lemma try_at_spec n b :
  buffer_ok b -> 0 <= n < 2 ^ 63 ->
  try_at 0 n b = Ret (if n <=? m_size b then Some (m_data b) else None).
Proof.
  intros [? ? ? ? ?] Hn. unfold try_at, at_. rewrite Z.add_0_l, wrap_small by lia.
  destruct (n <=? m_size b); [|done]. simpl. do 2 f_equal. lia.
Qed.

Section grow_facts.
Context (new_uint8 : Z -> bytes).
Hypothesis new_length : forall n, 0 <= n -> Z.of_nat (length (new_uint8 n)) = n.
Hypothesis new_bytes : forall n, is_bytes (new_uint8 n).

Lemma memcpy_length dst off src :
  0 <= off -> off + Z.of_nat (length src) <= Z.of_nat (length dst) ->
  length (memcpy dst off src) = length dst.
Proof. intros. unfold memcpy. apply length_store. lia. Qed.

Lemma load_memcpy dst off src :
  0 <= off -> off + Z.of_nat (length src) <= Z.of_nat (length dst) ->
  load (Z.to_nat off) (length src) (memcpy dst off src) = src.
Proof.
  intros. unfold memcpy, store, load. rewrite drop_app_ge by (rewrite length_take; lia).
  rewrite length_take. replace (Z.to_nat off - Z.to_nat off `min` length dst)%nat with 0%nat by lia.
  rewrite drop_0. apply take_app_length.
Qed.

Lemma load_longer (off n m : nat) (l : bytes) :
  (n <= m)%nat -> take n (load off m l) = load off n l.
Proof. intros. unfold load. rewrite take_take. f_equal. lia. Qed.

Lemma load_split (off n m : nat) (l : bytes) : load off (n + m) l = load off n l ++ load (off + n) m l.
Proof. unfold load. rewrite <- take_take_drop. by rewrite drop_drop_add. Qed.

Lemma push_ok n b :
  buffer_ok b -> 0 <= n -> capacity b + n < 2 ^ 63 ->
  let '(p, b') := push new_uint8 n b in
  buffer_ok b' /\ p = m_data b' /\ m_size b' = m_size b + n /\
  drop (Z.to_nat n) (contents b') = contents b.
Proof using new_length new_bytes.
  intros Hok Hn Hcap. pose proof Hok as [? ? ? ? ?]. pose proof (length_contents b Hok) as Hlc.
  unfold push. destruct (Z.leb_spec n (m_data b)); simpl.
  - split; [split; simpl; try done; try lia; unfold capacity in *; simpl; lia|].
    split; [done|]. split; [done|]. unfold contents at 1. simpl.
    rewrite (Z.add_comm (m_size b)), Z2Nat.inj_add, load_split by lia.
    rewrite drop_app_ge by (rewrite length_load; unfold capacity in *; lia).
    rewrite length_load by (unfold capacity in *; lia). rewrite Nat.sub_diag, drop_0.
    unfold contents. f_equal. lia.
  - pose proof (new_length (capacity b + (n - m_data b))) as Hnew.
    assert (Hlen : length (memcpy (new_uint8 (capacity b + (n - m_data b))) n (contents b))
                   = Z.to_nat (capacity b + (n - m_data b))).
    { rewrite memcpy_length; lia. }
    split; [split; simpl; try lia|].
    + unfold capacity in *. simpl. lia.
    + unfold capacity in *. simpl. lia.
    + apply store_bytes; [by apply load_bytes|done].
    + split; [done|]. split; [done|]. unfold contents at 1. simpl.
      rewrite (Z.add_comm (m_size b)), Z2Nat.inj_add, load_split by lia.
      rewrite drop_app_ge by (rewrite length_load; lia).
      rewrite length_load by lia. rewrite Nat.sub_diag, drop_0. simpl.
      rewrite <- Hlc. apply load_memcpy; lia.
Qed.

Lemma put_ok n b :
  buffer_ok b -> 0 <= n -> 2 * capacity b + n < 2 ^ 63 ->
  let '(p, b') := put new_uint8 n b in
  buffer_ok b' /\ p = m_data b' + m_size b /\ m_size b' = m_size b + n /\
  take (Z.to_nat (m_size b)) (contents b') = contents b.
Proof using new_length new_bytes.
  intros Hok Hn Hcap. pose proof Hok as [? ? ? ? ?]. pose proof (length_contents b Hok) as Hlc.
  unfold put. set (tailroom := capacity b - (m_data b + m_size b)).
  destruct (Z.ltb_spec tailroom n); simpl.
  - set (cap' := capacity b + Z.max (capacity b) (n - tailroom)).
    pose proof (new_length cap') as Hnew.
    assert (Hlen : length (memcpy (new_uint8 cap') (m_data b) (contents b)) = Z.to_nat cap').
    { rewrite memcpy_length; lia. }
    split; [split; simpl; try lia|].
    + unfold capacity in *. simpl. lia.
    + unfold capacity in *. simpl. lia.
    + apply store_bytes; [by apply load_bytes|done].
    + split; [done|]. split; [done|]. unfold contents at 1. simpl.
      rewrite load_longer by lia. rewrite <- Hlc. apply load_memcpy; lia.
  - split; [split; simpl; try done; try lia; unfold capacity in *; simpl; lia|].
    split; [done|]. split; [done|]. unfold contents at 1. simpl. apply load_longer. lia.
Qed.
End grow_facts.
