(* ===== verification/Ethernetaddr.v ===== *)
(** * Ethernet addresses (src/include/netinet++/ethernetaddr.hh) *)

From S2P Require Import Prelude Bytes.

Open Scope Z_scope.

(** [ethernetaddr]: six octets. *)
Definition LEN : nat := 6.
Record ethernetaddr := Ethernetaddr { octet : bytes }.

#[export] Instance ethernetaddr_eq_dec : EqDecision ethernetaddr.
Proof. solve_decision. Defined.

(** [ethernetaddr()] *)
Definition zero_addr : ethernetaddr := Ethernetaddr (replicate LEN 0).

(** [ethernetaddr(uint64_t id)] on a little-endian host: the last six bytes
    of the id in network order. *)
Definition of_id (id : Z) : ethernetaddr :=
  let id := htonll id in Ethernetaddr (load 2 LEN (to_le 8 id)).

(** [operator=(uint64_t id)]: the first six bytes of the id in host order. *)
Definition assign_id (id : Z) : ethernetaddr := Ethernetaddr (load 0 LEN (to_le 8 id)).

(** [hb_long]: eight bytes are read at [octet], of which the last two lie
    beyond the address ([after]). *)
Definition hb_long (after : bytes) (a : ethernetaddr) : Z :=
  Z.shiftr (ntohll (of_le (octet a ++ after))) 16.

(** [nb_long] on a little-endian host. *)
Definition nb_long (after : bytes) (a : ethernetaddr) : Z :=
  Z.land (of_le (octet a ++ after)) 0xffffffffffff.

(** [memcmp] on two regions of the same length: the sign of the first
    difference. *)
Fixpoint memcmp (l1 l2 : bytes) : Z :=
  match l1, l2 with
  | x :: l1', y :: l2' => if x =? y then memcmp l1' l2' else if x <? y then -1 else 1
  | _, _ => 0
  end.

(** The loop of [operator==]. *)
Fixpoint eq_loop (k : nat) (l1 l2 : bytes) (i : nat) : bool :=
  match k with
  | O => true
  | S k' => if nth i l1 0 =? nth i l2 0 then eq_loop k' l1 l2 (S i) else false
  end.

Definition eqb (a b : ethernetaddr) : bool := eq_loop LEN (octet a) (octet b) 0.
Definition ltb (a b : ethernetaddr) : bool := memcmp (octet a) (octet b) <? 0.
Definition leb (a b : ethernetaddr) : bool := memcmp (octet a) (octet b) <=? 0.
Definition gtb (a b : ethernetaddr) : bool := 0 <? memcmp (octet a) (octet b).
Definition geb (a b : ethernetaddr) : bool := 0 <=? memcmp (octet a) (octet b).

Definition is_private (a : ethernetaddr) : bool := negb (Z.land 2 (nth 0 (octet a) 0) =? 0).
Definition is_multicast (a : ethernetaddr) : bool := negb (Z.land 1 (nth 0 (octet a) 0) =? 0).
Definition is_broadcast (after : bytes) (a : ethernetaddr) : bool :=
  hb_long after a =? 0xffffffffffff.
Definition is_pae (after : bytes) (a : ethernetaddr) : bool := hb_long after a =? 0x0180c2000003.
Definition is_zero (a : ethernetaddr) : bool :=
  (of_le (load 0 4 (octet a)) =? 0) && (of_le (load 4 2 (octet a)) =? 0).
Definition is_init (a : ethernetaddr) : bool :=
  negb (of_le (load 0 4 (octet a)) =? 0) && negb (of_le (load 4 2 (octet a)) =? 0).

(** ** Facts *)

Definition addr_ok (a : ethernetaddr) : Prop := length (octet a) = LEN /\ is_bytes (octet a).

Lemma eqb_eq a b : addr_ok a -> addr_ok b -> eqb a b = true <-> a = b.
Proof.
  destruct a as [la], b as [lb]. intros [Ha _] [Hb _]. simpl in *. unfold eqb. simpl.
  do 6 (destruct la as [|? la]; [discriminate|]; destruct lb as [|? lb]; [discriminate|]).
  destruct la; [|discriminate]. destruct lb; [|discriminate]. simpl.
  repeat match goal with |- context [?x =? ?y] => destruct (Z.eqb_spec x y); subst end;
    split; try done; intros [=]; congruence.
Qed.

Lemma memcmp_values l1 l2 : memcmp l1 l2 = -1 \/ memcmp l1 l2 = 0 \/ memcmp l1 l2 = 1.
Proof.
  revert l2. induction l1 as [|x l1 IH]; intros [|y l2]; simpl; auto.
  destruct (x =? y); [apply IH|]. destruct (x <? y); auto.
Qed.

(** [memcmp] orders equally long byte strings as big-endian numbers. *)
Lemma memcmp_be l1 l2 :
  length l1 = length l2 -> is_bytes l1 -> is_bytes l2 ->
  memcmp l1 l2 = Z.sgn (of_be l1 - of_be l2).
Proof.
  revert l2. induction l1 as [|x l1 IH]; intros [|y l2] Hl H1 H2; try discriminate; [done|].
  inversion H1 as [|? ? Hx H1']; inversion H2 as [|? ? Hy H2']; subst. injection Hl as Hl.
  unfold of_be in *. cbn [rev memcmp]. rewrite !of_le_app, !length_rev, <- Hl.
  pose proof (of_le_range (rev l1) (is_bytes_rev _ H1')) as R1.
  pose proof (of_le_range (rev l2) (is_bytes_rev _ H2')) as R2.
  rewrite length_rev in R1, R2. rewrite <- Hl in R2.
  set (B := 2 ^ (8 * Z.of_nat (length l1))) in *. simpl. rewrite !Z.add_0_r.
  destruct (Z.eqb_spec x y) as [->|Hne].
  - rewrite IH by done. f_equal. lia.
  - symmetry. destruct (Z.ltb_spec x y).
    + apply Z.sgn_neg. nia.
    + apply Z.sgn_pos. nia.
Qed.

(** The 48-bit number an address stands for. *)
Definition addr_value (a : ethernetaddr) : Z := of_be (octet a).

Lemma addr_ok_of_id id : addr_ok (of_id id).
Proof.
  split; [done|]. apply load_bytes, to_le_bytes.
Qed.

Lemma of_id_value id : 0 <= id < 2 ^ 48 -> addr_value (of_id id) = id.
Proof.
  intros Hid. unfold addr_value, of_id. cbn [octet]. rewrite htonll_bytes. unfold to_be.
  change 8%nat with (6 + 2)%nat. rewrite to_le_app, rev_app_distr. unfold of_be, LEN.
  rewrite load_app_r by (rewrite length_rev, length_to_le; done).
  rewrite length_rev, length_to_le. simpl Nat.sub.
  assert (load 0 6 (rev (to_le 6 id)) = rev (to_le 6 id)) as ->.
  { unfold load. rewrite drop_0. apply firstn_all2. rewrite length_rev, length_to_le. done. }
  rewrite rev_involutive. by apply (of_le_to_le_id 6).
Qed.

Lemma hb_long_value after a :
  addr_ok a -> length after = 2%nat -> is_bytes after -> hb_long after a = addr_value a.
Proof.
  intros [Hl Hb] Ha Hab. unfold hb_long, addr_value.
  rewrite ntohll_be by (rewrite ?length_app, ?Hl, ?Ha; done || by apply Forall_app).
  unfold of_be. rewrite rev_app_distr, of_le_app, length_rev, Ha.
  rewrite Z.shiftr_div_pow2 by lia. simpl (2 ^ (8 * Z.of_nat 2)).
  pose proof (of_le_range (rev after) (is_bytes_rev _ Hab)) as Hr. rewrite length_rev, Ha in Hr.
  simpl in Hr. change (2 ^ 16) with 65536. rewrite (Z.mul_comm 65536).
  rewrite Z.div_add, Z.div_small by lia. lia.
Qed.
