(* ===== verification/Flow.v ===== *)
(** * Flows and packet parsing (src/include/flow.hh, src/lib/flow.cc)

    [Flow] is the 12-tuple OpenFlow matches on.  Multi-byte fields hold
    network-order values, as the code keeps them.  Reading a header field
    through a pointer is checked against the packet's buffer: [Aborted] stands
    for an out-of-bounds read as well as for a failed [assert]. *)

From S2P Require Import Prelude Bytes Buffer Ethernetaddr.

Open Scope Z_scope.

(** ** Constants (packets.h, openflow.h, ethernet.hh, ip.hh) *)

Definition OFP_VLAN_NONE : Z := 0xffff.
Definition OFP_DL_TYPE_NOT_ETH_TYPE : Z := 0x05ff.
Definition ETH2_CUTOFF : Z := 0x0600.
Definition ETH_TYPE_IP : Z := 0x0800.
Definition ETH_TYPE_ARP : Z := 0x0806.
Definition ETH_TYPE_VLAN : Z := 0x8100.
Definition ETH_HEADER_LEN : Z := 14.
Definition LLC_HEADER_LEN : Z := 3.
Definition LLC_SNAP_HEADER_LEN : Z := 8.
Definition VLAN_HEADER_LEN : Z := 4.
Definition VLAN_VID : Z := 0x0fff.
Definition VLAN_PCP_MASK : Z := 0xe000.
Definition VLAN_PCP_SHIFT : Z := 13.
Definition IP_HEADER_LEN : Z := 20.
Definition TCP_HEADER_LEN : Z := 20.
Definition UDP_HEADER_LEN : Z := 8.
Definition ICMP_HEADER_LEN : Z := 4.
Definition ARP_ETH_HEADER_LEN : Z := 28.
Definition ARP_PRO_IP : Z := 0x0800.
Definition IP_ADDR_LEN : Z := 4.
Definition PROTO_ICMP : Z := 1.
Definition PROTO_TCP : Z := 6.
Definition PROTO_UDP : Z := 17.

(** [IP_IHL], [TCP_OFFSET], [ip_::is_fragment] *)
Definition IP_IHL (ip_ihl_ver : Z) : Z := Z.land ip_ihl_ver 15.
Definition TCP_OFFSET (tcp_ctl : Z) : Z := Z.shiftr (htons tcp_ctl) 12.
Definition is_fragment (frag_off : Z) : bool :=
  negb (Z.land frag_off (htons (Z.lor 0x2000 0x1fff)) =? 0).

(** ** Data *)

Record flow := Flow {
  invalid : bool;
  in_port : Z;
  dl_vlan : Z;
  dl_vlan_pcp : Z;
  dl_src : ethernetaddr;
  dl_dst : ethernetaddr;
  dl_type : Z;
  nw_src : Z;
  nw_dst : Z;
  nw_proto : Z;
  nw_tos : Z;
  tp_src : Z;
  tp_dst : Z;
  cookie : Z
}.

(** [Flow::Flow()] *)
Definition empty_flow : flow := Flow false 0 0 0 zero_addr zero_addr 0 0 0 0 0 0 0 0.

Definition set_invalid (f : flow) : flow :=
  Flow true (in_port f) (dl_vlan f) (dl_vlan_pcp f) (dl_src f) (dl_dst f) (dl_type f)
    (nw_src f) (nw_dst f) (nw_proto f) (nw_tos f) (tp_src f) (tp_dst f) (cookie f).

Definition set_nw (src dst proto tos : Z) (f : flow) : flow :=
  Flow (invalid f) (in_port f) (dl_vlan f) (dl_vlan_pcp f) (dl_src f) (dl_dst f) (dl_type f)
    src dst proto tos (tp_src f) (tp_dst f) (cookie f).

Definition set_tp (src dst : Z) (f : flow) : flow :=
  Flow (invalid f) (in_port f) (dl_vlan f) (dl_vlan_pcp f) (dl_src f) (dl_dst f) (dl_type f)
    (nw_src f) (nw_dst f) (nw_proto f) (nw_tos f) src dst (cookie f).

(** ** Reading headers *)

(** [len] bytes at [p + off], which must lie in the packet. *)
Definition rd (pkt : buffer) (p off : Z) (len : nat) : res bytes :=
  if (m_data pkt <=? p + off) && (p + off + Z.of_nat len <=? m_data pkt + m_size pkt)
  then Ret (load (Z.to_nat (p + off)) len (base pkt)) else Aborted.

Definition rd_int (pkt : buffer) (p off : Z) (len : nat) : res Z :=
  bs ← rd pkt p off len; Ret (of_le bs).

(** The [pull_*] helpers of flow.cc: the header's address, if it is there. *)
Definition pull_arp (b : buffer) : res (option Z * buffer) :=
  if ARP_ETH_HEADER_LEN <=? m_size b then try_pull ARP_ETH_HEADER_LEN b else Ret (None, b).

Definition pull_ip (pkt b : buffer) : res (option Z * buffer) :=
  ip ← try_at 0 IP_HEADER_LEN b;
  match ip with
  | Some ip =>
      ihl_ver ← rd_int pkt ip 0 1;
      let ip_len := IP_IHL ihl_ver * 4 in
      if IP_HEADER_LEN <=? ip_len then try_pull ip_len b else Ret (None, b)
  | None => Ret (None, b)
  end.

Definition pull_tcp (pkt b : buffer) : res (option Z * buffer) :=
  tcp ← try_at 0 TCP_HEADER_LEN b;
  match tcp with
  | Some tcp =>
      ctl ← rd_int pkt tcp 12 2;
      let tcp_len := TCP_OFFSET ctl * 4 in
      if TCP_HEADER_LEN <=? tcp_len then try_pull tcp_len b else Ret (None, b)
  | None => Ret (None, b)
  end.

Definition pull_udp (b : buffer) : res (option Z * buffer) := try_pull UDP_HEADER_LEN b.
Definition pull_icmp (b : buffer) : res (option Z * buffer) := try_pull ICMP_HEADER_LEN b.
Definition pull_eth (b : buffer) : res (option Z * buffer) := try_pull ETH_HEADER_LEN b.
Definition pull_vlan (b : buffer) : res (option Z * buffer) := try_pull VLAN_HEADER_LEN b.

(** ** [Flow::Flow(in_port, buffer, cookie)], part by part *)

(** The Ethernet type and what follows it; [None] is the [goto end] of a
    truncated 802.2 frame. *)
Definition parse_type (pkt : buffer) (eth : Z) (b : buffer) : res (option (Z * buffer)) :=
  eth_type ← rd_int pkt eth 12 2;
  if ETH2_CUTOFF <=? ntohs eth_type then Ret (Some (eth_type, b))
  else
    h ← try_at 0 LLC_SNAP_HEADER_LEN b;
    match h with
    | None => Ret None
    | Some h =>
        llc ← rd pkt h 0 3;
        org ← rd pkt h 3 3;
        if bool_decide (llc = [0xaa; 0xaa; 3]) && bool_decide (org = [0; 0; 0]) then
          snap_type ← rd_int pkt h 6 2;
          '(_, b') ← pull LLC_SNAP_HEADER_LEN b;
          Ret (Some (snap_type, b'))
        else
          '(_, b') ← pull LLC_HEADER_LEN b;
          Ret (Some (htons OFP_DL_TYPE_NOT_ETH_TYPE, b'))
    end.

(** The VLAN tag: type, VLAN id, priority, rest. *)
Definition parse_vlan (pkt : buffer) (ty : Z) (b : buffer) : res (Z * Z * Z * buffer) :=
  if ty =? htons ETH_TYPE_VLAN then
    '(vh, b') ← pull_vlan b;
    match vh with
    | Some vh =>
        tci ← rd_int pkt vh 0 2;
        next_type ← rd_int pkt vh 2 2;
        Ret (next_type, Z.land tci (htons VLAN_VID),
             Z.shiftr (Z.land (ntohs tci) VLAN_PCP_MASK) VLAN_PCP_SHIFT, b')
    | None => Ret (ty, htons OFP_VLAN_NONE, 0, b')
    end
  else Ret (ty, htons OFP_VLAN_NONE, 0, b).

(** The transport ports of an unfragmented IP packet. *)
Definition parse_l4 (pkt b : buffer) (f : flow) : res flow :=
  if nw_proto f =? PROTO_TCP then
    '(tcp, _) ← pull_tcp pkt b;
    match tcp with
    | Some tcp => s ← rd_int pkt tcp 0 2; d ← rd_int pkt tcp 2 2; Ret (set_tp s d f)
    | None => Ret (set_invalid f)
    end
  else if nw_proto f =? PROTO_UDP then
    '(udp, _) ← pull_udp b;
    match udp with
    | Some udp => s ← rd_int pkt udp 0 2; d ← rd_int pkt udp 2 2; Ret (set_tp s d f)
    | None => Ret (set_invalid f)
    end
  else if nw_proto f =? PROTO_ICMP then
    '(icmp, _) ← pull_icmp b;
    match icmp with
    | Some icmp => t ← rd_int pkt icmp 0 1; c ← rd_int pkt icmp 1 1;
                   Ret (set_tp (htons t) (htons c) f)
    | None => Ret (set_invalid f)
    end
  else Ret f.

Definition parse_ip (pkt b : buffer) (f : flow) : res flow :=
  '(ip, b') ← pull_ip pkt b;
  match ip with
  | None => Ret f
  | Some ip =>
      src ← rd_int pkt ip 12 4;
      dst ← rd_int pkt ip 16 4;
      proto ← rd_int pkt ip 9 1;
      tos ← rd_int pkt ip 1 1;
      frag ← rd_int pkt ip 6 2;
      let f := set_nw src dst proto tos f in
      if is_fragment frag then Ret f else parse_l4 pkt b' f
  end.

Definition parse_arp (pkt b : buffer) (f : flow) : res flow :=
  '(arp, _) ← pull_arp b;
  match arp with
  | None => Ret f
  | Some arp =>
      pro ← rd_int pkt arp 2 2;
      pln ← rd_int pkt arp 5 1;
      op ← rd_int pkt arp 6 2;
      spa ← rd_int pkt arp 14 4;
      tpa ← rd_int pkt arp 24 4;
      let proto := Z.land (ntohs op) 0xff in
      if (pro =? htons ARP_PRO_IP) && (pln =? IP_ADDR_LEN)
      then Ret (set_nw spa tpa proto (nw_tos f) f)
      else Ret (set_nw (nw_src f) (nw_dst f) proto (nw_tos f) f)
  end.

Definition parse_packet (pkt : buffer) (port ck : Z) : res flow :=
  let none := Flow false port (htons OFP_VLAN_NONE) 0 zero_addr zero_addr 0 0 0 0 0 0 0 ck in
  '(eth, b) ← pull_eth pkt;
  match eth with
  | None => Ret none
  | Some eth =>
      t ← parse_type pkt eth b;
      match t with
      | None => Ret none
      | Some (ty, b1) =>
          '(ty', vlan, pcp, b2) ← parse_vlan pkt ty b1;
          src ← rd pkt eth 6 6;
          dst ← rd pkt eth 0 6;
          let f := Flow false port vlan pcp (Ethernetaddr src) (Ethernetaddr dst) ty'
                     0 0 0 0 0 0 ck in
          if ty' =? htons ETH_TYPE_IP then parse_ip pkt b2 f
          else if ty' =? htons ETH_TYPE_ARP then parse_arp pkt b2 f
          else Ret f
      end
  end.

(** [Flow::Flow(uint16_t in_port_, const Buffer& buffer, uint64_t cookie_)] *)
Definition flow_of_packet (port : Z) (pkt : buffer) (ck : Z) : res flow :=
  f ← parse_packet pkt port ck;
  Ret (if m_size pkt <? ETH_HEADER_LEN then set_invalid f else f).

(** [operator==]: [invalid] and [cookie] do not count. *)
Definition flow_eqb (l r : flow) : bool :=
  (in_port l =? in_port r) && (dl_vlan l =? dl_vlan r) && (dl_vlan_pcp l =? dl_vlan_pcp r) &&
  eqb (dl_src l) (dl_src r) && eqb (dl_dst l) (dl_dst r) && (dl_type l =? dl_type r) &&
  (nw_src l =? nw_src r) && (nw_dst l =? nw_dst r) && (nw_proto l =? nw_proto r) &&
  (nw_tos l =? nw_tos r) && (tp_src l =? tp_src r) && (tp_dst l =? tp_dst r).
