(* ===== verification/FlowSpec.v ===== *)
(** * Packet parsing never leaves the packet; reference encodings of frames *)

From S2P Require Import Prelude Bytes Buffer Ethernetaddr Flow.

Open Scope Z_scope.

(** Field widths of a flow. *)
Record flow_ok (f : flow) : Prop := {
  fo_vlan : is_u16 (dl_vlan f);
  fo_pcp : 0 <= dl_vlan_pcp f < 8;
  fo_src : addr_ok (dl_src f);
  fo_dst : addr_ok (dl_dst f);
  fo_type : is_u16 (dl_type f);
  fo_nw_src : is_u32 (nw_src f);
  fo_nw_dst : is_u32 (nw_dst f);
  fo_proto : is_u8 (nw_proto f);
  fo_tos : is_u8 (nw_tos f);
  fo_tp_src : is_u16 (tp_src f);
  fo_tp_dst : is_u16 (tp_dst f)
}.

(** [f'] is [f] with network and transport fields filled in. *)
Definition filled (f f' : flow) : Prop :=
  flow_ok f' /\ in_port f' = in_port f /\ cookie f' = cookie f /\
  dl_vlan f' = dl_vlan f /\ dl_vlan_pcp f' = dl_vlan_pcp f /\
  dl_src f' = dl_src f /\ dl_dst f' = dl_dst f /\ dl_type f' = dl_type f.

Section parse.
Context (pkt : buffer).
Hypothesis Hpkt : buffer_ok pkt.

(** A window of the packet. *)
Definition window (b : buffer) : Prop := buffer_ok b /\ sub b pkt.

Lemma window_self : window pkt.
Proof using Hpkt. split; [done|]. destruct Hpkt. split_and!; done || lia. Qed.

Lemma sub_window b b' : window b -> buffer_ok b' -> sub b' b -> window b'.
Proof.
  intros [_ (H1 & H2 & H3 & H4)] Hok (H1' & H2' & H3' & H4'). split; [done|].
  split_and!; [congruence|lia..].
Qed.

Lemma rd_ok p off (len : nat) :
  m_data pkt <= p + off -> p + off + Z.of_nat len <= m_data pkt + m_size pkt ->
  exists bs, rd pkt p off len = Ret bs /\ length bs = len /\ is_bytes bs.
Proof using Hpkt.
  intros H1 H2. unfold rd. rewrite (proj2 (Z.leb_le _ _) H1), (proj2 (Z.leb_le _ _) H2). simpl.
  eexists. split; [done|]. destruct Hpkt as [? ? ? ? ?].
  split; [apply length_load; unfold capacity in *; lia|by apply load_bytes].
Qed.

Lemma rd_int_ok p off (len : nat) :
  m_data pkt <= p + off -> p + off + Z.of_nat len <= m_data pkt + m_size pkt ->
  exists x, rd_int pkt p off len = Ret x /\ 0 <= x < 2 ^ (8 * Z.of_nat len).
Proof using Hpkt.
  intros H1 H2. destruct (rd_ok p off len H1 H2) as (bs & Hrd & <- & Hb). unfold rd_int. rewrite Hrd.
  eexists. split; [done|]. by apply of_le_range.
Qed.

(** A header that was pulled or is in front of the window. *)
Definition header_at (b : buffer) (n p : Z) : Prop := p = m_data b /\ n <= m_size b.

Lemma header_bounds b n p : window b -> header_at b n p ->
  m_data pkt <= p /\ p + n <= m_data pkt + m_size pkt.
Proof. intros [_ (? & ? & ? & ?)] [-> ?]. lia. Qed.

Lemma try_pull_window n b :
  window b -> 0 <= n ->
  exists o b', try_pull n b = Ret (o, b') /\ window b' /\
    match o with Some p => header_at b n p | None => m_size b < n end.
Proof.
  intros Hb Hn. destruct (try_pull_spec n b (proj1 Hb) Hn)
    as [[? ->]|(? & b' & -> & Hok & Hsub & _)]; eexists _, _; (split; [done|]).
  - done.
  - split; [by eapply sub_window|done].
Qed.

Lemma try_at_window n b :
  window b -> 0 <= n < 2 ^ 63 ->
  exists o, try_at 0 n b = Ret o /\
    match o with Some p => header_at b n p | None => m_size b < n end.
Proof.
  intros Hb Hn. rewrite (try_at_spec n b (proj1 Hb) Hn).
  destruct (Z.leb_spec n (m_size b)); eexists; (split; [done|done]).
Qed.
End parse.

(** Reads a field of a header known to be in the packet. *)
Ltac rd_step Hpkt :=
  match goal with
  | |- context [rd_int ?pkt ?p ?off ?len] =>
      let x := fresh "x" in let E := fresh "E" in let Hx := fresh "Hx" in
      destruct (rd_int_ok pkt Hpkt p off len) as (x & E & Hx); [lia|lia|];
      rewrite E; clear E; cbn [mbind res_bind]
  | |- context [rd ?pkt ?p ?off ?len] =>
      let bs := fresh "bs" in let E := fresh "E" in let Hl := fresh "Hl" in let Hbs := fresh "Hbs" in
      destruct (rd_ok pkt Hpkt p off len) as (bs & E & Hl & Hbs); [lia|lia|];
      rewrite E; clear E; cbn [mbind res_bind]
  end.

Section parse_ok.
Context (pkt : buffer).
Hypothesis Hpkt : buffer_ok pkt.

Lemma set_nw_ok src dst proto tos f :
  flow_ok f -> is_u32 src -> is_u32 dst -> is_u8 proto -> is_u8 tos -> filled f (set_nw src dst proto tos f).
Proof. intros [] ? ? ? ?. split; [by split|split_and!; done]. Qed.

Lemma set_tp_ok src dst f : flow_ok f -> is_u16 src -> is_u16 dst -> filled f (set_tp src dst f).
Proof. intros [] ? ?. split; [by split|split_and!; done]. Qed.

Lemma set_invalid_ok f : flow_ok f -> filled f (set_invalid f).
Proof. intros []. split; [by split|split_and!; done]. Qed.

Lemma filled_refl f : flow_ok f -> filled f f.
Proof. intros []. split; [by split|split_and!; done]. Qed.

Lemma filled_trans f1 f2 f3 : filled f1 f2 -> filled f2 f3 -> filled f1 f3.
Proof. unfold filled. intros. destruct_and!. split_and!; congruence || done. Qed.

Lemma pull_tcp_ok b : window pkt b ->
  exists o b', pull_tcp pkt b = Ret (o, b') /\ window pkt b' /\
    match o with Some p => header_at b TCP_HEADER_LEN p | None => True end.
Proof using Hpkt.
  intros Hb. unfold pull_tcp, TCP_HEADER_LEN.
  destruct (try_at_window pkt 20 b Hb) as ([p|] & -> & Hp); [lia|..]; cbn [mbind res_bind]; [|by eauto].
  destruct (header_bounds pkt b 20 p Hb Hp). rd_step Hpkt.
  destruct (Z.leb_spec 20 (TCP_OFFSET x * 4)); [|by eauto].
  destruct (try_pull_window pkt (TCP_OFFSET x * 4) b Hb) as (o & b' & -> & Hb' & Ho); [lia|].
  eexists o, b'. split; [done|]. split; [done|]. destruct o; [|done]. destruct Ho as [? ?].
  split; [done|lia].
Qed.

Lemma pull_ip_ok b : window pkt b ->
  exists o b', pull_ip pkt b = Ret (o, b') /\ window pkt b' /\
    match o with Some p => header_at b IP_HEADER_LEN p | None => True end.
Proof using Hpkt.
  intros Hb. unfold pull_ip, IP_HEADER_LEN.
  destruct (try_at_window pkt 20 b Hb) as ([p|] & -> & Hp); [lia|..]; cbn [mbind res_bind]; [|by eauto].
  destruct (header_bounds pkt b 20 p Hb Hp). rd_step Hpkt.
  destruct (Z.leb_spec 20 (IP_IHL x * 4)); [|by eauto].
  destruct (try_pull_window pkt (IP_IHL x * 4) b Hb) as (o & b' & -> & Hb' & Ho); [lia|].
  eexists o, b'. split; [done|]. split; [done|]. destruct o; [|done]. destruct Ho as [? ?].
  split; [done|lia].
Qed.

Lemma parse_l4_ok b f : window pkt b -> flow_ok f ->
  exists f', parse_l4 pkt b f = Ret f' /\ filled f f'.
Proof using Hpkt.
  intros Hb Hf. unfold parse_l4. repeat case_match.
  - destruct (pull_tcp_ok b Hb) as ([p|] & b' & -> & Hb' & Hp); cbn [mbind res_bind];
      [|eauto using set_invalid_ok].
    destruct (header_bounds pkt b _ p Hb Hp). unfold TCP_HEADER_LEN in *. do 2 rd_step Hpkt.
    eauto using set_tp_ok.
  - unfold pull_udp, UDP_HEADER_LEN.
    destruct (try_pull_window pkt 8 b Hb) as ([p|] & b' & -> & Hb' & Hp); [lia|..];
      cbn [mbind res_bind]; [|eauto using set_invalid_ok].
    destruct (header_bounds pkt b _ p Hb Hp). do 2 rd_step Hpkt. eauto using set_tp_ok.
  - unfold pull_icmp, ICMP_HEADER_LEN.
    destruct (try_pull_window pkt 4 b Hb) as ([p|] & b' & -> & Hb' & Hp); [lia|..];
      cbn [mbind res_bind]; [|eauto using set_invalid_ok].
    destruct (header_bounds pkt b _ p Hb Hp). do 2 rd_step Hpkt.
    eauto using set_tp_ok, htons_range.
  - eauto using filled_refl.
Qed.

Lemma parse_ip_ok b f : window pkt b -> flow_ok f ->
  exists f', parse_ip pkt b f = Ret f' /\ filled f f'.
Proof using Hpkt.
  intros Hb Hf. unfold parse_ip.
  destruct (pull_ip_ok b Hb) as ([p|] & b' & -> & Hb' & Hp); cbn [mbind res_bind]; [|eauto using filled_refl].
  destruct (header_bounds pkt b _ p Hb Hp). unfold IP_HEADER_LEN in *. do 5 rd_step Hpkt.
  match goal with |- context [set_nw ?s ?d ?pr ?tos f] =>
    assert (Hnw : filled f (set_nw s d pr tos f)) by (apply set_nw_ok; assumption) end.
  case_match; [eauto|]. destruct (parse_l4_ok b' _ Hb' (proj1 Hnw)) as (f' & -> & Hf').
  eauto using filled_trans.
Qed.

Lemma land_u8 x : is_u8 (Z.land x 0xff).
Proof. change 0xff with (Z.ones 8). rewrite Z.land_ones by lia. by apply Z.mod_pos_bound. Qed.

Lemma parse_arp_ok b f : window pkt b -> flow_ok f ->
  exists f', parse_arp pkt b f = Ret f' /\ filled f f'.
Proof using Hpkt.
  intros Hb Hf. unfold parse_arp, pull_arp, ARP_ETH_HEADER_LEN.
  destruct (28 <=? m_size b); cbn [mbind res_bind]; [|eauto using filled_refl].
  destruct (try_pull_window pkt 28 b Hb) as ([p|] & b' & -> & Hb' & Hp); [lia|..];
    cbn [mbind res_bind]; [|eauto using filled_refl].
  destruct (header_bounds pkt b _ p Hb Hp). do 5 rd_step Hpkt.
  pose proof Hf as []. case_match; (eexists; split; [done|]; apply set_nw_ok; assumption || apply land_u8).
Qed.

Lemma parse_type_ok b eth :
  window pkt b -> m_data pkt <= eth -> eth + 14 <= m_data pkt + m_size pkt ->
  exists o, parse_type pkt eth b = Ret o /\
    match o with Some (ty, b') => is_u16 ty /\ window pkt b' | None => True end.
Proof using Hpkt.
  intros Hb H1 H2. unfold parse_type. rd_step Hpkt. case_match; [eexists; split; [done|]; split; assumption|].
  unfold LLC_SNAP_HEADER_LEN, LLC_HEADER_LEN.
  destruct (try_at_window pkt 8 b Hb) as ([p|] & -> & Hp); [lia|..]; cbn [mbind res_bind]; [|by eexists].
  destruct (header_bounds pkt b _ p Hb Hp). destruct Hp as [_ Hsz]. do 3 rd_step Hpkt. case_match.
  - destruct (pull_spec 8 b (proj1 Hb)) as (b' & -> & Hok & Hsub & _); [lia|].
    eexists. split; [done|]. split; [assumption|by eapply sub_window].
  - destruct (pull_spec 3 b (proj1 Hb)) as (b' & -> & Hok & Hsub & _); [lia|].
    eexists. split; [done|]. split; [apply htons_range|by eapply sub_window].
Qed.

Lemma pcp_range x : is_u16 x -> 0 <= Z.shiftr (Z.land x VLAN_PCP_MASK) VLAN_PCP_SHIFT < 8.
Proof.
  intros [? Hx]. unfold VLAN_PCP_MASK, VLAN_PCP_SHIFT. rewrite Z.shiftr_div_pow2 by lia.
  assert (0 <= Z.land x 0xe000) by (apply Z.land_nonneg; lia).
  assert (Z.land x 0xe000 < 2 ^ 16).
  { destruct (decide (Z.land x 0xe000 = 0)) as [->|]; [lia|]. apply Z.log2_lt_pow2; [lia|].
    eapply Z.le_lt_trans; [apply Z.log2_land; lia|]. simpl. lia. }
  split; [apply Z.div_pos; lia|]. apply Z.div_lt_upper_bound; lia.
Qed.

Lemma land_u16 x m : is_u16 m -> is_u16 (Z.land x m).
Proof.
  intros [? Hm]. split; [apply Z.land_nonneg; lia|].
  destruct (decide (Z.land x m = 0)) as [->|]; [lia|].
  assert (0 <= Z.land x m) by (apply Z.land_nonneg; lia).
  assert (Z.land x m <= m); [|lia]. rewrite Z.land_comm.
  apply Z.ldiff_le; [lia|]. apply Z.bits_inj'. intros i Hi.
  rewrite Z.ldiff_spec, Z.land_spec, Z.bits_0. by destruct (Z.testbit m i), (Z.testbit x i).
Qed.

Lemma parse_vlan_ok b ty : window pkt b -> is_u16 ty ->
  exists ty' v pcp b', parse_vlan pkt ty b = Ret (ty', v, pcp, b') /\
    is_u16 ty' /\ is_u16 v /\ 0 <= pcp < 8 /\ window pkt b'.
Proof using Hpkt.
  intros Hb Hty. assert (is_u16 (htons OFP_VLAN_NONE)) by apply htons_range.
  unfold parse_vlan. case_match; [|eexists _, _, _, _; split; [done|]; split_and!; done || lia].
  unfold pull_vlan, VLAN_HEADER_LEN.
  destruct (try_pull_window pkt 4 b Hb) as ([p|] & b' & -> & Hb' & Hp); [lia|..]; cbn [mbind res_bind];
    [|eexists _, _, _, _; split; [done|]; split_and!; done || lia].
  destruct (header_bounds pkt b _ p Hb Hp). do 2 rd_step Hpkt.
  eexists _, _, _, _; split; [done|]. split; [done|]. split; [apply land_u16, htons_range|].
  split; [apply pcp_range, htons_range|done].
Qed.

(** The parser returns a flow whatever the packet holds. *)
Lemma parse_packet_ok port ck :
  exists f, parse_packet pkt port ck = Ret f /\ flow_ok f /\ in_port f = port /\ cookie f = ck.
Proof using Hpkt.
  assert (Hzero : addr_ok zero_addr) by (split; [done|by apply Forall_replicate]).
  assert (Hnone : flow_ok (Flow false port (htons OFP_VLAN_NONE) 0 zero_addr zero_addr 0 0 0 0 0 0 0 ck)).
  { split; done. }
  unfold parse_packet, pull_eth, ETH_HEADER_LEN.
  destruct (try_pull_window pkt 14 pkt) as ([eth|] & b & -> & Hb & Heth);
    [by apply window_self|lia|..]; cbn [mbind res_bind]; [|by eauto].
  destruct (header_bounds pkt pkt 14 eth (window_self pkt Hpkt) Heth).
  destruct (parse_type_ok b eth Hb) as ([[ty b1]|] & -> & Ht); [lia|lia|..]; cbn [mbind res_bind];
    [|by eauto].
  destruct Ht as [Hty Hb1].
  destruct (parse_vlan_ok b1 ty Hb1 Hty) as (ty' & v & pcp & b2 & -> & Hty' & Hv & Hpcp & Hb2).
  cbn [mbind res_bind]. do 2 rd_step Hpkt.
  set (f := Flow _ _ _ _ (Ethernetaddr _) (Ethernetaddr _) _ _ _ _ _ _ _ _).
  assert (Hf : flow_ok f) by (split; done).
  repeat case_match.
  - destruct (parse_ip_ok b2 f Hb2 Hf) as (f' & -> & Hok & Hin & Hck & _). by exists f'.
  - destruct (parse_arp_ok b2 f Hb2 Hf) as (f' & -> & Hok & Hin & Hck & _). by exists f'.
  - by exists f.
Qed.

Lemma flow_of_packet_ok port ck :
  exists f, flow_of_packet port pkt ck = Ret f /\ flow_ok f /\ in_port f = port /\ cookie f = ck /\
    (m_size pkt < ETH_HEADER_LEN -> invalid f = true).
Proof using Hpkt.
  unfold flow_of_packet. destruct (parse_packet_ok port ck) as (f & -> & Hf & Hp & Hc).
  cbn [mbind res_bind]. destruct (Z.ltb_spec (m_size pkt) ETH_HEADER_LEN); eexists; (split; [done|]).
  - split_and!; [apply set_invalid_ok, Hf|done..].
  - split_and!; try done. lia.
Qed.
End parse_ok.

(** ** What the parser extracts from well-formed packets

    A reference encoding of Ethernet, VLAN, IPv4, ARP, TCP, UDP and ICMP
    headers, written from their formats, and the flow each packet yields. *)

(** ** Reference encodings *)

Inductive l4 : Type :=
| Tcp (sport dport : Z) (seq_ack : bytes) (ctl : Z) (rest : bytes)
| Udp (sport dport : Z) (rest : bytes)
| Icmp (type code : Z) (rest : bytes)
| Other (proto : Z) (rest : bytes).

Definition l4_proto (x : l4) : Z :=
  match x with
  | Tcp _ _ _ _ _ => 6 | Udp _ _ _ => 17 | Icmp _ _ _ => 1 | Other p _ => p
  end.

Definition l4_bytes (x : l4) : bytes :=
  match x with
  | Tcp s d sa ctl rest => to_be 2 s ++ to_be 2 d ++ sa ++ to_be 2 ctl ++ rest
  | Udp s d rest => to_be 2 s ++ to_be 2 d ++ rest
  | Icmp t c rest => [t; c] ++ rest
  | Other _ rest => rest
  end.

(** A TCP header has a data offset of at least five words and all of it is
    there; UDP and ICMP headers are complete. *)
Definition l4_wf (x : l4) : Prop :=
  match x with
  | Tcp s d sa ctl rest =>
      is_u16 s /\ is_u16 d /\ length sa = 8%nat /\ is_u16 ctl /\ 5 <= ctl / 2 ^ 12 /\
      ctl / 2 ^ 12 * 4 <= 14 + Z.of_nat (length rest)
  | Udp s d rest => is_u16 s /\ is_u16 d /\ (4 <= length rest)%nat
  | Icmp t c rest => is_u8 t /\ is_u8 c /\ (2 <= length rest)%nat
  | Other p _ => is_u8 p /\ p <> 6 /\ p <> 17 /\ p <> 1
  end.

(** The ports, or the ICMP type and code, in network order. *)
Definition l4_ports (x : l4) : Z * Z :=
  match x with
  | Tcp s d _ _ _ => (htons s, htons d)
  | Udp s d _ => (htons s, htons d)
  | Icmp t c _ => (htons t, htons c)
  | Other _ _ => (0, 0)
  end.

(** An IPv4 packet; [mid1] holds the total length and identification, [mid2]
    the checksum; [opts] are the IP options. *)
Record ip4 := Ip4 {
  ip_tos : Z; ip_mid1 : bytes; ip_frag : Z; ip_ttl : Z; ip_mid2 : bytes;
  ip_src : Z; ip_dst : Z; ip_opts : bytes; ip_payload : l4 }.

Definition ip_bytes (p : ip4) : bytes :=
  [0x40 + 5 + Z.of_nat (length (ip_opts p)) / 4; ip_tos p] ++ ip_mid1 p ++
  to_be 2 (ip_frag p) ++ [ip_ttl p; l4_proto (ip_payload p)] ++ ip_mid2 p ++
  to_be 4 (ip_src p) ++ to_be 4 (ip_dst p) ++ ip_opts p ++ l4_bytes (ip_payload p).

Definition ip_wf (p : ip4) : Prop :=
  is_u8 (ip_tos p) /\ length (ip_mid1 p) = 4%nat /\ is_u16 (ip_frag p) /\
  length (ip_mid2 p) = 2%nat /\ is_u32 (ip_src p) /\ is_u32 (ip_dst p) /\
  (exists k, length (ip_opts p) = 4 * k /\ k <= 10)%nat /\ l4_wf (ip_payload p).

(** More fragments, or a non-zero fragment offset. *)
Definition fragmented (p : ip4) : bool := negb (Z.land (ip_frag p) 0x3fff =? 0).

(** An ARP packet for IPv4 over Ethernet. *)
Record arp4 := Arp4 {
  arp_op : Z; arp_sha : bytes; arp_spa : Z; arp_tha : bytes; arp_tpa : Z }.

Definition arp_bytes (a : arp4) : bytes :=
  to_be 2 1 ++ to_be 2 ARP_PRO_IP ++ [6; 4] ++ to_be 2 (arp_op a) ++
  arp_sha a ++ to_be 4 (arp_spa a) ++ arp_tha a ++ to_be 4 (arp_tpa a).

Definition arp_wf (a : arp4) : Prop :=
  length (arp_sha a) = 6%nat /\ length (arp_tha a) = 6%nat /\ is_u16 (arp_op a) /\
  is_u32 (arp_spa a) /\ is_u32 (arp_tpa a).

(** An Ethernet II frame, with an optional 802.1Q tag. *)
Definition frame (dst src : bytes) (tag : option Z) (ty : Z) (payload : bytes) : bytes :=
  dst ++ src ++
  (match tag with Some tci => to_be 2 ETH_TYPE_VLAN ++ to_be 2 tci | None => [] end) ++
  to_be 2 ty ++ payload.

Definition tag_wf (tag : option Z) : Prop :=
  match tag with Some tci => is_u16 tci | None => True end.

Definition tag_vlan (tag : option Z) : Z :=
  match tag with Some tci => htons (Z.land tci 0xfff) | None => htons 0xffff end.

Definition tag_pcp (tag : option Z) : Z :=
  match tag with Some tci => tci / 2 ^ 13 | None => 0 end.

(** ** Reading at an offset of the packet *)

Section read.
Context (pkt : buffer).
Hypothesis Hpkt : buffer_ok pkt.

(** The rest of the packet from offset [k]. *)
Definition tail_at (k : nat) (bs : bytes) : Prop :=
  drop k (contents pkt) = bs /\ (k <= length (contents pkt))%nat.

(** The window that starts at offset [k]. *)
Definition win (k : nat) : buffer :=
  Buffer (base pkt) (m_data pkt + Z.of_nat k) (m_size pkt - Z.of_nat k).

Lemma win_0 : win 0 = pkt.
Proof using. clear Hpkt. unfold win. destruct pkt. simpl. f_equal; lia. Qed.

Lemma tail_size k bs : tail_at k bs -> m_size (win k) = Z.of_nat (length bs).
Proof using Hpkt.
  intros [<- Hk]. rewrite length_drop. pose proof (length_contents pkt Hpkt).
  destruct Hpkt. simpl. lia.
Qed.

Lemma tail_next k n bs l r : tail_at k bs -> bs = l ++ r -> length l = n -> tail_at (k + n) r.
Proof.
  intros [Hd Hk] -> <-. split.
  - by rewrite <- drop_drop_add, Hd, drop_app_length.
  - apply (f_equal length) in Hd. rewrite length_drop, length_app in Hd. lia.
Qed.

Lemma rd_at k off len bs pre x post :
  tail_at k bs -> bs = pre ++ x ++ post -> length pre = off -> length x = len ->
  rd pkt (m_data pkt + Z.of_nat k) (Z.of_nat off) len = Ret x.
Proof using Hpkt.
  intros Ht Hbs Hoff Hlen. pose proof (tail_size _ _ Ht) as Hs. destruct Ht as [Hd Hk].
  destruct Hpkt as [? ? ? ? ?]. simpl in Hs.
  rewrite Hbs, !length_app in Hs. unfold rd.
  rewrite (proj2 (Z.leb_le _ _)) by lia. rewrite (proj2 (Z.leb_le _ _)) by lia. simpl. f_equal.
  unfold contents, load in *.
  replace (Z.to_nat (m_data pkt + Z.of_nat k + Z.of_nat off))
    with (Z.to_nat (m_data pkt) + (k + off))%nat by lia.
  rewrite <- drop_drop_add. rewrite <- drop_drop_add.
  assert (Hx : take len (drop off (drop k (take (Z.to_nat (m_size pkt)) (drop (Z.to_nat (m_data pkt)) (base pkt))))) = x).
  { rewrite Hd, Hbs. subst off len. by rewrite drop_app_length, take_app_length. }
  rewrite !List.skipn_firstn_comm, take_take in Hx. rewrite <- Hx. f_equal. lia.
Qed.

Lemma rd_int_at k off len bs pre x post :
  tail_at k bs -> bs = pre ++ x ++ post -> length pre = off -> length x = len ->
  rd_int pkt (m_data pkt + Z.of_nat k) (Z.of_nat off) len = Ret (of_le x).
Proof using Hpkt. intros. unfold rd_int. by erewrite rd_at. Qed.

Lemma try_pull_at k n bs :
  tail_at k bs -> (n <= length bs)%nat ->
  try_pull (Z.of_nat n) (win k) = Ret (Some (m_data pkt + Z.of_nat k), win (k + n)).
Proof using Hpkt.
  intros Ht Hn. pose proof (tail_size _ _ Ht) as Hs. unfold try_pull, pull. rewrite Hs.
  rewrite (proj2 (Z.ltb_ge _ _)) by lia. rewrite (proj2 (Z.leb_le _ _)) by lia.
  simpl in *. unfold win. do 3 f_equal; lia.
Qed.

Lemma try_at_at k n bs :
  tail_at k bs -> (n <= length bs)%nat -> Z.of_nat n < 2 ^ 63 ->
  try_at 0 (Z.of_nat n) (win k) = Ret (Some (m_data pkt + Z.of_nat k)).
Proof using Hpkt.
  intros Ht Hn Hlt. pose proof (tail_size _ _ Ht) as Hs.
  unfold try_at, at_. rewrite Z.add_0_l, wrap_small by lia. rewrite Hs.
  rewrite (proj2 (Z.leb_le _ _)) by lia. simpl. do 2 f_equal. lia.
Qed.
End read.

(** ** Bits and byte order *)

Lemma htons_split x : htons x = (x `mod` 2 ^ 8) * 2 ^ 8 + (x `div` 2 ^ 8) `mod` 2 ^ 8.
Proof. unfold htons. cbn [to_le rev app of_le]. change (2 ^ 8) with 256. lia. Qed.

Lemma htons_testbit x i : 0 <= i ->
  Z.testbit (htons x) i =
    if decide (i < 8) then Z.testbit x (i + 8) else if decide (i < 16) then Z.testbit x (i - 8) else false.
Proof.
  intros Hi. rewrite htons_split, <- lor_disjoint by (try apply Z.mod_pos_bound; lia).
  rewrite Z.lor_spec. repeat case_decide.
  - rewrite Z.mul_pow2_bits_low by lia. rewrite Z.mod_pow2_bits_low by lia.
    by rewrite Z.div_pow2_bits by lia.
  - rewrite (Z.mod_pow2_bits_high (x `div` _)) by lia. rewrite orb_false_r.
    rewrite Z.mul_pow2_bits by lia. apply Z.mod_pow2_bits_low. lia.
  - rewrite (Z.mod_pow2_bits_high (x `div` _)) by lia. rewrite orb_false_r.
    rewrite Z.mul_pow2_bits by lia. apply Z.mod_pow2_bits_high. lia.
Qed.

Lemma htons_land x y : Z.land (htons x) (htons y) = htons (Z.land x y).
Proof.
  apply Z.bits_inj'. intros i Hi. rewrite Z.land_spec, !htons_testbit, !Z.land_spec by done.
  by repeat case_decide.
Qed.

Lemma htons_eq0 x : is_u16 x -> (htons x =? 0) = (x =? 0).
Proof.
  intros Hx. destruct (Z.eqb_spec x 0) as [->|Hne]; [done|]. apply Z.eqb_neq. intros H0.
  apply Hne. rewrite <- (ntohs_htons x Hx). by rewrite H0.
Qed.

Lemma htons_inj x y : is_u16 x -> is_u16 y -> (htons x =? htons y) = (x =? y).
Proof.
  intros Hx Hy. destruct (Z.eqb_spec x y) as [->|Hne]; [by rewrite Z.eqb_refl|].
  apply Z.eqb_neq. intros H. apply Hne. rewrite <- (ntohs_htons x Hx), H. by apply ntohs_htons.
Qed.

Lemma is_fragment_htons p : is_u16 (ip_frag p) -> is_fragment (htons (ip_frag p)) = fragmented p.
Proof.
  intros Hf. unfold is_fragment, fragmented. change (Z.lor 0x2000 0x1fff) with 0x3fff.
  rewrite htons_land, htons_eq0; [done|]. split; [apply Z.land_nonneg; lia|].
  change 0x3fff with (Z.ones 14). rewrite Z.land_ones by lia.
  pose proof (Z.mod_pos_bound (ip_frag p) (2 ^ 14)). lia.
Qed.

Lemma pcp_htons tci : is_u16 tci ->
  Z.shiftr (Z.land (ntohs (htons tci)) VLAN_PCP_MASK) VLAN_PCP_SHIFT = tci / 2 ^ 13.
Proof.
  intros Ht. rewrite ntohs_htons by done. unfold VLAN_PCP_SHIFT, VLAN_PCP_MASK.
  rewrite Z.shiftr_land. change (Z.shiftr 0xe000 13) with (Z.ones 3).
  rewrite Z.land_ones, Z.shiftr_div_pow2 by lia. destruct Ht as [? Ht]. apply Z.mod_small.
  split; [apply Z.div_pos; lia|]. apply Z.div_lt_upper_bound; lia.
Qed.

Lemma ihl_value (k : nat) : (k <= 10)%nat -> IP_IHL (0x40 + 5 + Z.of_nat (4 * k) / 4) = 5 + Z.of_nat k.
Proof.
  intros Hk. unfold IP_IHL. change 15 with (Z.ones 4). rewrite Z.land_ones by lia.
  replace (Z.of_nat (4 * k)) with (Z.of_nat k * 4) by lia. rewrite Z.div_mul by lia.
  replace (0x40 + 5 + Z.of_nat k) with (5 + Z.of_nat k + 4 * 2 ^ 4) by lia.
  rewrite Z.mod_add by lia. apply Z.mod_small. lia.
Qed.

Lemma tcp_offset_htons ctl : is_u16 ctl -> TCP_OFFSET (htons ctl) = ctl / 2 ^ 12.
Proof.
  intros Hc. unfold TCP_OFFSET. change (htons (htons ctl)) with (ntohs (htons ctl)).
  rewrite ntohs_htons by done. by rewrite Z.shiftr_div_pow2.
Qed.

(** ** Parsing an encoded packet *)

Lemma of_le_be n x : of_le (to_be n x) = of_le (rev (to_le n x)).
Proof. done. Qed.

Lemma of_le_one x : of_le [x] = x.
Proof. simpl. lia. Qed.

(** Lengths of encodings. *)
Ltac lens := repeat first [rewrite length_app | rewrite length_to_be | progress cbn [length app]].

Section parse.
Context (pkt : buffer).
Hypothesis Hpkt : buffer_ok pkt.

(** Reads the field at [off] of a header whose bytes are known. *)
Lemma rd_field k (off : Z) len bs pre x post :
  tail_at pkt k bs -> bs = pre ++ x ++ post -> Z.of_nat (length pre) = off -> length x = len ->
  rd_int pkt (m_data pkt + Z.of_nat k) off len = Ret (of_le x).
Proof using Hpkt. intros ? ? <- ?. by eapply rd_int_at. Qed.

Lemma rd_bytes_field k (off : Z) len bs pre x post :
  tail_at pkt k bs -> bs = pre ++ x ++ post -> Z.of_nat (length pre) = off -> length x = len ->
  rd pkt (m_data pkt + Z.of_nat k) off len = Ret x.
Proof using Hpkt. intros ? ? <- ?. by eapply rd_at. Qed.

Lemma parse_l4_at k x pad f :
  tail_at pkt k (l4_bytes x ++ pad) -> l4_wf x -> nw_proto f = l4_proto x ->
  tp_src f = 0 -> tp_dst f = 0 ->
  parse_l4 pkt (win pkt k) f = Ret (set_tp (fst (l4_ports x)) (snd (l4_ports x)) f).
Proof using Hpkt.
  intros Ht Hwf Hproto Hs Hd. unfold parse_l4. rewrite Hproto.
  destruct x as [s d sa ctl rest|s d rest|ty c rest|p rest]; cbn [l4_bytes l4_proto l4_ports fst snd] in *.
  - destruct Hwf as (Hs16 & Hd16 & Hsa & Hctl & Hoff & Hlen). cbn [Z.eqb Pos.eqb PROTO_TCP].
    rewrite <- !app_assoc in Ht.
    assert (Hlenb : (22 + length rest <= length (to_be 2 s ++ to_be 2 d ++ sa ++ to_be 2 ctl ++ rest ++ pad) + 8)%nat).
    { rewrite !length_app, !length_to_be. lia. }
    unfold pull_tcp. change TCP_HEADER_LEN with (Z.of_nat 20). assert (0 <= ctl / 2 ^ 12 < 16).
    { destruct Hctl. split; [lia|]. apply Z.div_lt_upper_bound; lia. }
    rewrite (try_at_at pkt Hpkt k 20 _ Ht); [|rewrite !length_app, !length_to_be; lia|simpl; lia].
    cbn [mbind res_bind].
    rewrite (rd_field k 12 2 _ (to_be 2 s ++ to_be 2 d ++ sa) (to_be 2 ctl) (rest ++ pad) Ht);
      [|by rewrite <- !app_assoc|by rewrite !length_app, !length_to_be, Hsa|done].
    cbn [mbind res_bind]. change (of_le (to_be 2 ctl)) with (htons ctl).
    rewrite tcp_offset_htons by done.
    rewrite (proj2 (Z.leb_le _ _)) by lia.
    rewrite <- (Z2Nat.id (ctl / 2 ^ 12 * 4)) by lia.
    rewrite (try_pull_at pkt Hpkt k _ _ Ht) by (rewrite !length_app, !length_to_be; lia).
    cbn [mbind res_bind].
    rewrite (rd_field k 0 2 _ [] (to_be 2 s) (to_be 2 d ++ sa ++ to_be 2 ctl ++ rest ++ pad) Ht) by done.
    rewrite (rd_field k 2 2 _ (to_be 2 s) (to_be 2 d) (sa ++ to_be 2 ctl ++ rest ++ pad) Ht) by done.
    done.
  - destruct Hwf as (Hs16 & Hd16 & Hlen). cbn [Z.eqb Pos.eqb PROTO_TCP PROTO_UDP]. rewrite <- !app_assoc in Ht.
    unfold pull_udp. change UDP_HEADER_LEN with (Z.of_nat 8).
    rewrite (try_pull_at pkt Hpkt k _ _ Ht) by (rewrite !length_app, !length_to_be; lia).
    cbn [mbind res_bind].
    rewrite (rd_field k 0 2 _ [] (to_be 2 s) (to_be 2 d ++ rest ++ pad) Ht) by done.
    rewrite (rd_field k 2 2 _ (to_be 2 s) (to_be 2 d) (rest ++ pad) Ht) by done.
    done.
  - destruct Hwf as (Ht8 & Hc8 & Hlen). cbn [Z.eqb Pos.eqb PROTO_TCP PROTO_UDP PROTO_ICMP]. cbn [app] in Ht.
    unfold pull_icmp. change ICMP_HEADER_LEN with (Z.of_nat 4).
    rewrite (try_pull_at pkt Hpkt k _ _ Ht) by (simpl; rewrite !length_app; lia).
    cbn [mbind res_bind].
    rewrite (rd_field k 0 1 _ [] [ty] (c :: rest ++ pad) Ht) by done.
    rewrite (rd_field k 1 1 _ [ty] [c] (rest ++ pad) Ht) by done.
    cbn [mbind res_bind]. by rewrite !of_le_one.
  - destruct Hwf as (_ & H6 & H17 & H1).
    rewrite (proj2 (Z.eqb_neq p PROTO_TCP) H6), (proj2 (Z.eqb_neq p PROTO_UDP) H17),
      (proj2 (Z.eqb_neq p PROTO_ICMP) H1). destruct f. simpl in *. by subst.
Qed.

(** The flow fields an IP packet contributes. *)
Definition with_ip (p : ip4) (f : flow) : flow :=
  let ports := if fragmented p then (0, 0) else l4_ports (ip_payload p) in
  set_tp (fst ports) (snd ports)
    (set_nw (htonl (ip_src p)) (htonl (ip_dst p)) (l4_proto (ip_payload p)) (ip_tos p) f).

Lemma parse_ip_at k p pad f :
  tail_at pkt k (ip_bytes p ++ pad) -> ip_wf p -> tp_src f = 0 -> tp_dst f = 0 ->
  parse_ip pkt (win pkt k) f = Ret (with_ip p f).
Proof using Hpkt.
  intros Ht (Htos & Hm1 & Hfrag & Hm2 & Hsrc & Hdst & (j & Hopts & Hj) & Hl4) Hs Hd.
  unfold ip_bytes in Ht. rewrite Hopts in Ht. rewrite <- !app_assoc in Ht. cbn [app] in Ht.
  set (vh := 0x40 + 5 + Z.of_nat (4 * j) / 4) in *.
  set (tl := ip_opts p ++ l4_bytes (ip_payload p) ++ pad) in *.
  unfold parse_ip, pull_ip. change IP_HEADER_LEN with (Z.of_nat 20).
  rewrite (try_at_at pkt Hpkt k 20 _ Ht)
    by (lens; lia).
  cbn [mbind res_bind].
  rewrite (rd_field k 0 1 _ [] [vh] _ Ht) by done. cbn [mbind res_bind].
  rewrite of_le_one. subst vh. rewrite ihl_value by done.
  rewrite (proj2 (Z.leb_le _ _)) by lia.
  replace ((5 + Z.of_nat j) * 4) with (Z.of_nat (20 + 4 * j)) by lia.
  rewrite (try_pull_at pkt Hpkt k (20 + 4 * j) _ Ht).
  2: { subst tl. lens. lia. }
  cbn [mbind res_bind]. set (vh := 0x40 + 5 + Z.of_nat (4 * j) / 4) in *.
  set (m2 := ip_mid2 p) in *. set (m1 := ip_mid1 p) in *. set (pr := l4_proto (ip_payload p)) in *.
  rewrite (rd_field k 12 4 _ (vh :: ip_tos p :: m1 ++ to_be 2 (ip_frag p) ++ ip_ttl p :: pr :: m2)
    (to_be 4 (ip_src p)) (to_be 4 (ip_dst p) ++ tl) Ht);
    [|by cbn [app]; rewrite <- !app_assoc|subst m1 m2; lens; lia|done].
  rewrite (rd_field k 16 4 _ (vh :: ip_tos p :: m1 ++ to_be 2 (ip_frag p) ++ ip_ttl p :: pr :: m2 ++ to_be 4 (ip_src p))
    (to_be 4 (ip_dst p)) tl Ht);
    [|by cbn [app]; rewrite <- !app_assoc; cbn [app]; rewrite <- ?app_assoc
     |subst m1 m2; lens; lia|done].
  rewrite (rd_field k 9 1 _ (vh :: ip_tos p :: m1 ++ to_be 2 (ip_frag p) ++ [ip_ttl p])
    [pr] (m2 ++ to_be 4 (ip_src p) ++ to_be 4 (ip_dst p) ++ tl) Ht);
    [|by cbn [app]; rewrite <- !app_assoc|subst m1; lens; lia|done].
  rewrite (rd_field k 1 1 _ [vh] [ip_tos p] (m1 ++ to_be 2 (ip_frag p) ++ ip_ttl p :: pr :: m2 ++
    to_be 4 (ip_src p) ++ to_be 4 (ip_dst p) ++ tl) Ht) by done.
  rewrite (rd_field k 6 2 _ (vh :: ip_tos p :: m1) (to_be 2 (ip_frag p)) (ip_ttl p :: pr :: m2 ++
    to_be 4 (ip_src p) ++ to_be 4 (ip_dst p) ++ tl) Ht); [|done|subst m1; lens; lia|done].
  cbn [mbind res_bind]. rewrite !of_le_one.
  change (of_le (to_be 2 (ip_frag p))) with (htons (ip_frag p)).
  change (of_le (to_be 4 (ip_src p))) with (htonl (ip_src p)).
  change (of_le (to_be 4 (ip_dst p))) with (htonl (ip_dst p)).
  rewrite is_fragment_htons by done. unfold with_ip. destruct (fragmented p).
  { destruct f. simpl in *. by subst. }
  eapply (parse_l4_at (k + (20 + 4 * j))%nat _ pad); try done.
  eapply (tail_next pkt k (20 + 4 * j) _
    (vh :: ip_tos p :: m1 ++ to_be 2 (ip_frag p) ++ ip_ttl p :: pr :: m2 ++ to_be 4 (ip_src p) ++
     to_be 4 (ip_dst p) ++ ip_opts p)); [exact Ht| |].
  - subst tl. cbn [app]. rewrite <- !app_assoc. cbn [app]. by rewrite <- !app_assoc.
  - subst m1 m2. lens. lia.
Qed.

(** *** ARP *)

Lemma parse_arp_at k (a : arp4) pad f :
  tail_at pkt k (arp_bytes a ++ pad) -> arp_wf a ->
  parse_arp pkt (win pkt k) f =
    Ret (set_nw (htonl (arp_spa a)) (htonl (arp_tpa a)) (arp_op a `mod` 256) (nw_tos f) f).
Proof using Hpkt.
  intros Ht (Hsha & Htha & Hop & Hs & Hd). unfold arp_bytes in Ht. rewrite <- !app_assoc in Ht.
  cbn [app] in Ht. unfold parse_arp, pull_arp. change ARP_ETH_HEADER_LEN with (Z.of_nat 28).
  rewrite (tail_size pkt Hpkt _ _ Ht).
  rewrite (proj2 (Z.leb_le _ _)) by (lens; lia).
  rewrite (try_pull_at pkt Hpkt k 28 _ Ht) by (lens; lia). cbn [mbind res_bind].
  set (h := to_be 2 1 ++ to_be 2 ARP_PRO_IP ++ [6; 4] ++ to_be 2 (arp_op a)) in *.
  rewrite (rd_field k 2 2 _ (to_be 2 1) (to_be 2 ARP_PRO_IP) (6 :: 4 :: to_be 2 (arp_op a) ++
    arp_sha a ++ to_be 4 (arp_spa a) ++ arp_tha a ++ to_be 4 (arp_tpa a) ++ pad) Ht) by done.
  rewrite (rd_field k 5 1 _ (to_be 2 1 ++ to_be 2 ARP_PRO_IP ++ [6]) [4] (to_be 2 (arp_op a) ++
    arp_sha a ++ to_be 4 (arp_spa a) ++ arp_tha a ++ to_be 4 (arp_tpa a) ++ pad) Ht) by done.
  rewrite (rd_field k 6 2 _ (to_be 2 1 ++ to_be 2 ARP_PRO_IP ++ [6; 4]) (to_be 2 (arp_op a))
    (arp_sha a ++ to_be 4 (arp_spa a) ++ arp_tha a ++ to_be 4 (arp_tpa a) ++ pad) Ht) by done.
  rewrite (rd_field k 14 4 _ (h ++ arp_sha a) (to_be 4 (arp_spa a))
    (arp_tha a ++ to_be 4 (arp_tpa a) ++ pad) Ht);
    [|subst h; by rewrite <- !app_assoc|subst h; lens; lia|done].
  rewrite (rd_field k 24 4 _ (h ++ arp_sha a ++ to_be 4 (arp_spa a) ++ arp_tha a) (to_be 4 (arp_tpa a)) pad Ht);
    [|subst h; by rewrite <- !app_assoc|subst h; lens; lia|done].
  cbn [mbind res_bind]. change (of_le (to_be 2 ARP_PRO_IP) =? htons ARP_PRO_IP) with true.
  change (of_le [4] =? IP_ADDR_LEN) with true. cbn [andb].
  change (of_le (to_be 2 (arp_op a))) with (htons (arp_op a)). rewrite ntohs_htons by done.
  change 0xff with (Z.ones 8). by rewrite Z.land_ones by lia.
Qed.

(** *** Ethernet and VLAN headers *)

Lemma parse_frame port ck dst src tag ty payload :
  contents pkt = frame dst src tag ty payload -> length dst = 6%nat -> length src = 6%nat ->
  tag_wf tag -> ETH2_CUTOFF <= ty < 2 ^ 16 -> ty <> ETH_TYPE_VLAN ->
  let f := Flow false port (tag_vlan tag) (tag_pcp tag) (Ethernetaddr src) (Ethernetaddr dst)
             (htons ty) 0 0 0 0 0 0 ck in
  exists k, tail_at pkt k payload /\
    flow_of_packet port pkt ck =
      if ty =? ETH_TYPE_IP then parse_ip pkt (win pkt k) f
      else if ty =? ETH_TYPE_ARP then parse_arp pkt (win pkt k) f else Ret f.
Proof using Hpkt.
  intros Hc Hdst Hsrc Htag Hty Hnv f. unfold ETH2_CUTOFF in Hty.
  assert (H0 : tail_at pkt 0 (frame dst src tag ty payload)) by (split; [done|lia]).
  assert (Hu : is_u16 ty) by (split; lia).
  assert (Hsz : m_size pkt = Z.of_nat (length (frame dst src tag ty payload))).
  { rewrite <- (tail_size pkt Hpkt _ _ H0). by rewrite win_0. }
  unfold flow_of_packet, parse_packet, pull_eth. change ETH_HEADER_LEN with (Z.of_nat 14).
  unfold frame in *. set (r0 := match tag with Some tci => _ | None => _ end) in *.
  assert (Hge : (14 <= length (dst ++ src ++ r0 ++ to_be 2 ty ++ payload))%nat) by (lens; lia).
  rewrite (proj2 (Z.ltb_ge _ _)) by lia.
  pose proof (try_pull_at pkt Hpkt 0 14 _ H0 Hge) as Hpull. rewrite win_0 in Hpull. rewrite Hpull.
  change (win pkt (0 + 14)) with (win pkt 14).
  cbn [mbind res_bind]. unfold parse_type.
  rewrite (rd_bytes_field 0 6 6 _ dst src (r0 ++ to_be 2 ty ++ payload) H0)
    by (done || by rewrite Hdst).
  rewrite (rd_bytes_field 0 0 6 _ [] dst (src ++ r0 ++ to_be 2 ty ++ payload) H0) by done.
  destruct tag as [tci|]; subst r0.
  - rewrite <- !app_assoc in *.
    rewrite (rd_field 0 12 2 _ (dst ++ src) (to_be 2 ETH_TYPE_VLAN) (to_be 2 tci ++ to_be 2 ty ++ payload) H0)
      by (done || (lens; lia) || by rewrite <- !app_assoc).
    cbn [mbind res_bind]. change (of_le (to_be 2 ETH_TYPE_VLAN)) with (htons ETH_TYPE_VLAN).
    change (ETH2_CUTOFF <=? ntohs (htons ETH_TYPE_VLAN)) with true. cbn [mbind res_bind].
    assert (H14 : tail_at pkt 14 (to_be 2 tci ++ to_be 2 ty ++ payload)).
    { apply (tail_next pkt 0 14 _ (dst ++ src ++ to_be 2 ETH_TYPE_VLAN) _ H0);
        [by rewrite <- !app_assoc|lens; lia]. }
    unfold parse_vlan, pull_vlan. rewrite Z.eqb_refl. change VLAN_HEADER_LEN with (Z.of_nat 4).
    rewrite (try_pull_at pkt Hpkt 14 4 _ H14) by (lens; lia). cbn [mbind res_bind].
    rewrite (rd_field 14 0 2 _ [] (to_be 2 tci) (to_be 2 ty ++ payload) H14) by done.
    rewrite (rd_field 14 2 2 _ (to_be 2 tci) (to_be 2 ty) payload H14) by done.
    cbn [mbind res_bind]. change (of_le (to_be 2 tci)) with (htons tci).
    change (of_le (to_be 2 ty)) with (htons ty). rewrite pcp_htons, htons_land by done.
    rewrite !htons_inj by done. exists 18%nat. split.
    { apply (tail_next pkt 14 4 _ (to_be 2 tci ++ to_be 2 ty) _ H14); [by rewrite <- !app_assoc|done]. }
    fold f. destruct (ty =? ETH_TYPE_IP); [by destruct (parse_ip _ _ _)|].
    destruct (ty =? ETH_TYPE_ARP); [by destruct (parse_arp _ _ _)|done].
  - cbn [app] in *.
    rewrite (rd_field 0 12 2 _ (dst ++ src) (to_be 2 ty) payload H0)
      by (done || (lens; lia) || by rewrite <- !app_assoc).
    cbn [mbind res_bind]. change (of_le (to_be 2 ty)) with (htons ty).
    rewrite ntohs_htons by done. unfold ETH2_CUTOFF. rewrite (proj2 (Z.leb_le _ _)) by lia.
    cbn [mbind res_bind]. unfold parse_vlan. rewrite htons_inj by done.
    rewrite (proj2 (Z.eqb_neq _ _)) by done. cbn [mbind res_bind]. rewrite !htons_inj by done.
    exists 14%nat. split.
    { apply (tail_next pkt 0 14 _ (dst ++ src ++ to_be 2 ty) _ H0); [by rewrite <- !app_assoc|lens; lia]. }
    fold f. destruct (ty =? ETH_TYPE_IP); [by destruct (parse_ip _ _ _)|].
    destruct (ty =? ETH_TYPE_ARP); [by destruct (parse_arp _ _ _)|done].
Qed.
End parse.
