(* ===== verification/OfpWire.v ===== *)
(** * Packing and unpacking OpenFlow structures: the shared machinery

    openflow-pack-raw.cc gives every [ofp_*] structure a wrapper class with
    [pack], [unpack], [operator=], [operator==] and two constructors.  A
    wrapper is modelled by a record, [pack] by the stores it performs on the
    bytes at [buffer], [unpack] by the loads.  The interface [Message] states
    what the wrappers promise, against the reference encoding [wire]: the
    fields in declaration order, integers in network order. *)

From S2P Require Import Prelude Bytes.

Open Scope Z_scope.

(** ** C statements on a structure in memory *)

(** An element of a [uint8_t] array. *)
Definition arr (a : bytes) (i : nat) : Z := nth i a 0.

(** [buffer->f = x] and [x = buffer->f] for a field at an offset. *)
Definition put8 (off : nat) (x : Z) (b : bytes) : bytes := store off [x] b.
Definition put16 (off : nat) (x : Z) (b : bytes) : bytes := store off (to_le 2 x) b.
Definition put32 (off : nat) (x : Z) (b : bytes) : bytes := store off (to_le 4 x) b.
Definition put64 (off : nat) (x : Z) (b : bytes) : bytes := store off (to_le 8 x) b.

Definition get8 (off : nat) (b : bytes) : Z := of_le (load off 1 b).
Definition get16 (off : nat) (b : bytes) : Z := of_le (load off 2 b).
Definition get32 (off : nat) (b : bytes) : Z := of_le (load off 4 b).
Definition get64 (off : nat) (b : bytes) : Z := of_le (load off 8 b).

(** The characters of a C string: those before the first NUL. *)
Fixpoint until_nul (s : bytes) : bytes :=
  match s with
  | [] => []
  | c :: s' => if c =? 0 then [] else c :: until_nul s'
  end.

(** [strncpy(buffer->f, s, n)]: always [n] bytes, padded with NULs. *)
Definition strncpy (n : nat) (s : bytes) : bytes :=
  take n (until_nul s) ++ replicate (n - length (until_nul s)) 0.
Definition put_strncpy (off n : nat) (s b : bytes) : bytes := store off (strncpy n s) b.

(** [name.assign(buffer->f)]: reads to the first NUL, wherever it is; [None]
    when memory ends before one is found. *)
Fixpoint read_cstr (b : bytes) : option bytes :=
  match b with
  | [] => None
  | c :: b' => if c =? 0 then Some [] else s ← read_cstr b'; Some (c :: s)
  end.

(** [f.pack(&buffer->f)] for a field at an offset. *)
Definition pack_at {T : Type} (pack : T -> bytes -> bytes) (off : nat) (x : T) (b : bytes) : bytes :=
  take off b ++ pack x (drop off b).

(** ** The reference encoding *)

(** A string in a field of [n] characters: cut to [n - 1], NUL-padded. *)
Definition fixed_string (n : nat) (s : bytes) : bytes :=
  let s' := take (n - 1) (until_nul s) in s' ++ replicate (n - length s') 0.

Definition is_array (n : nat) (a : bytes) : Prop := length a = n /\ is_bytes a.
Definition is_name (n : nat) (s : bytes) : Prop :=
  (length s < n)%nat /\ Forall (fun c => c <> 0) s.

(** ** What a wrapper class promises *)

Class Message (T : Type) := {
  msg_size : nat;
  msg_shape : T -> Prop;
  msg_wf : T -> Prop;
  msg_wire : T -> bytes;
  msg_pack : T -> bytes -> bytes;
  msg_unpack : bytes -> option T;
  msg_assign : T -> T -> T;
  msg_eqb : T -> T -> bool
}.

Class MessageLaws (T : Type) `{Message T} := {
  msg_wf_shape m : msg_wf m -> msg_shape m;
  msg_wire_length m : msg_shape m -> length (msg_wire m) = msg_size;
  msg_pack_wire m b :
    msg_shape m -> (msg_size <= length b)%nat -> msg_pack m b = msg_wire m ++ drop msg_size b;
  msg_unpack_wire m rest : msg_wf m -> msg_unpack (msg_wire m ++ rest) = Some m;
  msg_assign_copies m p : msg_shape p -> msg_assign m p = p;
  msg_eqb_eq m p : msg_shape m -> msg_shape p -> msg_eqb m p = true <-> m = p
}.

(** ** Lemmas the laws of every wrapper come from *)

(** The first [k] bytes of [b] have been written with [pre]. *)
Definition written (b0 : bytes) (k : nat) (pre b : bytes) : Prop :=
  length pre = k /\ b = pre ++ drop k b0.

Lemma written_start b0 : written b0 0 [] b0.
Proof. done. Qed.

Lemma written_store b0 (k K : nat) pre b bs :
  written b0 k pre b -> K = (k + length bs)%nat -> (K <= length b0)%nat ->
  written b0 K (pre ++ bs) (store k bs b).
Proof.
  intros [Hk ->] -> Hle. split; [rewrite length_app; lia|]. unfold store.
  rewrite take_app_le, firstn_all2 by lia. rewrite drop_app_ge by lia.
  rewrite drop_drop_add, <- app_assoc. repeat f_equal. lia.
Qed.

Lemma written_put8 b0 (k K : nat) pre b x :
  written b0 k pre b -> K = (k + 1)%nat -> (K <= length b0)%nat ->
  written b0 K (pre ++ [x]) (put8 k x b).
Proof. intros. by apply written_store. Qed.

Lemma written_put16 b0 (k K : nat) pre b x :
  written b0 k pre b -> K = (k + 2)%nat -> (K <= length b0)%nat ->
  written b0 K (pre ++ to_be 2 x) (put16 k (htons x) b).
Proof. intros. unfold put16. rewrite htons_bytes. by apply written_store; rewrite ?length_to_be. Qed.

Lemma written_put32 b0 (k K : nat) pre b x :
  written b0 k pre b -> K = (k + 4)%nat -> (K <= length b0)%nat ->
  written b0 K (pre ++ to_be 4 x) (put32 k (htonl x) b).
Proof. intros. unfold put32. rewrite htonl_bytes. by apply written_store; rewrite ?length_to_be. Qed.

Lemma written_put64 b0 (k K : nat) pre b x :
  written b0 k pre b -> K = (k + 8)%nat -> (K <= length b0)%nat ->
  written b0 K (pre ++ to_be 8 x) (put64 k (htonll x) b).
Proof. intros. unfold put64. rewrite htonll_bytes. by apply written_store; rewrite ?length_to_be. Qed.

Lemma length_strncpy n s : length (strncpy n s) = n.
Proof. unfold strncpy. rewrite length_app, length_take, length_replicate. lia. Qed.

Lemma strncpy_fixed n s : strncpy n s ++ [0] = fixed_string (S n) s.
Proof.
  unfold strncpy, fixed_string. simpl. rewrite Nat.sub_0_r, <- app_assoc. f_equal.
  rewrite length_take. change [0] with (replicate 1 0). rewrite <- replicate_add. f_equal. lia.
Qed.

Lemma length_fixed_string n s : length (fixed_string (S n) s) = S n.
Proof. rewrite <- strncpy_fixed, length_app, length_strncpy. simpl. lia. Qed.

(** [strncpy] to the last but one character, then the terminating NUL. *)
Lemma written_string b0 (k K j n : nat) pre b s :
  written b0 k pre b -> j = (k + n)%nat -> K = (k + S n)%nat -> (K <= length b0)%nat ->
  written b0 K (pre ++ fixed_string (S n) s) (put8 j 0 (put_strncpy k n s b)).
Proof.
  intros Hw -> -> Hle. rewrite <- strncpy_fixed, app_assoc. unfold put8, put_strncpy.
  apply written_store; [|simpl; lia|lia].
  apply written_store; [done|by rewrite length_strncpy|lia].
Qed.

Lemma written_sub {T} `{MessageLaws T} b0 (k K : nat) pre b (x : T) :
  written b0 k pre b -> K = (k + msg_size)%nat -> (K <= length b0)%nat -> msg_shape x ->
  written b0 K (pre ++ msg_wire x) (pack_at msg_pack k x b).
Proof.
  intros [Hk ->] -> Hle Hx. split; [rewrite length_app, (msg_wire_length x Hx); lia|].
  unfold pack_at. rewrite take_app_le, firstn_all2, drop_app_ge by lia.
  replace (k - length pre)%nat with 0%nat by lia. rewrite drop_0.
  rewrite msg_pack_wire by (done || rewrite length_drop; lia).
  rewrite drop_drop_add, <- app_assoc. repeat f_equal. 
Qed.

(** Reading field after field: what is left of memory at each offset. *)
Lemma load_next (b c r : bytes) (k n K : nat) :
  drop k b = c ++ r -> length c = n -> K = (k + n)%nat -> load k n b = c /\ drop K b = r.
Proof.
  intros Hd <- ->. unfold load. rewrite Hd, take_app_length. split; [done|].
  rewrite <- drop_drop_add, Hd. by rewrite drop_app_length.
Qed.

Lemma next8 (b r : bytes) (k K : nat) x :
  drop k b = x :: r -> K = S k -> get8 k b = x /\ drop K b = r.
Proof.
  intros Hd HK. destruct (load_next b [x] r k 1 K) as [H1 H2]; [done|done|lia|].
  split; [|done]. unfold get8. rewrite H1. simpl. lia.
Qed.

Lemma next16 (b r : bytes) (k K : nat) x :
  drop k b = to_be 2 x ++ r -> K = (k + 2)%nat -> is_u16 x ->
  ntohs (get16 k b) = x /\ drop K b = r.
Proof.
  intros Hd HK Hx. destruct (load_next b _ r k 2 K Hd) as [H1 H2]; [apply length_to_be|done|].
  split; [|done]. unfold get16. rewrite H1, ntohs_be by (apply length_to_be || apply to_be_bytes).
  by apply of_be_to_be.
Qed.

Lemma next32 (b r : bytes) (k K : nat) x :
  drop k b = to_be 4 x ++ r -> K = (k + 4)%nat -> is_u32 x ->
  ntohl (get32 k b) = x /\ drop K b = r.
Proof.
  intros Hd HK Hx. destruct (load_next b _ r k 4 K Hd) as [H1 H2]; [apply length_to_be|done|].
  split; [|done]. unfold get32. rewrite H1, ntohl_be by (apply length_to_be || apply to_be_bytes).
  by apply of_be_to_be.
Qed.

Lemma next64 (b r : bytes) (k K : nat) x :
  drop k b = to_be 8 x ++ r -> K = (k + 8)%nat -> is_u64 x ->
  ntohll (get64 k b) = x /\ drop K b = r.
Proof.
  intros Hd HK Hx. destruct (load_next b _ r k 8 K Hd) as [H1 H2]; [apply length_to_be|done|].
  split; [|done]. unfold get64. rewrite H1, ntohll_be by (apply length_to_be || apply to_be_bytes).
  by apply of_be_to_be.
Qed.

Lemma until_nul_id s : Forall (fun c => c <> 0) s -> until_nul s = s.
Proof.
  induction 1 as [|c s Hc _ IH]; simpl; [done|]. destruct (Z.eqb_spec c 0); [done|by rewrite IH].
Qed.

Lemma read_cstr_app s r : Forall (fun c => c <> 0) s -> read_cstr (s ++ 0 :: r) = Some s.
Proof.
  induction 1 as [|c s Hc _ IH]; simpl; [done|]. destruct (Z.eqb_spec c 0); [done|by rewrite IH].
Qed.

Lemma next_string (b r : bytes) (k K n : nat) s :
  drop k b = fixed_string (S n) s ++ r -> K = (k + S n)%nat -> is_name (S n) s ->
  read_cstr (drop k b) = Some s /\ drop K b = r.
Proof.
  intros Hd HK [Hn Hs]. destruct (load_next b _ r k (S n) K Hd) as [H1 H2];
    [apply length_fixed_string|done|]. split; [|done]. rewrite Hd. unfold fixed_string.
  simpl. rewrite Nat.sub_0_r, until_nul_id by done. rewrite firstn_all2 by lia.
  destruct (S n - length s)%nat eqn:E; [lia|]. cbn [replicate]. rewrite <- app_assoc. simpl.
  by apply read_cstr_app.
Qed.

Lemma next_sub {T} `{MessageLaws T} (b r : bytes) (k K : nat) (x : T) :
  drop k b = msg_wire x ++ r -> K = (k + msg_size)%nat -> msg_wf x ->
  msg_unpack (drop k b) = Some x /\ drop K b = r.
Proof.
  intros Hd HK Hx. destruct (load_next b _ r k msg_size K Hd) as [H1 H2];
    [by apply msg_wire_length, msg_wf_shape|done|]. split; [|done]. rewrite Hd.
  by apply msg_unpack_wire.
Qed.

Lemma written_eq b0 (k : nat) pre w b : written b0 k pre b -> pre = w -> b = w ++ drop k b0.
Proof. by intros [_ ->] ->. Qed.

(** ** Proof automation for the wrappers *)

(** Arrays of known length, cell by cell. *)
Ltac explode_list a Hlen :=
  lazymatch type of Hlen with
  | _ = 0%nat => destruct a; [clear Hlen|discriminate Hlen]
  | _ = S _ => destruct a as [|? a]; [discriminate Hlen|]; apply Nat.succ_inj in Hlen; explode_list a Hlen
  end.

Ltac explode_arrays :=
  repeat match goal with
  | H : is_array _ ?a |- _ =>
      let Hlen := fresh "Hlen" in destruct H as [Hlen _]; explode_list a Hlen
  end.

Ltac written_step :=
  lazymatch goal with
  | |- written _ _ _ (put16 _ _ _) => eapply written_put16; [|reflexivity|lia]
  | |- written _ _ _ (put32 _ _ _) => eapply written_put32; [|reflexivity|lia]
  | |- written _ _ _ (put64 _ _ _) => eapply written_put64; [|reflexivity|lia]
  | |- written _ _ _ (put8 _ 0 (put_strncpy _ _ _ _)) =>
      eapply written_string; [|reflexivity|reflexivity|lia]
  | |- written _ _ _ (put8 _ _ _) => eapply written_put8; [|reflexivity|lia]
  | |- written _ _ _ (pack_at _ _ _ _) => eapply written_sub; [|reflexivity|lia|assumption]
  end.

Ltac solve_pack :=
  eapply written_eq; [repeat written_step; apply written_start|];
  cbn [arr nth]; rewrite <- ?app_assoc; reflexivity.

Ltac take_field H lem :=
  let E := fresh "E" in let H' := fresh "H" in
  destruct lem as [E H']; rewrite ?E; clear E H.

Ltac next_step :=
  match goal with
  | H : drop ?k ?b = to_be 2 ?x ++ ?r |- _ =>
      let K := eval cbv in (k + 2)%nat in take_field H (next16 b r k K x H eq_refl ltac:(assumption))
  | H : drop ?k ?b = to_be 4 ?x ++ ?r |- _ =>
      let K := eval cbv in (k + 4)%nat in take_field H (next32 b r k K x H eq_refl ltac:(assumption))
  | H : drop ?k ?b = to_be 8 ?x ++ ?r |- _ =>
      let K := eval cbv in (k + 8)%nat in take_field H (next64 b r k K x H eq_refl ltac:(assumption))
  | H : drop ?k ?b = fixed_string (S ?n) ?s ++ ?r |- _ =>
      let K := eval cbv in (k + S n)%nat in take_field H (next_string b r k K n s H eq_refl ltac:(assumption))
  | H : drop ?k ?b = msg_wire (T := ?T) ?x ++ ?r |- _ =>
      let K := eval cbv in (k + msg_size (T := T))%nat in
      take_field H (next_sub b r k K x H eq_refl ltac:(assumption))
  | H : drop ?k ?b = ?x :: ?r |- _ =>
      let K := eval cbv in (S k) in take_field H (next8 b r k K x H eq_refl)
  end.

(** The goal is [unpack b = Some m] with [drop 0 b] known. *)
Ltac solve_unpack :=
  rewrite <- ?app_assoc in *; cbn [app] in *;
  repeat (next_step; cbn [mbind option_bind]); reflexivity.

Ltac solve_eqb :=
  cbn [arr nth]; split;
  [ intros Heq; rewrite ?andb_true_iff, ?Z.eqb_eq, ?bool_decide_eq_true in Heq;
    rewrite ?msg_eqb_eq in Heq by assumption; destruct_and?; subst; reflexivity
  | intros [=]; subst; rewrite ?andb_true_iff, ?Z.eqb_eq, ?bool_decide_eq_true;
    rewrite ?msg_eqb_eq by assumption; repeat split ].

Ltac solve_length :=
  repeat first
  [ progress cbn [app length] | rewrite length_app | rewrite length_to_be
  | rewrite length_fixed_string | rewrite msg_wire_length by assumption ]; reflexivity.

(** Brings the hypotheses on a destructed message into the context. *)
Ltac message_intro := intros; destruct_and?; explode_arrays.

Ltac solve_assign := cbn [arr nth]; rewrite ?msg_assign_copies by assumption; reflexivity.

(** ** Nothing is lost in unpacking

    A structure without strings is determined by its bytes and determines
    them; [seg k N b] is [b] from offset [k] to offset [N]. *)

Class Exact (T : Type) `{Message T} :=
  msg_exact b m : is_bytes b -> (msg_size <= length b)%nat -> msg_unpack b = Some m ->
                  msg_wf m /\ msg_wire m = take msg_size b.

Definition seg (k N : nat) (b : bytes) : bytes := load k (N - k) b.

Lemma seg_end N b : [] = seg N N b.
Proof. unfold seg, load. by rewrite Nat.sub_diag. Qed.

Lemma seg_load (b rest : bytes) (k n K N : nat) :
  rest = seg K N b -> K = (k + n)%nat -> (K <= N)%nat -> (N <= length b)%nat ->
  load k n b ++ rest = seg k N b.
Proof.
  intros -> -> HK HN. unfold seg, load. replace (N - k)%nat with (n + (N - (k + n)))%nat by lia.
  rewrite <- drop_drop_add. apply take_take_drop.
Qed.

Lemma load_to_le (b : bytes) (k n : nat) : is_bytes b -> (k + n <= length b)%nat ->
  to_le n (of_le (load k n b)) = load k n b.
Proof. intros. apply to_le_of_le_n; [by apply load_bytes|by apply length_load]. Qed.

Lemma swap_load (b : bytes) (k n : nat) : is_bytes b -> (k + n <= length b)%nat ->
  to_be n (of_le (rev (to_le n (of_le (load k n b))))) = load k n b.
Proof.
  intros Hb Hk. unfold to_be. rewrite load_to_le by done.
  rewrite to_le_of_le_n, rev_involutive; [done|by apply is_bytes_rev, load_bytes|].
  rewrite length_rev. by apply length_load.
Qed.

Section seg.
Context (b : bytes) (N : nat).
Hypotheses (Hb : is_bytes b) (HN : (N <= length b)%nat).

Lemma seg8 rest (k K : nat) :
  rest = seg K N b -> K = (k + 1)%nat -> (K <= N)%nat -> get8 k b :: rest = seg k N b.
Proof using Hb HN.
  intros Hr -> HK. rewrite <- (seg_load b rest k 1 (k + 1) N) by (done || lia).
  change (get8 k b :: rest) with ([get8 k b] ++ rest). f_equal. unfold get8.
  pose proof (length_load k 1 b) as Hl. destruct (load k 1 b) as [|x [|]]; simpl in *; try lia.
  f_equal. lia.
Qed.

Lemma seg16 rest (k K : nat) :
  rest = seg K N b -> K = (k + 2)%nat -> (K <= N)%nat ->
  to_be 2 (ntohs (get16 k b)) ++ rest = seg k N b.
Proof using Hb HN.
  intros Hr -> HK. rewrite <- (seg_load b rest k 2 (k + 2) N) by (done || lia).
  f_equal. apply swap_load; [done|lia].
Qed.

Lemma seg32 rest (k K : nat) :
  rest = seg K N b -> K = (k + 4)%nat -> (K <= N)%nat ->
  to_be 4 (ntohl (get32 k b)) ++ rest = seg k N b.
Proof using Hb HN.
  intros Hr -> HK. rewrite <- (seg_load b rest k 4 (k + 4) N) by (done || lia).
  f_equal. apply swap_load; [done|lia].
Qed.

Lemma seg64 rest (k K : nat) :
  rest = seg K N b -> K = (k + 8)%nat -> (K <= N)%nat ->
  to_be 8 (ntohll (get64 k b)) ++ rest = seg k N b.
Proof using Hb HN.
  intros Hr -> HK. rewrite <- (seg_load b rest k 8 (k + 8) N) by (done || lia).
  f_equal. change ntohll with htonll. rewrite htonll_swap. apply swap_load; [done|lia].
Qed.

Lemma seg_sub {T} `{Exact T} rest (x : T) (k K : nat) :
  rest = seg K N b -> K = (k + msg_size)%nat -> (K <= N)%nat ->
  msg_unpack (drop k b) = Some x -> msg_wire x ++ rest = seg k N b.
Proof using Hb HN.
  intros Hr -> HK Hx. rewrite <- (seg_load b rest k msg_size (k + msg_size) N) by (done || lia).
  f_equal. apply msg_exact in Hx as [_ ->]; [done|by apply Forall_drop|].
  rewrite length_drop. lia.
Qed.

Lemma sub_wf {T} `{Exact T} (x : T) (k : nat) :
  (k + msg_size <= N)%nat -> msg_unpack (drop k b) = Some x -> msg_wf x.
Proof using Hb HN.
  intros Hk Hx. apply msg_exact in Hx as [? _]; [done|by apply Forall_drop|].
  rewrite length_drop. lia.
Qed.
End seg.

Lemma get8_range b k : is_bytes b -> is_u8 (get8 k b).
Proof.
  intros Hb. pose proof (load_bytes k 1 b Hb) as Hl. unfold get8, load in *.
  destruct (drop k b) as [|x l]; simpl in *; [by split|]. inversion Hl as [|? ? [? ?] _]; subst.
  split; lia.
Qed.

Ltac seg_step Hb HN :=
  lazymatch goal with
  | |- _ :: _ = seg _ _ _ => eapply (seg8 _ _ Hb HN); [|reflexivity|lia]
  | |- to_be 2 _ ++ _ = seg _ _ _ => eapply (seg16 _ _ Hb HN); [|reflexivity|lia]
  | |- to_be 4 _ ++ _ = seg _ _ _ => eapply (seg32 _ _ Hb HN); [|reflexivity|lia]
  | |- to_be 8 _ ++ _ = seg _ _ _ => eapply (seg64 _ _ Hb HN); [|reflexivity|lia]
  | |- msg_wire (T := ?T) _ ++ _ = seg ?k _ _ =>
      let K := eval cbv in (k + msg_size (T := T))%nat in
      refine (seg_sub (T := T) _ _ Hb HN _ _ k K _ eq_refl _ _); [|lia|eassumption]
  end.

Ltac solve_wf Hb HN :=
  repeat match goal with
  | |- _ /\ _ => split
  | |- True => exact I
  | |- in_width 8 _ => by apply get8_range
  | |- in_width 16 _ => apply htons_range
  | |- in_width 32 _ => apply htonl_range
  | |- in_width 64 _ => apply htonll_range
  | |- msg_wf (T := ?T) _ => eapply (sub_wf (T := T) _ _ Hb HN); [|eassumption]; by apply Nat.leb_le
  | |- msg_shape (T := ?T) _ => apply msg_wf_shape; eapply (sub_wf (T := T) _ _ Hb HN); [|eassumption]; by apply Nat.leb_le
  | |- is_array _ _ => split; [reflexivity|]
  | |- Forall _ (_ :: _) => constructor
  | |- Forall _ [] => constructor
  end.

(** The goal is [wf m /\ wire m = take N b] with [m] read off [b]. *)
Ltac solve_exact Hb HN :=
  split; [by solve_wf Hb HN|];
  rewrite <- (app_nil_r (_ ++ _)) || rewrite <- (app_nil_r _);
  change (take ?N ?b) with (seg 0 N b);
  rewrite <- ?app_assoc; cbn [app]; repeat seg_step Hb HN; apply seg_end.

Ltac destruct_unpack Hu :=
  repeat (let x := fresh "x" in let Hx := fresh "Hx" in
          apply bind_Some in Hu as (x & Hx & Hu));
  injection Hu as <-.
