(* ===== verification/OfpCore.v ===== *)
(** * OpenFlow building blocks: header, match, port description

    The wrappers [of_header], [of_match] and [of_phy_port] of
    openflow-pack-raw.cc, which other structures embed.  Field offsets are
    those of the structures of openflow.h; the constants are its enumerators. *)

From S2P Require Import Prelude Bytes OfpWire.

Open Scope Z_scope.

(** ** Constants of openflow.h *)

Definition OFPAT_OUTPUT : Z := 0.
Definition OFPAT_SET_VLAN_PCP : Z := 2.
Definition OFPAT_SET_VLAN_VID : Z := 1.
Definition OFPAT_VENDOR : Z := 65535.
Definition OFPT_ERROR : Z := 1.
Definition OFPT_FEATURES_REPLY : Z := 6.
Definition OFPT_FLOW_MOD : Z := 14.
Definition OFPT_FLOW_REMOVED : Z := 11.
Definition OFPT_HELLO : Z := 0.
Definition OFPT_PACKET_IN : Z := 10.
Definition OFPT_PACKET_OUT : Z := 13.
Definition OFPT_PORT_MOD : Z := 15.
Definition OFPT_PORT_STATUS : Z := 12.
Definition OFPT_STATS_REPLY : Z := 17.
Definition OFPT_STATS_REQUEST : Z := 16.
Definition OFPT_VENDOR : Z := 4.
Definition OFP_DEFAULT_MISS_SEND_LEN : Z := 128.
Definition OFP_DEFAULT_PRIORITY : Z := 32768.
Definition OFP_VERSION : Z := 1.

Module of_header.

Record t := mk {
  version : Z; type_ : Z; length_ : Z; xid : Z }.

(** [of_header::of_header()] *)
Definition init : t :=
  mk OFP_VERSION 0 0 0.

(** [header.type = ...] *)
Definition with_type (ty : Z) (m : t) : t := mk (version m) ty (length_ m) (xid m).

(** [of_header::of_header(version_, ...)] *)
Definition make (version_ : Z) (type_ : Z) (length_ : Z) (xid_ : Z) : t :=
  mk version_ type_ length_ xid_.

(** [of_header::pack] *)
Definition pack (m : t) (b : bytes) : bytes :=
  let b := put8 0 (version m) b in
  let b := put8 1 (type_ m) b in
  let b := put16 2 (htons (length_ m)) b in
  let b := put32 4 (htonl (xid m)) b in
  b.

(** [of_header::unpack] *)
Definition unpack (b : bytes) : option t :=
  Some (mk (get8 0 b) (get8 1 b) (ntohs (get16 2 b)) (ntohl (get32 4 b))).

(** [of_header::operator=] *)
Definition assign (m peer_ : t) : t :=
  mk (version peer_) (type_ peer_) (length_ peer_) (xid peer_).

(** [of_header::operator==] *)
Definition eqb (m peer_ : t) : bool :=
  (version m =? version peer_) &&
  (type_ m =? type_ peer_) &&
  (length_ m =? length_ peer_) &&
  (xid m =? xid peer_).

(** The encoding, and the values that survive it. *)
Definition size : nat := 8.

Definition wire (m : t) : bytes :=
  [version m] ++ [type_ m] ++ to_be 2 (length_ m) ++ to_be 4 (xid m).

Definition shape (m : t) : Prop :=
  True.

Definition wf (m : t) : Prop :=
  shape m /\ is_u8 (version m) /\ is_u8 (type_ m) /\ is_u16 (length_ m) /\ is_u32 (xid m).

#[global] Instance header_message : Message t :=
  {| msg_size := size; msg_shape := shape; msg_wf := wf; msg_wire := wire;
     msg_pack := pack; msg_unpack := unpack; msg_assign := assign; msg_eqb := eqb |}.

Lemma header_wire_length m : shape m -> length (wire m) = size.
Proof. destruct m. unfold shape, wire, size, version, type_, length_, xid. message_intro. solve_length. Qed.

Lemma header_pack_wire m b :
  shape m -> (size <= length b)%nat -> pack m b = wire m ++ drop size b.
Proof. destruct m. unfold shape, pack, wire, size, version, type_, length_, xid. message_intro. solve_pack. Qed.

Lemma header_unpack_wire m rest : wf m -> unpack (wire m ++ rest) = Some m.
Proof.
  intros Hwf. remember (wire m ++ rest) as b eqn:Hb. change b with (drop 0 b) in Hb. revert Hwf Hb.
  destruct m. unfold wf, shape, wire, unpack, version, type_, length_, xid. message_intro. solve_unpack.
Qed.

Lemma header_assign_copies m p : shape p -> assign m p = p.
Proof. destruct p. unfold shape, assign, version, type_, length_, xid. message_intro. solve_assign. Qed.

Lemma header_eqb_eq m p : shape m -> shape p -> eqb m p = true <-> m = p.
Proof. destruct m, p. unfold shape, eqb, version, type_, length_, xid. message_intro. solve_eqb. Qed.

#[global] Instance header_laws : MessageLaws t :=
  {| msg_wf_shape m H := proj1 H; msg_wire_length := header_wire_length;
     msg_pack_wire := header_pack_wire; msg_unpack_wire := header_unpack_wire;
     msg_assign_copies := header_assign_copies; msg_eqb_eq := header_eqb_eq |}.

#[global] Instance header_exact : Exact t.
Proof.
  intros b m Hb HN Hu. change (unpack b = Some m) in Hu. change (size <= length b)%nat in HN.
  change (wf m /\ wire m = take size b). unfold unpack, size in *. destruct_unpack Hu.
  unfold wf, shape, wire, version, type_, length_, xid. solve_exact Hb HN.
Qed.

End of_header.

Module of_match.

Record t := mk {
  wildcards : Z; in_port : Z; dl_src : bytes; dl_dst : bytes; dl_vlan : Z; dl_vlan_pcp : Z;
  pad1 : bytes; dl_type : Z; nw_tos : Z; nw_proto : Z; pad2 : bytes; nw_src : Z; nw_dst : Z;
  tp_src : Z; tp_dst : Z }.

(** [of_match::of_match()] *)
Definition init : t :=
  mk 0 0 [0; 0; 0; 0; 0; 0] [0; 0; 0; 0; 0; 0] 0 0 [0] 0 0 0 [0; 0] 0 0 0 0.

(** [of_match::of_match(wildcards_, ...)] *)
Definition make (wildcards_ : Z) (in_port_ : Z) (dl_src_ : bytes) (dl_dst_ : bytes)
    (dl_vlan_ : Z) (dl_vlan_pcp_ : Z) (pad1_ : bytes) (dl_type_ : Z) (nw_tos_ : Z)
    (nw_proto_ : Z) (pad2_ : bytes) (nw_src_ : Z) (nw_dst_ : Z) (tp_src_ : Z)
    (tp_dst_ : Z) : t :=
  mk wildcards_ in_port_
    [arr dl_src_ 0; arr dl_src_ 1; arr dl_src_ 2; arr dl_src_ 3; arr dl_src_ 4; arr dl_src_ 5]
    [arr dl_dst_ 0; arr dl_dst_ 1; arr dl_dst_ 2; arr dl_dst_ 3; arr dl_dst_ 4; arr dl_dst_ 5]
    dl_vlan_ dl_vlan_pcp_ [arr pad1_ 0] dl_type_ nw_tos_ nw_proto_ [arr pad2_ 0; arr pad2_ 1]
    nw_src_ nw_dst_ tp_src_ tp_dst_.

(** [of_match::pack] *)
Definition pack (m : t) (b : bytes) : bytes :=
  let b := put32 0 (htonl (wildcards m)) b in
  let b := put16 4 (htons (in_port m)) b in
  let b := put8 6 (arr (dl_src m) 0) b in
  let b := put8 7 (arr (dl_src m) 1) b in
  let b := put8 8 (arr (dl_src m) 2) b in
  let b := put8 9 (arr (dl_src m) 3) b in
  let b := put8 10 (arr (dl_src m) 4) b in
  let b := put8 11 (arr (dl_src m) 5) b in
  let b := put8 12 (arr (dl_dst m) 0) b in
  let b := put8 13 (arr (dl_dst m) 1) b in
  let b := put8 14 (arr (dl_dst m) 2) b in
  let b := put8 15 (arr (dl_dst m) 3) b in
  let b := put8 16 (arr (dl_dst m) 4) b in
  let b := put8 17 (arr (dl_dst m) 5) b in
  let b := put16 18 (htons (dl_vlan m)) b in
  let b := put8 20 (dl_vlan_pcp m) b in
  let b := put8 21 (arr (pad1 m) 0) b in
  let b := put16 22 (htons (dl_type m)) b in
  let b := put8 24 (nw_tos m) b in
  let b := put8 25 (nw_proto m) b in
  let b := put8 26 (arr (pad2 m) 0) b in
  let b := put8 27 (arr (pad2 m) 1) b in
  let b := put32 28 (htonl (nw_src m)) b in
  let b := put32 32 (htonl (nw_dst m)) b in
  let b := put16 36 (htons (tp_src m)) b in
  let b := put16 38 (htons (tp_dst m)) b in
  b.

(** [of_match::unpack] *)
Definition unpack (b : bytes) : option t :=
  Some (mk (ntohl (get32 0 b)) (ntohs (get16 4 b))
    [get8 6 b; get8 7 b; get8 8 b; get8 9 b; get8 10 b; get8 11 b]
    [get8 12 b; get8 13 b; get8 14 b; get8 15 b; get8 16 b; get8 17 b] (ntohs (get16 18 b))
    (get8 20 b) [get8 21 b] (ntohs (get16 22 b)) (get8 24 b) (get8 25 b) [get8 26 b; get8 27 b]
    (ntohl (get32 28 b)) (ntohl (get32 32 b)) (ntohs (get16 36 b)) (ntohs (get16 38 b))).

(** [of_match::operator=] *)
Definition assign (m peer_ : t) : t :=
  mk (wildcards peer_) (in_port peer_)
    [arr (dl_src peer_) 0; arr (dl_src peer_) 1; arr (dl_src peer_) 2; arr (dl_src peer_) 3; arr (dl_src peer_) 4; arr (dl_src peer_) 5]
    [arr (dl_dst peer_) 0; arr (dl_dst peer_) 1; arr (dl_dst peer_) 2; arr (dl_dst peer_) 3; arr (dl_dst peer_) 4; arr (dl_dst peer_) 5]
    (dl_vlan peer_) (dl_vlan_pcp peer_) [arr (pad1 peer_) 0] (dl_type peer_) (nw_tos peer_)
    (nw_proto peer_) [arr (pad2 peer_) 0; arr (pad2 peer_) 1] (nw_src peer_) (nw_dst peer_)
    (tp_src peer_) (tp_dst peer_).

(** [of_match::operator==] *)
Definition eqb (m peer_ : t) : bool :=
  (wildcards m =? wildcards peer_) &&
  (in_port m =? in_port peer_) &&
  (arr (dl_src m) 0 =? arr (dl_src peer_) 0) &&
  (arr (dl_src m) 1 =? arr (dl_src peer_) 1) &&
  (arr (dl_src m) 2 =? arr (dl_src peer_) 2) &&
  (arr (dl_src m) 3 =? arr (dl_src peer_) 3) &&
  (arr (dl_src m) 4 =? arr (dl_src peer_) 4) &&
  (arr (dl_src m) 5 =? arr (dl_src peer_) 5) &&
  (arr (dl_dst m) 0 =? arr (dl_dst peer_) 0) &&
  (arr (dl_dst m) 1 =? arr (dl_dst peer_) 1) &&
  (arr (dl_dst m) 2 =? arr (dl_dst peer_) 2) &&
  (arr (dl_dst m) 3 =? arr (dl_dst peer_) 3) &&
  (arr (dl_dst m) 4 =? arr (dl_dst peer_) 4) &&
  (arr (dl_dst m) 5 =? arr (dl_dst peer_) 5) &&
  (dl_vlan m =? dl_vlan peer_) &&
  (dl_vlan_pcp m =? dl_vlan_pcp peer_) &&
  (arr (pad1 m) 0 =? arr (pad1 peer_) 0) &&
  (dl_type m =? dl_type peer_) &&
  (nw_tos m =? nw_tos peer_) &&
  (nw_proto m =? nw_proto peer_) &&
  (arr (pad2 m) 0 =? arr (pad2 peer_) 0) &&
  (arr (pad2 m) 1 =? arr (pad2 peer_) 1) &&
  (nw_src m =? nw_src peer_) &&
  (nw_dst m =? nw_dst peer_) &&
  (tp_src m =? tp_src peer_) &&
  (tp_dst m =? tp_dst peer_).

(** The encoding, and the values that survive it. *)
Definition size : nat := 40.

Definition wire (m : t) : bytes :=
  to_be 4 (wildcards m) ++ to_be 2 (in_port m) ++ dl_src m ++ dl_dst m ++ to_be 2 (dl_vlan m) ++
  [dl_vlan_pcp m] ++ pad1 m ++ to_be 2 (dl_type m) ++ [nw_tos m] ++ [nw_proto m] ++ pad2 m ++
  to_be 4 (nw_src m) ++ to_be 4 (nw_dst m) ++ to_be 2 (tp_src m) ++ to_be 2 (tp_dst m).

Definition shape (m : t) : Prop :=
  is_array 6 (dl_src m) /\ is_array 6 (dl_dst m) /\ is_array 1 (pad1 m) /\ is_array 2 (pad2 m).

Definition wf (m : t) : Prop :=
  shape m /\ is_u32 (wildcards m) /\ is_u16 (in_port m) /\ is_u16 (dl_vlan m) /\
  is_u8 (dl_vlan_pcp m) /\ is_u16 (dl_type m) /\ is_u8 (nw_tos m) /\ is_u8 (nw_proto m) /\
  is_u32 (nw_src m) /\ is_u32 (nw_dst m) /\ is_u16 (tp_src m) /\ is_u16 (tp_dst m).

#[global] Instance match_message : Message t :=
  {| msg_size := size; msg_shape := shape; msg_wf := wf; msg_wire := wire;
     msg_pack := pack; msg_unpack := unpack; msg_assign := assign; msg_eqb := eqb |}.

Lemma match_wire_length m : shape m -> length (wire m) = size.
Proof. destruct m. unfold shape, wire, size, wildcards, in_port, dl_src, dl_dst, dl_vlan, dl_vlan_pcp, pad1, dl_type, nw_tos, nw_proto, pad2, nw_src, nw_dst, tp_src, tp_dst. message_intro. solve_length. Qed.

Lemma match_pack_wire m b :
  shape m -> (size <= length b)%nat -> pack m b = wire m ++ drop size b.
Proof. destruct m. unfold shape, pack, wire, size, wildcards, in_port, dl_src, dl_dst, dl_vlan, dl_vlan_pcp, pad1, dl_type, nw_tos, nw_proto, pad2, nw_src, nw_dst, tp_src, tp_dst. message_intro. solve_pack. Qed.

Lemma match_unpack_wire m rest : wf m -> unpack (wire m ++ rest) = Some m.
Proof.
  intros Hwf. remember (wire m ++ rest) as b eqn:Hb. change b with (drop 0 b) in Hb. revert Hwf Hb.
  destruct m. unfold wf, shape, wire, unpack, wildcards, in_port, dl_src, dl_dst, dl_vlan, dl_vlan_pcp, pad1, dl_type, nw_tos, nw_proto, pad2, nw_src, nw_dst, tp_src, tp_dst. message_intro. solve_unpack.
Qed.

Lemma match_assign_copies m p : shape p -> assign m p = p.
Proof. destruct p. unfold shape, assign, wildcards, in_port, dl_src, dl_dst, dl_vlan, dl_vlan_pcp, pad1, dl_type, nw_tos, nw_proto, pad2, nw_src, nw_dst, tp_src, tp_dst. message_intro. solve_assign. Qed.

Lemma match_eqb_eq m p : shape m -> shape p -> eqb m p = true <-> m = p.
Proof. destruct m, p. unfold shape, eqb, wildcards, in_port, dl_src, dl_dst, dl_vlan, dl_vlan_pcp, pad1, dl_type, nw_tos, nw_proto, pad2, nw_src, nw_dst, tp_src, tp_dst. message_intro. solve_eqb. Qed.

#[global] Instance match_laws : MessageLaws t :=
  {| msg_wf_shape m H := proj1 H; msg_wire_length := match_wire_length;
     msg_pack_wire := match_pack_wire; msg_unpack_wire := match_unpack_wire;
     msg_assign_copies := match_assign_copies; msg_eqb_eq := match_eqb_eq |}.

#[global] Instance match_exact : Exact t.
Proof.
  intros b m Hb HN Hu. change (unpack b = Some m) in Hu. change (size <= length b)%nat in HN.
  change (wf m /\ wire m = take size b). unfold unpack, size in *. destruct_unpack Hu.
  unfold wf, shape, wire, wildcards, in_port, dl_src, dl_dst, dl_vlan, dl_vlan_pcp, pad1, dl_type, nw_tos, nw_proto, pad2, nw_src, nw_dst, tp_src, tp_dst. solve_exact Hb HN.
Qed.

End of_match.

Module of_phy_port.

Record t := mk {
  port_no : Z; hw_addr : bytes; name : bytes; config : Z; state : Z; curr : Z; advertised : Z;
  supported : Z; peer : Z }.

(** [of_phy_port::of_phy_port()] *)
Definition init : t :=
  mk 0 [0; 0; 0; 0; 0; 0] [] 0 0 0 0 0 0.

(** [of_phy_port::of_phy_port(port_no_, ...)] *)
Definition make (port_no_ : Z) (hw_addr_ : bytes) (name_ : bytes) (config_ : Z) (state_ : Z)
    (curr_ : Z) (advertised_ : Z) (supported_ : Z) (peer_ : Z) : t :=
  mk port_no_
    [arr hw_addr_ 0; arr hw_addr_ 1; arr hw_addr_ 2; arr hw_addr_ 3; arr hw_addr_ 4; arr hw_addr_ 5]
    name_ config_ state_ curr_ advertised_ supported_ peer_.

(** [of_phy_port::pack] *)
Definition pack (m : t) (b : bytes) : bytes :=
  let b := put16 0 (htons (port_no m)) b in
  let b := put8 2 (arr (hw_addr m) 0) b in
  let b := put8 3 (arr (hw_addr m) 1) b in
  let b := put8 4 (arr (hw_addr m) 2) b in
  let b := put8 5 (arr (hw_addr m) 3) b in
  let b := put8 6 (arr (hw_addr m) 4) b in
  let b := put8 7 (arr (hw_addr m) 5) b in
  let b := put_strncpy 8 15 (name m) b in
  let b := put8 23 0 b in
  let b := put32 24 (htonl (config m)) b in
  let b := put32 28 (htonl (state m)) b in
  let b := put32 32 (htonl (curr m)) b in
  let b := put32 36 (htonl (advertised m)) b in
  let b := put32 40 (htonl (supported m)) b in
  let b := put32 44 (htonl (peer m)) b in
  b.

(** [of_phy_port::unpack] *)
Definition unpack (b : bytes) : option t :=
  name_ ← read_cstr (drop 8 b);
  Some (mk (ntohs (get16 0 b)) [get8 2 b; get8 3 b; get8 4 b; get8 5 b; get8 6 b; get8 7 b]
    name_ (ntohl (get32 24 b)) (ntohl (get32 28 b)) (ntohl (get32 32 b)) (ntohl (get32 36 b))
    (ntohl (get32 40 b)) (ntohl (get32 44 b))).

(** [of_phy_port::operator=] *)
Definition assign (m peer_ : t) : t :=
  mk (port_no peer_)
    [arr (hw_addr peer_) 0; arr (hw_addr peer_) 1; arr (hw_addr peer_) 2; arr (hw_addr peer_) 3; arr (hw_addr peer_) 4; arr (hw_addr peer_) 5]
    (name peer_) (config peer_) (state peer_) (curr peer_) (advertised peer_) (supported peer_)
    (peer peer_).

(** [of_phy_port::operator==] *)
Definition eqb (m peer_ : t) : bool :=
  (port_no m =? port_no peer_) &&
  (arr (hw_addr m) 0 =? arr (hw_addr peer_) 0) &&
  (arr (hw_addr m) 1 =? arr (hw_addr peer_) 1) &&
  (arr (hw_addr m) 2 =? arr (hw_addr peer_) 2) &&
  (arr (hw_addr m) 3 =? arr (hw_addr peer_) 3) &&
  (arr (hw_addr m) 4 =? arr (hw_addr peer_) 4) &&
  (arr (hw_addr m) 5 =? arr (hw_addr peer_) 5) &&
  bool_decide (name m = name peer_) &&
  (config m =? config peer_) &&
  (state m =? state peer_) &&
  (curr m =? curr peer_) &&
  (advertised m =? advertised peer_) &&
  (supported m =? supported peer_) &&
  (peer m =? peer peer_).

(** The encoding, and the values that survive it. *)
Definition size : nat := 48.

Definition wire (m : t) : bytes :=
  to_be 2 (port_no m) ++ hw_addr m ++ fixed_string 16 (name m) ++ to_be 4 (config m) ++
  to_be 4 (state m) ++ to_be 4 (curr m) ++ to_be 4 (advertised m) ++ to_be 4 (supported m) ++
  to_be 4 (peer m).

Definition shape (m : t) : Prop :=
  is_array 6 (hw_addr m).

Definition wf (m : t) : Prop :=
  shape m /\ is_u16 (port_no m) /\ is_name 16 (name m) /\ is_u32 (config m) /\
  is_u32 (state m) /\ is_u32 (curr m) /\ is_u32 (advertised m) /\ is_u32 (supported m) /\
  is_u32 (peer m).

#[global] Instance phy_port_message : Message t :=
  {| msg_size := size; msg_shape := shape; msg_wf := wf; msg_wire := wire;
     msg_pack := pack; msg_unpack := unpack; msg_assign := assign; msg_eqb := eqb |}.

Lemma phy_port_wire_length m : shape m -> length (wire m) = size.
Proof. destruct m. unfold shape, wire, size, port_no, hw_addr, name, config, state, curr, advertised, supported, peer. message_intro. solve_length. Qed.

Lemma phy_port_pack_wire m b :
  shape m -> (size <= length b)%nat -> pack m b = wire m ++ drop size b.
Proof. destruct m. unfold shape, pack, wire, size, port_no, hw_addr, name, config, state, curr, advertised, supported, peer. message_intro. solve_pack. Qed.

Lemma phy_port_unpack_wire m rest : wf m -> unpack (wire m ++ rest) = Some m.
Proof.
  intros Hwf. remember (wire m ++ rest) as b eqn:Hb. change b with (drop 0 b) in Hb. revert Hwf Hb.
  destruct m. unfold wf, shape, wire, unpack, port_no, hw_addr, name, config, state, curr, advertised, supported, peer. message_intro. solve_unpack.
Qed.

Lemma phy_port_assign_copies m p : shape p -> assign m p = p.
Proof. destruct p. unfold shape, assign, port_no, hw_addr, name, config, state, curr, advertised, supported, peer. message_intro. solve_assign. Qed.

Lemma phy_port_eqb_eq m p : shape m -> shape p -> eqb m p = true <-> m = p.
Proof. destruct m, p. unfold shape, eqb, port_no, hw_addr, name, config, state, curr, advertised, supported, peer. message_intro. solve_eqb. Qed.

#[global] Instance phy_port_laws : MessageLaws t :=
  {| msg_wf_shape m H := proj1 H; msg_wire_length := phy_port_wire_length;
     msg_pack_wire := phy_port_pack_wire; msg_unpack_wire := phy_port_unpack_wire;
     msg_assign_copies := phy_port_assign_copies; msg_eqb_eq := phy_port_eqb_eq |}.

End of_phy_port.
