(* ===== verification/OfpActions.v ===== *)
(** * OpenFlow actions: the [of_action_*] wrappers of openflow-pack-raw.cc *)

From S2P Require Import Prelude Bytes OfpWire OfpCore.

Open Scope Z_scope.

Module of_action_tp_port.

Record t := mk {
  type_ : Z; len : Z; tp_port : Z; pad : bytes }.

(** [of_action_tp_port::of_action_tp_port()] *)
Definition init : t :=
  mk 0 0 0 [0; 0].

(** [of_action_tp_port::of_action_tp_port(type_, ...)] *)
Definition make (type_ : Z) (len_ : Z) (tp_port_ : Z) (pad_ : bytes) : t :=
  mk type_ len_ tp_port_ [arr pad_ 0; arr pad_ 1].

(** [of_action_tp_port::pack] *)
Definition pack (m : t) (b : bytes) : bytes :=
  let b := put16 0 (htons (type_ m)) b in
  let b := put16 2 (htons (len m)) b in
  let b := put16 4 (htons (tp_port m)) b in
  let b := put8 6 (arr (pad m) 0) b in
  let b := put8 7 (arr (pad m) 1) b in
  b.

(** [of_action_tp_port::unpack] *)
Definition unpack (b : bytes) : option t :=
  Some (mk (ntohs (get16 0 b)) (ntohs (get16 2 b)) (ntohs (get16 4 b)) [get8 6 b; get8 7 b]).

(** [of_action_tp_port::operator=] *)
Definition assign (m peer_ : t) : t :=
  mk (type_ peer_) (len peer_) (tp_port peer_) [arr (pad peer_) 0; arr (pad peer_) 1].

(** [of_action_tp_port::operator==] *)
Definition eqb (m peer_ : t) : bool :=
  (type_ m =? type_ peer_) &&
  (len m =? len peer_) &&
  (tp_port m =? tp_port peer_) &&
  (arr (pad m) 0 =? arr (pad peer_) 0) &&
  (arr (pad m) 1 =? arr (pad peer_) 1).

(** The encoding, and the values that survive it. *)
Definition size : nat := 8.

Definition wire (m : t) : bytes :=
  to_be 2 (type_ m) ++ to_be 2 (len m) ++ to_be 2 (tp_port m) ++ pad m.

Definition shape (m : t) : Prop :=
  is_array 2 (pad m).

Definition wf (m : t) : Prop :=
  shape m /\ is_u16 (type_ m) /\ is_u16 (len m) /\ is_u16 (tp_port m).

#[global] Instance action_tp_port_message : Message t :=
  {| msg_size := size; msg_shape := shape; msg_wf := wf; msg_wire := wire;
     msg_pack := pack; msg_unpack := unpack; msg_assign := assign; msg_eqb := eqb |}.

Lemma action_tp_port_wire_length m : shape m -> length (wire m) = size.
Proof. destruct m. unfold shape, wire, size, type_, len, tp_port, pad. message_intro. solve_length. Qed.

Lemma action_tp_port_pack_wire m b :
  shape m -> (size <= length b)%nat -> pack m b = wire m ++ drop size b.
Proof. destruct m. unfold shape, pack, wire, size, type_, len, tp_port, pad. message_intro. solve_pack. Qed.

Lemma action_tp_port_unpack_wire m rest : wf m -> unpack (wire m ++ rest) = Some m.
Proof.
  intros Hwf. remember (wire m ++ rest) as b eqn:Hb. change b with (drop 0 b) in Hb. revert Hwf Hb.
  destruct m. unfold wf, shape, wire, unpack, type_, len, tp_port, pad. message_intro. solve_unpack.
Qed.

Lemma action_tp_port_assign_copies m p : shape p -> assign m p = p.
Proof. destruct p. unfold shape, assign, type_, len, tp_port, pad. message_intro. solve_assign. Qed.

Lemma action_tp_port_eqb_eq m p : shape m -> shape p -> eqb m p = true <-> m = p.
Proof. destruct m, p. unfold shape, eqb, type_, len, tp_port, pad. message_intro. solve_eqb. Qed.

#[global] Instance action_tp_port_laws : MessageLaws t :=
  {| msg_wf_shape m H := proj1 H; msg_wire_length := action_tp_port_wire_length;
     msg_pack_wire := action_tp_port_pack_wire; msg_unpack_wire := action_tp_port_unpack_wire;
     msg_assign_copies := action_tp_port_assign_copies; msg_eqb_eq := action_tp_port_eqb_eq |}.

#[global] Instance action_tp_port_exact : Exact t.
Proof.
  intros b m Hb HN Hu. change (unpack b = Some m) in Hu. change (size <= length b)%nat in HN.
  change (wf m /\ wire m = take size b). unfold unpack, size in *. destruct_unpack Hu.
  unfold wf, shape, wire, type_, len, tp_port, pad. solve_exact Hb HN.
Qed.

End of_action_tp_port.

Module of_action_header.

Record t := mk {
  type_ : Z; len : Z; pad : bytes }.

(** [of_action_header::of_action_header()] *)
Definition init : t :=
  mk 0 0 [0; 0; 0; 0].

(** [of_action_header::of_action_header(type_, ...)] *)
Definition make (type_ : Z) (len_ : Z) (pad_ : bytes) : t :=
  mk type_ len_ [arr pad_ 0; arr pad_ 1; arr pad_ 2; arr pad_ 3].

(** [of_action_header::pack] *)
Definition pack (m : t) (b : bytes) : bytes :=
  let b := put16 0 (htons (type_ m)) b in
  let b := put16 2 (htons (len m)) b in
  let b := put8 4 (arr (pad m) 0) b in
  let b := put8 5 (arr (pad m) 1) b in
  let b := put8 6 (arr (pad m) 2) b in
  let b := put8 7 (arr (pad m) 3) b in
  b.

(** [of_action_header::unpack] *)
Definition unpack (b : bytes) : option t :=
  Some (mk (ntohs (get16 0 b)) (ntohs (get16 2 b)) [get8 4 b; get8 5 b; get8 6 b; get8 7 b]).

(** [of_action_header::operator=] *)
Definition assign (m peer_ : t) : t :=
  mk (type_ peer_) (len peer_)
    [arr (pad peer_) 0; arr (pad peer_) 1; arr (pad peer_) 2; arr (pad peer_) 3].

(** [of_action_header::operator==] *)
Definition eqb (m peer_ : t) : bool :=
  (type_ m =? type_ peer_) &&
  (len m =? len peer_) &&
  (arr (pad m) 0 =? arr (pad peer_) 0) &&
  (arr (pad m) 1 =? arr (pad peer_) 1) &&
  (arr (pad m) 2 =? arr (pad peer_) 2) &&
  (arr (pad m) 3 =? arr (pad peer_) 3).

(** The encoding, and the values that survive it. *)
Definition size : nat := 8.

Definition wire (m : t) : bytes :=
  to_be 2 (type_ m) ++ to_be 2 (len m) ++ pad m.

Definition shape (m : t) : Prop :=
  is_array 4 (pad m).

Definition wf (m : t) : Prop :=
  shape m /\ is_u16 (type_ m) /\ is_u16 (len m).

#[global] Instance action_header_message : Message t :=
  {| msg_size := size; msg_shape := shape; msg_wf := wf; msg_wire := wire;
     msg_pack := pack; msg_unpack := unpack; msg_assign := assign; msg_eqb := eqb |}.

Lemma action_header_wire_length m : shape m -> length (wire m) = size.
Proof. destruct m. unfold shape, wire, size, type_, len, pad. message_intro. solve_length. Qed.

Lemma action_header_pack_wire m b :
  shape m -> (size <= length b)%nat -> pack m b = wire m ++ drop size b.
Proof. destruct m. unfold shape, pack, wire, size, type_, len, pad. message_intro. solve_pack. Qed.

Lemma action_header_unpack_wire m rest : wf m -> unpack (wire m ++ rest) = Some m.
Proof.
  intros Hwf. remember (wire m ++ rest) as b eqn:Hb. change b with (drop 0 b) in Hb. revert Hwf Hb.
  destruct m. unfold wf, shape, wire, unpack, type_, len, pad. message_intro. solve_unpack.
Qed.

Lemma action_header_assign_copies m p : shape p -> assign m p = p.
Proof. destruct p. unfold shape, assign, type_, len, pad. message_intro. solve_assign. Qed.

Lemma action_header_eqb_eq m p : shape m -> shape p -> eqb m p = true <-> m = p.
Proof. destruct m, p. unfold shape, eqb, type_, len, pad. message_intro. solve_eqb. Qed.

#[global] Instance action_header_laws : MessageLaws t :=
  {| msg_wf_shape m H := proj1 H; msg_wire_length := action_header_wire_length;
     msg_pack_wire := action_header_pack_wire; msg_unpack_wire := action_header_unpack_wire;
     msg_assign_copies := action_header_assign_copies; msg_eqb_eq := action_header_eqb_eq |}.

#[global] Instance action_header_exact : Exact t.
Proof.
  intros b m Hb HN Hu. change (unpack b = Some m) in Hu. change (size <= length b)%nat in HN.
  change (wf m /\ wire m = take size b). unfold unpack, size in *. destruct_unpack Hu.
  unfold wf, shape, wire, type_, len, pad. solve_exact Hb HN.
Qed.

End of_action_header.

Module of_action_vlan_vid.

Record t := mk {
  type_ : Z; len : Z; vlan_vid : Z; pad : bytes }.

(** [of_action_vlan_vid::of_action_vlan_vid()] *)
Definition init : t :=
  mk OFPAT_SET_VLAN_VID 0 0 [0; 0].

(** [of_action_vlan_vid::of_action_vlan_vid(type_, ...)] *)
Definition make (type_ : Z) (len_ : Z) (vlan_vid_ : Z) (pad_ : bytes) : t :=
  mk type_ len_ vlan_vid_ [arr pad_ 0; arr pad_ 1].

(** [of_action_vlan_vid::pack] *)
Definition pack (m : t) (b : bytes) : bytes :=
  let b := put16 0 (htons (type_ m)) b in
  let b := put16 2 (htons (len m)) b in
  let b := put16 4 (htons (vlan_vid m)) b in
  let b := put8 6 (arr (pad m) 0) b in
  let b := put8 7 (arr (pad m) 1) b in
  b.

(** [of_action_vlan_vid::unpack] *)
Definition unpack (b : bytes) : option t :=
  Some (mk (ntohs (get16 0 b)) (ntohs (get16 2 b)) (ntohs (get16 4 b)) [get8 6 b; get8 7 b]).

(** [of_action_vlan_vid::operator=] *)
Definition assign (m peer_ : t) : t :=
  mk (type_ peer_) (len peer_) (vlan_vid peer_) [arr (pad peer_) 0; arr (pad peer_) 1].

(** [of_action_vlan_vid::operator==] *)
Definition eqb (m peer_ : t) : bool :=
  (type_ m =? type_ peer_) &&
  (len m =? len peer_) &&
  (vlan_vid m =? vlan_vid peer_) &&
  (arr (pad m) 0 =? arr (pad peer_) 0) &&
  (arr (pad m) 1 =? arr (pad peer_) 1).

(** The encoding, and the values that survive it. *)
Definition size : nat := 8.

Definition wire (m : t) : bytes :=
  to_be 2 (type_ m) ++ to_be 2 (len m) ++ to_be 2 (vlan_vid m) ++ pad m.

Definition shape (m : t) : Prop :=
  is_array 2 (pad m).

Definition wf (m : t) : Prop :=
  shape m /\ is_u16 (type_ m) /\ is_u16 (len m) /\ is_u16 (vlan_vid m).

#[global] Instance action_vlan_vid_message : Message t :=
  {| msg_size := size; msg_shape := shape; msg_wf := wf; msg_wire := wire;
     msg_pack := pack; msg_unpack := unpack; msg_assign := assign; msg_eqb := eqb |}.

Lemma action_vlan_vid_wire_length m : shape m -> length (wire m) = size.
Proof. destruct m. unfold shape, wire, size, type_, len, vlan_vid, pad. message_intro. solve_length. Qed.

Lemma action_vlan_vid_pack_wire m b :
  shape m -> (size <= length b)%nat -> pack m b = wire m ++ drop size b.
Proof. destruct m. unfold shape, pack, wire, size, type_, len, vlan_vid, pad. message_intro. solve_pack. Qed.

Lemma action_vlan_vid_unpack_wire m rest : wf m -> unpack (wire m ++ rest) = Some m.
Proof.
  intros Hwf. remember (wire m ++ rest) as b eqn:Hb. change b with (drop 0 b) in Hb. revert Hwf Hb.
  destruct m. unfold wf, shape, wire, unpack, type_, len, vlan_vid, pad. message_intro. solve_unpack.
Qed.

Lemma action_vlan_vid_assign_copies m p : shape p -> assign m p = p.
Proof. destruct p. unfold shape, assign, type_, len, vlan_vid, pad. message_intro. solve_assign. Qed.

Lemma action_vlan_vid_eqb_eq m p : shape m -> shape p -> eqb m p = true <-> m = p.
Proof. destruct m, p. unfold shape, eqb, type_, len, vlan_vid, pad. message_intro. solve_eqb. Qed.

#[global] Instance action_vlan_vid_laws : MessageLaws t :=
  {| msg_wf_shape m H := proj1 H; msg_wire_length := action_vlan_vid_wire_length;
     msg_pack_wire := action_vlan_vid_pack_wire; msg_unpack_wire := action_vlan_vid_unpack_wire;
     msg_assign_copies := action_vlan_vid_assign_copies; msg_eqb_eq := action_vlan_vid_eqb_eq |}.

#[global] Instance action_vlan_vid_exact : Exact t.
Proof.
  intros b m Hb HN Hu. change (unpack b = Some m) in Hu. change (size <= length b)%nat in HN.
  change (wf m /\ wire m = take size b). unfold unpack, size in *. destruct_unpack Hu.
  unfold wf, shape, wire, type_, len, vlan_vid, pad. solve_exact Hb HN.
Qed.

End of_action_vlan_vid.

Module of_action_output.

Record t := mk {
  type_ : Z; len : Z; port : Z; max_len : Z }.

(** [of_action_output::of_action_output()] *)
Definition init : t :=
  mk OFPAT_OUTPUT 0 0 0.

(** [of_action_output::of_action_output(type_, ...)] *)
Definition make (type_ : Z) (len_ : Z) (port_ : Z) (max_len_ : Z) : t :=
  mk type_ len_ port_ max_len_.

(** [of_action_output::pack] *)
Definition pack (m : t) (b : bytes) : bytes :=
  let b := put16 0 (htons (type_ m)) b in
  let b := put16 2 (htons (len m)) b in
  let b := put16 4 (htons (port m)) b in
  let b := put16 6 (htons (max_len m)) b in
  b.

(** [of_action_output::unpack] *)
Definition unpack (b : bytes) : option t :=
  Some (mk (ntohs (get16 0 b)) (ntohs (get16 2 b)) (ntohs (get16 4 b)) (ntohs (get16 6 b))).

(** [of_action_output::operator=] *)
Definition assign (m peer_ : t) : t :=
  mk (type_ peer_) (len peer_) (port peer_) (max_len peer_).

(** [of_action_output::operator==] *)
Definition eqb (m peer_ : t) : bool :=
  (type_ m =? type_ peer_) &&
  (len m =? len peer_) &&
  (port m =? port peer_) &&
  (max_len m =? max_len peer_).

(** The encoding, and the values that survive it. *)
Definition size : nat := 8.

Definition wire (m : t) : bytes :=
  to_be 2 (type_ m) ++ to_be 2 (len m) ++ to_be 2 (port m) ++ to_be 2 (max_len m).

Definition shape (m : t) : Prop :=
  True.

Definition wf (m : t) : Prop :=
  shape m /\ is_u16 (type_ m) /\ is_u16 (len m) /\ is_u16 (port m) /\ is_u16 (max_len m).

#[global] Instance action_output_message : Message t :=
  {| msg_size := size; msg_shape := shape; msg_wf := wf; msg_wire := wire;
     msg_pack := pack; msg_unpack := unpack; msg_assign := assign; msg_eqb := eqb |}.

Lemma action_output_wire_length m : shape m -> length (wire m) = size.
Proof. destruct m. unfold shape, wire, size, type_, len, port, max_len. message_intro. solve_length. Qed.

Lemma action_output_pack_wire m b :
  shape m -> (size <= length b)%nat -> pack m b = wire m ++ drop size b.
Proof. destruct m. unfold shape, pack, wire, size, type_, len, port, max_len. message_intro. solve_pack. Qed.

Lemma action_output_unpack_wire m rest : wf m -> unpack (wire m ++ rest) = Some m.
Proof.
  intros Hwf. remember (wire m ++ rest) as b eqn:Hb. change b with (drop 0 b) in Hb. revert Hwf Hb.
  destruct m. unfold wf, shape, wire, unpack, type_, len, port, max_len. message_intro. solve_unpack.
Qed.

Lemma action_output_assign_copies m p : shape p -> assign m p = p.
Proof. destruct p. unfold shape, assign, type_, len, port, max_len. message_intro. solve_assign. Qed.

Lemma action_output_eqb_eq m p : shape m -> shape p -> eqb m p = true <-> m = p.
Proof. destruct m, p. unfold shape, eqb, type_, len, port, max_len. message_intro. solve_eqb. Qed.

#[global] Instance action_output_laws : MessageLaws t :=
  {| msg_wf_shape m H := proj1 H; msg_wire_length := action_output_wire_length;
     msg_pack_wire := action_output_pack_wire; msg_unpack_wire := action_output_unpack_wire;
     msg_assign_copies := action_output_assign_copies; msg_eqb_eq := action_output_eqb_eq |}.

#[global] Instance action_output_exact : Exact t.
Proof.
  intros b m Hb HN Hu. change (unpack b = Some m) in Hu. change (size <= length b)%nat in HN.
  change (wf m /\ wire m = take size b). unfold unpack, size in *. destruct_unpack Hu.
  unfold wf, shape, wire, type_, len, port, max_len. solve_exact Hb HN.
Qed.

End of_action_output.

Module of_action_nw_tos.

Record t := mk {
  type_ : Z; len : Z; nw_tos : Z; pad : bytes }.

(** [of_action_nw_tos::of_action_nw_tos()] *)
Definition init : t :=
  mk 0 0 0 [0; 0; 0].

(** [of_action_nw_tos::of_action_nw_tos(type_, ...)] *)
Definition make (type_ : Z) (len_ : Z) (nw_tos_ : Z) (pad_ : bytes) : t :=
  mk type_ len_ nw_tos_ [arr pad_ 0; arr pad_ 1; arr pad_ 2].

(** [of_action_nw_tos::pack] *)
Definition pack (m : t) (b : bytes) : bytes :=
  let b := put16 0 (htons (type_ m)) b in
  let b := put16 2 (htons (len m)) b in
  let b := put8 4 (nw_tos m) b in
  let b := put8 5 (arr (pad m) 0) b in
  let b := put8 6 (arr (pad m) 1) b in
  let b := put8 7 (arr (pad m) 2) b in
  b.

(** [of_action_nw_tos::unpack] *)
Definition unpack (b : bytes) : option t :=
  Some (mk (ntohs (get16 0 b)) (ntohs (get16 2 b)) (get8 4 b) [get8 5 b; get8 6 b; get8 7 b]).

(** [of_action_nw_tos::operator=] *)
Definition assign (m peer_ : t) : t :=
  mk (type_ peer_) (len peer_) (nw_tos peer_)
    [arr (pad peer_) 0; arr (pad peer_) 1; arr (pad peer_) 2].

(** [of_action_nw_tos::operator==] *)
Definition eqb (m peer_ : t) : bool :=
  (type_ m =? type_ peer_) &&
  (len m =? len peer_) &&
  (nw_tos m =? nw_tos peer_) &&
  (arr (pad m) 0 =? arr (pad peer_) 0) &&
  (arr (pad m) 1 =? arr (pad peer_) 1) &&
  (arr (pad m) 2 =? arr (pad peer_) 2).

(** The encoding, and the values that survive it. *)
Definition size : nat := 8.

Definition wire (m : t) : bytes :=
  to_be 2 (type_ m) ++ to_be 2 (len m) ++ [nw_tos m] ++ pad m.

Definition shape (m : t) : Prop :=
  is_array 3 (pad m).

Definition wf (m : t) : Prop :=
  shape m /\ is_u16 (type_ m) /\ is_u16 (len m) /\ is_u8 (nw_tos m).

#[global] Instance action_nw_tos_message : Message t :=
  {| msg_size := size; msg_shape := shape; msg_wf := wf; msg_wire := wire;
     msg_pack := pack; msg_unpack := unpack; msg_assign := assign; msg_eqb := eqb |}.

Lemma action_nw_tos_wire_length m : shape m -> length (wire m) = size.
Proof. destruct m. unfold shape, wire, size, type_, len, nw_tos, pad. message_intro. solve_length. Qed.

Lemma action_nw_tos_pack_wire m b :
  shape m -> (size <= length b)%nat -> pack m b = wire m ++ drop size b.
Proof. destruct m. unfold shape, pack, wire, size, type_, len, nw_tos, pad. message_intro. solve_pack. Qed.

Lemma action_nw_tos_unpack_wire m rest : wf m -> unpack (wire m ++ rest) = Some m.
Proof.
  intros Hwf. remember (wire m ++ rest) as b eqn:Hb. change b with (drop 0 b) in Hb. revert Hwf Hb.
  destruct m. unfold wf, shape, wire, unpack, type_, len, nw_tos, pad. message_intro. solve_unpack.
Qed.

Lemma action_nw_tos_assign_copies m p : shape p -> assign m p = p.
Proof. destruct p. unfold shape, assign, type_, len, nw_tos, pad. message_intro. solve_assign. Qed.

Lemma action_nw_tos_eqb_eq m p : shape m -> shape p -> eqb m p = true <-> m = p.
Proof. destruct m, p. unfold shape, eqb, type_, len, nw_tos, pad. message_intro. solve_eqb. Qed.

#[global] Instance action_nw_tos_laws : MessageLaws t :=
  {| msg_wf_shape m H := proj1 H; msg_wire_length := action_nw_tos_wire_length;
     msg_pack_wire := action_nw_tos_pack_wire; msg_unpack_wire := action_nw_tos_unpack_wire;
     msg_assign_copies := action_nw_tos_assign_copies; msg_eqb_eq := action_nw_tos_eqb_eq |}.

#[global] Instance action_nw_tos_exact : Exact t.
Proof.
  intros b m Hb HN Hu. change (unpack b = Some m) in Hu. change (size <= length b)%nat in HN.
  change (wf m /\ wire m = take size b). unfold unpack, size in *. destruct_unpack Hu.
  unfold wf, shape, wire, type_, len, nw_tos, pad. solve_exact Hb HN.
Qed.

End of_action_nw_tos.

Module of_action_vendor_header.

Record t := mk {
  type_ : Z; len : Z; vendor : Z }.

(** [of_action_vendor_header::of_action_vendor_header()] *)
Definition init : t :=
  mk OFPAT_VENDOR 0 0.

(** [of_action_vendor_header::of_action_vendor_header(type_, ...)] *)
Definition make (type_ : Z) (len_ : Z) (vendor_ : Z) : t :=
  mk type_ len_ vendor_.

(** [of_action_vendor_header::pack] *)
Definition pack (m : t) (b : bytes) : bytes :=
  let b := put16 0 (htons (type_ m)) b in
  let b := put16 2 (htons (len m)) b in
  let b := put32 4 (htonl (vendor m)) b in
  b.

(** [of_action_vendor_header::unpack] *)
Definition unpack (b : bytes) : option t :=
  Some (mk (ntohs (get16 0 b)) (ntohs (get16 2 b)) (ntohl (get32 4 b))).

(** [of_action_vendor_header::operator=] *)
Definition assign (m peer_ : t) : t :=
  mk (type_ peer_) (len peer_) (vendor peer_).

(** [of_action_vendor_header::operator==] *)
Definition eqb (m peer_ : t) : bool :=
  (type_ m =? type_ peer_) &&
  (len m =? len peer_) &&
  (vendor m =? vendor peer_).

(** The encoding, and the values that survive it. *)
Definition size : nat := 8.

Definition wire (m : t) : bytes :=
  to_be 2 (type_ m) ++ to_be 2 (len m) ++ to_be 4 (vendor m).

Definition shape (m : t) : Prop :=
  True.

Definition wf (m : t) : Prop :=
  shape m /\ is_u16 (type_ m) /\ is_u16 (len m) /\ is_u32 (vendor m).

#[global] Instance action_vendor_header_message : Message t :=
  {| msg_size := size; msg_shape := shape; msg_wf := wf; msg_wire := wire;
     msg_pack := pack; msg_unpack := unpack; msg_assign := assign; msg_eqb := eqb |}.

Lemma action_vendor_header_wire_length m : shape m -> length (wire m) = size.
Proof. destruct m. unfold shape, wire, size, type_, len, vendor. message_intro. solve_length. Qed.

Lemma action_vendor_header_pack_wire m b :
  shape m -> (size <= length b)%nat -> pack m b = wire m ++ drop size b.
Proof. destruct m. unfold shape, pack, wire, size, type_, len, vendor. message_intro. solve_pack. Qed.

Lemma action_vendor_header_unpack_wire m rest : wf m -> unpack (wire m ++ rest) = Some m.
Proof.
  intros Hwf. remember (wire m ++ rest) as b eqn:Hb. change b with (drop 0 b) in Hb. revert Hwf Hb.
  destruct m. unfold wf, shape, wire, unpack, type_, len, vendor. message_intro. solve_unpack.
Qed.

Lemma action_vendor_header_assign_copies m p : shape p -> assign m p = p.
Proof. destruct p. unfold shape, assign, type_, len, vendor. message_intro. solve_assign. Qed.

Lemma action_vendor_header_eqb_eq m p : shape m -> shape p -> eqb m p = true <-> m = p.
Proof. destruct m, p. unfold shape, eqb, type_, len, vendor. message_intro. solve_eqb. Qed.

#[global] Instance action_vendor_header_laws : MessageLaws t :=
  {| msg_wf_shape m H := proj1 H; msg_wire_length := action_vendor_header_wire_length;
     msg_pack_wire := action_vendor_header_pack_wire; msg_unpack_wire := action_vendor_header_unpack_wire;
     msg_assign_copies := action_vendor_header_assign_copies; msg_eqb_eq := action_vendor_header_eqb_eq |}.

#[global] Instance action_vendor_header_exact : Exact t.
Proof.
  intros b m Hb HN Hu. change (unpack b = Some m) in Hu. change (size <= length b)%nat in HN.
  change (wf m /\ wire m = take size b). unfold unpack, size in *. destruct_unpack Hu.
  unfold wf, shape, wire, type_, len, vendor. solve_exact Hb HN.
Qed.

End of_action_vendor_header.

Module of_action_dl_addr.

Record t := mk {
  type_ : Z; len : Z; dl_addr : bytes; pad : bytes }.

(** [of_action_dl_addr::of_action_dl_addr()] *)
Definition init : t :=
  mk 0 0 [0; 0; 0; 0; 0; 0] [0; 0; 0; 0; 0; 0].

(** [of_action_dl_addr::of_action_dl_addr(type_, ...)] *)
Definition make (type_ : Z) (len_ : Z) (dl_addr_ : bytes) (pad_ : bytes) : t :=
  mk type_ len_
    [arr dl_addr_ 0; arr dl_addr_ 1; arr dl_addr_ 2; arr dl_addr_ 3; arr dl_addr_ 4; arr dl_addr_ 5]
    [arr pad_ 0; arr pad_ 1; arr pad_ 2; arr pad_ 3; arr pad_ 4; arr pad_ 5].

(** [of_action_dl_addr::pack] *)
Definition pack (m : t) (b : bytes) : bytes :=
  let b := put16 0 (htons (type_ m)) b in
  let b := put16 2 (htons (len m)) b in
  let b := put8 4 (arr (dl_addr m) 0) b in
  let b := put8 5 (arr (dl_addr m) 1) b in
  let b := put8 6 (arr (dl_addr m) 2) b in
  let b := put8 7 (arr (dl_addr m) 3) b in
  let b := put8 8 (arr (dl_addr m) 4) b in
  let b := put8 9 (arr (dl_addr m) 5) b in
  let b := put8 10 (arr (pad m) 0) b in
  let b := put8 11 (arr (pad m) 1) b in
  let b := put8 12 (arr (pad m) 2) b in
  let b := put8 13 (arr (pad m) 3) b in
  let b := put8 14 (arr (pad m) 4) b in
  let b := put8 15 (arr (pad m) 5) b in
  b.

(** [of_action_dl_addr::unpack] *)
Definition unpack (b : bytes) : option t :=
  Some (mk (ntohs (get16 0 b)) (ntohs (get16 2 b))
    [get8 4 b; get8 5 b; get8 6 b; get8 7 b; get8 8 b; get8 9 b]
    [get8 10 b; get8 11 b; get8 12 b; get8 13 b; get8 14 b; get8 15 b]).

(** [of_action_dl_addr::operator=] *)
Definition assign (m peer_ : t) : t :=
  mk (type_ peer_) (len peer_)
    [arr (dl_addr peer_) 0; arr (dl_addr peer_) 1; arr (dl_addr peer_) 2; arr (dl_addr peer_) 3; arr (dl_addr peer_) 4; arr (dl_addr peer_) 5]
    [arr (pad peer_) 0; arr (pad peer_) 1; arr (pad peer_) 2; arr (pad peer_) 3; arr (pad peer_) 4; arr (pad peer_) 5].

(** [of_action_dl_addr::operator==] *)
Definition eqb (m peer_ : t) : bool :=
  (type_ m =? type_ peer_) &&
  (len m =? len peer_) &&
  (arr (dl_addr m) 0 =? arr (dl_addr peer_) 0) &&
  (arr (dl_addr m) 1 =? arr (dl_addr peer_) 1) &&
  (arr (dl_addr m) 2 =? arr (dl_addr peer_) 2) &&
  (arr (dl_addr m) 3 =? arr (dl_addr peer_) 3) &&
  (arr (dl_addr m) 4 =? arr (dl_addr peer_) 4) &&
  (arr (dl_addr m) 5 =? arr (dl_addr peer_) 5) &&
  (arr (pad m) 0 =? arr (pad peer_) 0) &&
  (arr (pad m) 1 =? arr (pad peer_) 1) &&
  (arr (pad m) 2 =? arr (pad peer_) 2) &&
  (arr (pad m) 3 =? arr (pad peer_) 3) &&
  (arr (pad m) 4 =? arr (pad peer_) 4) &&
  (arr (pad m) 5 =? arr (pad peer_) 5).

(** The encoding, and the values that survive it. *)
Definition size : nat := 16.

Definition wire (m : t) : bytes :=
  to_be 2 (type_ m) ++ to_be 2 (len m) ++ dl_addr m ++ pad m.

Definition shape (m : t) : Prop :=
  is_array 6 (dl_addr m) /\ is_array 6 (pad m).

Definition wf (m : t) : Prop :=
  shape m /\ is_u16 (type_ m) /\ is_u16 (len m).

#[global] Instance action_dl_addr_message : Message t :=
  {| msg_size := size; msg_shape := shape; msg_wf := wf; msg_wire := wire;
     msg_pack := pack; msg_unpack := unpack; msg_assign := assign; msg_eqb := eqb |}.

Lemma action_dl_addr_wire_length m : shape m -> length (wire m) = size.
Proof. destruct m. unfold shape, wire, size, type_, len, dl_addr, pad. message_intro. solve_length. Qed.

Lemma action_dl_addr_pack_wire m b :
  shape m -> (size <= length b)%nat -> pack m b = wire m ++ drop size b.
Proof. destruct m. unfold shape, pack, wire, size, type_, len, dl_addr, pad. message_intro. solve_pack. Qed.

Lemma action_dl_addr_unpack_wire m rest : wf m -> unpack (wire m ++ rest) = Some m.
Proof.
  intros Hwf. remember (wire m ++ rest) as b eqn:Hb. change b with (drop 0 b) in Hb. revert Hwf Hb.
  destruct m. unfold wf, shape, wire, unpack, type_, len, dl_addr, pad. message_intro. solve_unpack.
Qed.

Lemma action_dl_addr_assign_copies m p : shape p -> assign m p = p.
Proof. destruct p. unfold shape, assign, type_, len, dl_addr, pad. message_intro. solve_assign. Qed.

Lemma action_dl_addr_eqb_eq m p : shape m -> shape p -> eqb m p = true <-> m = p.
Proof. destruct m, p. unfold shape, eqb, type_, len, dl_addr, pad. message_intro. solve_eqb. Qed.

#[global] Instance action_dl_addr_laws : MessageLaws t :=
  {| msg_wf_shape m H := proj1 H; msg_wire_length := action_dl_addr_wire_length;
     msg_pack_wire := action_dl_addr_pack_wire; msg_unpack_wire := action_dl_addr_unpack_wire;
     msg_assign_copies := action_dl_addr_assign_copies; msg_eqb_eq := action_dl_addr_eqb_eq |}.

#[global] Instance action_dl_addr_exact : Exact t.
Proof.
  intros b m Hb HN Hu. change (unpack b = Some m) in Hu. change (size <= length b)%nat in HN.
  change (wf m /\ wire m = take size b). unfold unpack, size in *. destruct_unpack Hu.
  unfold wf, shape, wire, type_, len, dl_addr, pad. solve_exact Hb HN.
Qed.

End of_action_dl_addr.

Module of_action_enqueue.

Record t := mk {
  type_ : Z; len : Z; port : Z; pad : bytes; queue_id : Z }.

(** [of_action_enqueue::of_action_enqueue()] *)
Definition init : t :=
  mk 0 0 0 [0; 0; 0; 0; 0; 0] 0.

(** [of_action_enqueue::of_action_enqueue(type_, ...)] *)
Definition make (type_ : Z) (len_ : Z) (port_ : Z) (pad_ : bytes) (queue_id_ : Z) : t :=
  mk type_ len_ port_ [arr pad_ 0; arr pad_ 1; arr pad_ 2; arr pad_ 3; arr pad_ 4; arr pad_ 5]
    queue_id_.

(** [of_action_enqueue::pack] *)
Definition pack (m : t) (b : bytes) : bytes :=
  let b := put16 0 (htons (type_ m)) b in
  let b := put16 2 (htons (len m)) b in
  let b := put16 4 (htons (port m)) b in
  let b := put8 6 (arr (pad m) 0) b in
  let b := put8 7 (arr (pad m) 1) b in
  let b := put8 8 (arr (pad m) 2) b in
  let b := put8 9 (arr (pad m) 3) b in
  let b := put8 10 (arr (pad m) 4) b in
  let b := put8 11 (arr (pad m) 5) b in
  let b := put32 12 (htonl (queue_id m)) b in
  b.

(** [of_action_enqueue::unpack] *)
Definition unpack (b : bytes) : option t :=
  Some (mk (ntohs (get16 0 b)) (ntohs (get16 2 b)) (ntohs (get16 4 b))
    [get8 6 b; get8 7 b; get8 8 b; get8 9 b; get8 10 b; get8 11 b] (ntohl (get32 12 b))).

(** [of_action_enqueue::operator=] *)
Definition assign (m peer_ : t) : t :=
  mk (type_ peer_) (len peer_) (port peer_)
    [arr (pad peer_) 0; arr (pad peer_) 1; arr (pad peer_) 2; arr (pad peer_) 3; arr (pad peer_) 4; arr (pad peer_) 5]
    (queue_id peer_).

(** [of_action_enqueue::operator==] *)
Definition eqb (m peer_ : t) : bool :=
  (type_ m =? type_ peer_) &&
  (len m =? len peer_) &&
  (port m =? port peer_) &&
  (arr (pad m) 0 =? arr (pad peer_) 0) &&
  (arr (pad m) 1 =? arr (pad peer_) 1) &&
  (arr (pad m) 2 =? arr (pad peer_) 2) &&
  (arr (pad m) 3 =? arr (pad peer_) 3) &&
  (arr (pad m) 4 =? arr (pad peer_) 4) &&
  (arr (pad m) 5 =? arr (pad peer_) 5) &&
  (queue_id m =? queue_id peer_).

(** The encoding, and the values that survive it. *)
Definition size : nat := 16.

Definition wire (m : t) : bytes :=
  to_be 2 (type_ m) ++ to_be 2 (len m) ++ to_be 2 (port m) ++ pad m ++ to_be 4 (queue_id m).

Definition shape (m : t) : Prop :=
  is_array 6 (pad m).

Definition wf (m : t) : Prop :=
  shape m /\ is_u16 (type_ m) /\ is_u16 (len m) /\ is_u16 (port m) /\ is_u32 (queue_id m).

#[global] Instance action_enqueue_message : Message t :=
  {| msg_size := size; msg_shape := shape; msg_wf := wf; msg_wire := wire;
     msg_pack := pack; msg_unpack := unpack; msg_assign := assign; msg_eqb := eqb |}.

Lemma action_enqueue_wire_length m : shape m -> length (wire m) = size.
Proof. destruct m. unfold shape, wire, size, type_, len, port, pad, queue_id. message_intro. solve_length. Qed.

Lemma action_enqueue_pack_wire m b :
  shape m -> (size <= length b)%nat -> pack m b = wire m ++ drop size b.
Proof. destruct m. unfold shape, pack, wire, size, type_, len, port, pad, queue_id. message_intro. solve_pack. Qed.

Lemma action_enqueue_unpack_wire m rest : wf m -> unpack (wire m ++ rest) = Some m.
Proof.
  intros Hwf. remember (wire m ++ rest) as b eqn:Hb. change b with (drop 0 b) in Hb. revert Hwf Hb.
  destruct m. unfold wf, shape, wire, unpack, type_, len, port, pad, queue_id. message_intro. solve_unpack.
Qed.

Lemma action_enqueue_assign_copies m p : shape p -> assign m p = p.
Proof. destruct p. unfold shape, assign, type_, len, port, pad, queue_id. message_intro. solve_assign. Qed.

Lemma action_enqueue_eqb_eq m p : shape m -> shape p -> eqb m p = true <-> m = p.
Proof. destruct m, p. unfold shape, eqb, type_, len, port, pad, queue_id. message_intro. solve_eqb. Qed.

#[global] Instance action_enqueue_laws : MessageLaws t :=
  {| msg_wf_shape m H := proj1 H; msg_wire_length := action_enqueue_wire_length;
     msg_pack_wire := action_enqueue_pack_wire; msg_unpack_wire := action_enqueue_unpack_wire;
     msg_assign_copies := action_enqueue_assign_copies; msg_eqb_eq := action_enqueue_eqb_eq |}.

#[global] Instance action_enqueue_exact : Exact t.
Proof.
  intros b m Hb HN Hu. change (unpack b = Some m) in Hu. change (size <= length b)%nat in HN.
  change (wf m /\ wire m = take size b). unfold unpack, size in *. destruct_unpack Hu.
  unfold wf, shape, wire, type_, len, port, pad, queue_id. solve_exact Hb HN.
Qed.

End of_action_enqueue.

Module of_action_nw_addr.

Record t := mk {
  type_ : Z; len : Z; nw_addr : Z }.

(** [of_action_nw_addr::of_action_nw_addr()] *)
Definition init : t :=
  mk 0 0 0.

(** [of_action_nw_addr::of_action_nw_addr(type_, ...)] *)
Definition make (type_ : Z) (len_ : Z) (nw_addr_ : Z) : t :=
  mk type_ len_ nw_addr_.

(** [of_action_nw_addr::pack] *)
Definition pack (m : t) (b : bytes) : bytes :=
  let b := put16 0 (htons (type_ m)) b in
  let b := put16 2 (htons (len m)) b in
  let b := put32 4 (htonl (nw_addr m)) b in
  b.

(** [of_action_nw_addr::unpack] *)
Definition unpack (b : bytes) : option t :=
  Some (mk (ntohs (get16 0 b)) (ntohs (get16 2 b)) (ntohl (get32 4 b))).

(** [of_action_nw_addr::operator=] *)
Definition assign (m peer_ : t) : t :=
  mk (type_ peer_) (len peer_) (nw_addr peer_).

(** [of_action_nw_addr::operator==] *)
Definition eqb (m peer_ : t) : bool :=
  (type_ m =? type_ peer_) &&
  (len m =? len peer_) &&
  (nw_addr m =? nw_addr peer_).

(** The encoding, and the values that survive it. *)
Definition size : nat := 8.

Definition wire (m : t) : bytes :=
  to_be 2 (type_ m) ++ to_be 2 (len m) ++ to_be 4 (nw_addr m).

Definition shape (m : t) : Prop :=
  True.

Definition wf (m : t) : Prop :=
  shape m /\ is_u16 (type_ m) /\ is_u16 (len m) /\ is_u32 (nw_addr m).

#[global] Instance action_nw_addr_message : Message t :=
  {| msg_size := size; msg_shape := shape; msg_wf := wf; msg_wire := wire;
     msg_pack := pack; msg_unpack := unpack; msg_assign := assign; msg_eqb := eqb |}.

Lemma action_nw_addr_wire_length m : shape m -> length (wire m) = size.
Proof. destruct m. unfold shape, wire, size, type_, len, nw_addr. message_intro. solve_length. Qed.

Lemma action_nw_addr_pack_wire m b :
  shape m -> (size <= length b)%nat -> pack m b = wire m ++ drop size b.
Proof. destruct m. unfold shape, pack, wire, size, type_, len, nw_addr. message_intro. solve_pack. Qed.

Lemma action_nw_addr_unpack_wire m rest : wf m -> unpack (wire m ++ rest) = Some m.
Proof.
  intros Hwf. remember (wire m ++ rest) as b eqn:Hb. change b with (drop 0 b) in Hb. revert Hwf Hb.
  destruct m. unfold wf, shape, wire, unpack, type_, len, nw_addr. message_intro. solve_unpack.
Qed.

Lemma action_nw_addr_assign_copies m p : shape p -> assign m p = p.
Proof. destruct p. unfold shape, assign, type_, len, nw_addr. message_intro. solve_assign. Qed.

Lemma action_nw_addr_eqb_eq m p : shape m -> shape p -> eqb m p = true <-> m = p.
Proof. destruct m, p. unfold shape, eqb, type_, len, nw_addr. message_intro. solve_eqb. Qed.

#[global] Instance action_nw_addr_laws : MessageLaws t :=
  {| msg_wf_shape m H := proj1 H; msg_wire_length := action_nw_addr_wire_length;
     msg_pack_wire := action_nw_addr_pack_wire; msg_unpack_wire := action_nw_addr_unpack_wire;
     msg_assign_copies := action_nw_addr_assign_copies; msg_eqb_eq := action_nw_addr_eqb_eq |}.

#[global] Instance action_nw_addr_exact : Exact t.
Proof.
  intros b m Hb HN Hu. change (unpack b = Some m) in Hu. change (size <= length b)%nat in HN.
  change (wf m /\ wire m = take size b). unfold unpack, size in *. destruct_unpack Hu.
  unfold wf, shape, wire, type_, len, nw_addr. solve_exact Hb HN.
Qed.

End of_action_nw_addr.

Module of_action_vlan_pcp.

Record t := mk {
  type_ : Z; len : Z; vlan_pcp : Z; pad : bytes }.

(** [of_action_vlan_pcp::of_action_vlan_pcp()] *)
Definition init : t :=
  mk OFPAT_SET_VLAN_PCP 0 0 [0; 0; 0].

(** [of_action_vlan_pcp::of_action_vlan_pcp(type_, ...)] *)
Definition make (type_ : Z) (len_ : Z) (vlan_pcp_ : Z) (pad_ : bytes) : t :=
  mk type_ len_ vlan_pcp_ [arr pad_ 0; arr pad_ 1; arr pad_ 2].

(** [of_action_vlan_pcp::pack] *)
Definition pack (m : t) (b : bytes) : bytes :=
  let b := put16 0 (htons (type_ m)) b in
  let b := put16 2 (htons (len m)) b in
  let b := put8 4 (vlan_pcp m) b in
  let b := put8 5 (arr (pad m) 0) b in
  let b := put8 6 (arr (pad m) 1) b in
  let b := put8 7 (arr (pad m) 2) b in
  b.

(** [of_action_vlan_pcp::unpack] *)
Definition unpack (b : bytes) : option t :=
  Some (mk (ntohs (get16 0 b)) (ntohs (get16 2 b)) (get8 4 b) [get8 5 b; get8 6 b; get8 7 b]).

(** [of_action_vlan_pcp::operator=] *)
Definition assign (m peer_ : t) : t :=
  mk (type_ peer_) (len peer_) (vlan_pcp peer_)
    [arr (pad peer_) 0; arr (pad peer_) 1; arr (pad peer_) 2].

(** [of_action_vlan_pcp::operator==] *)
Definition eqb (m peer_ : t) : bool :=
  (type_ m =? type_ peer_) &&
  (len m =? len peer_) &&
  (vlan_pcp m =? vlan_pcp peer_) &&
  (arr (pad m) 0 =? arr (pad peer_) 0) &&
  (arr (pad m) 1 =? arr (pad peer_) 1) &&
  (arr (pad m) 2 =? arr (pad peer_) 2).

(** The encoding, and the values that survive it. *)
Definition size : nat := 8.

Definition wire (m : t) : bytes :=
  to_be 2 (type_ m) ++ to_be 2 (len m) ++ [vlan_pcp m] ++ pad m.

Definition shape (m : t) : Prop :=
  is_array 3 (pad m).

Definition wf (m : t) : Prop :=
  shape m /\ is_u16 (type_ m) /\ is_u16 (len m) /\ is_u8 (vlan_pcp m).

#[global] Instance action_vlan_pcp_message : Message t :=
  {| msg_size := size; msg_shape := shape; msg_wf := wf; msg_wire := wire;
     msg_pack := pack; msg_unpack := unpack; msg_assign := assign; msg_eqb := eqb |}.

Lemma action_vlan_pcp_wire_length m : shape m -> length (wire m) = size.
Proof. destruct m. unfold shape, wire, size, type_, len, vlan_pcp, pad. message_intro. solve_length. Qed.

Lemma action_vlan_pcp_pack_wire m b :
  shape m -> (size <= length b)%nat -> pack m b = wire m ++ drop size b.
Proof. destruct m. unfold shape, pack, wire, size, type_, len, vlan_pcp, pad. message_intro. solve_pack. Qed.

Lemma action_vlan_pcp_unpack_wire m rest : wf m -> unpack (wire m ++ rest) = Some m.
Proof.
  intros Hwf. remember (wire m ++ rest) as b eqn:Hb. change b with (drop 0 b) in Hb. revert Hwf Hb.
  destruct m. unfold wf, shape, wire, unpack, type_, len, vlan_pcp, pad. message_intro. solve_unpack.
Qed.

Lemma action_vlan_pcp_assign_copies m p : shape p -> assign m p = p.
Proof. destruct p. unfold shape, assign, type_, len, vlan_pcp, pad. message_intro. solve_assign. Qed.

Lemma action_vlan_pcp_eqb_eq m p : shape m -> shape p -> eqb m p = true <-> m = p.
Proof. destruct m, p. unfold shape, eqb, type_, len, vlan_pcp, pad. message_intro. solve_eqb. Qed.

#[global] Instance action_vlan_pcp_laws : MessageLaws t :=
  {| msg_wf_shape m H := proj1 H; msg_wire_length := action_vlan_pcp_wire_length;
     msg_pack_wire := action_vlan_pcp_pack_wire; msg_unpack_wire := action_vlan_pcp_unpack_wire;
     msg_assign_copies := action_vlan_pcp_assign_copies; msg_eqb_eq := action_vlan_pcp_eqb_eq |}.

#[global] Instance action_vlan_pcp_exact : Exact t.
Proof.
  intros b m Hb HN Hu. change (unpack b = Some m) in Hu. change (size <= length b)%nat in HN.
  change (wf m /\ wire m = take size b). unfold unpack, size in *. destruct_unpack Hu.
  unfold wf, shape, wire, type_, len, vlan_pcp, pad. solve_exact Hb HN.
Qed.

End of_action_vlan_pcp.
