(* ===== verification/OfpStats.v ===== *)
(** * OpenFlow statistics: the [of_*_stats*] wrappers of openflow-pack-raw.cc *)

From S2P Require Import Prelude Bytes OfpWire OfpCore.

Open Scope Z_scope.

Module of_aggregate_stats_reply.

Record t := mk {
  packet_count : Z; byte_count : Z; flow_count : Z; pad : bytes }.

(** [of_aggregate_stats_reply::of_aggregate_stats_reply()] *)
Definition init : t :=
  mk 0 0 0 [0; 0; 0; 0].

(** [of_aggregate_stats_reply::of_aggregate_stats_reply(packet_count_, ...)] *)
Definition make (packet_count_ : Z) (byte_count_ : Z) (flow_count_ : Z) (pad_ : bytes) : t :=
  mk packet_count_ byte_count_ flow_count_ [arr pad_ 0; arr pad_ 1; arr pad_ 2; arr pad_ 3].

(** [of_aggregate_stats_reply::pack] *)
Definition pack (m : t) (b : bytes) : bytes :=
  let b := put64 0 (htonll (packet_count m)) b in
  let b := put64 8 (htonll (byte_count m)) b in
  let b := put32 16 (htonl (flow_count m)) b in
  let b := put8 20 (arr (pad m) 0) b in
  let b := put8 21 (arr (pad m) 1) b in
  let b := put8 22 (arr (pad m) 2) b in
  let b := put8 23 (arr (pad m) 3) b in
  b.

(** [of_aggregate_stats_reply::unpack] *)
Definition unpack (b : bytes) : option t :=
  Some (mk (ntohll (get64 0 b)) (ntohll (get64 8 b)) (ntohl (get32 16 b))
    [get8 20 b; get8 21 b; get8 22 b; get8 23 b]).

(** [of_aggregate_stats_reply::operator=] *)
Definition assign (m peer_ : t) : t :=
  mk (packet_count peer_) (byte_count peer_) (flow_count peer_)
    [arr (pad peer_) 0; arr (pad peer_) 1; arr (pad peer_) 2; arr (pad peer_) 3].

(** [of_aggregate_stats_reply::operator==] *)
Definition eqb (m peer_ : t) : bool :=
  (packet_count m =? packet_count peer_) &&
  (byte_count m =? byte_count peer_) &&
  (flow_count m =? flow_count peer_) &&
  (arr (pad m) 0 =? arr (pad peer_) 0) &&
  (arr (pad m) 1 =? arr (pad peer_) 1) &&
  (arr (pad m) 2 =? arr (pad peer_) 2) &&
  (arr (pad m) 3 =? arr (pad peer_) 3).

(** The encoding, and the values that survive it. *)
Definition size : nat := 24.

Definition wire (m : t) : bytes :=
  to_be 8 (packet_count m) ++ to_be 8 (byte_count m) ++ to_be 4 (flow_count m) ++ pad m.

Definition shape (m : t) : Prop :=
  is_array 4 (pad m).

Definition wf (m : t) : Prop :=
  shape m /\ is_u64 (packet_count m) /\ is_u64 (byte_count m) /\ is_u32 (flow_count m).

#[global] Instance aggregate_stats_reply_message : Message t :=
  {| msg_size := size; msg_shape := shape; msg_wf := wf; msg_wire := wire;
     msg_pack := pack; msg_unpack := unpack; msg_assign := assign; msg_eqb := eqb |}.

Lemma aggregate_stats_reply_wire_length m : shape m -> length (wire m) = size.
Proof. destruct m. unfold shape, wire, size, packet_count, byte_count, flow_count, pad. message_intro. solve_length. Qed.

Lemma aggregate_stats_reply_pack_wire m b :
  shape m -> (size <= length b)%nat -> pack m b = wire m ++ drop size b.
Proof. destruct m. unfold shape, pack, wire, size, packet_count, byte_count, flow_count, pad. message_intro. solve_pack. Qed.

Lemma aggregate_stats_reply_unpack_wire m rest : wf m -> unpack (wire m ++ rest) = Some m.
Proof.
  intros Hwf. remember (wire m ++ rest) as b eqn:Hb. change b with (drop 0 b) in Hb. revert Hwf Hb.
  destruct m. unfold wf, shape, wire, unpack, packet_count, byte_count, flow_count, pad. message_intro. solve_unpack.
Qed.

Lemma aggregate_stats_reply_assign_copies m p : shape p -> assign m p = p.
Proof. destruct p. unfold shape, assign, packet_count, byte_count, flow_count, pad. message_intro. solve_assign. Qed.

Lemma aggregate_stats_reply_eqb_eq m p : shape m -> shape p -> eqb m p = true <-> m = p.
Proof. destruct m, p. unfold shape, eqb, packet_count, byte_count, flow_count, pad. message_intro. solve_eqb. Qed.

#[global] Instance aggregate_stats_reply_laws : MessageLaws t :=
  {| msg_wf_shape m H := proj1 H; msg_wire_length := aggregate_stats_reply_wire_length;
     msg_pack_wire := aggregate_stats_reply_pack_wire; msg_unpack_wire := aggregate_stats_reply_unpack_wire;
     msg_assign_copies := aggregate_stats_reply_assign_copies; msg_eqb_eq := aggregate_stats_reply_eqb_eq |}.

#[global] Instance aggregate_stats_reply_exact : Exact t.
Proof.
  intros b m Hb HN Hu. change (unpack b = Some m) in Hu. change (size <= length b)%nat in HN.
  change (wf m /\ wire m = take size b). unfold unpack, size in *. destruct_unpack Hu.
  unfold wf, shape, wire, packet_count, byte_count, flow_count, pad. solve_exact Hb HN.
Qed.

End of_aggregate_stats_reply.

Module of_table_stats.

Record t := mk {
  table_id : Z; pad : bytes; name : bytes; wildcards : Z; max_entries : Z; active_count : Z;
  lookup_count : Z; matched_count : Z }.

(** [of_table_stats::of_table_stats()] *)
Definition init : t :=
  mk 0 [0; 0; 0] [] 0 0 0 0 0.

(** [of_table_stats::of_table_stats(table_id_, ...)] *)
Definition make (table_id_ : Z) (pad_ : bytes) (name_ : bytes) (wildcards_ : Z)
    (max_entries_ : Z) (active_count_ : Z) (lookup_count_ : Z) (matched_count_ : Z) : t :=
  mk table_id_ [arr pad_ 0; arr pad_ 1; arr pad_ 2] name_ wildcards_ max_entries_ active_count_
    lookup_count_ matched_count_.

(** [of_table_stats::pack] *)
Definition pack (m : t) (b : bytes) : bytes :=
  let b := put8 0 (table_id m) b in
  let b := put8 1 (arr (pad m) 0) b in
  let b := put8 2 (arr (pad m) 1) b in
  let b := put8 3 (arr (pad m) 2) b in
  let b := put_strncpy 4 31 (name m) b in
  let b := put8 35 0 b in
  let b := put32 36 (htonl (wildcards m)) b in
  let b := put32 40 (htonl (max_entries m)) b in
  let b := put32 44 (htonl (active_count m)) b in
  let b := put64 48 (htonll (lookup_count m)) b in
  let b := put64 56 (htonll (matched_count m)) b in
  b.

(** [of_table_stats::unpack] *)
Definition unpack (b : bytes) : option t :=
  name_ ← read_cstr (drop 4 b);
  Some (mk (get8 0 b) [get8 1 b; get8 2 b; get8 3 b] name_ (ntohl (get32 36 b))
    (ntohl (get32 40 b)) (ntohl (get32 44 b)) (ntohll (get64 48 b)) (ntohll (get64 56 b))).

(** [of_table_stats::operator=] *)
Definition assign (m peer_ : t) : t :=
  mk (table_id peer_) [arr (pad peer_) 0; arr (pad peer_) 1; arr (pad peer_) 2] (name peer_)
    (wildcards peer_) (max_entries peer_) (active_count peer_) (lookup_count peer_)
    (matched_count peer_).

(** [of_table_stats::operator==] *)
Definition eqb (m peer_ : t) : bool :=
  (table_id m =? table_id peer_) &&
  (arr (pad m) 0 =? arr (pad peer_) 0) &&
  (arr (pad m) 1 =? arr (pad peer_) 1) &&
  (arr (pad m) 2 =? arr (pad peer_) 2) &&
  bool_decide (name m = name peer_) &&
  (wildcards m =? wildcards peer_) &&
  (max_entries m =? max_entries peer_) &&
  (active_count m =? active_count peer_) &&
  (lookup_count m =? lookup_count peer_) &&
  (matched_count m =? matched_count peer_).

(** The encoding, and the values that survive it. *)
Definition size : nat := 64.

Definition wire (m : t) : bytes :=
  [table_id m] ++ pad m ++ fixed_string 32 (name m) ++ to_be 4 (wildcards m) ++
  to_be 4 (max_entries m) ++ to_be 4 (active_count m) ++ to_be 8 (lookup_count m) ++
  to_be 8 (matched_count m).

Definition shape (m : t) : Prop :=
  is_array 3 (pad m).

Definition wf (m : t) : Prop :=
  shape m /\ is_u8 (table_id m) /\ is_name 32 (name m) /\ is_u32 (wildcards m) /\
  is_u32 (max_entries m) /\ is_u32 (active_count m) /\ is_u64 (lookup_count m) /\
  is_u64 (matched_count m).

#[global] Instance table_stats_message : Message t :=
  {| msg_size := size; msg_shape := shape; msg_wf := wf; msg_wire := wire;
     msg_pack := pack; msg_unpack := unpack; msg_assign := assign; msg_eqb := eqb |}.

Lemma table_stats_wire_length m : shape m -> length (wire m) = size.
Proof. destruct m. unfold shape, wire, size, table_id, pad, name, wildcards, max_entries, active_count, lookup_count, matched_count. message_intro. solve_length. Qed.

Lemma table_stats_pack_wire m b :
  shape m -> (size <= length b)%nat -> pack m b = wire m ++ drop size b.
Proof. destruct m. unfold shape, pack, wire, size, table_id, pad, name, wildcards, max_entries, active_count, lookup_count, matched_count. message_intro. solve_pack. Qed.

Lemma table_stats_unpack_wire m rest : wf m -> unpack (wire m ++ rest) = Some m.
Proof.
  intros Hwf. remember (wire m ++ rest) as b eqn:Hb. change b with (drop 0 b) in Hb. revert Hwf Hb.
  destruct m. unfold wf, shape, wire, unpack, table_id, pad, name, wildcards, max_entries, active_count, lookup_count, matched_count. message_intro. solve_unpack.
Qed.

Lemma table_stats_assign_copies m p : shape p -> assign m p = p.
Proof. destruct p. unfold shape, assign, table_id, pad, name, wildcards, max_entries, active_count, lookup_count, matched_count. message_intro. solve_assign. Qed.

Lemma table_stats_eqb_eq m p : shape m -> shape p -> eqb m p = true <-> m = p.
Proof. destruct m, p. unfold shape, eqb, table_id, pad, name, wildcards, max_entries, active_count, lookup_count, matched_count. message_intro. solve_eqb. Qed.

#[global] Instance table_stats_laws : MessageLaws t :=
  {| msg_wf_shape m H := proj1 H; msg_wire_length := table_stats_wire_length;
     msg_pack_wire := table_stats_pack_wire; msg_unpack_wire := table_stats_unpack_wire;
     msg_assign_copies := table_stats_assign_copies; msg_eqb_eq := table_stats_eqb_eq |}.

End of_table_stats.

Module of_port_stats.

Record t := mk {
  port_no : Z; pad : bytes; rx_packets : Z; tx_packets : Z; rx_bytes : Z; tx_bytes : Z;
  rx_dropped : Z; tx_dropped : Z; rx_errors : Z; tx_errors : Z; rx_frame_err : Z;
  rx_over_err : Z; rx_crc_err : Z; collisions : Z }.

(** [of_port_stats::of_port_stats()] *)
Definition init : t :=
  mk 0 [0; 0; 0; 0; 0; 0] 0 0 0 0 0 0 0 0 0 0 0 0.

(** [of_port_stats::of_port_stats(port_no_, ...)] *)
Definition make (port_no_ : Z) (pad_ : bytes) (rx_packets_ : Z) (tx_packets_ : Z)
    (rx_bytes_ : Z) (tx_bytes_ : Z) (rx_dropped_ : Z) (tx_dropped_ : Z) (rx_errors_ : Z)
    (tx_errors_ : Z) (rx_frame_err_ : Z) (rx_over_err_ : Z) (rx_crc_err_ : Z)
    (collisions_ : Z) : t :=
  mk port_no_ [arr pad_ 0; arr pad_ 1; arr pad_ 2; arr pad_ 3; arr pad_ 4; arr pad_ 5]
    rx_packets_ tx_packets_ rx_bytes_ tx_bytes_ rx_dropped_ tx_dropped_ rx_errors_ tx_errors_
    rx_frame_err_ rx_over_err_ rx_crc_err_ collisions_.

(** [of_port_stats::pack] *)
Definition pack (m : t) (b : bytes) : bytes :=
  let b := put16 0 (htons (port_no m)) b in
  let b := put8 2 (arr (pad m) 0) b in
  let b := put8 3 (arr (pad m) 1) b in
  let b := put8 4 (arr (pad m) 2) b in
  let b := put8 5 (arr (pad m) 3) b in
  let b := put8 6 (arr (pad m) 4) b in
  let b := put8 7 (arr (pad m) 5) b in
  let b := put64 8 (htonll (rx_packets m)) b in
  let b := put64 16 (htonll (tx_packets m)) b in
  let b := put64 24 (htonll (rx_bytes m)) b in
  let b := put64 32 (htonll (tx_bytes m)) b in
  let b := put64 40 (htonll (rx_dropped m)) b in
  let b := put64 48 (htonll (tx_dropped m)) b in
  let b := put64 56 (htonll (rx_errors m)) b in
  let b := put64 64 (htonll (tx_errors m)) b in
  let b := put64 72 (htonll (rx_frame_err m)) b in
  let b := put64 80 (htonll (rx_over_err m)) b in
  let b := put64 88 (htonll (rx_crc_err m)) b in
  let b := put64 96 (htonll (collisions m)) b in
  b.

(** [of_port_stats::unpack] *)
Definition unpack (b : bytes) : option t :=
  Some (mk (ntohs (get16 0 b)) [get8 2 b; get8 3 b; get8 4 b; get8 5 b; get8 6 b; get8 7 b]
    (ntohll (get64 8 b)) (ntohll (get64 16 b)) (ntohll (get64 24 b)) (ntohll (get64 32 b))
    (ntohll (get64 40 b)) (ntohll (get64 48 b)) (ntohll (get64 56 b)) (ntohll (get64 64 b))
    (ntohll (get64 72 b)) (ntohll (get64 80 b)) (ntohll (get64 88 b)) (ntohll (get64 96 b))).

(** [of_port_stats::operator=] *)
Definition assign (m peer_ : t) : t :=
  mk (port_no peer_)
    [arr (pad peer_) 0; arr (pad peer_) 1; arr (pad peer_) 2; arr (pad peer_) 3; arr (pad peer_) 4; arr (pad peer_) 5]
    (rx_packets peer_) (tx_packets peer_) (rx_bytes peer_) (tx_bytes peer_) (rx_dropped peer_)
    (tx_dropped peer_) (rx_errors peer_) (tx_errors peer_) (rx_frame_err peer_)
    (rx_over_err peer_) (rx_crc_err peer_) (collisions peer_).

(** [of_port_stats::operator==] *)
Definition eqb (m peer_ : t) : bool :=
  (port_no m =? port_no peer_) &&
  (arr (pad m) 0 =? arr (pad peer_) 0) &&
  (arr (pad m) 1 =? arr (pad peer_) 1) &&
  (arr (pad m) 2 =? arr (pad peer_) 2) &&
  (arr (pad m) 3 =? arr (pad peer_) 3) &&
  (arr (pad m) 4 =? arr (pad peer_) 4) &&
  (arr (pad m) 5 =? arr (pad peer_) 5) &&
  (rx_packets m =? rx_packets peer_) &&
  (tx_packets m =? tx_packets peer_) &&
  (rx_bytes m =? rx_bytes peer_) &&
  (tx_bytes m =? tx_bytes peer_) &&
  (rx_dropped m =? rx_dropped peer_) &&
  (tx_dropped m =? tx_dropped peer_) &&
  (rx_errors m =? rx_errors peer_) &&
  (tx_errors m =? tx_errors peer_) &&
  (rx_frame_err m =? rx_frame_err peer_) &&
  (rx_over_err m =? rx_over_err peer_) &&
  (rx_crc_err m =? rx_crc_err peer_) &&
  (collisions m =? collisions peer_).

(** The encoding, and the values that survive it. *)
Definition size : nat := 104.

Definition wire (m : t) : bytes :=
  to_be 2 (port_no m) ++ pad m ++ to_be 8 (rx_packets m) ++ to_be 8 (tx_packets m) ++
  to_be 8 (rx_bytes m) ++ to_be 8 (tx_bytes m) ++ to_be 8 (rx_dropped m) ++
  to_be 8 (tx_dropped m) ++ to_be 8 (rx_errors m) ++ to_be 8 (tx_errors m) ++
  to_be 8 (rx_frame_err m) ++ to_be 8 (rx_over_err m) ++ to_be 8 (rx_crc_err m) ++
  to_be 8 (collisions m).

Definition shape (m : t) : Prop :=
  is_array 6 (pad m).

Definition wf (m : t) : Prop :=
  shape m /\ is_u16 (port_no m) /\ is_u64 (rx_packets m) /\ is_u64 (tx_packets m) /\
  is_u64 (rx_bytes m) /\ is_u64 (tx_bytes m) /\ is_u64 (rx_dropped m) /\
  is_u64 (tx_dropped m) /\ is_u64 (rx_errors m) /\ is_u64 (tx_errors m) /\
  is_u64 (rx_frame_err m) /\ is_u64 (rx_over_err m) /\ is_u64 (rx_crc_err m) /\
  is_u64 (collisions m).

#[global] Instance port_stats_message : Message t :=
  {| msg_size := size; msg_shape := shape; msg_wf := wf; msg_wire := wire;
     msg_pack := pack; msg_unpack := unpack; msg_assign := assign; msg_eqb := eqb |}.

Lemma port_stats_wire_length m : shape m -> length (wire m) = size.
Proof. destruct m. unfold shape, wire, size, port_no, pad, rx_packets, tx_packets, rx_bytes, tx_bytes, rx_dropped, tx_dropped, rx_errors, tx_errors, rx_frame_err, rx_over_err, rx_crc_err, collisions. message_intro. solve_length. Qed.

Lemma port_stats_pack_wire m b :
  shape m -> (size <= length b)%nat -> pack m b = wire m ++ drop size b.
Proof. destruct m. unfold shape, pack, wire, size, port_no, pad, rx_packets, tx_packets, rx_bytes, tx_bytes, rx_dropped, tx_dropped, rx_errors, tx_errors, rx_frame_err, rx_over_err, rx_crc_err, collisions. message_intro. solve_pack. Qed.

Lemma port_stats_unpack_wire m rest : wf m -> unpack (wire m ++ rest) = Some m.
Proof.
  intros Hwf. remember (wire m ++ rest) as b eqn:Hb. change b with (drop 0 b) in Hb. revert Hwf Hb.
  destruct m. unfold wf, shape, wire, unpack, port_no, pad, rx_packets, tx_packets, rx_bytes, tx_bytes, rx_dropped, tx_dropped, rx_errors, tx_errors, rx_frame_err, rx_over_err, rx_crc_err, collisions. message_intro. solve_unpack.
Qed.

Lemma port_stats_assign_copies m p : shape p -> assign m p = p.
Proof. destruct p. unfold shape, assign, port_no, pad, rx_packets, tx_packets, rx_bytes, tx_bytes, rx_dropped, tx_dropped, rx_errors, tx_errors, rx_frame_err, rx_over_err, rx_crc_err, collisions. message_intro. solve_assign. Qed.

Lemma port_stats_eqb_eq m p : shape m -> shape p -> eqb m p = true <-> m = p.
Proof. destruct m, p. unfold shape, eqb, port_no, pad, rx_packets, tx_packets, rx_bytes, tx_bytes, rx_dropped, tx_dropped, rx_errors, tx_errors, rx_frame_err, rx_over_err, rx_crc_err, collisions. message_intro. solve_eqb. Qed.

#[global] Instance port_stats_laws : MessageLaws t :=
  {| msg_wf_shape m H := proj1 H; msg_wire_length := port_stats_wire_length;
     msg_pack_wire := port_stats_pack_wire; msg_unpack_wire := port_stats_unpack_wire;
     msg_assign_copies := port_stats_assign_copies; msg_eqb_eq := port_stats_eqb_eq |}.

#[global] Instance port_stats_exact : Exact t.
Proof.
  intros b m Hb HN Hu. change (unpack b = Some m) in Hu. change (size <= length b)%nat in HN.
  change (wf m /\ wire m = take size b). unfold unpack, size in *. destruct_unpack Hu.
  unfold wf, shape, wire, port_no, pad, rx_packets, tx_packets, rx_bytes, tx_bytes, rx_dropped, tx_dropped, rx_errors, tx_errors, rx_frame_err, rx_over_err, rx_crc_err, collisions. solve_exact Hb HN.
Qed.

End of_port_stats.

Module of_queue_stats.

Record t := mk {
  port_no : Z; pad : bytes; queue_id : Z; tx_bytes : Z; tx_packets : Z; tx_errors : Z }.

(** [of_queue_stats::of_queue_stats()] *)
Definition init : t :=
  mk 0 [0; 0] 0 0 0 0.

(** [of_queue_stats::of_queue_stats(port_no_, ...)] *)
Definition make (port_no_ : Z) (pad_ : bytes) (queue_id_ : Z) (tx_bytes_ : Z) (tx_packets_ : Z)
    (tx_errors_ : Z) : t :=
  mk port_no_ [arr pad_ 0; arr pad_ 1] queue_id_ tx_bytes_ tx_packets_ tx_errors_.

(** [of_queue_stats::pack] *)
Definition pack (m : t) (b : bytes) : bytes :=
  let b := put16 0 (htons (port_no m)) b in
  let b := put8 2 (arr (pad m) 0) b in
  let b := put8 3 (arr (pad m) 1) b in
  let b := put32 4 (htonl (queue_id m)) b in
  let b := put64 8 (htonll (tx_bytes m)) b in
  let b := put64 16 (htonll (tx_packets m)) b in
  let b := put64 24 (htonll (tx_errors m)) b in
  b.

(** [of_queue_stats::unpack] *)
Definition unpack (b : bytes) : option t :=
  Some (mk (ntohs (get16 0 b)) [get8 2 b; get8 3 b] (ntohl (get32 4 b)) (ntohll (get64 8 b))
    (ntohll (get64 16 b)) (ntohll (get64 24 b))).

(** [of_queue_stats::operator=] *)
Definition assign (m peer_ : t) : t :=
  mk (port_no peer_) [arr (pad peer_) 0; arr (pad peer_) 1] (queue_id peer_) (tx_bytes peer_)
    (tx_packets peer_) (tx_errors peer_).

(** [of_queue_stats::operator==] *)
Definition eqb (m peer_ : t) : bool :=
  (port_no m =? port_no peer_) &&
  (arr (pad m) 0 =? arr (pad peer_) 0) &&
  (arr (pad m) 1 =? arr (pad peer_) 1) &&
  (queue_id m =? queue_id peer_) &&
  (tx_bytes m =? tx_bytes peer_) &&
  (tx_packets m =? tx_packets peer_) &&
  (tx_errors m =? tx_errors peer_).

(** The encoding, and the values that survive it. *)
Definition size : nat := 32.

Definition wire (m : t) : bytes :=
  to_be 2 (port_no m) ++ pad m ++ to_be 4 (queue_id m) ++ to_be 8 (tx_bytes m) ++
  to_be 8 (tx_packets m) ++ to_be 8 (tx_errors m).

Definition shape (m : t) : Prop :=
  is_array 2 (pad m).

Definition wf (m : t) : Prop :=
  shape m /\ is_u16 (port_no m) /\ is_u32 (queue_id m) /\ is_u64 (tx_bytes m) /\
  is_u64 (tx_packets m) /\ is_u64 (tx_errors m).

#[global] Instance queue_stats_message : Message t :=
  {| msg_size := size; msg_shape := shape; msg_wf := wf; msg_wire := wire;
     msg_pack := pack; msg_unpack := unpack; msg_assign := assign; msg_eqb := eqb |}.

Lemma queue_stats_wire_length m : shape m -> length (wire m) = size.
Proof. destruct m. unfold shape, wire, size, port_no, pad, queue_id, tx_bytes, tx_packets, tx_errors. message_intro. solve_length. Qed.

Lemma queue_stats_pack_wire m b :
  shape m -> (size <= length b)%nat -> pack m b = wire m ++ drop size b.
Proof. destruct m. unfold shape, pack, wire, size, port_no, pad, queue_id, tx_bytes, tx_packets, tx_errors. message_intro. solve_pack. Qed.

Lemma queue_stats_unpack_wire m rest : wf m -> unpack (wire m ++ rest) = Some m.
Proof.
  intros Hwf. remember (wire m ++ rest) as b eqn:Hb. change b with (drop 0 b) in Hb. revert Hwf Hb.
  destruct m. unfold wf, shape, wire, unpack, port_no, pad, queue_id, tx_bytes, tx_packets, tx_errors. message_intro. solve_unpack.
Qed.

Lemma queue_stats_assign_copies m p : shape p -> assign m p = p.
Proof. destruct p. unfold shape, assign, port_no, pad, queue_id, tx_bytes, tx_packets, tx_errors. message_intro. solve_assign. Qed.

Lemma queue_stats_eqb_eq m p : shape m -> shape p -> eqb m p = true <-> m = p.
Proof. destruct m, p. unfold shape, eqb, port_no, pad, queue_id, tx_bytes, tx_packets, tx_errors. message_intro. solve_eqb. Qed.

#[global] Instance queue_stats_laws : MessageLaws t :=
  {| msg_wf_shape m H := proj1 H; msg_wire_length := queue_stats_wire_length;
     msg_pack_wire := queue_stats_pack_wire; msg_unpack_wire := queue_stats_unpack_wire;
     msg_assign_copies := queue_stats_assign_copies; msg_eqb_eq := queue_stats_eqb_eq |}.

#[global] Instance queue_stats_exact : Exact t.
Proof.
  intros b m Hb HN Hu. change (unpack b = Some m) in Hu. change (size <= length b)%nat in HN.
  change (wf m /\ wire m = take size b). unfold unpack, size in *. destruct_unpack Hu.
  unfold wf, shape, wire, port_no, pad, queue_id, tx_bytes, tx_packets, tx_errors. solve_exact Hb HN.
Qed.

End of_queue_stats.

Module of_port_stats_request.

Record t := mk {
  port_no : Z; pad : bytes }.

(** [of_port_stats_request::of_port_stats_request()] *)
Definition init : t :=
  mk 0 [0; 0; 0; 0; 0; 0].

(** [of_port_stats_request::of_port_stats_request(port_no_, ...)] *)
Definition make (port_no_ : Z) (pad_ : bytes) : t :=
  mk port_no_ [arr pad_ 0; arr pad_ 1; arr pad_ 2; arr pad_ 3; arr pad_ 4; arr pad_ 5].

(** [of_port_stats_request::pack] *)
Definition pack (m : t) (b : bytes) : bytes :=
  let b := put16 0 (htons (port_no m)) b in
  let b := put8 2 (arr (pad m) 0) b in
  let b := put8 3 (arr (pad m) 1) b in
  let b := put8 4 (arr (pad m) 2) b in
  let b := put8 5 (arr (pad m) 3) b in
  let b := put8 6 (arr (pad m) 4) b in
  let b := put8 7 (arr (pad m) 5) b in
  b.

(** [of_port_stats_request::unpack] *)
Definition unpack (b : bytes) : option t :=
  Some (mk (ntohs (get16 0 b)) [get8 2 b; get8 3 b; get8 4 b; get8 5 b; get8 6 b; get8 7 b]).

(** [of_port_stats_request::operator=] *)
Definition assign (m peer_ : t) : t :=
  mk (port_no peer_)
    [arr (pad peer_) 0; arr (pad peer_) 1; arr (pad peer_) 2; arr (pad peer_) 3; arr (pad peer_) 4; arr (pad peer_) 5].

(** [of_port_stats_request::operator==] *)
Definition eqb (m peer_ : t) : bool :=
  (port_no m =? port_no peer_) &&
  (arr (pad m) 0 =? arr (pad peer_) 0) &&
  (arr (pad m) 1 =? arr (pad peer_) 1) &&
  (arr (pad m) 2 =? arr (pad peer_) 2) &&
  (arr (pad m) 3 =? arr (pad peer_) 3) &&
  (arr (pad m) 4 =? arr (pad peer_) 4) &&
  (arr (pad m) 5 =? arr (pad peer_) 5).

(** The encoding, and the values that survive it. *)
Definition size : nat := 8.

Definition wire (m : t) : bytes :=
  to_be 2 (port_no m) ++ pad m.

Definition shape (m : t) : Prop :=
  is_array 6 (pad m).

Definition wf (m : t) : Prop :=
  shape m /\ is_u16 (port_no m).

#[global] Instance port_stats_request_message : Message t :=
  {| msg_size := size; msg_shape := shape; msg_wf := wf; msg_wire := wire;
     msg_pack := pack; msg_unpack := unpack; msg_assign := assign; msg_eqb := eqb |}.

Lemma port_stats_request_wire_length m : shape m -> length (wire m) = size.
Proof. destruct m. unfold shape, wire, size, port_no, pad. message_intro. solve_length. Qed.

Lemma port_stats_request_pack_wire m b :
  shape m -> (size <= length b)%nat -> pack m b = wire m ++ drop size b.
Proof. destruct m. unfold shape, pack, wire, size, port_no, pad. message_intro. solve_pack. Qed.

Lemma port_stats_request_unpack_wire m rest : wf m -> unpack (wire m ++ rest) = Some m.
Proof.
  intros Hwf. remember (wire m ++ rest) as b eqn:Hb. change b with (drop 0 b) in Hb. revert Hwf Hb.
  destruct m. unfold wf, shape, wire, unpack, port_no, pad. message_intro. solve_unpack.
Qed.

Lemma port_stats_request_assign_copies m p : shape p -> assign m p = p.
Proof. destruct p. unfold shape, assign, port_no, pad. message_intro. solve_assign. Qed.

Lemma port_stats_request_eqb_eq m p : shape m -> shape p -> eqb m p = true <-> m = p.
Proof. destruct m, p. unfold shape, eqb, port_no, pad. message_intro. solve_eqb. Qed.

#[global] Instance port_stats_request_laws : MessageLaws t :=
  {| msg_wf_shape m H := proj1 H; msg_wire_length := port_stats_request_wire_length;
     msg_pack_wire := port_stats_request_pack_wire; msg_unpack_wire := port_stats_request_unpack_wire;
     msg_assign_copies := port_stats_request_assign_copies; msg_eqb_eq := port_stats_request_eqb_eq |}.

#[global] Instance port_stats_request_exact : Exact t.
Proof.
  intros b m Hb HN Hu. change (unpack b = Some m) in Hu. change (size <= length b)%nat in HN.
  change (wf m /\ wire m = take size b). unfold unpack, size in *. destruct_unpack Hu.
  unfold wf, shape, wire, port_no, pad. solve_exact Hb HN.
Qed.

End of_port_stats_request.

Module of_stats_request.

Record t := mk {
  header : of_header.t; type_ : Z; flags : Z }.

(** [of_stats_request::of_stats_request()] *)
Definition init : t :=
  mk (of_header.with_type OFPT_STATS_REQUEST of_header.init) 0 0.

(** [of_stats_request::of_stats_request(header_, ...)] *)
Definition make (header_ : of_header.t) (type_ : Z) (flags_ : Z) : t :=
  mk header_ type_ flags_.

(** [of_stats_request::pack] *)
Definition pack (m : t) (b : bytes) : bytes :=
  let b := pack_at msg_pack 0 (header m) b in
  let b := put16 8 (htons (type_ m)) b in
  let b := put16 10 (htons (flags m)) b in
  b.

(** [of_stats_request::unpack] *)
Definition unpack (b : bytes) : option t :=
  header_ ← msg_unpack (drop 0 b);
  Some (mk header_ (ntohs (get16 8 b)) (ntohs (get16 10 b))).

(** [of_stats_request::operator=] *)
Definition assign (m peer_ : t) : t :=
  mk (msg_assign (header m) (header peer_)) (type_ peer_) (flags peer_).

(** [of_stats_request::operator==] *)
Definition eqb (m peer_ : t) : bool :=
  msg_eqb (header m) (header peer_) &&
  (type_ m =? type_ peer_) &&
  (flags m =? flags peer_).

(** The encoding, and the values that survive it. *)
Definition size : nat := 12.

Definition wire (m : t) : bytes :=
  msg_wire (header m) ++ to_be 2 (type_ m) ++ to_be 2 (flags m).

Definition shape (m : t) : Prop :=
  msg_shape (header m).

Definition wf (m : t) : Prop :=
  shape m /\ msg_wf (header m) /\ is_u16 (type_ m) /\ is_u16 (flags m).

#[global] Instance stats_request_message : Message t :=
  {| msg_size := size; msg_shape := shape; msg_wf := wf; msg_wire := wire;
     msg_pack := pack; msg_unpack := unpack; msg_assign := assign; msg_eqb := eqb |}.

Lemma stats_request_wire_length m : shape m -> length (wire m) = size.
Proof. destruct m. unfold shape, wire, size, header, type_, flags. message_intro. solve_length. Qed.

Lemma stats_request_pack_wire m b :
  shape m -> (size <= length b)%nat -> pack m b = wire m ++ drop size b.
Proof. destruct m. unfold shape, pack, wire, size, header, type_, flags. message_intro. solve_pack. Qed.

Lemma stats_request_unpack_wire m rest : wf m -> unpack (wire m ++ rest) = Some m.
Proof.
  intros Hwf. remember (wire m ++ rest) as b eqn:Hb. change b with (drop 0 b) in Hb. revert Hwf Hb.
  destruct m. unfold wf, shape, wire, unpack, header, type_, flags. message_intro. solve_unpack.
Qed.

Lemma stats_request_assign_copies m p : shape p -> assign m p = p.
Proof. destruct p. unfold shape, assign, header, type_, flags. message_intro. solve_assign. Qed.

Lemma stats_request_eqb_eq m p : shape m -> shape p -> eqb m p = true <-> m = p.
Proof. destruct m, p. unfold shape, eqb, header, type_, flags. message_intro. solve_eqb. Qed.

#[global] Instance stats_request_laws : MessageLaws t :=
  {| msg_wf_shape m H := proj1 H; msg_wire_length := stats_request_wire_length;
     msg_pack_wire := stats_request_pack_wire; msg_unpack_wire := stats_request_unpack_wire;
     msg_assign_copies := stats_request_assign_copies; msg_eqb_eq := stats_request_eqb_eq |}.

#[global] Instance stats_request_exact : Exact t.
Proof.
  intros b m Hb HN Hu. change (unpack b = Some m) in Hu. change (size <= length b)%nat in HN.
  change (wf m /\ wire m = take size b). unfold unpack, size in *. destruct_unpack Hu.
  unfold wf, shape, wire, header, type_, flags. solve_exact Hb HN.
Qed.

End of_stats_request.

Module of_aggregate_stats_request.

Record t := mk {
  match_ : of_match.t; table_id : Z; pad : Z; out_port : Z }.

(** [of_aggregate_stats_request::of_aggregate_stats_request()] *)
Definition init : t :=
  mk of_match.init 0 0 0.

(** [of_aggregate_stats_request::of_aggregate_stats_request(match_, ...)] *)
Definition make (match_ : of_match.t) (table_id_ : Z) (pad_ : Z) (out_port_ : Z) : t :=
  mk match_ table_id_ pad_ out_port_.

(** [of_aggregate_stats_request::pack] *)
Definition pack (m : t) (b : bytes) : bytes :=
  let b := pack_at msg_pack 0 (match_ m) b in
  let b := put8 40 (table_id m) b in
  let b := put8 41 (pad m) b in
  let b := put16 42 (htons (out_port m)) b in
  b.

(** [of_aggregate_stats_request::unpack] *)
Definition unpack (b : bytes) : option t :=
  match_ ← msg_unpack (drop 0 b);
  Some (mk match_ (get8 40 b) (get8 41 b) (ntohs (get16 42 b))).

(** [of_aggregate_stats_request::operator=] *)
Definition assign (m peer_ : t) : t :=
  mk (msg_assign (match_ m) (match_ peer_)) (table_id peer_) (pad peer_) (out_port peer_).

(** [of_aggregate_stats_request::operator==] *)
Definition eqb (m peer_ : t) : bool :=
  msg_eqb (match_ m) (match_ peer_) &&
  (table_id m =? table_id peer_) &&
  (pad m =? pad peer_) &&
  (out_port m =? out_port peer_).

(** The encoding, and the values that survive it. *)
Definition size : nat := 44.

Definition wire (m : t) : bytes :=
  msg_wire (match_ m) ++ [table_id m] ++ [pad m] ++ to_be 2 (out_port m).

Definition shape (m : t) : Prop :=
  msg_shape (match_ m).

Definition wf (m : t) : Prop :=
  shape m /\ msg_wf (match_ m) /\ is_u8 (table_id m) /\ is_u8 (pad m) /\ is_u16 (out_port m).

#[global] Instance aggregate_stats_request_message : Message t :=
  {| msg_size := size; msg_shape := shape; msg_wf := wf; msg_wire := wire;
     msg_pack := pack; msg_unpack := unpack; msg_assign := assign; msg_eqb := eqb |}.

Lemma aggregate_stats_request_wire_length m : shape m -> length (wire m) = size.
Proof. destruct m. unfold shape, wire, size, match_, table_id, pad, out_port. message_intro. solve_length. Qed.

Lemma aggregate_stats_request_pack_wire m b :
  shape m -> (size <= length b)%nat -> pack m b = wire m ++ drop size b.
Proof. destruct m. unfold shape, pack, wire, size, match_, table_id, pad, out_port. message_intro. solve_pack. Qed.

Lemma aggregate_stats_request_unpack_wire m rest : wf m -> unpack (wire m ++ rest) = Some m.
Proof.
  intros Hwf. remember (wire m ++ rest) as b eqn:Hb. change b with (drop 0 b) in Hb. revert Hwf Hb.
  destruct m. unfold wf, shape, wire, unpack, match_, table_id, pad, out_port. message_intro. solve_unpack.
Qed.

Lemma aggregate_stats_request_assign_copies m p : shape p -> assign m p = p.
Proof. destruct p. unfold shape, assign, match_, table_id, pad, out_port. message_intro. solve_assign. Qed.

Lemma aggregate_stats_request_eqb_eq m p : shape m -> shape p -> eqb m p = true <-> m = p.
Proof. destruct m, p. unfold shape, eqb, match_, table_id, pad, out_port. message_intro. solve_eqb. Qed.

#[global] Instance aggregate_stats_request_laws : MessageLaws t :=
  {| msg_wf_shape m H := proj1 H; msg_wire_length := aggregate_stats_request_wire_length;
     msg_pack_wire := aggregate_stats_request_pack_wire; msg_unpack_wire := aggregate_stats_request_unpack_wire;
     msg_assign_copies := aggregate_stats_request_assign_copies; msg_eqb_eq := aggregate_stats_request_eqb_eq |}.

#[global] Instance aggregate_stats_request_exact : Exact t.
Proof.
  intros b m Hb HN Hu. change (unpack b = Some m) in Hu. change (size <= length b)%nat in HN.
  change (wf m /\ wire m = take size b). unfold unpack, size in *. destruct_unpack Hu.
  unfold wf, shape, wire, match_, table_id, pad, out_port. solve_exact Hb HN.
Qed.

End of_aggregate_stats_request.

Module of_flow_stats.

Record t := mk {
  length_ : Z; table_id : Z; pad : Z; match_ : of_match.t; duration_sec : Z; duration_nsec : Z;
  priority : Z; idle_timeout : Z; hard_timeout : Z; pad2 : bytes; cookie : Z; packet_count : Z;
  byte_count : Z }.

(** [of_flow_stats::of_flow_stats()] *)
Definition init : t :=
  mk 0 0 0 of_match.init 0 0 OFP_DEFAULT_PRIORITY 0 0 [0; 0; 0; 0; 0; 0] 0 0 0.

(** [of_flow_stats::of_flow_stats(length_, ...)] *)
Definition make (length_ : Z) (table_id_ : Z) (pad_ : Z) (match_ : of_match.t)
    (duration_sec_ : Z) (duration_nsec_ : Z) (priority_ : Z) (idle_timeout_ : Z)
    (hard_timeout_ : Z) (pad2_ : bytes) (cookie_ : Z) (packet_count_ : Z)
    (byte_count_ : Z) : t :=
  mk length_ table_id_ pad_ match_ duration_sec_ duration_nsec_ priority_ idle_timeout_
    hard_timeout_ [arr pad2_ 0; arr pad2_ 1; arr pad2_ 2; arr pad2_ 3; arr pad2_ 4; arr pad2_ 5]
    cookie_ packet_count_ byte_count_.

(** [of_flow_stats::pack] *)
Definition pack (m : t) (b : bytes) : bytes :=
  let b := put16 0 (htons (length_ m)) b in
  let b := put8 2 (table_id m) b in
  let b := put8 3 (pad m) b in
  let b := pack_at msg_pack 4 (match_ m) b in
  let b := put32 44 (htonl (duration_sec m)) b in
  let b := put32 48 (htonl (duration_nsec m)) b in
  let b := put16 52 (htons (priority m)) b in
  let b := put16 54 (htons (idle_timeout m)) b in
  let b := put16 56 (htons (hard_timeout m)) b in
  let b := put8 58 (arr (pad2 m) 0) b in
  let b := put8 59 (arr (pad2 m) 1) b in
  let b := put8 60 (arr (pad2 m) 2) b in
  let b := put8 61 (arr (pad2 m) 3) b in
  let b := put8 62 (arr (pad2 m) 4) b in
  let b := put8 63 (arr (pad2 m) 5) b in
  let b := put64 64 (htonll (cookie m)) b in
  let b := put64 72 (htonll (packet_count m)) b in
  let b := put64 80 (htonll (byte_count m)) b in
  b.

(** [of_flow_stats::unpack] *)
Definition unpack (b : bytes) : option t :=
  match_ ← msg_unpack (drop 4 b);
  Some (mk (ntohs (get16 0 b)) (get8 2 b) (get8 3 b) match_ (ntohl (get32 44 b))
    (ntohl (get32 48 b)) (ntohs (get16 52 b)) (ntohs (get16 54 b)) (ntohs (get16 56 b))
    [get8 58 b; get8 59 b; get8 60 b; get8 61 b; get8 62 b; get8 63 b] (ntohll (get64 64 b))
    (ntohll (get64 72 b)) (ntohll (get64 80 b))).

(** [of_flow_stats::operator=] *)
Definition assign (m peer_ : t) : t :=
  mk (length_ peer_) (table_id peer_) (pad peer_) (msg_assign (match_ m) (match_ peer_))
    (duration_sec peer_) (duration_nsec peer_) (priority peer_) (idle_timeout peer_)
    (hard_timeout peer_)
    [arr (pad2 peer_) 0; arr (pad2 peer_) 1; arr (pad2 peer_) 2; arr (pad2 peer_) 3; arr (pad2 peer_) 4; arr (pad2 peer_) 5]
    (cookie peer_) (packet_count peer_) (byte_count peer_).

(** [of_flow_stats::operator==] *)
Definition eqb (m peer_ : t) : bool :=
  (length_ m =? length_ peer_) &&
  (table_id m =? table_id peer_) &&
  (pad m =? pad peer_) &&
  msg_eqb (match_ m) (match_ peer_) &&
  (duration_sec m =? duration_sec peer_) &&
  (duration_nsec m =? duration_nsec peer_) &&
  (priority m =? priority peer_) &&
  (idle_timeout m =? idle_timeout peer_) &&
  (hard_timeout m =? hard_timeout peer_) &&
  (arr (pad2 m) 0 =? arr (pad2 peer_) 0) &&
  (arr (pad2 m) 1 =? arr (pad2 peer_) 1) &&
  (arr (pad2 m) 2 =? arr (pad2 peer_) 2) &&
  (arr (pad2 m) 3 =? arr (pad2 peer_) 3) &&
  (arr (pad2 m) 4 =? arr (pad2 peer_) 4) &&
  (arr (pad2 m) 5 =? arr (pad2 peer_) 5) &&
  (cookie m =? cookie peer_) &&
  (packet_count m =? packet_count peer_) &&
  (byte_count m =? byte_count peer_).

(** The encoding, and the values that survive it. *)
Definition size : nat := 88.

Definition wire (m : t) : bytes :=
  to_be 2 (length_ m) ++ [table_id m] ++ [pad m] ++ msg_wire (match_ m) ++
  to_be 4 (duration_sec m) ++ to_be 4 (duration_nsec m) ++ to_be 2 (priority m) ++
  to_be 2 (idle_timeout m) ++ to_be 2 (hard_timeout m) ++ pad2 m ++ to_be 8 (cookie m) ++
  to_be 8 (packet_count m) ++ to_be 8 (byte_count m).

Definition shape (m : t) : Prop :=
  msg_shape (match_ m) /\ is_array 6 (pad2 m).

Definition wf (m : t) : Prop :=
  shape m /\ is_u16 (length_ m) /\ is_u8 (table_id m) /\ is_u8 (pad m) /\ msg_wf (match_ m) /\
  is_u32 (duration_sec m) /\ is_u32 (duration_nsec m) /\ is_u16 (priority m) /\
  is_u16 (idle_timeout m) /\ is_u16 (hard_timeout m) /\ is_u64 (cookie m) /\
  is_u64 (packet_count m) /\ is_u64 (byte_count m).

#[global] Instance flow_stats_message : Message t :=
  {| msg_size := size; msg_shape := shape; msg_wf := wf; msg_wire := wire;
     msg_pack := pack; msg_unpack := unpack; msg_assign := assign; msg_eqb := eqb |}.

Lemma flow_stats_wire_length m : shape m -> length (wire m) = size.
Proof. destruct m. unfold shape, wire, size, length_, table_id, pad, match_, duration_sec, duration_nsec, priority, idle_timeout, hard_timeout, pad2, cookie, packet_count, byte_count. message_intro. solve_length. Qed.

Lemma flow_stats_pack_wire m b :
  shape m -> (size <= length b)%nat -> pack m b = wire m ++ drop size b.
Proof. destruct m. unfold shape, pack, wire, size, length_, table_id, pad, match_, duration_sec, duration_nsec, priority, idle_timeout, hard_timeout, pad2, cookie, packet_count, byte_count. message_intro. solve_pack. Qed.

Lemma flow_stats_unpack_wire m rest : wf m -> unpack (wire m ++ rest) = Some m.
Proof.
  intros Hwf. remember (wire m ++ rest) as b eqn:Hb. change b with (drop 0 b) in Hb. revert Hwf Hb.
  destruct m. unfold wf, shape, wire, unpack, length_, table_id, pad, match_, duration_sec, duration_nsec, priority, idle_timeout, hard_timeout, pad2, cookie, packet_count, byte_count. message_intro. solve_unpack.
Qed.

Lemma flow_stats_assign_copies m p : shape p -> assign m p = p.
Proof. destruct p. unfold shape, assign, length_, table_id, pad, match_, duration_sec, duration_nsec, priority, idle_timeout, hard_timeout, pad2, cookie, packet_count, byte_count. message_intro. solve_assign. Qed.

Lemma flow_stats_eqb_eq m p : shape m -> shape p -> eqb m p = true <-> m = p.
Proof. destruct m, p. unfold shape, eqb, length_, table_id, pad, match_, duration_sec, duration_nsec, priority, idle_timeout, hard_timeout, pad2, cookie, packet_count, byte_count. message_intro. solve_eqb. Qed.

#[global] Instance flow_stats_laws : MessageLaws t :=
  {| msg_wf_shape m H := proj1 H; msg_wire_length := flow_stats_wire_length;
     msg_pack_wire := flow_stats_pack_wire; msg_unpack_wire := flow_stats_unpack_wire;
     msg_assign_copies := flow_stats_assign_copies; msg_eqb_eq := flow_stats_eqb_eq |}.

#[global] Instance flow_stats_exact : Exact t.
Proof.
  intros b m Hb HN Hu. change (unpack b = Some m) in Hu. change (size <= length b)%nat in HN.
  change (wf m /\ wire m = take size b). unfold unpack, size in *. destruct_unpack Hu.
  unfold wf, shape, wire, length_, table_id, pad, match_, duration_sec, duration_nsec, priority, idle_timeout, hard_timeout, pad2, cookie, packet_count, byte_count. solve_exact Hb HN.
Qed.

End of_flow_stats.

Module of_flow_stats_request.

Record t := mk {
  match_ : of_match.t; table_id : Z; pad : Z; out_port : Z }.

(** [of_flow_stats_request::of_flow_stats_request()] *)
Definition init : t :=
  mk of_match.init 0 0 0.

(** [of_flow_stats_request::of_flow_stats_request(match_, ...)] *)
Definition make (match_ : of_match.t) (table_id_ : Z) (pad_ : Z) (out_port_ : Z) : t :=
  mk match_ table_id_ pad_ out_port_.

(** [of_flow_stats_request::pack] *)
Definition pack (m : t) (b : bytes) : bytes :=
  let b := pack_at msg_pack 0 (match_ m) b in
  let b := put8 40 (table_id m) b in
  let b := put8 41 (pad m) b in
  let b := put16 42 (htons (out_port m)) b in
  b.

(** [of_flow_stats_request::unpack] *)
Definition unpack (b : bytes) : option t :=
  match_ ← msg_unpack (drop 0 b);
  Some (mk match_ (get8 40 b) (get8 41 b) (ntohs (get16 42 b))).

(** [of_flow_stats_request::operator=] *)
Definition assign (m peer_ : t) : t :=
  mk (msg_assign (match_ m) (match_ peer_)) (table_id peer_) (pad peer_) (out_port peer_).

(** [of_flow_stats_request::operator==] *)
Definition eqb (m peer_ : t) : bool :=
  msg_eqb (match_ m) (match_ peer_) &&
  (table_id m =? table_id peer_) &&
  (pad m =? pad peer_) &&
  (out_port m =? out_port peer_).

(** The encoding, and the values that survive it. *)
Definition size : nat := 44.

Definition wire (m : t) : bytes :=
  msg_wire (match_ m) ++ [table_id m] ++ [pad m] ++ to_be 2 (out_port m).

Definition shape (m : t) : Prop :=
  msg_shape (match_ m).

Definition wf (m : t) : Prop :=
  shape m /\ msg_wf (match_ m) /\ is_u8 (table_id m) /\ is_u8 (pad m) /\ is_u16 (out_port m).

#[global] Instance flow_stats_request_message : Message t :=
  {| msg_size := size; msg_shape := shape; msg_wf := wf; msg_wire := wire;
     msg_pack := pack; msg_unpack := unpack; msg_assign := assign; msg_eqb := eqb |}.

Lemma flow_stats_request_wire_length m : shape m -> length (wire m) = size.
Proof. destruct m. unfold shape, wire, size, match_, table_id, pad, out_port. message_intro. solve_length. Qed.

Lemma flow_stats_request_pack_wire m b :
  shape m -> (size <= length b)%nat -> pack m b = wire m ++ drop size b.
Proof. destruct m. unfold shape, pack, wire, size, match_, table_id, pad, out_port. message_intro. solve_pack. Qed.

Lemma flow_stats_request_unpack_wire m rest : wf m -> unpack (wire m ++ rest) = Some m.
Proof.
  intros Hwf. remember (wire m ++ rest) as b eqn:Hb. change b with (drop 0 b) in Hb. revert Hwf Hb.
  destruct m. unfold wf, shape, wire, unpack, match_, table_id, pad, out_port. message_intro. solve_unpack.
Qed.

Lemma flow_stats_request_assign_copies m p : shape p -> assign m p = p.
Proof. destruct p. unfold shape, assign, match_, table_id, pad, out_port. message_intro. solve_assign. Qed.

Lemma flow_stats_request_eqb_eq m p : shape m -> shape p -> eqb m p = true <-> m = p.
Proof. destruct m, p. unfold shape, eqb, match_, table_id, pad, out_port. message_intro. solve_eqb. Qed.

#[global] Instance flow_stats_request_laws : MessageLaws t :=
  {| msg_wf_shape m H := proj1 H; msg_wire_length := flow_stats_request_wire_length;
     msg_pack_wire := flow_stats_request_pack_wire; msg_unpack_wire := flow_stats_request_unpack_wire;
     msg_assign_copies := flow_stats_request_assign_copies; msg_eqb_eq := flow_stats_request_eqb_eq |}.

#[global] Instance flow_stats_request_exact : Exact t.
Proof.
  intros b m Hb HN Hu. change (unpack b = Some m) in Hu. change (size <= length b)%nat in HN.
  change (wf m /\ wire m = take size b). unfold unpack, size in *. destruct_unpack Hu.
  unfold wf, shape, wire, match_, table_id, pad, out_port. solve_exact Hb HN.
Qed.

End of_flow_stats_request.

Module of_stats_reply.

Record t := mk {
  header : of_header.t; type_ : Z; flags : Z }.

(** [of_stats_reply::of_stats_reply()] *)
Definition init : t :=
  mk (of_header.with_type OFPT_STATS_REPLY of_header.init) 0 0.

(** [of_stats_reply::of_stats_reply(header_, ...)] *)
Definition make (header_ : of_header.t) (type_ : Z) (flags_ : Z) : t :=
  mk header_ type_ flags_.

(** [of_stats_reply::pack] *)
Definition pack (m : t) (b : bytes) : bytes :=
  let b := pack_at msg_pack 0 (header m) b in
  let b := put16 8 (htons (type_ m)) b in
  let b := put16 10 (htons (flags m)) b in
  b.

(** [of_stats_reply::unpack] *)
Definition unpack (b : bytes) : option t :=
  header_ ← msg_unpack (drop 0 b);
  Some (mk header_ (ntohs (get16 8 b)) (ntohs (get16 10 b))).

(** [of_stats_reply::operator=] *)
Definition assign (m peer_ : t) : t :=
  mk (msg_assign (header m) (header peer_)) (type_ peer_) (flags peer_).

(** [of_stats_reply::operator==] *)
Definition eqb (m peer_ : t) : bool :=
  msg_eqb (header m) (header peer_) &&
  (type_ m =? type_ peer_) &&
  (flags m =? flags peer_).

(** The encoding, and the values that survive it. *)
Definition size : nat := 12.

Definition wire (m : t) : bytes :=
  msg_wire (header m) ++ to_be 2 (type_ m) ++ to_be 2 (flags m).

Definition shape (m : t) : Prop :=
  msg_shape (header m).

Definition wf (m : t) : Prop :=
  shape m /\ msg_wf (header m) /\ is_u16 (type_ m) /\ is_u16 (flags m).

#[global] Instance stats_reply_message : Message t :=
  {| msg_size := size; msg_shape := shape; msg_wf := wf; msg_wire := wire;
     msg_pack := pack; msg_unpack := unpack; msg_assign := assign; msg_eqb := eqb |}.

Lemma stats_reply_wire_length m : shape m -> length (wire m) = size.
Proof. destruct m. unfold shape, wire, size, header, type_, flags. message_intro. solve_length. Qed.

Lemma stats_reply_pack_wire m b :
  shape m -> (size <= length b)%nat -> pack m b = wire m ++ drop size b.
Proof. destruct m. unfold shape, pack, wire, size, header, type_, flags. message_intro. solve_pack. Qed.

Lemma stats_reply_unpack_wire m rest : wf m -> unpack (wire m ++ rest) = Some m.
Proof.
  intros Hwf. remember (wire m ++ rest) as b eqn:Hb. change b with (drop 0 b) in Hb. revert Hwf Hb.
  destruct m. unfold wf, shape, wire, unpack, header, type_, flags. message_intro. solve_unpack.
Qed.

Lemma stats_reply_assign_copies m p : shape p -> assign m p = p.
Proof. destruct p. unfold shape, assign, header, type_, flags. message_intro. solve_assign. Qed.

Lemma stats_reply_eqb_eq m p : shape m -> shape p -> eqb m p = true <-> m = p.
Proof. destruct m, p. unfold shape, eqb, header, type_, flags. message_intro. solve_eqb. Qed.

#[global] Instance stats_reply_laws : MessageLaws t :=
  {| msg_wf_shape m H := proj1 H; msg_wire_length := stats_reply_wire_length;
     msg_pack_wire := stats_reply_pack_wire; msg_unpack_wire := stats_reply_unpack_wire;
     msg_assign_copies := stats_reply_assign_copies; msg_eqb_eq := stats_reply_eqb_eq |}.

#[global] Instance stats_reply_exact : Exact t.
Proof.
  intros b m Hb HN Hu. change (unpack b = Some m) in Hu. change (size <= length b)%nat in HN.
  change (wf m /\ wire m = take size b). unfold unpack, size in *. destruct_unpack Hu.
  unfold wf, shape, wire, header, type_, flags. solve_exact Hb HN.
Qed.

End of_stats_reply.

Module of_queue_stats_request.

Record t := mk {
  port_no : Z; pad : bytes; queue_id : Z }.

(** [of_queue_stats_request::of_queue_stats_request()] *)
Definition init : t :=
  mk 0 [0; 0] 0.

(** [of_queue_stats_request::of_queue_stats_request(port_no_, ...)] *)
Definition make (port_no_ : Z) (pad_ : bytes) (queue_id_ : Z) : t :=
  mk port_no_ [arr pad_ 0; arr pad_ 1] queue_id_.

(** [of_queue_stats_request::pack] *)
Definition pack (m : t) (b : bytes) : bytes :=
  let b := put16 0 (htons (port_no m)) b in
  let b := put8 2 (arr (pad m) 0) b in
  let b := put8 3 (arr (pad m) 1) b in
  let b := put32 4 (htonl (queue_id m)) b in
  b.

(** [of_queue_stats_request::unpack] *)
Definition unpack (b : bytes) : option t :=
  Some (mk (ntohs (get16 0 b)) [get8 2 b; get8 3 b] (ntohl (get32 4 b))).

(** [of_queue_stats_request::operator=] *)
Definition assign (m peer_ : t) : t :=
  mk (port_no peer_) [arr (pad peer_) 0; arr (pad peer_) 1] (queue_id peer_).

(** [of_queue_stats_request::operator==] *)
Definition eqb (m peer_ : t) : bool :=
  (port_no m =? port_no peer_) &&
  (arr (pad m) 0 =? arr (pad peer_) 0) &&
  (arr (pad m) 1 =? arr (pad peer_) 1) &&
  (queue_id m =? queue_id peer_).

(** The encoding, and the values that survive it. *)
Definition size : nat := 8.

Definition wire (m : t) : bytes :=
  to_be 2 (port_no m) ++ pad m ++ to_be 4 (queue_id m).

Definition shape (m : t) : Prop :=
  is_array 2 (pad m).

Definition wf (m : t) : Prop :=
  shape m /\ is_u16 (port_no m) /\ is_u32 (queue_id m).

#[global] Instance queue_stats_request_message : Message t :=
  {| msg_size := size; msg_shape := shape; msg_wf := wf; msg_wire := wire;
     msg_pack := pack; msg_unpack := unpack; msg_assign := assign; msg_eqb := eqb |}.

Lemma queue_stats_request_wire_length m : shape m -> length (wire m) = size.
Proof. destruct m. unfold shape, wire, size, port_no, pad, queue_id. message_intro. solve_length. Qed.

Lemma queue_stats_request_pack_wire m b :
  shape m -> (size <= length b)%nat -> pack m b = wire m ++ drop size b.
Proof. destruct m. unfold shape, pack, wire, size, port_no, pad, queue_id. message_intro. solve_pack. Qed.

Lemma queue_stats_request_unpack_wire m rest : wf m -> unpack (wire m ++ rest) = Some m.
Proof.
  intros Hwf. remember (wire m ++ rest) as b eqn:Hb. change b with (drop 0 b) in Hb. revert Hwf Hb.
  destruct m. unfold wf, shape, wire, unpack, port_no, pad, queue_id. message_intro. solve_unpack.
Qed.

Lemma queue_stats_request_assign_copies m p : shape p -> assign m p = p.
Proof. destruct p. unfold shape, assign, port_no, pad, queue_id. message_intro. solve_assign. Qed.

Lemma queue_stats_request_eqb_eq m p : shape m -> shape p -> eqb m p = true <-> m = p.
Proof. destruct m, p. unfold shape, eqb, port_no, pad, queue_id. message_intro. solve_eqb. Qed.

#[global] Instance queue_stats_request_laws : MessageLaws t :=
  {| msg_wf_shape m H := proj1 H; msg_wire_length := queue_stats_request_wire_length;
     msg_pack_wire := queue_stats_request_pack_wire; msg_unpack_wire := queue_stats_request_unpack_wire;
     msg_assign_copies := queue_stats_request_assign_copies; msg_eqb_eq := queue_stats_request_eqb_eq |}.

#[global] Instance queue_stats_request_exact : Exact t.
Proof.
  intros b m Hb HN Hu. change (unpack b = Some m) in Hu. change (size <= length b)%nat in HN.
  change (wf m /\ wire m = take size b). unfold unpack, size in *. destruct_unpack Hu.
  unfold wf, shape, wire, port_no, pad, queue_id. solve_exact Hb HN.
Qed.

End of_queue_stats_request.

Module of_desc_stats.

Record t := mk {
  mfr_desc : bytes; hw_desc : bytes; sw_desc : bytes; serial_num : bytes; dp_desc : bytes }.

(** [of_desc_stats::of_desc_stats()] *)
Definition init : t :=
  mk [] [] [] [] [].

(** [of_desc_stats::of_desc_stats(mfr_desc_, ...)] *)
Definition make (mfr_desc_ : bytes) (hw_desc_ : bytes) (sw_desc_ : bytes) (serial_num_ : bytes)
    (dp_desc_ : bytes) : t :=
  mk mfr_desc_ hw_desc_ sw_desc_ serial_num_ dp_desc_.

(** [of_desc_stats::pack] *)
Definition pack (m : t) (b : bytes) : bytes :=
  let b := put_strncpy 0 255 (mfr_desc m) b in
  let b := put8 255 0 b in
  let b := put_strncpy 256 255 (hw_desc m) b in
  let b := put8 511 0 b in
  let b := put_strncpy 512 255 (sw_desc m) b in
  let b := put8 767 0 b in
  let b := put_strncpy 768 31 (serial_num m) b in
  let b := put8 799 0 b in
  let b := put_strncpy 800 255 (dp_desc m) b in
  let b := put8 1055 0 b in
  b.

(** [of_desc_stats::unpack] *)
Definition unpack (b : bytes) : option t :=
  mfr_desc_ ← read_cstr (drop 0 b);
  hw_desc_ ← read_cstr (drop 256 b);
  sw_desc_ ← read_cstr (drop 512 b);
  serial_num_ ← read_cstr (drop 768 b);
  dp_desc_ ← read_cstr (drop 800 b);
  Some (mk mfr_desc_ hw_desc_ sw_desc_ serial_num_ dp_desc_).

(** [of_desc_stats::operator=] *)
Definition assign (m peer_ : t) : t :=
  mk (mfr_desc peer_) (hw_desc peer_) (sw_desc peer_) (serial_num peer_) (dp_desc peer_).

(** [of_desc_stats::operator==] *)
Definition eqb (m peer_ : t) : bool :=
  bool_decide (mfr_desc m = mfr_desc peer_) &&
  bool_decide (hw_desc m = hw_desc peer_) &&
  bool_decide (sw_desc m = sw_desc peer_) &&
  bool_decide (serial_num m = serial_num peer_) &&
  bool_decide (dp_desc m = dp_desc peer_).

(** The encoding, and the values that survive it. *)
Definition size : nat := 1056.

Definition wire (m : t) : bytes :=
  fixed_string 256 (mfr_desc m) ++ fixed_string 256 (hw_desc m) ++
  fixed_string 256 (sw_desc m) ++ fixed_string 32 (serial_num m) ++
  fixed_string 256 (dp_desc m).

Definition shape (m : t) : Prop :=
  True.

Definition wf (m : t) : Prop :=
  shape m /\ is_name 256 (mfr_desc m) /\ is_name 256 (hw_desc m) /\ is_name 256 (sw_desc m) /\
  is_name 32 (serial_num m) /\ is_name 256 (dp_desc m).

#[global] Instance desc_stats_message : Message t :=
  {| msg_size := size; msg_shape := shape; msg_wf := wf; msg_wire := wire;
     msg_pack := pack; msg_unpack := unpack; msg_assign := assign; msg_eqb := eqb |}.

Lemma desc_stats_wire_length m : shape m -> length (wire m) = size.
Proof. destruct m. unfold shape, wire, size, mfr_desc, hw_desc, sw_desc, serial_num, dp_desc. message_intro. solve_length. Qed.

Lemma desc_stats_pack_wire m b :
  shape m -> (size <= length b)%nat -> pack m b = wire m ++ drop size b.
Proof. destruct m. unfold shape, pack, wire, size, mfr_desc, hw_desc, sw_desc, serial_num, dp_desc. message_intro. solve_pack. Qed.

Lemma desc_stats_unpack_wire m rest : wf m -> unpack (wire m ++ rest) = Some m.
Proof.
  intros Hwf. remember (wire m ++ rest) as b eqn:Hb. change b with (drop 0 b) in Hb. revert Hwf Hb.
  destruct m. unfold wf, shape, wire, unpack, mfr_desc, hw_desc, sw_desc, serial_num, dp_desc. message_intro. solve_unpack.
Qed.

Lemma desc_stats_assign_copies m p : shape p -> assign m p = p.
Proof. destruct p. unfold shape, assign, mfr_desc, hw_desc, sw_desc, serial_num, dp_desc. message_intro. solve_assign. Qed.

Lemma desc_stats_eqb_eq m p : shape m -> shape p -> eqb m p = true <-> m = p.
Proof. destruct m, p. unfold shape, eqb, mfr_desc, hw_desc, sw_desc, serial_num, dp_desc. message_intro. solve_eqb. Qed.

#[global] Instance desc_stats_laws : MessageLaws t :=
  {| msg_wf_shape m H := proj1 H; msg_wire_length := desc_stats_wire_length;
     msg_pack_wire := desc_stats_pack_wire; msg_unpack_wire := desc_stats_unpack_wire;
     msg_assign_copies := desc_stats_assign_copies; msg_eqb_eq := desc_stats_eqb_eq |}.

End of_desc_stats.
