(* ===== verification/OfpMessages.v ===== *)
(** * OpenFlow messages: the remaining wrappers of openflow-pack-raw.cc *)

From S2P Require Import Prelude Bytes OfpWire OfpCore.

Open Scope Z_scope.

Module of_flow_removed.

Record t := mk {
  header : of_header.t; match_ : of_match.t; cookie : Z; priority : Z; reason : Z; pad : bytes;
  duration_sec : Z; duration_nsec : Z; idle_timeout : Z; pad2 : bytes; packet_count : Z;
  byte_count : Z }.

(** [of_flow_removed::of_flow_removed()] *)
Definition init : t :=
  mk (of_header.with_type OFPT_FLOW_REMOVED of_header.init) of_match.init 0 0 0 [0] 0 0 0 [0; 0]
    0 0.

(** [of_flow_removed::of_flow_removed(header_, ...)] *)
Definition make (header_ : of_header.t) (match_ : of_match.t) (cookie_ : Z) (priority_ : Z)
    (reason_ : Z) (pad_ : bytes) (duration_sec_ : Z) (duration_nsec_ : Z) (idle_timeout_ : Z)
    (pad2_ : bytes) (packet_count_ : Z) (byte_count_ : Z) : t :=
  mk header_ match_ cookie_ priority_ reason_ [arr pad_ 0] duration_sec_ duration_nsec_
    idle_timeout_ [arr pad2_ 0; arr pad2_ 1] packet_count_ byte_count_.

(** [of_flow_removed::pack] *)
Definition pack (m : t) (b : bytes) : bytes :=
  let b := pack_at msg_pack 0 (header m) b in
  let b := pack_at msg_pack 8 (match_ m) b in
  let b := put64 48 (htonll (cookie m)) b in
  let b := put16 56 (htons (priority m)) b in
  let b := put8 58 (reason m) b in
  let b := put8 59 (arr (pad m) 0) b in
  let b := put32 60 (htonl (duration_sec m)) b in
  let b := put32 64 (htonl (duration_nsec m)) b in
  let b := put16 68 (htons (idle_timeout m)) b in
  let b := put8 70 (arr (pad2 m) 0) b in
  let b := put8 71 (arr (pad2 m) 1) b in
  let b := put64 72 (htonll (packet_count m)) b in
  let b := put64 80 (htonll (byte_count m)) b in
  b.

(** [of_flow_removed::unpack] *)
Definition unpack (b : bytes) : option t :=
  header_ ← msg_unpack (drop 0 b);
  match_ ← msg_unpack (drop 8 b);
  Some (mk header_ match_ (ntohll (get64 48 b)) (ntohs (get16 56 b)) (get8 58 b) [get8 59 b]
    (ntohl (get32 60 b)) (ntohl (get32 64 b)) (ntohs (get16 68 b)) [get8 70 b; get8 71 b]
    (ntohll (get64 72 b)) (ntohll (get64 80 b))).

(** [of_flow_removed::operator=] *)
Definition assign (m peer_ : t) : t :=
  mk (msg_assign (header m) (header peer_)) (msg_assign (match_ m) (match_ peer_))
    (cookie peer_) (priority peer_) (reason peer_) [arr (pad peer_) 0] (duration_sec peer_)
    (duration_nsec peer_) (idle_timeout peer_) [arr (pad2 peer_) 0; arr (pad2 peer_) 1]
    (packet_count peer_) (byte_count peer_).

(** [of_flow_removed::operator==] *)
Definition eqb (m peer_ : t) : bool :=
  msg_eqb (header m) (header peer_) &&
  msg_eqb (match_ m) (match_ peer_) &&
  (cookie m =? cookie peer_) &&
  (priority m =? priority peer_) &&
  (reason m =? reason peer_) &&
  (arr (pad m) 0 =? arr (pad peer_) 0) &&
  (duration_sec m =? duration_sec peer_) &&
  (duration_nsec m =? duration_nsec peer_) &&
  (idle_timeout m =? idle_timeout peer_) &&
  (arr (pad2 m) 0 =? arr (pad2 peer_) 0) &&
  (arr (pad2 m) 1 =? arr (pad2 peer_) 1) &&
  (packet_count m =? packet_count peer_) &&
  (byte_count m =? byte_count peer_).

(** The encoding, and the values that survive it. *)
Definition size : nat := 88.

Definition wire (m : t) : bytes :=
  msg_wire (header m) ++ msg_wire (match_ m) ++ to_be 8 (cookie m) ++ to_be 2 (priority m) ++
  [reason m] ++ pad m ++ to_be 4 (duration_sec m) ++ to_be 4 (duration_nsec m) ++
  to_be 2 (idle_timeout m) ++ pad2 m ++ to_be 8 (packet_count m) ++ to_be 8 (byte_count m).

Definition shape (m : t) : Prop :=
  msg_shape (header m) /\ msg_shape (match_ m) /\ is_array 1 (pad m) /\ is_array 2 (pad2 m).

Definition wf (m : t) : Prop :=
  shape m /\ msg_wf (header m) /\ msg_wf (match_ m) /\ is_u64 (cookie m) /\
  is_u16 (priority m) /\ is_u8 (reason m) /\ is_u32 (duration_sec m) /\
  is_u32 (duration_nsec m) /\ is_u16 (idle_timeout m) /\ is_u64 (packet_count m) /\
  is_u64 (byte_count m).

#[global] Instance flow_removed_message : Message t :=
  {| msg_size := size; msg_shape := shape; msg_wf := wf; msg_wire := wire;
     msg_pack := pack; msg_unpack := unpack; msg_assign := assign; msg_eqb := eqb |}.

Lemma flow_removed_wire_length m : shape m -> length (wire m) = size.
Proof. destruct m. unfold shape, wire, size, header, match_, cookie, priority, reason, pad, duration_sec, duration_nsec, idle_timeout, pad2, packet_count, byte_count. message_intro. solve_length. Qed.

Lemma flow_removed_pack_wire m b :
  shape m -> (size <= length b)%nat -> pack m b = wire m ++ drop size b.
Proof. destruct m. unfold shape, pack, wire, size, header, match_, cookie, priority, reason, pad, duration_sec, duration_nsec, idle_timeout, pad2, packet_count, byte_count. message_intro. solve_pack. Qed.

Lemma flow_removed_unpack_wire m rest : wf m -> unpack (wire m ++ rest) = Some m.
Proof.
  intros Hwf. remember (wire m ++ rest) as b eqn:Hb. change b with (drop 0 b) in Hb. revert Hwf Hb.
  destruct m. unfold wf, shape, wire, unpack, header, match_, cookie, priority, reason, pad, duration_sec, duration_nsec, idle_timeout, pad2, packet_count, byte_count. message_intro. solve_unpack.
Qed.

Lemma flow_removed_assign_copies m p : shape p -> assign m p = p.
Proof. destruct p. unfold shape, assign, header, match_, cookie, priority, reason, pad, duration_sec, duration_nsec, idle_timeout, pad2, packet_count, byte_count. message_intro. solve_assign. Qed.

Lemma flow_removed_eqb_eq m p : shape m -> shape p -> eqb m p = true <-> m = p.
Proof. destruct m, p. unfold shape, eqb, header, match_, cookie, priority, reason, pad, duration_sec, duration_nsec, idle_timeout, pad2, packet_count, byte_count. message_intro. solve_eqb. Qed.

#[global] Instance flow_removed_laws : MessageLaws t :=
  {| msg_wf_shape m H := proj1 H; msg_wire_length := flow_removed_wire_length;
     msg_pack_wire := flow_removed_pack_wire; msg_unpack_wire := flow_removed_unpack_wire;
     msg_assign_copies := flow_removed_assign_copies; msg_eqb_eq := flow_removed_eqb_eq |}.

#[global] Instance flow_removed_exact : Exact t.
Proof.
  intros b m Hb HN Hu. change (unpack b = Some m) in Hu. change (size <= length b)%nat in HN.
  change (wf m /\ wire m = take size b). unfold unpack, size in *. destruct_unpack Hu.
  unfold wf, shape, wire, header, match_, cookie, priority, reason, pad, duration_sec, duration_nsec, idle_timeout, pad2, packet_count, byte_count. solve_exact Hb HN.
Qed.

End of_flow_removed.

Module of_hello.

Record t := mk {
  header : of_header.t }.

(** [of_hello::of_hello()] *)
Definition init : t :=
  mk (of_header.with_type OFPT_HELLO of_header.init).

(** [of_hello::of_hello(header_, ...)] *)
Definition make (header_ : of_header.t) : t :=
  mk header_.

(** [of_hello::pack] *)
Definition pack (m : t) (b : bytes) : bytes :=
  let b := pack_at msg_pack 0 (header m) b in
  b.

(** [of_hello::unpack] *)
Definition unpack (b : bytes) : option t :=
  header_ ← msg_unpack (drop 0 b);
  Some (mk header_).

(** [of_hello::operator=] *)
Definition assign (m peer_ : t) : t :=
  mk (msg_assign (header m) (header peer_)).

(** [of_hello::operator==] *)
Definition eqb (m peer_ : t) : bool :=
  msg_eqb (header m) (header peer_).

(** The encoding, and the values that survive it. *)
Definition size : nat := 8.

Definition wire (m : t) : bytes :=
  msg_wire (header m).

Definition shape (m : t) : Prop :=
  msg_shape (header m).

Definition wf (m : t) : Prop :=
  shape m /\ msg_wf (header m).

#[global] Instance hello_message : Message t :=
  {| msg_size := size; msg_shape := shape; msg_wf := wf; msg_wire := wire;
     msg_pack := pack; msg_unpack := unpack; msg_assign := assign; msg_eqb := eqb |}.

Lemma hello_wire_length m : shape m -> length (wire m) = size.
Proof. destruct m. unfold shape, wire, size, header. message_intro. solve_length. Qed.

Lemma hello_pack_wire m b :
  shape m -> (size <= length b)%nat -> pack m b = wire m ++ drop size b.
Proof. destruct m. unfold shape, pack, wire, size, header. message_intro. solve_pack. Qed.

Lemma hello_unpack_wire m rest : wf m -> unpack (wire m ++ rest) = Some m.
Proof.
  intros Hwf. remember (wire m ++ rest) as b eqn:Hb. change b with (drop 0 b) in Hb. revert Hwf Hb.
  destruct m. unfold wf, shape, wire, unpack, header. message_intro. solve_unpack.
Qed.

Lemma hello_assign_copies m p : shape p -> assign m p = p.
Proof. destruct p. unfold shape, assign, header. message_intro. solve_assign. Qed.

Lemma hello_eqb_eq m p : shape m -> shape p -> eqb m p = true <-> m = p.
Proof. destruct m, p. unfold shape, eqb, header. message_intro. solve_eqb. Qed.

#[global] Instance hello_laws : MessageLaws t :=
  {| msg_wf_shape m H := proj1 H; msg_wire_length := hello_wire_length;
     msg_pack_wire := hello_pack_wire; msg_unpack_wire := hello_unpack_wire;
     msg_assign_copies := hello_assign_copies; msg_eqb_eq := hello_eqb_eq |}.

#[global] Instance hello_exact : Exact t.
Proof.
  intros b m Hb HN Hu. change (unpack b = Some m) in Hu. change (size <= length b)%nat in HN.
  change (wf m /\ wire m = take size b). unfold unpack, size in *. destruct_unpack Hu.
  unfold wf, shape, wire, header. solve_exact Hb HN.
Qed.

End of_hello.

Module of_port_status.

Record t := mk {
  header : of_header.t; reason : Z; pad : bytes; desc : of_phy_port.t }.

(** [of_port_status::of_port_status()] *)
Definition init : t :=
  mk (of_header.with_type OFPT_PORT_STATUS of_header.init) 0 [0; 0; 0; 0; 0; 0; 0]
    of_phy_port.init.

(** [of_port_status::of_port_status(header_, ...)] *)
Definition make (header_ : of_header.t) (reason_ : Z) (pad_ : bytes)
    (desc_ : of_phy_port.t) : t :=
  mk header_ reason_
    [arr pad_ 0; arr pad_ 1; arr pad_ 2; arr pad_ 3; arr pad_ 4; arr pad_ 5; arr pad_ 6] desc_.

(** [of_port_status::pack] *)
Definition pack (m : t) (b : bytes) : bytes :=
  let b := pack_at msg_pack 0 (header m) b in
  let b := put8 8 (reason m) b in
  let b := put8 9 (arr (pad m) 0) b in
  let b := put8 10 (arr (pad m) 1) b in
  let b := put8 11 (arr (pad m) 2) b in
  let b := put8 12 (arr (pad m) 3) b in
  let b := put8 13 (arr (pad m) 4) b in
  let b := put8 14 (arr (pad m) 5) b in
  let b := put8 15 (arr (pad m) 6) b in
  let b := pack_at msg_pack 16 (desc m) b in
  b.

(** [of_port_status::unpack] *)
Definition unpack (b : bytes) : option t :=
  header_ ← msg_unpack (drop 0 b);
  desc_ ← msg_unpack (drop 16 b);
  Some (mk header_ (get8 8 b)
    [get8 9 b; get8 10 b; get8 11 b; get8 12 b; get8 13 b; get8 14 b; get8 15 b] desc_).

(** [of_port_status::operator=] *)
Definition assign (m peer_ : t) : t :=
  mk (msg_assign (header m) (header peer_)) (reason peer_)
    [arr (pad peer_) 0; arr (pad peer_) 1; arr (pad peer_) 2; arr (pad peer_) 3; arr (pad peer_) 4; arr (pad peer_) 5; arr (pad peer_) 6]
    (msg_assign (desc m) (desc peer_)).

(** [of_port_status::operator==] *)
Definition eqb (m peer_ : t) : bool :=
  msg_eqb (header m) (header peer_) &&
  (reason m =? reason peer_) &&
  (arr (pad m) 0 =? arr (pad peer_) 0) &&
  (arr (pad m) 1 =? arr (pad peer_) 1) &&
  (arr (pad m) 2 =? arr (pad peer_) 2) &&
  (arr (pad m) 3 =? arr (pad peer_) 3) &&
  (arr (pad m) 4 =? arr (pad peer_) 4) &&
  (arr (pad m) 5 =? arr (pad peer_) 5) &&
  (arr (pad m) 6 =? arr (pad peer_) 6) &&
  msg_eqb (desc m) (desc peer_).

(** The encoding, and the values that survive it. *)
Definition size : nat := 64.

Definition wire (m : t) : bytes :=
  msg_wire (header m) ++ [reason m] ++ pad m ++ msg_wire (desc m).

Definition shape (m : t) : Prop :=
  msg_shape (header m) /\ is_array 7 (pad m) /\ msg_shape (desc m).

Definition wf (m : t) : Prop :=
  shape m /\ msg_wf (header m) /\ is_u8 (reason m) /\ msg_wf (desc m).

#[global] Instance port_status_message : Message t :=
  {| msg_size := size; msg_shape := shape; msg_wf := wf; msg_wire := wire;
     msg_pack := pack; msg_unpack := unpack; msg_assign := assign; msg_eqb := eqb |}.

Lemma port_status_wire_length m : shape m -> length (wire m) = size.
Proof. destruct m. unfold shape, wire, size, header, reason, pad, desc. message_intro. solve_length. Qed.

Lemma port_status_pack_wire m b :
  shape m -> (size <= length b)%nat -> pack m b = wire m ++ drop size b.
Proof. destruct m. unfold shape, pack, wire, size, header, reason, pad, desc. message_intro. solve_pack. Qed.

Lemma port_status_unpack_wire m rest : wf m -> unpack (wire m ++ rest) = Some m.
Proof.
  intros Hwf. remember (wire m ++ rest) as b eqn:Hb. change b with (drop 0 b) in Hb. revert Hwf Hb.
  destruct m. unfold wf, shape, wire, unpack, header, reason, pad, desc. message_intro. solve_unpack.
Qed.

Lemma port_status_assign_copies m p : shape p -> assign m p = p.
Proof. destruct p. unfold shape, assign, header, reason, pad, desc. message_intro. solve_assign. Qed.

Lemma port_status_eqb_eq m p : shape m -> shape p -> eqb m p = true <-> m = p.
Proof. destruct m, p. unfold shape, eqb, header, reason, pad, desc. message_intro. solve_eqb. Qed.

#[global] Instance port_status_laws : MessageLaws t :=
  {| msg_wf_shape m H := proj1 H; msg_wire_length := port_status_wire_length;
     msg_pack_wire := port_status_pack_wire; msg_unpack_wire := port_status_unpack_wire;
     msg_assign_copies := port_status_assign_copies; msg_eqb_eq := port_status_eqb_eq |}.

End of_port_status.

Module of_port_mod.

Record t := mk {
  header : of_header.t; port_no : Z; hw_addr : bytes; config : Z; mask : Z; advertise : Z;
  pad : bytes }.

(** [of_port_mod::of_port_mod()] *)
Definition init : t :=
  mk (of_header.with_type OFPT_PORT_MOD of_header.init) 0 [0; 0; 0; 0; 0; 0] 0 0 0 [0; 0; 0; 0].

(** [of_port_mod::of_port_mod(header_, ...)] *)
Definition make (header_ : of_header.t) (port_no_ : Z) (hw_addr_ : bytes) (config_ : Z)
    (mask_ : Z) (advertise_ : Z) (pad_ : bytes) : t :=
  mk header_ port_no_
    [arr hw_addr_ 0; arr hw_addr_ 1; arr hw_addr_ 2; arr hw_addr_ 3; arr hw_addr_ 4; arr hw_addr_ 5]
    config_ mask_ advertise_ [arr pad_ 0; arr pad_ 1; arr pad_ 2; arr pad_ 3].

(** [of_port_mod::pack] *)
Definition pack (m : t) (b : bytes) : bytes :=
  let b := pack_at msg_pack 0 (header m) b in
  let b := put16 8 (htons (port_no m)) b in
  let b := put8 10 (arr (hw_addr m) 0) b in
  let b := put8 11 (arr (hw_addr m) 1) b in
  let b := put8 12 (arr (hw_addr m) 2) b in
  let b := put8 13 (arr (hw_addr m) 3) b in
  let b := put8 14 (arr (hw_addr m) 4) b in
  let b := put8 15 (arr (hw_addr m) 5) b in
  let b := put32 16 (htonl (config m)) b in
  let b := put32 20 (htonl (mask m)) b in
  let b := put32 24 (htonl (advertise m)) b in
  let b := put8 28 (arr (pad m) 0) b in
  let b := put8 29 (arr (pad m) 1) b in
  let b := put8 30 (arr (pad m) 2) b in
  let b := put8 31 (arr (pad m) 3) b in
  b.

(** [of_port_mod::unpack] *)
Definition unpack (b : bytes) : option t :=
  header_ ← msg_unpack (drop 0 b);
  Some (mk header_ (ntohs (get16 8 b))
    [get8 10 b; get8 11 b; get8 12 b; get8 13 b; get8 14 b; get8 15 b] (ntohl (get32 16 b))
    (ntohl (get32 20 b)) (ntohl (get32 24 b)) [get8 28 b; get8 29 b; get8 30 b; get8 31 b]).

(** [of_port_mod::operator=] *)
Definition assign (m peer_ : t) : t :=
  mk (msg_assign (header m) (header peer_)) (port_no peer_)
    [arr (hw_addr peer_) 0; arr (hw_addr peer_) 1; arr (hw_addr peer_) 2; arr (hw_addr peer_) 3; arr (hw_addr peer_) 4; arr (hw_addr peer_) 5]
    (config peer_) (mask peer_) (advertise peer_)
    [arr (pad peer_) 0; arr (pad peer_) 1; arr (pad peer_) 2; arr (pad peer_) 3].

(** [of_port_mod::operator==] *)
Definition eqb (m peer_ : t) : bool :=
  msg_eqb (header m) (header peer_) &&
  (port_no m =? port_no peer_) &&
  (arr (hw_addr m) 0 =? arr (hw_addr peer_) 0) &&
  (arr (hw_addr m) 1 =? arr (hw_addr peer_) 1) &&
  (arr (hw_addr m) 2 =? arr (hw_addr peer_) 2) &&
  (arr (hw_addr m) 3 =? arr (hw_addr peer_) 3) &&
  (arr (hw_addr m) 4 =? arr (hw_addr peer_) 4) &&
  (arr (hw_addr m) 5 =? arr (hw_addr peer_) 5) &&
  (config m =? config peer_) &&
  (mask m =? mask peer_) &&
  (advertise m =? advertise peer_) &&
  (arr (pad m) 0 =? arr (pad peer_) 0) &&
  (arr (pad m) 1 =? arr (pad peer_) 1) &&
  (arr (pad m) 2 =? arr (pad peer_) 2) &&
  (arr (pad m) 3 =? arr (pad peer_) 3).

(** The encoding, and the values that survive it. *)
Definition size : nat := 32.

Definition wire (m : t) : bytes :=
  msg_wire (header m) ++ to_be 2 (port_no m) ++ hw_addr m ++ to_be 4 (config m) ++
  to_be 4 (mask m) ++ to_be 4 (advertise m) ++ pad m.

Definition shape (m : t) : Prop :=
  msg_shape (header m) /\ is_array 6 (hw_addr m) /\ is_array 4 (pad m).

Definition wf (m : t) : Prop :=
  shape m /\ msg_wf (header m) /\ is_u16 (port_no m) /\ is_u32 (config m) /\ is_u32 (mask m) /\
  is_u32 (advertise m).

#[global] Instance port_mod_message : Message t :=
  {| msg_size := size; msg_shape := shape; msg_wf := wf; msg_wire := wire;
     msg_pack := pack; msg_unpack := unpack; msg_assign := assign; msg_eqb := eqb |}.

Lemma port_mod_wire_length m : shape m -> length (wire m) = size.
Proof. destruct m. unfold shape, wire, size, header, port_no, hw_addr, config, mask, advertise, pad. message_intro. solve_length. Qed.

Lemma port_mod_pack_wire m b :
  shape m -> (size <= length b)%nat -> pack m b = wire m ++ drop size b.
Proof. destruct m. unfold shape, pack, wire, size, header, port_no, hw_addr, config, mask, advertise, pad. message_intro. solve_pack. Qed.

Lemma port_mod_unpack_wire m rest : wf m -> unpack (wire m ++ rest) = Some m.
Proof.
  intros Hwf. remember (wire m ++ rest) as b eqn:Hb. change b with (drop 0 b) in Hb. revert Hwf Hb.
  destruct m. unfold wf, shape, wire, unpack, header, port_no, hw_addr, config, mask, advertise, pad. message_intro. solve_unpack.
Qed.

Lemma port_mod_assign_copies m p : shape p -> assign m p = p.
Proof. destruct p. unfold shape, assign, header, port_no, hw_addr, config, mask, advertise, pad. message_intro. solve_assign. Qed.

Lemma port_mod_eqb_eq m p : shape m -> shape p -> eqb m p = true <-> m = p.
Proof. destruct m, p. unfold shape, eqb, header, port_no, hw_addr, config, mask, advertise, pad. message_intro. solve_eqb. Qed.

#[global] Instance port_mod_laws : MessageLaws t :=
  {| msg_wf_shape m H := proj1 H; msg_wire_length := port_mod_wire_length;
     msg_pack_wire := port_mod_pack_wire; msg_unpack_wire := port_mod_unpack_wire;
     msg_assign_copies := port_mod_assign_copies; msg_eqb_eq := port_mod_eqb_eq |}.

#[global] Instance port_mod_exact : Exact t.
Proof.
  intros b m Hb HN Hu. change (unpack b = Some m) in Hu. change (size <= length b)%nat in HN.
  change (wf m /\ wire m = take size b). unfold unpack, size in *. destruct_unpack Hu.
  unfold wf, shape, wire, header, port_no, hw_addr, config, mask, advertise, pad. solve_exact Hb HN.
Qed.

End of_port_mod.

Module of_switch_config.

Record t := mk {
  header : of_header.t; flags : Z; miss_send_len : Z }.

(** [of_switch_config::of_switch_config()] *)
Definition init : t :=
  mk of_header.init 0 OFP_DEFAULT_MISS_SEND_LEN.

(** [of_switch_config::of_switch_config(header_, ...)] *)
Definition make (header_ : of_header.t) (flags_ : Z) (miss_send_len_ : Z) : t :=
  mk header_ flags_ miss_send_len_.

(** [of_switch_config::pack] *)
Definition pack (m : t) (b : bytes) : bytes :=
  let b := pack_at msg_pack 0 (header m) b in
  let b := put16 8 (htons (flags m)) b in
  let b := put16 10 (htons (miss_send_len m)) b in
  b.

(** [of_switch_config::unpack] *)
Definition unpack (b : bytes) : option t :=
  header_ ← msg_unpack (drop 0 b);
  Some (mk header_ (ntohs (get16 8 b)) (ntohs (get16 10 b))).

(** [of_switch_config::operator=] *)
Definition assign (m peer_ : t) : t :=
  mk (msg_assign (header m) (header peer_)) (flags peer_) (miss_send_len peer_).

(** [of_switch_config::operator==] *)
Definition eqb (m peer_ : t) : bool :=
  msg_eqb (header m) (header peer_) &&
  (flags m =? flags peer_) &&
  (miss_send_len m =? miss_send_len peer_).

(** The encoding, and the values that survive it. *)
Definition size : nat := 12.

Definition wire (m : t) : bytes :=
  msg_wire (header m) ++ to_be 2 (flags m) ++ to_be 2 (miss_send_len m).

Definition shape (m : t) : Prop :=
  msg_shape (header m).

Definition wf (m : t) : Prop :=
  shape m /\ msg_wf (header m) /\ is_u16 (flags m) /\ is_u16 (miss_send_len m).

#[global] Instance switch_config_message : Message t :=
  {| msg_size := size; msg_shape := shape; msg_wf := wf; msg_wire := wire;
     msg_pack := pack; msg_unpack := unpack; msg_assign := assign; msg_eqb := eqb |}.

Lemma switch_config_wire_length m : shape m -> length (wire m) = size.
Proof. destruct m. unfold shape, wire, size, header, flags, miss_send_len. message_intro. solve_length. Qed.

Lemma switch_config_pack_wire m b :
  shape m -> (size <= length b)%nat -> pack m b = wire m ++ drop size b.
Proof. destruct m. unfold shape, pack, wire, size, header, flags, miss_send_len. message_intro. solve_pack. Qed.

Lemma switch_config_unpack_wire m rest : wf m -> unpack (wire m ++ rest) = Some m.
Proof.
  intros Hwf. remember (wire m ++ rest) as b eqn:Hb. change b with (drop 0 b) in Hb. revert Hwf Hb.
  destruct m. unfold wf, shape, wire, unpack, header, flags, miss_send_len. message_intro. solve_unpack.
Qed.

Lemma switch_config_assign_copies m p : shape p -> assign m p = p.
Proof. destruct p. unfold shape, assign, header, flags, miss_send_len. message_intro. solve_assign. Qed.

Lemma switch_config_eqb_eq m p : shape m -> shape p -> eqb m p = true <-> m = p.
Proof. destruct m, p. unfold shape, eqb, header, flags, miss_send_len. message_intro. solve_eqb. Qed.

#[global] Instance switch_config_laws : MessageLaws t :=
  {| msg_wf_shape m H := proj1 H; msg_wire_length := switch_config_wire_length;
     msg_pack_wire := switch_config_pack_wire; msg_unpack_wire := switch_config_unpack_wire;
     msg_assign_copies := switch_config_assign_copies; msg_eqb_eq := switch_config_eqb_eq |}.

#[global] Instance switch_config_exact : Exact t.
Proof.
  intros b m Hb HN Hu. change (unpack b = Some m) in Hu. change (size <= length b)%nat in HN.
  change (wf m /\ wire m = take size b). unfold unpack, size in *. destruct_unpack Hu.
  unfold wf, shape, wire, header, flags, miss_send_len. solve_exact Hb HN.
Qed.

End of_switch_config.

Module of_queue_get_config_reply.

Record t := mk {
  header : of_header.t; port : Z; pad : bytes }.

(** [of_queue_get_config_reply::of_queue_get_config_reply()] *)
Definition init : t :=
  mk of_header.init 0 [0; 0; 0; 0; 0; 0].

(** [of_queue_get_config_reply::of_queue_get_config_reply(header_, ...)] *)
Definition make (header_ : of_header.t) (port_ : Z) (pad_ : bytes) : t :=
  mk header_ port_ [arr pad_ 0; arr pad_ 1; arr pad_ 2; arr pad_ 3; arr pad_ 4; arr pad_ 5].

(** [of_queue_get_config_reply::pack] *)
Definition pack (m : t) (b : bytes) : bytes :=
  let b := pack_at msg_pack 0 (header m) b in
  let b := put16 8 (htons (port m)) b in
  let b := put8 10 (arr (pad m) 0) b in
  let b := put8 11 (arr (pad m) 1) b in
  let b := put8 12 (arr (pad m) 2) b in
  let b := put8 13 (arr (pad m) 3) b in
  let b := put8 14 (arr (pad m) 4) b in
  let b := put8 15 (arr (pad m) 5) b in
  b.

(** [of_queue_get_config_reply::unpack] *)
Definition unpack (b : bytes) : option t :=
  header_ ← msg_unpack (drop 0 b);
  Some (mk header_ (ntohs (get16 8 b))
    [get8 10 b; get8 11 b; get8 12 b; get8 13 b; get8 14 b; get8 15 b]).

(** [of_queue_get_config_reply::operator=] *)
Definition assign (m peer_ : t) : t :=
  mk (msg_assign (header m) (header peer_)) (port peer_)
    [arr (pad peer_) 0; arr (pad peer_) 1; arr (pad peer_) 2; arr (pad peer_) 3; arr (pad peer_) 4; arr (pad peer_) 5].

(** [of_queue_get_config_reply::operator==] *)
Definition eqb (m peer_ : t) : bool :=
  msg_eqb (header m) (header peer_) &&
  (port m =? port peer_) &&
  (arr (pad m) 0 =? arr (pad peer_) 0) &&
  (arr (pad m) 1 =? arr (pad peer_) 1) &&
  (arr (pad m) 2 =? arr (pad peer_) 2) &&
  (arr (pad m) 3 =? arr (pad peer_) 3) &&
  (arr (pad m) 4 =? arr (pad peer_) 4) &&
  (arr (pad m) 5 =? arr (pad peer_) 5).

(** The encoding, and the values that survive it. *)
Definition size : nat := 16.

Definition wire (m : t) : bytes :=
  msg_wire (header m) ++ to_be 2 (port m) ++ pad m.

Definition shape (m : t) : Prop :=
  msg_shape (header m) /\ is_array 6 (pad m).

Definition wf (m : t) : Prop :=
  shape m /\ msg_wf (header m) /\ is_u16 (port m).

#[global] Instance queue_get_config_reply_message : Message t :=
  {| msg_size := size; msg_shape := shape; msg_wf := wf; msg_wire := wire;
     msg_pack := pack; msg_unpack := unpack; msg_assign := assign; msg_eqb := eqb |}.

Lemma queue_get_config_reply_wire_length m : shape m -> length (wire m) = size.
Proof. destruct m. unfold shape, wire, size, header, port, pad. message_intro. solve_length. Qed.

Lemma queue_get_config_reply_pack_wire m b :
  shape m -> (size <= length b)%nat -> pack m b = wire m ++ drop size b.
Proof. destruct m. unfold shape, pack, wire, size, header, port, pad. message_intro. solve_pack. Qed.

Lemma queue_get_config_reply_unpack_wire m rest : wf m -> unpack (wire m ++ rest) = Some m.
Proof.
  intros Hwf. remember (wire m ++ rest) as b eqn:Hb. change b with (drop 0 b) in Hb. revert Hwf Hb.
  destruct m. unfold wf, shape, wire, unpack, header, port, pad. message_intro. solve_unpack.
Qed.

Lemma queue_get_config_reply_assign_copies m p : shape p -> assign m p = p.
Proof. destruct p. unfold shape, assign, header, port, pad. message_intro. solve_assign. Qed.

Lemma queue_get_config_reply_eqb_eq m p : shape m -> shape p -> eqb m p = true <-> m = p.
Proof. destruct m, p. unfold shape, eqb, header, port, pad. message_intro. solve_eqb. Qed.

#[global] Instance queue_get_config_reply_laws : MessageLaws t :=
  {| msg_wf_shape m H := proj1 H; msg_wire_length := queue_get_config_reply_wire_length;
     msg_pack_wire := queue_get_config_reply_pack_wire; msg_unpack_wire := queue_get_config_reply_unpack_wire;
     msg_assign_copies := queue_get_config_reply_assign_copies; msg_eqb_eq := queue_get_config_reply_eqb_eq |}.

#[global] Instance queue_get_config_reply_exact : Exact t.
Proof.
  intros b m Hb HN Hu. change (unpack b = Some m) in Hu. change (size <= length b)%nat in HN.
  change (wf m /\ wire m = take size b). unfold unpack, size in *. destruct_unpack Hu.
  unfold wf, shape, wire, header, port, pad. solve_exact Hb HN.
Qed.

End of_queue_get_config_reply.

Module of_packet_in.

Record t := mk {
  header : of_header.t; buffer_id : Z; total_len : Z; in_port : Z; reason : Z; pad : Z }.

(** [of_packet_in::of_packet_in()] *)
Definition init : t :=
  mk (of_header.with_type OFPT_PACKET_IN of_header.init) 0 0 0 0 0.

(** [of_packet_in::of_packet_in(header_, ...)] *)
Definition make (header_ : of_header.t) (buffer_id_ : Z) (total_len_ : Z) (in_port_ : Z)
    (reason_ : Z) (pad_ : Z) : t :=
  mk header_ buffer_id_ total_len_ in_port_ reason_ pad_.

(** [of_packet_in::pack] *)
Definition pack (m : t) (b : bytes) : bytes :=
  let b := pack_at msg_pack 0 (header m) b in
  let b := put32 8 (htonl (buffer_id m)) b in
  let b := put16 12 (htons (total_len m)) b in
  let b := put16 14 (htons (in_port m)) b in
  let b := put8 16 (reason m) b in
  let b := put8 17 (pad m) b in
  b.

(** [of_packet_in::unpack] *)
Definition unpack (b : bytes) : option t :=
  header_ ← msg_unpack (drop 0 b);
  Some (mk header_ (ntohl (get32 8 b)) (ntohs (get16 12 b)) (ntohs (get16 14 b)) (get8 16 b)
    (get8 17 b)).

(** [of_packet_in::operator=] *)
Definition assign (m peer_ : t) : t :=
  mk (msg_assign (header m) (header peer_)) (buffer_id peer_) (total_len peer_) (in_port peer_)
    (reason peer_) (pad peer_).

(** [of_packet_in::operator==] *)
Definition eqb (m peer_ : t) : bool :=
  msg_eqb (header m) (header peer_) &&
  (buffer_id m =? buffer_id peer_) &&
  (total_len m =? total_len peer_) &&
  (in_port m =? in_port peer_) &&
  (reason m =? reason peer_) &&
  (pad m =? pad peer_).

(** The encoding, and the values that survive it. *)
Definition size : nat := 18.

Definition wire (m : t) : bytes :=
  msg_wire (header m) ++ to_be 4 (buffer_id m) ++ to_be 2 (total_len m) ++
  to_be 2 (in_port m) ++ [reason m] ++ [pad m].

Definition shape (m : t) : Prop :=
  msg_shape (header m).

Definition wf (m : t) : Prop :=
  shape m /\ msg_wf (header m) /\ is_u32 (buffer_id m) /\ is_u16 (total_len m) /\
  is_u16 (in_port m) /\ is_u8 (reason m) /\ is_u8 (pad m).

#[global] Instance packet_in_message : Message t :=
  {| msg_size := size; msg_shape := shape; msg_wf := wf; msg_wire := wire;
     msg_pack := pack; msg_unpack := unpack; msg_assign := assign; msg_eqb := eqb |}.

Lemma packet_in_wire_length m : shape m -> length (wire m) = size.
Proof. destruct m. unfold shape, wire, size, header, buffer_id, total_len, in_port, reason, pad. message_intro. solve_length. Qed.

Lemma packet_in_pack_wire m b :
  shape m -> (size <= length b)%nat -> pack m b = wire m ++ drop size b.
Proof. destruct m. unfold shape, pack, wire, size, header, buffer_id, total_len, in_port, reason, pad. message_intro. solve_pack. Qed.

Lemma packet_in_unpack_wire m rest : wf m -> unpack (wire m ++ rest) = Some m.
Proof.
  intros Hwf. remember (wire m ++ rest) as b eqn:Hb. change b with (drop 0 b) in Hb. revert Hwf Hb.
  destruct m. unfold wf, shape, wire, unpack, header, buffer_id, total_len, in_port, reason, pad. message_intro. solve_unpack.
Qed.

Lemma packet_in_assign_copies m p : shape p -> assign m p = p.
Proof. destruct p. unfold shape, assign, header, buffer_id, total_len, in_port, reason, pad. message_intro. solve_assign. Qed.

Lemma packet_in_eqb_eq m p : shape m -> shape p -> eqb m p = true <-> m = p.
Proof. destruct m, p. unfold shape, eqb, header, buffer_id, total_len, in_port, reason, pad. message_intro. solve_eqb. Qed.

#[global] Instance packet_in_laws : MessageLaws t :=
  {| msg_wf_shape m H := proj1 H; msg_wire_length := packet_in_wire_length;
     msg_pack_wire := packet_in_pack_wire; msg_unpack_wire := packet_in_unpack_wire;
     msg_assign_copies := packet_in_assign_copies; msg_eqb_eq := packet_in_eqb_eq |}.

#[global] Instance packet_in_exact : Exact t.
Proof.
  intros b m Hb HN Hu. change (unpack b = Some m) in Hu. change (size <= length b)%nat in HN.
  change (wf m /\ wire m = take size b). unfold unpack, size in *. destruct_unpack Hu.
  unfold wf, shape, wire, header, buffer_id, total_len, in_port, reason, pad. solve_exact Hb HN.
Qed.

End of_packet_in.

Module of_queue_get_config_request.

Record t := mk {
  header : of_header.t; port : Z; pad : bytes }.

(** [of_queue_get_config_request::of_queue_get_config_request()] *)
Definition init : t :=
  mk of_header.init 0 [0; 0].

(** [of_queue_get_config_request::of_queue_get_config_request(header_, ...)] *)
Definition make (header_ : of_header.t) (port_ : Z) (pad_ : bytes) : t :=
  mk header_ port_ [arr pad_ 0; arr pad_ 1].

(** [of_queue_get_config_request::pack] *)
Definition pack (m : t) (b : bytes) : bytes :=
  let b := pack_at msg_pack 0 (header m) b in
  let b := put16 8 (htons (port m)) b in
  let b := put8 10 (arr (pad m) 0) b in
  let b := put8 11 (arr (pad m) 1) b in
  b.

(** [of_queue_get_config_request::unpack] *)
Definition unpack (b : bytes) : option t :=
  header_ ← msg_unpack (drop 0 b);
  Some (mk header_ (ntohs (get16 8 b)) [get8 10 b; get8 11 b]).

(** [of_queue_get_config_request::operator=] *)
Definition assign (m peer_ : t) : t :=
  mk (msg_assign (header m) (header peer_)) (port peer_) [arr (pad peer_) 0; arr (pad peer_) 1].

(** [of_queue_get_config_request::operator==] *)
Definition eqb (m peer_ : t) : bool :=
  msg_eqb (header m) (header peer_) &&
  (port m =? port peer_) &&
  (arr (pad m) 0 =? arr (pad peer_) 0) &&
  (arr (pad m) 1 =? arr (pad peer_) 1).

(** The encoding, and the values that survive it. *)
Definition size : nat := 12.

Definition wire (m : t) : bytes :=
  msg_wire (header m) ++ to_be 2 (port m) ++ pad m.

Definition shape (m : t) : Prop :=
  msg_shape (header m) /\ is_array 2 (pad m).

Definition wf (m : t) : Prop :=
  shape m /\ msg_wf (header m) /\ is_u16 (port m).

#[global] Instance queue_get_config_request_message : Message t :=
  {| msg_size := size; msg_shape := shape; msg_wf := wf; msg_wire := wire;
     msg_pack := pack; msg_unpack := unpack; msg_assign := assign; msg_eqb := eqb |}.

Lemma queue_get_config_request_wire_length m : shape m -> length (wire m) = size.
Proof. destruct m. unfold shape, wire, size, header, port, pad. message_intro. solve_length. Qed.

Lemma queue_get_config_request_pack_wire m b :
  shape m -> (size <= length b)%nat -> pack m b = wire m ++ drop size b.
Proof. destruct m. unfold shape, pack, wire, size, header, port, pad. message_intro. solve_pack. Qed.

Lemma queue_get_config_request_unpack_wire m rest : wf m -> unpack (wire m ++ rest) = Some m.
Proof.
  intros Hwf. remember (wire m ++ rest) as b eqn:Hb. change b with (drop 0 b) in Hb. revert Hwf Hb.
  destruct m. unfold wf, shape, wire, unpack, header, port, pad. message_intro. solve_unpack.
Qed.

Lemma queue_get_config_request_assign_copies m p : shape p -> assign m p = p.
Proof. destruct p. unfold shape, assign, header, port, pad. message_intro. solve_assign. Qed.

Lemma queue_get_config_request_eqb_eq m p : shape m -> shape p -> eqb m p = true <-> m = p.
Proof. destruct m, p. unfold shape, eqb, header, port, pad. message_intro. solve_eqb. Qed.

#[global] Instance queue_get_config_request_laws : MessageLaws t :=
  {| msg_wf_shape m H := proj1 H; msg_wire_length := queue_get_config_request_wire_length;
     msg_pack_wire := queue_get_config_request_pack_wire; msg_unpack_wire := queue_get_config_request_unpack_wire;
     msg_assign_copies := queue_get_config_request_assign_copies; msg_eqb_eq := queue_get_config_request_eqb_eq |}.

#[global] Instance queue_get_config_request_exact : Exact t.
Proof.
  intros b m Hb HN Hu. change (unpack b = Some m) in Hu. change (size <= length b)%nat in HN.
  change (wf m /\ wire m = take size b). unfold unpack, size in *. destruct_unpack Hu.
  unfold wf, shape, wire, header, port, pad. solve_exact Hb HN.
Qed.

End of_queue_get_config_request.

Module of_packet_queue.

Record t := mk {
  queue_id : Z; len : Z; pad : bytes }.

(** [of_packet_queue::of_packet_queue()] *)
Definition init : t :=
  mk 0 0 [0; 0].

(** [of_packet_queue::of_packet_queue(queue_id_, ...)] *)
Definition make (queue_id_ : Z) (len_ : Z) (pad_ : bytes) : t :=
  mk queue_id_ len_ [arr pad_ 0; arr pad_ 1].

(** [of_packet_queue::pack] *)
Definition pack (m : t) (b : bytes) : bytes :=
  let b := put32 0 (htonl (queue_id m)) b in
  let b := put16 4 (htons (len m)) b in
  let b := put8 6 (arr (pad m) 0) b in
  let b := put8 7 (arr (pad m) 1) b in
  b.

(** [of_packet_queue::unpack] *)
Definition unpack (b : bytes) : option t :=
  Some (mk (ntohl (get32 0 b)) (ntohs (get16 4 b)) [get8 6 b; get8 7 b]).

(** [of_packet_queue::operator=] *)
Definition assign (m peer_ : t) : t :=
  mk (queue_id peer_) (len peer_) [arr (pad peer_) 0; arr (pad peer_) 1].

(** [of_packet_queue::operator==] *)
Definition eqb (m peer_ : t) : bool :=
  (queue_id m =? queue_id peer_) &&
  (len m =? len peer_) &&
  (arr (pad m) 0 =? arr (pad peer_) 0) &&
  (arr (pad m) 1 =? arr (pad peer_) 1).

(** The encoding, and the values that survive it. *)
Definition size : nat := 8.

Definition wire (m : t) : bytes :=
  to_be 4 (queue_id m) ++ to_be 2 (len m) ++ pad m.

Definition shape (m : t) : Prop :=
  is_array 2 (pad m).

Definition wf (m : t) : Prop :=
  shape m /\ is_u32 (queue_id m) /\ is_u16 (len m).

#[global] Instance packet_queue_message : Message t :=
  {| msg_size := size; msg_shape := shape; msg_wf := wf; msg_wire := wire;
     msg_pack := pack; msg_unpack := unpack; msg_assign := assign; msg_eqb := eqb |}.

Lemma packet_queue_wire_length m : shape m -> length (wire m) = size.
Proof. destruct m. unfold shape, wire, size, queue_id, len, pad. message_intro. solve_length. Qed.

Lemma packet_queue_pack_wire m b :
  shape m -> (size <= length b)%nat -> pack m b = wire m ++ drop size b.
Proof. destruct m. unfold shape, pack, wire, size, queue_id, len, pad. message_intro. solve_pack. Qed.

Lemma packet_queue_unpack_wire m rest : wf m -> unpack (wire m ++ rest) = Some m.
Proof.
  intros Hwf. remember (wire m ++ rest) as b eqn:Hb. change b with (drop 0 b) in Hb. revert Hwf Hb.
  destruct m. unfold wf, shape, wire, unpack, queue_id, len, pad. message_intro. solve_unpack.
Qed.

Lemma packet_queue_assign_copies m p : shape p -> assign m p = p.
Proof. destruct p. unfold shape, assign, queue_id, len, pad. message_intro. solve_assign. Qed.

Lemma packet_queue_eqb_eq m p : shape m -> shape p -> eqb m p = true <-> m = p.
Proof. destruct m, p. unfold shape, eqb, queue_id, len, pad. message_intro. solve_eqb. Qed.

#[global] Instance packet_queue_laws : MessageLaws t :=
  {| msg_wf_shape m H := proj1 H; msg_wire_length := packet_queue_wire_length;
     msg_pack_wire := packet_queue_pack_wire; msg_unpack_wire := packet_queue_unpack_wire;
     msg_assign_copies := packet_queue_assign_copies; msg_eqb_eq := packet_queue_eqb_eq |}.

#[global] Instance packet_queue_exact : Exact t.
Proof.
  intros b m Hb HN Hu. change (unpack b = Some m) in Hu. change (size <= length b)%nat in HN.
  change (wf m /\ wire m = take size b). unfold unpack, size in *. destruct_unpack Hu.
  unfold wf, shape, wire, queue_id, len, pad. solve_exact Hb HN.
Qed.

End of_packet_queue.

Module of_queue_prop_header.

Record t := mk {
  property : Z; len : Z; pad : bytes }.

(** [of_queue_prop_header::of_queue_prop_header()] *)
Definition init : t :=
  mk 0 0 [0; 0; 0; 0].

(** [of_queue_prop_header::of_queue_prop_header(property_, ...)] *)
Definition make (property_ : Z) (len_ : Z) (pad_ : bytes) : t :=
  mk property_ len_ [arr pad_ 0; arr pad_ 1; arr pad_ 2; arr pad_ 3].

(** [of_queue_prop_header::pack] *)
Definition pack (m : t) (b : bytes) : bytes :=
  let b := put16 0 (htons (property m)) b in
  let b := put16 2 (htons (len m)) b in
  let b := put8 4 (arr (pad m) 0) b in
  let b := put8 5 (arr (pad m) 1) b in
  let b := put8 6 (arr (pad m) 2) b in
  let b := put8 7 (arr (pad m) 3) b in
  b.

(** [of_queue_prop_header::unpack] *)
Definition unpack (b : bytes) : option t :=
  Some (mk (ntohs (get16 0 b)) (ntohs (get16 2 b)) [get8 4 b; get8 5 b; get8 6 b; get8 7 b]).

(** [of_queue_prop_header::operator=] *)
Definition assign (m peer_ : t) : t :=
  mk (property peer_) (len peer_)
    [arr (pad peer_) 0; arr (pad peer_) 1; arr (pad peer_) 2; arr (pad peer_) 3].

(** [of_queue_prop_header::operator==] *)
Definition eqb (m peer_ : t) : bool :=
  (property m =? property peer_) &&
  (len m =? len peer_) &&
  (arr (pad m) 0 =? arr (pad peer_) 0) &&
  (arr (pad m) 1 =? arr (pad peer_) 1) &&
  (arr (pad m) 2 =? arr (pad peer_) 2) &&
  (arr (pad m) 3 =? arr (pad peer_) 3).

(** The encoding, and the values that survive it. *)
Definition size : nat := 8.

Definition wire (m : t) : bytes :=
  to_be 2 (property m) ++ to_be 2 (len m) ++ pad m.

Definition shape (m : t) : Prop :=
  is_array 4 (pad m).

Definition wf (m : t) : Prop :=
  shape m /\ is_u16 (property m) /\ is_u16 (len m).

#[global] Instance queue_prop_header_message : Message t :=
  {| msg_size := size; msg_shape := shape; msg_wf := wf; msg_wire := wire;
     msg_pack := pack; msg_unpack := unpack; msg_assign := assign; msg_eqb := eqb |}.

Lemma queue_prop_header_wire_length m : shape m -> length (wire m) = size.
Proof. destruct m. unfold shape, wire, size, property, len, pad. message_intro. solve_length. Qed.

Lemma queue_prop_header_pack_wire m b :
  shape m -> (size <= length b)%nat -> pack m b = wire m ++ drop size b.
Proof. destruct m. unfold shape, pack, wire, size, property, len, pad. message_intro. solve_pack. Qed.

Lemma queue_prop_header_unpack_wire m rest : wf m -> unpack (wire m ++ rest) = Some m.
Proof.
  intros Hwf. remember (wire m ++ rest) as b eqn:Hb. change b with (drop 0 b) in Hb. revert Hwf Hb.
  destruct m. unfold wf, shape, wire, unpack, property, len, pad. message_intro. solve_unpack.
Qed.

Lemma queue_prop_header_assign_copies m p : shape p -> assign m p = p.
Proof. destruct p. unfold shape, assign, property, len, pad. message_intro. solve_assign. Qed.

Lemma queue_prop_header_eqb_eq m p : shape m -> shape p -> eqb m p = true <-> m = p.
Proof. destruct m, p. unfold shape, eqb, property, len, pad. message_intro. solve_eqb. Qed.

#[global] Instance queue_prop_header_laws : MessageLaws t :=
  {| msg_wf_shape m H := proj1 H; msg_wire_length := queue_prop_header_wire_length;
     msg_pack_wire := queue_prop_header_pack_wire; msg_unpack_wire := queue_prop_header_unpack_wire;
     msg_assign_copies := queue_prop_header_assign_copies; msg_eqb_eq := queue_prop_header_eqb_eq |}.

#[global] Instance queue_prop_header_exact : Exact t.
Proof.
  intros b m Hb HN Hu. change (unpack b = Some m) in Hu. change (size <= length b)%nat in HN.
  change (wf m /\ wire m = take size b). unfold unpack, size in *. destruct_unpack Hu.
  unfold wf, shape, wire, property, len, pad. solve_exact Hb HN.
Qed.

End of_queue_prop_header.

Module of_queue_prop_min_rate.

Record t := mk {
  prop_header : of_queue_prop_header.t; rate : Z; pad : bytes }.

(** [of_queue_prop_min_rate::of_queue_prop_min_rate()] *)
Definition init : t :=
  mk of_queue_prop_header.init 0 [0; 0; 0; 0; 0; 0].

(** [of_queue_prop_min_rate::of_queue_prop_min_rate(prop_header_, ...)] *)
Definition make (prop_header_ : of_queue_prop_header.t) (rate_ : Z) (pad_ : bytes) : t :=
  mk prop_header_ rate_
    [arr pad_ 0; arr pad_ 1; arr pad_ 2; arr pad_ 3; arr pad_ 4; arr pad_ 5].

(** [of_queue_prop_min_rate::pack] *)
Definition pack (m : t) (b : bytes) : bytes :=
  let b := pack_at msg_pack 0 (prop_header m) b in
  let b := put16 8 (htons (rate m)) b in
  let b := put8 10 (arr (pad m) 0) b in
  let b := put8 11 (arr (pad m) 1) b in
  let b := put8 12 (arr (pad m) 2) b in
  let b := put8 13 (arr (pad m) 3) b in
  let b := put8 14 (arr (pad m) 4) b in
  let b := put8 15 (arr (pad m) 5) b in
  b.

(** [of_queue_prop_min_rate::unpack] *)
Definition unpack (b : bytes) : option t :=
  prop_header_ ← msg_unpack (drop 0 b);
  Some (mk prop_header_ (ntohs (get16 8 b))
    [get8 10 b; get8 11 b; get8 12 b; get8 13 b; get8 14 b; get8 15 b]).

(** [of_queue_prop_min_rate::operator=] *)
Definition assign (m peer_ : t) : t :=
  mk (msg_assign (prop_header m) (prop_header peer_)) (rate peer_)
    [arr (pad peer_) 0; arr (pad peer_) 1; arr (pad peer_) 2; arr (pad peer_) 3; arr (pad peer_) 4; arr (pad peer_) 5].

(** [of_queue_prop_min_rate::operator==] *)
Definition eqb (m peer_ : t) : bool :=
  msg_eqb (prop_header m) (prop_header peer_) &&
  (rate m =? rate peer_) &&
  (arr (pad m) 0 =? arr (pad peer_) 0) &&
  (arr (pad m) 1 =? arr (pad peer_) 1) &&
  (arr (pad m) 2 =? arr (pad peer_) 2) &&
  (arr (pad m) 3 =? arr (pad peer_) 3) &&
  (arr (pad m) 4 =? arr (pad peer_) 4) &&
  (arr (pad m) 5 =? arr (pad peer_) 5).

(** The encoding, and the values that survive it. *)
Definition size : nat := 16.

Definition wire (m : t) : bytes :=
  msg_wire (prop_header m) ++ to_be 2 (rate m) ++ pad m.

Definition shape (m : t) : Prop :=
  msg_shape (prop_header m) /\ is_array 6 (pad m).

Definition wf (m : t) : Prop :=
  shape m /\ msg_wf (prop_header m) /\ is_u16 (rate m).

#[global] Instance queue_prop_min_rate_message : Message t :=
  {| msg_size := size; msg_shape := shape; msg_wf := wf; msg_wire := wire;
     msg_pack := pack; msg_unpack := unpack; msg_assign := assign; msg_eqb := eqb |}.

Lemma queue_prop_min_rate_wire_length m : shape m -> length (wire m) = size.
Proof. destruct m. unfold shape, wire, size, prop_header, rate, pad. message_intro. solve_length. Qed.

Lemma queue_prop_min_rate_pack_wire m b :
  shape m -> (size <= length b)%nat -> pack m b = wire m ++ drop size b.
Proof. destruct m. unfold shape, pack, wire, size, prop_header, rate, pad. message_intro. solve_pack. Qed.

Lemma queue_prop_min_rate_unpack_wire m rest : wf m -> unpack (wire m ++ rest) = Some m.
Proof.
  intros Hwf. remember (wire m ++ rest) as b eqn:Hb. change b with (drop 0 b) in Hb. revert Hwf Hb.
  destruct m. unfold wf, shape, wire, unpack, prop_header, rate, pad. message_intro. solve_unpack.
Qed.

Lemma queue_prop_min_rate_assign_copies m p : shape p -> assign m p = p.
Proof. destruct p. unfold shape, assign, prop_header, rate, pad. message_intro. solve_assign. Qed.

Lemma queue_prop_min_rate_eqb_eq m p : shape m -> shape p -> eqb m p = true <-> m = p.
Proof. destruct m, p. unfold shape, eqb, prop_header, rate, pad. message_intro. solve_eqb. Qed.

#[global] Instance queue_prop_min_rate_laws : MessageLaws t :=
  {| msg_wf_shape m H := proj1 H; msg_wire_length := queue_prop_min_rate_wire_length;
     msg_pack_wire := queue_prop_min_rate_pack_wire; msg_unpack_wire := queue_prop_min_rate_unpack_wire;
     msg_assign_copies := queue_prop_min_rate_assign_copies; msg_eqb_eq := queue_prop_min_rate_eqb_eq |}.

#[global] Instance queue_prop_min_rate_exact : Exact t.
Proof.
  intros b m Hb HN Hu. change (unpack b = Some m) in Hu. change (size <= length b)%nat in HN.
  change (wf m /\ wire m = take size b). unfold unpack, size in *. destruct_unpack Hu.
  unfold wf, shape, wire, prop_header, rate, pad. solve_exact Hb HN.
Qed.

End of_queue_prop_min_rate.

Module of_switch_features.

Record t := mk {
  header : of_header.t; datapath_id : Z; n_buffers : Z; n_tables : Z; pad : bytes;
  capabilities : Z; actions : Z }.

(** [of_switch_features::of_switch_features()] *)
Definition init : t :=
  mk (of_header.with_type OFPT_FEATURES_REPLY of_header.init) 0 0 0 [0; 0; 0] 0 0.

(** [of_switch_features::of_switch_features(header_, ...)] *)
Definition make (header_ : of_header.t) (datapath_id_ : Z) (n_buffers_ : Z) (n_tables_ : Z)
    (pad_ : bytes) (capabilities_ : Z) (actions_ : Z) : t :=
  mk header_ datapath_id_ n_buffers_ n_tables_ [arr pad_ 0; arr pad_ 1; arr pad_ 2]
    capabilities_ actions_.

(** [of_switch_features::pack] *)
Definition pack (m : t) (b : bytes) : bytes :=
  let b := pack_at msg_pack 0 (header m) b in
  let b := put64 8 (htonll (datapath_id m)) b in
  let b := put32 16 (htonl (n_buffers m)) b in
  let b := put8 20 (n_tables m) b in
  let b := put8 21 (arr (pad m) 0) b in
  let b := put8 22 (arr (pad m) 1) b in
  let b := put8 23 (arr (pad m) 2) b in
  let b := put32 24 (htonl (capabilities m)) b in
  let b := put32 28 (htonl (actions m)) b in
  b.

(** [of_switch_features::unpack] *)
Definition unpack (b : bytes) : option t :=
  header_ ← msg_unpack (drop 0 b);
  Some (mk header_ (ntohll (get64 8 b)) (ntohl (get32 16 b)) (get8 20 b)
    [get8 21 b; get8 22 b; get8 23 b] (ntohl (get32 24 b)) (ntohl (get32 28 b))).

(** [of_switch_features::operator=] *)
Definition assign (m peer_ : t) : t :=
  mk (msg_assign (header m) (header peer_)) (datapath_id peer_) (n_buffers peer_)
    (n_tables peer_) [arr (pad peer_) 0; arr (pad peer_) 1; arr (pad peer_) 2]
    (capabilities peer_) (actions peer_).

(** [of_switch_features::operator==] *)
Definition eqb (m peer_ : t) : bool :=
  msg_eqb (header m) (header peer_) &&
  (datapath_id m =? datapath_id peer_) &&
  (n_buffers m =? n_buffers peer_) &&
  (n_tables m =? n_tables peer_) &&
  (arr (pad m) 0 =? arr (pad peer_) 0) &&
  (arr (pad m) 1 =? arr (pad peer_) 1) &&
  (arr (pad m) 2 =? arr (pad peer_) 2) &&
  (capabilities m =? capabilities peer_) &&
  (actions m =? actions peer_).

(** The encoding, and the values that survive it. *)
Definition size : nat := 32.

Definition wire (m : t) : bytes :=
  msg_wire (header m) ++ to_be 8 (datapath_id m) ++ to_be 4 (n_buffers m) ++ [n_tables m] ++
  pad m ++ to_be 4 (capabilities m) ++ to_be 4 (actions m).

Definition shape (m : t) : Prop :=
  msg_shape (header m) /\ is_array 3 (pad m).

Definition wf (m : t) : Prop :=
  shape m /\ msg_wf (header m) /\ is_u64 (datapath_id m) /\ is_u32 (n_buffers m) /\
  is_u8 (n_tables m) /\ is_u32 (capabilities m) /\ is_u32 (actions m).

#[global] Instance switch_features_message : Message t :=
  {| msg_size := size; msg_shape := shape; msg_wf := wf; msg_wire := wire;
     msg_pack := pack; msg_unpack := unpack; msg_assign := assign; msg_eqb := eqb |}.

Lemma switch_features_wire_length m : shape m -> length (wire m) = size.
Proof. destruct m. unfold shape, wire, size, header, datapath_id, n_buffers, n_tables, pad, capabilities, actions. message_intro. solve_length. Qed.

Lemma switch_features_pack_wire m b :
  shape m -> (size <= length b)%nat -> pack m b = wire m ++ drop size b.
Proof. destruct m. unfold shape, pack, wire, size, header, datapath_id, n_buffers, n_tables, pad, capabilities, actions. message_intro. solve_pack. Qed.

Lemma switch_features_unpack_wire m rest : wf m -> unpack (wire m ++ rest) = Some m.
Proof.
  intros Hwf. remember (wire m ++ rest) as b eqn:Hb. change b with (drop 0 b) in Hb. revert Hwf Hb.
  destruct m. unfold wf, shape, wire, unpack, header, datapath_id, n_buffers, n_tables, pad, capabilities, actions. message_intro. solve_unpack.
Qed.

Lemma switch_features_assign_copies m p : shape p -> assign m p = p.
Proof. destruct p. unfold shape, assign, header, datapath_id, n_buffers, n_tables, pad, capabilities, actions. message_intro. solve_assign. Qed.

Lemma switch_features_eqb_eq m p : shape m -> shape p -> eqb m p = true <-> m = p.
Proof. destruct m, p. unfold shape, eqb, header, datapath_id, n_buffers, n_tables, pad, capabilities, actions. message_intro. solve_eqb. Qed.

#[global] Instance switch_features_laws : MessageLaws t :=
  {| msg_wf_shape m H := proj1 H; msg_wire_length := switch_features_wire_length;
     msg_pack_wire := switch_features_pack_wire; msg_unpack_wire := switch_features_unpack_wire;
     msg_assign_copies := switch_features_assign_copies; msg_eqb_eq := switch_features_eqb_eq |}.

#[global] Instance switch_features_exact : Exact t.
Proof.
  intros b m Hb HN Hu. change (unpack b = Some m) in Hu. change (size <= length b)%nat in HN.
  change (wf m /\ wire m = take size b). unfold unpack, size in *. destruct_unpack Hu.
  unfold wf, shape, wire, header, datapath_id, n_buffers, n_tables, pad, capabilities, actions. solve_exact Hb HN.
Qed.

End of_switch_features.

Module of_vendor_header.

Record t := mk {
  header : of_header.t; vendor : Z }.

(** [of_vendor_header::of_vendor_header()] *)
Definition init : t :=
  mk (of_header.with_type OFPT_VENDOR of_header.init) 0.

(** [of_vendor_header::of_vendor_header(header_, ...)] *)
Definition make (header_ : of_header.t) (vendor_ : Z) : t :=
  mk header_ vendor_.

(** [of_vendor_header::pack] *)
Definition pack (m : t) (b : bytes) : bytes :=
  let b := pack_at msg_pack 0 (header m) b in
  let b := put32 8 (htonl (vendor m)) b in
  b.

(** [of_vendor_header::unpack] *)
Definition unpack (b : bytes) : option t :=
  header_ ← msg_unpack (drop 0 b);
  Some (mk header_ (ntohl (get32 8 b))).

(** [of_vendor_header::operator=] *)
Definition assign (m peer_ : t) : t :=
  mk (msg_assign (header m) (header peer_)) (vendor peer_).

(** [of_vendor_header::operator==] *)
Definition eqb (m peer_ : t) : bool :=
  msg_eqb (header m) (header peer_) &&
  (vendor m =? vendor peer_).

(** The encoding, and the values that survive it. *)
Definition size : nat := 12.

Definition wire (m : t) : bytes :=
  msg_wire (header m) ++ to_be 4 (vendor m).

Definition shape (m : t) : Prop :=
  msg_shape (header m).

Definition wf (m : t) : Prop :=
  shape m /\ msg_wf (header m) /\ is_u32 (vendor m).

#[global] Instance vendor_header_message : Message t :=
  {| msg_size := size; msg_shape := shape; msg_wf := wf; msg_wire := wire;
     msg_pack := pack; msg_unpack := unpack; msg_assign := assign; msg_eqb := eqb |}.

Lemma vendor_header_wire_length m : shape m -> length (wire m) = size.
Proof. destruct m. unfold shape, wire, size, header, vendor. message_intro. solve_length. Qed.

Lemma vendor_header_pack_wire m b :
  shape m -> (size <= length b)%nat -> pack m b = wire m ++ drop size b.
Proof. destruct m. unfold shape, pack, wire, size, header, vendor. message_intro. solve_pack. Qed.

Lemma vendor_header_unpack_wire m rest : wf m -> unpack (wire m ++ rest) = Some m.
Proof.
  intros Hwf. remember (wire m ++ rest) as b eqn:Hb. change b with (drop 0 b) in Hb. revert Hwf Hb.
  destruct m. unfold wf, shape, wire, unpack, header, vendor. message_intro. solve_unpack.
Qed.

Lemma vendor_header_assign_copies m p : shape p -> assign m p = p.
Proof. destruct p. unfold shape, assign, header, vendor. message_intro. solve_assign. Qed.

Lemma vendor_header_eqb_eq m p : shape m -> shape p -> eqb m p = true <-> m = p.
Proof. destruct m, p. unfold shape, eqb, header, vendor. message_intro. solve_eqb. Qed.

#[global] Instance vendor_header_laws : MessageLaws t :=
  {| msg_wf_shape m H := proj1 H; msg_wire_length := vendor_header_wire_length;
     msg_pack_wire := vendor_header_pack_wire; msg_unpack_wire := vendor_header_unpack_wire;
     msg_assign_copies := vendor_header_assign_copies; msg_eqb_eq := vendor_header_eqb_eq |}.

#[global] Instance vendor_header_exact : Exact t.
Proof.
  intros b m Hb HN Hu. change (unpack b = Some m) in Hu. change (size <= length b)%nat in HN.
  change (wf m /\ wire m = take size b). unfold unpack, size in *. destruct_unpack Hu.
  unfold wf, shape, wire, header, vendor. solve_exact Hb HN.
Qed.

End of_vendor_header.

Module of_packet_out.

Record t := mk {
  header : of_header.t; buffer_id : Z; in_port : Z; actions_len : Z }.

(** [of_packet_out::of_packet_out()] *)
Definition init : t :=
  mk (of_header.with_type OFPT_PACKET_OUT of_header.init) 4294967295 0 0.

(** [of_packet_out::of_packet_out(header_, ...)] *)
Definition make (header_ : of_header.t) (buffer_id_ : Z) (in_port_ : Z)
    (actions_len_ : Z) : t :=
  mk header_ buffer_id_ in_port_ actions_len_.

(** [of_packet_out::pack] *)
Definition pack (m : t) (b : bytes) : bytes :=
  let b := pack_at msg_pack 0 (header m) b in
  let b := put32 8 (htonl (buffer_id m)) b in
  let b := put16 12 (htons (in_port m)) b in
  let b := put16 14 (htons (actions_len m)) b in
  b.

(** [of_packet_out::unpack] *)
Definition unpack (b : bytes) : option t :=
  header_ ← msg_unpack (drop 0 b);
  Some (mk header_ (ntohl (get32 8 b)) (ntohs (get16 12 b)) (ntohs (get16 14 b))).

(** [of_packet_out::operator=] *)
Definition assign (m peer_ : t) : t :=
  mk (msg_assign (header m) (header peer_)) (buffer_id peer_) (in_port peer_)
    (actions_len peer_).

(** [of_packet_out::operator==] *)
Definition eqb (m peer_ : t) : bool :=
  msg_eqb (header m) (header peer_) &&
  (buffer_id m =? buffer_id peer_) &&
  (in_port m =? in_port peer_) &&
  (actions_len m =? actions_len peer_).

(** The encoding, and the values that survive it. *)
Definition size : nat := 16.

Definition wire (m : t) : bytes :=
  msg_wire (header m) ++ to_be 4 (buffer_id m) ++ to_be 2 (in_port m) ++
  to_be 2 (actions_len m).

Definition shape (m : t) : Prop :=
  msg_shape (header m).

Definition wf (m : t) : Prop :=
  shape m /\ msg_wf (header m) /\ is_u32 (buffer_id m) /\ is_u16 (in_port m) /\
  is_u16 (actions_len m).

#[global] Instance packet_out_message : Message t :=
  {| msg_size := size; msg_shape := shape; msg_wf := wf; msg_wire := wire;
     msg_pack := pack; msg_unpack := unpack; msg_assign := assign; msg_eqb := eqb |}.

Lemma packet_out_wire_length m : shape m -> length (wire m) = size.
Proof. destruct m. unfold shape, wire, size, header, buffer_id, in_port, actions_len. message_intro. solve_length. Qed.

Lemma packet_out_pack_wire m b :
  shape m -> (size <= length b)%nat -> pack m b = wire m ++ drop size b.
Proof. destruct m. unfold shape, pack, wire, size, header, buffer_id, in_port, actions_len. message_intro. solve_pack. Qed.

Lemma packet_out_unpack_wire m rest : wf m -> unpack (wire m ++ rest) = Some m.
Proof.
  intros Hwf. remember (wire m ++ rest) as b eqn:Hb. change b with (drop 0 b) in Hb. revert Hwf Hb.
  destruct m. unfold wf, shape, wire, unpack, header, buffer_id, in_port, actions_len. message_intro. solve_unpack.
Qed.

Lemma packet_out_assign_copies m p : shape p -> assign m p = p.
Proof. destruct p. unfold shape, assign, header, buffer_id, in_port, actions_len. message_intro. solve_assign. Qed.

Lemma packet_out_eqb_eq m p : shape m -> shape p -> eqb m p = true <-> m = p.
Proof. destruct m, p. unfold shape, eqb, header, buffer_id, in_port, actions_len. message_intro. solve_eqb. Qed.

#[global] Instance packet_out_laws : MessageLaws t :=
  {| msg_wf_shape m H := proj1 H; msg_wire_length := packet_out_wire_length;
     msg_pack_wire := packet_out_pack_wire; msg_unpack_wire := packet_out_unpack_wire;
     msg_assign_copies := packet_out_assign_copies; msg_eqb_eq := packet_out_eqb_eq |}.

#[global] Instance packet_out_exact : Exact t.
Proof.
  intros b m Hb HN Hu. change (unpack b = Some m) in Hu. change (size <= length b)%nat in HN.
  change (wf m /\ wire m = take size b). unfold unpack, size in *. destruct_unpack Hu.
  unfold wf, shape, wire, header, buffer_id, in_port, actions_len. solve_exact Hb HN.
Qed.

End of_packet_out.

Module of_flow_mod.

Record t := mk {
  header : of_header.t; match_ : of_match.t; cookie : Z; command : Z; idle_timeout : Z;
  hard_timeout : Z; priority : Z; buffer_id : Z; out_port : Z; flags : Z }.

(** [of_flow_mod::of_flow_mod()] *)
Definition init : t :=
  mk (of_header.with_type OFPT_FLOW_MOD of_header.init) of_match.init 0 0 0 0
    OFP_DEFAULT_PRIORITY 0 0 0.

(** [of_flow_mod::of_flow_mod(header_, ...)] *)
Definition make (header_ : of_header.t) (match_ : of_match.t) (cookie_ : Z) (command_ : Z)
    (idle_timeout_ : Z) (hard_timeout_ : Z) (priority_ : Z) (buffer_id_ : Z) (out_port_ : Z)
    (flags_ : Z) : t :=
  mk header_ match_ cookie_ command_ idle_timeout_ hard_timeout_ priority_ buffer_id_ out_port_
    flags_.

(** [of_flow_mod::pack] *)
Definition pack (m : t) (b : bytes) : bytes :=
  let b := pack_at msg_pack 0 (header m) b in
  let b := pack_at msg_pack 8 (match_ m) b in
  let b := put64 48 (htonll (cookie m)) b in
  let b := put16 56 (htons (command m)) b in
  let b := put16 58 (htons (idle_timeout m)) b in
  let b := put16 60 (htons (hard_timeout m)) b in
  let b := put16 62 (htons (priority m)) b in
  let b := put32 64 (htonl (buffer_id m)) b in
  let b := put16 68 (htons (out_port m)) b in
  let b := put16 70 (htons (flags m)) b in
  b.

(** [of_flow_mod::unpack] *)
Definition unpack (b : bytes) : option t :=
  header_ ← msg_unpack (drop 0 b);
  match_ ← msg_unpack (drop 8 b);
  Some (mk header_ match_ (ntohll (get64 48 b)) (ntohs (get16 56 b)) (ntohs (get16 58 b))
    (ntohs (get16 60 b)) (ntohs (get16 62 b)) (ntohl (get32 64 b)) (ntohs (get16 68 b))
    (ntohs (get16 70 b))).

(** [of_flow_mod::operator=] *)
Definition assign (m peer_ : t) : t :=
  mk (msg_assign (header m) (header peer_)) (msg_assign (match_ m) (match_ peer_))
    (cookie peer_) (command peer_) (idle_timeout peer_) (hard_timeout peer_) (priority peer_)
    (buffer_id peer_) (out_port peer_) (flags peer_).

(** [of_flow_mod::operator==] *)
Definition eqb (m peer_ : t) : bool :=
  msg_eqb (header m) (header peer_) &&
  msg_eqb (match_ m) (match_ peer_) &&
  (cookie m =? cookie peer_) &&
  (command m =? command peer_) &&
  (idle_timeout m =? idle_timeout peer_) &&
  (hard_timeout m =? hard_timeout peer_) &&
  (priority m =? priority peer_) &&
  (buffer_id m =? buffer_id peer_) &&
  (out_port m =? out_port peer_) &&
  (flags m =? flags peer_).

(** The encoding, and the values that survive it. *)
Definition size : nat := 72.

Definition wire (m : t) : bytes :=
  msg_wire (header m) ++ msg_wire (match_ m) ++ to_be 8 (cookie m) ++ to_be 2 (command m) ++
  to_be 2 (idle_timeout m) ++ to_be 2 (hard_timeout m) ++ to_be 2 (priority m) ++
  to_be 4 (buffer_id m) ++ to_be 2 (out_port m) ++ to_be 2 (flags m).

Definition shape (m : t) : Prop :=
  msg_shape (header m) /\ msg_shape (match_ m).

Definition wf (m : t) : Prop :=
  shape m /\ msg_wf (header m) /\ msg_wf (match_ m) /\ is_u64 (cookie m) /\
  is_u16 (command m) /\ is_u16 (idle_timeout m) /\ is_u16 (hard_timeout m) /\
  is_u16 (priority m) /\ is_u32 (buffer_id m) /\ is_u16 (out_port m) /\ is_u16 (flags m).

#[global] Instance flow_mod_message : Message t :=
  {| msg_size := size; msg_shape := shape; msg_wf := wf; msg_wire := wire;
     msg_pack := pack; msg_unpack := unpack; msg_assign := assign; msg_eqb := eqb |}.

Lemma flow_mod_wire_length m : shape m -> length (wire m) = size.
Proof. destruct m. unfold shape, wire, size, header, match_, cookie, command, idle_timeout, hard_timeout, priority, buffer_id, out_port, flags. message_intro. solve_length. Qed.

Lemma flow_mod_pack_wire m b :
  shape m -> (size <= length b)%nat -> pack m b = wire m ++ drop size b.
Proof. destruct m. unfold shape, pack, wire, size, header, match_, cookie, command, idle_timeout, hard_timeout, priority, buffer_id, out_port, flags. message_intro. solve_pack. Qed.

Lemma flow_mod_unpack_wire m rest : wf m -> unpack (wire m ++ rest) = Some m.
Proof.
  intros Hwf. remember (wire m ++ rest) as b eqn:Hb. change b with (drop 0 b) in Hb. revert Hwf Hb.
  destruct m. unfold wf, shape, wire, unpack, header, match_, cookie, command, idle_timeout, hard_timeout, priority, buffer_id, out_port, flags. message_intro. solve_unpack.
Qed.

Lemma flow_mod_assign_copies m p : shape p -> assign m p = p.
Proof. destruct p. unfold shape, assign, header, match_, cookie, command, idle_timeout, hard_timeout, priority, buffer_id, out_port, flags. message_intro. solve_assign. Qed.

Lemma flow_mod_eqb_eq m p : shape m -> shape p -> eqb m p = true <-> m = p.
Proof. destruct m, p. unfold shape, eqb, header, match_, cookie, command, idle_timeout, hard_timeout, priority, buffer_id, out_port, flags. message_intro. solve_eqb. Qed.

#[global] Instance flow_mod_laws : MessageLaws t :=
  {| msg_wf_shape m H := proj1 H; msg_wire_length := flow_mod_wire_length;
     msg_pack_wire := flow_mod_pack_wire; msg_unpack_wire := flow_mod_unpack_wire;
     msg_assign_copies := flow_mod_assign_copies; msg_eqb_eq := flow_mod_eqb_eq |}.

#[global] Instance flow_mod_exact : Exact t.
Proof.
  intros b m Hb HN Hu. change (unpack b = Some m) in Hu. change (size <= length b)%nat in HN.
  change (wf m /\ wire m = take size b). unfold unpack, size in *. destruct_unpack Hu.
  unfold wf, shape, wire, header, match_, cookie, command, idle_timeout, hard_timeout, priority, buffer_id, out_port, flags. solve_exact Hb HN.
Qed.

End of_flow_mod.

Module of_error_msg.

Record t := mk {
  header : of_header.t; type_ : Z; code : Z }.

(** [of_error_msg::of_error_msg()] *)
Definition init : t :=
  mk (of_header.with_type OFPT_ERROR of_header.init) 0 0.

(** [of_error_msg::of_error_msg(header_, ...)] *)
Definition make (header_ : of_header.t) (type_ : Z) (code_ : Z) : t :=
  mk header_ type_ code_.

(** [of_error_msg::pack] *)
Definition pack (m : t) (b : bytes) : bytes :=
  let b := pack_at msg_pack 0 (header m) b in
  let b := put16 8 (htons (type_ m)) b in
  let b := put16 10 (htons (code m)) b in
  b.

(** [of_error_msg::unpack] *)
Definition unpack (b : bytes) : option t :=
  header_ ← msg_unpack (drop 0 b);
  Some (mk header_ (ntohs (get16 8 b)) (ntohs (get16 10 b))).

(** [of_error_msg::operator=] *)
Definition assign (m peer_ : t) : t :=
  mk (msg_assign (header m) (header peer_)) (type_ peer_) (code peer_).

(** [of_error_msg::operator==] *)
Definition eqb (m peer_ : t) : bool :=
  msg_eqb (header m) (header peer_) &&
  (type_ m =? type_ peer_) &&
  (code m =? code peer_).

(** The encoding, and the values that survive it. *)
Definition size : nat := 12.

Definition wire (m : t) : bytes :=
  msg_wire (header m) ++ to_be 2 (type_ m) ++ to_be 2 (code m).

Definition shape (m : t) : Prop :=
  msg_shape (header m).

Definition wf (m : t) : Prop :=
  shape m /\ msg_wf (header m) /\ is_u16 (type_ m) /\ is_u16 (code m).

#[global] Instance error_msg_message : Message t :=
  {| msg_size := size; msg_shape := shape; msg_wf := wf; msg_wire := wire;
     msg_pack := pack; msg_unpack := unpack; msg_assign := assign; msg_eqb := eqb |}.

Lemma error_msg_wire_length m : shape m -> length (wire m) = size.
Proof. destruct m. unfold shape, wire, size, header, type_, code. message_intro. solve_length. Qed.

Lemma error_msg_pack_wire m b :
  shape m -> (size <= length b)%nat -> pack m b = wire m ++ drop size b.
Proof. destruct m. unfold shape, pack, wire, size, header, type_, code. message_intro. solve_pack. Qed.

Lemma error_msg_unpack_wire m rest : wf m -> unpack (wire m ++ rest) = Some m.
Proof.
  intros Hwf. remember (wire m ++ rest) as b eqn:Hb. change b with (drop 0 b) in Hb. revert Hwf Hb.
  destruct m. unfold wf, shape, wire, unpack, header, type_, code. message_intro. solve_unpack.
Qed.

Lemma error_msg_assign_copies m p : shape p -> assign m p = p.
Proof. destruct p. unfold shape, assign, header, type_, code. message_intro. solve_assign. Qed.

Lemma error_msg_eqb_eq m p : shape m -> shape p -> eqb m p = true <-> m = p.
Proof. destruct m, p. unfold shape, eqb, header, type_, code. message_intro. solve_eqb. Qed.

#[global] Instance error_msg_laws : MessageLaws t :=
  {| msg_wf_shape m H := proj1 H; msg_wire_length := error_msg_wire_length;
     msg_pack_wire := error_msg_pack_wire; msg_unpack_wire := error_msg_unpack_wire;
     msg_assign_copies := error_msg_assign_copies; msg_eqb_eq := error_msg_eqb_eq |}.

#[global] Instance error_msg_exact : Exact t.
Proof.
  intros b m Hb HN Hu. change (unpack b = Some m) in Hu. change (size <= length b)%nat in HN.
  change (wf m /\ wire m = take size b). unfold unpack, size in *. destruct_unpack Hu.
  unfold wf, shape, wire, header, type_, code. solve_exact Hb HN.
Qed.

End of_error_msg.
