(* ===== verification/OfpAll.v ===== *)
(** * All OpenFlow wrappers

    The properties of openflow-pack-raw.cc, for each of its structures. *)

From S2P Require Import Prelude Bytes OfpWire OfpCore OfpActions OfpStats OfpMessages.

Open Scope Z_scope.

(** The structures. *)
#[warnings="-register-all"]
Inductive kind : Type :=
  | K_header | K_match | K_phy_port | K_action_tp_port | K_action_header | K_action_vlan_vid
  | K_action_output | K_action_nw_tos | K_action_vendor_header | K_action_dl_addr
  | K_action_enqueue | K_action_nw_addr | K_action_vlan_pcp | K_aggregate_stats_reply
  | K_table_stats | K_port_stats | K_queue_stats | K_port_stats_request | K_stats_request
  | K_aggregate_stats_request | K_flow_stats | K_flow_stats_request | K_stats_reply
  | K_queue_stats_request | K_desc_stats | K_flow_removed | K_hello | K_port_status | K_port_mod
  | K_switch_config | K_queue_get_config_reply | K_packet_in | K_queue_get_config_request
  | K_packet_queue | K_queue_prop_header | K_queue_prop_min_rate | K_switch_features
  | K_vendor_header | K_packet_out | K_flow_mod | K_error_msg.

Definition wrapper (k : kind) : Type :=
  match k with
  | K_header => of_header.t
  | K_match => of_match.t
  | K_phy_port => of_phy_port.t
  | K_action_tp_port => of_action_tp_port.t
  | K_action_header => of_action_header.t
  | K_action_vlan_vid => of_action_vlan_vid.t
  | K_action_output => of_action_output.t
  | K_action_nw_tos => of_action_nw_tos.t
  | K_action_vendor_header => of_action_vendor_header.t
  | K_action_dl_addr => of_action_dl_addr.t
  | K_action_enqueue => of_action_enqueue.t
  | K_action_nw_addr => of_action_nw_addr.t
  | K_action_vlan_pcp => of_action_vlan_pcp.t
  | K_aggregate_stats_reply => of_aggregate_stats_reply.t
  | K_table_stats => of_table_stats.t
  | K_port_stats => of_port_stats.t
  | K_queue_stats => of_queue_stats.t
  | K_port_stats_request => of_port_stats_request.t
  | K_stats_request => of_stats_request.t
  | K_aggregate_stats_request => of_aggregate_stats_request.t
  | K_flow_stats => of_flow_stats.t
  | K_flow_stats_request => of_flow_stats_request.t
  | K_stats_reply => of_stats_reply.t
  | K_queue_stats_request => of_queue_stats_request.t
  | K_desc_stats => of_desc_stats.t
  | K_flow_removed => of_flow_removed.t
  | K_hello => of_hello.t
  | K_port_status => of_port_status.t
  | K_port_mod => of_port_mod.t
  | K_switch_config => of_switch_config.t
  | K_queue_get_config_reply => of_queue_get_config_reply.t
  | K_packet_in => of_packet_in.t
  | K_queue_get_config_request => of_queue_get_config_request.t
  | K_packet_queue => of_packet_queue.t
  | K_queue_prop_header => of_queue_prop_header.t
  | K_queue_prop_min_rate => of_queue_prop_min_rate.t
  | K_switch_features => of_switch_features.t
  | K_vendor_header => of_vendor_header.t
  | K_packet_out => of_packet_out.t
  | K_flow_mod => of_flow_mod.t
  | K_error_msg => of_error_msg.t
  end.

#[global] Instance wrapper_message k : Message (wrapper k) :=
  match k with
  | K_header => of_header.header_message
  | K_match => of_match.match_message
  | K_phy_port => of_phy_port.phy_port_message
  | K_action_tp_port => of_action_tp_port.action_tp_port_message
  | K_action_header => of_action_header.action_header_message
  | K_action_vlan_vid => of_action_vlan_vid.action_vlan_vid_message
  | K_action_output => of_action_output.action_output_message
  | K_action_nw_tos => of_action_nw_tos.action_nw_tos_message
  | K_action_vendor_header => of_action_vendor_header.action_vendor_header_message
  | K_action_dl_addr => of_action_dl_addr.action_dl_addr_message
  | K_action_enqueue => of_action_enqueue.action_enqueue_message
  | K_action_nw_addr => of_action_nw_addr.action_nw_addr_message
  | K_action_vlan_pcp => of_action_vlan_pcp.action_vlan_pcp_message
  | K_aggregate_stats_reply => of_aggregate_stats_reply.aggregate_stats_reply_message
  | K_table_stats => of_table_stats.table_stats_message
  | K_port_stats => of_port_stats.port_stats_message
  | K_queue_stats => of_queue_stats.queue_stats_message
  | K_port_stats_request => of_port_stats_request.port_stats_request_message
  | K_stats_request => of_stats_request.stats_request_message
  | K_aggregate_stats_request => of_aggregate_stats_request.aggregate_stats_request_message
  | K_flow_stats => of_flow_stats.flow_stats_message
  | K_flow_stats_request => of_flow_stats_request.flow_stats_request_message
  | K_stats_reply => of_stats_reply.stats_reply_message
  | K_queue_stats_request => of_queue_stats_request.queue_stats_request_message
  | K_desc_stats => of_desc_stats.desc_stats_message
  | K_flow_removed => of_flow_removed.flow_removed_message
  | K_hello => of_hello.hello_message
  | K_port_status => of_port_status.port_status_message
  | K_port_mod => of_port_mod.port_mod_message
  | K_switch_config => of_switch_config.switch_config_message
  | K_queue_get_config_reply => of_queue_get_config_reply.queue_get_config_reply_message
  | K_packet_in => of_packet_in.packet_in_message
  | K_queue_get_config_request => of_queue_get_config_request.queue_get_config_request_message
  | K_packet_queue => of_packet_queue.packet_queue_message
  | K_queue_prop_header => of_queue_prop_header.queue_prop_header_message
  | K_queue_prop_min_rate => of_queue_prop_min_rate.queue_prop_min_rate_message
  | K_switch_features => of_switch_features.switch_features_message
  | K_vendor_header => of_vendor_header.vendor_header_message
  | K_packet_out => of_packet_out.packet_out_message
  | K_flow_mod => of_flow_mod.flow_mod_message
  | K_error_msg => of_error_msg.error_msg_message
  end.

#[global] Instance wrapper_laws k : MessageLaws (wrapper k).
Proof. destruct k; apply _. Qed.

(** The default constructors. *)
Definition init (k : kind) : wrapper k :=
  match k with
  | K_header => of_header.init
  | K_match => of_match.init
  | K_phy_port => of_phy_port.init
  | K_action_tp_port => of_action_tp_port.init
  | K_action_header => of_action_header.init
  | K_action_vlan_vid => of_action_vlan_vid.init
  | K_action_output => of_action_output.init
  | K_action_nw_tos => of_action_nw_tos.init
  | K_action_vendor_header => of_action_vendor_header.init
  | K_action_dl_addr => of_action_dl_addr.init
  | K_action_enqueue => of_action_enqueue.init
  | K_action_nw_addr => of_action_nw_addr.init
  | K_action_vlan_pcp => of_action_vlan_pcp.init
  | K_aggregate_stats_reply => of_aggregate_stats_reply.init
  | K_table_stats => of_table_stats.init
  | K_port_stats => of_port_stats.init
  | K_queue_stats => of_queue_stats.init
  | K_port_stats_request => of_port_stats_request.init
  | K_stats_request => of_stats_request.init
  | K_aggregate_stats_request => of_aggregate_stats_request.init
  | K_flow_stats => of_flow_stats.init
  | K_flow_stats_request => of_flow_stats_request.init
  | K_stats_reply => of_stats_reply.init
  | K_queue_stats_request => of_queue_stats_request.init
  | K_desc_stats => of_desc_stats.init
  | K_flow_removed => of_flow_removed.init
  | K_hello => of_hello.init
  | K_port_status => of_port_status.init
  | K_port_mod => of_port_mod.init
  | K_switch_config => of_switch_config.init
  | K_queue_get_config_reply => of_queue_get_config_reply.init
  | K_packet_in => of_packet_in.init
  | K_queue_get_config_request => of_queue_get_config_request.init
  | K_packet_queue => of_packet_queue.init
  | K_queue_prop_header => of_queue_prop_header.init
  | K_queue_prop_min_rate => of_queue_prop_min_rate.init
  | K_switch_features => of_switch_features.init
  | K_vendor_header => of_vendor_header.init
  | K_packet_out => of_packet_out.init
  | K_flow_mod => of_flow_mod.init
  | K_error_msg => of_error_msg.init
  end.

(** [sizeof] of the structure, as openflow.h asserts it. *)
Definition sizeof (k : kind) : nat :=
  match k with
  | K_header => 8
  | K_match => 40
  | K_phy_port => 48
  | K_action_tp_port => 8
  | K_action_header => 8
  | K_action_vlan_vid => 8
  | K_action_output => 8
  | K_action_nw_tos => 8
  | K_action_vendor_header => 8
  | K_action_dl_addr => 16
  | K_action_enqueue => 16
  | K_action_nw_addr => 8
  | K_action_vlan_pcp => 8
  | K_aggregate_stats_reply => 24
  | K_table_stats => 64
  | K_port_stats => 104
  | K_queue_stats => 32
  | K_port_stats_request => 8
  | K_stats_request => 12
  | K_aggregate_stats_request => 44
  | K_flow_stats => 88
  | K_flow_stats_request => 44
  | K_stats_reply => 12
  | K_queue_stats_request => 8
  | K_desc_stats => 1056
  | K_flow_removed => 88
  | K_hello => 8
  | K_port_status => 64
  | K_port_mod => 32
  | K_switch_config => 12
  | K_queue_get_config_reply => 16
  | K_packet_in => 20
  | K_queue_get_config_request => 12
  | K_packet_queue => 8
  | K_queue_prop_header => 8
  | K_queue_prop_min_rate => 16
  | K_switch_features => 32
  | K_vendor_header => 12
  | K_packet_out => 16
  | K_flow_mod => 72
  | K_error_msg => 12
  end.

(** Whether the structure has a [std::string] field. *)
Definition has_string (k : kind) : bool :=
  match k with
  | K_phy_port | K_table_stats | K_desc_stats | K_port_status => true
  | _ => false
  end.

#[global] Instance wrapper_exact k : has_string k = false -> Exact (wrapper k).
Proof. destruct k; simpl; intros Hk; try discriminate Hk; apply _. Qed.

Lemma size_sizeof k : (msg_size (T := wrapper k) <= sizeof k)%nat.
Proof. destruct k; apply Nat.leb_le; reflexivity. Qed.

Lemma array_check n a : length a = n -> forallb (fun x => (0 <=? x) && (x <? 256)) a = true -> is_array n a.
Proof.
  intros Hl Ha. split; [done|]. by apply bytes_check.
Qed.

Lemma init_wf k : msg_wf (init k).
Proof.
  destruct k; repeat first [apply array_check; reflexivity | apply Forall_nil; exact I | split];
    vm_compute; try done; lia.
Qed.

(** ** Properties *)

(** C7: Packing a structure and unpacking the bytes gives the structure back:
    for each of the 41 wrappers of openflow-pack-raw.cc, any field values of
    the declared widths (arrays of the declared length, names that fit and
    hold no NUL), and any buffer that is large enough. *)
Theorem pack_unpack_roundtrip (k : kind) (m : wrapper k) (b : bytes) :
  msg_wf m -> (msg_size (T := wrapper k) <= length b)%nat ->
  msg_unpack (msg_pack m b) = Some m.
Proof.
  intros Hm Hb. rewrite msg_pack_wire by (done || by apply msg_wf_shape).
  by apply msg_unpack_wire.
Qed.

(** A port description with a name, for evaluation. *)
Definition demo_port : of_phy_port.t :=
  of_phy_port.mk 3 [0; 1; 2; 3; 4; 5] [101; 116; 104; 48] 1 2 0x40 0 0xffffffff 7.

Lemma demo_port_wf : of_phy_port.wf demo_port.
Proof.
  split; [apply array_check; reflexivity|].
  split_and!; try done. split; [vm_compute; lia|]. repeat (constructor; [vm_compute; lia|]). constructor.
Qed.

Lemma pack_unpack_roundtrip_witness :
  of_phy_port.unpack (of_phy_port.pack demo_port (replicate 60 0xee)) = Some demo_port.
Proof.
  apply (pack_unpack_roundtrip K_phy_port demo_port (replicate 60 0xee)); [apply demo_port_wf|].
  apply Nat.leb_le. reflexivity.
Defined.

(** C8: [pack] writes exactly the wire encoding of the structure (fields in
    order, integers in network byte order, names truncated and NUL-padded)
    to the front of the buffer, and does not touch a byte beyond the
    structure's [sizeof]. *)
Theorem pack_writes_wire (k : kind) (m : wrapper k) (b : bytes) :
  msg_shape m -> (sizeof k <= length b)%nat ->
  take (msg_size (T := wrapper k)) (msg_pack m b) = msg_wire m /\
  drop (sizeof k) (msg_pack m b) = drop (sizeof k) b /\
  length (msg_pack m b) = length b.
Proof.
  intros Hm Hb. pose proof (msg_wire_length m Hm) as Hl. pose proof (size_sizeof k) as Hs.
  rewrite msg_pack_wire by (done || lia). split; [|split].
  - by rewrite <- Hl, take_app_length.
  - rewrite drop_app_ge, drop_drop_add by lia. f_equal. lia.
  - rewrite length_app, length_drop. lia.
Qed.

Lemma pack_writes_wire_witness :
  take 48 (of_phy_port.pack demo_port (replicate 60 0xee)) = of_phy_port.wire demo_port /\
  drop 48 (of_phy_port.pack demo_port (replicate 60 0xee)) = drop 48 (replicate 60 0xee) /\
  length (of_phy_port.pack demo_port (replicate 60 0xee)) = 60%nat.
Proof.
  apply (pack_writes_wire K_phy_port demo_port (replicate 60 0xee)).
  - apply array_check; reflexivity.
  - apply Nat.leb_le. reflexivity.
Defined.

(** No information is lost in unpacking: a structure without names that
    is unpacked from bytes has fields within their widths, and packing it
    over the same buffer reproduces the buffer. *)
Theorem unpack_pack_roundtrip (k : kind) (m : wrapper k) (b : bytes) :
  has_string k = false -> is_bytes b -> (msg_size (T := wrapper k) <= length b)%nat ->
  msg_unpack b = Some m -> msg_wf m /\ msg_pack m b = b.
Proof.
  intros Hk Hb Hl Hu. pose proof (wrapper_exact k Hk) as Hex.
  destruct (msg_exact b m Hb Hl Hu) as [Hwf Hw]. split; [done|].
  rewrite msg_pack_wire by (done || by apply msg_wf_shape). by rewrite Hw, take_drop.
Qed.

Definition demo_header : of_header.t := of_header.mk 1 14 72 0xdeadbeef.

Lemma unpack_pack_roundtrip_witness :
  of_header.wf demo_header /\
  of_header.pack demo_header [1; 14; 0; 72; 0xde; 0xad; 0xbe; 0xef; 5] = [1; 14; 0; 72; 0xde; 0xad; 0xbe; 0xef; 5].
Proof.
  apply (unpack_pack_roundtrip K_header demo_header [1; 14; 0; 72; 0xde; 0xad; 0xbe; 0xef; 5]).
  - reflexivity.
  - apply (array_check 9); reflexivity.
  - apply Nat.leb_le. reflexivity.
  - reflexivity.
Defined.

(** [operator==] decides equality of the field values, and [operator=]
    makes its target equal to its argument. *)
Theorem eq_assign_correct (k : kind) (m p : wrapper k) :
  msg_shape m -> msg_shape p ->
  (msg_eqb m p = true <-> m = p) /\ msg_eqb (msg_assign m p) p = true.
Proof.
  intros Hm Hp. split; [by apply msg_eqb_eq|]. rewrite msg_assign_copies by done.
  by apply msg_eqb_eq.
Qed.

Lemma eq_assign_correct_witness :
  (of_phy_port.eqb demo_port of_phy_port.init = true <-> demo_port = of_phy_port.init) /\
  of_phy_port.eqb (of_phy_port.assign demo_port of_phy_port.init) of_phy_port.init = true.
Proof. apply (eq_assign_correct K_phy_port demo_port of_phy_port.init); apply array_check; reflexivity. Defined.

(** Every default constructor yields a well-formed structure: it can be
    packed into any large enough buffer and read back. *)
Theorem init_packs (k : kind) (b : bytes) :
  (msg_size (T := wrapper k) <= length b)%nat ->
  msg_wf (init k) /\ msg_unpack (msg_pack (init k) b) = Some (init k).
Proof.
  intros Hb. pose proof (init_wf k) as Hk. split; [done|].
  rewrite msg_pack_wire by (done || by apply msg_wf_shape). by apply msg_unpack_wire.
Qed.

Lemma init_packs_witness :
  of_flow_mod.wf of_flow_mod.init /\
  of_flow_mod.unpack (of_flow_mod.pack of_flow_mod.init (replicate 80 1)) = Some of_flow_mod.init.
Proof. apply (init_packs K_flow_mod (replicate 80 1)). apply Nat.leb_le. reflexivity. Defined.
