(* ===== verification/FlowMatch.v ===== *)
(** * Flows and OpenFlow matches (src/lib/flow.cc) *)

From S2P Require Import Prelude Bytes Ethernetaddr Flow FlowSpec OfpWire OfpCore.

Open Scope Z_scope.

(** [Flow::get_exact_match]: host-order fields, no wildcards. *)
Definition get_exact_match (f : flow) : of_match.t :=
  let om := of_match.init in
  of_match.mk (ntohl 0) (ntohs (in_port f)) (load 0 LEN (octet (dl_src f)))
    (load 0 LEN (octet (dl_dst f))) (ntohs (dl_vlan f)) (dl_vlan_pcp f)
    (of_match.pad1 om) (ntohs (dl_type f)) (nw_tos f) (nw_proto f) (of_match.pad2 om)
    (ntohl (nw_src f)) (ntohl (nw_dst f)) (ntohs (tp_src f)) (ntohs (tp_dst f)).

(** [Flow::Flow(const ofp_match* match, cookie_, invalid_)], with [match] the
    raw structure in memory: its fields are taken over as they are, in
    network order. *)
Definition flow_of_match (m : bytes) (ck : Z) (inv : bool) : flow :=
  Flow inv (get16 4 m) (get16 18 m) (get8 20 m)
    (Ethernetaddr (load 6 LEN m)) (Ethernetaddr (load 12 LEN m)) (get16 22 m)
    (get32 28 m) (get32 32 m) (get8 25 m) (get8 24 m) (get16 36 m) (get16 38 m) ck.

(** [Flow::Flow(const Flow&, cookie_, invalid_)] *)
Definition copy_flow (f : flow) (ck : Z) (inv : bool) : flow :=
  Flow inv (in_port f) (dl_vlan f) (dl_vlan_pcp f) (dl_src f) (dl_dst f) (dl_type f)
    (nw_src f) (nw_dst f) (nw_proto f) (nw_tos f) (tp_src f) (tp_dst f) ck.

(** ** Facts *)

Lemma flow_eqb_iff f g : flow_ok f -> flow_ok g ->
  flow_eqb f g = true <-> copy_flow f 0 false = copy_flow g 0 false.
Proof.
  intros Hf Hg. unfold flow_eqb, copy_flow. rewrite !andb_true_iff, !Z.eqb_eq.
  rewrite !eqb_eq by (apply Hf || apply Hg). split.
  - intros H. destruct_and!. congruence.
  - intros [=]. split_and!; done.
Qed.

(** The raw fields of a packed match. *)
Lemma raw16 (b r : bytes) (k : nat) x K :
  drop k b = to_be 2 (ntohs x) ++ r -> is_u16 x -> K = (k + 2)%nat ->
  get16 k b = x /\ drop K b = r.
Proof.
  intros Hd Hx ->. destruct (load_next b _ r k 2 _ Hd (length_to_be _ _) eq_refl) as [Hl Hr].
  split; [|done]. unfold get16. rewrite Hl. by apply ntohs_htons.
Qed.

Lemma raw32 (b r : bytes) (k : nat) x K :
  drop k b = to_be 4 (ntohl x) ++ r -> is_u32 x -> K = (k + 4)%nat ->
  get32 k b = x /\ drop K b = r.
Proof.
  intros Hd Hx ->. destruct (load_next b _ r k 4 _ Hd (length_to_be _ _) eq_refl) as [Hl Hr].
  split; [|done]. unfold get32. rewrite Hl. by apply ntohl_htonl.
Qed.

Lemma load_full (a : bytes) : length a = LEN -> load 0 LEN a = a.
Proof. intros Ha. unfold load. rewrite drop_0. apply firstn_all2. lia. Qed.

Lemma match_shape f : flow_ok f -> of_match.shape (get_exact_match f).
Proof.
  intros [? ? [Hs Hsb] [Hd Hdb] ? ? ? ? ? ? ?]. unfold of_match.shape, get_exact_match.
  cbn [of_match.dl_src of_match.dl_dst of_match.pad1 of_match.pad2].
  rewrite !load_full by done. unfold is_array. split_and!; try done;
    repeat (apply Forall_cons; split; [done|]); apply Forall_nil; done.
Qed.

Lemma flow_match_roundtrip f b :
  flow_ok f -> is_u16 (in_port f) -> (of_match.size <= length b)%nat ->
  flow_of_match (of_match.pack (get_exact_match f) b) (cookie f) (invalid f) = f.
Proof.
  intros Hf Hin Hb. pose proof (match_shape f Hf) as Hsh. destruct Hf as [? ? [Hs ?] [Hd ?] ? ? ? ? ? ? ?].
  rewrite (of_match.match_pack_wire _ b Hsh Hb).
  remember (of_match.wire (get_exact_match f) ++ drop of_match.size b) as m eqn:Hm.
  change m with (drop 0 m) in Hm. unfold of_match.wire, get_exact_match in Hm.
  cbn [of_match.wildcards of_match.in_port of_match.dl_src of_match.dl_dst of_match.dl_vlan
       of_match.dl_vlan_pcp of_match.pad1 of_match.dl_type of_match.nw_tos of_match.nw_proto
       of_match.pad2 of_match.nw_src of_match.nw_dst of_match.tp_src of_match.tp_dst of_match.init] in Hm.
  rewrite !load_full in Hm by done. rewrite <- !app_assoc in Hm. cbn [app] in Hm.
  destruct (load_next _ _ _ 0 4 4 Hm (length_to_be _ _) eq_refl) as [_ H4].
  destruct (raw16 _ _ 4 _ 6 H4 Hin eq_refl) as [E4 H6].
  destruct (load_next _ _ _ 6 6 12 H6 Hs eq_refl) as [E6 H12].
  destruct (load_next _ _ _ 12 6 18 H12 Hd eq_refl) as [E12 H18].
  destruct (raw16 _ _ 18 _ 20 H18 fo_vlan eq_refl) as [E18 H20].
  destruct (next8 _ _ 20 21 _ H20 eq_refl) as [E20 H21].
  destruct (next8 _ _ 21 22 _ H21 eq_refl) as [_ H22].
  destruct (raw16 _ _ 22 _ 24 H22 fo_type eq_refl) as [E22 H24].
  destruct (next8 _ _ 24 25 _ H24 eq_refl) as [E24 H25].
  destruct (next8 _ _ 25 26 _ H25 eq_refl) as [E25 H26].
  destruct (next8 _ _ 26 27 _ H26 eq_refl) as [_ H27].
  destruct (next8 _ _ 27 28 _ H27 eq_refl) as [_ H28].
  destruct (raw32 _ _ 28 _ 32 H28 fo_nw_src eq_refl) as [E28 H32].
  destruct (raw32 _ _ 32 _ 36 H32 fo_nw_dst eq_refl) as [E32 H36].
  destruct (raw16 _ _ 36 _ 38 H36 fo_tp_src eq_refl) as [E36 H38].
  destruct (raw16 _ _ 38 _ 40 H38 fo_tp_dst eq_refl) as [E38 _].
  unfold flow_of_match, LEN. rewrite E4, E6, E12, E18, E20, E22, E24, E25, E28, E32, E36, E38.
  destruct f as [? ? ? ? [] [] ? ? ? ? ? ? ? ?]. done.
Qed.
