(* ===== verification/FlowProps.v ===== *)
(** * Properties of buffers, addresses and flows *)

From S2P Require Import Prelude Bytes Buffer Ethernetaddr Flow FlowSpec OfpWire OfpCore FlowMatch.

Open Scope Z_scope.

(** ** A packet to evaluate *)

Definition demo_ip : ip4 :=
  Ip4 0 [0; 60; 0; 7] 0x4000 64 [0; 0] 0x0a000001 0x0a000002 []
    (Tcp 4000 80 [0; 0; 0; 1; 0; 0; 0; 0] 0x5002 [0; 0; 0; 0; 0; 0]).

Definition demo_tag : option Z := Some 0x6005.

Definition demo_packet : bytes :=
  frame [1; 2; 3; 4; 5; 6] [10; 11; 12; 13; 14; 15] demo_tag ETH_TYPE_IP (ip_bytes demo_ip ++ [9; 9]).

(** Two bytes of headroom, as packets have in practice. *)
Definition demo_buffer : buffer :=
  Buffer ([0; 0] ++ demo_packet) 2 (Z.of_nat (length demo_packet)).

Definition demo_arp : arp4 := Arp4 1 [10; 11; 12; 13; 14; 15] 0x0a000001 [0; 0; 0; 0; 0; 0] 0x0a000002.

Definition arp_packet : bytes :=
  frame [255; 255; 255; 255; 255; 255] [10; 11; 12; 13; 14; 15] None ETH_TYPE_ARP (arp_bytes demo_arp ++ []).

Definition arp_buffer : buffer := Buffer arp_packet 0 (Z.of_nat (length arp_packet)).

Lemma demo_buffer_ok : buffer_ok demo_buffer.
Proof. split; try (vm_compute; congruence). apply bytes_check. reflexivity. Qed.

Lemma arp_buffer_ok : buffer_ok arp_buffer.
Proof. split; try (vm_compute; congruence). apply bytes_check. reflexivity. Qed.

Lemma demo_ip_wf : ip_wf demo_ip.
Proof.
  split_and!; try done. exists 0%nat. split; [done|lia].
Qed.

(** ** Properties *)

(** C5: Parsing is memory-safe and total: on any packet whatsoever, the
    [Flow] constructor reads only bytes of the packet, fails no [assert], and
    returns a flow whose fields fit their types, with the port and cookie it
    was given; a packet shorter than an Ethernet header yields an invalid
    flow. *)
Theorem flow_parse_total (pkt : buffer) (port ck : Z) :
  buffer_ok pkt ->
  exists f, flow_of_packet port pkt ck = Ret f /\ flow_ok f /\ in_port f = port /\ cookie f = ck /\
    (m_size pkt < ETH_HEADER_LEN -> invalid f = true).
Proof. intros Hp. by apply flow_of_packet_ok. Qed.

Lemma flow_parse_total_witness :
  exists f, flow_of_packet 3 demo_buffer 0 = Ret f /\ flow_ok f /\ in_port f = 3 /\ cookie f = 0 /\
    (m_size demo_buffer < ETH_HEADER_LEN -> invalid f = true).
Proof. apply (flow_parse_total demo_buffer 3 0). apply demo_buffer_ok. Defined.

(** C6: Parsing an Ethernet II frame that holds an IPv4 packet (with or
    without a VLAN tag, IP options, trailing bytes; TCP, UDP, ICMP or another
    protocol) extracts exactly the header fields: addresses, VLAN id and
    priority, type, IP addresses, protocol and TOS, and the ports (ICMP type
    and code) unless the packet is a fragment. *)
Theorem flow_of_ip_frame (pkt : buffer) port ck dst src tag p pad :
  buffer_ok pkt -> contents pkt = frame dst src tag ETH_TYPE_IP (ip_bytes p ++ pad) ->
  length dst = 6%nat -> length src = 6%nat -> tag_wf tag -> ip_wf p ->
  flow_of_packet port pkt ck =
    let ports := if fragmented p then (0, 0) else l4_ports (ip_payload p) in
    Ret (Flow false port (tag_vlan tag) (tag_pcp tag) (Ethernetaddr src) (Ethernetaddr dst)
           (htons ETH_TYPE_IP) (htonl (ip_src p)) (htonl (ip_dst p)) (l4_proto (ip_payload p))
           (ip_tos p) (fst ports) (snd ports) ck).
Proof.
  intros Hp Hc Hd Hs Ht Hip.
  destruct (parse_frame pkt Hp port ck dst src tag ETH_TYPE_IP _ Hc Hd Hs Ht) as (k & Hk & ->);
    [by vm_compute|done|]. rewrite Z.eqb_refl. by erewrite parse_ip_at.
Qed.

Lemma flow_of_ip_frame_witness :
  flow_of_packet 3 demo_buffer 0 =
    Ret (Flow false 3 (htons 5) 3 (Ethernetaddr [10; 11; 12; 13; 14; 15]) (Ethernetaddr [1; 2; 3; 4; 5; 6])
           (htons 0x0800) (htonl 0x0a000001) (htonl 0x0a000002) 6 0 (htons 4000) (htons 80) 0).
Proof.
  apply (flow_of_ip_frame demo_buffer 3 0 [1; 2; 3; 4; 5; 6] [10; 11; 12; 13; 14; 15] demo_tag demo_ip [9; 9]).
  - apply demo_buffer_ok.
  - reflexivity.
  - reflexivity.
  - reflexivity.
  - done.
  - apply demo_ip_wf.
Defined.

(** Parsing an ARP packet for IPv4 over Ethernet extracts the sender and
    target protocol addresses and the low byte of the opcode. *)
Theorem flow_of_arp_frame (pkt : buffer) port ck dst src tag a pad :
  buffer_ok pkt -> contents pkt = frame dst src tag ETH_TYPE_ARP (arp_bytes a ++ pad) ->
  length dst = 6%nat -> length src = 6%nat -> tag_wf tag -> arp_wf a ->
  flow_of_packet port pkt ck =
    Ret (Flow false port (tag_vlan tag) (tag_pcp tag) (Ethernetaddr src) (Ethernetaddr dst)
           (htons ETH_TYPE_ARP) (htonl (arp_spa a)) (htonl (arp_tpa a)) (arp_op a `mod` 256) 0 0 0 ck).
Proof.
  intros Hp Hc Hd Hs Ht Ha.
  destruct (parse_frame pkt Hp port ck dst src tag ETH_TYPE_ARP _ Hc Hd Hs Ht) as (k & Hk & ->);
    [by vm_compute|done|]. change (ETH_TYPE_ARP =? ETH_TYPE_IP) with false. rewrite Z.eqb_refl.
  by erewrite parse_arp_at.
Qed.

Lemma flow_of_arp_frame_witness :
  flow_of_packet 3 arp_buffer 0 =
    Ret (Flow false 3 (htons 0xffff) 0 (Ethernetaddr [10; 11; 12; 13; 14; 15])
           (Ethernetaddr [255; 255; 255; 255; 255; 255]) (htons 0x0806) (htonl 0x0a000001)
           (htonl 0x0a000002) 1 0 0 0 0).
Proof.
  apply (flow_of_arp_frame arp_buffer 3 0 [255; 255; 255; 255; 255; 255] [10; 11; 12; 13; 14; 15] None demo_arp []).
  - apply arp_buffer_ok.
  - reflexivity.
  - reflexivity.
  - reflexivity.
  - done.
  - split_and!; done.
Defined.

(** A flow survives the trip through an OpenFlow match: the match
    [get_exact_match] returns, packed into a buffer and read back by the
    [Flow] constructor that takes a raw match, is the same flow. *)
Theorem flow_exact_match_roundtrip (f : flow) (b : bytes) :
  flow_ok f -> is_u16 (in_port f) -> (of_match.size <= length b)%nat ->
  flow_of_match (of_match.pack (get_exact_match f) b) (cookie f) (invalid f) = f.
Proof. apply flow_match_roundtrip. Qed.

Definition demo_flow : flow :=
  Flow false 3 (htons 5) 3 (Ethernetaddr [10; 11; 12; 13; 14; 15]) (Ethernetaddr [1; 2; 3; 4; 5; 6])
    (htons 0x0800) (htonl 0x0a000001) (htonl 0x0a000002) 6 0 (htons 4000) (htons 80) 0.

Lemma demo_flow_ok : flow_ok demo_flow.
Proof. split; try done; split; try done; apply bytes_check; reflexivity. Qed.

Lemma flow_exact_match_roundtrip_witness :
  flow_of_match (of_match.pack (get_exact_match demo_flow) (replicate 64 7)) 0 false = demo_flow.
Proof.
  apply (flow_exact_match_roundtrip demo_flow (replicate 64 7)); [apply demo_flow_ok|done|].
  apply Nat.leb_le. reflexivity.
Defined.

Lemma zeros_length k : 0 <= k -> Z.of_nat (length (replicate (Z.to_nat k) 0)) = k.
Proof. rewrite length_replicate. lia. Qed.

Lemma zeros_bytes k : is_bytes (replicate (Z.to_nat k) 0).
Proof. by apply Forall_replicate. Qed.

(** [Array_buffer::push] and [put] extend the buffer at the front and at
    the back by [n] bytes, keep the old contents in place whether or not the
    array is reallocated, and leave the window within the array; [try_pull]
    either leaves a buffer that is too short alone and returns null, or
    returns the old start and drops exactly [n] bytes from the front. *)
Theorem buffer_operations (new_uint8 : Z -> bytes) (n : Z) (b : buffer) :
  (forall k, 0 <= k -> Z.of_nat (length (new_uint8 k)) = k) -> (forall k, is_bytes (new_uint8 k)) ->
  buffer_ok b -> 0 <= n -> 2 * capacity b + n < 2 ^ 63 ->
  let '(p, b1) := push new_uint8 n b in
  let '(q, b2) := put new_uint8 n b in
  (buffer_ok b1 /\ p = m_data b1 /\ m_size b1 = m_size b + n /\
   drop (Z.to_nat n) (contents b1) = contents b) /\
  (buffer_ok b2 /\ q = m_data b2 + m_size b /\ m_size b2 = m_size b + n /\
   take (Z.to_nat (m_size b)) (contents b2) = contents b) /\
  ((m_size b < n /\ try_pull n b = Ret (None, b)) \/
   (n <= m_size b /\ exists b', try_pull n b = Ret (Some (m_data b), b') /\ buffer_ok b' /\ sub b' b /\
      m_data b' = m_data b + n /\ m_size b' = m_size b - n /\
      contents b' = drop (Z.to_nat n) (contents b))).
Proof.
  intros Hl Hb Hok Hn Hcap. assert (0 <= capacity b) by (unfold capacity; lia).
  pose proof (push_ok new_uint8 Hl Hb n b Hok Hn ltac:(lia)) as H1.
  pose proof (put_ok new_uint8 Hl Hb n b Hok Hn Hcap) as H2.
  pose proof (try_pull_spec n b Hok Hn) as H3.
  destruct (push new_uint8 n b), (put new_uint8 n b). done.
Qed.

Lemma buffer_operations_witness :
  let new_uint8 := fun k => replicate (Z.to_nat k) 0 in
  let '(p, b1) := push new_uint8 14 arp_buffer in
  let '(q, b2) := put new_uint8 14 arp_buffer in
  (buffer_ok b1 /\ p = m_data b1 /\ m_size b1 = m_size arp_buffer + 14 /\
   drop (Z.to_nat 14) (contents b1) = contents arp_buffer) /\
  (buffer_ok b2 /\ q = m_data b2 + m_size arp_buffer /\ m_size b2 = m_size arp_buffer + 14 /\
   take (Z.to_nat (m_size arp_buffer)) (contents b2) = contents arp_buffer) /\
  ((m_size arp_buffer < 14 /\ try_pull 14 arp_buffer = Ret (None, arp_buffer)) \/
   (14 <= m_size arp_buffer /\ exists b', try_pull 14 arp_buffer = Ret (Some (m_data arp_buffer), b') /\
      buffer_ok b' /\ sub b' arp_buffer /\
      m_data b' = m_data arp_buffer + 14 /\ m_size b' = m_size arp_buffer - 14 /\
      contents b' = drop (Z.to_nat 14) (contents arp_buffer))).
Proof.
  apply (buffer_operations (fun k => replicate (Z.to_nat k) 0) 14 arp_buffer zeros_length zeros_bytes arp_buffer_ok);
    vm_compute; congruence.
Defined.

(** The constructor [ethernetaddr(uint64_t)] and [hb_long] are inverse on
    48-bit ids, whatever the two bytes behind the address hold; the comparison
    operators order addresses as the 48-bit numbers they stand for, and
    [operator==] is equality. *)
Theorem ethernetaddr_operations (id : Z) (after : bytes) (a b : ethernetaddr) :
  0 <= id < 2 ^ 48 -> length after = 2%nat -> is_bytes after -> addr_ok a -> addr_ok b ->
  (addr_ok (of_id id) /\ hb_long after (of_id id) = id) /\
  (eqb a b = true <-> a = b) /\
  ltb a b = (addr_value a <? addr_value b) /\ leb a b = (addr_value a <=? addr_value b) /\
  gtb a b = (addr_value b <? addr_value a) /\ geb a b = (addr_value b <=? addr_value a).
Proof.
  intros Hid Ha Hb Hoa Hob. split.
  - pose proof (addr_ok_of_id id) as Hok. split; [done|].
    rewrite hb_long_value by done. by apply of_id_value.
  - split; [by apply eqb_eq|]. unfold ltb, leb, gtb, geb, addr_value.
    destruct Hoa as [Hoa Hab], Hob as [Hob Hbb].
    rewrite (memcmp_be (octet a) (octet b)) by (done || congruence).
    pose proof (Z.sgn_spec (of_be (octet a) - of_be (octet b))) as Hs.
    split_and!; lia.
Qed.

Lemma ethernetaddr_operations_witness :
  let a := of_id 5 in let b := of_id 0x0180c2000003 in
  hb_long [7; 9] (of_id 0x0180c2000003) = 0x0180c2000003 /\
  ltb a b = (addr_value a <? addr_value b) /\ ltb a b = true.
Proof.
  destruct (ethernetaddr_operations 0x0180c2000003 [7; 9] (of_id 5) (of_id 0x0180c2000003))
    as ([_ H1] & _ & H2 & _); [lia|reflexivity|apply bytes_check; reflexivity|apply addr_ok_of_id..|].
  split_and!; [exact H1|exact H2|reflexivity].
Defined.
