(* ===== verification/PacketExpr.v ===== *)
(** * Packet expressions (src/include/expr.hh, src/lib/expr.cc)

    [Packet_expr] is the expression class the classifier is used with; it is
    matched against flows and against other expressions. *)

From S2P Require Import Prelude Bytes Ethernetaddr Flow Cnode CnodeBuild Classifier CnodeSearch.

Open Scope Z_scope.

(** [Packet_expr::Expr_field] *)
Definition AP_SRC : Z := 0.
Definition AP_DST : Z := 1.
Definition DL_VLAN : Z := 2.
Definition DL_VLAN_PCP : Z := 3.
Definition DL_TYPE : Z := 4.
Definition DL_SRC : Z := 5.
Definition DL_DST : Z := 6.
Definition NW_SRC : Z := 7.
Definition NW_DST : Z := 8.
Definition NW_PROTO : Z := 9.
Definition TP_SRC : Z := 10.
Definition TP_DST : Z := 11.
Definition GROUP_SRC : Z := 12.
Definition GROUP_DST : Z := 13.

Record packet_expr := Packet_expr {
  e_ap_src : Z;
  e_ap_dst : Z;
  e_dl_vlan : Z;
  e_dl_vlan_pcp : Z;
  e_dl_proto : Z;
  e_dl_src : bytes;
  e_dl_dst : bytes;
  e_nw_src : Z;
  e_nw_dst : Z;
  e_tp_src : Z;
  e_tp_dst : Z;
  e_group_src : Z;
  e_group_dst : Z;
  e_wildcards : Z;
  e_nw_proto : Z
}.

(** [memcpy(&value, octets + 2, sizeof value)] *)
Definition mac_word (o : bytes) : Z := of_le [nth 2 o 0; nth 3 o 0; nth 4 o 0; nth 5 o 0].

(** [memcmp(a, b, 6) == 0] *)
Definition mac_eqb (a b : bytes) : bool := eq_loop LEN a b 0.

(** [Packet_expr::is_wildcard] *)
Definition is_wildcard (e : packet_expr) (field : Z) : bool :=
  negb (Z.land (e_wildcards e) (masks field) =? 0).

(** [Packet_expr::splittable], on 32-bit masks. *)
Definition expr_splittable (e : packet_expr) (path : Z) : bool :=
  negb (Z.land (u32 (Z.lnot path)) (u32 (Z.lnot (e_wildcards e))) =? 0).

(** [Packet_expr::get_field] *)
Definition expr_get_field (e : packet_expr) (field : Z) : option Z :=
  if negb (Z.land (masks field) (e_wildcards e) =? 0) then None
  else
    if field =? AP_SRC then Some (e_ap_src e)
    else if field =? AP_DST then Some (e_ap_dst e)
    else if field =? DL_VLAN then Some (e_dl_vlan e)
    else if field =? DL_VLAN_PCP then Some (e_dl_vlan_pcp e)
    else if field =? DL_TYPE then Some (e_dl_proto e)
    else if field =? DL_SRC then Some (mac_word (e_dl_src e))
    else if field =? DL_DST then Some (mac_word (e_dl_dst e))
    else if field =? NW_SRC then Some (e_nw_src e)
    else if field =? NW_DST then Some (e_nw_dst e)
    else if field =? NW_PROTO then Some (e_nw_proto e)
    else if field =? TP_SRC then Some (e_tp_src e)
    else if field =? TP_DST then Some (e_tp_dst e)
    else if field =? GROUP_SRC then Some (e_group_src e)
    else if field =? GROUP_DST then Some (e_group_dst e)
    else None.

(** [get_field<Packet_expr, Flow>]; [AP_DST] fails an [assert]. *)
Definition flow_get_field (field : Z) (f : flow) (idx : nat) : res (option Z) :=
  match idx with
  | S _ => Ret None
  | O =>
      if field =? AP_SRC then Ret (Some (in_port f))
      else if field =? AP_DST then Aborted
      else if field =? DL_VLAN then Ret (Some (dl_vlan f))
      else if field =? DL_VLAN_PCP then Ret (Some (dl_vlan_pcp f))
      else if field =? DL_TYPE then Ret (Some (dl_type f))
      else if field =? DL_SRC then Ret (Some (mac_word (octet (dl_src f))))
      else if field =? DL_DST then Ret (Some (mac_word (octet (dl_dst f))))
      else if field =? NW_SRC then Ret (Some (nw_src f))
      else if field =? NW_DST then Ret (Some (nw_dst f))
      else if field =? NW_PROTO then Ret (Some (nw_proto f))
      else if field =? TP_SRC then Ret (Some (tp_src f))
      else if field =? TP_DST then Ret (Some (tp_dst f))
      else Ret None
  end.

(** [get_field<Packet_expr, Packet_expr>] *)
Definition pattern_get_field (field : Z) (e : packet_expr) (idx : nat) : res (option Z) :=
  match idx with
  | S _ => Ret None
  | O => Ret (expr_get_field e field)
  end.

(** [matches(rule_id, expr, flow)] *)
Definition flow_matches (rule_id : Z) (e : packet_expr) (f : flow) : res bool :=
  if Z.land (u32 (Z.lnot (e_wildcards e)))
       (Z.lor (Z.lor (masks AP_DST) (masks GROUP_SRC)) (masks GROUP_DST)) =? 0
  then
    Ret ((is_wildcard e AP_SRC || (e_ap_src e =? in_port f)) &&
         (is_wildcard e DL_VLAN || (e_dl_vlan e =? dl_vlan f)) &&
         (is_wildcard e DL_VLAN_PCP || (e_dl_vlan_pcp e =? dl_vlan_pcp f)) &&
         (is_wildcard e DL_TYPE || (e_dl_proto e =? dl_type f)) &&
         (is_wildcard e DL_SRC || mac_eqb (e_dl_src e) (octet (dl_src f))) &&
         (is_wildcard e DL_DST || mac_eqb (e_dl_dst e) (octet (dl_dst f))) &&
         (is_wildcard e NW_SRC || (e_nw_src e =? nw_src f)) &&
         (is_wildcard e NW_DST || (e_nw_dst e =? nw_dst f)) &&
         (is_wildcard e NW_PROTO || (e_nw_proto e =? nw_proto f)) &&
         (is_wildcard e TP_SRC || (e_tp_src e =? tp_src f)) &&
         (is_wildcard e TP_DST || (e_tp_dst e =? tp_dst f)))
  else Aborted.

(** [matches(rule_id, expr, to_match)] *)
Definition pattern_matches (rule_id : Z) (e to_match : packet_expr) : res bool :=
  if negb (Z.lor (e_wildcards e) (e_wildcards to_match) =? e_wildcards to_match) then Ret false
  else
    Ret ((is_wildcard to_match AP_SRC || (e_ap_src e =? e_ap_src to_match)) &&
         (is_wildcard to_match AP_DST || (e_ap_dst e =? e_ap_dst to_match)) &&
         (is_wildcard to_match DL_VLAN || (e_dl_vlan e =? e_dl_vlan to_match)) &&
         (is_wildcard to_match DL_VLAN_PCP || (e_dl_vlan_pcp e =? e_dl_vlan_pcp to_match)) &&
         (is_wildcard to_match DL_TYPE || (e_dl_proto e =? e_dl_proto to_match)) &&
         (is_wildcard to_match DL_SRC || mac_eqb (e_dl_src e) (e_dl_src to_match)) &&
         (is_wildcard to_match DL_DST || mac_eqb (e_dl_dst e) (e_dl_dst to_match)) &&
         (is_wildcard to_match NW_SRC || (e_nw_src e =? e_nw_src to_match)) &&
         (is_wildcard to_match NW_DST || (e_nw_dst e =? e_nw_dst to_match)) &&
         (is_wildcard to_match NW_PROTO || (e_nw_proto e =? e_nw_proto to_match)) &&
         (is_wildcard to_match TP_SRC || (e_tp_src e =? e_tp_src to_match)) &&
         (is_wildcard to_match TP_DST || (e_tp_dst e =? e_tp_dst to_match)) &&
         (is_wildcard to_match GROUP_SRC || (e_group_src e =? e_group_src to_match)) &&
         (is_wildcard to_match GROUP_DST || (e_group_dst e =? e_group_dst to_match))).

(** [Packet_expr::Packet_expr()]; the other members are left unset, here 0. *)
Definition any_expr : packet_expr := Packet_expr 0 0 0 0 0 (replicate 6 0) (replicate 6 0) 0 0 0 0 0 0 UINT32_MAX 0.

(** [Packet_expr::set_field], with [value] the two words of the argument. *)
Definition set_field (e : packet_expr) (field : Z) (value0 value1 : Z) : packet_expr :=
  let mac := load 0 6 (to_le 4 value0 ++ to_le 4 value1) in
  let w := Z.land (e_wildcards e) (u32 (Z.lnot (masks field))) in
  let '(Packet_expr aps apd vl pcp pr ms md ns nd ts td gs gd _ np) := e in
  if field =? AP_SRC then Packet_expr (u16 value0) apd vl pcp pr ms md ns nd ts td gs gd w np
  else if field =? AP_DST then Packet_expr aps (u16 value0) vl pcp pr ms md ns nd ts td gs gd w np
  else if field =? DL_VLAN then Packet_expr aps apd (u16 value0) pcp pr ms md ns nd ts td gs gd w np
  else if field =? DL_VLAN_PCP then Packet_expr aps apd vl (u16 value0) pr ms md ns nd ts td gs gd w np
  else if field =? DL_TYPE then Packet_expr aps apd vl pcp (u16 value0) ms md ns nd ts td gs gd w np
  else if field =? DL_SRC then Packet_expr aps apd vl pcp pr mac md ns nd ts td gs gd w np
  else if field =? DL_DST then Packet_expr aps apd vl pcp pr ms mac ns nd ts td gs gd w np
  else if field =? NW_SRC then Packet_expr aps apd vl pcp pr ms md value0 nd ts td gs gd w np
  else if field =? NW_DST then Packet_expr aps apd vl pcp pr ms md ns value0 ts td gs gd w np
  else if field =? NW_PROTO then Packet_expr aps apd vl pcp pr ms md ns nd ts td gs gd w (u8 value0)
  else if field =? TP_SRC then Packet_expr aps apd vl pcp pr ms md ns nd (u16 value0) td gs gd w np
  else if field =? TP_DST then Packet_expr aps apd vl pcp pr ms md ns nd ts (u16 value0) gs gd w np
  else if field =? GROUP_SRC then Packet_expr aps apd vl pcp pr ms md ns nd ts td value0 gd w np
  else if field =? GROUP_DST then Packet_expr aps apd vl pcp pr ms md ns nd ts td gs value0 w np
  else e.

(** ** The classifier's interfaces *)

#[export] Instance packet_expr_ops : ExprOps packet_expr := {|
  num_fields := 13; leaf_threshold := 1;
  splittable := expr_splittable; get_field := expr_get_field |}.

#[export] Instance flow_ops : DataOps packet_expr flow := {|
  data_get_field := flow_get_field; data_matches := flow_matches; data_max_idx := 1 |}.

#[export] Instance pattern_ops : DataOps packet_expr packet_expr := {|
  data_get_field := pattern_get_field; data_matches := pattern_matches; data_max_idx := 1 |}.

(** ** Facts *)

Lemma mac_eqb_word a b : mac_eqb a b = true -> mac_word a = mac_word b.
Proof.
  unfold mac_eqb, mac_word, LEN. cbn [eq_loop].
  intros Heq. repeat case_match; try done.
  repeat match goal with H : (_ =? _) = true |- _ => apply Z.eqb_eq in H; rewrite ?H; clear H end.
  done.
Qed.

Lemma field_constrained e field v :
  expr_get_field e field = Some v -> is_wildcard e field = false.
Proof.
  unfold expr_get_field, is_wildcard. rewrite Z.land_comm. by destruct (negb _).
Qed.

(** One value per field, or none. *)
Lemma flow_values f d :
  field_values (S data_max_idx) f (d : flow) 0 =
    v ← flow_get_field f d 0; Ret (option_list v).
Proof.
  cbn [field_values data_max_idx flow_ops data_get_field].
  destruct (flow_get_field f d 0) as [[v|]| | |]; done.
Qed.

Lemma pattern_values f (d : packet_expr) :
  field_values (S data_max_idx) f d 0 = Ret (option_list (expr_get_field d f)).
Proof.
  cbn [field_values data_max_idx pattern_ops data_get_field pattern_get_field mbind res_bind].
  by destruct (expr_get_field d f).
Qed.

(** The conjunct of [matches] for the field at hand. *)
Ltac field_cases field :=
  repeat match goal with
  | |- context [field =? ?c] => destruct (Z.eqb_spec field c) as [->|]
  end.

Lemma flow_match_value f (d : flow) id e v w :
  flow_get_field f d 0 = Ret (Some w) -> flow_matches id e d = Ret true ->
  expr_get_field e f = Some v -> v = w.
Proof.
  intros Hd Hm He. pose proof (field_constrained _ _ _ He) as Hw. unfold flow_matches in Hm.
  destruct (_ =? 0) in Hm; [|done]. injection Hm as Hm. rewrite !andb_true_iff, !orb_true_iff in Hm.
  destruct_and!.
  revert Hd He Hw. unfold flow_get_field, expr_get_field. destruct (negb _); [done|]. field_cases f;
    intros Hd He Hw; injection Hd as <- || discriminate Hd; injection He as <-;
    repeat match goal with
    | H : is_wildcard e ?c = true \/ _, Hw : is_wildcard e ?c = false |- _ =>
        destruct H as [H|H]; [congruence|]; try (by apply Z.eqb_eq); by apply mac_eqb_word
    end.
Qed.

Lemma pattern_match_value f (d : packet_expr) id e v w :
  expr_get_field d f = Some w -> pattern_matches id e d = Ret true ->
  expr_get_field e f = Some v -> v = w.
Proof.
  intros Hd Hm He. pose proof (field_constrained _ _ _ Hd) as Hw. unfold pattern_matches in Hm.
  destruct (negb _) in Hm; [done|]. injection Hm as Hm. rewrite !andb_true_iff, !orb_true_iff in Hm.
  destruct_and!.
  revert Hd He Hw. unfold expr_get_field. destruct (negb (_ =? 0)); [done|].
  destruct (negb (_ =? 0)); [done|]. field_cases f;
    intros Hd He Hw; injection Hd as <- || discriminate Hd; injection He as <-;
    repeat match goal with
    | H : is_wildcard d ?c = true \/ _, Hw : is_wildcard d ?c = false |- _ =>
        destruct H as [H|H]; [congruence|]; try (by apply Z.eqb_eq); by apply mac_eqb_word
    end.
Qed.

#[export] Instance flow_laws : DataLaws packet_expr flow.
Proof.
  split.
  - intros f d. rewrite flow_values. unfold flow_get_field.
    repeat match goal with |- context [f =? ?c] => destruct (f =? c); [done|] end. done.
  - intros f d vs. rewrite flow_values. destruct (flow_get_field f d 0) as [[v|]| | |]; intros [= <-];
      [apply NoDup_singleton|constructor].
  - intros f d vs id e v. rewrite flow_values.
    destruct (flow_get_field f d 0) as [[w|]| | |] eqn:Ew; intros [= <-] Hm He; [|by left].
    right. rewrite (flow_match_value f d id e v w) by done. simpl. left.
Qed.

#[export] Instance pattern_laws : DataLaws packet_expr packet_expr.
Proof.
  split.
  - intros f d. by rewrite pattern_values.
  - intros f d vs. rewrite pattern_values. destruct (expr_get_field d f); intros [= <-];
      [apply NoDup_singleton|constructor].
  - intros f d vs id e v. rewrite pattern_values.
    destruct (expr_get_field d f) as [w|] eqn:Ew; intros [= <-] Hm He; [|by left].
    right. rewrite (pattern_match_value f d id e v w) by done. simpl. left.
Qed.

(** *** Wildcards *)

Lemma wildcard_testbit e c : 0 <= c < 32 -> is_wildcard e c = Z.testbit (e_wildcards e) c.
Proof.
  intros Hc. unfold is_wildcard. pose proof (land_masks (e_wildcards e) c Hc) as Hl.
  destruct (Z.testbit (e_wildcards e) c); destruct (Z.eqb_spec (Z.land (e_wildcards e) (masks c)) 0);
    simpl; try done; naive_solver.
Qed.

Lemma get_field_wild e f : 0 <= f < 32 -> Z.testbit (e_wildcards e) f = true -> expr_get_field e f = None.
Proof.
  intros Hf Hw. rewrite <- wildcard_testbit in Hw by done. unfold is_wildcard in Hw.
  unfold expr_get_field. by rewrite Z.land_comm, Hw.
Qed.

(** The value [set_field] leaves in a field. *)
Definition field_value (field value0 value1 : Z) : Z :=
  if (field =? DL_SRC) || (field =? DL_DST)
  then mac_word (load 0 6 (to_le 4 value0 ++ to_le 4 value1))
  else if field =? NW_PROTO then u8 value0
  else if (field =? NW_SRC) || (field =? NW_DST) || (field =? GROUP_SRC) || (field =? GROUP_DST)
  then value0 else u16 value0.

Lemma set_field_wildcards e f v0 v1 : 0 <= f <= 13 ->
  e_wildcards (set_field e f v0 v1) = Z.land (e_wildcards e) (u32 (Z.lnot (masks f))).
Proof.
  intros Hf. destruct e. unfold set_field.
  assert (f = 0 \/ f = 1 \/ f = 2 \/ f = 3 \/ f = 4 \/ f = 5 \/ f = 6 \/ f = 7 \/ f = 8 \/ f = 9 \/
          f = 10 \/ f = 11 \/ f = 12 \/ f = 13) as Hc by lia.
  repeat (destruct Hc as [->|Hc]; [done|]). by subst.
Qed.

Lemma set_field_testbit e f v0 v1 i : 0 <= f <= 13 -> 0 <= i < 32 ->
  Z.testbit (e_wildcards (set_field e f v0 v1)) i = Z.testbit (e_wildcards e) i && negb (f =? i).
Proof.
  intros Hf Hi. rewrite set_field_wildcards, Z.land_spec by done. f_equal. unfold wrap.
  rewrite Z.mod_pow2_bits_low, Z.lnot_spec, masks_testbit by lia. done.
Qed.

(** The value stored for a field, wildcarded or not. *)
Definition stored (e : packet_expr) (field : Z) : option Z :=
  expr_get_field (Packet_expr (e_ap_src e) (e_ap_dst e) (e_dl_vlan e) (e_dl_vlan_pcp e) (e_dl_proto e)
    (e_dl_src e) (e_dl_dst e) (e_nw_src e) (e_nw_dst e) (e_tp_src e) (e_tp_dst e) (e_group_src e)
    (e_group_dst e) 0 (e_nw_proto e)) field.

Lemma get_field_stored e f : 0 <= f < 32 ->
  expr_get_field e f = if Z.testbit (e_wildcards e) f then None else stored e f.
Proof.
  intros Hf. destruct (Z.testbit (e_wildcards e) f) eqn:Hb; [by apply get_field_wild|].
  apply land_masks in Hb; [|done]. unfold stored, expr_get_field. cbn [e_wildcards].
  rewrite Z.land_comm, Hb, Z.land_0_r. done.
Qed.

Lemma stored_set_field e f v0 v1 g : 0 <= f <= 13 ->
  stored (set_field e f v0 v1) g = if g =? f then Some (field_value f v0 v1) else stored e g.
Proof.
  intros Hf. destruct e. unfold set_field.
  assert (f = 0 \/ f = 1 \/ f = 2 \/ f = 3 \/ f = 4 \/ f = 5 \/ f = 6 \/ f = 7 \/ f = 8 \/ f = 9 \/
          f = 10 \/ f = 11 \/ f = 12 \/ f = 13) as Hc by lia.
  repeat (destruct Hc as [->|Hc]); [..|subst f];
    (match goal with |- context [_ = if g =? ?c then _ else _] => destruct (Z.eqb_spec g c) as [->|Hne] end;
     [unfold stored, expr_get_field; cbn [e_wildcards]; by rewrite Z.land_0_r|];
     unfold stored, expr_get_field; cbn -[masks mac_word Z.land]; rewrite Z.land_0_r; simpl;
     repeat match goal with |- context [g =? ?c] => destruct (Z.eqb_spec g c) as [->|]; try done end).
Qed.

Lemma set_field_get e f v0 v1 g :
  0 <= f <= 13 -> 0 <= g < 32 ->
  expr_get_field (set_field e f v0 v1) g =
    if g =? f then Some (field_value f v0 v1) else expr_get_field e g.
Proof.
  intros Hf Hg. rewrite !get_field_stored, set_field_testbit, stored_set_field by done.
  rewrite (Z.eqb_sym f g). destruct (Z.eqb_spec g f) as [->|Hne]; simpl.
  - by rewrite andb_false_r.
  - by rewrite andb_true_r.
Qed.

(** *** An expression that matches a pattern is at least as specific *)

Lemma mac_eqb_spec a b : mac_eqb a b = true <-> forall i, (i < 6)%nat -> nth i a 0 = nth i b 0.
Proof.
  unfold mac_eqb, LEN. cbn [eq_loop]. split.
  - intros Heq. repeat case_match; try done.
    repeat match goal with H : (_ =? _) = true |- _ => apply Z.eqb_eq in H end.
    intros i Hi. do 6 (destruct i as [|i]; [done|]). lia.
  - intros Hi. rewrite !Hi by lia. by rewrite !Z.eqb_refl.
Qed.

Lemma pattern_wild id e q c : 0 <= c < 32 ->
  pattern_matches id e q = Ret true -> is_wildcard e c = true -> is_wildcard q c = true.
Proof.
  intros Hc Hm He. rewrite wildcard_testbit in * by done. unfold pattern_matches in Hm.
  destruct (Z.eqb_spec (Z.lor (e_wildcards e) (e_wildcards q)) (e_wildcards q)) as [<-|]; [|done].
  by rewrite Z.lor_spec, He.
Qed.

(** The [assert] of [matches] on flows. *)
Definition flow_defined (e : packet_expr) : Prop :=
  Z.land (u32 (Z.lnot (e_wildcards e)))
    (Z.lor (Z.lor (masks AP_DST) (masks GROUP_SRC)) (masks GROUP_DST)) = 0.

Lemma flow_defined_wild e :
  flow_defined e <-> is_wildcard e AP_DST = true /\ is_wildcard e GROUP_SRC = true /\ is_wildcard e GROUP_DST = true.
Proof.
  unfold flow_defined. rewrite !wildcard_testbit by (unfold AP_DST, GROUP_SRC, GROUP_DST; lia).
  rewrite !Z.land_lor_distr_r, !Z.lor_eq_0_iff.
  rewrite !land_masks by (unfold AP_DST, GROUP_SRC, GROUP_DST; lia). unfold wrap.
  rewrite !Z.mod_pow2_bits_low, !Z.lnot_spec by (unfold AP_DST, GROUP_SRC, GROUP_DST; lia).
  rewrite !negb_false_iff. tauto.
Qed.

(** One conjunct of [matches]: the pattern [q], the expression [e] it covers
    and the flow [f]. *)
Lemma cover_int (we wq : bool) (e q f : Z) :
  wq || (e =? q) = true -> we || (e =? f) = true -> (we = true -> wq = true) -> wq || (q =? f) = true.
Proof. destruct wq; [done|]. destruct we; simpl; [naive_solver|]. lia. Qed.

Lemma cover_mac (we wq : bool) (e q f : bytes) :
  wq || mac_eqb e q = true -> we || mac_eqb e f = true -> (we = true -> wq = true) ->
  wq || mac_eqb q f = true.
Proof.
  destruct wq; [done|]. destruct we; simpl; [naive_solver|]. rewrite !mac_eqb_spec.
  intros H1 H2 _ i Hi. by rewrite <- H1, <- H2.
Qed.
