(* ===== verification/ClassifierProps.v ===== *)
(** * Classifying flows with packet expressions

    [get_field] on flows fails an [assert] for [AP_DST] and [matches] fails one
    for rules that constrain [AP_DST] or a group.  As long as no such rule is
    added, neither can happen: the tree is never split on [AP_DST]. *)

From S2P Require Import Prelude Bytes Ethernetaddr Flow Cnode CnodeResult CnodeFacts CnodeBuild CnodeOps Classifier CnodeSearch ClassifierSpec ClassifierHistory PacketExpr.

Open Scope Z_scope.

Section flow.
Context {A : Type}.
Implicit Types (c : classifier packet_expr A) (fl : flow).

(** The operation adds no rule that flows cannot be matched against. *)
Definition op_ok (o : op (E := packet_expr) (A := A)) : Prop :=
  match o with Add _ e _ => flow_defined e | _ => True end.

Record safe c : Prop := {
  safe_splits : forall f, splits_on (root c) f -> f <> AP_DST;
  safe_rules : forall id p e a, view c !! id = Some (p, e, a) -> flow_defined e
}.

Lemma readable_flow fl f : f <> AP_DST -> readable (E := packet_expr) fl f.
Proof.
  intros Hf. unfold readable. rewrite flow_values. unfold flow_get_field.
  repeat match goal with
  | |- context [f =? AP_DST] => destruct (Z.eqb_spec f AP_DST); [done|]
  | |- context [f =? ?k] => destruct (f =? k); [by eexists|]
  end. by eexists.
Qed.

Lemma flow_matches_defined id e fl : flow_defined e -> exists b, flow_matches id e fl = Ret b.
Proof. intros He. unfold flow_matches. rewrite He. by eexists. Qed.

Lemma safe_supports c fl : safe c -> supports c fl.
Proof.
  intros [Hs Hr]. split.
  - apply Forall_forall. intros m Hm. unfold readable_node. destruct (node_field m) as [f|] eqn:Ef; [|done].
    apply readable_flow, Hs. by exists m.
  - intros id r Hid. apply flow_matches_defined. apply (Hr id (r_priority r) _ (r_action r)).
    unfold view. by rewrite lookup_fmap, Hid.
Qed.

Lemma ap_dst_wild e : flow_defined e -> expr_get_field e AP_DST = None.
Proof.
  intros [Hw _]%flow_defined_wild. rewrite wildcard_testbit in Hw by (unfold AP_DST; lia).
  apply get_field_wild; [unfold AP_DST; lia|done].
Qed.

(** ** What each operation splits on *)

Lemma build_root_splits c f : wf c -> splits_on (root (build c)) f ->
  splits_on (root c) f \/ exists id r, rules c !! id = Some r /\ is_Some (expr_get_field (r_expr r) f).
Proof.
  intros Hwf Hs. assert (Hroot : root (build c) = fst (Cnode.build (build_fuel (root c)) 0 false (root c)
                                                     (State (rules c) (next_addr c)))).
  { unfold build. by destruct (Cnode.build _ _ _ _ _). }
  rewrite Hroot in Hs. apply build_splits in Hs as [?|(id & Hid & Hv)].
  - by left.
  - right. unfold rule_field in Hv. cbn [heap] in Hv. destruct (rules c !! id) as [r|] eqn:Er.
    + by exists id, r.
    + by destruct Hv.
  - cbn. lia.
  - by apply wf_buildable.
Qed.

Lemma step_splits o c r c' f :
  wf c -> step o c = Ret (r, c') -> splits_on (root c') f ->
  splits_on (root c) f \/ exists id r, rules c !! id = Some r /\ is_Some (expr_get_field (r_expr r) f).
Proof.
  intros Hwf Hstep Hf. destruct o as [p e a|id p|id| | | |]; simpl in Hstep.
  - left. unfold add_rule in Hstep. destruct (get_id _ _) as [[id k]| | |]; [|done..].
    cbn [mbind res_bind] in Hstep. destruct (rules c !! id); [done|].
    destruct (Cnode.add_rule _ _ _ _ _) as [n' st'] eqn:Ea. injection Hstep as _ <-. cbn [root] in Hf.
    eapply add_rule_splits. by rewrite Ea.
  - left. unfold change_rule_priority in Hstep. destruct (rules c !! id) as [r0|]; [|by injection Hstep as _ <-].
    destruct (r_node r0) as [a0|]; [|by injection Hstep as _ <-].
    destruct (find_node a0 (root c)) as [m|]; [|done].
    destruct (change_rule_priority_at _ _ _ _) as [[b n'] st']. injection Hstep as _ <-.
    by apply put_rules_splits in Hf.
  - left. unfold delete_rule in Hstep. destruct (rules c !! id) as [r0|]; [|by injection Hstep as _ <-].
    destruct (r_node r0) as [a0|]; [|by injection Hstep as _ <-].
    destruct (find_node a0 (root c)) as [m|]; [|done].
    destruct (remove_rule_at _ _ _) as [[b n'] st']. injection Hstep as _ <-.
    by apply put_rules_splits in Hf.
  - injection Hstep as _ <-. by apply build_root_splits.
  - injection Hstep as _ <-. left. unfold unbuild, Cnode.unbuild in Hf.
    destruct (root c) eqn:Er; cbn [root] in Hf; by apply splits_on_Leaf in Hf.
  - injection Hstep as _ <-. left. by apply clean_splits.
  - injection Hstep as _ <-. by apply splits_on_Leaf in Hf.
Qed.

Lemma abs_step_defined o v r v' :
  op_ok o -> abs_step o v r v' ->
  (forall id p e a, v !! id = Some (p, e, a) -> flow_defined e) ->
  forall id p e a, v' !! id = Some (p, e, a) -> flow_defined e.
Proof.
  intros Hok Hs Hv id p e a. destruct Hs as [p0 e0 a0 v id0 ? ?|id0 p0 v|id0 v|v|v|v|v]; try apply Hv.
  - rewrite lookup_insert. case_decide; [intros [= <- <- <-]; done|apply Hv].
  - rewrite lookup_alter. case_decide; [subst|apply Hv]. destruct (v !! id) as [[[p1 e1] a1]|] eqn:Ev; [|done].
    intros [= <- <- <-]. by eapply Hv.
  - intros [_ Hd]%lookup_delete_Some. by eapply Hv.
  - intros Hx. by rewrite lookup_empty in Hx.
Qed.

Lemma step_safe o c r c' :
  wf c -> safe c -> op_ok o -> step o c = Ret (r, c') -> abs_step o (view c) r (view c') -> safe c'.
Proof.
  intros Hwf [Hs Hr] Hok Hstep Habs. split.
  - intros f Hf ->. destruct (step_splits o c r c' AP_DST Hwf Hstep Hf) as [Hc|(id & r0 & Hid & Hv)].
    + by apply (Hs AP_DST).
    + rewrite ap_dst_wild in Hv; [by destruct Hv|]. apply (Hr id (r_priority r0) _ (r_action r0)).
      unfold view. by rewrite lookup_fmap, Hid.
  - by eapply abs_step_defined.
Qed.

Lemma run_safe ops c :
  wf c -> safe c -> Forall op_ok ops -> Z.of_nat (size (view c) + length ops) <= UINT32_MAX ->
  exists rs c', run ops c = Ret (rs, c') /\ wf c' /\ safe c' /\ abs_run ops (view c) rs (view c').
Proof.
  revert c. induction ops as [|o ops IH]; intros c Hwf Hs Hok Hsz.
  { eexists _, c. split_and!; try done. constructor. }
  simpl in Hsz. inversion Hok as [|? ? Ho Hok']; subst.
  destruct (step_refines o c Hwf) as (r & c1 & Hst & Hwf1 & Ha & Hs1); [lia|].
  assert (Hsafe : safe c1) by (by apply (step_safe o c r c1)).
  destruct (IH c1 Hwf1 Hsafe Hok') as (rs & c2 & Hrun & Hwf2 & Hs2 & Habs); [lia|].
  cbn [run]. rewrite Hst. cbn [mbind res_bind]. rewrite Hrun.
  eexists _, c2. split_and!; try done. by econstructor.
Qed.

Lemma init_safe : safe (init (E := packet_expr) (A := A)).
Proof.
  split.
  - intros f Hf. by apply splits_on_Leaf in Hf.
  - intros id p e a. unfold view, init. cbn [rules]. rewrite fmap_empty, lookup_empty. done.
Qed.
End flow.

(** ** Properties of the packet classifier *)

(** ** A small classifier to evaluate *)

(** A flow to destination port 80 and rules on it; actions are strings of
    bytes in practice and numbers here. *)
Definition http_flow : flow :=
  Flow false 1 (htons 0xffff) 0 (of_id 0x0a0b0c0d0e0f) (of_id 0x010203040506) (htons 0x0800)
    (htonl 0x0a000001) (htonl 0x0a000002) 6 0 (htons 4000) (htons 80) 0.

Definition http_expr : packet_expr := set_field any_expr TP_DST (htons 80) 0.
Definition lab_expr : packet_expr := set_field any_expr NW_SRC (htonl 0x0b000001) 0.
Definition host_expr : packet_expr := set_field any_expr NW_SRC (htonl 0x0a000001) 0.

Definition demo_ops : list (op (E := packet_expr) (A := Z)) :=
  [Add 5 http_expr 100; Add 5 lab_expr 101; Add 3 host_expr 102; Build; Add 9 any_expr 103;
   Build; Change 1 7; Delete 4; Clean; Add 1 host_expr 104].

Definition demo : classifier packet_expr Z :=
  match run demo_ops init with Ret (_, c) => c | _ => init end.

Example demo_runs : exists rs, run demo_ops init = Ret (rs, demo).
Proof. eexists. vm_compute. reflexivity. Qed.

Lemma demo_reached : wf demo /\ safe demo.
Proof.
  destruct (run_safe (A := Z) demo_ops init) as (rs & c & Hrun & Hwf & Hs & _).
  - apply init_wf_view.
  - apply init_safe.
  - repeat constructor.
  - vm_compute. congruence.
  - destruct demo_runs as [rs' Hd]. rewrite Hd in Hrun. revert Hrun. clear Hd.
    generalize demo. intros d [= _ ->]. done.
Qed.

(** ** Properties *)

(** C1: The classifier refines a map.  Any history of additions, deletions,
    priority changes, tree restructurings and resets, from any well-formed
    classifier with room for the ids, runs to completion (no failed [assert],
    no dangling node pointer, no exception) and produces outputs and a final
    content that the abstract map from ids to rules allows; the tree's
    invariant holds again at the end. *)
Theorem classifier_refines_map {E A : Type} `{ExprOps E} (ops : list op) (c : classifier E A) :
  wf c -> Z.of_nat (size (view c) + length ops) <= UINT32_MAX ->
  exists rs c', run ops c = Ret (rs, c') /\ wf c' /\ abs_run ops (view c) rs (view c').
Proof. apply run_refines. Qed.

Lemma classifier_refines_map_witness :
  exists rs c', run demo_ops init = Ret (rs, c') /\ wf c' /\
    abs_run demo_ops (view (init (E := packet_expr) (A := Z))) rs (view c').
Proof.
  apply (classifier_refines_map demo_ops (init (E := packet_expr) (A := Z))).
  - apply init_wf_view.
  - vm_compute. congruence.
Defined.



(** C3: [delete_rules] deletes exactly the rules that match the data, while
    it iterates over them, leaves the others as they were, and returns how
    many it deleted (modulo 2^32). *)
Theorem delete_rules_exact {E A D : Type} `{DataLaws E D} (c : classifier E A) (d : D) :
  wf c -> supports c d ->
  exists c' ids, delete_rules c d = Ret (u32 (Z.of_nat (length ids)), c') /\ wf c' /\
    NoDup ids /\ (forall id, id ∈ ids <-> hits (view c) d id) /\
    forall id, view c' !! id = if decide (id ∈ ids) then None else view c !! id.
Proof. apply delete_rules_spec. Qed.

Lemma delete_rules_exact_witness :
  exists c' ids, delete_rules demo http_flow = Ret (u32 (Z.of_nat (length ids)), c') /\ wf c' /\
    NoDup ids /\ (forall id, id ∈ ids <-> hits (view demo) http_flow id) /\
    forall id, view c' !! id = if decide (id ∈ ids) then None else view demo !! id.
Proof.
  apply (delete_rules_exact demo http_flow); [apply demo_reached|].
  apply safe_supports, demo_reached.
Defined.

(** [add_rule] stores the rule under an id in 1..2^32-1 that was free and
    changes nothing else; it throws ENOMEM only when every id is taken, and
    the search for an id always ends. *)
Theorem add_rule_fresh {E A : Type} `{ExprOps E} (c : classifier E A) p e a :
  wf c ->
  (exists id c', add_rule c p e a = Ret (id, c') /\ wf c' /\ view c !! id = None /\
     1 <= id <= UINT32_MAX /\ view c' = <[id := (p, e, a)]> (view c)) \/
  (add_rule c p e a = Throw ENOMEM /\ forall j, 1 <= j <= UINT32_MAX -> is_Some (view c !! j)).
Proof. apply add_rule_spec. Qed.

Lemma add_rule_fresh_witness :
  (exists id c', add_rule demo 2 lab_expr 7 = Ret (id, c') /\ wf c' /\ view demo !! id = None /\
     1 <= id <= UINT32_MAX /\ view c' = <[id := (2, lab_expr, 7)]> (view demo)) \/
  (add_rule demo 2 lab_expr 7 = Throw ENOMEM /\
   forall j, 1 <= j <= UINT32_MAX -> is_Some (view demo !! j)).
Proof. apply (add_rule_fresh demo 2 lab_expr 7). apply demo_reached. Defined.

(** [change_rule_priority] and [delete_rule] on an id that is present
    succeed and change that rule only; on any other id they report failure
    and change nothing. *)
Theorem rule_update_exact {E A : Type} `{ExprOps E} (c : classifier E A) id p :
  wf c ->
  match view c !! id with
  | Some (_, e, a) =>
      (exists c', change_rule_priority c id p = Ret (true, c') /\ wf c' /\
         view c' = <[id := (p, e, a)]> (view c)) /\
      (exists c', delete_rule c id = Ret (true, c') /\ wf c' /\ view c' = delete id (view c))
  | None => change_rule_priority c id p = Ret (false, c) /\ delete_rule c id = Ret (false, c)
  end.
Proof.
  intros Hwf. pose proof (change_rule_priority_spec c id p Hwf) as Hch.
  pose proof (delete_rule_spec c id Hwf) as Hd.
  destruct (view c !! id) as [[[p0 e] a]|] eqn:Ev.
  - assert (is_Some (rules c !! id)) as [r Hr] by (apply view_lookup; by eexists). rewrite Hr in Hd.
    destruct Hch as (c1 & -> & Hwf1 & Hv1), Hd as (c2 & -> & Hwf2 & Hv2). split.
    + exists c1. split_and!; try done. rewrite Hv1. apply map_eq. intros j.
      rewrite lookup_alter, lookup_insert. case_decide; [subst; by rewrite Ev|done].
    + exists c2. split_and!; try done. unfold view. by rewrite Hv2, fmap_delete.
  - destruct (rules c !! id) as [r|] eqn:Er; [|done].
    unfold view in Ev. by rewrite lookup_fmap, Er in Ev.
Qed.

Lemma rule_update_exact_witness :
  match view demo !! 2 with
  | Some (_, e, a) =>
      (exists c', change_rule_priority demo 2 40 = Ret (true, c') /\ wf c' /\
         view c' = <[2 := (40, e, a)]> (view demo)) /\
      (exists c', delete_rule demo 2 = Ret (true, c') /\ wf c' /\ view c' = delete 2 (view demo))
  | None => change_rule_priority demo 2 40 = Ret (false, demo) /\ delete_rule demo 2 = Ret (false, demo)
  end.
Proof. apply (rule_update_exact demo 2 40). apply demo_reached. Defined.

(** [build], [unbuild] and [clean] keep the invariant and the contents:
    no rule is lost, duplicated or altered, whatever the tree looks like. *)
Theorem restructuring_transparent {E A : Type} `{ExprOps E} (c : classifier E A) :
  wf c ->
  (wf (build c) /\ view (build c) = view c) /\
  (wf (unbuild c) /\ view (unbuild c) = view c) /\
  (wf (clean c) /\ view (clean c) = view c).
Proof. intros Hwf. split; [by apply build_spec|]. split; [by apply unbuild_spec|by apply clean_spec]. Qed.

Lemma restructuring_transparent_witness :
  (wf (build demo) /\ view (build demo) = view demo) /\
  (wf (unbuild demo) /\ view (unbuild demo) = view demo) /\
  (wf (clean demo) /\ view (clean demo) = view demo).
Proof. apply (restructuring_transparent demo). apply demo_reached. Defined.

(** C4: [Cnode::build] terminates: the recursion is never deeper than the
    height of the tree plus the number of fields, so any larger bound gives
    the same tree and the same rule store. *)
Theorem build_terminates {E A : Type} `{ExprOps E} (fuel : nat) (copy : bool) (n : cnode) (st : state E A) :
  (num_fields <= 32)%nat -> (build_fuel n <= fuel)%nat ->
  Cnode.build fuel 0 copy n st = Cnode.build (build_fuel n) 0 copy n st.
Proof. intros Hf. by apply build_fuel_enough. Qed.

Lemma build_terminates_witness :
  Cnode.build 100 0 false (root demo) (State (rules demo) (next_addr demo)) =
  Cnode.build (build_fuel (root demo)) 0 false (root demo) (State (rules demo) (next_addr demo)).
Proof.
  apply (build_terminates 100 false (root demo) (State (rules demo) (next_addr demo))); vm_compute; lia.
Defined.

(** A rule whose expression matches a pattern expression is at least as
    specific as the pattern: every flow that matches the expression matches
    the pattern, and the pattern can be matched against flows if the
    expression can. *)
Theorem pattern_covers id id' e q (fl : flow) :
  pattern_matches id e q = Ret true -> flow_matches id e fl = Ret true ->
  flow_matches id' q fl = Ret true.
Proof.
  intros Hp Hf. assert (Hdef : flow_defined e).
  { unfold flow_matches in Hf. unfold flow_defined. by destruct (Z.eqb_spec (Z.land (u32 (Z.lnot (e_wildcards e)))
      (Z.lor (Z.lor (masks AP_DST) (masks GROUP_SRC)) (masks GROUP_DST))) 0). }
  assert (Hq : flow_defined q).
  { apply flow_defined_wild in Hdef as (H1 & H2 & H3). apply flow_defined_wild.
    split_and!; (eapply pattern_wild; [|exact Hp|]; [unfold AP_DST, GROUP_SRC, GROUP_DST; lia|done]). }
  assert (Hw : forall k, 0 <= k < 32 -> is_wildcard e k = true -> is_wildcard q k = true)
    by (intros; by eapply pattern_wild).
  unfold flow_matches in *. rewrite Hdef in Hf. rewrite Hq. cbn [Z.eqb] in *. injection Hf as Hf.
  unfold pattern_matches in Hp. destruct (negb _) in Hp; [done|]. injection Hp as Hp.
  f_equal. rewrite !andb_true_iff in *. destruct_and!.
  split_and!;
    ((eapply cover_int || eapply cover_mac);
     [eassumption|eassumption|apply Hw; vm_compute; split; congruence]).
Qed.

Lemma pattern_covers_witness : flow_matches 9 any_expr http_flow = Ret true.
Proof. apply (pattern_covers 1 9 http_expr any_expr http_flow); vm_compute; reflexivity. Defined.

(** [set_field] makes the expression require the given value (cut to the
    width of the member) on that field and leaves every other field as it
    was. *)
Theorem set_field_exact e f v0 v1 g :
  0 <= f <= GROUP_DST -> 0 <= g < 32 ->
  expr_get_field (set_field e f v0 v1) g =
    if g =? f then Some (field_value f v0 v1) else expr_get_field e g.
Proof. apply set_field_get. Qed.

Lemma set_field_exact_witness :
  expr_get_field (set_field any_expr NW_PROTO 262 0) NW_PROTO = Some 6.
Proof. rewrite (set_field_exact any_expr NW_PROTO 262 0 NW_PROTO);
    [vm_compute; reflexivity|split; vm_compute; congruence|split; vm_compute; congruence].
Defined.
