(* ===== verification/Timeval.v ===== *)
(** * Time values (src/lib/timeval.cc, src/include/timeval.hh)

    [timeval] and [timespec] hold two signed 64-bit integers.  [operator+=]
    and [operator-=] are modelled on unbounded integers ([tv_add_range] and
    [tv_sub_range] say when the C++ additions cannot overflow); the
    conversions to and from milliseconds, which guard against overflow, are
    modelled with checked arithmetic: [Aborted] is a signed overflow. *)

From S2P Require Import Prelude Bytes.

Open Scope Z_scope.

Record timeval := Timeval { tv_sec : Z; tv_usec : Z }.
Record timespec := Timespec { ts_sec : Z; ts_nsec : Z }.

#[export] Instance timeval_eq_dec : EqDecision timeval.
Proof. solve_decision. Defined.

Definition LONG_MAX : Z := 2 ^ 63 - 1.
Definition LONG_MIN : Z := - 2 ^ 63.

(** ** Signed 64-bit arithmetic *)

(** Conversion of an [unsigned long] to a signed 64-bit type. *)
Definition to_signed (x : Z) : Z := if x <? 2 ^ 63 then x else x - 2 ^ 64.

Definition is_s64 (x : Z) : Prop := LONG_MIN <= x <= LONG_MAX.

(** The value of a signed expression, unless it overflows. *)
Definition s64 (x : Z) : res Z :=
  if (LONG_MIN <=? x) && (x <=? LONG_MAX) then Ret x else Aborted.

(** ** Arithmetic *)

(** [timeval_compare] *)
Definition timeval_compare (x y : timeval) : Z :=
  if negb (tv_sec x =? tv_sec y) then (if tv_sec x <? tv_sec y then -1 else 1)
  else if negb (tv_usec x =? tv_usec y) then (if tv_usec x <? tv_usec y then -1 else 1)
  else 0.

Definition tv_eqb (x y : timeval) : bool := timeval_compare x y =? 0.
Definition tv_ltb (x y : timeval) : bool := timeval_compare x y <? 0.
Definition tv_leb (x y : timeval) : bool := timeval_compare x y <=? 0.

(** [operator+=], and [operator+], which calls it on a copy *)
Definition tv_add (x y : timeval) : timeval :=
  let x := Timeval (tv_sec x + tv_sec y) (tv_usec x + tv_usec y) in
  if 1000000 <=? tv_usec x then Timeval (tv_sec x + 1) (tv_usec x - 1000000) else x.

(** [operator-=], and [operator-] *)
Definition tv_sub (x y : timeval) : timeval :=
  if tv_leb x y then Timeval 0 0
  else if tv_usec y <=? tv_usec x
       then Timeval (tv_sec x - tv_sec y) (tv_usec x - tv_usec y)
       else Timeval (tv_sec x - tv_sec y - 1) (1000000 + tv_usec x - tv_usec y).

(** [make_timeval], [make_timespec]: the arguments go through [unsigned long]. *)
Definition make_timeval (sec usec : Z) : timeval :=
  Timeval (to_signed (u64 sec)) (to_signed (u64 usec)).
Definition make_timespec (sec nsec : Z) : timespec :=
  Timespec (to_signed (u64 sec)) (to_signed (u64 nsec)).

(** ** Milliseconds *)

(** [timeval_to_ms]; every signed operation that could overflow is checked. *)
Definition timeval_to_ms (x : timeval) : res Z :=
  if LONG_MAX ÷ 1000 - 999 <=? tv_sec x then Ret LONG_MAX
  else if tv_sec x <=? LONG_MIN ÷ 1000 + 999 then Ret LONG_MIN
  else
    p ← s64 (tv_sec x * 1000);
    u ← s64 (tv_usec x + 500);
    if 0 <=? tv_sec x then s64 (p + u ÷ 1000) else s64 (p - u ÷ 1000).

(** [timeval_from_ms] *)
Definition timeval_from_ms (ms : Z) : res timeval :=
  if 0 <=? ms then
    if ms ÷ 1000 <? LONG_MAX
    then u ← s64 (Z.rem ms 1000 * 1000); Ret (make_timeval (ms ÷ 1000) u)
    else Ret (make_timeval LONG_MAX 0)
  else
    if LONG_MIN <? ms ÷ 1000
    then u ← s64 (- Z.rem ms 1000 * 1000); Ret (make_timeval (ms ÷ 1000) u)
    else Ret (make_timeval LONG_MIN 0).

(** [timespec_to_ms] *)
Definition timespec_to_ms (x : timespec) : res Z :=
  if LONG_MAX ÷ 1000 - 999 <=? ts_sec x then Ret LONG_MAX
  else if ts_sec x <=? LONG_MIN ÷ 1000 + 999 then Ret LONG_MIN
  else
    p ← s64 (ts_sec x * 1000);
    if 0 <=? ts_nsec x
    then u ← s64 (ts_nsec x + 500000); s64 (p + u ÷ 1000000)
    else u ← s64 (ts_nsec x - 500000); s64 (p + u ÷ 1000000).

(** [timespec_from_ms] *)
Definition timespec_from_ms (ms : Z) : res timespec :=
  if 0 <=? ms then
    if ms ÷ 1000 <? LONG_MAX
    then u ← s64 (Z.rem ms 1000 * 1000000); Ret (make_timespec (ms ÷ 1000) u)
    else Ret (make_timespec LONG_MAX 0)
  else
    ms ← s64 (ms - 999);
    if LONG_MIN <? ms ÷ 1000
    then u ← s64 (- Z.rem ms 1000 * 1000000); Ret (make_timespec (ms ÷ 1000) u)
    else Ret (make_timespec LONG_MIN 0).

(** ** Facts *)

(** A time with its microseconds in range, and the number of microseconds
    it stands for. *)
Definition normal (x : timeval) : Prop := 0 <= tv_usec x < 1000000.
Definition usecs (x : timeval) : Z := tv_sec x * 1000000 + tv_usec x.

#[export] Instance normal_dec x : Decision (normal x).
Proof. unfold normal. apply _. Defined.

Lemma timeval_compare_cases x y :
  timeval_compare x y = -1 /\ (tv_sec x < tv_sec y \/ tv_sec x = tv_sec y /\ tv_usec x < tv_usec y) \/
  timeval_compare x y = 0 /\ x = y \/
  timeval_compare x y = 1 /\ (tv_sec y < tv_sec x \/ tv_sec x = tv_sec y /\ tv_usec y < tv_usec x).
Proof.
  destruct x as [a b], y as [c d]. unfold timeval_compare; simpl.
  destruct (Z.eqb_spec a c); simpl; [|destruct (Z.ltb_spec a c); lia].
  destruct (Z.eqb_spec b d); simpl; [|destruct (Z.ltb_spec b d); lia].
  right; left. by subst.
Qed.

Lemma tv_eqb_eq x y : tv_eqb x y = true <-> x = y.
Proof.
  unfold tv_eqb. rewrite Z.eqb_eq. pose proof (timeval_compare_cases x y) as H.
  split; [|intros ->; naive_solver lia]. naive_solver lia.
Qed.

Lemma tv_leb_usecs x y : normal x -> normal y -> tv_leb x y = true <-> usecs x <= usecs y.
Proof.
  unfold normal, usecs, tv_leb. intros Hx Hy. rewrite Z.leb_le.
  destruct (timeval_compare_cases x y) as [[-> ?]|[[-> ->]|[-> ?]]]; lia.
Qed.

Lemma tv_ltb_usecs x y : normal x -> normal y -> tv_ltb x y = true <-> usecs x < usecs y.
Proof.
  unfold normal, usecs, tv_ltb. intros Hx Hy. rewrite Z.ltb_lt.
  destruct (timeval_compare_cases x y) as [[-> ?]|[[-> ->]|[-> ?]]]; lia.
Qed.

Lemma tv_add_spec x y : normal x -> normal y ->
  normal (tv_add x y) /\ usecs (tv_add x y) = usecs x + usecs y.
Proof.
  unfold normal, usecs, tv_add. intros Hx Hy. cbn [tv_sec tv_usec].
  destruct (Z.leb_spec 1000000 (tv_usec x + tv_usec y)); cbn [tv_sec tv_usec]; lia.
Qed.

Lemma tv_sub_spec x y : normal x -> normal y ->
  normal (tv_sub x y) /\ usecs (tv_sub x y) = Z.max 0 (usecs x - usecs y).
Proof.
  intros Hx Hy. unfold tv_sub. pose proof (tv_leb_usecs x y Hx Hy) as Hle.
  destruct (tv_leb x y).
  - destruct Hle as [Hle _]. specialize (Hle eq_refl). unfold normal, usecs in *. simpl. lia.
  - assert (usecs y < usecs x).
    { destruct (Z.le_gt_cases (usecs x) (usecs y)) as [Hc|]; [|lia]. by apply Hle in Hc. }
    unfold normal, usecs in *.
    destruct (Z.leb_spec (tv_usec y) (tv_usec x)); cbn [tv_sec tv_usec]; lia.
Qed.

(** No sum or difference leaves the 64-bit range when the seconds stay below
    2^62 in absolute value. *)
Lemma tv_add_range x y : normal x -> normal y ->
  Z.abs (tv_sec x) < 2 ^ 62 -> Z.abs (tv_sec y) < 2 ^ 62 ->
  is_s64 (tv_sec x + tv_sec y) /\ is_s64 (tv_usec x + tv_usec y) /\ is_s64 (tv_sec (tv_add x y)).
Proof.
  unfold normal, is_s64, LONG_MIN, LONG_MAX, tv_add. intros. cbn [tv_sec tv_usec].
  destruct (Z.leb_spec 1000000 (tv_usec x + tv_usec y)); cbn [tv_sec tv_usec]; lia.
Qed.

Lemma tv_sub_range x y : normal x -> normal y ->
  Z.abs (tv_sec x) < 2 ^ 62 -> Z.abs (tv_sec y) < 2 ^ 62 ->
  is_s64 (tv_sec x - tv_sec y - 1) /\ is_s64 (tv_sec (tv_sub x y)).
Proof.
  unfold normal, is_s64, LONG_MIN, LONG_MAX, tv_sub. intros.
  destruct (tv_leb x y), (Z.leb_spec (tv_usec y) (tv_usec x)); cbn [tv_sec tv_usec]; lia.
Qed.

Lemma s64_Ret x : is_s64 x -> s64 x = Ret x.
Proof.
  unfold is_s64, s64. intros [??]. destruct (Z.leb_spec LONG_MIN x), (Z.leb_spec x LONG_MAX); simpl; done || lia.
Qed.

Lemma to_signed_u64 x : is_s64 x -> to_signed (u64 x) = x.
Proof.
  unfold is_s64, LONG_MIN, LONG_MAX, to_signed, wrap. intros Hx.
  destruct (Z.leb_spec 0 x).
  - rewrite Z.mod_small by lia. destruct (Z.ltb_spec x (2 ^ 63)); lia.
  - replace (x `mod` 2 ^ 64) with (x + 2 ^ 64)
      by (symmetry; rewrite <- (Z.mod_add _ 1) by lia; apply Z.mod_small; lia).
    destruct (Z.ltb_spec (x + 2 ^ 64) (2 ^ 63)); lia.
Qed.

Ltac s64_solve := apply s64_Ret; unfold is_s64, LONG_MIN, LONG_MAX; lia.

Lemma to_ms_limits :
  LONG_MAX ÷ 1000 - 999 = 9223372036853776 /\ LONG_MIN ÷ 1000 + 999 = - 9223372036853776.
Proof. split; vm_compute; reflexivity. Qed.

(** Rounding to the nearest millisecond, saturated at both ends. *)
Lemma timeval_to_ms_spec x : is_s64 (tv_sec x) -> normal x ->
  exists r, timeval_to_ms x = Ret r /\ is_s64 r /\
    (0 <= tv_sec x < 9223372036853776 -> r = (usecs x + 500) / 1000) /\
    (9223372036853776 <= tv_sec x -> r = LONG_MAX) /\
    (tv_sec x <= - 9223372036853776 -> r = LONG_MIN).
Proof.
  intros Hs Hn. unfold timeval_to_ms. destruct to_ms_limits as [-> ->].
  destruct (Z.leb_spec 9223372036853776 (tv_sec x)).
  { exists LONG_MAX. split; [done|]. unfold is_s64, LONG_MAX, LONG_MIN in *. lia. }
  destruct (Z.leb_spec (tv_sec x) (- 9223372036853776)).
  { exists LONG_MIN. split; [done|]. unfold is_s64, LONG_MAX, LONG_MIN in *. lia. }
  unfold normal in Hn.
  rewrite (s64_Ret (tv_sec x * 1000)) by (unfold is_s64, LONG_MAX, LONG_MIN; lia).
  rewrite (s64_Ret (tv_usec x + 500)) by (unfold is_s64, LONG_MAX, LONG_MIN; lia).
  cbn [mbind res_bind]. rewrite ?Z.quot_div_nonneg by lia.
  assert (0 <= (tv_usec x + 500) / 1000 <= 1000) by (split; [apply Z.div_pos|apply Z.lt_succ_r, Z.div_lt_upper_bound]; lia).
  destruct (Z.leb_spec 0 (tv_sec x)).
  - exists (tv_sec x * 1000 + (tv_usec x + 500) / 1000).
    rewrite s64_Ret by (unfold is_s64, LONG_MAX, LONG_MIN; lia).
    split_and!; [done|unfold is_s64, LONG_MAX, LONG_MIN; lia| |lia|lia].
    intros _. unfold usecs.
    replace (tv_sec x * 1000000 + tv_usec x + 500) with (tv_usec x + 500 + (tv_sec x * 1000) * 1000) by lia.
    rewrite Z.div_add by lia. lia.
  - exists (tv_sec x * 1000 - (tv_usec x + 500) / 1000).
    rewrite s64_Ret by (unfold is_s64, LONG_MAX, LONG_MIN; lia).
    split_and!; [done|unfold is_s64, LONG_MAX, LONG_MIN; lia|lia..].
Qed.

(** The two parts of a number of milliseconds. *)
Lemma ms_parts ms : is_s64 ms ->
  ms = ms ÷ 1000 * 1000 + Z.rem ms 1000 /\ Z.abs (Z.rem ms 1000) < 1000 /\
  (0 <= ms -> 0 <= Z.rem ms 1000) /\ (ms <= 0 -> Z.rem ms 1000 <= 0) /\
  - 9223372036854776 < ms ÷ 1000 < 9223372036854776 /\ is_s64 (ms ÷ 1000).
Proof.
  intros Hms. pose proof (Z.quot_rem' ms 1000). pose proof (Z.rem_bound_abs ms 1000 ltac:(lia)).
  assert (0 <= ms -> 0 <= Z.rem ms 1000) by (intros; apply Z.rem_nonneg; lia).
  assert (ms <= 0 -> Z.rem ms 1000 <= 0) by (intros; apply Z.rem_nonpos; lia).
  unfold is_s64, LONG_MIN, LONG_MAX in *. lia.
Qed.

Lemma timeval_from_ms_spec ms : is_s64 ms ->
  timeval_from_ms ms = Ret (Timeval (ms ÷ 1000) (Z.abs (Z.rem ms 1000) * 1000)).
Proof.
  intros Hms. destruct (ms_parts ms Hms) as (Heq & Hr & Hpos & Hneg & Hq & Hqs). unfold timeval_from_ms, make_timeval.
  destruct (Z.leb_spec 0 ms).
  - destruct (Z.ltb_spec (ms ÷ 1000) LONG_MAX); [|unfold LONG_MAX in *; lia].
    rewrite s64_Ret by (unfold is_s64, LONG_MAX, LONG_MIN; lia). cbn [mbind res_bind].
    rewrite !to_signed_u64 by (done || (unfold is_s64, LONG_MAX, LONG_MIN; lia)).
    do 2 f_equal. lia.
  - destruct (Z.ltb_spec LONG_MIN (ms ÷ 1000)); [|unfold LONG_MIN in *; lia].
    rewrite s64_Ret by (unfold is_s64, LONG_MAX, LONG_MIN; lia). cbn [mbind res_bind].
    rewrite !to_signed_u64 by (done || (unfold is_s64, LONG_MAX, LONG_MIN; lia)).
    do 2 f_equal. lia.
Qed.

(** The round trip through [timeval] loses the sign of the times between
    -1 s and 0. *)
Lemma timeval_ms_roundtrip ms : Z.abs ms < 9223372036853776000 ->
  (tv ← timeval_from_ms ms; timeval_to_ms tv) = Ret (if (-1000 <? ms) && (ms <? 0) then - ms else ms).
Proof.
  intros Hms. assert (Hs : is_s64 ms) by (unfold is_s64, LONG_MIN, LONG_MAX; lia).
  rewrite timeval_from_ms_spec by done. cbn [mbind res_bind].
  destruct (ms_parts ms Hs) as (Heq & Hr & Hpos & Hneg & Hq & Hqs).
  assert (Hlim : - 9223372036853776 < ms ÷ 1000 < 9223372036853776) by lia.
  assert (Hround : (Z.abs (Z.rem ms 1000) * 1000 + 500) ÷ 1000 = Z.abs (Z.rem ms 1000)).
  { rewrite Z.quot_div_nonneg by lia. symmetry. apply (Z.div_unique _ _ _ 500); lia. }
  unfold timeval_to_ms. destruct to_ms_limits as [-> ->]. cbn [tv_sec tv_usec].
  destruct (Z.leb_spec 9223372036853776 (ms ÷ 1000)); [lia|].
  destruct (Z.leb_spec (ms ÷ 1000) (- 9223372036853776)); [lia|].
  rewrite (s64_Ret (ms ÷ 1000 * 1000)) by (unfold is_s64, LONG_MAX, LONG_MIN; lia).
  rewrite (s64_Ret (_ + 500)) by (unfold is_s64, LONG_MAX, LONG_MIN; lia). cbn [mbind res_bind].
  rewrite Hround.
  destruct (Z.leb_spec 0 (ms ÷ 1000)); rewrite s64_Ret by (unfold is_s64, LONG_MAX, LONG_MIN; lia);
    f_equal; destruct (Z.ltb_spec (-1000) ms), (Z.ltb_spec ms 0); simpl; lia.
Qed.

(** The number of milliseconds [timespec_from_ms] splits in two. *)
Definition ts_ms (ms : Z) : Z := if 0 <=? ms then ms else ms - 999.

Lemma timespec_from_ms_spec ms : is_s64 ms -> is_s64 (ms - 999) ->
  timespec_from_ms ms = Ret (Timespec (ts_ms ms ÷ 1000) (Z.abs (Z.rem (ts_ms ms) 1000) * 1000000)).
Proof.
  intros Hms Hms'. unfold timespec_from_ms, make_timespec, ts_ms. destruct (Z.leb_spec 0 ms).
  - destruct (ms_parts ms Hms) as (_ & Hr & Hpos & _ & Hq & Hqs).
    destruct (Z.ltb_spec (ms ÷ 1000) LONG_MAX); [|unfold LONG_MAX in *; lia].
    rewrite s64_Ret by (unfold is_s64, LONG_MAX, LONG_MIN; lia). cbn [mbind res_bind].
    rewrite !to_signed_u64 by (done || (unfold is_s64, LONG_MAX, LONG_MIN; lia)).
    do 2 f_equal. lia.
  - destruct (ms_parts _ Hms') as (_ & Hr & _ & Hneg & Hq & Hqs).
    rewrite (s64_Ret (ms - 999)) by done. cbn [mbind res_bind].
    destruct (Z.ltb_spec LONG_MIN ((ms - 999) ÷ 1000)); [|unfold LONG_MIN in *; lia].
    rewrite s64_Ret by (unfold is_s64, LONG_MAX, LONG_MIN; lia). cbn [mbind res_bind].
    rewrite !to_signed_u64 by (done || (unfold is_s64, LONG_MAX, LONG_MIN; lia)).
    do 2 f_equal. lia.
Qed.

Lemma timespec_to_ms_exact q r : - 9223372036853776 < q < 9223372036853776 -> 0 <= r < 1000 ->
  timespec_to_ms (Timespec q (r * 1000000)) = Ret (q * 1000 + r).
Proof.
  intros Hq Hr. unfold timespec_to_ms. destruct to_ms_limits as [-> ->]. cbn [ts_sec ts_nsec].
  destruct (Z.leb_spec 9223372036853776 q); [lia|]. destruct (Z.leb_spec q (- 9223372036853776)); [lia|].
  rewrite (s64_Ret (q * 1000)) by (unfold is_s64, LONG_MAX, LONG_MIN; lia). cbn [mbind res_bind].
  destruct (Z.leb_spec 0 (r * 1000000)); [|lia].
  rewrite (s64_Ret (_ + 500000)) by (unfold is_s64, LONG_MAX, LONG_MIN; lia). cbn [mbind res_bind].
  rewrite Z.quot_div_nonneg by lia. rewrite <- (Z.div_unique _ _ r 500000) by lia.
  apply s64_Ret. unfold is_s64, LONG_MAX, LONG_MIN. lia.
Qed.

(** [timespec_from_ms] is exact for times after the epoch; before it, the
    nanoseconds are those of [999 - ms] and the result is off. *)
Lemma timespec_ms_roundtrip ms : Z.abs ms < 9223372036853000000 ->
  (ts ← timespec_from_ms ms; timespec_to_ms ts) =
    Ret (if 0 <=? ms then ms else ms - 999 - 2 * Z.rem (ms - 999) 1000).
Proof.
  intros Hms. assert (is_s64 ms /\ is_s64 (ms - 999)) as [Hs Hs'] by (unfold is_s64, LONG_MIN, LONG_MAX; lia).
  rewrite timespec_from_ms_spec by done. cbn [mbind res_bind].
  assert (Hm : is_s64 (ts_ms ms)) by (unfold ts_ms; by case_match).
  destruct (ms_parts _ Hm) as (Heq & Hr & Hpos & Hneg & _ & _).
  rewrite timespec_to_ms_exact by (unfold ts_ms in *; destruct (Z.leb_spec 0 ms); lia).
  f_equal. unfold ts_ms in *. destruct (Z.leb_spec 0 ms); lia.
Qed.
