(* ===== verification/OpenflowStream.v ===== *)
(** * OpenFlow over a byte stream

    [Openflow_stream_connection] (src/lib/openflow.cc) cuts the byte stream
    of a TCP or TLS socket into OpenFlow messages and queues outgoing ones.
    [Async_stream] (src/lib/async_io.cc) is the non-blocking stream below it.
    The socket itself is outside: what each of its [read] and [write] calls
    will do is a script, an argument of the model, so that a theorem about
    all scripts is a theorem about every way a network can cut the stream. *)

From S2P Require Import Prelude Bytes Buffer OfpWire.

Open Scope Z_scope.

Definition EINTR : Z := 4.
Definition EINPROGRESS : Z := 115.
Definition EBADF : Z := 9.
Definition EAGAIN : Z := 11.
Definition EPROTO : Z := 71.
Definition EOF : Z := -1.

(** ** Sockets *)

(** What a [read] finds: bytes (at least one), the end of the file, or an
    error. *)
Inductive rd_event :=
| RAvail (b : Z) (bs : bytes)
| REof
| RError (errno : Z).

(** What a [write] does: takes up to [n] bytes, or fails. *)
Inductive wr_event :=
| WAccept (n : nat)
| WError (errno : Z).

Record stream := Stream {
  rd_script : list rd_event;
  wr_script : list wr_event;
  written : bytes;              (* what the peer will receive *)
  is_open : bool
}.

(** ** [Async_stream] with [block] false *)

Definition avail (bs : bytes) (rest : list rd_event) : list rd_event :=
  match bs with [] => rest | b :: bs => RAvail b bs :: rest end.

(** [Async_stream::read]: the value returned and the bytes stored; with no
    event left the socket has nothing to offer. *)
Fixpoint read_loop (max : Z) (script : list rd_event) : Z * bytes * list rd_event :=
  match script with
  | [] => (- EAGAIN, [], [])
  | REof :: _ => (0, [], script)
  | RError e :: rest => if e =? EINTR then read_loop max rest else (- e, [], rest)
  | RAvail b bs :: rest =>
      let n := Z.min max (Z.of_nat (length (b :: bs))) in
      (n, take (Z.to_nat n) (b :: bs), avail (drop (Z.to_nat n) (b :: bs)) rest)
  end.

Definition read (max : Z) (s : stream) : Z * bytes * stream :=
  if is_open s then
    let '(n, bs, script) := read_loop max (rd_script s) in
    (n, bs, Stream script (wr_script s) (written s) true)
  else (- EBADF, [], s).

(** [Async_stream::write_fully]: the error, [*bytes_written] and the stream. *)
Fixpoint write_loop (data : bytes) (script : list wr_event) : Z * nat * list wr_event :=
  match data with
  | [] => (0, 0%nat, script)
  | _ =>
      match script with
      | [] => (EAGAIN, 0%nat, [])
      | WError e :: rest => if e =? EINTR then write_loop data rest else (e, 0%nat, rest)
      | WAccept n :: rest =>
          let k := Nat.min n (length data) in
          if Nat.eqb k 0 then (0, 0%nat, rest)
          else let '(e, m, script') := write_loop (drop k data) rest in (e, (k + m)%nat, script')
      end
  end.

Definition write_fully (data : bytes) (s : stream) : Z * nat * stream :=
  if is_open s then
    let '(e, n, script) := write_loop data (wr_script s) in
    (e, n, Stream (rd_script s) script (written s ++ take n data) true)
  else match data with [] => (0, 0%nat, s) | _ => (EBADF, 0%nat, s) end.

Definition close (s : stream) : stream := Stream (rd_script s) (wr_script s) (written s) false.

(** ** [Openflow_stream_connection] *)

Record conn := Conn {
  strm : stream;
  rx_bytes : Z;
  rx_header : bytes;            (* an [ofp_header] *)
  rx_buf : option bytes;
  tx_buf : option buffer
}.

Definition with_strm (s : stream) (c : conn) : conn :=
  Conn s (rx_bytes c) (rx_header c) (rx_buf c) (tx_buf c).
Definition with_tx (t : option buffer) (c : conn) : conn :=
  Conn (strm c) (rx_bytes c) (rx_header c) (rx_buf c) t.
Definition with_rx (n : Z) (h : bytes) (b : option bytes) (c : conn) : conn :=
  Conn (strm c) n h b (tx_buf c).

(** The constructor: [rx_header] is not initialised. *)
Definition connection (s : stream) (uninit : bytes) : conn := Conn s 0 uninit None None.

Definition sizeof_header : Z := 8.

(** [ntohs(oh->length)] *)
Definition msg_length (oh : bytes) : Z := ntohs (get16 2 oh).

(** [send_tx_buf] *)
Definition send_tx_buf (c : conn) : res (Z * conn) :=
  match tx_buf c with
  | None => Aborted
  | Some b =>
      let '(error, bytes_written, s) := write_fully (contents b) (strm c) in
      '(_, b') ← pull (Z.of_nat bytes_written) b;
      let c := with_strm s (with_tx (Some b') c) in
      if negb (error =? 0) then
        Ret (error, if negb (error =? EAGAIN) then with_strm (close (strm c)) c else c)
      else if m_size b' =? 0 then Ret (0, with_tx None c)
      else Ret (EAGAIN, c)
  end.

(** The second half of [do_send_openflow]: the message is copied, then
    written as far as possible. *)
Definition send_new (oh : bytes) (c : conn) : res (Z * conn) :=
  let len := msg_length oh in
  if Z.of_nat (length oh) <? len then Aborted
  else
    let c := with_tx (Some (Buffer (take (Z.to_nat len) oh) 0 len)) c in
    '(error, c) ← send_tx_buf c;
    if error =? EAGAIN then Ret (0, c) else Ret (error, c).

(** [do_send_openflow], with [oh] the memory at the pointer. *)
Definition do_send_openflow (oh : bytes) (c : conn) : res (Z * conn) :=
  match tx_buf c with
  | Some _ =>
      '(error, c) ← send_tx_buf c;
      if negb (error =? 0) then Ret (error, c) else send_new oh c
  | None => send_new oh c
  end.

(** [tx_run]: what the connection's thread does when it can write again. *)
Definition tx_run (c : conn) : res conn :=
  match tx_buf c with
  | Some _ => '(_, c) ← send_tx_buf c; Ret c
  | None => Ret c
  end.

(** [do_read]: the error, the bytes stored at [p], and the connection with
    [rx_bytes] advanced. *)
Definition do_read (need_bytes : Z) (c : conn) : Z * bytes * conn :=
  let '(n, bs, s) := read need_bytes (strm c) in
  let c := with_strm s c in
  if 0 <? n then
    (if n <? need_bytes then EAGAIN else 0, bs,
     with_rx (u64 (rx_bytes c + n)) (rx_header c) (rx_buf c) c)
  else if n =? - EAGAIN then (EAGAIN, bs, c)
  else
    (if n =? 0 then (if rx_bytes c =? 0 then EOF else EPROTO) else - n, bs,
     with_strm (close (strm c)) c).

Section recv.
Variable new_uint8 : Z -> bytes.

(** The part of [do_recv_openflow] that reads the header, when it is not
    complete yet: the error, or 0 to go on. *)
Definition recv_header (c : conn) : Z * conn :=
  if rx_bytes c <? sizeof_header then
    let at_ := Z.to_nat (rx_bytes c) in
    let '(error, bs, c) := do_read (sizeof_header - rx_bytes c) c in
    let c := with_rx (rx_bytes c) (store at_ bs (rx_header c)) (rx_buf c) c in
    if negb (error =? 0) then (error, c)
    else
      let length := msg_length (rx_header c) in
      if length <? sizeof_header then (EPROTO, with_strm (close (strm c)) c)
      else (0, with_rx (rx_bytes c) (rx_header c)
                 (Some (store 0 (rx_header c) (new_uint8 length))) c)
  else (0, c).

(** [do_recv_openflow]: the error, the message if there is one. *)
Definition do_recv_openflow (c : conn) : res (Z * option bytes * conn) :=
  let '(error, c) := recv_header c in
  if negb (error =? 0) then Ret (error, None, c)
  else
    let need_bytes := u64 (msg_length (rx_header c) - rx_bytes c) in
    if negb (need_bytes =? 0) then
      match rx_buf c with
      | None => Aborted
      | Some buf =>
          let at_ := Z.to_nat (rx_bytes c) in
          let '(error, bs, c) := do_read need_bytes c in
          let c := with_rx (rx_bytes c) (rx_header c) (Some (store at_ bs buf)) c in
          if negb (error =? 0) then Ret (error, None, c)
          else Ret (0, rx_buf c, with_rx 0 (rx_header c) None c)
      end
    else Ret (0, rx_buf c, with_rx 0 (rx_header c) None c).

(** A client that keeps calling [do_recv_openflow], as long as it returns a
    message or [EAGAIN]; the messages, the last error if it stopped. *)
Fixpoint recv_calls (k : nat) (c : conn) : res (list bytes * Z * conn) :=
  match k with
  | O => Ret ([], 0, c)
  | S k =>
      '(error, m, c) ← do_recv_openflow c;
      if error =? 0 then '(ms, e, c) ← recv_calls k c; Ret (option_list m ++ ms, e, c)
      else if error =? EAGAIN then recv_calls k c
      else Ret ([], error, c)
  end.
End recv.

(** ** Receiving *)

(** The bytes a script delivers; scripts a socket can have (bytes, positive
    error numbers), and errors that do not just ask to try again. *)
Fixpoint incoming (script : list rd_event) : bytes :=
  match script with
  | [] => []
  | RAvail b bs :: rest => b :: bs ++ incoming rest
  | REof :: _ => []
  | RError _ :: rest => incoming rest
  end.

Definition good_event (ev : rd_event) : Prop :=
  match ev with
  | RAvail b bs => is_bytes (b :: bs)
  | REof => True
  | RError e => 0 < e
  end.
Abbreviation good := (Forall good_event).

Definition fatal (e : Z) : Prop := e <> EAGAIN /\ e <> EINTR.
Definition failing (script : list rd_event) (e : Z) : Prop := RError e ∈ script /\ fatal e.

(** What stays of a script while it is read. *)
Record shrinks (script script' : list rd_event) : Prop := Shrinks {
  shrinks_length : (length script' <= length script)%nat;
  shrinks_eof : REof ∈ script <-> REof ∈ script';
  shrinks_error e : RError e ∈ script' -> RError e ∈ script
}.

#[export] Instance rd_event_eq_dec : EqDecision rd_event.
Proof. solve_decision. Defined.

Lemma incoming_avail bs rest : incoming (avail bs rest) = bs ++ incoming rest.
Proof. by destruct bs. Qed.

Lemma not_avail_elem ev bs rest : (forall b l, ev <> RAvail b l) -> ev ∈ avail bs rest <-> ev ∈ rest.
Proof. intros Hev. destruct bs; simpl; [done|]. rewrite elem_of_cons. naive_solver. Qed.

Lemma shrinks_refl script : shrinks script script.
Proof. by split. Qed.

Lemma shrinks_trans s1 s2 s3 : shrinks s1 s2 -> shrinks s2 s3 -> shrinks s1 s3.
Proof. intros [? ? ?] [? ? ?]. split; [lia|naive_solver|auto]. Qed.

Lemma shrinks_cons ev script : ev <> REof -> shrinks (ev :: script) script.
Proof.
  intros. split; [simpl; lia| |by right]. rewrite elem_of_cons. naive_solver.
Qed.

(** A read gives nothing, some bytes, the end of the file, or an error. *)
Lemma read_loop_spec max script : good script -> 0 < max ->
  exists n bs script', read_loop max script = (n, bs, script') /\ good script' /\ is_bytes bs /\
    incoming script = bs ++ incoming script' /\ shrinks script script' /\
    (n = - EAGAIN /\ bs = [] /\ (script = [] \/ (length script' < length script)%nat) \/
     0 < n <= max /\ n = Z.of_nat (length bs) /\ (n < max -> (length script' < length script)%nat) \/
     n = 0 /\ bs = [] /\ incoming script = [] /\ REof ∈ script \/
     (exists e, n = - e /\ 0 < e /\ failing script e) /\ bs = []).
Proof.
  intros Hq Hmax. induction Hq as [|ev script Hev Hq IH]; simpl.
  { exists (- EAGAIN), [], []. split_and!; try done. left. auto. }
  destruct ev as [b bs| |e].
  - set (n := Z.min max (Z.of_nat (length (b :: bs)))).
    change (Z.pos (Pos.of_succ_nat (length bs))) with (Z.of_nat (length (b :: bs))). fold n.
    exists n, (take (Z.to_nat n) (b :: bs)), (avail (drop (Z.to_nat n) (b :: bs)) script).
    assert (Hn : 0 < n <= max /\ (Z.to_nat n <= length (b :: bs))%nat /\
      (n < max -> n = Z.of_nat (length (b :: bs)))) by (unfold n; simpl length; lia).
    assert (Hd : is_bytes (drop (Z.to_nat n) (b :: bs))) by (by apply Forall_drop).
    split_and!; [done| |by apply Forall_take|by rewrite incoming_avail, app_assoc, take_drop| |].
    + destruct (drop _ _); simpl; [done|]. by constructor.
    + split; [destruct (drop _ _); simpl; lia| |].
      * rewrite not_avail_elem, elem_of_cons by done. naive_solver.
      * intros e. rewrite not_avail_elem by done. by right.
    + right. left. split_and!; [lia|lia|rewrite length_take; lia|]. intros Hlt.
      rewrite drop_ge by (simpl in *; lia). simpl. lia.
  - exists 0, [], (REof :: script). split_and!; try done; [by constructor|].
    right. right. left. split_and!; try done. left.
  - simpl in Hev. assert (Hsh : shrinks (RError e :: script) script) by (by apply shrinks_cons).
    destruct (Z.eqb_spec e EINTR) as [->|Hne].
    + destruct IH as (n & bs & script' & -> & Hq' & Hby & Hin & Hshr & Hcase).
      exists n, bs, script'. split_and!; try done; [by eapply shrinks_trans|]. destruct Hshr as [Hle _ _].
      destruct Hcase as [(? & ? & ?)|[(? & ? & ?)|[(? & ? & ? & ?)|[(e & ? & ? & [? ?]) ?]]]];
        [left|right; left|right; right; left|right; right; right]; split_and!; auto; try lia; [by right|].
      exists e. split_and!; [done|done|]. split; [by right|done].
    + exists (- e), [], script. split_and!; try done.
      destruct (decide (e = EAGAIN)) as [->|].
      * left. split_and!; auto.
      * right. right. right. split; [|done]. exists e. split_and!; [done|done|]. split; [left|by split].
Qed.

(** The error at the end of a file: fatal in the middle of a message. *)
Definition eof_error (received : Z) : Z := if received =? 0 then EOF else EPROTO.

(** A stream on which reading fails with error [e]. *)
Definition broken (s : stream) (e : Z) : Prop :=
  is_open s = false /\ e = EBADF \/ 0 < e /\ failing (rd_script s) e.

Lemma do_read_spec need c : good (rd_script (strm c)) -> 0 < need ->
  0 <= rx_bytes c -> rx_bytes c + need < 2 ^ 64 ->
  exists e bs s', do_read need c = (e, bs, with_rx (rx_bytes c + Z.of_nat (length bs)) (rx_header c) (rx_buf c)
                                             (with_strm s' c)) /\
    good (rd_script s') /\ is_bytes bs /\ Z.of_nat (length bs) <= need /\
    incoming (rd_script (strm c)) = bs ++ incoming (rd_script s') /\
    shrinks (rd_script (strm c)) (rd_script s') /\ written s' = written (strm c) /\
    (e = 0 /\ is_open s' = is_open (strm c) /\ Z.of_nat (length bs) = need \/
     e = EAGAIN /\ is_open s' = is_open (strm c) /\ Z.of_nat (length bs) < need /\
       (rd_script (strm c) = [] \/ (length (rd_script s') < length (rd_script (strm c)))%nat) \/
     e = eof_error (rx_bytes c) /\ incoming (rd_script (strm c)) = [] /\ REof ∈ rd_script (strm c) \/
     broken (strm c) e).
Proof.
  intros Hq Hneed Hrx Hlt. unfold do_read, read. destruct (is_open (strm c)) eqn:Ho.
  2: { exists EBADF, [], (close (strm c)). simpl. rewrite Z.add_0_r.
       split_and!; try done; [lia|]. right. right. right. by left. }
  destruct (read_loop_spec need _ Hq Hneed) as (n & bs & sc & -> & Hq' & Hby & Hin & Hsh & Hcase).
  set (s' := Stream sc (wr_script (strm c)) (written (strm c)) true).
  destruct Hcase as [(-> & -> & Hs)|[(Hn & -> & Hs)|[(-> & -> & Hnil & Hend)|[(e & -> & He & Hf) ->]]]].
  - exists EAGAIN, [], s'. simpl. rewrite Z.add_0_r. split_and!; try done; [lia|].
    right. left. split_and!; auto; lia.
  - destruct (Z.ltb_spec 0 (Z.of_nat (length bs))); [|lia]. cbn [rx_bytes with_strm].
    unfold wrap. rewrite Z.mod_small by lia.
    destruct (Z.ltb_spec (Z.of_nat (length bs)) need).
    + exists EAGAIN, bs, s'. split_and!; try done; [lia|]. right. left. split_and!; auto; lia.
    + exists 0, bs, s'. split_and!; try done; [lia|]. left. split_and!; [done|done|lia].
  - exists (eof_error (rx_bytes c)), [], (close s'). simpl. rewrite Z.add_0_r.
    split_and!; try done; [lia|]. right. right. left. done.
  - exists e, [], (close s'). destruct (Z.ltb_spec 0 (- e)); [lia|].
    rewrite (proj2 (Z.eqb_neq (- e) (- EAGAIN))) by (destruct Hf as [_ [? _]]; lia).
    rewrite (proj2 (Z.eqb_neq (- e) 0)) by lia. rewrite Z.opp_involutive. simpl. rewrite Z.add_0_r.
    split_and!; try done; [lia|]. right. right. right. right. done.
Qed.

Lemma msg_length_app l r : (4 <= length l)%nat -> msg_length (l ++ r) = msg_length l.
Proof. intros. unfold msg_length, get16. by rewrite load_app_l by lia. Qed.

Lemma msg_length_range oh : 0 <= msg_length oh < 65536.
Proof. unfold msg_length. apply (htons_range (get16 2 oh)). Qed.

(** [part] is what has been received of the current message. *)
Record rx_state (c : conn) (part : bytes) : Prop := {
  rx_good : good (rd_script (strm c));
  rx_part : is_bytes part;
  rx_count : rx_bytes c = Z.of_nat (length part);
  rx_hdr : length (rx_header c) = 8%nat;
  rx_pre : take (length part) (rx_header c) = take 8 part;
  rx_body : (8 <= length part)%nat ->
    Z.of_nat (length part) <= msg_length part /\
    exists buf, rx_buf c = Some buf /\ Z.of_nat (length buf) = msg_length part /\
      take (length part) buf = part
}.

(** Between calls, the message is not complete. *)
Definition incomplete (part : bytes) : Prop :=
  (8 <= length part)%nat -> Z.of_nat (length part) < msg_length part.

(** A stream whose next message has an impossible length. *)
Definition malformed (whole : bytes) : Prop := (8 <= length whole)%nat /\ msg_length whole < 8.

(** What is still to be delivered: the message under way and the rest. *)
Definition ahead (c : conn) (part : bytes) : bytes := part ++ incoming (rd_script (strm c)).

(** Either the socket had nothing at all or something of its script is used up. *)
Definition progress (c c' : conn) : Prop :=
  rd_script (strm c) = [] \/ (length (rd_script (strm c')) < length (rd_script (strm c)))%nat.

(** The connection is over: the peer closed it, or sent a malformed header. *)
Definition dead (c : conn) (part : bytes) (e : Z) : Prop :=
  e = EPROTO /\ malformed (ahead c part) \/
  e = eof_error (Z.of_nat (length (ahead c part))) /\ incomplete (ahead c part) /\
    REof ∈ rd_script (strm c) \/
  broken (strm c) e.

(** What receiving leaves alone. *)
Definition carries (c c' : conn) : Prop :=
  shrinks (rd_script (strm c)) (rd_script (strm c')) /\ is_open (strm c') = is_open (strm c) /\
  written (strm c') = written (strm c) /\ tx_buf c' = tx_buf c.

Lemma carries_trans c1 c2 c3 : carries c1 c2 -> carries c2 c3 -> carries c1 c3.
Proof.
  intros (? & ? & ? & ?) (? & ? & ? & ?). split_and!; [by eapply shrinks_trans|congruence..].
Qed.

Lemma dead_fatal c part e : dead c part e -> e <> 0 /\ fatal e.
Proof.
  unfold fatal. intros [[-> _]|[[-> _]|[[_ ->]|[? [_ [? ?]]]]]]; try done; [|lia].
  unfold eof_error. by case_match.
Qed.

Section recv_facts.
Variable new_uint8 : Z -> bytes.
Hypothesis new_uint8_length : forall n, 0 <= n -> Z.of_nat (length (new_uint8 n)) = n.

Lemma header_of c part : rx_state c part -> (8 <= length part)%nat ->
  rx_header c = take 8 part /\ msg_length (rx_header c) = msg_length part.
Proof.
  intros Hst Hlen. assert (Heq : rx_header c = take 8 part).
  { rewrite <- (rx_pre _ _ Hst). symmetry. apply firstn_all2. rewrite (rx_hdr _ _ Hst). lia. }
  split; [done|]. rewrite Heq. rewrite <- (take_drop 8 part) at 2. rewrite msg_length_app; [done|].
  rewrite length_take. lia.
Qed.

Lemma recv_header_spec c part : rx_state c part -> incomplete part ->
  exists e c', recv_header new_uint8 c = (e, c') /\
    ((exists part', rx_state c' part' /\ ahead c' part' = ahead c part /\ carries c c' /\
        (e = EAGAIN /\ incomplete part' /\ progress c c' \/ e = 0 /\ (8 <= length part')%nat)) \/
     dead c part e).
Proof.
  intros Hst Hinc. pose proof (rx_count _ _ Hst) as Hn. unfold recv_header, sizeof_header.
  destruct (Z.ltb_spec (rx_bytes c) 8) as [Hlt|Hge].
  2: { exists 0, c. split; [done|]. left. exists part.
       split_and!; try done. right. split; [done|lia]. }
  destruct (do_read_spec (8 - rx_bytes c) c (rx_good _ _ Hst) ltac:(lia) ltac:(lia)
    ltac:(lia)) as (e & bs & s' & -> & Hq & Hby & Hbs & Hin & Hsh & Hwr & Hcase).
  cbn [rx_header rx_bytes rx_buf with_rx with_strm strm]. rewrite Hn, Nat2Z.id.
  set (h := store (length part) bs (rx_header c)).
  assert (Hh : length h = 8%nat)
    by (unfold h; rewrite length_store; [apply (rx_hdr _ _ Hst)|rewrite (rx_hdr _ _ Hst); lia]).
  assert (Hpre : take (length (part ++ bs)) h = take 8 (part ++ bs)).
  { rewrite length_app. unfold h. rewrite take_store by (rewrite (rx_hdr _ _ Hst); lia).
    rewrite (rx_pre _ _ Hst), !firstn_all2; [done|rewrite ?length_app; lia..]. }
  assert (Hwhole : (part ++ bs) ++ incoming (rd_script s') = ahead c part)
    by (unfold ahead; by rewrite Hin, app_assoc).
  assert (Hpb : is_bytes (part ++ bs)) by (apply Forall_app; split; [apply Hst|done]).
  destruct Hcase as [(-> & Ho & Hlen)|[(-> & Ho & Hlen & Hprog)|Hd]].
  - assert (H8 : length (part ++ bs) = 8%nat) by (rewrite length_app; lia).
    assert (Heq : h = part ++ bs).
    { rewrite (firstn_all2 h), firstn_all2 in Hpre by lia. done. }
    assert (Hml : msg_length (ahead c part) = msg_length (part ++ bs))
      by (rewrite <- Hwhole; apply msg_length_app; lia).
    cbn [Z.eqb negb]. rewrite Heq. destruct (Z.ltb_spec (msg_length (part ++ bs)) 8).
    { eexists EPROTO, _. split; [reflexivity|]. right. left. split; [done|].
      split; [|lia]. rewrite <- Hwhole, length_app. lia. }
    eexists 0, _. split; [reflexivity|]. left. exists (part ++ bs).
    pose proof (new_uint8_length (msg_length (part ++ bs)) ltac:(lia)) as Hnew.
    split_and!; [constructor|done|done|right; split; [done|lia]];
      cbn [strm rx_bytes rx_header rx_buf with_rx with_strm]; rewrite ?length_app in *; try done; try lia.
    + by rewrite !firstn_all2 by (rewrite ?length_app; lia).
    + intros _. split; [lia|]. eexists. split_and!; [done|rewrite length_store; rewrite ?length_app in *; lia|].
      rewrite <- length_app. apply (take_store 0 (part ++ bs)). lia.
  - eexists EAGAIN, _. split; [reflexivity|]. left. exists (part ++ bs).
    assert ((length (part ++ bs) < 8)%nat) by (rewrite length_app; lia).
    split_and!; [constructor|done|done|left; split_and!; [done|unfold incomplete; lia|done]];
      cbn [strm rx_bytes rx_header rx_buf with_rx with_strm]; try done; rewrite ?length_app in *; lia.
  - assert (Hdead : dead c part e).
    { right. destruct Hd as [(-> & Hnil & Hend)|?]; [left|by right].
      unfold ahead. rewrite Hnil, app_nil_r, Hn. done. }
    destruct (dead_fatal _ _ _ Hdead) as [He _]. rewrite (proj2 (Z.eqb_neq _ 0) He).
    eexists _, _. split; [reflexivity|]. by right.
Qed.

Lemma rx_idle c : good (rd_script (strm c)) -> length (rx_header c) = 8%nat ->
  rx_state (with_rx 0 (rx_header c) None c) [].
Proof. intros. constructor; simpl; try done. lia. Qed.

(** One call: [EAGAIN] with more of the message received, or the message, or
    the end of the connection. *)
Lemma do_recv_spec c part : rx_state c part -> incomplete part ->
  exists e m c', do_recv_openflow new_uint8 c = Ret (e, m, c') /\
    ((exists part', rx_state c' part' /\ incomplete part' /\ carries c c' /\
       (e = EAGAIN /\ m = None /\ ahead c' part' = ahead c part /\ progress c c' \/
        e = 0 /\ part' = [] /\ exists msg, m = Some msg /\ (8 <= length msg)%nat /\ is_bytes msg /\
          Z.of_nat (length msg) = msg_length msg /\ ahead c part = msg ++ ahead c' [])) \/
     m = None /\ dead c part e).
Proof.
  intros Hst Hinc. unfold do_recv_openflow.
  destruct (recv_header_spec c part Hst Hinc) as (e & c1 & -> & [(p1 & Hst1 & Hah & Hcar & Hcase)|Hd]).
  2: { destruct (dead_fatal _ _ _ Hd) as [He _]. rewrite (proj2 (Z.eqb_neq _ 0) He).
       eexists e, None, c1. split; [done|]. by right. }
  destruct Hcase as [(-> & Hinc1 & Hprog)|[-> H8]]; cbn [Z.eqb negb].
  { eexists EAGAIN, None, c1. split; [done|]. left. exists p1. split_and!; try done. by left. }
  destruct (header_of _ _ Hst1 H8) as [_ ->]. rewrite (rx_count _ _ Hst1).
  destruct (rx_body _ _ Hst1 H8) as (Hmax & buf & Hbuf & Hbl & Hpre).
  pose proof (msg_length_range p1). unfold wrap. rewrite Z.mod_small by lia.
  rewrite Hbuf. destruct (Z.eqb_spec (msg_length p1 - Z.of_nat (length p1)) 0) as [Heq|Hne]; cbn [negb].
  { assert (buf = p1) as -> by (rewrite <- Hpre; symmetry; apply firstn_all2; lia).
    eexists 0, _, _. split; [reflexivity|]. left. exists [].
    split_and!; [apply rx_idle; apply Hst1|unfold incomplete; simpl; lia|done|].
    right. split_and!; try done. exists p1. split_and!; try done. apply Hst1. }
  destruct (do_read_spec (msg_length p1 - Z.of_nat (length p1)) c1 (rx_good _ _ Hst1)
    ltac:(lia) ltac:(rewrite (rx_count _ _ Hst1); lia) ltac:(rewrite (rx_count _ _ Hst1); lia))
    as (e & bs & s' & -> & Hq & Hby & Hbs & Hin & Hsh & Hwr & Hcase).
  cbn [rx_header rx_bytes rx_buf with_rx with_strm strm]. rewrite Nat2Z.id.
  assert (Hbl' : length (store (length p1) bs buf) = length buf) by (apply length_store; lia).
  assert (Hpre' : take (length (p1 ++ bs)) (store (length p1) bs buf) = p1 ++ bs)
    by (rewrite length_app, take_store by lia; by rewrite Hpre).
  assert (Hml : msg_length (p1 ++ bs) = msg_length p1) by (apply msg_length_app; lia).
  assert (Hwhole : (p1 ++ bs) ++ incoming (rd_script s') = ahead c part)
    by (rewrite <- Hah; unfold ahead; by rewrite Hin, app_assoc).
  assert (Hpb : is_bytes (p1 ++ bs)) by (apply Forall_app; split; [apply Hst1|done]).
  destruct Hcase as [(-> & Ho & Hlen)|[(-> & Ho & Hlen & Hprog)|Hd]]; cbn [Z.eqb negb].
  - eexists 0, _, _. split; [reflexivity|]. left. exists [].
    split_and!; [|unfold incomplete; simpl; lia|eapply carries_trans; [done|by split_and!]|].
    + constructor; simpl; try done; [apply Hst1|lia].
    + right. split_and!; try done. exists (p1 ++ bs). rewrite Hml, length_app. split_and!; [|lia|done|lia|].
      * f_equal. rewrite <- Hpre'. symmetry. apply firstn_all2. rewrite length_app. lia.
      * by rewrite <- Hwhole.
  - eexists EAGAIN, None, _. split; [reflexivity|]. left. exists (p1 ++ bs).
    split_and!; [| |eapply carries_trans; [done|by split_and!]|].
    + constructor; cbn [strm rx_bytes rx_header rx_buf with_rx with_strm]; try done.
      * rewrite (rx_count _ _ Hst1), length_app. lia.
      * apply Hst1.
      * destruct (header_of _ _ Hst1 H8) as [-> _]. rewrite firstn_all2.
        { by rewrite take_app_le by lia. } rewrite length_take, length_app. lia.
      * intros _. rewrite Hml, length_app. split; [lia|]. exists (store (length p1) bs buf).
        rewrite <- length_app. split_and!; [done|lia|done].
    + unfold incomplete. rewrite Hml, length_app. lia.
    + left. split_and!; try done. unfold progress in *. simpl. destruct Hcar as [[Hle _ _] _].
      destruct Hprog as [Hp|]; [|right; lia]. rewrite Hp in *. simpl in *. destruct Hsh as [Hle' _ _].
      destruct (rd_script (strm c)); [by left|right; simpl in *; lia].
  - assert (Hdead : dead c part e).
    { right. destruct Hcar as ([_ Hend Herr] & Ho & _). destruct Hd as [(-> & Hnil & Heof)|Hbr].
      - left. rewrite <- Hah. unfold ahead. rewrite Hnil, app_nil_r, (rx_count _ _ Hst1).
        split_and!; [done| |by apply Hend]. intros _. lia.
      - right. destruct Hbr as [[? ->]|(? & ? & ?)]; [left; split; [congruence|done]|right].
        split; [done|]. split; [by apply Herr|done]. }
    destruct (dead_fatal _ _ _ Hdead) as [He _]. rewrite (proj2 (Z.eqb_neq _ 0) He).
    eexists _, None, _. split; [reflexivity|]. by right.
Qed.

(** A message: at least a header, as long as its length field says. *)
Definition message (m : bytes) : Prop := (8 <= length m)%nat /\ Z.of_nat (length m) = msg_length m.

(** Messages on a stream are found in only one way. *)
Lemma frame_unique f w msg w' : message f -> (8 <= length msg)%nat -> Z.of_nat (length msg) = msg_length msg ->
  f ++ w = msg ++ w' -> f = msg /\ w = w'.
Proof.
  intros [H8 Hf] H8' Hm Heq. apply app_inj_1; [|done].
  assert (msg_length f = msg_length msg); [|lia].
  rewrite <- (msg_length_app f w), <- (msg_length_app msg w') by lia. by rewrite Heq.
Qed.

(** What is left on the stream after the last whole message. *)
Definition leftover (rest : bytes) : Prop := incomplete rest \/ malformed rest.

(** The error a connection ends with, if it ends. *)
Definition final_error (rest : bytes) : Z :=
  if decide (malformed rest) then EPROTO else eof_error (Z.of_nat (length rest)).

Lemma frame_not_leftover f w : message f -> ~ leftover (f ++ w).
Proof.
  intros [H8 Hml] [Hi|[_ Hm]].
  - unfold incomplete in Hi. rewrite msg_length_app, length_app in Hi by lia. lia.
  - rewrite msg_length_app in Hm by lia. lia.
Qed.

(** A stream that is open and only ever fails by asking to try again. *)
Definition reliable (c : conn) : Prop :=
  is_open (strm c) = true /\ forall e, RError e ∈ rd_script (strm c) -> e = EAGAIN \/ e = EINTR.

Lemma reliable_carries c c' : carries c c' -> reliable c -> reliable c'.
Proof. intros ([_ _ Herr] & Ho & _) [? Hr]. split; [congruence|auto]. Qed.

Lemma dead_final c part frames rest e : reliable c -> Forall message frames -> leftover rest ->
  ahead c part = concat frames ++ rest -> dead c part e ->
  frames = [] /\ e = final_error rest /\ (malformed rest \/ REof ∈ rd_script (strm c)).
Proof.
  intros [Ho Hrel] Hf Hr Hah Hd.
  assert (Hnb : ~ broken (strm c) e).
  { intros [[? _]|(_ & Hin & [? ?])]; [congruence|]. destruct (Hrel _ Hin); done. }
  destruct Hf as [|f fs Hm _].
  2: { simpl in Hah. rewrite <- app_assoc in Hah. destruct (frame_not_leftover f (concat fs ++ rest) Hm).
       rewrite <- Hah. destruct Hd as [[_ ?]|[(_ & ? & _)|?]]; [by right|by left|done]. }
  simpl in Hah. unfold final_error. unfold dead in Hd. rewrite Hah in Hd.
  split; [done|]. destruct Hd as [[-> ?]|[(-> & Hi & ?)|?]]; [| |done].
  - rewrite decide_True by done. auto.
  - rewrite decide_False; [auto|]. intros [H8 Hm]. specialize (Hi H8). lia.
Qed.

Lemma recv_calls_spec k c part frames rest :
  rx_state c part -> incomplete part -> reliable c -> Forall message frames -> leftover rest ->
  ahead c part = concat frames ++ rest ->
  exists ms err c', recv_calls new_uint8 k c = Ret (ms, err, c') /\ ms `prefix_of` frames /\
    (err <> 0 -> ms = frames /\ err = final_error rest /\ (malformed rest \/ REof ∈ rd_script (strm c))) /\
    ((length (rd_script (strm c)) + length frames <= k)%nat ->
       ms = frames /\ (REof ∈ rd_script (strm c) -> err <> 0)).
Proof.
  revert c part frames. induction k as [|k IH]; intros c part frames Hst Hinc Hrel Hf Hr Hah; simpl.
  { exists [], 0, c. split_and!; [done|apply prefix_nil|done|]. intros Hk.
    destruct frames; [|simpl in Hk; lia]. split; [done|]. simpl in Hk.
    destruct (rd_script (strm c)); [by intros ?%elem_of_nil|simpl in Hk; lia]. }
  destruct (do_recv_spec c part Hst Hinc)
    as (e & m & c' & -> & [(part' & Hst' & Hinc' & Hcar & Hcase)|[-> Hd]]); cbn [mbind res_bind].
  2: { destruct (dead_fatal _ _ _ Hd) as [He [Hne _]].
       rewrite (proj2 (Z.eqb_neq _ 0) He), (proj2 (Z.eqb_neq _ EAGAIN) Hne).
       destruct (dead_final _ _ _ _ _ Hrel Hf Hr Hah Hd) as (-> & -> & Hwhy).
       exists [], (final_error rest), c'. by split_and!. }
  pose proof (reliable_carries _ _ Hcar Hrel) as Hrel'. destruct Hcar as ([Hle Hend _] & _).
  destruct Hcase as [(-> & -> & Heq & Hprog)|(-> & -> & msg & -> & H8 & _ & Hml & Heq)].
  - change (EAGAIN =? 0) with false. change (EAGAIN =? EAGAIN) with true. cbn [Z.eqb].
    destruct (IH c' part' frames) as (ms & err & c2 & -> & Hpre & Herr & Hall); try done; [by rewrite Heq|].
    exists ms, err, c2. split_and!; try done.
    { intros Hz. destruct (Herr Hz) as (? & ? & Hw). split_and!; try done. by rewrite Hend. }
    intros Hk. destruct Hprog as [Hs|]; [|rewrite Hend; apply Hall; lia].
    split; [|rewrite Hs; by intros ?%elem_of_nil].
    destruct Hf as [|f fs Hm _]; [by apply prefix_nil_inv in Hpre|]. exfalso.
    unfold ahead in Hah. rewrite Hs in Hah. simpl in Hah. rewrite app_nil_r, <- app_assoc in Hah.
    apply (frame_not_leftover f (concat fs ++ rest) Hm). rewrite <- Hah. by left.
  - cbn [Z.eqb]. destruct Hf as [|f fs Hm Hfs].
    { exfalso. simpl in Hah. destruct (frame_not_leftover msg (ahead c' [])); [by split|].
      by rewrite <- Heq, Hah. }
    simpl in Hah. rewrite Heq, <- app_assoc in Hah. symmetry in Hah.
    apply frame_unique in Hah as [-> Hah]; try done. symmetry in Hah.
    destruct (IH c' [] fs) as (ms & err & c2 & -> & Hpre & Herr & Hall); try done.
    exists (msg :: ms), err, c2. cbn [mbind res_bind option_list app].
    split_and!; [done|by apply prefix_cons| |].
    + intros Hz. destruct (Herr Hz) as (-> & -> & Hw). split_and!; try done. by rewrite Hend.
    + simpl. intros Hk. rewrite Hend. destruct Hall as [-> ?]; [lia|]. done.
Qed.
End recv_facts.

(** ** Sending *)

(** What [do_send_openflow] is called with: memory that holds the message. *)
Definition sendable (oh : bytes) : Prop := is_bytes oh /\ 8 <= msg_length oh <= Z.of_nat (length oh).
Definition the_message (oh : bytes) : bytes := take (Z.to_nat (msg_length oh)) oh.

(** What has been taken from senders but not written yet. *)
Definition pending (c : conn) : bytes :=
  match tx_buf c with Some b => contents b | None => [] end.

(** A queued message is never empty, except while it is being queued. *)
Definition tx_ok (c : conn) : Prop :=
  match tx_buf c with
  | Some b => buffer_ok b /\ 0 < m_size b
  | None => is_open (strm c) = true
  end.

(** Sending as the connection's users and its thread do it: the messages
    for which [do_send_openflow] returned 0, and the others' errors. *)
Inductive tx_op := Send (oh : bytes) | Run.

Fixpoint tx_ops (ops : list tx_op) (c : conn) : res (list bytes * list (bytes * Z) * conn) :=
  match ops with
  | [] => Ret ([], [], c)
  | Run :: ops => c ← tx_run c; tx_ops ops c
  | Send oh :: ops =>
      '(e, c) ← do_send_openflow oh c;
      '(acc, rej, c) ← tx_ops ops c;
      if e =? 0 then Ret (the_message oh :: acc, rej, c) else Ret (acc, (the_message oh, e) :: rej, c)
  end.

Lemma write_loop_spec data script : exists e n script',
  write_loop data script = (e, n, script') /\ (n <= length data)%nat /\
  (e <> 0 -> (n < length data)%nat) /\ e <> EINTR.
Proof.
  revert data. induction script as [|ev script IH]; intros data;
    (destruct data as [|x data]; [by eexists 0, 0%nat, _|]).
  { exists EAGAIN, 0%nat, []. split_and!; [done|simpl; lia|simpl; lia|done]. }
  change (write_loop (x :: data) (ev :: script)) with
    (match ev with
     | WError e => if e =? EINTR then write_loop (x :: data) script else (e, 0%nat, script)
     | WAccept n =>
          let k := Nat.min n (length (x :: data)) in
          if Nat.eqb k 0 then (0, 0%nat, script)
          else let '(e, m, script') := write_loop (drop k (x :: data)) script in (e, (k + m)%nat, script')
     end).
  destruct ev as [n|e].
  - cbv zeta. destruct (Nat.eqb_spec (Nat.min n (length (x :: data))) 0).
    { exists 0, 0%nat, script. split_and!; [done|lia|done || lia|done]. }
    destruct (IH (drop (Nat.min n (length (x :: data))) (x :: data))) as (e & m & s' & -> & Hle & Hlt & Hni).
    rewrite length_drop in *. exists e, (Nat.min n (length (x :: data)) + m)%nat, s'. split_and!; [done|lia|lia|done].
  - destruct (Z.eqb_spec e EINTR); [apply IH|]. exists e, 0%nat, script. split_and!; [done|lia|simpl; lia|done].
Qed.

Lemma write_fully_spec data s : exists e n s',
  write_fully data s = (e, n, s') /\ e <> EINTR /\ rd_script s' = rd_script s /\
  (n <= length data)%nat /\ (e <> 0 -> (n < length data)%nat) /\
  written s' = written s ++ take n data /\ is_open s' = is_open s /\
  (is_open s = false -> data <> [] -> e = EBADF /\ n = 0%nat).
Proof.
  unfold write_fully. destruct (is_open s) eqn:Ho.
  - destruct (write_loop_spec data (wr_script s)) as (e & n & sc & -> & Hle & Hlt & Hni).
    by eexists e, n, _.
  - destruct data as [|x data]; [exists 0, 0%nat, s|exists EBADF, 0%nat, s];
      (split_and!; [done|done|done|simpl; lia|simpl; (lia || done)|by rewrite app_nil_r|done|done]).
Qed.


(** Sending leaves what has been received alone. *)
Definition rx_same (c c' : conn) : Prop :=
  rd_script (strm c') = rd_script (strm c) /\ rx_bytes c' = rx_bytes c /\
  rx_header c' = rx_header c /\ rx_buf c' = rx_buf c.

Lemma rx_same_trans c1 c2 c3 : rx_same c1 c2 -> rx_same c2 c3 -> rx_same c1 c3.
Proof. unfold rx_same. intros (-> & -> & -> & ->) (-> & -> & -> & ->). done. Qed.

Lemma rx_same_state c c' part : rx_same c c' -> rx_state c part -> rx_state c' part.
Proof. intros (Hs & Hn & Hh & Hb) [? ? ? ? ? ?]. by constructor; rewrite ?Hs, ?Hn, ?Hh, ?Hb. Qed.

(** [send_tx_buf] moves bytes from the queue to the stream; the queue is empty
    afterwards or a message is still under way. *)
Lemma send_tx_buf_spec c b : tx_buf c = Some b -> buffer_ok b ->
  (m_size b = 0 -> is_open (strm c) = true) ->
  exists e c', send_tx_buf c = Ret (e, c') /\ tx_ok c' /\ (e = 0 -> tx_buf c' = None) /\
    (e <> 0 -> is_Some (tx_buf c')) /\
    written (strm c') ++ pending c' = written (strm c) ++ contents b /\
    is_open (strm c') = is_open (strm c) && ((e =? 0) || (e =? EAGAIN)) /\ e <> EINTR /\ rx_same c c'.
Proof.
  intros Hb Hok Hop. unfold send_tx_buf. rewrite Hb. pose proof (length_contents b Hok) as Hlen.
  pose proof (ok_size b Hok) as Hsz.
  destruct (write_fully_spec (contents b) (strm c)) as (e & n & s' & -> & Hni & Hrd & Hle & Hlt & Hw & Ho & Hcl).
  destruct (pull_spec (Z.of_nat n) b Hok ltac:(lia)) as (b' & -> & Hok' & _ & Hs & Hc). cbn [mbind res_bind].
  rewrite Nat2Z.id in Hc.
  assert (Hmove : (written (strm c) ++ take n (contents b)) ++ contents b' = written (strm c) ++ contents b)
    by (by rewrite Hc, <- app_assoc, take_drop).
  destruct (Z.eqb_spec e 0) as [->|He]; cbn [negb].
  - assert (Hopen : m_size b <> 0 -> is_open (strm c) = true).
    { intros Hne. destruct (is_open (strm c)) eqn:E; [done|]. destruct (Hcl eq_refl) as [? _]; [|done].
      intros Hnil. rewrite Hnil in Hlen. simpl in Hlen. lia. }
    assert (Hopen' : is_open (strm c) = true) by (destruct (decide (m_size b = 0)); auto).
    destruct (Z.eqb_spec (m_size b') 0) as [Hz|Hz].
    + eexists 0, _. split; [reflexivity|]. unfold tx_ok, pending. simpl. rewrite Ho, Hopen', Hw.
      split_and!; try done. rewrite app_nil_r. apply (app_inv_tail (contents b')). rewrite Hmove.
      assert (contents b' = []) as -> by (apply nil_length_inv; rewrite length_contents by done; lia).
      by rewrite app_nil_r.
    + eexists EAGAIN, _. split; [reflexivity|]. unfold tx_ok, pending. simpl. rewrite Ho, Hw, andb_true_r.
      split_and!; try done. pose proof (ok_size b' Hok'). lia.
  - specialize (Hlt He). eexists e, _. split; [reflexivity|]. unfold tx_ok, pending.
    destruct (Z.eqb_spec e EAGAIN) as [->|Hne]; simpl; rewrite ?Ho, Hw;
      (split_and!; try done; try lia); by rewrite ?andb_true_r, ?andb_false_r.
Qed.

(** A sender's message is either queued whole or not at all, unless the
    stream breaks while it is written. *)
Lemma send_new_spec oh c : tx_buf c = None -> sendable oh ->
  exists e c', send_new oh c = Ret (e, c') /\ tx_ok c' /\ e <> EAGAIN /\
    written (strm c') ++ pending c' = written (strm c) ++ the_message oh /\
    is_open (strm c') = is_open (strm c) && (e =? 0) /\ e <> EINTR /\ rx_same c c'.
Proof.
  intros Htx [Hb Hlen]. pose proof (msg_length_range oh) as Hr. unfold send_new.
  destruct (Z.ltb_spec (Z.of_nat (length oh)) (msg_length oh)); [lia|].
  fold (the_message oh). set (b := Buffer (the_message oh) 0 (msg_length oh)).
  assert (Hl : length (the_message oh) = Z.to_nat (msg_length oh)) by (unfold the_message; rewrite length_take; lia).
  assert (Hok : buffer_ok b).
  { split; simpl; try lia; unfold capacity; simpl; rewrite ?Hl; try lia. by apply Forall_take. }
  destruct (send_tx_buf_spec (with_tx (Some b) c) b eq_refl Hok ltac:(simpl; lia))
    as (e & c' & -> & Htx' & _ & _ & Hw & Ho & Hni & Hrx). cbn [mbind res_bind].
  assert (Hcon : contents b = the_message oh)
    by (unfold contents, load; simpl; rewrite drop_0; apply firstn_all2; lia).
  rewrite Hcon in Hw. simpl in Hw, Ho.
  destruct (Z.eqb_spec e EAGAIN) as [->|Hne]; eexists _, c'; (split; [reflexivity|]);
    (split_and!; try done; try apply Hrx); rewrite Ho; f_equal. by rewrite orb_false_r.
Qed.

(** What a call of [do_send_openflow] or a run of the thread does to the
    bytes in the pipe: [more] is added to them. *)
Definition tx_moves (c c' : conn) (more : bytes) : Prop :=
  tx_ok c' /\ written (strm c') ++ pending c' = written (strm c) ++ pending c ++ more /\
  (is_open (strm c) = false -> is_open (strm c') = false /\ more = []).

Lemma flush_spec c b : tx_ok c -> tx_buf c = Some b ->
  exists e c', send_tx_buf c = Ret (e, c') /\ tx_moves c c' [] /\ (e = 0 <-> tx_buf c' = None) /\
    e <> EINTR /\ rx_same c c'.
Proof.
  intros Hok Hb. unfold tx_ok in Hok. rewrite Hb in Hok. destruct Hok as [Hbok Hsz].
  destruct (send_tx_buf_spec c b Hb Hbok ltac:(lia)) as (e & c' & -> & Hok' & Hz & Hnz & Hw & Ho & Hni & Hrx).
  exists e, c'. split; [done|]. unfold tx_moves. split_and!; try done; try apply Hrx.
  - rewrite app_nil_r, Hw. unfold pending at 1. by rewrite Hb.
  - intros Hcl. by rewrite Ho, Hcl.
  - split; [done|]. intros Hn. destruct (decide (e = 0)); [done|].
    destruct (Hnz ltac:(done)) as [? Hs]. by rewrite Hn in Hs.
Qed.

Lemma do_send_spec oh c : tx_ok c -> sendable oh ->
  exists e c', do_send_openflow oh c = Ret (e, c') /\ e <> EINTR /\ rx_same c c' /\
    (e = 0 /\ tx_moves c c' (the_message oh) /\ is_open (strm c) = true \/
     e <> 0 /\ (tx_moves c c' [] \/ tx_moves c c' (the_message oh) /\ is_open (strm c') = false)).
Proof.
  intros Hok Hoh. unfold do_send_openflow.
  assert (Hnew : forall c1, tx_buf c1 = None -> tx_moves c c1 [] -> rx_same c c1 -> exists e c',
    send_new oh c1 = Ret (e, c') /\ e <> EINTR /\ rx_same c c' /\
    (e = 0 /\ tx_moves c c' (the_message oh) /\ is_open (strm c) = true \/
     e <> 0 /\ (tx_moves c c' [] \/ tx_moves c c' (the_message oh) /\ is_open (strm c') = false))).
  { intros c1 Hn (Hok1 & Hw1 & Hcl1) Hrx1. unfold tx_ok in Hok1. rewrite Hn in Hok1.
    assert (Hop : is_open (strm c) = true)
      by (destruct (is_open (strm c)); [done|destruct (Hcl1 eq_refl); congruence]).
    destruct (send_new_spec oh c1 Hn Hoh) as (e & c' & -> & Hok' & _ & Hw & Ho & Hni & Hrx).
    exists e, c'. split; [done|]. split; [done|]. split; [by eapply rx_same_trans|]. assert (Hmv : tx_moves c c' (the_message oh)).
    { split_and!; [done| |by rewrite Hop]. rewrite Hw, app_assoc. f_equal.
      unfold pending in Hw1 at 1. by rewrite Hn, !app_nil_r in Hw1. }
    destruct (Z.eqb_spec e 0) as [->|He]; [by left|]. right. split; [done|]. right. split; [done|].
    by rewrite Ho, andb_false_r. }
  destruct (tx_buf c) as [b|] eqn:Hb.
  - destruct (flush_spec c b Hok Hb) as (e & c1 & -> & Hmv & Hiff & Hni & Hrx). cbn [mbind res_bind].
    destruct (Z.eqb_spec e 0) as [->|He]; cbn [negb]; [apply Hnew; naive_solver|].
    exists e, c1. split_and!; try done; try apply Hrx. right. by split; [|left].
  - apply Hnew; [done| |done]. split_and!; [done|by rewrite app_nil_r|done].
Qed.

Lemma tx_ops_spec ops c : tx_ok c -> Forall (fun o => match o with Send oh => sendable oh | Run => True end) ops ->
  exists acc rej c' broken, tx_ops ops c = Ret (acc, rej, c') /\ tx_ok c' /\
    written (strm c') ++ pending c' = written (strm c) ++ pending c ++ concat acc ++ broken /\
    (is_open (strm c') = true -> broken = []) /\
    (is_open (strm c) = false -> is_open (strm c') = false /\ acc = [] /\ broken = []) /\
    (broken = [] \/ broken ∈ rej.*1).
Proof.
  intros Hok Hops. revert c Hok. induction Hops as [|o ops Ho Hops IH]; intros c Hok.
  { exists [], [], c, []. split_and!; try done; [by rewrite !app_nil_r|by left]. }
  destruct o as [oh|]; simpl.
  - destruct (do_send_spec oh c Hok Ho) as (e & c1 & -> & _ & _ & Hcase). cbn [mbind res_bind].
    assert (Hok1 : tx_ok c1) by (destruct Hcase as [(_ & [? _] & _)|(_ & [[? _]|[[? _] _]])]; done).
    destruct (IH c1 Hok1) as (acc & rej & c' & br & -> & Hok' & Hw & Hop & Hcl & Hbr). cbn [mbind res_bind].
    destruct Hcase as [(-> & (_ & Hw1 & _) & Hopen)|(He & Hcase)].
    + exists (the_message oh :: acc), rej, c', br. split_and!; try done; [|by rewrite Hopen].
      simpl. by rewrite Hw, app_assoc, Hw1, <- !app_assoc.
    + destruct (Z.eqb_spec e 0); [done|]. destruct Hcase as [(_ & Hw1 & Hc1)|[(_ & Hw1 & Hc1) Hclosed]].
      * exists acc, ((the_message oh, e) :: rej), c', br. split_and!; try done.
        -- by rewrite Hw, app_assoc, Hw1, app_nil_r, <- !app_assoc.
        -- intros Hc. apply Hcl. by apply Hc1.
        -- destruct Hbr as [|]; [by left|]. right. by right.
      * destruct (Hcl Hclosed) as (Hc' & -> & ->). exists [], ((the_message oh, e) :: rej), c', (the_message oh).
        split_and!; try done.
        -- rewrite Hw. simpl. by rewrite app_nil_r, Hw1.
        -- by rewrite Hc'.
        -- intros Hc. destruct (Hc1 Hc) as [_ Hm]. by rewrite Hm.
        -- right. left.
  - unfold tx_run. destruct (tx_buf c) as [b|] eqn:Hb.
    + destruct (flush_spec c b Hok Hb) as (e & c1 & -> & (Hok1 & Hw1 & Hc1) & _ & _ & _). cbn [mbind res_bind].
      destruct (IH c1 Hok1) as (acc & rej & c' & br & -> & Hok' & Hw & Hop & Hcl & Hbr).
      exists acc, rej, c', br. split_and!; try done.
      * by rewrite Hw, app_assoc, Hw1, app_nil_r, <- !app_assoc.
      * intros Hc. apply Hcl. by apply Hc1.
    + cbn [mbind res_bind]. apply (IH c Hok).
Qed.
