(* ===== verification/OpenflowConnection.v ===== *)
(** * The OpenFlow connection state machine

    [Openflow_connection] (src/lib/openflow.cc, src/include/openflow.hh) is an
    abstract class: its [do_connect], [do_send_openflow] and
    [do_recv_openflow] are the interface [Transport] here, whose laws say what
    the state machine relies on.  The methods are modelled for callers that do
    not block ([block] false); the clock ([do_gettimeofday]) and the
    transaction ids ([get_xid]) are arguments. *)

From stdpp Require Import strings.
From S2P Require Import Prelude Bytes Buffer OfpWire OfpCore Timeval OpenflowStream.

Open Scope Z_scope.

Definition OFPT_ECHO_REQUEST : Z := 2.
Definition OFP_EXPERIMENTAL_VERSION : Z := 0x80.
Definition probe_interval : Z := 15.
Definition OFPET_HELLO_FAILED : Z := 0.
Definition OFPHFC_INCOMPATIBLE : Z := 0.

(** ** Transports *)

(** The virtual methods, and what has gone through them so far: the messages
    accepted for sending and the messages handed out. *)
Class Transport (T : Type) := {
  do_connect : T -> res (Z * T);
  do_send : bytes -> T -> res (Z * T);
  do_recv : T -> res (Z * option bytes * T);
  do_close : T -> T;
  sent : T -> list bytes;
  received : T -> list bytes
}.

Class TransportLaws (T : Type) `{Transport T} := {
  tr_ok : T -> Prop;
  do_connect_law t : tr_ok t -> exists e t', do_connect t = Ret (e, t') /\ tr_ok t' /\
    e <> EINPROGRESS /\ e <> EINTR /\ sent t' = sent t /\ received t' = received t;
  do_send_law m t : tr_ok t -> sendable m -> exists e t', do_send m t = Ret (e, t') /\ tr_ok t' /\
    e <> EINTR /\ received t' = received t /\
    sent t' = sent t ++ (if e =? 0 then [the_message m] else []);
  do_recv_law t : tr_ok t -> exists e m t', do_recv t = Ret (e, m, t') /\ e <> EINTR /\ sent t' = sent t /\
    (e = 0 /\ tr_ok t' /\ (exists msg, m = Some msg /\ message msg /\ is_bytes msg /\
                           received t' = received t ++ [msg]) \/
     e <> 0 /\ m = None /\ received t' = received t /\ (e = EAGAIN -> tr_ok t'));
  do_close_law t : sent (do_close t) = sent t /\ received (do_close t) = received t
}.

(** ** Messages *)

(** An [ofp_header] filled in by the four assignments the code makes. *)
Definition header_msg (type len xid : Z) : bytes :=
  put32 4 xid (put16 2 (htons len) (put8 1 type (put8 0 OFP_VERSION (replicate 8 0)))).

Definition hello_msg (xid : Z) : bytes := header_msg OFPT_HELLO 8 xid.
Definition echo_request_msg (xid : Z) : bytes := header_msg OFPT_ECHO_REQUEST 8 xid.

Definition msg_version (m : bytes) : Z := get8 0 m.
Definition msg_type (m : bytes) : Z := get8 1 m.

(** [printf] conversion [%02x] of a byte. *)
Definition hex_digit (d : Z) : Z := if d <? 10 then 48 + d else 87 + d.
Definition hex2 (x : Z) : bytes := [hex_digit (x / 16); hex_digit (x mod 16)].

(** The text of the error sent to a peer with an incompatible version. *)
Definition hello_failed_text (min_version version : Z) : bytes :=
  let ascii s := map (fun c => Z.of_N (Ascii.N_of_ascii c)) (String.list_ascii_of_string s) in
  ascii "We support versions 0x"%string ++ hex2 min_version ++ ascii " to 0x"%string ++ hex2 OFP_VERSION ++
  ascii " inclusive but you support no later than version 0x"%string ++ hex2 version ++ ascii "."%string.

(** The [ofp_error_msg] of [s_send_error]; the transaction id is left as the
    new memory has it. *)
Definition hello_failed_msg (new_uint8 : Z -> bytes) (min_version version : Z) : bytes :=
  let s := hello_failed_text min_version version in
  let size := 12 + Z.of_nat (length s) in
  store 12 s (put16 10 (htons OFPHFC_INCOMPATIBLE) (put16 8 (htons OFPET_HELLO_FAILED)
    (put16 2 (htons size) (put8 1 OFPT_ERROR (put8 0 OFP_VERSION (new_uint8 size)))))).

(** ** State *)

Inductive cstate :=
| S_CONNECTING | S_SEND_HELLO | S_RECV_HELLO | S_CONNECTED | S_IDLE | S_SEND_ERROR | S_DISCONNECTED.

#[export] Instance cstate_eq_dec : EqDecision cstate.
Proof. solve_decision. Defined.

Record connection (T : Type) := Connection {
  cstate_ : cstate;
  error : Z;
  version : Z;
  min_version : Z;
  timeout : timeval;
  tr : T
}.
Arguments Connection {T} _ _ _ _ _ _.
Arguments cstate_ {T} _.
Arguments error {T} _.
Arguments version {T} _.
Arguments min_version {T} _.
Arguments timeout {T} _.
Arguments tr {T} _.

Section connection.
Context {T : Type} `{Transport T}.
Implicit Types c : connection T.

Definition goto (s : cstate) (t : T) c : connection T :=
  Connection s (error c) (version c) (min_version c) (timeout c) t.
Definition fail (e : Z) (t : T) c : connection T :=
  Connection S_DISCONNECTED e (version c) (min_version c) (timeout c) t.

(** The constructor. *)
Definition new_connection (t : T) : connection T :=
  Connection S_CONNECTING 0 0 OFP_VERSION (Timeval 0 0) t.

(** [s_connecting] *)
Definition s_connecting c : res (connection T) :=
  '(retval, t) ← do_connect (tr c);
  if retval =? EINPROGRESS then Aborted
  else if retval =? 0 then Ret (goto S_SEND_HELLO t c)
  else if negb (retval =? EAGAIN) then Ret (fail retval t c)
  else Ret (goto S_CONNECTING t c).

(** [s_send_hello] *)
Definition s_send_hello (xid : Z) c : res (connection T) :=
  '(retval, t) ← do_send (hello_msg xid) (tr c);
  if retval =? 0 then Ret (goto S_RECV_HELLO t c)
  else if negb (retval =? EAGAIN) then Ret (fail retval t c)
  else Ret (goto S_SEND_HELLO t c).

(** [s_recv_hello] *)
Definition s_recv_hello (now : timeval) c : res (connection T) :=
  '(retval, b, t) ← do_recv (tr c);
  if retval =? 0 then
    match b with
    | None => Aborted
    | Some oh =>
        if Z.of_nat (length oh) <? sizeof_header then Aborted
        else if msg_type oh =? OFPT_HELLO then
          let v := Z.min OFP_VERSION (msg_version oh) in
          if v <? min_version c then
            Ret (Connection S_SEND_ERROR (error c) v (min_version c) (timeout c) t)
          else
            Ret (Connection (if OFP_EXPERIMENTAL_VERSION <? msg_version oh then S_SEND_ERROR else S_CONNECTED)
                   (error c) v (min_version c) (tv_add now (make_timeval probe_interval 0)) t)
        else Ret (fail EPROTO t c)
    end
  else if negb (retval =? EAGAIN) then Ret (fail retval t c)
  else Ret (goto S_RECV_HELLO t c).

(** [s_send_error] *)
Definition s_send_error (new_uint8 : Z -> bytes) c : res (connection T) :=
  '(retval, t) ← do_send (hello_failed_msg new_uint8 (min_version c) (version c)) (tr c);
  if negb (retval =? EAGAIN) then Ret (fail (if negb (retval =? 0) then retval else EPROTO) t c)
  else Ret (goto S_SEND_ERROR t c).

(** The values the environment supplies to a call: the transaction id, the
    time of day and the memory of new buffers. *)
Record env := Env { e_xid : Z; e_now : timeval; e_new : Z -> bytes }.

(** One turn of the loop of [connect]. *)
Definition connect_turn (v : env) c : res (connection T) :=
  match cstate_ c with
  | S_CONNECTING => s_connecting c
  | S_SEND_HELLO => s_send_hello (e_xid v) c
  | S_RECV_HELLO => s_recv_hello (e_now v) c
  | S_SEND_ERROR => s_send_error (e_new v) c
  | S_CONNECTED | S_IDLE | S_DISCONNECTED => Ret c
  end.

(** [connect(false)] *)
Fixpoint connect_loop (fuel : nat) (v : env) c : res (Z * connection T) :=
  match fuel with
  | O => NoFuel
  | S k =>
      match cstate_ c with
      | S_CONNECTED | S_IDLE => Ret (0, c)
      | S_DISCONNECTED => Ret (error c, c)
      | last_state =>
          c' ← connect_turn v c;
          if decide (cstate_ c' = last_state) then Ret (EAGAIN, c') else connect_loop k v c'
      end
  end.

(** How many turns are left at most. *)
Definition rank (s : cstate) : nat :=
  match s with
  | S_CONNECTING => 4
  | S_SEND_HELLO => 3
  | S_RECV_HELLO => 2
  | S_SEND_ERROR => 1
  | S_CONNECTED | S_IDLE | S_DISCONNECTED => 0
  end.

Definition connect (v : env) c : res (Z * connection T) := connect_loop 5 v c.

(** [send_openflow(oh, false)]; a transport that reports [EINTR] again and
    again would keep it in its loop. *)
Fixpoint send_loop (fuel : nat) (v : env) (oh : bytes) c : res (Z * connection T) :=
  match fuel with
  | O => NoFuel
  | S k =>
      '(e, c) ← connect v c;
      '(e, c) ← (if e =? 0 then '(e, t) ← do_send oh (tr c); Ret (e, goto (cstate_ c) t c) else Ret (e, c));
      if e =? EINTR then send_loop k v oh c else Ret (e, c)
  end.
Definition send_openflow (v : env) (oh : bytes) c : res (Z * connection T) := send_loop 1 v oh c.

(** [recv_openflow(error, false)] *)
Fixpoint recv_loop (fuel : nat) (v : env) c : res (Z * option bytes * connection T) :=
  match fuel with
  | O => NoFuel
  | S k =>
      '(e, c) ← connect v c;
      if negb (e =? 0) then Ret (e, None, c)
      else
        '(e, b, t) ← do_recv (tr c);
        let c := goto (cstate_ c) t c in
        if e =? EINTR then recv_loop k v c
        else
          let c :=
            if e =? 0 then
              Connection (if decide (cstate_ c = S_IDLE) then S_CONNECTED else cstate_ c)
                (error c) (version c) (min_version c) (tv_add (e_now v) (make_timeval probe_interval 0)) (tr c)
            else c in
          if Bool.eqb (e =? 0) (match b with Some _ => true | None => false end)
          then Ret (e, b, c) else Aborted
  end.
Definition recv_openflow (v : env) c : res (Z * option bytes * connection T) := recv_loop 1 v c.

(** [run]: the inactivity probe. *)
Definition run (v : env) c : res (connection T) :=
  match cstate_ c with
  | S_CONNECTED | S_IDLE =>
      if tv_leb (timeout c) (e_now v) then
        if decide (cstate_ c = S_CONNECTED) then
          '(retval, c) ← send_openflow v (echo_request_msg (e_xid v)) c;
          if retval =? 0 then
            Ret (Connection S_IDLE (error c) (version c) (min_version c)
                   (tv_add (e_now v) (make_timeval probe_interval 0)) (tr c))
          else if retval =? EAGAIN then Ret c
          else Ret (fail retval (do_close (tr c)) c)
        else Ret (fail EPROTO (do_close (tr c)) c)
      else Ret c
  | _ => Ret c
  end.
End connection.

(** The echo request a call of [run] sent, if it did: the connection turned
    idle. *)
Definition probe {T} (v : env) (c c' : connection T) : list bytes :=
  if decide (cstate_ c = S_CONNECTED /\ cstate_ c' = S_IDLE) then [echo_request_msg (e_xid v)] else [].

(** ** Facts *)

Lemma length_header_msg ty len xid : length (header_msg ty len xid) = 8%nat.
Proof. reflexivity. Qed.

Lemma put_bytes_ok (off : nat) x (b : bytes) (n : nat) : is_bytes b -> is_bytes (store off (to_le n x) b).
Proof. intros. apply store_bytes; [apply to_le_bytes|done]. Qed.

Lemma put8_bytes_ok (off : nat) x (b : bytes) : is_u8 x -> is_bytes b -> is_bytes (put8 off x b).
Proof. intros. apply store_bytes; [by constructor|done]. Qed.

Lemma length_put8 (off : nat) x (b : bytes) : (off + 1 <= length b)%nat -> length (put8 off x b) = length b.
Proof. intros. by apply length_store. Qed.

Lemma length_put16 (off : nat) x (b : bytes) : (off + 2 <= length b)%nat -> length (put16 off x b) = length b.
Proof. intros. apply length_store. by rewrite length_to_le. Qed.

(** A message of eight bytes whose length field says so. *)
Lemma header_msg_sendable ty xid : is_u8 ty -> sendable (header_msg ty 8 xid).
Proof.
  intros Hty. split.
  - unfold header_msg. apply put_bytes_ok, put_bytes_ok, put8_bytes_ok, put8_bytes_ok; try done.
    apply Forall_replicate. done.
  - rewrite length_header_msg. change (msg_length (header_msg ty 8 xid)) with 8. lia.
Qed.

Lemma header_msg_whole ty xid : the_message (header_msg ty 8 xid) = header_msg ty 8 xid.
Proof. reflexivity. Qed.

(** New memory is as long as asked for. *)
Definition env_ok (v : env) : Prop :=
  forall n, 0 <= n -> Z.of_nat (length (e_new v n)) = n /\ is_bytes (e_new v n).

Lemma hello_failed_length a b : length (hello_failed_text a b) = 86%nat.
Proof. reflexivity. Qed.

Lemma hex2_bytes x : 0 <= x < 256 -> is_bytes (hex2 x).
Proof.
  intros Hx. assert (Hd : forall d, 0 <= d < 16 -> is_u8 (hex_digit d)).
  { intros d Hd. unfold hex_digit, in_width. destruct (Z.ltb_spec d 10); lia. }
  unfold hex2. constructor; [apply Hd|constructor; [apply Hd|constructor]].
  - split; [apply Z.div_pos; lia|apply Z.div_lt_upper_bound; lia].
  - apply Z.mod_pos_bound. lia.
Qed.

Lemma ascii_bytes s : is_bytes (map (fun c => Z.of_N (Ascii.N_of_ascii c)) (String.list_ascii_of_string s)).
Proof.
  apply Forall_forall. intros x (c & -> & _)%list_elem_of_fmap. unfold in_width.
  pose proof (Ascii.N_ascii_bounded c). lia.
Qed.

Lemma hello_failed_sendable v a b : env_ok v -> 0 <= a < 256 -> 0 <= b < 256 ->
  sendable (hello_failed_msg (e_new v) a b).
Proof.
  intros Hv Ha Hb. unfold hello_failed_msg. rewrite hello_failed_length.
  destruct (Hv 98 ltac:(lia)) as [Hlen Hbytes]. change (12 + Z.of_nat 86) with 98.
  assert (Htext : is_bytes (hello_failed_text a b)).
  { unfold hello_failed_text. rewrite !Forall_app. split_and!; try apply ascii_bytes; by apply hex2_bytes. }
  set (m1 := put8 1 OFPT_ERROR (put8 0 OFP_VERSION (e_new v 98))).
  assert (Hm1 : is_bytes m1 /\ length m1 = 98%nat).
  { unfold m1. split; [by apply put8_bytes_ok, put8_bytes_ok|].
    rewrite !length_put8; rewrite ?length_put8; lia. }
  destruct Hm1 as [Hb1 Hl1]. set (m2 := put16 2 (htons 98) m1).
  assert (Hl2 : length m2 = 98%nat) by (unfold m2; rewrite length_put16; lia).
  set (m3 := put16 8 (htons OFPET_HELLO_FAILED) m2).
  assert (Hl3 : length m3 = 98%nat) by (unfold m3; rewrite length_put16; lia).
  set (m4 := put16 10 (htons OFPHFC_INCOMPATIBLE) m3).
  assert (Hl4 : length m4 = 98%nat) by (unfold m4; rewrite length_put16; lia).
  split; [apply store_bytes; [done|by apply put_bytes_ok, put_bytes_ok, put_bytes_ok]|].
  rewrite length_store, Hl4 by (rewrite hello_failed_length; lia).
  assert (Hml : msg_length (store 12 (hello_failed_text a b) m4) = 98); [|lia].
  unfold msg_length, get16. rewrite load_store_before by lia. unfold m4, put16.
  rewrite load_store_before by lia. unfold m3, put16. rewrite load_store_before by lia.
  unfold m2, put16. rewrite (load_store_here 2 (to_le 2 (htons 98))) by lia. reflexivity.
Qed.
Section connection_facts.
Context {T : Type} `{TransportLaws T}.
Implicit Types (c : connection T) (acc del : list bytes).

(** The peer's hello, and whether its version can be spoken. *)
Definition is_hello (h : bytes) : Prop := message h /\ msg_type h = OFPT_HELLO.
Definition compatible (c : connection T) (h : bytes) : Prop :=
  min_version c <= Z.min OFP_VERSION (msg_version h) /\ msg_version h <= OFP_EXPERIMENTAL_VERSION.

(** What the transport has seen in each state, when [acc] are the messages
    accepted from the connection's users and [del] those delivered to them:
    nothing flows before the hellos have been exchanged. *)
Definition exchanged (acc del : list bytes) (c : connection T) : Prop :=
  match cstate_ c with
  | S_CONNECTING | S_SEND_HELLO => acc = [] /\ del = [] /\ sent (tr c) = [] /\ received (tr c) = []
  | S_RECV_HELLO =>
      acc = [] /\ del = [] /\ (exists xid, sent (tr c) = [hello_msg xid]) /\ received (tr c) = []
  | S_SEND_ERROR =>
      acc = [] /\ del = [] /\ (exists xid, sent (tr c) = [hello_msg xid]) /\
      exists h, received (tr c) = [h] /\ is_hello h /\ ~ compatible c h
  | S_CONNECTED | S_IDLE =>
      exists xid h, sent (tr c) = hello_msg xid :: acc /\ received (tr c) = h :: del /\
        is_hello h /\ compatible c h /\ version c = Z.min OFP_VERSION (msg_version h)
  | S_DISCONNECTED =>
      acc = [] /\ del = [] /\ (sent (tr c) = [] \/ exists xid out, sent (tr c) = hello_msg xid :: out) \/
      exists xid h, sent (tr c) = hello_msg xid :: acc /\ received (tr c) = h :: del /\
        is_hello h /\ compatible c h
  end.

Record conn_inv (acc del : list bytes) (c : connection T) : Prop := {
  inv_tr : cstate_ c <> S_DISCONNECTED -> tr_ok (tr c);
  inv_error : cstate_ c = S_DISCONNECTED -> error c <> 0 /\ error c <> EINTR /\ error c <> EAGAIN;
  inv_min : 0 <= min_version c < 256;
  inv_version : 0 <= version c < 256;
  inv_exchanged : exchanged acc del c
}.

Lemma new_connection_inv (t : T) : tr_ok t -> sent t = [] -> received t = [] -> conn_inv [] [] (new_connection t).
Proof. intros. by constructor; simpl. Qed.

(** What one handler may do. *)
Definition turned (acc del : list bytes) (c c' : connection T) : Prop :=
  conn_inv acc del c' /\ min_version c' = min_version c /\
  (cstate_ c' = cstate_ c \/ (rank (cstate_ c') < rank (cstate_ c))%nat).

Lemma fail_turned acc del c t e : conn_inv acc del c -> (0 < rank (cstate_ c))%nat -> e <> 0 -> e <> EINTR -> e <> EAGAIN ->
  acc = [] -> del = [] -> (sent t = [] \/ exists xid out, sent t = hello_msg xid :: out) -> turned acc del c (fail e t c).
Proof. intros [Ht He Hm Hv Hx] Hr ? ? ? -> -> Hs. split_and!; [|done|right; done]. constructor; try done. by left. Qed.

Lemma goto_turned acc del c s t : conn_inv acc del c -> s <> S_DISCONNECTED -> tr_ok t -> exchanged acc del (goto s t c) ->
  s = cstate_ c \/ (rank s < rank (cstate_ c))%nat -> turned acc del c (goto s t c).
Proof. intros [Ht0 He Hm Hv Hx] Hs Ht Hex Hr. split_and!; [by constructor|done|done]. Qed.

Lemma s_connecting_spec acc del c : conn_inv acc del c -> cstate_ c = S_CONNECTING ->
  exists c', s_connecting c = Ret c' /\ turned acc del c c'.
Proof.
  intros Hinv Hs. unfold s_connecting. pose proof (inv_exchanged _ _ _ Hinv) as Hex. unfold exchanged in Hex.
  rewrite Hs in Hex. destruct Hex as (-> & -> & Hsent & Hrec).
  destruct (do_connect_law (tr c)) as (e & t & -> & Ht & Hnp & Hni & Hst & Hrt);
    [apply (inv_tr _ _ _ Hinv); by rewrite Hs|]. cbn [mbind res_bind].
  rewrite (proj2 (Z.eqb_neq _ _) Hnp). rewrite Hsent in Hst. rewrite Hrec in Hrt.
  destruct (Z.eqb_spec e 0); [|destruct (Z.eqb_spec e EAGAIN)]; cbn [negb]; (eexists; split; [reflexivity|]).
  - apply goto_turned; try done. rewrite Hs. right. simpl. lia.
  - apply goto_turned; try done. by left.
  - apply fail_turned; try done; [rewrite Hs; simpl; lia|by left].
Qed.

Lemma s_send_hello_spec acc del xid c : conn_inv acc del c -> cstate_ c = S_SEND_HELLO ->
  exists c', s_send_hello xid c = Ret c' /\ turned acc del c c'.
Proof.
  intros Hinv Hs. unfold s_send_hello. pose proof (inv_exchanged _ _ _ Hinv) as Hex. unfold exchanged in Hex.
  rewrite Hs in Hex. destruct Hex as (-> & -> & Hsent & Hrec).
  destruct (do_send_law (hello_msg xid) (tr c)) as (e & t & -> & Ht & Hni & Hrt & Hst);
    [apply (inv_tr _ _ _ Hinv); by rewrite Hs|by apply header_msg_sendable|]. cbn [mbind res_bind].
  rewrite Hsent in Hst. rewrite Hrec in Hrt. change (the_message (hello_msg xid)) with (hello_msg xid) in Hst.
  destruct (Z.eqb_spec e 0); [|destruct (Z.eqb_spec e EAGAIN)]; cbn [negb]; (eexists; split; [reflexivity|]).
  - apply goto_turned; try done; [|rewrite Hs; right; simpl; lia]. split_and!; [done|done|by exists xid|done].
  - apply goto_turned; try done. by left.
  - apply fail_turned; try done; [rewrite Hs; simpl; lia|by left].
Qed.

Lemma s_recv_hello_spec acc del now c : conn_inv acc del c -> cstate_ c = S_RECV_HELLO ->
  exists c', s_recv_hello now c = Ret c' /\ turned acc del c c'.
Proof.
  intros Hinv Hs. unfold s_recv_hello. pose proof (inv_exchanged _ _ _ Hinv) as Hex. unfold exchanged in Hex.
  rewrite Hs in Hex. destruct Hex as (-> & -> & [xid Hsent] & Hrec).
  destruct (do_recv_law (tr c)) as (e & m & t & -> & Hni & Hst & Hcase);
    [apply (inv_tr _ _ _ Hinv); by rewrite Hs|]. cbn [mbind res_bind]. rewrite Hsent in Hst.
  assert (Hfail : forall e, e <> 0 -> e <> EINTR -> e <> EAGAIN -> turned [] [] c (fail e t c)).
  { intros. apply fail_turned; try done; [rewrite Hs; simpl; lia|right; by exists xid, []]. }
  destruct Hcase as [(-> & Ht & msg & -> & [H8 Hml] & Hby & Hrt)|(He & -> & Hrt & Ht)].
  - cbn [Z.eqb]. destruct (Z.ltb_spec (Z.of_nat (length msg)) sizeof_header); [unfold sizeof_header in *; lia|].
    destruct (Z.eqb_spec (msg_type msg) OFPT_HELLO) as [Hty|]; [|eexists; split; [reflexivity|by apply Hfail]].
    assert (Hv : 0 <= msg_version msg < 256) by (by apply (get8_range msg 0)).
    assert (Hhello : is_hello msg) by (split; [by split|done]).
    rewrite Hrec in Hrt. simpl in Hrt.
    destruct (Z.ltb_spec (Z.min OFP_VERSION (msg_version msg)) (min_version c)); eexists; (split; [reflexivity|]).
    + split_and!; [constructor; simpl; try done|done|right; rewrite Hs; simpl; lia].
      * apply Hinv.
      * unfold OFP_VERSION. lia.
      * split_and!; [done|done|by exists xid|]. exists msg. split_and!; try done. unfold compatible. simpl. lia.
    + destruct (Z.ltb_spec OFP_EXPERIMENTAL_VERSION (msg_version msg));
        (split_and!; [constructor; simpl; try done|done|right; rewrite Hs; simpl; lia]);
        try apply Hinv; try (unfold OFP_VERSION; lia).
      * split_and!; [done|done|by exists xid|]. exists msg. split_and!; try done. unfold compatible. simpl. lia.
      * exists xid, msg. by split_and!.
  - rewrite (proj2 (Z.eqb_neq _ _) He). destruct (Z.eqb_spec e EAGAIN); cbn [negb];
      (eexists; split; [reflexivity|]); [|by apply Hfail].
    apply goto_turned; try done; [by apply Ht| |by left]. unfold exchanged. simpl. rewrite Hst, Hrt, Hrec.
    split_and!; [done|done|by exists xid|done].
Qed.

Lemma s_send_error_spec acc del v c : env_ok v -> conn_inv acc del c -> cstate_ c = S_SEND_ERROR ->
  exists c', s_send_error (e_new v) c = Ret c' /\ turned acc del c c'.
Proof.
  intros Hv Hinv Hs. unfold s_send_error. pose proof (inv_exchanged _ _ _ Hinv) as Hex. unfold exchanged in Hex.
  rewrite Hs in Hex. destruct Hex as (-> & -> & [xid Hsent] & Hrec).
  destruct (do_send_law (hello_failed_msg (e_new v) (min_version c) (version c)) (tr c))
    as (e & t & -> & Ht & Hni & Hrt & Hst);
    [apply (inv_tr _ _ _ Hinv); by rewrite Hs|by apply hello_failed_sendable; try apply Hinv|].
  cbn [mbind res_bind]. rewrite Hsent in Hst.
  destruct (Z.eqb_spec e EAGAIN) as [->|Hne]; cbn [negb]; (eexists; split; [reflexivity|]).
  - apply goto_turned; try done; [|by left]. unfold exchanged. simpl. rewrite Hst, Hrt.
    split_and!; [done|done|by exists xid|done].
  - apply fail_turned; try done; [rewrite Hs; simpl; lia|by destruct (Z.eqb_spec e 0)
      |by destruct (Z.eqb_spec e 0)|by destruct (Z.eqb_spec e 0)|].
    right. eexists xid, _. rewrite Hst. reflexivity.
Qed.

Lemma connect_turn_spec acc del v c : env_ok v -> conn_inv acc del c -> (0 < rank (cstate_ c))%nat ->
  exists c', connect_turn v c = Ret c' /\ turned acc del c c'.
Proof.
  intros Hv Hinv Hr. unfold connect_turn. destruct (cstate_ c) eqn:Hs; simpl in Hr; try lia.
  - by apply s_connecting_spec.
  - by apply s_send_hello_spec.
  - by apply s_recv_hello_spec.
  - by apply s_send_error_spec.
Qed.

(** The result of [connect] tells the state. *)
Definition connect_result (c : connection T) (e : Z) : Prop :=
  match cstate_ c with
  | S_CONNECTED | S_IDLE => e = 0
  | S_DISCONNECTED => e = error c
  | _ => e = EAGAIN
  end.

Lemma connect_loop_spec acc del k v c : env_ok v -> conn_inv acc del c -> (rank (cstate_ c) < k)%nat ->
  exists e c', connect_loop k v c = Ret (e, c') /\ conn_inv acc del c' /\ min_version c' = min_version c /\
    connect_result c' e /\ (rank (cstate_ c) = 0%nat -> c' = c).
Proof.
  intros Hv. revert c. induction k as [|k IH]; intros c Hinv Hk; [lia|].
  assert (Hgo : (0 < rank (cstate_ c))%nat -> exists e c',
    (c' ← connect_turn v c; if decide (cstate_ c' = cstate_ c) then Ret (EAGAIN, c') else connect_loop k v c')
      = Ret (e, c') /\ conn_inv acc del c' /\ min_version c' = min_version c /\
    connect_result c' e /\ (rank (cstate_ c) = 0%nat -> c' = c)).
  { intros Hr. destruct (connect_turn_spec acc del v c Hv Hinv Hr) as (c1 & -> & Hinv1 & Hm1 & Hs1).
    cbn [mbind res_bind]. destruct (decide (cstate_ c1 = cstate_ c)) as [Heq|Hne].
    - eexists EAGAIN, c1. split_and!; try done; [|lia]. unfold connect_result. rewrite Heq.
      destruct (cstate_ c); simpl in Hr; done || lia.
    - destruct Hs1 as [|Hs1]; [done|]. destruct (IH c1 Hinv1 ltac:(lia)) as (e & c2 & -> & ? & Hm & ? & _).
      eexists e, c2. split_and!; try done; [by rewrite Hm|lia]. }
  simpl. unfold connect_result in *. destruct (cstate_ c) eqn:Hs; try (apply Hgo; simpl; lia).
  - eexists 0, c. split_and!; try done. by rewrite Hs.
  - eexists 0, c. split_and!; try done. by rewrite Hs.
  - eexists (error c), c. split_and!; try done. by rewrite Hs.
Qed.

Lemma connect_spec acc del v c : env_ok v -> conn_inv acc del c ->
  exists e c', connect v c = Ret (e, c') /\ conn_inv acc del c' /\ min_version c' = min_version c /\
    connect_result c' e /\ (rank (cstate_ c) = 0%nat -> c' = c).
Proof. intros Hv Hinv. apply connect_loop_spec; try done. destruct (cstate_ c); simpl; lia. Qed.

(** The two states in which messages flow. *)
Definition up (c : connection T) : Prop := cstate_ c = S_CONNECTED \/ cstate_ c = S_IDLE.

Lemma connect_up acc del c e : conn_inv acc del c -> connect_result c e -> e = 0 <-> up c.
Proof.
  intros Hinv. unfold connect_result, up. pose proof (inv_error _ _ _ Hinv) as He.
  destruct (cstate_ c); intros ->; try (by split; [|intros [|]]); split; auto.
  - intros Hz. by destruct (He eq_refl) as [? _].
  - by intros [|].
Qed.

(** A transport that has moved on while the connection stays up. *)
Lemma up_moves acc del acc' del' c t : conn_inv acc del c -> up c -> tr_ok t ->
  (forall o l, sent (tr c) = o :: acc -> received (tr c) = l :: del ->
     sent t = o :: acc' /\ received t = l :: del') ->
  conn_inv acc' del' (goto (cstate_ c) t c).
Proof.
  intros [Ht He Hm Hv Hx] Hup Hok Hmv. constructor; try done. unfold exchanged in *. simpl.
  destruct Hup as [Hs|Hs]; rewrite Hs in *; destruct Hx as (xid & h & Hsn & Hrc & Hx);
    destruct (Hmv _ _ Hsn Hrc); eauto 10.
Qed.

Lemma send_spec acc del v oh c : env_ok v -> sendable oh -> conn_inv acc del c ->
  exists e c', send_openflow v oh c = Ret (e, c') /\ min_version c' = min_version c /\
    conn_inv (acc ++ (if e =? 0 then [the_message oh] else [])) del c' /\ (e = 0 -> up c') /\ e <> EINTR /\
    (up c -> cstate_ c' = cstate_ c).
Proof.
  intros Hv Hoh Hinv. unfold send_openflow. simpl.
  destruct (connect_spec acc del v c Hv Hinv) as (e & c1 & -> & Hinv1 & Hm & Hres & Hid). cbn [mbind res_bind].
  assert (Hst : up c -> c1 = c) by (intros [Hs|Hs]; apply Hid; by rewrite Hs).
  pose proof (connect_up _ _ _ _ Hinv1 Hres) as Hup.
  destruct (Z.eqb_spec e 0) as [->|He].
  - assert (Hup1 : up c1) by (by apply Hup).
    destruct (do_send_law oh (tr c1)) as (e & t & -> & Ht & Hni & Hrt & Hsn);
      [apply (inv_tr _ _ _ Hinv1); by destruct Hup1 as [->| ->]|done|]. cbn [mbind res_bind].
    rewrite (proj2 (Z.eqb_neq _ _) Hni). exists e, (goto (cstate_ c1) t c1). split_and!; [done|done| |done|done|].
    + apply (up_moves acc del); try done. intros o l Ho Hl. by rewrite Hsn, Hrt, Ho, Hl.
    + intros Hc. by rewrite (Hst Hc).
  - cbn [mbind res_bind]. assert (Hni : e <> EINTR).
    { unfold connect_result in Hres. pose proof (inv_error _ _ _ Hinv1). destruct (cstate_ c1); naive_solver. }
    rewrite (proj2 (Z.eqb_neq _ _) Hni). exists e, c1. rewrite (proj2 (Z.eqb_neq _ _) He), app_nil_r.
    split_and!; try done. intros Hc. by rewrite (Hst Hc).
Qed.

(** After a fatal error of the transport the caller gives up the connection. *)
Lemma recv_spec acc del v c : env_ok v -> conn_inv acc del c ->
  exists e m c', recv_openflow v c = Ret (e, m, c') /\ min_version c' = min_version c /\
    (e = 0 /\ up c' /\ (exists msg, m = Some msg /\ conn_inv acc (del ++ [msg]) c') \/
     e <> 0 /\ m = None /\ exchanged acc del c' /\ (e = EAGAIN -> conn_inv acc del c')).
Proof.
  intros Hv Hinv. unfold recv_openflow. simpl.
  destruct (connect_spec acc del v c Hv Hinv) as (e & c1 & -> & Hinv1 & Hm & Hres & _). cbn [mbind res_bind].
  pose proof (connect_up _ _ _ _ Hinv1 Hres) as Hup.
  destruct (Z.eqb_spec e 0) as [->|He]; cbn [negb].
  2: { eexists e, None, c1. split_and!; try done. right. split_and!; try done. apply Hinv1. }
  assert (Hup1 : up c1) by (by apply Hup).
  destruct (do_recv_law (tr c1)) as (e & m & t & -> & Hni & Hsn & Hcase);
    [apply (inv_tr _ _ _ Hinv1); by destruct Hup1 as [->| ->]|]. cbn [mbind res_bind].
  rewrite (proj2 (Z.eqb_neq _ _) Hni).
  destruct Hcase as [(-> & Ht & msg & -> & Hmsg & _ & Hrt)|(He & -> & Hrt & Ht)].
  - cbn [Z.eqb Bool.eqb]. eexists 0, (Some msg), _. split_and!; [reflexivity|done|]. left.
    assert (Hg : conn_inv acc (del ++ [msg]) (goto (cstate_ c1) t c1))
      by (apply (up_moves acc del); try done; intros o l Ho Hl; by rewrite Hsn, Hrt, Ho, Hl).
    destruct Hg as [Ht' He' Hm' Hv' Hx']. unfold exchanged in Hx'. simpl in *.
    split_and!; [done|unfold up; simpl; destruct (decide (cstate_ c1 = S_IDLE)); [by left|done]|].
    exists msg. split; [done|].
    destruct Hup1 as [Hs|Hs]; rewrite Hs in *; simpl; (constructor; simpl; try done).
  - rewrite (proj2 (Z.eqb_neq _ _) He). cbn [Bool.eqb]. eexists e, None, _. split_and!; [reflexivity|done|].
    assert (Hx : exchanged acc del (goto (cstate_ c1) t c1)).
    { pose proof (inv_exchanged _ _ _ Hinv1) as Hx. unfold exchanged in *. simpl. rewrite Hsn, Hrt.
      by destruct Hup1 as [Hs|Hs]; rewrite Hs in *. }
    right. split_and!; try done. intros Hea. destruct Hinv1 as [Ht1 He1 Hm1 Hv1 _].
    constructor; try done. intros _. by apply Ht.
Qed.

Lemma drop_inv acc del c e : conn_inv acc del c -> up c -> e <> 0 -> e <> EINTR -> e <> EAGAIN ->
  conn_inv acc del (fail e (do_close (tr c)) c).
Proof.
  intros [Ht He Hm Hv Hx] Hup ? ? ?. constructor; simpl; try done.
  unfold exchanged in *. simpl. destruct (do_close_law (tr c)) as [-> ->]. right.
  destruct Hup as [Hs|Hs]; rewrite Hs in *; destruct Hx as (xid & h & ? & ? & ? & ? & _); eauto 10.
Qed.

(** The probe: sends an echo request on an idle connection, or gives up. *)
Lemma run_spec acc del v c : env_ok v -> conn_inv acc del c ->
  exists c', run v c = Ret c' /\ min_version c' = min_version c /\ conn_inv (acc ++ probe v c c') del c'.
Proof.
  intros Hv Hinv. unfold run, probe.
  assert (Hsame : exists c', Ret c = Ret c' /\ min_version c' = min_version c /\ conn_inv (acc ++
    (if decide (cstate_ c = S_CONNECTED /\ cstate_ c' = S_IDLE) then [echo_request_msg (e_xid v)] else [])) del c').
  { exists c. split_and!; try done. rewrite decide_False by (intros [? ?]; congruence). by rewrite app_nil_r. }
  destruct (cstate_ c) eqn:Hs; try done; (destruct (tv_leb (timeout c) (e_now v)); [|done]).
  - rewrite decide_True by done.
    destruct (send_spec acc del v (echo_request_msg (e_xid v)) c Hv)
      as (e & c1 & -> & Hm & Hinv1 & Hup & Hni & Hst); [by apply header_msg_sendable|done|]. cbn [mbind res_bind].
    assert (Hs1 : cstate_ c1 = S_CONNECTED) by (rewrite (Hst ltac:(by left)); done).
    change (the_message (echo_request_msg (e_xid v))) with (echo_request_msg (e_xid v)) in Hinv1.
    destruct (Z.eqb_spec e 0) as [->|He].
    + eexists. split_and!; [reflexivity|done|]. rewrite decide_True by done.
      destruct Hinv1 as [Ht1 He1 Hm1 Hv1 Hx1]. constructor; simpl; try done.
      * intros _. apply Ht1. by rewrite Hs1.
      * unfold exchanged in *. simpl. by rewrite Hs1 in *.
    + rewrite app_nil_r in Hinv1. destruct (Z.eqb_spec e EAGAIN); eexists; (split_and!; [reflexivity|done|]);
        rewrite decide_False, app_nil_r by (intros [_ ?]; simpl in *; congruence); [done|].
      apply drop_inv; try done. by left.
  - rewrite decide_False by done. eexists. split_and!; [reflexivity|done|].
    rewrite decide_False, app_nil_r by (by intros [? _]). apply drop_inv; try done. by right.
Qed.
End connection_facts.

(** ** Sessions *)

(** The calls a controller makes on a connection, in any order; after a
    receive has failed for good it makes no more. *)
Inductive call := Call_connect | Call_send (oh : bytes) | Call_recv | Call_run.

Section session.
Context {T : Type} `{Transport T}.

(** The messages accepted from the users (and probes), the messages delivered
    to them, and the connection. *)
Fixpoint session (calls : list (env * call)) (c : connection T)
    : res (list bytes * list bytes * connection T) :=
  match calls with
  | [] => Ret ([], [], c)
  | (v, Call_connect) :: calls => '(_, c) ← connect v c; session calls c
  | (v, Call_send oh) :: calls =>
      '(e, c) ← send_openflow v oh c;
      '(acc, del, c) ← session calls c;
      Ret ((if e =? 0 then [the_message oh] else []) ++ acc, del, c)
  | (v, Call_recv) :: calls =>
      '(e, m, c) ← recv_openflow v c;
      if (e =? 0) || (e =? EAGAIN) then
        '(acc, del, c) ← session calls c; Ret (acc, option_list m ++ del, c)
      else Ret ([], [], c)
  | (v, Call_run) :: calls =>
      c' ← run v c;
      '(acc, del, c'') ← session calls c';
      Ret (probe v c c' ++ acc, del, c'')
  end.
End session.

Section session_facts.
Context {T : Type} `{TransportLaws T}.

Definition call_ok (vc : env * call) : Prop :=
  env_ok (fst vc) /\ match snd vc with Call_send oh => sendable oh | _ => True end.

(** Every session keeps to the protocol. *)
Lemma session_spec calls acc0 del0 (c : connection T) : Forall call_ok calls -> conn_inv acc0 del0 c ->
  exists acc del c', session calls c = Ret (acc, del, c') /\ min_version c' = min_version c /\
    exchanged (acc0 ++ acc) (del0 ++ del) c'.
Proof.
  intros Hcalls. revert acc0 del0 c. induction Hcalls as [|[v k] calls [Hv Hk] _ IH]; intros acc0 del0 c Hinv.
  { exists [], [], c. rewrite !app_nil_r. split_and!; try done. apply Hinv. }
  simpl in Hv, Hk. destruct k as [|oh| |]; simpl.
  - destruct (connect_spec acc0 del0 v c Hv Hinv) as (e & c1 & -> & Hinv1 & Hm & _). cbn [mbind res_bind].
    destruct (IH _ _ _ Hinv1) as (acc & del & c' & -> & Hm' & Hx). exists acc, del, c'. by rewrite <- Hm.
  - destruct (send_spec acc0 del0 v oh c Hv Hk Hinv) as (e & c1 & -> & Hm & Hinv1 & _). cbn [mbind res_bind].
    destruct (IH _ _ _ Hinv1) as (acc & del & c' & -> & Hm' & Hx). cbn [mbind res_bind].
    eexists _, del, c'. split_and!; [reflexivity|by rewrite Hm'|]. by rewrite app_assoc.
  - destruct (recv_spec acc0 del0 v c Hv Hinv) as (e & m & c1 & -> & Hm & Hcase). cbn [mbind res_bind].
    destruct Hcase as [(-> & _ & msg & -> & Hinv1)|(He & -> & Hx & Hinv1)].
    + destruct (IH _ _ _ Hinv1) as (acc & del & c' & -> & Hm' & Hx). cbn [mbind res_bind Z.eqb orb].
      eexists acc, _, c'. split_and!; [reflexivity|by rewrite Hm'|]. simpl. by rewrite <- app_assoc in Hx.
    + rewrite (proj2 (Z.eqb_neq _ _) He). destruct (Z.eqb_spec e EAGAIN) as [->|]; cbn [orb].
      * destruct (IH _ _ _ (Hinv1 eq_refl)) as (acc & del & c' & -> & Hm' & Hx'). cbn [mbind res_bind].
        eexists acc, _, c'. split_and!; [reflexivity|by rewrite Hm'|done].
      * exists [], [], c1. by rewrite !app_nil_r.
  - destruct (run_spec acc0 del0 v c Hv Hinv) as (c1 & -> & Hm & Hinv1). cbn [mbind res_bind].
    destruct (IH _ _ _ Hinv1) as (acc & del & c' & -> & Hm' & Hx). cbn [mbind res_bind].
    eexists _, del, c'. split_and!; [reflexivity|by rewrite Hm'|]. by rewrite app_assoc.
Qed.
End session_facts.
