(* ===== verification/OpenflowTransport.v ===== *)
(** * Stream connections are transports

    [Openflow_stream_connection] overrides the virtual methods of
    [Openflow_connection]; this file makes it an instance of [Transport] and
    proves the laws the state machine relies on. *)

From S2P Require Import Prelude Bytes Buffer OfpWire OpenflowStream OpenflowConnection.

Open Scope Z_scope.

(** A stream connection, what its socket's [get_connect_error] will return,
    and the log of messages. *)
Record stream_transport := StreamTransport {
  st_conn : conn;
  st_connect : list Z;
  st_new : Z -> bytes;
  st_sent : list bytes;
  st_received : list bytes
}.

#[export] Instance stream_ops : Transport stream_transport := {|
  do_connect t :=
    match st_connect t with
    | [] => Ret (0, t)
    | e :: rest => Ret (e, StreamTransport (st_conn t) rest (st_new t) (st_sent t) (st_received t))
    end;
  do_send m t :=
    '(e, c) ← do_send_openflow m (st_conn t);
    Ret (e, StreamTransport c (st_connect t) (st_new t)
              (st_sent t ++ (if e =? 0 then [the_message m] else [])) (st_received t));
  do_recv t :=
    '(e, m, c) ← do_recv_openflow (st_new t) (st_conn t);
    Ret (e, m, StreamTransport c (st_connect t) (st_new t) (st_sent t) (st_received t ++ option_list m));
  do_close t :=
    StreamTransport (with_strm (close (strm (st_conn t))) (st_conn t)) (st_connect t) (st_new t)
      (st_sent t) (st_received t);
  sent := st_sent;
  received := st_received
|}.

Record stream_ok (t : stream_transport) : Prop := {
  so_tx : tx_ok (st_conn t);
  so_rx : exists part, rx_state (st_conn t) part /\ incomplete part;
  so_new : forall n, 0 <= n -> Z.of_nat (length (st_new t n)) = n;
  so_connect : Forall (fun e => e <> EINPROGRESS /\ e <> EINTR) (st_connect t)
}.

Lemma carries_tx c c' : carries c c' -> tx_ok c -> tx_ok c'.
Proof. intros (_ & Ho & _ & Ht). unfold tx_ok. by rewrite Ht, Ho. Qed.

#[export] Program Instance stream_laws : TransportLaws stream_transport := {| tr_ok := stream_ok |}.
Next Obligation.
  intros t [Htx Hrx Hnew Hcon]. simpl. destruct (st_connect t) as [|e rest] eqn:Hc.
  - exists 0, t. split_and!; try done. by constructor; rewrite ?Hc.
  - apply Forall_cons in Hcon as [[? ?] ?]. eexists e, _. split_and!; done.
Qed.
Next Obligation.
  intros m t [Htx [part [Hrx Hinc]] Hnew Hcon] Hm. simpl.
  destruct (do_send_spec m (st_conn t) Htx Hm) as (e & c' & -> & Hni & Hsame & Hcase). cbn [mbind res_bind].
  eexists e, _. split_and!; try done. constructor; simpl; try done.
  - by destruct Hcase as [(_ & [? _] & _)|(_ & [[? _]|[[? _] _]])].
  - exists part. split; [by eapply rx_same_state|done].
Qed.
Next Obligation.
  intros t [Htx [part [Hrx Hinc]] Hnew Hcon]. simpl.
  destruct (do_recv_spec (st_new t) Hnew (st_conn t) part Hrx Hinc) as (e & m & c' & -> & Hcase).
  cbn [mbind res_bind]. eexists e, m, _. split; [reflexivity|].
  destruct Hcase as [(p' & Hrx' & Hinc' & Hcar & Hcase)|[-> Hd]].
  - assert (Hok : stream_ok (StreamTransport c' (st_connect t) (st_new t) (st_sent t)
      (st_received t ++ option_list m))) by (constructor; simpl; eauto using carries_tx).
    destruct Hcase as [(-> & -> & _ & _)|(-> & _ & msg & -> & ? & ? & ? & _)]; simpl.
    + split_and!; try done. right. split_and!; try done; [by rewrite app_nil_r].
    + split_and!; try done. left. split_and!; try done. exists msg. by split_and!.
  - destruct (dead_fatal _ _ _ Hd) as [? [? ?]]. simpl. split_and!; try done. right.
    rewrite app_nil_r. by split_and!.
Qed.

Next Obligation. done. Qed.

(** A connection on a socket that has just been opened. *)
Definition open_stream (rd : list rd_event) (wr : list wr_event) (connects : list Z)
    (new_uint8 : Z -> bytes) (uninit : bytes) : stream_transport :=
  StreamTransport (OpenflowStream.connection (Stream rd wr [] true) uninit) connects new_uint8 [] [].

Lemma open_stream_ok rd wr connects new_uint8 uninit :
  good rd -> (forall n, 0 <= n -> Z.of_nat (length (new_uint8 n)) = n) ->
  Forall (fun e => e <> EINPROGRESS /\ e <> EINTR) connects -> length uninit = 8%nat ->
  stream_ok (open_stream rd wr connects new_uint8 uninit).
Proof.
  intros. constructor; simpl; try done. exists []. split; [|unfold incomplete; simpl; lia].
  constructor; simpl; try done. lia.
Qed.
