(* ===== verification/OpenflowProps.v ===== *)
(** * Properties of OpenFlow connections *)

From S2P Require Import Prelude Bytes Buffer OfpWire OfpCore Timeval OpenflowStream OpenflowConnection OpenflowTransport.

Open Scope Z_scope.

(** ** Examples to evaluate *)

(** New memory filled with zeros, and two messages: a hello and an echo
    request with four bytes of data. *)
Definition zero_memory (n : Z) : bytes := replicate (Z.to_nat n) 0.
Definition hello5 : bytes := [1; 0; 0; 8; 0; 0; 0; 5].
Definition echo12 : bytes := [1; 2; 0; 12; 0; 0; 0; 6; 10; 11; 12; 13].

(** The two messages and the start of a third, cut in the middle of the
    second header, with nothing to read in between. *)
Definition cut_stream : list rd_event :=
  [RAvail 1 [0; 0; 8; 0; 0; 0; 5; 1; 2]; RError EAGAIN; RAvail 0 [12; 0; 0; 0; 6; 10];
   RError EINTR; RAvail 11 [12; 13; 1; 3]; REof].

Lemma zero_memory_length n : 0 <= n -> Z.of_nat (length (zero_memory n)) = n.
Proof. intros. unfold zero_memory. rewrite length_replicate. lia. Qed.

Lemma zero_memory_ok n : 0 <= n -> Z.of_nat (length (zero_memory n)) = n /\ is_bytes (zero_memory n).
Proof. intros. split; [by apply zero_memory_length|]. by apply Forall_replicate. Qed.

Lemma cut_stream_good : good cut_stream.
Proof. unfold cut_stream. do 6 (constructor; [by apply bytes_check || done|]). constructor. Qed.

Lemma demo_messages : Forall message [hello5; echo12].
Proof. constructor; [|constructor; [|constructor]]; (split; [vm_compute; lia|reflexivity]). Qed.

(** A connection as [Openflow_stream_connection]'s constructor leaves it. *)
Definition fresh (rd : list rd_event) (wr : list wr_event) (uninit : bytes) : conn :=
  OpenflowStream.connection (Stream rd wr [] true) uninit.

Lemma fresh_rx rd wr uninit : good rd -> length uninit = 8%nat -> rx_state (fresh rd wr uninit) [].
Proof. intros. constructor; simpl; try done. lia. Qed.

(** ** Properties *)



(** C10: Outgoing messages are written whole and in order.  Whatever the
    socket does to each write, and however sends and runs of the connection's
    thread interleave, the bytes written so far followed by the bytes still
    queued are the messages for which [do_send_openflow] returned 0, one
    after the other, with nothing lost, repeated or interleaved; only when
    the stream breaks can they end with (part of) one rejected message. *)
Theorem stream_sends_in_order (ops : list tx_op) rd wr uninit :
  Forall (fun o => match o with Send oh => sendable oh | Run => True end) ops ->
  exists acc rej c' extra, tx_ops ops (fresh rd wr uninit) = Ret (acc, rej, c') /\
    written (strm c') ++ pending c' = concat acc ++ extra /\
    (is_open (strm c') = true -> extra = []) /\ (extra = [] \/ extra ∈ rej.*1).
Proof.
  intros Hops. destruct (tx_ops_spec ops (fresh rd wr uninit)) as (acc & rej & c' & br & -> & _ & Hw & Ho & _ & Hbr);
    [done..|]. exists acc, rej, c', br. by split_and!.
Qed.

Lemma echo12_sendable : sendable echo12 /\ sendable hello5.
Proof. split; (split; [by apply bytes_check|vm_compute; split; congruence]). Qed.

Lemma stream_sends_in_order_witness :
  exists acc rej c' extra,
    tx_ops [Send hello5; Send echo12; Run; Send echo12] (fresh [] [WAccept 3; WError EAGAIN; WAccept 9] hello5)
      = Ret (acc, rej, c') /\
    written (strm c') ++ pending c' = concat acc ++ extra /\
    (is_open (strm c') = true -> extra = []) /\ (extra = [] \/ extra ∈ rej.*1).
Proof.
  apply (stream_sends_in_order [Send hello5; Send echo12; Run; Send echo12] [] [WAccept 3; WError EAGAIN; WAccept 9] hello5).
  repeat constructor; apply echo12_sendable.
Defined.

Lemma the_message_message oh : sendable oh -> message (the_message oh).
Proof.
  intros [_ Hl]. assert (Hlen : length (the_message oh) = Z.to_nat (msg_length oh))
    by (unfold the_message; rewrite length_take; lia).
  assert (Heq : msg_length (the_message oh) = msg_length oh).
  { rewrite <- (take_drop (Z.to_nat (msg_length oh)) oh) at 2. symmetry. apply msg_length_app.
    lia. }
  split; lia.
Qed.

Lemma tx_ops_messages ops c acc rej c' :
  Forall (fun o => match o with Send oh => sendable oh | Run => True end) ops ->
  tx_ops ops c = Ret (acc, rej, c') -> Forall message acc.
Proof.
  intros Hops. revert c acc rej c'. induction Hops as [|[oh|] ops Ho _ IH]; simpl; intros c acc rej c' Htx.
  - by injection Htx as <- <- <-.
  - apply res_bind_Ret in Htx as ([e c1] & _ & Htx). apply res_bind_Ret in Htx as ([[acc1 rej1] c2] & Hrec & Htx).
    specialize (IH _ _ _ _ Hrec). destruct (e =? 0); injection Htx as <- <- <-; [|done].
    constructor; [by apply the_message_message|done].
  - apply res_bind_Ret in Htx as (c1 & _ & Htx). eauto.
Qed.

(** End to end.  Let one connection send messages over a stream that does
    not break, until its queue is empty, and let the peer receive the bytes
    cut in any way: the peer gets exactly the messages accepted from the
    sender, in the same order. *)
Theorem stream_end_to_end (new_uint8 : Z -> bytes) ops wr uninit acc rej c' rd wr' uninit' k :
  (forall n, 0 <= n -> Z.of_nat (length (new_uint8 n)) = n) ->
  Forall (fun o => match o with Send oh => sendable oh | Run => True end) ops ->
  tx_ops ops (fresh [] wr uninit) = Ret (acc, rej, c') -> is_open (strm c') = true -> pending c' = [] ->
  good rd -> (forall e, RError e ∈ rd -> e = EAGAIN \/ e = EINTR) -> length uninit' = 8%nat ->
  incoming rd = written (strm c') -> (length rd + length acc <= k)%nat ->
  exists err c'', recv_calls new_uint8 k (fresh rd wr' uninit') = Ret (acc, err, c'').
Proof.
  intros Hnew Hops Htx Ho Hp Hgood Herr Hun Hin Hk.
  destruct (tx_ops_spec ops (fresh [] wr uninit)) as (acc1 & rej1 & c1 & br & Heq & _ & Hw & Hbr & _);
    [done..|]. rewrite Htx in Heq. injection Heq as <- <- <-.
  rewrite Hp, (Hbr Ho), !app_nil_r in Hw. simpl in Hw.
  assert (Hmsgs : Forall message acc) by (eapply tx_ops_messages; eauto).
  destruct (recv_calls_spec new_uint8 Hnew k (fresh rd wr' uninit') [] acc []) as (ms & err & c2 & Hr & _ & _ & Hall).
  - by apply fresh_rx.
  - unfold incomplete. simpl. lia.
  - by split.
  - done.
  - left. unfold incomplete. simpl. lia.
  - unfold ahead. simpl. rewrite Hin, Hw, app_nil_r. done.
  - destruct (Hall Hk) as [-> _]. eauto.
Qed.

Lemma stream_end_to_end_witness :
  exists err c'', recv_calls zero_memory 6
    (fresh [RAvail 1 [0]; RAvail 0 [8; 0; 0; 0; 5; 1; 2; 0]; RError EAGAIN;
            RAvail 12 [0; 0; 0; 6; 10; 11; 12; 13]] [] hello5) = Ret ([hello5; echo12], err, c'').
Proof.
  eapply (stream_end_to_end zero_memory [Send hello5; Send echo12; Send echo12; Run]
    [WAccept 5; WError EAGAIN; WAccept 9; WError EAGAIN; WAccept 9; WError EAGAIN; WAccept 9] hello5 [hello5; echo12] _ _ _ [] hello5 6).
  - apply zero_memory_length.
  - repeat constructor; apply echo12_sendable.
  - vm_compute. reflexivity.
  - reflexivity.
  - reflexivity.
  - do 4 (constructor; [by apply bytes_check || done|]). constructor.
  - intros e He. rewrite !elem_of_cons, elem_of_nil in He.
    destruct He as [He|[He|[He|[He|[]]]]]; inversion He; auto.
  - reflexivity.
  - reflexivity.
  - simpl. lia.
Defined.


(** A controller that connects, sends an echo request and reads four times, over a
    socket that needs a second attempt to connect. *)
Definition demo_env (xid now : Z) : env := Env xid (Timeval now 0) zero_memory.
Definition demo_transport : stream_transport :=
  open_stream cut_stream [WAccept 100; WAccept 100; WAccept 100] [EAGAIN] zero_memory hello5.
Definition demo_calls : list (env * call) :=
  [(demo_env 1 100, Call_connect); (demo_env 2 100, Call_connect); (demo_env 3 100, Call_connect);
   (demo_env 4 101, Call_send echo12); (demo_env 5 101, Call_recv); (demo_env 6 101, Call_recv);
   (demo_env 5 101, Call_recv); (demo_env 6 101, Call_recv);
   (demo_env 7 120, Call_run)].

Lemma demo_calls_ok : Forall call_ok demo_calls.
Proof.
  repeat constructor; try (by apply zero_memory_ok); simpl; try (apply zero_memory_ok; done); apply echo12_sendable.
Qed.

Lemma demo_transport_ok : stream_ok demo_transport.
Proof.
  apply open_stream_ok; [apply cut_stream_good|apply zero_memory_length|by repeat constructor|done].
Qed.


(** The session really gets through the handshake. *)
Lemma demo_session : exists c',
  session demo_calls (new_connection demo_transport) =
    Ret ([echo12; echo_request_msg 7], [echo12], c') /\ cstate_ c' = S_IDLE.
Proof. eexists. split; [vm_compute; reflexivity|reflexivity]. Qed.

(** [connect] always returns: within five turns of its loop, with 0
    exactly when the connection is up, [EAGAIN] when the transport makes it
    wait, and the stored error when the connection failed; once up or failed
    it changes nothing. *)
Theorem connect_outcome {T : Type} `{TransportLaws T} acc del v (c : connection T) :
  env_ok v -> conn_inv acc del c ->
  exists e c', connect v c = Ret (e, c') /\ conn_inv acc del c' /\
    (e = 0 <-> up c') /\ (e = EAGAIN <-> rank (cstate_ c') <> 0%nat) /\
    (cstate_ c' = S_DISCONNECTED -> e = error c') /\ (rank (cstate_ c) = 0%nat -> c' = c).
Proof.
  intros Hv Hinv. destruct (connect_spec acc del v c Hv Hinv) as (e & c' & -> & Hinv' & _ & Hres & Hid).
  exists e, c'. pose proof (connect_up _ _ _ _ Hinv' Hres). split_and!; try done.
  - unfold connect_result in Hres. pose proof (inv_error _ _ _ Hinv') as He.
    destruct (cstate_ c'); subst; simpl; split; try done; try lia. naive_solver.
  - intros Hd. unfold connect_result in Hres. by rewrite Hd in Hres.
Qed.

Lemma connect_outcome_witness :
  exists e c', connect (demo_env 1 100) (new_connection demo_transport) = Ret (e, c') /\ conn_inv [] [] c' /\
    (e = 0 <-> up c') /\ (e = EAGAIN <-> rank (cstate_ c') <> 0%nat) /\
    (cstate_ c' = S_DISCONNECTED -> e = error c') /\
    (rank (cstate_ (new_connection demo_transport)) = 0%nat -> c' = new_connection demo_transport).
Proof.
  apply (connect_outcome [] [] (demo_env 1 100) (new_connection demo_transport)).
  - exact zero_memory_ok.
  - apply new_connection_inv; [apply demo_transport_ok|done|done].
Defined.
