(* ===== verification/OpenflowSend.v ===== *)
(** * Messages built by [Openflow_connection] (src/lib/openflow.cc)

    The convenience functions that fill in a structure in memory and pass it
    to [send_openflow]; what they build is modelled byte by byte.  Memory a
    function does not set itself is an argument. *)

From S2P Require Import Prelude Bytes OfpWire OfpCore OfpActions OfpStats OfpMessages OpenflowStream OpenflowConnection.

Open Scope Z_scope.

Definition UINT16_MAX : Z := 65535.
Definition OFPP_FLOOD : Z := 0xfffb.
Definition OFPT_ECHO_REPLY : Z := 3.
Definition OFPT_FEATURES_REQUEST : Z := 5.
Definition OFPT_SET_CONFIG : Z := 9.
Definition OFPT_BARRIER_REQUEST : Z := 18.

(** [memset(p, 0, n)] *)
Definition zero (off n : nat) (b : bytes) : bytes := store off (replicate n 0) b.

(** The [ofp_action_output] both [send_packet] functions start with. *)
Definition output_action (raw : bytes) (out_port : Z) : bytes :=
  let oa := zero 0 8 raw in
  let oa := put16 0 (htons OFPAT_OUTPUT) oa in
  let oa := put16 2 (htons 8) oa in
  let oa := put16 4 (htons out_port) oa in
  put16 6 (htons 0) oa.

(** The fields of an [ofp_packet_out] that follow the [memset]. *)
Definition packet_out_fields (opo_size buffer_id in_port actions_len : Z) (b : bytes) : bytes :=
  let b := put8 0 OFP_VERSION b in
  let b := put8 1 OFPT_PACKET_OUT b in
  let b := put16 2 (htons opo_size) b in
  let b := put32 8 (htonl buffer_id) b in
  let b := put16 12 (htons in_port) b in
  put16 14 (htons actions_len) b.

(** [send_packet(packet, actions, actions_len, in_port)]: the message. *)
Definition packet_out_data (new_uint8 : Z -> bytes) (packet actions : bytes) (in_port : Z) : res bytes :=
  let actions_len := length actions in
  let opo_size := 16 + Z.of_nat actions_len + Z.of_nat (length packet) in
  if opo_size <=? UINT16_MAX then
    let b := zero 0 16 (new_uint8 opo_size) in
    let b := packet_out_fields opo_size (2 ^ 32 - 1) in_port (Z.of_nat actions_len) b in
    Ret (store (16 + actions_len) packet (store 16 actions b))
  else Aborted.

(** [send_packet(buffer_id, actions, actions_len, in_port)] *)
Definition packet_out_buffer (new_uint8 : Z -> bytes) (buffer_id : Z) (actions : bytes) (in_port : Z) : res bytes :=
  let actions_len := length actions in
  let opo_size := 16 + Z.of_nat actions_len in
  if opo_size <=? UINT16_MAX then
    let b := zero 0 (Z.to_nat opo_size) (new_uint8 opo_size) in
    let b := packet_out_fields opo_size buffer_id in_port (Z.of_nat actions_len) b in
    Ret (store 16 actions b)
  else Aborted.

(** [send_packet(packet, out_port, in_port)] and
    [send_packet(buffer_id, out_port, in_port)] *)
Definition send_packet_data (new_uint8 : Z -> bytes) (raw packet : bytes) (out_port in_port : Z) : res bytes :=
  packet_out_data new_uint8 packet (output_action raw out_port) in_port.
Definition send_packet_buffer (new_uint8 : Z -> bytes) (raw : bytes) (buffer_id out_port in_port : Z) : res bytes :=
  packet_out_buffer new_uint8 buffer_id (output_action raw out_port) in_port.

(** [send_features_request], [send_barrier_request] *)
Definition features_request_msg (xid : Z) : bytes := header_msg OFPT_FEATURES_REQUEST 8 xid.
Definition barrier_request_msg (xid : Z) : bytes := header_msg OFPT_BARRIER_REQUEST 8 xid.

(** [send_switch_config] *)
Definition switch_config_msg (raw : bytes) (xid : Z) : bytes :=
  let b := put8 1 OFPT_SET_CONFIG raw in
  let b := put8 0 OFP_VERSION b in
  let b := put16 2 (htons 12) b in
  let b := put32 4 xid b in
  let b := put16 8 0 b in
  put16 10 (htons OFP_DEFAULT_MISS_SEND_LEN) b.

(** [send_stats_request]: the type is stored as it is, in host order. *)
Definition stats_request_msg (raw : bytes) (type xid : Z) : bytes :=
  let b := put8 1 OFPT_STATS_REQUEST raw in
  let b := put8 0 OFP_VERSION b in
  let b := put16 2 (htons 12) b in
  let b := put32 4 xid b in
  let b := put16 8 type b in
  put16 10 (htons 0) b.

(** [send_echo_reply]: the request with its type changed. *)
Definition echo_reply_msg (rq : bytes) : res bytes :=
  let size := msg_length rq in
  if Z.of_nat (length rq) <? size then Aborted
  else if size <? 8 then Aborted
  else Ret (put8 1 OFPT_ECHO_REPLY (take (Z.to_nat size) rq)).

(** ** Facts *)

Lemma zero_all (n : nat) raw : length raw = n -> zero 0 n raw = replicate n 0.
Proof.
  intros. unfold zero, store. rewrite take_0, drop_ge by (rewrite length_replicate; lia). by rewrite app_nil_r.
Qed.

Lemma output_action_wire raw p : length raw = 8%nat ->
  output_action raw p = of_action_output.wire (of_action_output.mk OFPAT_OUTPUT 8 p 0).
Proof.
  intros Hr. unfold output_action. rewrite zero_all by done. unfold put16. rewrite !htons_bytes.
  unfold of_action_output.wire. simpl of_action_output.port. cbv [of_action_output.type_ of_action_output.len of_action_output.max_len].
  unfold to_be. reflexivity.
Qed.

(** The header of a message built here. *)
Definition built_header (type len xid : Z) : of_header.t := of_header.mk OFP_VERSION type len xid.

Lemma packet_out_fields_wire size buffer_id in_port alen r :
  packet_out_fields size buffer_id in_port alen (replicate 16 0 ++ r) =
    of_packet_out.wire (of_packet_out.mk (built_header OFPT_PACKET_OUT size 0) buffer_id in_port alen) ++ r.
Proof.
  unfold packet_out_fields, put8, put16, put32. rewrite !htons_bytes, htonl_bytes.
  repeat (rewrite store_app_l; [|by vm_compute; lia]). f_equal.
Qed.

Section built.
Variable new_uint8 : Z -> bytes.
Hypothesis new_uint8_length : forall n, 0 <= n -> Z.of_nat (length (new_uint8 n)) = n.

Definition packet_out_header (size buffer_id in_port alen : Z) : of_packet_out.t :=
  of_packet_out.mk (built_header OFPT_PACKET_OUT size 0) buffer_id in_port alen.

Lemma packet_out_data_spec packet actions in_port :
  16 + Z.of_nat (length actions) + Z.of_nat (length packet) <= UINT16_MAX ->
  packet_out_data new_uint8 packet actions in_port =
    Ret (of_packet_out.wire (packet_out_header (16 + Z.of_nat (length actions) + Z.of_nat (length packet))
           (2 ^ 32 - 1) in_port (Z.of_nat (length actions))) ++ actions ++ packet).
Proof.
  intros Hs. unfold packet_out_data. rewrite (proj2 (Z.leb_le _ _) Hs).
  set (sz := 16 + Z.of_nat (length actions) + Z.of_nat (length packet)) in *.
  pose proof (new_uint8_length sz ltac:(lia)) as Hn.
  rewrite <- (take_drop 16 (new_uint8 sz)).
  assert (H16 : length (take 16 (new_uint8 sz)) = 16%nat) by (rewrite length_take; lia).
  unfold zero. rewrite store_app_l by (rewrite length_replicate; lia).
  fold (zero 0 16 (take 16 (new_uint8 sz))). rewrite zero_all by done. rewrite packet_out_fields_wire.
  fold (packet_out_header sz (2 ^ 32 - 1) in_port (Z.of_nat (length actions))).
  set (w := of_packet_out.wire _). assert (Hw : length w = 16%nat) by (by apply of_packet_out.packet_out_wire_length).
  rewrite <- (take_drop (length actions) (drop 16 (new_uint8 sz))).
  assert (Ht : length (take (length actions) (drop 16 (new_uint8 sz))) = length actions)
    by (rewrite length_take, length_drop; lia).
  rewrite app_assoc, store_app_l, (store_end 16) by (rewrite ?length_app; lia).
  rewrite (store_end (16 + length actions)), <- app_assoc; [done|rewrite length_app; lia|].
  rewrite length_drop, length_drop. lia.
Qed.

Lemma packet_out_buffer_spec buffer_id actions in_port :
  16 + Z.of_nat (length actions) <= UINT16_MAX ->
  packet_out_buffer new_uint8 buffer_id actions in_port =
    Ret (of_packet_out.wire (packet_out_header (16 + Z.of_nat (length actions)) buffer_id in_port
           (Z.of_nat (length actions))) ++ actions).
Proof.
  intros Hs. unfold packet_out_buffer. rewrite (proj2 (Z.leb_le _ _) Hs).
  set (sz := 16 + Z.of_nat (length actions)) in *. pose proof (new_uint8_length sz ltac:(lia)) as Hn.
  rewrite zero_all by lia. replace (Z.to_nat sz) with (16 + length actions)%nat by lia.
  rewrite replicate_add, packet_out_fields_wire.
  fold (packet_out_header sz buffer_id in_port (Z.of_nat (length actions))).
  rewrite (store_end 16); [done|by apply of_packet_out.packet_out_wire_length|by rewrite length_replicate].
Qed.

(** What a switch reads in a packet-out message. *)
Lemma packet_out_decodes size buffer_id in_port alen rest :
  is_u16 size -> is_u32 buffer_id -> is_u16 in_port -> is_u16 alen ->
  of_packet_out.unpack (of_packet_out.wire (packet_out_header size buffer_id in_port alen) ++ rest) =
    Some (packet_out_header size buffer_id in_port alen).
Proof.
  intros. apply of_packet_out.packet_out_unpack_wire. unfold of_packet_out.wf. simpl. by split_and!.
Qed.

Lemma output_action_decodes raw p rest : length raw = 8%nat -> is_u16 p ->
  of_action_output.unpack (output_action raw p ++ rest) = Some (of_action_output.mk OFPAT_OUTPUT 8 p 0).
Proof.
  intros. rewrite output_action_wire by done. apply of_action_output.action_output_unpack_wire.
  unfold of_action_output.wf. simpl. by split_and!.
Qed.
End built.

Lemma built_header_wf type len xid : is_u8 type -> is_u16 len -> is_u32 xid ->
  of_header.wf (built_header type len xid).
Proof. intros. by split_and!. Qed.

Lemma raw16_bytes x : is_u16 x -> to_le 2 x = to_be 2 (ntohs x).
Proof. intros. rewrite <- htons_bytes. f_equal. symmetry. by apply ntohs_htons. Qed.

Lemma raw32_bytes x : is_u32 x -> to_le 4 x = to_be 4 (ntohl x).
Proof. intros. rewrite <- htonl_bytes. f_equal. symmetry. by apply ntohl_htonl. Qed.

(** The statistics type a switch reads is byte-swapped. *)
Lemma stats_request_decodes raw type xid : length raw = 12%nat -> is_u16 type -> is_u32 xid ->
  of_stats_request.unpack (stats_request_msg raw type xid) =
    Some (of_stats_request.mk (built_header OFPT_STATS_REQUEST 12 (ntohl xid)) (ntohs type) 0).
Proof.
  intros Hr Ht Hx. set (m := of_stats_request.mk _ _ _).
  assert (Hw : stats_request_msg raw type xid = of_stats_request.wire m ++ []).
  { unfold stats_request_msg. do 12 (destruct raw as [|? raw]; [done|]). destruct raw; [|done].
    unfold put8, put16, put32. rewrite (raw16_bytes type), (raw32_bytes xid), !htons_bytes by done. reflexivity. }
  rewrite Hw. apply of_stats_request.stats_request_unpack_wire. unfold m, of_stats_request.wf. simpl.
  split_and!; try done; [by apply built_header_wf; [..|apply htonl_range]|apply htons_range].
Qed.

(** [send_switch_config] asks for the default number of bytes of each packet. *)
Lemma switch_config_decodes raw xid : length raw = 12%nat -> is_u32 xid ->
  of_switch_config.unpack (switch_config_msg raw xid) =
    Some (of_switch_config.mk (built_header OFPT_SET_CONFIG 12 (ntohl xid)) 0 OFP_DEFAULT_MISS_SEND_LEN).
Proof.
  intros Hr Hx. set (m := of_switch_config.mk _ _ _).
  assert (Hw : switch_config_msg raw xid = of_switch_config.wire m ++ []).
  { unfold switch_config_msg. do 12 (destruct raw as [|? raw]; [done|]). destruct raw; [|done].
    unfold put8, put16, put32. rewrite (raw16_bytes 0), (raw32_bytes xid), !htons_bytes by done. reflexivity. }
  rewrite Hw. apply of_switch_config.switch_config_unpack_wire. unfold m, of_switch_config.wf. simpl.
  split_and!; try done. by apply built_header_wf; [..|apply htonl_range].
Qed.
