(* ===== verification/Switch.v ===== *)
(** * The learning switch and the hub (src/nox/coreapps/switch/switch.cc, hub/hub.cc)

    [Switch::handle] learns on which port each source address was seen and
    forwards packets accordingly.  The messages it builds in memory are
    modelled byte by byte, in the order of the assignments; the memory that
    [new] returns is an argument. *)

From stdpp Require Import strings.
From S2P Require Import Prelude Bytes Buffer Ethernetaddr Flow FlowSpec OfpWire OfpCore OfpActions OfpMessages FlowMatch OpenflowStream OpenflowConnection OpenflowSend.

Open Scope Z_scope.

Definition LLDP : Z := htons 0x88cc.
Definition UINT32_MAX : Z := 2 ^ 32 - 1.
Definition OFPFC_ADD : Z := 0.
Definition OFP_FLOW_PERMANENT : Z := 0.
Definition OFPFF_SEND_FLOW_REM : Z := 1.
Definition SEND_FLOW_REMOVED : bool := true.

(** [ofd_flow_mod_flags] *)
Definition ofd_flow_mod_flags : Z := u16 (0 + (if SEND_FLOW_REMOVED then OFPFF_SEND_FLOW_REM else 0)).

(** ** State *)

(** [Source_table]: a set of [Mac_source], which compares switch and address;
    the port is its mutable value. *)
Abbreviation source_table := (gmap (Z * bytes) Z).

Record switch := Switch { sources : source_table; setup_flows : bool }.

Record packet_in := PacketIn {
  datapath_id : Z;
  pi_in_port : Z;
  pi_buf : buffer;
  total_len : Z;
  pi_buffer_id : Z
}.

(** The commands sent to datapaths. *)
Inductive effect :=
| Send_command (dp : Z) (msg : bytes)
| Send_packet (dp : Z) (packet : bytes) (out_port in_port : Z)
| Send_buffered (dp : Z) (buffer_id out_port in_port : Z).

(** [Switch::configure]; unknown arguments are only logged. *)
Definition configure (args : list string) (sw : switch) : switch :=
  Switch (sources sw) (foldl (fun flag arg => if bool_decide (arg = "noflow") then false else flag) true args).

(** ** Handling a packet *)

(** [sources.insert(src).first], then the port is set if it differs. *)
Definition learn (dp : Z) (mac : ethernetaddr) (port : Z) (tbl : source_table) : source_table :=
  let key := (dp, octet mac) in
  let tbl := match tbl !! key with Some _ => tbl | None => <[key := -1]> tbl end in
  match tbl !! key with
  | Some p => if p =? port then tbl else <[key := port]> tbl
  | None => tbl
  end.

(** [sources.find(dst)]: -1 to flood. *)
Definition find_port (dp : Z) (mac : ethernetaddr) (tbl : source_table) : Z :=
  if negb (is_multicast mac) then default (-1) (tbl !! (dp, octet mac)) else -1.

(** The flow entry: an [ofp_flow_mod] with one action, in [size] bytes of new
    memory. *)
Definition flow_mod_msg (raw : bytes) (f : flow) (buffer_id out_port : Z) : bytes :=
  let b := put8 0 OFP_VERSION raw in
  let b := put8 1 OFPT_FLOW_MOD b in
  let b := put16 2 (htons 80) b in
  let b := put32 8 (htonl 0) b in
  let b := put16 12 (htons (in_port f)) b in
  let b := put16 26 (dl_vlan f) b in
  let b := put8 28 (dl_vlan_pcp f) b in
  let b := store 14 (load 0 6 (octet (dl_src f))) b in
  let b := store 20 (load 0 6 (octet (dl_dst f))) b in
  let b := put16 30 (dl_type f) b in
  let b := put32 36 (nw_src f) b in
  let b := put32 40 (nw_dst f) b in
  let b := put8 33 (nw_proto f) b in
  let b := put8 32 (nw_tos f) b in
  let b := put16 44 (tp_src f) b in
  let b := put16 46 (tp_dst f) b in
  let b := put64 48 (htonl 0) b in
  let b := put16 56 (htons OFPFC_ADD) b in
  let b := put32 64 (htonl buffer_id) b in
  let b := put16 58 (htons 5) b in
  let b := put16 60 (htons OFP_FLOW_PERMANENT) b in
  let b := put16 62 (htons OFP_DEFAULT_PRIORITY) b in
  let b := put16 70 (htons ofd_flow_mod_flags) b in
  let b := zero 72 8 b in
  let b := put16 72 (htons OFPAT_OUTPUT) b in
  let b := put16 74 (htons 8) b in
  let b := put16 78 (htons 0) b in
  put16 76 (htons out_port) b.

(** [Switch::handle]; it always returns [CONTINUE]. *)
Definition handle (raw : bytes) (pi : packet_in) (sw : switch) : res (list effect * switch) :=
  let dp := datapath_id pi in
  flow ← flow_of_packet (pi_in_port pi) (pi_buf pi) 0;
  if dl_type flow =? LLDP then Ret ([], sw)
  else
    let tbl := if negb (is_multicast (dl_src flow))
               then learn dp (dl_src flow) (pi_in_port pi) (sources sw) else sources sw in
    let sw := Switch tbl (setup_flows sw) in
    let out_port := find_port dp (dl_dst flow) tbl in
    let cmds :=
      if setup_flows sw && negb (out_port =? -1)
      then [Send_command dp (flow_mod_msg raw flow (pi_buffer_id pi) out_port)] else [] in
    if negb (setup_flows sw) || (out_port =? -1) || (pi_buffer_id pi =? UINT32_MAX) then
      let port := u16 (if out_port =? -1 then OFPP_FLOOD else out_port) in
      if pi_buffer_id pi =? UINT32_MAX then
        if negb (total_len pi =? m_size (pi_buf pi)) then Ret (cmds, sw)
        else Ret (cmds ++ [Send_packet dp (contents (pi_buf pi)) port (pi_in_port pi)], sw)
      else Ret (cmds ++ [Send_buffered dp (pi_buffer_id pi) port (pi_in_port pi)], sw)
    else Ret (cmds, sw).

(** A run over a sequence of packets. *)
Fixpoint handle_all (raw : bytes) (pis : list packet_in) (sw : switch) : res (list (list effect) * switch) :=
  match pis with
  | [] => Ret ([], sw)
  | pi :: pis =>
      '(es, sw) ← handle raw pi sw;
      '(ess, sw) ← handle_all raw pis sw;
      Ret (es :: ess, sw)
  end.

(** ** Facts *)

Lemma learn_insert dp mac port tbl : learn dp mac port tbl = <[(dp, octet mac) := port]> tbl.
Proof.
  unfold learn. destruct (tbl !! (dp, octet mac)) as [p|] eqn:Hl.
  - rewrite Hl. destruct (Z.eqb_spec p port) as [->|]; [by rewrite insert_id|done].
  - rewrite lookup_insert_eq. destruct (Z.eqb_spec (-1) port) as [<-|]; [done|]. by rewrite insert_insert_eq.
Qed.

(** The structure a switch reads in a flow entry: [raw] shows where the code
    leaves memory as it was. *)
Definition installed (raw : bytes) (f : flow) (buffer_id : Z) : of_flow_mod.t :=
  of_flow_mod.mk (built_header OFPT_FLOW_MOD 80 (of_be (load 4 4 raw)))
    (of_match.mk 0 (in_port f) (octet (dl_src f)) (octet (dl_dst f)) (ntohs (dl_vlan f)) (dl_vlan_pcp f)
       (load 29 1 raw) (ntohs (dl_type f)) (nw_tos f) (nw_proto f) (load 34 2 raw)
       (ntohl (nw_src f)) (ntohl (nw_dst f)) (ntohs (tp_src f)) (ntohs (tp_dst f)))
    0 OFPFC_ADD 5 OFP_FLOW_PERMANENT OFP_DEFAULT_PRIORITY buffer_id (of_be (load 68 2 raw)) OFPFF_SEND_FLOW_REM.

Lemma to_be_load off n raw : is_bytes raw -> (off + n <= length raw)%nat ->
  to_be n (of_be (load off n raw)) = load off n raw.
Proof.
  intros Hb Hl. apply to_be_of_be; [by apply load_bytes|by apply length_load].
Qed.

Lemma flow_mod_wire raw f buffer_id out_port :
  length raw = 80%nat -> is_bytes raw -> flow_ok f ->
  flow_mod_msg raw f buffer_id out_port =
    of_flow_mod.wire (installed raw f buffer_id) ++
    of_action_output.wire (of_action_output.mk OFPAT_OUTPUT 8 out_port 0).
Proof.
  intros Hr Hb [? ? [Hs _] [Hd _] ? ? ? ? ? ? ?].
  assert (Hx : to_be 4 (of_be (load 4 4 raw)) = load 4 4 raw) by (apply to_be_load; [done|lia]).
  assert (Ho : to_be 2 (of_be (load 68 2 raw)) = load 68 2 raw) by (apply to_be_load; [done|lia]).
  unfold flow_mod_msg, put8, put16, put32.
  rewrite !htons_bytes, !htonl_bytes.
  rewrite (raw16_bytes (dl_vlan f)), (raw16_bytes (dl_type f)), (raw16_bytes (tp_src f)),
    (raw16_bytes (tp_dst f)), (raw32_bytes (nw_src f)), (raw32_bytes (nw_dst f)) by done.
  change (put64 48 (htonl 0)) with (store 48 (to_be 8 0)).
  change (htonl 0) with 0.
  unfold of_flow_mod.wire, installed, built_header, of_action_output.wire.
  cbn [of_flow_mod.header of_flow_mod.match_ of_flow_mod.cookie of_flow_mod.command of_flow_mod.idle_timeout
    of_flow_mod.hard_timeout of_flow_mod.priority of_flow_mod.buffer_id of_flow_mod.out_port of_flow_mod.flags
    msg_wire of_header.header_message of_match.match_message].
  unfold of_header.wire, of_match.wire.
  cbn [of_header.version of_header.type_ of_header.length_ of_header.xid of_match.wildcards of_match.in_port
    of_match.dl_src of_match.dl_dst of_match.dl_vlan of_match.dl_vlan_pcp of_match.pad1 of_match.dl_type
    of_match.nw_tos of_match.nw_proto of_match.pad2 of_match.nw_src of_match.nw_dst of_match.tp_src of_match.tp_dst].
  rewrite Hx, Ho. destruct (octet (dl_src f)) as [|s0 [|s1 [|s2 [|s3 [|s4 [|s5 [|]]]]]]]; try done.
  destruct (octet (dl_dst f)) as [|d0 [|d1 [|d2 [|d3 [|d4 [|d5 [|]]]]]]]; try done.
  clear -Hr. do 80 (destruct raw as [|? raw]; [done|]). destruct raw; [|done].
  reflexivity.
Qed.

Lemma installed_wf raw f buffer_id :
  length raw = 80%nat -> is_bytes raw -> flow_ok f -> is_u16 (in_port f) -> is_u32 buffer_id ->
  of_flow_mod.wf (installed raw f buffer_id).
Proof.
  intros Hr Hb [? Hpcp [Hs ?] [Hd ?] ? ? ? ? ? ? ?] Hp Hid.
  assert (Harr : forall (off n : nat), (off + n <= 80)%nat -> is_array n (load off n raw))
    by (intros; split; [apply length_load; lia|by apply load_bytes]).
  assert (Hbe : forall (off n : nat), (off + n <= 80)%nat -> 0 <= of_be (load off n raw) < 2 ^ (8 * Z.of_nat n)).
  { intros off n Hle. unfold of_be. destruct (Harr off n Hle) as [Hl Hby].
    pose proof (of_le_range (rev (load off n raw)) ltac:(by rewrite <- Permutation_rev)) as Hx.
    by rewrite length_rev, Hl in Hx. }
  assert (Hm : of_match.shape (of_flow_mod.match_ (installed raw f buffer_id))).
  { unfold of_match.shape. cbn. split_and!; try done; apply Harr; lia. }
  unfold of_flow_mod.wf, of_flow_mod.shape. split_and!; try done.
  - apply built_header_wf; [done|done|apply (Hbe 4%nat 4%nat); lia].
  - cbn [msg_wf of_match.match_message]. unfold of_match.wf. split_and!; try done;
      try apply htons_range; try apply htonl_range. cbn. unfold in_width. lia.
  - apply (Hbe 68%nat 2%nat). lia.
Qed.

Lemma flow_mod_decodes raw f buffer_id out_port :
  length raw = 80%nat -> is_bytes raw -> flow_ok f -> is_u16 (in_port f) -> is_u32 buffer_id -> is_u16 out_port ->
  of_flow_mod.unpack (flow_mod_msg raw f buffer_id out_port) = Some (installed raw f buffer_id) /\
  of_action_output.unpack (drop 72 (flow_mod_msg raw f buffer_id out_port)) =
    Some (of_action_output.mk OFPAT_OUTPUT 8 out_port 0).
Proof.
  intros Hr Hb Hf Hp Hid Ho. rewrite flow_mod_wire by done.
  pose proof (installed_wf raw f buffer_id Hr Hb Hf Hp Hid) as Hwf. split.
  - by apply of_flow_mod.flow_mod_unpack_wire.
  - rewrite drop_app_ge, (of_flow_mod.flow_mod_wire_length _ (proj1 Hwf)) by
      (rewrite (of_flow_mod.flow_mod_wire_length _ (proj1 Hwf)); unfold of_flow_mod.size; lia).
    rewrite <- (app_nil_r (of_action_output.wire _)).
    apply (of_action_output.action_output_unpack_wire _ []). by split_and!.
Qed.

(** ** What a switch does with the commands *)

(** The ports the packet leaves on: a flow entry that names the packet's
    buffer releases it through the entry's action. *)
Definition outputs (e : effect) : list Z :=
  match e with
  | Send_command _ msg =>
      match of_flow_mod.unpack msg, of_action_output.unpack (drop 72 msg) with
      | Some fm, Some a => if of_flow_mod.buffer_id fm =? UINT32_MAX then [] else [of_action_output.port a]
      | _, _ => []
      end
  | Send_packet _ _ out_port _ | Send_buffered _ _ out_port _ => [out_port]
  end.

(** The flow entries installed: the match, without its padding, and the port. *)
Definition unpadded (m : of_match.t) : of_match.t :=
  of_match.mk (of_match.wildcards m) (of_match.in_port m) (of_match.dl_src m) (of_match.dl_dst m)
    (of_match.dl_vlan m) (of_match.dl_vlan_pcp m) [0] (of_match.dl_type m) (of_match.nw_tos m)
    (of_match.nw_proto m) [0; 0] (of_match.nw_src m) (of_match.nw_dst m) (of_match.tp_src m) (of_match.tp_dst m).

Definition installs (e : effect) : list (of_match.t * Z) :=
  match e with
  | Send_command _ msg =>
      match of_flow_mod.unpack msg, of_action_output.unpack (drop 72 msg) with
      | Some fm, Some a => [(unpadded (of_flow_mod.match_ fm), of_action_output.port a)]
      | _, _ => []
      end
  | _ => []
  end.

(** The flow with its input port in network order, as [Packet_in_event]
    keeps it. *)
Definition wire_flow (f : flow) : flow :=
  Flow (invalid f) (htons (in_port f)) (dl_vlan f) (dl_vlan_pcp f) (dl_src f) (dl_dst f) (dl_type f)
    (nw_src f) (nw_dst f) (nw_proto f) (nw_tos f) (tp_src f) (tp_dst f) (cookie f).

Lemma installed_match raw f buffer_id : flow_ok f -> is_u16 (in_port f) ->
  unpadded (of_flow_mod.match_ (installed raw f buffer_id)) = get_exact_match (wire_flow f).
Proof.
  intros [? ? [Hs ?] [Hd ?] ? ? ? ? ? ? ?] Hp. unfold unpadded, get_exact_match, wire_flow.
  cbn [in_port dl_src dl_dst dl_vlan dl_vlan_pcp dl_type nw_tos nw_proto nw_src nw_dst tp_src tp_dst].
  by rewrite ntohs_htons, !load_full.
Qed.

(** The learned port of a destination. *)
Definition known (tbl : source_table) (dp : Z) (mac : ethernetaddr) : option Z :=
  if is_multicast mac then None else tbl !! (dp, octet mac).

Definition ports_ok (tbl : source_table) : Prop := map_Forall (fun _ p => is_u16 p) tbl.

Lemma find_port_known tbl dp mac : ports_ok tbl ->
  find_port dp mac tbl = default (-1) (known tbl dp mac) /\ (find_port dp mac tbl = -1 <-> known tbl dp mac = None) /\
  forall p, known tbl dp mac = Some p -> is_u16 p.
Proof.
  intros Hok. unfold find_port, known. destruct (is_multicast mac); simpl; [done|].
  destruct (tbl !! (dp, octet mac)) as [p|] eqn:Hl; simpl; [|done].
  pose proof (Hok _ _ Hl) as Hp. split_and!; [done|split; [intros ->; by destruct Hp|done]|].
  intros q [= <-]. done.
Qed.

Record packet_ok (pi : packet_in) : Prop := {
  pk_buf : buffer_ok (pi_buf pi);
  pk_port : is_u16 (pi_in_port pi);
  pk_id : is_u32 (pi_buffer_id pi)
}.

(** The table after a packet with flow [f]. *)
Definition learned (pi : packet_in) (f : flow) (tbl : source_table) : source_table :=
  if is_multicast (dl_src f) then tbl else <[(datapath_id pi, octet (dl_src f)) := pi_in_port pi]> tbl.

Lemma handle_spec raw pi sw :
  length raw = 80%nat -> is_bytes raw -> packet_ok pi -> ports_ok (sources sw) ->
  exists f es sw', flow_of_packet (pi_in_port pi) (pi_buf pi) 0 = Ret f /\
    handle raw pi sw = Ret (es, sw') /\ ports_ok (sources sw') /\ setup_flows sw' = setup_flows sw /\
    (dl_type f = LLDP -> es = [] /\ sw' = sw) /\
    (dl_type f <> LLDP ->
       let dest := known (learned pi f (sources sw)) (datapath_id pi) (dl_dst f) in
       sources sw' = learned pi f (sources sw) /\
       flat_map outputs es =
         (if (pi_buffer_id pi =? UINT32_MAX) && negb (total_len pi =? m_size (pi_buf pi))
          then [] else [default OFPP_FLOOD dest]) /\
       flat_map installs es =
         (if setup_flows sw then (fun p => (get_exact_match (wire_flow f), p)) <$> option_list dest else [])).
Proof.
  intros Hr Hb [Hbuf Hport Hid] Hok.
  destruct (flow_of_packet_ok (pi_buf pi) Hbuf (pi_in_port pi) 0) as (f & Hf & Hfok & Hfp & _).
  exists f. unfold handle. rewrite Hf. cbn [mbind res_bind].
  destruct (Z.eqb_spec (dl_type f) LLDP) as [Hll|Hnll].
  { exists [], sw. split_and!; done. }
  assert (Htbl : (if negb (is_multicast (dl_src f)) then learn (datapath_id pi) (dl_src f) (pi_in_port pi) (sources sw)
    else sources sw) = learned pi f (sources sw)).
  { unfold learned. rewrite learn_insert. by destruct (is_multicast (dl_src f)). }
  rewrite Htbl. set (tbl := learned pi f (sources sw)). assert (Hok' : ports_ok tbl).
  { unfold tbl, learned. destruct (is_multicast (dl_src f)); [done|]. by apply map_Forall_insert_2. }
  destruct (find_port_known tbl (datapath_id pi) (dl_dst f) Hok') as (Hfind & Hnone & Hrange).
  set (op := find_port (datapath_id pi) (dl_dst f) tbl) in *.
  set (dest := known tbl (datapath_id pi) (dl_dst f)) in *.
  assert (Hcmd : forall p, dest = Some p ->
    outputs (Send_command (datapath_id pi) (flow_mod_msg raw f (pi_buffer_id pi) p)) =
      (if pi_buffer_id pi =? UINT32_MAX then [] else [p]) /\
    installs (Send_command (datapath_id pi) (flow_mod_msg raw f (pi_buffer_id pi) p)) =
      [(get_exact_match (wire_flow f), p)]).
  { intros p Hp. destruct (flow_mod_decodes raw f (pi_buffer_id pi) p) as [E1 E2]; try done;
      [by rewrite Hfp|by apply Hrange|]. unfold outputs, installs. rewrite E1, E2.
    rewrite installed_match by (done || by rewrite Hfp). done. }
  clearbody tbl op dest. cbn [setup_flows sources].
  set (cmd := fun p => Send_command (datapath_id pi) (flow_mod_msg raw f (pi_buffer_id pi) p)).
  destruct dest as [p|].
  - simpl in Hfind. subst op. destruct (Hcmd p eq_refl) as [Ho Hi]. pose proof (Hrange p eq_refl) as Hp.
    rewrite (proj2 (Z.eqb_neq p (-1))) by (unfold in_width in Hp; lia). unfold wrap.
    rewrite (Z.mod_small p) by (unfold in_width in Hp; lia). fold (cmd p) in *. clearbody cmd.
    destruct (setup_flows sw), (pi_buffer_id pi =? UINT32_MAX), (total_len pi =? m_size (pi_buf pi));
      cbn [negb orb andb app]; (eexists _, _; split_and!; [done|reflexivity|done|done|done|intros _]);
      cbn [flat_map app outputs installs option_list fmap list_fmap default]; rewrite ?Ho, ?Hi; done.
  - simpl in Hfind. subst op. cbn [Z.eqb]. rewrite orb_true_r, andb_false_r.
    change (u16 OFPP_FLOOD) with OFPP_FLOOD.
    destruct (setup_flows sw), (pi_buffer_id pi =? UINT32_MAX), (total_len pi =? m_size (pi_buf pi));
      cbn [negb orb andb app]; (eexists _, _; split_and!; [done|reflexivity|done|done|done|intros _]); done.
Qed.

(** The port a sequence of packets teaches for a switch and an address. *)
Definition teaches (dp : Z) (o : bytes) (pi : packet_in) : option Z :=
  match flow_of_packet (pi_in_port pi) (pi_buf pi) 0 with
  | Ret f => if (datapath_id pi =? dp) && negb (dl_type f =? LLDP) && negb (is_multicast (dl_src f)) &&
                bool_decide (octet (dl_src f) = o)
             then Some (pi_in_port pi) else None
  | _ => None
  end.

Fixpoint last_seen (dp : Z) (o : bytes) (pis : list packet_in) : option Z :=
  match pis with
  | [] => None
  | pi :: pis => match last_seen dp o pis with Some p => Some p | None => teaches dp o pi end
  end.

Lemma handle_all_snoc raw pis pi sw :
  handle_all raw (pis ++ [pi]) sw =
  ('(ess, sw) ← handle_all raw pis sw; '(es, sw) ← handle raw pi sw; Ret (ess ++ [es], sw)).
Proof.
  revert sw. induction pis as [|x pis IH]; intros sw; simpl; [by destruct (handle raw pi sw) as [[? ?]| | |]|].
  destruct (handle raw x sw) as [[es sw1]| | |]; simpl; [|done..]. rewrite IH.
  destruct (handle_all raw pis sw1) as [[ess sw2]| | |]; simpl; [|done..].
  by destruct (handle raw pi sw2) as [[? ?]| | |].
Qed.

Lemma handle_all_spec raw pis sw :
  length raw = 80%nat -> is_bytes raw -> Forall packet_ok pis -> ports_ok (sources sw) ->
  exists ess sw', handle_all raw pis sw = Ret (ess, sw') /\ length ess = length pis /\ ports_ok (sources sw') /\
    setup_flows sw' = setup_flows sw /\
    forall dp o, sources sw' !! (dp, o) =
      match last_seen dp o pis with Some p => Some p | None => sources sw !! (dp, o) end.
Proof.
  intros Hr Hb Hpis. revert sw. induction Hpis as [|pi pis Hpi _ IH]; intros sw Hok; simpl.
  { exists [], sw. by split_and!. }
  destruct (handle_spec raw pi sw Hr Hb Hpi Hok) as (f & es & sw1 & Hf & -> & Hok1 & Hset & Hll & Hnll).
  cbn [mbind res_bind]. destruct (IH sw1 Hok1) as (ess & sw' & -> & Hlen & Hok' & Hset' & Htbl).
  exists (es :: ess), sw'. split_and!; [done|simpl; lia|done|congruence|].
  intros dp o. rewrite Htbl. destruct (last_seen dp o pis); [done|]. unfold teaches. rewrite Hf.
  destruct (Z.eqb_spec (dl_type f) LLDP) as [Hd|Hd].
  - destruct (Hll Hd) as [_ ->]. by rewrite andb_false_r.
  - destruct (Hnll Hd) as [-> _]. unfold learned. cbn [negb]. rewrite andb_true_r.
    destruct (is_multicast (dl_src f)); [by rewrite andb_false_r|]. rewrite andb_true_r.
    destruct (decide ((datapath_id pi, octet (dl_src f)) = (dp, o))) as [[= <- <-]|Hne].
    + by rewrite lookup_insert_eq, Z.eqb_refl, bool_decide_true.
    + rewrite lookup_insert_ne by done. destruct (Z.eqb_spec (datapath_id pi) dp) as [<-|]; [|done].
      by rewrite bool_decide_false by congruence.
Qed.

(** ** The hub (src/nox/coreapps/hub/hub.cc)

    Every flow is flooded.  The flow entry is built as in the switch, but the type of
    service is not set. *)

Module Hub.

Definition hub_flow_mod_msg (raw : bytes) (f : flow) (buffer_id : Z) : bytes :=
  let b := put8 0 OFP_VERSION raw in
  let b := put8 1 OFPT_FLOW_MOD b in
  let b := put16 2 (htons 80) b in
  let b := put32 8 (htonl 0) b in
  let b := put16 12 (htons (in_port f)) b in
  let b := put16 26 (dl_vlan f) b in
  let b := put8 28 (dl_vlan_pcp f) b in
  let b := store 14 (load 0 6 (octet (dl_src f))) b in
  let b := store 20 (load 0 6 (octet (dl_dst f))) b in
  let b := put16 30 (dl_type f) b in
  let b := put32 36 (nw_src f) b in
  let b := put32 40 (nw_dst f) b in
  let b := put8 33 (nw_proto f) b in
  let b := put16 44 (tp_src f) b in
  let b := put16 46 (tp_dst f) b in
  let b := put64 48 (htonl 0) b in
  let b := put16 56 (htons OFPFC_ADD) b in
  let b := put32 64 (htonl buffer_id) b in
  let b := put16 58 (htons 5) b in
  let b := put16 60 (htons 5) b in
  let b := put16 62 (htons OFP_DEFAULT_PRIORITY) b in
  let b := put16 70 (htons 0) b in
  let b := zero 72 8 b in
  let b := put16 72 (htons OFPAT_OUTPUT) b in
  let b := put16 74 (htons 8) b in
  let b := put16 76 (htons OFPP_FLOOD) b in
  put16 78 (htons 0) b.

(** [Hub::handler] *)
Definition handler (raw : bytes) (pi : packet_in) : res (list effect) :=
  flow ← flow_of_packet (pi_in_port pi) (pi_buf pi) 0;
  if dl_type flow =? LLDP then Ret []
  else
    let cmd := Send_command (datapath_id pi) (hub_flow_mod_msg raw flow (pi_buffer_id pi)) in
    if (pi_buffer_id pi =? UINT32_MAX) && (total_len pi =? m_size (pi_buf pi))
    then Ret [cmd; Send_packet (datapath_id pi) (contents (pi_buf pi)) OFPP_FLOOD (pi_in_port pi)]
    else Ret [cmd].

(** The entry of a hub: that of the switch but for the type of service, which is what
    memory held, the timeout and the flags *)
Definition entry (raw : bytes) (f : flow) (buffer_id : Z) : of_flow_mod.t :=
  of_flow_mod.mk (built_header OFPT_FLOW_MOD 80 (of_be (load 4 4 raw)))
    (of_match.mk 0 (in_port f) (octet (dl_src f)) (octet (dl_dst f)) (ntohs (dl_vlan f)) (dl_vlan_pcp f)
       (load 29 1 raw) (ntohs (dl_type f)) (nth 32 raw 0) (nw_proto f) (load 34 2 raw)
       (ntohl (nw_src f)) (ntohl (nw_dst f)) (ntohs (tp_src f)) (ntohs (tp_dst f)))
    0 OFPFC_ADD 5 5 OFP_DEFAULT_PRIORITY buffer_id (of_be (load 68 2 raw)) 0.

Lemma hub_flow_mod_wire raw f buffer_id :
  length raw = 80%nat -> is_bytes raw -> flow_ok f ->
  hub_flow_mod_msg raw f buffer_id = of_flow_mod.wire (entry raw f buffer_id) ++ of_action_output.wire (of_action_output.mk OFPAT_OUTPUT 8 OFPP_FLOOD 0).
Proof.
  intros Hr Hb [? ? [Hs _] [Hd _] ? ? ? ? ? ? ?].
  assert (Hx : to_be 4 (of_be (load 4 4 raw)) = load 4 4 raw) by (apply to_be_load; [done|lia]).
  assert (Ho : to_be 2 (of_be (load 68 2 raw)) = load 68 2 raw) by (apply to_be_load; [done|lia]).
  unfold hub_flow_mod_msg, put8, put16, put32.
  rewrite !htons_bytes, !htonl_bytes.
  rewrite (raw16_bytes (dl_vlan f)), (raw16_bytes (dl_type f)), (raw16_bytes (tp_src f)),
    (raw16_bytes (tp_dst f)), (raw32_bytes (nw_src f)), (raw32_bytes (nw_dst f)) by done.
  change (put64 48 (htonl 0)) with (store 48 (to_be 8 0)).
  change (htonl 0) with 0.
  unfold of_flow_mod.wire, entry, built_header, of_action_output.wire.
  cbn [of_flow_mod.header of_flow_mod.match_ of_flow_mod.cookie of_flow_mod.command of_flow_mod.idle_timeout
    of_flow_mod.hard_timeout of_flow_mod.priority of_flow_mod.buffer_id of_flow_mod.out_port of_flow_mod.flags
    msg_wire of_header.header_message of_match.match_message].
  unfold of_header.wire, of_match.wire.
  cbn [of_header.version of_header.type_ of_header.length_ of_header.xid of_match.wildcards of_match.in_port
    of_match.dl_src of_match.dl_dst of_match.dl_vlan of_match.dl_vlan_pcp of_match.pad1 of_match.dl_type
    of_match.nw_tos of_match.nw_proto of_match.pad2 of_match.nw_src of_match.nw_dst of_match.tp_src of_match.tp_dst].
  rewrite Hx, Ho. destruct (octet (dl_src f)) as [|s0 [|s1 [|s2 [|s3 [|s4 [|s5 [|]]]]]]]; try done.
  destruct (octet (dl_dst f)) as [|d0 [|d1 [|d2 [|d3 [|d4 [|d5 [|]]]]]]]; try done.
  clear -Hr. do 80 (destruct raw as [|? raw]; [done|]). destruct raw; [|done].
  reflexivity.
Qed.

Definition flow_with_tos (t : Z) (f : flow) : flow :=
  Flow (invalid f) (in_port f) (dl_vlan f) (dl_vlan_pcp f) (dl_src f) (dl_dst f) (dl_type f) (nw_src f) (nw_dst f) (nw_proto f) t (tp_src f) (tp_dst f) (cookie f).

Lemma hub_entry_wf raw f buffer_id :
  length raw = 80%nat -> is_bytes raw -> flow_ok f -> is_u16 (in_port f) -> is_u32 buffer_id -> of_flow_mod.wf (entry raw f buffer_id).
Proof.
  intros Hr Hb Hf Hp Hid. assert (is_u8 (nth 32 raw 0)) as Ht.
  { rewrite Forall_forall in Hb. apply Hb, list_elem_of_In, nth_In. lia. }
  assert (flow_ok (flow_with_tos (nth 32 raw 0) f)) as Hf' by (destruct Hf; by split).
  destruct (installed_wf raw (flow_with_tos (nth 32 raw 0) f) buffer_id Hr Hb Hf' Hp Hid) as ([S1 S2] & H & M & C & Cm & Id & _ & Pr & Bu & Op & _).
  exact (conj (conj S1 S2) (conj H (conj M (conj C (conj Cm (conj Id (conj Id (conj Pr (conj Bu (conj Op C)))))))))).
Qed.

(** The exact match of a flow with another type of service *)
Definition with_tos (t : Z) (m : of_match.t) : of_match.t :=
  of_match.mk (of_match.wildcards m) (of_match.in_port m) (of_match.dl_src m) (of_match.dl_dst m)
    (of_match.dl_vlan m) (of_match.dl_vlan_pcp m) (of_match.pad1 m) (of_match.dl_type m) t
    (of_match.nw_proto m) (of_match.pad2 m) (of_match.nw_src m) (of_match.nw_dst m) (of_match.tp_src m) (of_match.tp_dst m).

(** Every packet but LLDP is flooded, unless it is neither buffered nor complete, and an
    entry that floods is installed: it is the exact match of the packet except for the
    type of service, which is the byte that the new memory held. *)
Lemma hub_floods raw pi : length raw = 80%nat -> is_bytes raw -> packet_ok pi ->
  exists f es, flow_of_packet (pi_in_port pi) (pi_buf pi) 0 = Ret f /\ handler raw pi = Ret es /\
    (dl_type f = LLDP -> es = []) /\
    (dl_type f <> LLDP ->
      flat_map outputs es = (if (pi_buffer_id pi =? UINT32_MAX) && negb (total_len pi =? m_size (pi_buf pi)) then [] else [OFPP_FLOOD]) /\
      flat_map installs es = [(with_tos (nth 32 raw 0) (get_exact_match (wire_flow f)), OFPP_FLOOD)]).
Proof.
  intros Hr Hb [Hbuf Hport Hid]. destruct (flow_of_packet_ok (pi_buf pi) Hbuf (pi_in_port pi) 0) as (f & Hf & Hfok & Hfp & _).
  assert (is_u16 (in_port f)) as Hp by (by rewrite Hfp). exists f. unfold handler. rewrite Hf. cbn [mbind res_bind].
  destruct (Z.eqb_spec (dl_type f) LLDP) as [Hll|Hnll]; [by exists []|].
  pose proof (hub_entry_wf raw f (pi_buffer_id pi) Hr Hb Hfok Hp Hid) as Hwf.
  pose proof (installed_match raw f (pi_buffer_id pi) Hfok Hp) as Hm.
  assert (installs (Send_command (datapath_id pi) (hub_flow_mod_msg raw f (pi_buffer_id pi))) = [(with_tos (nth 32 raw 0) (get_exact_match (wire_flow f)), OFPP_FLOOD)] /\
    outputs (Send_command (datapath_id pi) (hub_flow_mod_msg raw f (pi_buffer_id pi))) = if pi_buffer_id pi =? UINT32_MAX then [] else [OFPP_FLOOD]) as [Hi Ho].
  { unfold installs, outputs. rewrite hub_flow_mod_wire by done. rewrite (of_flow_mod.flow_mod_unpack_wire _ _ Hwf).
    rewrite drop_app_ge, (of_flow_mod.flow_mod_wire_length _ (proj1 Hwf)) by
      (rewrite (of_flow_mod.flow_mod_wire_length _ (proj1 Hwf)); unfold of_flow_mod.size; lia).
    assert (of_action_output.unpack (of_action_output.wire (of_action_output.mk OFPAT_OUTPUT 8 OFPP_FLOOD 0)) = Some (of_action_output.mk OFPAT_OUTPUT 8 OFPP_FLOOD 0)) as Ha.
    { rewrite <- (app_nil_r (of_action_output.wire _)). apply (of_action_output.action_output_unpack_wire _ []). by split_and!. }
    change (drop (72 - of_flow_mod.size) (of_action_output.wire (of_action_output.mk OFPAT_OUTPUT 8 OFPP_FLOOD 0)))
      with (of_action_output.wire (of_action_output.mk OFPAT_OUTPUT 8 OFPP_FLOOD 0)). rewrite Ha. split; [|done]. rewrite <- Hm. done. }
  set (cmd := Send_command _ _) in *. clearbody cmd.
  destruct (pi_buffer_id pi =? UINT32_MAX), (total_len pi =? m_size (pi_buf pi)); cbn [andb negb]; eexists; (split_and!; [done|reflexivity|done|intros _]);
    cbn [flat_map app]; rewrite Hi, Ho; done.
Qed.

End Hub.
