(* ===== verification/SwitchProps.v ===== *)
(** * Properties of the learning switch and of the messages sent to datapaths *)

From stdpp Require Import strings.
From S2P Require Import Prelude Bytes Buffer Ethernetaddr Flow FlowSpec OfpWire OfpCore OfpActions OfpStats OfpMessages FlowMatch FlowProps OpenflowStream OpenflowConnection OpenflowSend OpenflowProps Switch.

Open Scope Z_scope.

(** ** Packets to evaluate *)

(** Two hosts behind the ports 3 and 4 of switch 1 talk to each other. *)
Definition eth_frame (dst src : bytes) : buffer := let b := dst ++ src ++ [0x90; 0; 1; 2; 3] in Buffer b 0 17.
Definition host_a : bytes := [2; 0; 0; 0; 0; 10].
Definition host_b : bytes := [2; 0; 0; 0; 0; 11].
Definition a_to_b : packet_in := PacketIn 1 3 (eth_frame host_b host_a) 17 77.
Definition b_to_a : packet_in := PacketIn 1 4 (eth_frame host_a host_b) 17 UINT32_MAX.
Definition memory80 : bytes := replicate 80 204.
Definition empty_switch : switch := Switch ∅ true.

Lemma memory80_ok : length memory80 = 80%nat /\ is_bytes memory80.
Proof. split; [done|]. by apply Forall_replicate. Qed.

Lemma eth_frame_ok dst src : length dst = 6%nat -> length src = 6%nat -> is_bytes dst -> is_bytes src ->
  buffer_ok (eth_frame dst src).
Proof.
  intros Hd Hs Hdb Hsb. assert (Hl : length (dst ++ src ++ [0x90; 0; 1; 2; 3]) = 17%nat)
    by (rewrite !length_app, Hd, Hs; reflexivity).
  constructor; unfold eth_frame, capacity; cbn [base m_data m_size]; rewrite ?Hl; try lia.
  rewrite !Forall_app. split_and!; try done. by apply bytes_check.
Qed.

Lemma demo_packets_ok : Forall packet_ok [a_to_b; b_to_a].
Proof.
  constructor; [|constructor; [|constructor]];
    (constructor; [apply eth_frame_ok; try done; by apply bytes_check|by vm_compute|by vm_compute]).
Qed.

(** ** Properties *)

(** C12: The switch learns and forwards.  Whatever packets arrive, in whatever
    order and from whatever switches, none makes the handler fail, and afterwards
    the table knows an address exactly when it was the (unicast) source of a
    packet other than LLDP, with the port of the last such packet.  Every packet
    other than LLDP leaves exactly once: on the port last seen for its
    destination, or flooded when the destination is multicast or was never seen;
    the one exception is a packet of which the datapath sent only a part without
    buffering it.  When the port is known and flows are enabled, one flow entry
    is installed, and its match, decoded from the bytes sent, is the exact match
    of the packet's flow, with that port as its only action. *)
Theorem switch_correct (raw : bytes) (pis : list packet_in) (pi : packet_in) (flows : bool) :
  length raw = 80%nat -> is_bytes raw -> Forall packet_ok (pis ++ [pi]) ->
  exists ess sw f es sw', handle_all raw pis (Switch ∅ flows) = Ret (ess, sw) /\
    flow_of_packet (pi_in_port pi) (pi_buf pi) 0 = Ret f /\ handle raw pi sw = Ret (es, sw') /\
    (forall dp o, sources sw' !! (dp, o) = last_seen dp o (pis ++ [pi])) /\
    (dl_type f = LLDP -> es = [] /\ sw' = sw) /\
    (dl_type f <> LLDP ->
       let dest := if is_multicast (dl_dst f) then None
                   else last_seen (datapath_id pi) (octet (dl_dst f)) (pis ++ [pi]) in
       flat_map outputs es =
         (if (pi_buffer_id pi =? UINT32_MAX) && negb (total_len pi =? m_size (pi_buf pi))
          then [] else [default OFPP_FLOOD dest]) /\
       flat_map installs es =
         (if flows then (fun p => (get_exact_match (wire_flow f), p)) <$> option_list dest else [])).
Proof.
  intros Hr Hb Hall. pose proof Hall as [Hpis [Hpi _]%Forall_cons]%Forall_app.
  destruct (handle_all_spec raw pis (Switch ∅ flows) Hr Hb Hpis) as (ess & sw & Hs & _ & Hok & Hset & _);
    [apply map_Forall_empty|].
  destruct (handle_spec raw pi sw Hr Hb Hpi Hok) as (f & es & sw' & Hf & Hh & _ & _ & Hll & Hnll).
  destruct (handle_all_spec raw (pis ++ [pi]) (Switch ∅ flows) Hr Hb Hall) as (ess2 & sw2 & Hs2 & _ & _ & _ & Htbl);
    [apply map_Forall_empty|].
  rewrite handle_all_snoc, Hs in Hs2. cbn [mbind res_bind] in Hs2. rewrite Hh in Hs2. injection Hs2 as _ <-.
  assert (Hsrc : forall dp o, sources sw' !! (dp, o) = last_seen dp o (pis ++ [pi])).
  { intros dp o. rewrite Htbl. simpl. rewrite lookup_empty. by destruct (last_seen dp o (pis ++ [pi])). }
  exists ess, sw, f, es, sw'. split_and!; try done. intros Hd. destruct (Hnll Hd) as (Esrc & Hout & Hin).
  rewrite <- Esrc in Hout, Hin. unfold known in Hout, Hin. rewrite Hsrc in Hout, Hin. rewrite Hset in Hin. done.
Qed.

Lemma switch_correct_witness :
  exists ess sw f es sw', handle_all memory80 [a_to_b] (Switch ∅ true) = Ret (ess, sw) /\
    flow_of_packet (pi_in_port b_to_a) (pi_buf b_to_a) 0 = Ret f /\ handle memory80 b_to_a sw = Ret (es, sw') /\
    (forall dp o, sources sw' !! (dp, o) = last_seen dp o ([a_to_b] ++ [b_to_a])) /\
    (dl_type f = LLDP -> es = [] /\ sw' = sw) /\
    (dl_type f <> LLDP ->
       let dest := if is_multicast (dl_dst f) then None
                   else last_seen (datapath_id b_to_a) (octet (dl_dst f)) ([a_to_b] ++ [b_to_a]) in
       flat_map outputs es =
         (if (pi_buffer_id b_to_a =? UINT32_MAX) && negb (total_len b_to_a =? m_size (pi_buf b_to_a))
          then [] else [default OFPP_FLOOD dest]) /\
       flat_map installs es = (fun p => (get_exact_match (wire_flow f), p)) <$> option_list dest).
Proof. apply (switch_correct memory80 [a_to_b] b_to_a true); [apply memory80_ok..|apply demo_packets_ok]. Defined.

(** The reply of the second host is sent straight back to the first. *)
Lemma demo_reply : exists ess sw',
  handle_all memory80 [a_to_b; b_to_a] empty_switch = Ret (ess, sw') /\
  map (flat_map outputs) ess = [[OFPP_FLOOD]; [3]] /\ map (fun es => length (flat_map installs es)) ess = [0%nat; 1%nat].
Proof. eexists _, _. split; [vm_compute; reflexivity|]. split; vm_compute; reflexivity. Qed.

(** Packet-out messages say what was asked: the message for a packet or
    a buffer decodes to a packet-out with the right length, buffer, input port
    and one output action, followed by exactly the packet's bytes; a packet
    too large for a message is caught by the [assert]. *)
Theorem packet_out_correct (new_uint8 : Z -> bytes) (raw packet : bytes) (buffer_id out_port in_port : Z) :
  (forall n, 0 <= n -> Z.of_nat (length (new_uint8 n)) = n) -> length raw = 8%nat ->
  is_u16 out_port -> is_u16 in_port -> is_u32 buffer_id ->
  (match send_packet_data new_uint8 raw packet out_port in_port with
   | Ret m => 24 + Z.of_nat (length packet) <= UINT16_MAX /\
       of_packet_out.unpack m =
         Some (packet_out_header (24 + Z.of_nat (length packet)) UINT32_MAX in_port 8) /\
       of_action_output.unpack (drop 16 m) = Some (of_action_output.mk OFPAT_OUTPUT 8 out_port 0) /\
       drop 24 m = packet
   | Aborted => UINT16_MAX < 24 + Z.of_nat (length packet)
   | _ => False
   end) /\
  (exists m, send_packet_buffer new_uint8 raw buffer_id out_port in_port = Ret m /\
     of_packet_out.unpack m = Some (packet_out_header 24 buffer_id in_port 8) /\
     of_action_output.unpack (drop 16 m) = Some (of_action_output.mk OFPAT_OUTPUT 8 out_port 0) /\
     drop 24 m = []).
Proof.
  intros Hnew Hraw Ho Hi Hid.
  assert (Hact : length (output_action raw out_port) = 8%nat)
    by (rewrite output_action_wire by done; by apply of_action_output.action_output_wire_length).
  assert (Hdrop : forall w rest, length w = 16%nat ->
    drop 16 (w ++ output_action raw out_port ++ rest) = output_action raw out_port ++ rest /\
    drop 24 (w ++ output_action raw out_port ++ rest) = rest).
  { intros w rest Hw. split.
    - by rewrite drop_app_length' by done.
    - rewrite app_assoc. by rewrite drop_app_length' by (rewrite length_app; lia). }
  split.
  - unfold send_packet_data. destruct (Z.leb_spec (24 + Z.of_nat (length packet)) UINT16_MAX) as [Hs|Hs].
    + rewrite packet_out_data_spec by (done || (rewrite Hact; lia)). rewrite Hact.
      replace (16 + Z.of_nat 8 + Z.of_nat (length packet)) with (24 + Z.of_nat (length packet)) by lia.
      destruct (Hdrop (of_packet_out.wire (packet_out_header (24 + Z.of_nat (length packet)) UINT32_MAX in_port 8))
        packet eq_refl) as [H16 H24].
      change (2 ^ 32 - 1) with UINT32_MAX. change (Z.of_nat 8) with 8. split_and!; [done| | |done].
      * apply packet_out_decodes; try done. unfold in_width, UINT16_MAX in *. lia.
      * rewrite H16. by apply output_action_decodes.
    + unfold packet_out_data. rewrite Hact. rewrite (proj2 (Z.leb_gt _ _)) by lia. done.
  - unfold send_packet_buffer. rewrite packet_out_buffer_spec by (done || (rewrite Hact; by vm_compute)).
    rewrite Hact. destruct (Hdrop (of_packet_out.wire (packet_out_header 24 buffer_id in_port 8)) [] eq_refl) as [H16 H24].
    rewrite app_nil_r in *. eexists. split_and!; [reflexivity| | |done].
    + by apply packet_out_decodes.
    + change (16 + Z.of_nat 8) with 24. change (Z.of_nat 8) with 8. rewrite H16.
      rewrite <- (app_nil_r (output_action raw out_port)). by apply output_action_decodes.
Qed.

Lemma packet_out_correct_witness :
  (match send_packet_data zero_memory (zero_memory 8) [7; 8; 9] 4 3 with
   | Ret m => 24 + Z.of_nat (length [7; 8; 9]) <= UINT16_MAX /\
       of_packet_out.unpack m =
         Some (packet_out_header (24 + Z.of_nat (length [7; 8; 9])) UINT32_MAX 3 8) /\
       of_action_output.unpack (drop 16 m) = Some (of_action_output.mk OFPAT_OUTPUT 8 4 0) /\
       drop 24 m = [7; 8; 9]
   | Aborted => UINT16_MAX < 24 + Z.of_nat (length [7; 8; 9])
   | _ => False
   end) /\
  (exists m, send_packet_buffer zero_memory (zero_memory 8) 77 4 3 = Ret m /\
     of_packet_out.unpack m = Some (packet_out_header 24 77 3 8) /\
     of_action_output.unpack (drop 16 m) = Some (of_action_output.mk OFPAT_OUTPUT 8 4 0) /\
     drop 24 m = []).
Proof.
  apply (packet_out_correct zero_memory (zero_memory 8) [7; 8; 9] 77 4 3);
    [apply zero_memory_length|done|by vm_compute..].
Defined.

(** Requests as switches read them: the configuration request asks for
    the default packet length, but the type of a statistics request is sent
    in host byte order, so a little-endian controller's request for type [t]
    is read as a request for [t] with its bytes swapped. *)
Theorem requests_on_the_wire (raw : bytes) (type xid : Z) :
  length raw = 12%nat -> is_u16 type -> is_u32 xid ->
  of_switch_config.unpack (switch_config_msg raw xid) =
    Some (of_switch_config.mk (built_header OFPT_SET_CONFIG 12 (ntohl xid)) 0 OFP_DEFAULT_MISS_SEND_LEN) /\
  of_stats_request.unpack (stats_request_msg raw type xid) =
    Some (of_stats_request.mk (built_header OFPT_STATS_REQUEST 12 (ntohl xid)) (htons type) 0).
Proof. intros. split; [by apply switch_config_decodes|by apply stats_request_decodes]. Qed.

(** A request for port statistics (type 4) asks for type 1024. *)
Lemma requests_on_the_wire_witness :
  of_switch_config.unpack (switch_config_msg (zero_memory 12) 9) =
    Some (of_switch_config.mk (built_header OFPT_SET_CONFIG 12 (ntohl 9)) 0 OFP_DEFAULT_MISS_SEND_LEN) /\
  of_stats_request.unpack (stats_request_msg (zero_memory 12) 4 9) =
    Some (of_stats_request.mk (built_header OFPT_STATS_REQUEST 12 (ntohl 9)) 1024 0).
Proof.
  apply (requests_on_the_wire (zero_memory 12) 4 9); by vm_compute.
Defined.
