(* ===== verification/EventDispatcher.v ===== *)
(** * The event dispatcher (src/lib/event-dispatcher.cc)

    [Event_dispatcher] keeps ordered handlers per event name and a queue of
    pending events.  Handlers are client code: [body h e] is the program the
    handler [h] runs on event [e], a sequence of calls of the dispatcher's
    methods and of blocking operations.  A handler that blocks suspends its
    cooperative thread in the middle of [dispatch], and [poll] may be entered
    again by another thread: the machine below has a stack of activation
    records per thread and runs one of them at a time, under a schedule that
    is an argument. *)

From stdpp Require Import strings.
From S2P Require Import Prelude Bytes.

Open Scope Z_scope.

Abbreviation event_name := string.
Record event := Event { ename : event_name; payload : Z }.

Inductive disposition := CONTINUE | STOP.

(** ** Handlers *)

(** What a handler does. *)
Inductive hprog :=
| Return (d : disposition)
| Throw_exception                                          (* a [std::exception] leaks *)
| Post (e : event) (k : hprog)
| Add_handler (name : event_name) (h : Z) (order : Z) (k : hprog)
| Dispatch (e : event) (k : hprog)
| Block (k : hprog).                                       (* waits; other threads run *)

(** An element of a [Signal]: the order it was registered with, which
    registration it was, and the handler. *)
Record entry := Entry { e_order : Z; e_stamp : Z; e_handler : Z }.
Abbreviation signal := (list entry).

(** [multimap::insert]: after the elements with an equal key. *)
Fixpoint insert_handler (x : entry) (s : signal) : signal :=
  match s with
  | [] => [x]
  | y :: s' => if e_order y <=? e_order x then y :: insert_handler x s' else x :: s
  end.

(** The element an iterator moves to, given the one it stands on; [None] is
    the position before the first. *)
Fixpoint after (stamp : Z) (s : signal) : option entry :=
  match s with
  | [] => None
  | y :: s' => if e_stamp y =? stamp then head s' else after stamp s'
  end.
Definition next_entry (cur : option entry) (s : signal) : option entry :=
  match cur with None => head s | Some x => after (e_stamp x) s end.

(** ** State *)

(** Activation records.  [FDispatch] remembers the handlers called so far (the
    last one is where its iterator stands) and the number of registrations
    when it began. *)
Inductive frame :=
| FPoll (serial : Z) (i max : nat)                         (* at the head of the loop *)
| FPollCheck (serial : Z) (i max : nat)                    (* [dispatch] has returned *)
| FDispatch (e : event) (called : list entry) (begun : Z)
| FHandler (p : hprog).

(** A [dispatch] that has returned: the handlers it called, and whether one of
    them ended it. *)
Record outcome := Outcome { o_event : event; o_called : list entry; o_stopped : bool; o_begun : Z }.

Record sys := Sys {
  table : gmap event_name signal;
  queue : list event;
  serial : Z;
  stamps : Z;                                              (* registrations so far *)
  threads : list (list frame);
  running : option nat;
  posted : list event;                                     (* every [post] so far *)
  popped : list event;                                     (* every event [poll] took *)
  finished : list outcome
}.

Definition init : sys := Sys ∅ [] 0 0 [] None [] [] [].

(** ** Methods *)

Definition with_threads (ts : list (list frame)) (r : option nat) (s : sys) : sys :=
  Sys (table s) (queue s) (serial s) (stamps s) ts r (posted s) (popped s) (finished s).

(** [add_handler] *)
Definition add_handler (name : event_name) (h order : Z) (s : sys) : sys :=
  Sys (<[name := insert_handler (Entry order (stamps s) h) (default [] (table s !! name))]> (table s))
    (queue s) (serial s) (stamps s + 1) (threads s) (running s) (posted s) (popped s) (finished s).

(** [post]; waking the threads that wait for the queue is a matter of the
    schedule. *)
Definition post (e : event) (s : sys) : sys :=
  Sys (table s) (queue s ++ [e]) (serial s) (stamps s) (threads s) (running s)
    (posted s ++ [e]) (popped s) (finished s).

(** [poll]: counts itself and notes the size of the queue. *)
Definition begin_poll (s : sys) : sys * frame :=
  let n := u32 (serial s + 1) in
  (Sys (table s) (queue s) n (stamps s) (threads s) (running s) (posted s) (popped s) (finished s),
   FPoll n 0 (length (queue s))).

(** [p->queue.pop_front()]; there must be an event. *)
Definition pop_front (s : sys) : res (event * sys) :=
  match queue s with
  | [] => Aborted
  | e :: q => Ret (e, Sys (table s) q (serial s) (stamps s) (threads s) (running s)
                        (posted s) (popped s ++ [e]) (finished s))
  end.

Definition finish (o : outcome) (s : sys) : sys :=
  Sys (table s) (queue s) (serial s) (stamps s) (threads s) (running s)
    (posted s) (popped s) (finished s ++ [o]).

Section machine.
Variable body : Z -> event -> hprog.

(** One step of the running thread: its new stack, whether it goes on
    running, and the rest of the state. *)
Definition step_frame (stack : list frame) (s : sys) : res (list frame * bool * sys) :=
  match stack with
  | [] => Ret ([], false, s)
  | FPoll n i max :: rest =>
      if Nat.ltb i max then
        '(e, s) ← pop_front s;
        Ret (FDispatch e [] (stamps s) :: FPollCheck n i max :: rest, true, s)
      else Ret (rest, true, s)
  | FPollCheck n i max :: rest =>
      if negb (n =? serial s) then Ret (rest, true, s) else Ret (FPoll n (S i) max :: rest, true, s)
  | FDispatch e called begun :: rest =>
      match table s !! ename e with
      | None => Ret (rest, true, finish (Outcome e called false begun) s)
      | Some sig =>
          match next_entry (last called) sig with
          | None => Ret (rest, true, finish (Outcome e called false begun) s)
          | Some x => Ret (FHandler (body (e_handler x) e) :: FDispatch e (called ++ [x]) begun :: rest, true, s)
          end
      end
  | FHandler p :: rest =>
      match p with
      | Return CONTINUE => Ret (rest, true, s)
      | Return STOP | Throw_exception =>
          match rest with
          | FDispatch e called begun :: rest' => Ret (rest', true, finish (Outcome e called true begun) s)
          | _ => Aborted
          end
      | Post e k => Ret (FHandler k :: rest, true, post e s)
      | Add_handler name h order k => Ret (FHandler k :: rest, true, add_handler name h order s)
      | Dispatch e k => Ret (FDispatch e [] (stamps s) :: FHandler k :: rest, true, s)
      | Block k => Ret (FHandler k :: rest, false, s)
      end
  end.

(** What the schedule may do. *)
Inductive action :=
| Step                                                     (* the running thread goes on *)
| Resume (t : nat)                                         (* a suspended thread is chosen *)
| Start_poll                                               (* a new thread enters [poll] *)
| Start_dispatch (e : event)
| Outside_post (e : event)
| Outside_add (name : event_name) (h order : Z).

(** An action that is not possible in a state leaves it as it is. *)
Definition act (a : action) (s : sys) : res sys :=
  match running s, a with
  | Some t, Step =>
      match threads s !! t with
      | Some stack =>
          '(stack', on, s') ← step_frame stack s;
          Ret (with_threads (<[t := stack']> (threads s')) (if (on : bool) then Some t else None) s')
      | None => Ret s
      end
  | None, Resume t => if Nat.ltb t (length (threads s)) then Ret (with_threads (threads s) (Some t) s) else Ret s
  | None, Start_poll =>
      let '(s, f) := begin_poll s in
      Ret (with_threads (threads s ++ [[f]]) (Some (length (threads s))) s)
  | None, Start_dispatch e =>
      Ret (with_threads (threads s ++ [[FDispatch e [] (stamps s)]]) (Some (length (threads s))) s)
  | None, Outside_post e => Ret (post e s)
  | None, Outside_add name h order => Ret (add_handler name h order s)
  | _, _ => Ret s
  end.

Fixpoint acts (l : list action) (s : sys) : res sys :=
  match l with
  | [] => Ret s
  | a :: l => s ← act a s; acts l s
  end.
End machine.
