(* ===== verification/EventFacts.v ===== *)
(** * The event dispatcher: ordered handlers, re-entrant polls

    The invariant of [EventDispatcher.act]: the signals stay sorted by order
    and registration, a [dispatch] in progress has called exactly the handlers
    up to its iterator (those registered meanwhile excepted), and at most one
    activation of [poll], the latest one, still owns the queue. *)

From S2P Require Import Prelude Bytes EventDispatcher.

Open Scope Z_scope.

(** ** Signals *)

Definition keylt (x y : entry) : Prop :=
  e_order x < e_order y \/ e_order x = e_order y /\ e_stamp x < e_stamp y.

Lemma keylt_trans x y z : keylt x y -> keylt y z -> keylt x z.
Proof. unfold keylt. lia. Qed.

Lemma keylt_irrefl x : ~ keylt x x.
Proof. unfold keylt. lia. Qed.

Record signal_ok (n : Z) (sig : signal) : Prop := {
  sig_sorted : StronglySorted keylt sig;
  sig_stamps : forall x, x ∈ sig -> e_stamp x < n;
  sig_unique : NoDup (e_stamp <$> sig)
}.

Lemma insert_handler_perm x s : insert_handler x s ≡ₚ x :: s.
Proof.
  induction s as [|y s IH]; [done|]. simpl. case_match; [|done].
  rewrite IH. constructor.
Qed.

Lemma insert_handler_elem x y s : y ∈ insert_handler x s <-> y = x \/ y ∈ s.
Proof. rewrite insert_handler_perm. set_solver. Qed.

Lemma insert_handler_ok n x s :
  signal_ok n s -> e_stamp x = n -> signal_ok (n + 1) (insert_handler x s).
Proof.
  intros [Hs Hn Hu] Hx. split.
  - clear Hu. induction Hs as [|y s Hs IH Hy]; simpl; [by repeat constructor|].
    destruct (Z.leb_spec (e_order y) (e_order x)).
    + constructor; [apply IH; set_solver|]. apply Forall_forall. intros z Hz%insert_handler_elem.
      destruct Hz as [->|Hz]; [|by eapply Forall_forall in Hy].
      pose proof (Hn y ltac:(set_solver)). unfold keylt. lia.
    + constructor; [by constructor|]. constructor; [unfold keylt; lia|].
      eapply Forall_impl; [exact Hy|]. unfold keylt. lia.
  - intros y [->|Hy]%insert_handler_elem; [lia|]. specialize (Hn y Hy). lia.
  - rewrite (insert_handler_perm x s). simpl. constructor; [|done].
    intros (z & Hz & Hz')%list_elem_of_fmap. specialize (Hn z Hz'). lia.
Qed.

(** The iterator moves to the least handler that is above it. *)
Lemma after_spec n s x :
  signal_ok n s -> x ∈ s ->
  match after (e_stamp x) s with
  | Some y => y ∈ s /\ keylt x y /\ forall z, z ∈ s -> keylt x z -> z = y \/ keylt y z
  | None => forall z, z ∈ s -> ~ keylt x z
  end.
Proof.
  intros [Hs _ Hu] Hx. induction Hs as [|y s Hs IH Hy]; [set_solver|]. simpl.
  apply NoDup_cons in Hu as [Hny Hu]. rewrite Forall_forall in Hy.
  destruct (Z.eqb_spec (e_stamp y) (e_stamp x)) as [E|E].
  - assert (x = y) as ->.
    { apply elem_of_cons in Hx as [->|Hx]; [done|]. exfalso. apply Hny. rewrite E.
      apply list_elem_of_fmap. eauto. }
    destruct s as [|z s]; simpl.
    + intros z [->|Hz]%elem_of_cons; [apply keylt_irrefl|set_solver].
    + repeat split; [set_solver|apply Hy; set_solver|]. intros w [->|Hw]%elem_of_cons Hlt;
        [by apply keylt_irrefl in Hlt|].
      apply elem_of_cons in Hw as [->|Hw]; [by left|right].
      apply StronglySorted_inv in Hs as [_ Hz]. rewrite Forall_forall in Hz. auto.
  - apply elem_of_cons in Hx as [->|Hx]; [done|]. specialize (IH Hu Hx).
    assert (Hyx : ~ keylt x y).
    { intros H. apply (keylt_irrefl x), (keylt_trans x y x); auto. }
    case_match.
    + destruct IH as (Hin & Hlt & Hmin). repeat split; [set_solver|done|].
      intros z [->|Hz]%elem_of_cons; [done|auto].
    + intros z [->|Hz]%elem_of_cons; auto.
Qed.

(** ** A [dispatch] in progress *)

Abbreviation handlers tab e := (default [] (tab !! ename e)).

(** [called] is in order, and leaves out no handler older than the dispatch
    up to the point where its iterator stands. *)
Record dispatch_ok (tab : gmap event_name signal) (e : event) (called : list entry) (begun : Z) : Prop := {
  do_sorted : StronglySorted keylt called;
  do_registered : forall x, x ∈ called -> x ∈ handlers tab e;
  do_complete : forall x, x ∈ handlers tab e -> e_stamp x < begun ->
    x ∈ called \/ forall l, last called = Some l -> keylt l x
}.

Lemma sorted_snoc (l : list entry) x :
  StronglySorted keylt l -> (forall y, last l = Some y -> keylt y x) -> StronglySorted keylt (l ++ [x]).
Proof.
  induction 1 as [|y l Hl IH Hy]; intros Hx; simpl; [by repeat constructor|].
  assert (Hlx : forall z, last l = Some z -> keylt z x).
  { intros z Hz. apply Hx. by rewrite last_cons, Hz. }
  constructor; [by apply IH|]. apply Forall_app. split; [done|]. apply Forall_singleton.
  destruct (last l) as [z|] eqn:E.
  - apply keylt_trans with z; [|by apply Hlx]. rewrite Forall_forall in Hy. apply Hy.
    by apply last_Some_elem_of.
  - apply Hx. by rewrite last_cons, E.
Qed.

(** One round of the loop of [dispatch]. *)
Lemma next_entry_spec n tab e called begun :
  signal_ok n (handlers tab e) -> dispatch_ok tab e called begun ->
  match next_entry (last called) (handlers tab e) with
  | Some x => dispatch_ok tab e (called ++ [x]) begun
  | None => forall x, x ∈ handlers tab e -> e_stamp x < begun -> x ∈ called
  end.
Proof.
  intros Hsig [Hs Hr Hc]. unfold next_entry. destruct (last called) as [l|] eqn:El.
  - pose proof (after_spec _ _ l Hsig (Hr l (last_Some_elem_of _ _ El))) as Ha.
    destruct (after (e_stamp l) (handlers tab e)) as [y|].
    + destruct Ha as (Hin & Hlt & Hmin). split.
      * apply sorted_snoc; [done|]. intros z Hz. by simplify_eq.
      * intros z [Hz|Hz%list_elem_of_singleton]%elem_of_app; subst; auto.
      * intros z Hz Hb. rewrite last_snoc. destruct (Hc z Hz Hb) as [H|H]; [set_solver|].
        destruct (Hmin z Hz (H l eq_refl)) as [->|Hyz]; [set_solver|].
        right. intros ? [= <-]. done.
    + intros z Hz Hb. destruct (Hc z Hz Hb) as [H|H]; [done|]. by destruct (Ha z Hz (H l eq_refl)).
  - apply last_None in El as ->. destruct (handlers tab e) as [|y sig] eqn:Eh; simpl; [set_solver|].
    destruct Hsig as [Hsort _ _]. apply StronglySorted_inv in Hsort as [_ Hy]. rewrite Forall_forall in Hy.
    split; rewrite ?Eh.
    + by repeat constructor.
    + set_solver.
    + intros z [->|Hz]%elem_of_cons _; [set_solver|]. right. intros ? [= <-]. auto.
Qed.

(** ** What only grows *)

Record grows (s s' : sys) : Prop := {
  gr_stamps : stamps s <= stamps s';
  gr_old : forall e x, x ∈ handlers (table s) e -> x ∈ handlers (table s') e;
  gr_new : forall e x, x ∈ handlers (table s') e -> x ∈ handlers (table s) e \/ stamps s <= e_stamp x
}.

Lemma grows_same s s' : table s' = table s -> stamps s' = stamps s -> grows s s'.
Proof. intros Ht Hn. split; rewrite ?Ht, ?Hn; [lia|done|by left]. Qed.

Lemma dispatch_ok_grows s s' e called begun :
  grows s s' -> begun <= stamps s ->
  dispatch_ok (table s) e called begun -> dispatch_ok (table s') e called begun.
Proof.
  intros [Hn Ho Hw] Hb [Hs Hr Hc]. split; [done|auto|].
  intros x Hx Hlt. destruct (Hw _ _ Hx) as [H|H]; [auto|lia].
Qed.

Definition tables_ok (s : sys) : Prop := forall e, signal_ok (stamps s) (handlers (table s) e).

Definition frame_ok (s : sys) (f : frame) : Prop :=
  match f with
  | FDispatch e called begun => dispatch_ok (table s) e called begun /\ begun <= stamps s
  | _ => True
  end.

(** A finished [dispatch] left out no older handler, except those behind the
    one that stopped it. *)
Definition outcome_ok (s : sys) (o : outcome) : Prop :=
  dispatch_ok (table s) (o_event o) (o_called o) (o_begun o) /\ o_begun o <= stamps s /\
  (o_stopped o = false -> forall x, x ∈ handlers (table s) (o_event o) ->
     e_stamp x < o_begun o -> x ∈ o_called o).

Lemma frames_ok_grows s s' st : grows s s' -> Forall (frame_ok s) st -> Forall (frame_ok s') st.
Proof.
  intros Hg Hf. eapply Forall_impl; [exact Hf|]. clear Hf. intros [| | e called begun|]; try done. intros [Hd Hb]. split.
  - eauto using dispatch_ok_grows.
  - pose proof (gr_stamps _ _ Hg). lia.
Qed.

Lemma outcomes_ok_grows s s' l : grows s s' -> Forall (outcome_ok s) l -> Forall (outcome_ok s') l.
Proof.
  intros Hg Hf. eapply Forall_impl; [exact Hf|]. clear Hf. intros o (Hd & Hb & Hall). split_and!.
  - eauto using dispatch_ok_grows.
  - pose proof (gr_stamps _ _ Hg). lia.
  - intros Hst x Hx Hlt. destruct (gr_new _ _ Hg _ _ Hx); [auto|lia].
Qed.

Lemma handlers_insert (tab : gmap event_name signal) name (sig : signal) e :
  handlers (<[name := sig]> tab) e = if decide (name = ename e) then sig else handlers tab e.
Proof. case_decide; [subst; by rewrite lookup_insert_eq|by rewrite lookup_insert_ne]. Qed.

Lemma add_handler_grows name h order s : grows s (add_handler name h order s).
Proof.
  split; simpl; [lia| |]; intros e x; rewrite handlers_insert; case_decide as E; rewrite ?E; auto;
    rewrite insert_handler_elem; [auto|]. intros [->|]; [right; simpl; lia|auto].
Qed.

Lemma signal_ok_mono n m sig : n <= m -> signal_ok n sig -> signal_ok m sig.
Proof. intros H [Hs Hn Hu]. split; [done| |done]. intros x Hx. specialize (Hn x Hx). lia. Qed.

Lemma add_handler_tables name h order s : tables_ok s -> tables_ok (add_handler name h order s).
Proof.
  intros H e. simpl. rewrite handlers_insert. case_decide as E.
  - rewrite E. apply insert_handler_ok; [apply H|done].
  - apply signal_ok_mono with (stamps s); [lia|apply H].
Qed.

Lemma dispatch_start s e : tables_ok s -> dispatch_ok (table s) e [] (stamps s).
Proof. intros _. split; [constructor|set_solver|]. intros x _ _. right. done. Qed.

(** ** Stacks *)

(** The activation of [poll] at the bottom of a stack: its serial number and
    the events it may still take. *)
Definition poll_of (st : list frame) : option (Z * nat) :=
  match last st with
  | Some (FPoll n i m) => Some (n, (m - i)%nat)
  | Some (FPollCheck n i m) => Some (n, (m - S i)%nat)
  | _ => None
  end.

Definition at_poll (st : list frame) : option Z :=
  match st with FPoll n _ _ :: _ => Some n | _ => None end.

(** Handlers run on top of the [dispatch] that called them, and [poll] is at
    the bottom. *)
Fixpoint shape (st : list frame) : Prop :=
  match st with
  | [] => True
  | FPoll _ _ _ :: rest | FPollCheck _ _ _ :: rest => rest = []
  | FDispatch _ _ _ :: rest =>
      match rest with [] | FPollCheck _ _ _ :: _ | FHandler _ :: _ => shape rest | _ => False end
  | FHandler _ :: rest => match rest with FDispatch _ _ _ :: _ => shape rest | _ => False end
  end.

Lemma poll_of_rest f rest x : poll_of rest = Some x -> poll_of (f :: rest) = Some x.
Proof. unfold poll_of. rewrite last_cons. by destruct (last rest). Qed.

Lemma poll_of_push f g rest : poll_of (f :: g :: rest) = poll_of (g :: rest).
Proof. unfold poll_of. rewrite (last_cons f). by destruct (last (g :: rest)) eqn:E; [|apply last_None in E]. Qed.

Lemma shape_pop_dispatch e called begun rest :
  shape (FDispatch e called begun :: rest) -> shape rest /\ at_poll rest = None.
Proof. by destruct rest as [|[] rest]. Qed.

(** ** The machine's invariant *)

(** The rest of the state while the stack of one thread is taken apart. *)
Record env_ok (s : sys) : Prop := {
  env_tables : tables_ok s;
  env_fifo : posted s = popped s ++ queue s;
  env_done : Forall (outcome_ok s) (finished s)
}.

Record stack_ok (s : sys) (st : list frame) : Prop := {
  st_shape : shape st;
  st_frames : Forall (frame_ok s) st
}.

Lemma stack_ok_grows s s' st : grows s s' -> stack_ok s st -> stack_ok s' st.
Proof. intros Hg [Hs Hf]. split; [done|by eapply frames_ok_grows]. Qed.

(** What a step of a thread does to its claim on the queue: nothing, or it
    takes one event it is entitled to. *)
Inductive claim_step (s s' : sys) (st st' : list frame) : Prop :=
| claim_kept :
    (length (queue s) <= length (queue s'))%nat ->
    (forall x, poll_of st' = Some x -> poll_of st = Some x) -> claim_step s s' st st'
| claim_used k :
    length (queue s) = S (length (queue s')) ->
    poll_of st = Some (serial s, S k) -> poll_of st' = Some (serial s, k) -> claim_step s s' st st'.

Record step_ok (s s' : sys) (st st' : list frame) (on : bool) : Prop := {
  so_env : env_ok s';
  so_grows : grows s s';
  so_stack : stack_ok s' st';
  so_claim : claim_step s s' st st';
  so_poll : forall n, at_poll st' = Some n -> on = true /\ n = serial s;
  so_same : serial s' = serial s /\ threads s' = threads s /\ running s' = running s
}.

Lemma finish_env o s : env_ok s -> outcome_ok s o -> env_ok (finish o s).
Proof.
  intros [Ht Hf Hd] Ho. split; [done|done|].
  apply (outcomes_ok_grows s); [by apply grows_same|]. apply Forall_app. split; [done|]. by apply Forall_singleton.
Qed.

(** A [dispatch] returns. *)
Lemma finish_step s e called begun stopped top rest :
  env_ok s -> (exists p, top = p ++ [FDispatch e called begun]) -> stack_ok s (FDispatch e called begun :: rest) ->
  (stopped = false -> forall x, x ∈ handlers (table s) e -> e_stamp x < begun -> x ∈ called) ->
  step_ok s (finish (Outcome e called stopped begun) s) (top ++ rest) rest true.
Proof.
  intros He [p ->] [Hs Hf] Hall. apply Forall_cons in Hf as [[Hd Hb] Hf].
  apply shape_pop_dispatch in Hs as [Hs Hp].
  split; simpl; [by apply finish_env|by apply grows_same| | |by rewrite Hp|done].
  - split; [done|]. eapply frames_ok_grows; [|exact Hf]. by apply grows_same.
  - apply claim_kept; [done|]. intros x Hx. rewrite <- app_assoc. simpl.
    induction p as [|f p IH]; simpl; by apply poll_of_rest.
Qed.

(** The running thread pushes or replaces frames without touching the queue's
    owner. *)
Lemma quiet_step s s' st st' on :
  env_ok s' -> grows s s' -> stack_ok s' st' -> (length (queue s) <= length (queue s'))%nat ->
  poll_of st' = poll_of st -> at_poll st' = None ->
  serial s' = serial s /\ threads s' = threads s /\ running s' = running s ->
  step_ok s s' st st' on.
Proof.
  intros He Hg Hs Hq Hp Ha Hsame. split; try done.
  - apply claim_kept; [done|]. intros x. by rewrite Hp.
  - by rewrite Ha.
Qed.

Lemma post_env e s : env_ok s -> env_ok (post e s).
Proof.
  intros [Ht Hf Hd]. split; [done| |].
  - simpl. by rewrite Hf, app_assoc.
  - eapply outcomes_ok_grows; [|exact Hd]. by apply grows_same.
Qed.

Lemma add_handler_env name h order s : env_ok s -> env_ok (add_handler name h order s).
Proof.
  intros [Ht Hf Hd]. split; [by apply add_handler_tables|done|].
  eapply outcomes_ok_grows; [|exact Hd]. apply add_handler_grows.
Qed.

Section machine.
Context (body : Z -> event -> hprog).

(** A handler's step. *)
Lemma handler_step s p rest :
  env_ok s -> stack_ok s (FHandler p :: rest) ->
  exists st' on s', step_frame body (FHandler p :: rest) s = Ret (st', on, s') /\
    step_ok s s' (FHandler p :: rest) st' on.
Proof.
  intros He Hst. destruct (Hst) as [Hsh Hf]. apply Forall_cons in Hf as [_ Hf].
  destruct rest as [|[| |e called begun|] rest]; try done.
  assert (Hrest : stack_ok s (FDispatch e called begun :: rest)) by done.
  destruct p as [[]| |e' k|name h order k|e' k|k]; simpl; eexists _, _, _; (split; [done|]).
  - apply quiet_step; [done|by apply grows_same|done|done|by rewrite poll_of_push|done|done].
  - apply (finish_step s e called begun true [FHandler _; _]); [done|by exists [FHandler (Return STOP)]|done|done].
  - apply (finish_step s e called begun true [FHandler _; _]); [done|by exists [FHandler Throw_exception]|done|done].
  - apply quiet_step; [by apply post_env|by apply grows_same| |simpl; rewrite length_app; lia|by rewrite !poll_of_push|done|done].
    apply (stack_ok_grows s); [by apply grows_same|]. split; [done|by constructor].
  - apply quiet_step; [by apply add_handler_env|apply add_handler_grows| |done|by rewrite !poll_of_push|done|done].
    apply (stack_ok_grows s); [apply add_handler_grows|]. split; [done|by constructor].
  - apply quiet_step; [done|by apply grows_same| |done|by rewrite !poll_of_push|done|done].
    split; [done|]. constructor; [|by constructor]. split; [apply dispatch_start, He|lia].
  - apply quiet_step; [done|by apply grows_same| |done|by rewrite !poll_of_push|done|done].
    split; [done|by constructor].
Qed.

(** A round of the loop of [dispatch]. *)
Lemma dispatch_step s e called begun rest :
  env_ok s -> stack_ok s (FDispatch e called begun :: rest) ->
  exists st' on s', step_frame body (FDispatch e called begun :: rest) s = Ret (st', on, s') /\
    step_ok s s' (FDispatch e called begun :: rest) st' on.
Proof.
  intros He Hst. destruct (Hst) as [Hsh Hf]. apply Forall_cons in Hf as [[Hd Hb] Hf].
  pose proof (next_entry_spec (stamps s) (table s) e called begun (env_tables _ He e) Hd) as Hn.
  assert (Hend : (forall x, x ∈ handlers (table s) e -> e_stamp x < begun -> x ∈ called) ->
    step_ok s (finish (Outcome e called false begun) s) (FDispatch e called begun :: rest) rest true).
  { intros H. apply (finish_step s e called begun false [_]); [done|by exists []|done|done]. }
  simpl. destruct (table s !! ename e) as [sig|] eqn:Et; simpl in *.
  - destruct (next_entry (last called) sig) as [x|]; eexists _, _, _; (split; [done|]); [|by apply Hend].
    apply quiet_step; [done|by apply grows_same| |done|rewrite !poll_of_push|done|done].
    + split; [by destruct rest as [|[] rest]|]. constructor; [done|by constructor].
    + unfold poll_of. rewrite !last_cons. by destruct (last rest).
  - eexists _, _, _. split; [done|]. apply Hend. set_solver.
Qed.

(** The steps of [poll] itself, for the activation that owns the queue. *)
Lemma poll_step s n i m rest :
  env_ok s -> shape (FPoll n i m :: rest) -> n = serial s -> (m - i <= length (queue s))%nat ->
  exists st' on s', step_frame body (FPoll n i m :: rest) s = Ret (st', on, s') /\
    step_ok s s' (FPoll n i m :: rest) st' on.
Proof.
  intros He Hs -> Hq. simpl in Hs. subst rest. simpl. destruct (Nat.ltb_spec i m).
  - unfold pop_front. destruct (queue s) as [|e q] eqn:Eq; simpl in Hq; [lia|].
    eexists _, _, _. split; [done|]. destruct He as [Ht Hf Hd].
    assert (Hg : grows s (Sys (table s) q (serial s) (stamps s) (threads s) (running s) (posted s)
      (popped s ++ [e]) (finished s))) by (by apply grows_same).
    split; [|exact Hg| | |done|done].
    + split; [done| |by eapply outcomes_ok_grows]. simpl. by rewrite Hf, Eq, <- app_assoc.
    + split; [done|]. apply Forall_cons. split; [|by apply Forall_singleton]. split; [by apply dispatch_start|simpl; lia].
    + apply (claim_used _ _ _ _ (m - S i)); simpl; [by rewrite Eq| |done]. unfold poll_of. simpl.
      do 2 f_equal. lia.
  - eexists _, _, _. split; [done|]. split; [done|by apply grows_same|by split|by apply claim_kept|done|done].
Qed.

Record inv (s : sys) : Prop := {
  inv_env : env_ok s;
  inv_serial : 0 <= serial s;
  inv_stacks : forall t st, threads s !! t = Some st -> stack_ok s st;
  inv_claims : forall t st n k, threads s !! t = Some st -> poll_of st = Some (n, k) ->
    n <= serial s /\ (n = serial s -> (k <= length (queue s))%nat);
  inv_owner : forall t t' st st' n k k',
    threads s !! t = Some st -> threads s !! t' = Some st' ->
    poll_of st = Some (n, k) -> poll_of st' = Some (n, k') -> t = t';
  inv_running : forall t st n, threads s !! t = Some st -> at_poll st = Some n ->
    running s = Some t /\ n = serial s
}.

(** Any step of a thread of a good state is good. *)
Lemma step_frame_ok s t st :
  inv s -> threads s !! t = Some st ->
  exists st' on s', step_frame body st s = Ret (st', on, s') /\ step_ok s s' st st' on.
Proof.
  intros Hi Ht. destruct (Hi) as [He _ Hst Hc _ Hr]. specialize (Hst t st Ht).
  destruct st as [|[n i m|n i m|e called begun|p] rest].
  - eexists _, _, _. split; [done|]. split; [done|by apply grows_same|done|by apply claim_kept|done|done].
  - destruct (Hst) as [Hs _]. destruct (Hr t _ n Ht eq_refl) as [_ Hn]. apply poll_step; try done.
    simpl in Hs. subst rest. eapply (Hc t _ n); [exact Ht|done|done].
  - destruct (Hst) as [Hs _]. simpl in Hs. subst rest. simpl. destruct (Z.eqb_spec n (serial s)) as [->|].
    + eexists _, _, _. split; [done|].
      split; [done|by apply grows_same|by split; [|apply Forall_singleton]|by apply claim_kept| |done].
      intros n [= <-]. done.
    + eexists _, _, _. split; [done|]. split; [done|by apply grows_same|by split|by apply claim_kept|done|done].
  - by apply dispatch_step.
  - by apply handler_step.
Qed.

Lemma claim_back s s' st st' n k :
  claim_step s s' st st' -> poll_of st' = Some (n, k) -> exists k', poll_of st = Some (n, k').
Proof. intros [_ H|k1 _ H1 H2] Hp; [eauto|]. simplify_eq. eauto. Qed.

(** The thread's new stack is put back. *)
Lemma install_ok s s' t st st' on :
  inv s -> running s = Some t -> threads s !! t = Some st -> step_ok s s' st st' on ->
  inv (with_threads (<[t := st']> (threads s')) (if (on : bool) then Some t else None) s').
Proof.
  intros [He Hser Hst Hc Ho Hr] Hrun Ht [He' Hg Hst' Hcl Hp (Es & Et & Er)].
  assert (Hlook : forall t0 st0, <[t := st']> (threads s) !! t0 = Some st0 ->
    t0 = t /\ st0 = st' \/ t0 <> t /\ threads s !! t0 = Some st0).
  { intros t0 st0 [(<- & <- & _)|[? ?]]%list_lookup_insert_Some; auto. }
  assert (Hsame : forall s2, table s2 = table s' -> stamps s2 = stamps s' -> grows s' s2) by apply grows_same.
  split; simpl; rewrite ?Et, ?Es; [|done| | | |].
  - destruct He' as [H1 H2 H3]. split; [done|done|]. by eapply outcomes_ok_grows; [apply Hsame|].
  - intros t0 st0 [[-> ->]|[_ H0]]%Hlook; [by apply (stack_ok_grows s'); [apply Hsame|]|].
    apply (stack_ok_grows s); [|by eapply Hst]. destruct Hg. by split.
  - intros t0 st0 n k [[-> ->]|[Hne H0]]%Hlook Hk.
    + destruct Hcl as [Hq Hkeep|k0 Hq H1 H2].
      * destruct (Hc t st n k Ht (Hkeep _ Hk)) as [? H]. split; [done|]. intros E. specialize (H E). lia.
      * simplify_eq. destruct (Hc t st _ _ Ht H1) as [? H]. split; [done|]. intros _. specialize (H eq_refl). lia.
    + destruct (Hc t0 st0 n k H0 Hk) as [? H]. split; [done|]. intros ->. destruct Hcl as [Hq _|k0 Hq Hu _].
      * specialize (H eq_refl). lia.
      * by destruct Hne; eapply Ho.
  - intros t1 t2 st1 st2 n k1 k2 H1%Hlook H2%Hlook Hp1 Hp2.
    assert (exists st1' k1', threads s !! t1 = Some st1' /\ poll_of st1' = Some (n, k1')) as (st1' & k1' & Ht1 & Hp1').
    { destruct H1 as [[-> ->]|[_ H1]]; [|eauto]. destruct (claim_back _ _ _ _ _ _ Hcl Hp1). eauto. }
    assert (exists st2' k2', threads s !! t2 = Some st2' /\ poll_of st2' = Some (n, k2')) as (st2' & k2' & Ht2 & Hp2').
    { destruct H2 as [[-> ->]|[_ H2]]; [|eauto]. destruct (claim_back _ _ _ _ _ _ Hcl Hp2). eauto. }
    by eapply (Ho t1 t2 st1' st2').
  - intros t0 st0 n [[-> ->]|[Hne H0]]%Hlook Ha; [by destruct (Hp n Ha) as [-> ->]|].
    destruct (Hr t0 st0 n H0 Ha). congruence.
Qed.

(** A state with the same threads, less one that holds no poll, or with one
    more thread. *)
Lemma outside_ok s s' :
  inv s -> env_ok s' -> grows s s' -> serial s' = serial s -> threads s' = threads s -> running s' = running s ->
  (length (queue s) <= length (queue s'))%nat -> inv s'.
Proof.
  intros [He Hser Hst Hc Ho Hr] He' Hg Es Et Er Hq. split; rewrite ?Et, ?Es, ?Er; try done.
  - intros t st Ht. eapply stack_ok_grows; [exact Hg|by eapply Hst].
  - intros t st n k Ht Hk. destruct (Hc t st n k Ht Hk) as [? H]. split; [done|]. intros E. specialize (H E). lia.
Qed.

(** A thread is started, by [poll] with a fresh serial number or by a
    [dispatch]. *)
Lemma start_ok s f n k :
  inv s -> running s = None ->
  (f = FPoll n 0 k /\ n = serial s + 1 /\ k = length (queue s) \/ 
   n = serial s /\ exists e, f = FDispatch e [] (stamps s)) ->
  inv (Sys (table s) (queue s) n (stamps s) (threads s ++ [[f]]) (Some (length (threads s)))
         (posted s) (popped s) (finished s)).
Proof.
  intros [He Hser Hst Hc Ho Hr] Hrun Hf.
  set (s' := Sys _ _ _ _ _ _ _ _ _).
  assert (Hg : grows s s') by (by apply grows_same).
  assert (Hlook : forall t st, (threads s ++ [[f]]) !! t = Some st ->
    threads s !! t = Some st \/ t = length (threads s) /\ st = [f]).
  { intros t st [H|[Hl H]]%lookup_app_Some; [by left|right].
    apply list_lookup_singleton_Some in H as [? <-]. split; [lia|done]. }
  assert (Hnew : forall m j, poll_of [f] = Some (m, j) -> m = serial s + 1 /\ n = m /\ j = length (queue s)).
  { intros m j. destruct Hf as [(-> & -> & ->)|(-> & e & ->)]; [|done]. intros [= <- <-]. split_and!; lia. }
  split; simpl.
  - destruct He as [H1 H2 H3]. split; [done|done|]. by eapply outcomes_ok_grows.
  - destruct Hf as [(_ & -> & _)|(-> & _)]; lia.
  - intros t st [Ht|[-> ->]]%Hlook; [eapply stack_ok_grows; [exact Hg|by eapply Hst]|].
    destruct Hf as [(-> & _ & _)|(_ & e & ->)]; split; try done; apply Forall_singleton; [done|].
    split; [by apply (dispatch_start s), He|simpl; lia].
  - intros t st m j [Ht|[-> ->]]%Hlook Hm.
    + destruct (Hc t st m j Ht Hm) as [Hle Hq]. destruct Hf as [(_ & -> & _)|(-> & _)]; [|done]. split; lia.
    + apply Hnew in Hm as (? & ? & ->). split; lia.
  - intros t1 t2 st1 st2 m k1 k2 [H1|[-> ->]]%Hlook [H2|[-> ->]]%Hlook Hp1 Hp2; [by eapply Ho| | |done].
    + apply Hnew in Hp2 as (-> & _). destruct (Hc _ _ _ _ H1 Hp1). lia.
    + apply Hnew in Hp1 as (-> & _). destruct (Hc _ _ _ _ H2 Hp2). lia.
  - intros t st m [Ht|[-> ->]]%Hlook Hm; [destruct (Hr t st m Ht Hm); congruence|].
    destruct Hf as [(-> & _ & _)|(_ & e & ->)]; [|done]. split; [done|]. by injection Hm.
Qed.

Definition is_start_poll (a : action) : bool := match a with Start_poll => true | _ => false end.
Definition count_polls (l : list action) : Z := Z.of_nat (length (filter (fun a => is_start_poll a) l)).

Lemma resume_ok t s : inv s -> running s = None -> inv (with_threads (threads s) (Some t) s).
Proof.
  intros [He Hser Hst Hc Ho Hr] Hrun.
  assert (Hg : grows s (with_threads (threads s) (Some t) s)) by (by apply grows_same).
  split; simpl; try done.
  - destruct He as [H1 H2 H3]. split; [done|done|]. by eapply outcomes_ok_grows.
  - intros t0 st Ht. eapply stack_ok_grows; [exact Hg|by eapply Hst].
  - intros t0 st n Ht Ha. destruct (Hr _ _ _ Ht Ha). congruence.
Qed.

(** No action of the schedule aborts, and each keeps the invariant. *)
Lemma act_ok a s :
  inv s -> serial s + 1 < 2 ^ 32 \/ is_start_poll a = false ->
  exists s', act body a s = Ret s' /\ inv s' /\
    serial s' <= serial s + (if is_start_poll a then 1 else 0).
Proof.
  intros Hi Hser. unfold act. destruct (running s) as [t|] eqn:Er.
  - destruct a; try (exists s; split_and!; [done|done|simpl; lia]).
    destruct (threads s !! t) as [st|] eqn:Et; [|exists s; split_and!; [done|done|simpl; lia]].
    destruct (step_frame_ok s t st Hi Et) as (st' & on & s' & -> & Hok). eexists. split; [done|].
    split; [by eapply (install_ok s)|]. destruct Hok as [_ _ _ _ _ (Es & _ & _)]. simpl. lia.
  - destruct a as [|t| |e|e|name h order]; cbn [is_start_poll] in *.
    + exists s. split_and!; [done|done|lia].
    + case_match; eexists; (split; [done|]); split; [by apply resume_ok|simpl; lia|done|lia].
    + destruct Hser as [Hser|]; [|done]. pose proof (inv_serial _ Hi). eexists. split; [done|].
      simpl. unfold with_threads. simpl. unfold wrap. rewrite Z.mod_small by lia.
      split; [|lia]. apply (start_ok s _ _ (length (queue s))); [done|done|by left].
    + eexists. split; [done|]. split; [|simpl; lia].
      apply (start_ok s _ _ 0); [done|done|right]. eauto.
    + eexists. split; [done|]. split; [|simpl; lia].
      apply (outside_ok s); try done; [apply post_env, Hi|by apply grows_same|simpl; rewrite length_app; lia].
    + eexists. split; [done|]. split; [|simpl; lia].
      apply (outside_ok s); try done; [apply add_handler_env, Hi|apply add_handler_grows].
Qed.

Lemma acts_ok l s :
  inv s -> serial s + count_polls l < 2 ^ 32 ->
  exists s', acts body l s = Ret s' /\ inv s' /\ serial s' <= serial s + count_polls l.
Proof.
  revert s. induction l as [|a l IH]; intros s Hi Hser; [exists s; split_and!; [done|done|unfold count_polls; simpl; lia]|].
  assert (Hc : count_polls (a :: l) = (if is_start_poll a then 1 else 0) + count_polls l).
  { unfold count_polls. rewrite filter_cons. case_decide; destruct (is_start_poll a); try done.
    rewrite length_cons. lia. }
  rewrite Hc in *. assert (0 <= count_polls l) by (unfold count_polls; lia).
  destruct (act_ok a s Hi) as (s1 & E & Hi1 & Hs1); [destruct (is_start_poll a); [left; lia|by right]|].
  destruct (IH s1 Hi1) as (s2 & E2 & Hi2 & Hs2); [lia|]. exists s2. simpl. rewrite E. split_and!; [done|done|lia].
Qed.

Lemma init_ok : inv init.
Proof.
  split; simpl; try done.
  split; [|done|by constructor]. intros e. simpl. rewrite lookup_empty.
  split; [constructor|set_solver|constructor].
Qed.

(** ** What one activation of [poll] takes *)

(** A step of a thread leaves the queue alone but for new events, or takes the
    first event for the activation that owns it; the owner gives up only when
    it has taken all it may. *)
Inductive queue_step (s s' : sys) (st st' : list frame) : Prop :=
| queue_kept new :
    popped s' = popped s -> queue s' = queue s ++ new ->
    (poll_of st' = poll_of st \/
     poll_of st' = None /\ forall k, poll_of st = Some (serial s, k) -> k = 0%nat) -> queue_step s s' st st'
| queue_taken e k :
    queue s = e :: queue s' -> popped s' = popped s ++ [e] ->
    poll_of st = Some (serial s, S k) -> poll_of st' = Some (serial s, k) -> queue_step s s' st st'.

Lemma poll_of_pop f rest :
  match f with FPoll _ _ _ | FPollCheck _ _ _ => False | _ => True end -> poll_of rest = poll_of (f :: rest).
Proof. intros Hf. destruct rest as [|g rest]; [by destruct f|by rewrite poll_of_push]. Qed.

Lemma queue_same s s' st st' :
  popped s' = popped s -> queue s' = queue s -> poll_of st' = poll_of st -> queue_step s s' st st'.
Proof. intros H1 H2 H3. apply (queue_kept _ _ _ _ []); [done|by rewrite app_nil_r|by left]. Qed.

Lemma step_frame_queue s t st st' on s' :
  inv s -> threads s !! t = Some st -> step_frame body st s = Ret (st', on, s') -> queue_step s s' st st'.
Proof.
  intros Hi Ht. destruct (inv_stacks _ Hi t st Ht) as [Hs _]. pose proof (inv_running _ Hi t st) as Hr.
  destruct st as [|[n i m|n i m|e called begun|p] rest]; simpl; intros E.
  - simplify_eq. by apply queue_same.
  - simpl in Hs. subst rest. destruct (Hr n Ht eq_refl) as [_ ->]. destruct (Nat.ltb_spec i m).
    + unfold pop_front in E. destruct (queue s) as [|e q] eqn:Eq; simplify_eq/=.
      apply (queue_taken _ _ _ _ e (m - S i)); try done. unfold poll_of. simpl. do 2 f_equal. lia.
    + simplify_eq. apply (queue_kept _ _ _ _ []); [done|by rewrite app_nil_r|right].
      split; [done|]. intros k [= <-]. lia.
  - simpl in Hs. subst rest. destruct (Z.eqb_spec n (serial s)); simplify_eq/=; [by apply queue_same|].
    apply (queue_kept _ _ _ _ []); [done|by rewrite app_nil_r|right]. split; [done|]. by intros k [= ? _].
  - repeat case_match; simplify_eq/=; apply queue_same; try done; by rewrite <- !poll_of_pop.
  - repeat case_match; simplify_eq/=; try (apply queue_same; try done; by rewrite <- !poll_of_pop).
    apply (queue_kept _ _ _ _ [e]); try done. left. by rewrite <- !poll_of_pop.
Qed.

(** The activation number [n], in thread [t], has taken all but [k] of the
    events [q0] it found, and no other thread takes events. *)
Definition sole (t : nat) (n : Z) (s : sys) : Prop :=
  serial s = n /\ forall t' st k, threads s !! t' = Some st -> poll_of st = Some (n, k) -> t' = t.

Definition drained (pop0 q0 : list event) (t : nat) (n : Z) (s : sys) : Prop :=
  exists st k new, threads s !! t = Some st /\ (k <= length q0)%nat /\
    popped s = pop0 ++ take (length q0 - k) q0 /\ queue s = drop (length q0 - k) q0 ++ new /\
    (poll_of st = Some (n, k) \/ poll_of st = None /\ k = 0%nat).

(** An action that steps no thread may start one, and may post. *)
Lemma act_idle a s s' :
  running s = None -> is_start_poll a = false -> act body a s = Ret s' ->
  serial s' = serial s /\ popped s' = popped s /\ (exists new, queue s' = queue s ++ new) /\
  (forall t st, threads s !! t = Some st -> threads s' !! t = Some st) /\
  (forall t st x, threads s' !! t = Some st -> poll_of st = Some x -> threads s !! t = Some st).
Proof.
  intros Hr Ha E. unfold act in E. rewrite Hr in E.
  assert (Hnil : exists new, queue s = queue s ++ new) by (exists []; by rewrite app_nil_r).
  destruct a as [|t| |e|e|name h order]; try done; try (case_match); simplify_eq/=; split_and!; eauto.
  - intros t st Ht. by apply lookup_app_l_Some.
  - intros t st x [Ht|[_ Ht]]%lookup_app_Some Hx; [done|].
    apply list_lookup_singleton_Some in Ht as [_ <-]. done.
Qed.

(** While a thread runs, the only action is its next step. *)
Lemma act_running t0 a s s' :
  inv s -> running s = Some t0 -> act body a s = Ret s' ->
  s' = s \/ exists st st' s1, threads s !! t0 = Some st /\ threads s' = <[t0 := st']> (threads s) /\
    queue_step s s1 st st' /\ claim_step s s1 st st' /\
    popped s' = popped s1 /\ queue s' = queue s1 /\ serial s' = serial s.
Proof.
  intros Hi Er E. unfold act in E. rewrite Er in E. destruct a; simplify_eq/=; auto.
  destruct (threads s !! t0) as [st0|] eqn:Et0; simplify_eq/=; auto. right.
  destruct (step_frame_ok s t0 st0 Hi Et0) as (st' & on & s1 & Es & [_ _ _ Hcl _ (E1 & E2 & _)]).
  rewrite Es in E. simplify_eq/=. rewrite E2. exists st0, st', s1. split_and!; try done.
  by eapply step_frame_queue.
Qed.

Lemma sole_step t n a s s' :
  inv s -> is_start_poll a = false -> sole t n s -> act body a s = Ret s' -> sole t n s'.
Proof.
  intros Hi Ha [Hn Hs] E. destruct (running s) as [t0|] eqn:Er.
  - destruct (act_running t0 a s s' Hi Er E) as [->|(st0 & st' & s1 & Et0 & E2 & _ & Hcl & _ & _ & E1)]; [done|].
    split; [congruence|]. rewrite E2.
    intros t' st k [(<- & <- & _)|[_ Ht]]%list_lookup_insert_Some Hk; [|by eapply Hs].
    destruct (claim_back _ _ _ _ _ _ Hcl Hk). by eapply Hs.
  - destruct (act_idle a s s' Er Ha E) as (E1 & _ & _ & _ & Hback). split; [congruence|]. eauto.
Qed.

Lemma drained_step pop0 q0 t n a s s' :
  inv s -> is_start_poll a = false -> sole t n s -> drained pop0 q0 t n s -> act body a s = Ret s' ->
  drained pop0 q0 t n s'.
Proof.
  intros Hi Ha [Hn Hsole] (st & k & new & Ht & Hk & Hpop & Hq & Hst) E.
  destruct (running s) as [t0|] eqn:Er.
  2:{ destruct (act_idle a s s' Er Ha E) as (_ & E1 & [new' E2] & Hfwd & _).
      exists st, k, (new ++ new'). rewrite E1, E2, Hq, app_assoc. auto 7. }
  destruct (act_running t0 a s s' Hi Er E) as [->|(st0 & st' & s1 & Et0 & E2 & Hqs & _ & Ep & Eq & _)];
    [by exists st, k, new|].
  unfold drained. rewrite E2, Ep, Eq. clear E Ep Eq.
  destruct Hqs as [new' Hp' Hq' Hpo|e j Hq' Hp' H1 H2].
  - rewrite Hp', Hq', Hq, <- app_assoc. destruct (decide (t0 = t)) as [->|Hnet].
    + rewrite Ht in Et0. injection Et0 as <-. exists st', k, (new ++ new').
      rewrite list_lookup_insert_eq by (by eapply lookup_lt_Some). split_and!; try done.
      destruct Hpo as [->|[-> Hz]]; [done|right]. split; [done|]. destruct Hst as [Hst|[_ ->]]; [|done].
      apply Hz. by rewrite Hn.
    + exists st, k, (new ++ new'). by rewrite list_lookup_insert_ne.
  - rewrite Hn in *. pose proof (Hsole t0 st0 _ Et0 H1) as ->. rewrite Ht in Et0. injection Et0 as <-.
    destruct Hst as [Hst|[Hst _]]; [|congruence]. rewrite H1 in Hst. injection Hst as <-.
    exists st', j, new. rewrite list_lookup_insert_eq by (by eapply lookup_lt_Some).
    rewrite Hq in Hq'.
    assert (exists y, q0 !! (length q0 - S j)%nat = Some y) as [y Hy] by (apply lookup_lt_is_Some; lia).
    rewrite (drop_S _ y) in Hq' by done. injection Hq' as <- Hq'.
    replace (length q0 - j)%nat with (S (length q0 - S j)) by lia.
    split_and!; [done|lia| |done|by left]. rewrite Hp', Hpop, (take_S_r _ _ y) by done. by rewrite app_assoc.
Qed.

(** A whole run after the activation began. *)
Lemma drained_run pop0 q0 t n l s s' :
  inv s -> forallb (fun a => negb (is_start_poll a)) l = true -> sole t n s -> drained pop0 q0 t n s ->
  acts body l s = Ret s' -> drained pop0 q0 t n s'.
Proof.
  revert s. induction l as [|a l IH]; intros s Hi Hl Hs Hd E; simplify_eq/=; [done|].
  apply andb_prop in Hl as [Ha Hl]. apply negb_true_iff in Ha.
  destruct (act_ok a s Hi (or_intror Ha)) as (s1 & E1 & Hi1 & _). rewrite E1 in E.
  apply (IH s1); [done|done|by apply (sole_step t n a s)|by apply (drained_step pop0 q0 t n a s)|done].
Qed.
End machine.
