(* ===== verification/TimerDispatcher.v ===== *)
(** * The timer dispatcher (src/lib/timer-dispatcher.cc)

    [Timer_dispatcher] owns heap-allocated [Timer_impl] objects: an ordered set
    of active timers, a set of applicants that become active at the next
    [poll], and the set of both.  Clients hold [Timer] facades, copyable pairs
    of an address and a generation, which may outlive the object; an address
    may be allocated again.  Callbacks are client code: [body f] is the program
    that callback [f] runs.  A callback that blocks suspends its cooperative
    thread in the middle of [poll], which another thread may then enter.

    [Aborted] is a use after [delete] or a double [delete]. *)

From S2P Require Import Prelude Bytes Timeval.

Open Scope Z_scope.

(** ** Timers *)

Record timer := Timer_impl {
  func : Z; time : timeval; admitted : bool; generation : Z
}.

(** [Compare_timer] *)
Definition timer_less (x y : timer) : bool :=
  if negb (tv_eqb (time x) (time y)) then tv_ltb (time x) (time y)
  else generation x <? generation y.

(** [Timer]: [dispatcher] is either null or the one dispatcher. *)
Record facade := Timer { dispatcher : bool; impl : Z; fgeneration : Z }.
Definition null_timer : facade := Timer false 0 0.

(** What a callback (or any other client) does; timers are named by the
    position of their facade in the client's store. *)
Inductive tprog :=
| TReturn
| TThrow                                                   (* a [std::exception] leaks *)
| TPost (cb : Z) (duration : timeval) (k : tprog)          (* stores the facade *)
| TCopy (h : nat) (k : tprog)                              (* stores a copy of it *)
| TCancel (h : nat) (k : tprog)
| TDelay (h : nat) (neg : bool) (sec usec : Z) (k : tprog)
| TReset (h : nat) (sec usec : Z) (k : tprog)
| TGet_time (h : nat) (k : timeval -> tprog)
| TBlock (k : tprog).                                      (* waits; other threads run *)

(** A thread: in the loop of [poll], in client code (called by [poll] for a
    timer it must delete, or not), or finished. *)
Inductive tthread :=
| TPolling (now : timeval) (n : Z)
| TCalling (p : tprog) (caller : option (Z * timeval * Z))
| TDone.

(** A callback that [poll] number [f_serial] called. *)
Record firing := Firing { f_generation : Z; f_time : timeval; f_now : timeval; f_serial : Z }.

Record tsys := TSys {
  heap : gmap Z timer;
  timers : list Z;
  applicants : gset Z;
  all_timers : gset Z;
  tserial : Z;
  next_generation : Z;
  clock : timeval;                                         (* what [do_gettimeofday()] returns *)
  facades : list facade;
  tthreads : list tthread;
  trunning : option nat;
  fired : list firing                                      (* every callback called *)
}.

Definition tinit (t0 : timeval) : tsys := TSys ∅ [] ∅ ∅ 0 0 t0 [] [] None [].

(** ** Pointers *)

Definition deref (hp : gmap Z timer) (a : Z) : res timer :=
  match hp !! a with Some x => Ret x | None => Aborted end.

(** [std::set::insert] and [erase], with [Compare_timer]: elements neither of
    which is less than the other are the same. *)
Fixpoint set_insert (hp : gmap Z timer) (a : Z) (x : timer) (q : list Z) : res (list Z) :=
  match q with
  | [] => Ret [a]
  | b :: q' =>
      y ← deref hp b;
      if timer_less y x then q'' ← set_insert hp a x q'; Ret (b :: q'')
      else if timer_less x y then Ret (a :: q) else Ret q
  end.

Fixpoint set_erase (hp : gmap Z timer) (x : timer) (q : list Z) : res (list Z) :=
  match q with
  | [] => Ret []
  | b :: q' =>
      y ← deref hp b;
      if timer_less y x then q'' ← set_erase hp x q'; Ret (b :: q'')
      else if timer_less x y then Ret q else Ret q'
  end.

(** ** Methods of the dispatcher *)

Definition with_sets (hp : gmap Z timer) (q : list Z) (ap al : gset Z) (s : tsys) : tsys :=
  TSys hp q ap al (tserial s) (next_generation s) (clock s) (facades s) (tthreads s) (trunning s) (fired s).

Definition with_tthreads (ts : list tthread) (r : option nat) (s : tsys) : tsys :=
  TSys (heap s) (timers s) (applicants s) (all_timers s) (tserial s) (next_generation s) (clock s)
    (facades s) ts r (fired s).

Definition with_facades (fs : list facade) (s : tsys) : tsys :=
  TSys (heap s) (timers s) (applicants s) (all_timers s) (tserial s) (next_generation s) (clock s)
    fs (tthreads s) (trunning s) (fired s).

(** [check_validity] *)
Definition check_validity (s : tsys) (a g : Z) : res bool :=
  if decide (a ∈ all_timers s) then x ← deref (heap s) a; Ret (generation x =? g)
  else Ret false.

Section machine.
(** [operator new] for a [Timer_impl]: an address that is not in use. *)
Variable alloc : gmap Z timer -> Z.
Variable body : Z -> tprog.

(** [post] *)
Definition tpost (cb : Z) (duration : timeval) (s : tsys) : tsys :=
  let a := alloc (heap s) in
  let g := u32 (next_generation s + 1) in
  let t := Timer_impl cb (tv_add (clock s) duration) false g in
  TSys (<[a := t]> (heap s)) (timers s) ({[a]} ∪ applicants s) ({[a]} ∪ all_timers s) (tserial s) g
    (clock s) (facades s ++ [Timer true a g]) (tthreads s) (trunning s) (fired s).

(** [Timer_impl::cancel] *)
Definition impl_cancel (a : Z) (s : tsys) : res tsys :=
  x ← deref (heap s) a;
  if admitted x then
    q ← set_erase (heap s) x (timers s);
    Ret (with_sets (<[a := Timer_impl (func x) (time x) false (generation x)]> (heap s)) q
           (applicants s) (all_timers s ∖ {[a]}) s)
  else Ret (with_sets (heap s) (timers s) (applicants s ∖ {[a]}) (all_timers s ∖ {[a]}) s).

(** [Timer_impl::set_timeout] *)
Definition set_timeout (a : Z) (w : timeval) (s : tsys) : res tsys :=
  s ← impl_cancel a s;
  x ← deref (heap s) a;
  Ret (with_sets (<[a := Timer_impl (func x) w (admitted x) (generation x)]> (heap s)) (timers s)
         ({[a]} ∪ applicants s) ({[a]} ∪ all_timers s) s).

(** [Timer_impl::delay], [Timer_impl::reset] *)
Definition impl_delay (a : Z) (neg : bool) (sec usec : Z) (s : tsys) : res tsys :=
  x ← deref (heap s) a;
  let delta := Timeval sec usec in
  set_timeout a (if neg then tv_sub (time x) delta else tv_add (time x) delta) s.

Definition impl_reset (a : Z) (sec usec : Z) (s : tsys) : res tsys :=
  set_timeout a (tv_add (clock s) (make_timeval sec usec)) s.

(** [delete] *)
Definition tdelete (a : Z) (s : tsys) : res tsys :=
  _ ← deref (heap s) a;
  Ret (with_sets (delete a (heap s)) (timers s) (applicants s) (all_timers s) s).

(** ** Methods of the facade *)

Definition facade_of (s : tsys) (h : nat) : facade := default null_timer (facades s !! h).

Definition valid (s : tsys) (f : facade) : res bool :=
  if dispatcher f then check_validity s (impl f) (fgeneration f) else Ret false.

Definition timer_cancel (h : nat) (s : tsys) : res tsys :=
  let f := facade_of s h in
  v ← valid s f;
  if (v : bool) then
    s ← impl_cancel (impl f) s;
    s ← tdelete (impl f) s;
    Ret (with_facades (<[h := Timer false 0 (fgeneration f)]> (facades s)) s)
  else Ret s.

Definition timer_delay (h : nat) (neg : bool) (sec usec : Z) (s : tsys) : res tsys :=
  let f := facade_of s h in
  v ← valid s f;
  if (v : bool) then impl_delay (impl f) neg sec usec s else Ret s.

Definition timer_reset (h : nat) (sec usec : Z) (s : tsys) : res tsys :=
  let f := facade_of s h in
  v ← valid s f;
  if (v : bool) then impl_reset (impl f) sec usec s else Ret s.

Definition timer_get_time (h : nat) (s : tsys) : res timeval :=
  let f := facade_of s h in
  v ← valid s f;
  if (v : bool) then x ← deref (heap s) (impl f); Ret (time x) else Ret (Timeval 0 0).

(** ** [poll] *)

(** Admitting one applicant, in the heap and in the ordered set. *)
Definition admit_heap (hp : gmap Z timer) (a : Z) : res (gmap Z timer) :=
  x ← deref hp a; Ret (<[a := Timer_impl (func x) (time x) true (generation x)]> hp).

Fixpoint admit_all (l : list Z) (hp : gmap Z timer) : res (gmap Z timer) :=
  match l with
  | [] => Ret hp
  | a :: l => hp ← admit_heap hp a; admit_all l hp
  end.

Fixpoint insert_all (hp : gmap Z timer) (l : list Z) (q : list Z) : res (list Z) :=
  match l with
  | [] => Ret q
  | a :: l => x ← deref hp a; q ← set_insert hp a x q; insert_all hp l q
  end.

(** [poll] up to its loop; [now] is what [gettimeofday] returns. *)
Definition tbegin_poll (now : timeval) (s : tsys) : res tsys :=
  hp ← admit_all (elements (applicants s)) (heap s);
  q ← insert_all hp (elements (applicants s)) (timers s);
  Ret (TSys hp q ∅ (all_timers s) (u32 (tserial s + 1)) (next_generation s) now
         (facades s) (tthreads s) (trunning s) (fired s)).

(** The head of the loop: fires the first timer if it has expired. *)
Definition poll_round (now : timeval) (n : Z) (s : tsys) : res (tthread * tsys) :=
  match timers s with
  | [] => Ret (TDone, s)
  | a :: q =>
      x ← deref (heap s) a;
      if tv_leb now (time x) then Ret (TDone, s)
      else
        Ret (TCalling (body (func x)) (Some (a, now, n)),
             TSys (heap s) q (applicants s) (all_timers s ∖ {[a]}) (tserial s) (next_generation s)
               (clock s) (facades s) (tthreads s) (trunning s)
               (fired s ++ [Firing (generation x) (time x) now n]))
  end.

(** The callback has returned or thrown. *)
Definition after_call (caller : option (Z * timeval * Z)) (s : tsys) : res (tthread * tsys) :=
  match caller with
  | None => Ret (TDone, s)
  | Some (a, now, n) =>
      s ← tdelete a s;
      if negb (n =? tserial s) then Ret (TDone, s) else Ret (TPolling now n, s)
  end.

(** One step of the running thread: its next state, and whether it goes on. *)
Definition tstep (th : tthread) (s : tsys) : res (tthread * bool * tsys) :=
  match th with
  | TDone => Ret (TDone, false, s)
  | TPolling now n => '(th, s) ← poll_round now n s; Ret (th, true, s)
  | TCalling p c =>
      match p with
      | TReturn | TThrow => '(th, s) ← after_call c s; Ret (th, true, s)
      | TPost cb d k => Ret (TCalling k c, true, tpost cb d s)
      | TCopy h k => Ret (TCalling k c, true, with_facades (facades s ++ [facade_of s h]) s)
      | TCancel h k => s ← timer_cancel h s; Ret (TCalling k c, true, s)
      | TDelay h neg sec usec k => s ← timer_delay h neg sec usec s; Ret (TCalling k c, true, s)
      | TReset h sec usec k => s ← timer_reset h sec usec s; Ret (TCalling k c, true, s)
      | TGet_time h k => v ← timer_get_time h s; Ret (TCalling (k v) c, true, s)
      | TBlock k => Ret (TCalling k c, false, s)
      end
  end.

Inductive taction :=
| AStep                                                    (* the running thread goes on *)
| AResume (t : nat)                                        (* a suspended thread is chosen *)
| APoll (now : timeval)                                    (* a new thread enters [poll] *)
| AClient (p : tprog).                                     (* a new thread of client code *)

(** An action that is not possible in a state leaves it as it is. *)
Definition tact (a : taction) (s : tsys) : res tsys :=
  match trunning s, a with
  | Some t, AStep =>
      match tthreads s !! t with
      | Some th =>
          '(th', on, s') ← tstep th s;
          Ret (with_tthreads (<[t := th']> (tthreads s')) (if (on : bool) then Some t else None) s')
      | None => Ret s
      end
  | None, AResume t =>
      if Nat.ltb t (length (tthreads s)) then Ret (with_tthreads (tthreads s) (Some t) s) else Ret s
  | None, APoll now =>
      s ← tbegin_poll now s;
      Ret (with_tthreads (tthreads s ++ [TPolling now (tserial s)]) (Some (length (tthreads s))) s)
  | None, AClient p =>
      Ret (with_tthreads (tthreads s ++ [TCalling p None]) (Some (length (tthreads s))) s)
  | _, _ => Ret s
  end.

Fixpoint tacts (l : list taction) (s : tsys) : res tsys :=
  match l with
  | [] => Ret s
  | a :: l => s ← tact a s; tacts l s
  end.
End machine.
