(* ===== verification/TimerFacts.v ===== *)
(** * The timer dispatcher: its invariant

    [core s F] relates the heap, the sets and the facades of a dispatcher in
    which the objects [F] are detached from the sets but not yet deleted; each
    method preserves it.  [tinv] adds the threads. *)

From S2P Require Import Prelude Bytes Timeval TimerDispatcher.

Open Scope Z_scope.

(** ** The order of the timers *)

Definition klt (t1 : timeval) (g1 : Z) (t2 : timeval) (g2 : Z) : Prop :=
  tv_sec t1 < tv_sec t2 \/
  tv_sec t1 = tv_sec t2 /\ (tv_usec t1 < tv_usec t2 \/ tv_usec t1 = tv_usec t2 /\ g1 < g2).

Abbreviation tlt x y := (klt (time x) (generation x) (time y) (generation y)).

Lemma timer_less_spec x y : timer_less x y = true <-> tlt x y.
Proof.
  unfold timer_less, klt, tv_eqb, tv_ltb.
  destruct (timeval_compare_cases (time x) (time y)) as [[-> H]|[[-> H]|[-> H]]]; simpl;
    rewrite ?Z.ltb_lt; rewrite ?H; lia.
Qed.

Lemma timer_less_false x y :
  timer_less x y = false -> timer_less y x = false -> generation x = generation y.
Proof.
  rewrite <- !not_true_iff_false, !timer_less_spec. unfold klt. lia.
Qed.

Definition hlt (hp : gmap Z timer) (a b : Z) : Prop :=
  forall x y, hp !! a = Some x -> hp !! b = Some y -> tlt x y.

Record queue_ok (hp : gmap Z timer) (q : list Z) : Prop := {
  qo_sorted : StronglySorted (hlt hp) q;
  qo_live : Forall (fun a => is_Some (hp !! a)) q
}.

Lemma queue_ok_cons hp a q :
  queue_ok hp (a :: q) <-> is_Some (hp !! a) /\ Forall (hlt hp a) q /\ queue_ok hp q.
Proof.
  split.
  - intros [Hs Hl]. apply StronglySorted_inv in Hs as [Hs Ha]. apply Forall_cons in Hl as [? ?]. done.
  - intros (Ha & Hq & [Hs Hl]). by split; constructor.
Qed.

(** The order depends only on the keys. *)
Lemma queue_ok_ext hp hp' q :
  (forall a x, a ∈ q -> hp !! a = Some x ->
     exists x', hp' !! a = Some x' /\ time x' = time x /\ generation x' = generation x) ->
  queue_ok hp q -> queue_ok hp' q.
Proof.
  induction q as [|a q IH]; intros Hk; [intros _; by repeat constructor|]. rewrite !queue_ok_cons. intros ([x Hx] & Ha & Hq).
  destruct (Hk a x ltac:(set_solver) Hx) as (x' & Hx' & Et & Eg). split_and!; [done| |apply IH; set_solver].
  apply Forall_forall. intros b Hb. rewrite Forall_forall in Ha. specialize (Ha b Hb).
  destruct Hq as [_ Hl]. rewrite Forall_forall in Hl. destruct (Hl b Hb) as [y Hy].
  destruct (Hk b y ltac:(set_solver) Hy) as (y' & Hy' & Et' & Eg').
  intros ? ? E1 E2. simplify_eq. rewrite Et, Eg, Et', Eg'. by apply Ha.
Qed.

Lemma queue_ok_insert_out hp a x q : a ∉ q -> queue_ok hp q -> queue_ok (<[a := x]> hp) q.
Proof.
  intros Ha. apply queue_ok_ext. intros b y Hb Hy. exists y. split; [|done].
  rewrite lookup_insert_ne; [done|]. set_solver.
Qed.

Lemma hlt_trans hp a b c : is_Some (hp !! b) -> hlt hp a b -> hlt hp b c -> hlt hp a c.
Proof.
  intros [y Hy] H1 H2 x z Hx Hz. specialize (H1 x y Hx Hy). specialize (H2 y z Hy Hz).
  unfold klt in *. lia.
Qed.

(** ** The ordered set *)

Definition gens_apart (hp : gmap Z timer) : Prop :=
  forall a b x y, hp !! a = Some x -> hp !! b = Some y -> generation x = generation y -> a = b.

Lemma set_insert_spec hp a x q :
  gens_apart hp -> queue_ok hp q -> hp !! a = Some x -> a ∉ q ->
  exists q', set_insert hp a x q = Ret q' /\ q' ≡ₚ a :: q /\ queue_ok hp q'.
Proof.
  intros Hg Hq Ha. induction q as [|b q IH]; intros Hn.
  { exists [a]. split_and!; [done|done|]. apply queue_ok_cons. split_and!; [by rewrite Ha|constructor|done]. }
  destruct (proj1 (queue_ok_cons _ _ _) Hq) as ([y Hy] & Hb & Hq'). simpl. unfold deref. rewrite Hy. simpl.
  destruct (timer_less y x) eqn:E1.
  - destruct (IH Hq' ltac:(set_solver)) as (q' & -> & Hp & Hok). eexists. split; [done|]. split.
    + rewrite Hp. constructor.
    + apply queue_ok_cons. split_and!; [by rewrite Hy| |done]. rewrite Hp. constructor; [|done].
      intros ? ? ? ?. simplify_eq. by apply timer_less_spec.
  - destruct (timer_less x y) eqn:E2.
    + eexists. split_and!; [done|done|]. apply queue_ok_cons. split_and!; [by rewrite Ha| |done].
      assert (Hab : hlt hp a b) by (intros ? ? ? ?; simplify_eq; by apply timer_less_spec).
      constructor; [done|]. eapply Forall_impl; [exact Hb|]. intros c. apply hlt_trans; [by rewrite Hy|done].
    + destruct Hn. rewrite (Hg a b x y Ha Hy); [set_solver|]. by apply timer_less_false.
Qed.

Lemma set_erase_spec hp a x q :
  gens_apart hp -> queue_ok hp q -> hp !! a = Some x -> a ∈ q ->
  exists q', set_erase hp x q = Ret q' /\ q ≡ₚ a :: q' /\ queue_ok hp q'.
Proof.
  intros Hg Hq Ha. induction q as [|b q IH]; intros Hn; [set_solver|].
  destruct (proj1 (queue_ok_cons _ _ _) Hq) as ([y Hy] & Hb & Hq'). simpl. unfold deref. rewrite Hy. simpl.
  destruct (decide (b = a)) as [->|Hne].
  - simplify_eq. assert (timer_less x x = false) as -> by
      (rewrite <- not_true_iff_false, timer_less_spec; unfold klt; lia).
    eauto.
  - assert (Haq : a ∈ q) by set_solver.
    assert (timer_less y x = true) as ->.
    { apply timer_less_spec. rewrite Forall_forall in Hb. by apply (Hb a Haq). }
    destruct (IH Hq' Haq) as (q' & -> & Hp & Hok). eexists. split; [done|]. split.
    + rewrite Hp. constructor.
    + apply queue_ok_cons. split_and!; [by rewrite Hy| |done]. rewrite Hp in Hb.
      by apply Forall_cons in Hb as [_ ?].
Qed.

Lemma queue_ok_NoDup hp q : queue_ok hp q -> NoDup q.
Proof.
  induction q as [|a q IH]; [constructor|]. rewrite queue_ok_cons. intros ([x Hx] & Ha & Hq).
  constructor; [|auto]. intros Hin. rewrite Forall_forall in Ha.
  specialize (Ha a Hin x x Hx Hx). unfold klt in Ha. lia.
Qed.

(** ** The dispatcher without its threads *)

(** A firing against the timers still queued, and against a later firing. *)
Definition flt (f g : firing) : Prop := klt (f_time f) (f_generation f) (f_time g) (f_generation g).

Record firing_ok (s : tsys) (f : firing) : Prop := {
  fo_due : tv_leb (f_now f) (f_time f) = false;
  fo_serial : f_serial f <= tserial s;
  fo_gen : f_generation f <= next_generation s;
  fo_gone : forall a x, a ∈ all_timers s -> heap s !! a = Some x -> generation x <> f_generation f;
  fo_before : f_serial f = tserial s -> forall a x, a ∈ timers s -> heap s !! a = Some x ->
    klt (f_time f) (f_generation f) (time x) (generation x)
}.

Record facade_ok (s : tsys) (f : facade) : Prop := {
  fa_gen : fgeneration f <= next_generation s;
  fa_addr : forall a x, heap s !! a = Some x -> generation x = fgeneration f -> a = impl f
}.

Record core (s : tsys) (F : gset Z) : Prop := {
  c_queue : queue_ok (heap s) (timers s);
  c_dom : forall a, is_Some (heap s !! a) <-> a ∈ all_timers s \/ a ∈ F;
  c_out : forall a, a ∈ F -> a ∉ all_timers s;
  c_all : forall a, a ∈ timers s \/ a ∈ applicants s -> a ∈ all_timers s;
  c_flag : forall a x, a ∈ all_timers s -> heap s !! a = Some x ->
    if admitted x then (a ∈ timers s /\ a ∉ applicants s) else ((a ∉ timers s) /\ a ∈ applicants s);
  c_gens : forall a x, heap s !! a = Some x -> generation x <= next_generation s;
  c_apart : gens_apart (heap s);
  c_facades : forall f, f ∈ facades s -> dispatcher f = true -> facade_ok s f;
  c_fired : forall f, f ∈ fired s -> firing_ok s f;
  c_once : NoDup (f_generation <$> fired s);
  c_order : StronglySorted (fun f g => f_serial f = f_serial g -> flt f g) (fired s);
  c_nonneg : 0 <= next_generation s /\ 0 <= tserial s
}.

(** Facades and firings only look at part of the state, which shrinks. *)
Lemma facade_ok_mono s s' f :
  (forall a x, heap s' !! a = Some x -> exists x', heap s !! a = Some x' /\ generation x' = generation x) ->
  next_generation s <= next_generation s' -> facade_ok s f -> facade_ok s' f.
Proof.
  intros Hh Hn [Hg Ha]. split; [lia|]. intros a x Hx E. destruct (Hh a x Hx) as (x' & Hx' & E').
  apply (Ha a x' Hx'). congruence.
Qed.

Lemma firing_ok_mono s s' f :
  (forall a x, a ∈ all_timers s' -> heap s' !! a = Some x ->
     exists x', a ∈ all_timers s /\ heap s !! a = Some x' /\ generation x' = generation x) ->
  (forall a x, a ∈ timers s' -> heap s' !! a = Some x ->
     exists x', a ∈ timers s /\ heap s !! a = Some x' /\ generation x' = generation x /\ time x' = time x) ->
  next_generation s <= next_generation s' -> tserial s' = tserial s -> firing_ok s f -> firing_ok s' f.
Proof.
  intros Hh Hq Hn Hs [H1 H2 H3 H4 H5]. split; [done|lia|lia| |].
  - intros a x Ha Hx. destruct (Hh a x Ha Hx) as (x' & Ha' & Hx' & <-). eauto.
  - rewrite Hs. intros E a x Ha Hx. destruct (Hq a x Ha Hx) as (x' & Ha' & Hx' & <- & <-). eauto.
Qed.

(** ** Detaching, deleting and attaching an object *)

(** What no method of a timer touches. *)
Definition same_rest (s s' : tsys) : Prop :=
  tserial s' = tserial s /\ next_generation s' = next_generation s /\ clock s' = clock s /\
  facades s' = facades s /\ tthreads s' = tthreads s /\ trunning s' = trunning s /\ fired s' = fired s.

Lemma core_member s F a : core s F -> a ∈ all_timers s -> exists x, heap s !! a = Some x.
Proof. intros Hc Ha. apply (c_dom _ _ Hc). by left. Qed.

(** [Timer_impl::cancel] detaches a timer. *)
Lemma cancel_core s F a x :
  core s F -> a ∈ all_timers s -> heap s !! a = Some x ->
  exists s', impl_cancel a s = Ret s' /\ core s' ({[a]} ∪ F) /\ same_rest s s' /\
    all_timers s' = all_timers s ∖ {[a]} /\
    heap s' !! a = Some (Timer_impl (func x) (time x) false (generation x)).
Proof.
  intros Hc Ha Hx. destruct (Hc) as [Hq Hd Ho Hal Hf Hg Hap Hfa Hfi Hon Hor Hnn].
  pose proof (Hf a x Ha Hx) as Hax. unfold impl_cancel, deref. rewrite Hx. simpl.
  assert (HaF : a ∉ F) by (intros ?; by apply (Ho a)).
  destruct (admitted x) eqn:Ead.
  - destruct Hax as [Hin Hout]. destruct (set_erase_spec _ a x _ Hap Hq Hx Hin) as (q' & -> & Hp & Hok). simpl.
    assert (Hnq : a ∉ q'). { apply queue_ok_NoDup in Hq. rewrite Hp in Hq. by apply NoDup_cons in Hq as [? _]. }
    assert (Hmem : forall b, b ∈ timers s <-> b = a \/ b ∈ q') by (intros b; rewrite Hp; set_solver).
    assert (Hb : forall b y, <[a := Timer_impl (func x) (time x) false (generation x)]> (heap s) !! b = Some y ->
      exists y', heap s !! b = Some y' /\ generation y' = generation y /\ time y' = time y /\ (b <> a -> y' = y)).
    { intros b y [[<- <-]|[? ?]]%lookup_insert_Some; eauto 7. exists x. done. }
    eexists. split; [done|]. split_and!; [|done|done|simpl; by rewrite lookup_insert_eq].
    split; simpl; try done.
    + by apply queue_ok_insert_out.
    + intros b. rewrite lookup_insert_is_Some', Hd. destruct (decide (b = a)); set_solver.
    + set_solver.
    + intros b Hb'. assert (b <> a) by (intros ->; set_solver).
      assert (b ∈ all_timers s) by (apply Hal; rewrite Hmem; set_solver). set_solver.
    + intros b y Hb1 Hy. destruct (Hb b y Hy) as (y' & Hy' & _ & _ & E). rewrite <- E in * by set_solver.
      pose proof (Hf b y' ltac:(set_solver) Hy') as H. case_match; rewrite Hmem in H; set_solver.
    + intros b y Hy. destruct (Hb b y Hy) as (y' & Hy' & <- & _). eauto.
    + intros b c y z Hy Hz. destruct (Hb b y Hy) as (y' & Hy' & <- & _), (Hb c z Hz) as (z' & Hz' & <- & _). eauto.
    + intros f Hf1 Hf2. apply (facade_ok_mono s); [|simpl; lia|by apply Hfa]. simpl. intros b y Hy.
      destruct (Hb b y Hy) as (y' & ? & ? & _). eauto.
    + intros f Hf1. apply (firing_ok_mono s); [| |simpl; lia|done|by apply Hfi]; simpl; intros b y Hb1 Hy;
        destruct (Hb b y Hy) as (y' & ? & ? & ? & _); exists y'; [set_solver|]. rewrite Hmem. set_solver.
  - destruct Hax as [Hout Hin]. eexists. split; [done|].
    split_and!; [|done|done|rewrite <- Ead; simpl; rewrite Hx; by destruct x].
    split; simpl; try done.
    + intros b. rewrite Hd. destruct (decide (b = a)); set_solver.
    + set_solver.
    + intros b Hb'. assert (b <> a) by (intros ->; set_solver). set_solver.
    + intros b y Hb1 Hy. pose proof (Hf b y ltac:(set_solver) Hy) as H. case_match; set_solver.
    + intros f Hf1 Hf2. apply (facade_ok_mono s); [simpl; eauto|simpl; lia|by apply Hfa].
    + intros f Hf1. apply (firing_ok_mono s); [| |simpl; lia|done|by apply Hfi]; simpl; intros b y Hb1 Hy; exists y; set_solver.
Qed.

(** [delete] of a detached object. *)
Lemma delete_core s F a :
  core s ({[a]} ∪ F) -> a ∉ F ->
  exists s', tdelete a s = Ret s' /\ core s' F /\ same_rest s s' /\ all_timers s' = all_timers s /\
    timers s' = timers s.
Proof.
  intros [Hq Hd Ho Hal Hf Hg Hap Hfa Hfi Hon Hor Hnn] HaF. unfold tdelete, deref.
  assert (is_Some (heap s !! a)) as [x Hx] by (apply Hd; set_solver). rewrite Hx. simpl.
  assert (Hna : a ∉ all_timers s) by (apply Ho; set_solver).
  eexists. split; [done|]. split_and!; [|done|done|done]. split; simpl; try done.
  - eapply queue_ok_ext; [|exact Hq]. intros b y Hb Hy. exists y. split; [|done].
    rewrite lookup_delete_ne; [done|]. intros ->. apply Hna, Hal. by left.
  - intros b. destruct (decide (b = a)) as [->|Hne].
    + rewrite lookup_delete_eq. split; [by intros []|]. set_solver.
    + rewrite lookup_delete_ne by done. rewrite Hd. set_solver.
  - set_solver.
  - intros b y Hb [_ Hy]%lookup_delete_Some. by apply Hf.
  - intros b y [_ Hy]%lookup_delete_Some. eauto.
  - intros b c y z [_ Hy]%lookup_delete_Some [_ Hz]%lookup_delete_Some. eauto.
  - intros f Hf1 Hf2. apply (facade_ok_mono s); [|simpl; lia|by apply Hfa]. simpl.
    intros b y [_ Hy]%lookup_delete_Some. eauto.
  - intros f Hf1. apply (firing_ok_mono s); [| |simpl; lia|done|by apply Hfi]; simpl;
      intros b y Hb [_ Hy]%lookup_delete_Some; eauto.
Qed.

(** A detached object that never fired becomes an applicant again. *)
Lemma attach_core s F a x w :
  core s ({[a]} ∪ F) -> a ∉ F -> heap s !! a = Some x -> admitted x = false ->
  (forall f, f ∈ fired s -> generation x <> f_generation f) ->
  core (with_sets (<[a := Timer_impl (func x) w (admitted x) (generation x)]> (heap s)) (timers s)
          ({[a]} ∪ applicants s) ({[a]} ∪ all_timers s) s) F.
Proof.
  intros [Hq Hd Ho Hal Hf Hg Hap Hfa Hfi Hon Hor Hnn] HaF Hx Had Hnf.
  assert (Hna : a ∉ all_timers s) by (apply Ho; set_solver).
  assert (Hnt : a ∉ timers s) by (intros ?; apply Hna, Hal; by left).
  assert (Hb : forall b y, <[a := Timer_impl (func x) w (admitted x) (generation x)]> (heap s) !! b = Some y ->
    exists y', heap s !! b = Some y' /\ generation y' = generation y /\ admitted y' = admitted y /\
      (b <> a -> y' = y)).
  { intros b y [[<- <-]|[? ?]]%lookup_insert_Some; eauto 7. exists x. done. }
  split; simpl; try done.
  - by apply queue_ok_insert_out.
  - intros b. rewrite lookup_insert_is_Some', Hd. destruct (decide (b = a)); set_solver.
  - set_solver.
  - set_solver.
  - intros b y Hb1 Hy. destruct (Hb b y Hy) as (y' & Hy' & _ & <- & _). destruct (decide (b = a)) as [->|].
    + simplify_eq. rewrite Had. set_solver.
    + pose proof (Hf b y' ltac:(set_solver) Hy') as H. case_match; set_solver.
  - intros b y Hy. destruct (Hb b y Hy) as (y' & Hy' & <- & _). eauto.
  - intros b c y z Hy Hz. destruct (Hb b y Hy) as (y' & Hy' & <- & _), (Hb c z Hz) as (z' & Hz' & <- & _). eauto.
  - intros f Hf1 Hf2. apply (facade_ok_mono s); [|simpl; lia|by apply Hfa]. simpl. intros b y Hy.
    destruct (Hb b y Hy) as (y' & ? & ? & _). eauto.
  - intros f Hf1. destruct (Hfi f Hf1) as [H1 H2 H3 H4 H5]. split; simpl; try done.
    + intros b y Hb1 Hy. destruct (Hb b y Hy) as (y' & Hy' & <- & _). destruct (decide (b = a)) as [->|].
      * simplify_eq. by apply Hnf.
      * apply (H4 b); [set_solver|done].
    + intros E b y Hb1 Hy. destruct (Hb b y Hy) as (y' & Hy' & _ & _ & Ey). 
      rewrite <- Ey by (intros ->; done). eauto.
Qed.

Lemma same_rest_trans s1 s2 s3 : same_rest s1 s2 -> same_rest s2 s3 -> same_rest s1 s3.
Proof. unfold same_rest. intuition congruence. Qed.

Lemma set_timeout_core s F a x w :
  core s F -> a ∈ all_timers s -> heap s !! a = Some x ->
  exists s', set_timeout a w s = Ret s' /\ core s' F /\ same_rest s s'.
Proof.
  intros Hc Ha Hx. assert (HaF : a ∉ F) by (intros ?; by apply (c_out _ _ Hc a)).
  destruct (cancel_core s F a x Hc Ha Hx) as (s1 & E1 & Hc1 & Hr & _ & Hx1).
  unfold set_timeout, deref. rewrite E1. simpl. rewrite Hx1. simpl. eexists. split; [done|]. split.
  - apply (attach_core s1 F a (Timer_impl (func x) (time x) false (generation x)) w); try done.
    simpl. destruct Hr as (_ & _ & _ & _ & _ & _ & ->). intros f Hf. by apply (fo_gone _ _ (c_fired _ _ Hc f Hf) a).
  - eapply same_rest_trans; [exact Hr|done].
Qed.

(** ** The facade *)

Lemma core_facades s F fs :
  core s F -> (forall f, f ∈ fs -> dispatcher f = true -> f ∈ facades s) -> core (with_facades fs s) F.
Proof.
  intros [Hq Hd Ho Hal Hf Hg Hap Hfa Hfi Hon Hor Hnn] Hfs. split; simpl; try done.
  - intros f H1 H2. apply (facade_ok_mono s); [simpl; eauto|simpl; lia|]. eauto.
  - intros f H1. apply (firing_ok_mono s); [simpl; eauto|simpl; eauto 6|simpl; lia|done|auto].
Qed.

(** A facade is valid exactly when the object it was made for is still in the
    sets; it then holds its address. *)
Lemma valid_spec s F h :
  core s F ->
  exists v, valid s (facade_of s h) = Ret v /\
    (v = true -> exists x, impl (facade_of s h) ∈ all_timers s /\ heap s !! impl (facade_of s h) = Some x /\
       generation x = fgeneration (facade_of s h) /\ facades s !! h = Some (facade_of s h) /\
       dispatcher (facade_of s h) = true) /\
    (dispatcher (facade_of s h) = true -> forall a x, a ∈ all_timers s -> heap s !! a = Some x ->
       generation x = fgeneration (facade_of s h) -> v = true).
Proof.
  intros Hc. unfold valid, facade_of. destruct (facades s !! h) as [f|] eqn:Ef; simpl; [|by exists false].
  destruct (dispatcher f) eqn:Ed; [|by exists false]. unfold check_validity, deref.
  pose proof (c_facades _ _ Hc f (list_elem_of_lookup_2 _ _ _ Ef) Ed) as [_ Hf].
  case_decide as Ha.
  - destruct (core_member s F _ Hc Ha) as [x Hx]. rewrite Hx. simpl.
    exists (generation x =? fgeneration f). rewrite Z.eqb_eq. split_and!; [done|eauto 6|].
    intros _ a y Hin Hy E. apply (Hf a y Hy) in E as E'. subst a. apply Z.eqb_eq. congruence.
  - exists false. split_and!; [done|done|]. intros _ a y Hin Hy E. rewrite (Hf a y Hy E) in Hin. done.
Qed.

(** What a client's call may change: not the threads nor the log. *)
Definition same_threads (s s' : tsys) : Prop :=
  tserial s' = tserial s /\ tthreads s' = tthreads s /\ trunning s' = trunning s /\ fired s' = fired s.

Lemma same_rest_threads s s' : same_rest s s' -> same_threads s s' /\ next_generation s' = next_generation s.
Proof. unfold same_rest, same_threads. intuition. Qed.

Lemma timer_cancel_core s F h :
  core s F -> exists s', timer_cancel h s = Ret s' /\ core s' F /\ same_threads s s' /\
    next_generation s' = next_generation s.
Proof.
  intros Hc. unfold timer_cancel. destruct (valid_spec s F h Hc) as (v & -> & Hv & _). simpl.
  destruct v; [|by exists s]. destruct (Hv eq_refl) as (x & Ha & Hx & _ & Hh & _).
  destruct (cancel_core s F _ x Hc Ha Hx) as (s1 & -> & Hc1 & Hr1 & _ & _). simpl.
  destruct (delete_core s1 F _ Hc1) as (s2 & -> & Hc2 & Hr2 & _ & _).
  { intros HF. by apply (c_out _ _ Hc _ HF). }
  simpl. eexists. split; [done|]. split.
  - apply core_facades; [done|]. intros f Hf Hd.
    apply list_elem_of_lookup in Hf as [i [(<- & <- & _)|[_ Hi]]%list_lookup_insert_Some]; [done|].
    by eapply list_elem_of_lookup_2.
  - pose proof (same_rest_trans _ _ _ Hr1 Hr2) as [? ?]%same_rest_threads. done.
Qed.

Lemma timer_delay_core s F h neg sec usec :
  core s F -> exists s', timer_delay h neg sec usec s = Ret s' /\ core s' F /\ same_threads s s' /\
    next_generation s' = next_generation s.
Proof.
  intros Hc. unfold timer_delay. destruct (valid_spec s F h Hc) as (v & -> & Hv & _). simpl.
  destruct v; [|by exists s]. destruct (Hv eq_refl) as (x & Ha & Hx & _).
  unfold impl_delay, deref. rewrite Hx. simpl.
  destruct (set_timeout_core s F _ x (if neg then tv_sub (time x) (Timeval sec usec)
    else tv_add (time x) (Timeval sec usec)) Hc Ha Hx) as (s' & -> & Hc' & [? ?]%same_rest_threads).
  by exists s'.
Qed.

Lemma timer_reset_core s F h sec usec :
  core s F -> exists s', timer_reset h sec usec s = Ret s' /\ core s' F /\ same_threads s s' /\
    next_generation s' = next_generation s.
Proof.
  intros Hc. unfold timer_reset. destruct (valid_spec s F h Hc) as (v & -> & Hv & _). simpl.
  destruct v; [|by exists s]. destruct (Hv eq_refl) as (x & Ha & Hx & _). unfold impl_reset.
  destruct (set_timeout_core s F _ x (tv_add (clock s) (make_timeval sec usec)) Hc Ha Hx)
    as (s' & -> & Hc' & [? ?]%same_rest_threads).
  by exists s'.
Qed.

Lemma timer_get_time_core s F h : core s F -> exists v, timer_get_time h s = Ret v.
Proof.
  intros Hc. unfold timer_get_time. destruct (valid_spec s F h Hc) as (v & -> & Hv & _). simpl.
  destruct v; [|eauto]. destruct (Hv eq_refl) as (x & _ & Hx & _). unfold deref. rewrite Hx. simpl. eauto.
Qed.

(** [post] *)
Lemma post_core alloc s F cb d :
  (forall hp : gmap Z timer, hp !! alloc hp = None) -> core s F -> next_generation s + 1 < 2 ^ 32 ->
  core (tpost alloc cb d s) F /\ next_generation (tpost alloc cb d s) = next_generation s + 1.
Proof.
  intros Hal0 [Hq Hd Ho Hal Hf Hg Hap Hfa Hfi Hon Hor Hnn] Hn.
  assert (Hw : u32 (next_generation s + 1) = next_generation s + 1) by (unfold wrap; apply Z.mod_small; lia).
  split; [|done]. set (a := alloc (heap s)). pose proof (Hal0 (heap s)) as Hfresh. fold a in Hfresh.
  assert (Hna : a ∉ all_timers s). { intros H. destruct (proj2 (Hd a) (or_introl H)). congruence. }
  assert (HnF : a ∉ F). { intros H. destruct (proj2 (Hd a) (or_intror H)). congruence. }
  assert (Hnt : a ∉ timers s) by (intros ?; apply Hna, Hal; by left).
  assert (Hne : forall b y, heap s !! b = Some y -> b <> a) by (intros b y Hy ->; congruence).
  unfold tpost. rewrite Hw. fold a. split; simpl; try done.
  - by apply queue_ok_insert_out.
  - intros b. rewrite lookup_insert_is_Some', Hd. set_solver.
  - set_solver.
  - set_solver.
  - intros b y Hb [[<- <-]|[Hba Hy]]%lookup_insert_Some; simpl; [set_solver|].
    pose proof (Hf b y ltac:(set_solver) Hy). case_match; set_solver.
  - intros b y [[<- <-]|[Hba Hy]]%lookup_insert_Some; simpl; [lia|]. specialize (Hg b y Hy). lia.
  - intros b c y z [[<- <-]|[Hba Hy]]%lookup_insert_Some [[<- <-]|[Hca Hz]]%lookup_insert_Some; simpl; intros E.
    + done.
    + specialize (Hg c z Hz). lia.
    + specialize (Hg b y Hy). lia.
    + eauto.
  - intros f [Hf1| ->%list_elem_of_singleton]%elem_of_app Hd1.
    + destruct (Hfa f Hf1 Hd1) as [H1 H2]. split; simpl; [lia|].
      intros b y [[<- <-]|[Hba Hy]]%lookup_insert_Some; simpl; [lia|eauto].
    + split; simpl; [lia|]. intros b y [[<- <-]|[Hba Hy]]%lookup_insert_Some; simpl; [done|].
      specialize (Hg b y Hy). lia.
  - intros f Hf1. destruct (Hfi f Hf1) as [H1 H2 H3 H4 H5]. split; simpl; try done; [lia| |].
    + intros b y Hb [[<- <-]|[Hba Hy]]%lookup_insert_Some; simpl; [lia|]. apply (H4 b); [set_solver|done].
    + intros E b y Hb [[<- <-]|[Hba Hy]]%lookup_insert_Some; simpl; [done|]. eauto.
  - lia.
Qed.

(** [poll] fires the first timer. *)
Lemma fire_core body s F now th s' :
  core s F -> poll_round body now (tserial s) s = Ret (th, s') ->
  th = TDone /\ s' = s /\ (forall a x, a ∈ timers s -> heap s !! a = Some x -> tv_leb now (time x) = true) \/
  exists a p, (a ∉ F) /\ th = TCalling p (Some (a, now, tserial s)) /\ core s' ({[a]} ∪ F) /\
    tserial s' = tserial s /\ next_generation s' = next_generation s /\ tthreads s' = tthreads s /\
    trunning s' = trunning s.
Proof.
  intros Hc. destruct (Hc) as [Hq Hd Ho Hal Hf Hg Hap Hfa Hfi Hon Hor Hnn]. unfold poll_round.
  destruct (timers s) as [|a q] eqn:Eq; [intros [= <- <-]; left; set_solver|].
  destruct (proj1 (queue_ok_cons _ _ _) Hq) as ([x Hx] & Hlt & Hq'). rewrite Forall_forall in Hlt.
  unfold deref. rewrite Hx. simpl. destruct (tv_leb now (time x)) eqn:El.
  { intros [= <- <-]. left. split_and!; [done|done|]. intros b y [->|Hb]%elem_of_cons Hy; [by simplify_eq|].
    specialize (Hlt b Hb x y Hx Hy). clear -El Hlt. unfold klt, tv_leb in *.
    apply Z.leb_le in El. apply Z.leb_le.
    pose proof (timeval_compare_cases now (time x)). pose proof (timeval_compare_cases now (time y)) as [|[[? E]|]];
      [lia|lia|]. destruct H as [|[[? E]|]]; [lia|rewrite E in *; lia|lia]. }
  intros [= <- <-]. right.
  assert (Haa : a ∈ all_timers s) by (apply Hal; set_solver).
  assert (HaF : a ∉ F) by (intros ?; by apply (Ho a)).
  assert (Hnq : a ∉ q). { apply queue_ok_NoDup in Hq. by apply NoDup_cons in Hq as [? _]. }
  exists a, (body (func x)). split; [done|]. split; [done|]. split; [|done].
  split; simpl; try done.
  - intros b. rewrite Hd. destruct (decide (b = a)); set_solver.
  - set_solver.
  - intros b Hb. assert (b <> a).
    { intros ->. destruct Hb as [|Hb]; [done|]. pose proof (Hf a x Haa Hx). case_match; set_solver. }
    assert (b ∈ all_timers s) by (apply Hal; set_solver). set_solver.
  - intros b y Hb Hy. pose proof (Hf b y ltac:(set_solver) Hy). case_match; set_solver.
  - intros f H1 H2. apply (facade_ok_mono s); [simpl; eauto|simpl; lia|by apply Hfa].
  - intros f [Hf1| ->%list_elem_of_singleton]%elem_of_app.
    + apply (firing_ok_mono s); [| |simpl; lia|done|by apply Hfi]; simpl; intros b y Hb Hy; exists y.
      * by apply elem_of_difference in Hb as [? _].
      * rewrite Eq. split_and!; [by right|done|done|done].
    + split; simpl; try done; [by eapply Hg| |].
      * intros b y Hb Hy E. assert (b = a) by eauto. set_solver.
      * intros _ b y Hb Hy. by apply (Hlt b Hb).
  - rewrite fmap_app. apply NoDup_app. split_and!; [done| |apply NoDup_singleton].
    intros g (f & -> & Hf1)%list_elem_of_fmap. simpl. rewrite list_elem_of_singleton. intros E.
    by apply (fo_gone _ _ (Hfi f Hf1) a x).
  - clear -Hor Hfi Hx Eq. induction Hor as [|f l Hl IH Hfl]; simpl; [by repeat constructor|].
    constructor; [apply IH; set_solver|]. apply Forall_app. split; [done|]. apply Forall_singleton.
    simpl. intros E. apply (fo_before _ _ (Hfi f ltac:(set_solver)) E a x); [rewrite Eq; set_solver|done].
Qed.

(** ** Admission *)

Definition with_admitted (x : timer) : timer := Timer_impl (func x) (time x) true (generation x).

Lemma admit_all_spec l hp :
  NoDup l -> Forall (fun a => is_Some (hp !! a)) l ->
  exists hp', admit_all l hp = Ret hp' /\
    forall a, hp' !! a = if decide (a ∈ l) then with_admitted <$> hp !! a else hp !! a.
Proof.
  revert hp. induction l as [|a l IH]; intros hp Hn Hl; cbn [admit_all].
  { exists hp. split; [done|]. intros a. case_decide; [set_solver|done]. }
  apply NoDup_cons in Hn as [Hna Hn]. apply Forall_cons in Hl as [[x Hx] Hl].
  unfold admit_heap, deref. rewrite Hx. cbn [mbind res_bind].
  destruct (IH (<[a := with_admitted x]> hp) Hn) as (hp' & E & Hhp').
  { eapply Forall_impl; [exact Hl|]. intros b Hb. rewrite lookup_insert_is_Some'. auto. }
  unfold with_admitted in E. rewrite E. exists hp'. split; [done|]. intros b. rewrite Hhp'.
  destruct (decide (b = a)) as [->|Hne].
  - rewrite lookup_insert_eq, Hx. do 2 case_decide; try done; set_solver.
  - rewrite lookup_insert_ne by done. do 2 case_decide; try done; set_solver.
Qed.

Lemma insert_all_spec hp l q :
  gens_apart hp -> NoDup l -> Forall (fun a => is_Some (hp !! a)) l -> queue_ok hp q ->
  (forall a, a ∈ l -> a ∉ q) ->
  exists q', insert_all hp l q = Ret q' /\ queue_ok hp q' /\ forall a, a ∈ q' <-> a ∈ l \/ a ∈ q.
Proof.
  intros Hg. revert q. induction l as [|a l IH]; intros q Hn Hl Hq Hd; simpl.
  { exists q. split_and!; [done|done|set_solver]. }
  apply NoDup_cons in Hn as [Hna Hn]. apply Forall_cons in Hl as [[x Hx] Hl].
  unfold deref. rewrite Hx. simpl.
  destruct (set_insert_spec hp a x q Hg Hq Hx ltac:(set_solver)) as (q1 & -> & Hp & Hq1). simpl.
  assert (Hm : forall b, b ∈ q1 <-> b = a \/ b ∈ q) by (intros b; rewrite Hp; set_solver).
  destruct (IH q1 Hn Hl Hq1) as (q2 & -> & Hq2 & Hm2).
  { intros b Hb. rewrite Hm. intros [->|]; [done|]. by apply (Hd b); [right|]. }
  exists q2. split_and!; [done|done|]. intros b. rewrite Hm2, Hm. set_solver.
Qed.

(** [poll] admits the applicants. *)
Lemma begin_poll_core s F now :
  core s F -> tserial s + 1 < 2 ^ 32 ->
  exists s', tbegin_poll now s = Ret s' /\ core s' F /\ tserial s' = tserial s + 1 /\
    next_generation s' = next_generation s /\ tthreads s' = tthreads s /\ trunning s' = trunning s.
Proof.
  intros [Hq Hd Ho Hal Hf Hg Hap Hfa Hfi Hon Hor Hnn] Hs. unfold tbegin_poll.
  assert (Hw : u32 (tserial s + 1) = tserial s + 1) by (unfold wrap; apply Z.mod_small; lia).
  assert (Hlive : Forall (fun a => is_Some (heap s !! a)) (elements (applicants s))).
  { apply Forall_forall. intros a Ha%elem_of_elements. apply Hd. left. apply Hal. by right. }
  destruct (admit_all_spec _ _ (NoDup_elements (applicants s)) Hlive) as (hp & -> & Hhp). simpl.
  assert (Hb : forall a y, hp !! a = Some y -> exists x, heap s !! a = Some x /\ time y = time x /\
    generation y = generation x /\ (a ∈ applicants s /\ admitted y = true \/ (a ∉ applicants s) /\ y = x)).
  { intros a y. rewrite Hhp. case_decide as Ha; rewrite elem_of_elements in Ha; [|naive_solver].
    destruct (heap s !! a) as [x|]; simpl; [|done]. intros [= <-]. exists x. naive_solver. }
  assert (Hfw : forall a x, heap s !! a = Some x -> exists y, hp !! a = Some y /\ time y = time x /\
    generation y = generation x).
  { intros a x Hx. rewrite Hhp, Hx. case_decide; simpl; eauto. }
  assert (Hap' : gens_apart hp).
  { intros a b x y Hx Hy. destruct (Hb a x Hx) as (? & ? & _ & -> & _), (Hb b y Hy) as (? & ? & _ & -> & _). eauto. }
  destruct (insert_all_spec hp (elements (applicants s)) (timers s) Hap' (NoDup_elements _)) as (q & -> & Hq' & Hm).
  { eapply Forall_impl; [exact Hlive|]. intros a [x Hx]. destruct (Hfw a x Hx) as (y & -> & _). eauto. }
  { eapply queue_ok_ext; [|exact Hq]. intros a x _ Hx. eauto. }
  { intros a Ha%elem_of_elements Ht. destruct (proj2 (Hd a) (or_introl (Hal a (or_introl Ht)))) as [x Hx].
    pose proof (Hf a x (Hal a (or_introl Ht)) Hx). case_match; naive_solver. }
  simpl. eexists. split; [done|]. rewrite Hw. split_and!; try done.
  assert (Hm' : forall a, a ∈ q <-> a ∈ applicants s \/ a ∈ timers s) by (intros a; by rewrite Hm, elem_of_elements).
  split; simpl; try done.
  - intros a. rewrite <- Hd. split; intros [y Hy].
    + destruct (Hb a y Hy) as (x & -> & _). eauto.
    + destruct (Hfw a y Hy) as (x & -> & _). eauto.
  - intros a. rewrite Hm'. intros [[|]|]; [apply Hal; by right|apply Hal; by left|set_solver].
  - intros a y Ha Hy. destruct (Hb a y Hy) as (x & Hx & _ & _ & H). specialize (Hf a x Ha Hx).
    destruct H as [[Hin ->]|[Hout ->]]; [split; [apply Hm'; by left|set_solver]|].
    destruct (admitted x); [|naive_solver]. split; [apply Hm'; naive_solver|set_solver].
  - intros a y Hy. destruct (Hb a y Hy) as (x & Hx & _ & -> & _). eauto.
  - intros f H1 H2. apply (facade_ok_mono s); [|simpl; lia|by apply Hfa]. simpl. intros a y Hy.
    destruct (Hb a y Hy) as (x & Hx & _ & E & _). eauto.
  - intros f H1. destruct (Hfi f H1) as [F1 F2 F3 F4 F5]. split; simpl; [done|lia|done| |lia].
    intros a y Ha Hy. destruct (Hb a y Hy) as (x & Hx & _ & -> & _). eauto.
  - lia.
Qed.

(** ** The threads *)

Definition firing_of (th : tthread) : option Z :=
  match th with TCalling _ (Some (a, _, _)) => Some a | _ => None end.

(** The objects whose callbacks are running. *)
Definition detached (ts : list tthread) : gset Z := list_to_set (omap firing_of ts).

Lemma elem_of_detached ts a :
  a ∈ detached ts <-> exists t th, ts !! t = Some th /\ firing_of th = Some a.
Proof.
  unfold detached. rewrite elem_of_list_to_set, list_elem_of_omap. split.
  - intros (th & [t Ht]%list_elem_of_lookup & Ha). eauto.
  - intros (t & th & Ht & Ha). exists th. split; [by eapply list_elem_of_lookup_2|done].
Qed.

Record tinv (s : tsys) : Prop := {
  ti_core : core s (detached (tthreads s));
  ti_sole : forall t1 t2 th1 th2 a, tthreads s !! t1 = Some th1 -> tthreads s !! t2 = Some th2 ->
    firing_of th1 = Some a -> firing_of th2 = Some a -> t1 = t2;
  ti_poll : forall t now n, tthreads s !! t = Some (TPolling now n) -> trunning s = Some t /\ n = tserial s
}.

(** How a step changes the set of running callbacks. *)
Inductive fire_step (s' : tsys) (F : gset Z) (th th' : tthread) : Prop :=
| fire_kept : core s' F -> firing_of th' = firing_of th -> fire_step s' F th th'
| fire_new a : core s' ({[a]} ∪ F) -> a ∉ F -> firing_of th = None -> firing_of th' = Some a -> fire_step s' F th th'
| fire_end a : core s' (F ∖ {[a]}) -> firing_of th = Some a -> firing_of th' = None -> fire_step s' F th th'.

Record tstep_ok (s s' : tsys) (th th' : tthread) (on : bool) : Prop := {
  to_fire : fire_step s' (detached (tthreads s)) th th';
  to_gens : next_generation s <= next_generation s' <= next_generation s + 1;
  to_serial : tserial s' = tserial s;
  to_threads : tthreads s' = tthreads s;
  to_polls : forall now n, th' = TPolling now n -> on = true /\ n = tserial s
}.

Lemma core_threads s F ts r : core s F -> core (with_tthreads ts r s) F.
Proof.
  intros [Hq Hd Ho Hal Hf Hg Hap Hfa Hfi Hon Hor Hnn]. split; simpl; try done.
  - intros f H1 H2. apply (facade_ok_mono s); [simpl; eauto|simpl; lia|auto].
  - intros f H1. apply (firing_ok_mono s); [simpl; eauto|simpl; eauto 6|simpl; lia|done|auto].
Qed.

Lemma tinit_ok t0 : tinv (tinit t0).
Proof.
  assert (Hnone : forall a x, (∅ : gmap Z timer) !! a = Some x -> False) by (intros a x; by rewrite lookup_empty).
  split; simpl; [|done|done]. split; simpl; try (by constructor); try set_solver; try (intros; exfalso; by eauto).
  - by repeat constructor.
  - intros a. split; [intros [x Hx]; exfalso; eauto|set_solver].
  - intros a b x y Hx. exfalso. eauto.
Qed.

Section machine.
Context (alloc : gmap Z timer -> Z) (body : Z -> tprog).
Hypothesis alloc_fresh : forall hp, hp !! alloc hp = None.

Lemma after_call_ok s t p c :
  tinv s -> tthreads s !! t = Some (TCalling p c) ->
  exists th' s', after_call c s = Ret (th', s') /\ tstep_ok s s' (TCalling p c) th' true.
Proof.
  intros Hi Ht. destruct c as [[[a now] n]|]; simpl.
  - assert (Ha : a ∈ detached (tthreads s)) by (apply elem_of_detached; eauto).
    destruct (delete_core s (detached (tthreads s) ∖ {[a]}) a) as (s' & -> & Hc & Hr & _).
    { replace ({[a]} ∪ detached (tthreads s) ∖ {[a]}) with (detached (tthreads s)); [apply Hi|].
      apply set_eq. intros b. destruct (decide (b = a)); set_solver. }
    { set_solver. }
    destruct Hr as (Hs & Hg & _ & _ & Hts & _ & _). simpl.
    assert (Hfe : forall th', firing_of th' = None ->
      fire_step s' (detached (tthreads s)) (TCalling p (Some (a, now, n))) th').
    { intros th' Hth. by apply (fire_end _ _ _ _ a). }
    destruct (Z.eqb_spec n (tserial s')); simpl; eexists _, _; (split; [done|]).
    + split; [by apply Hfe|lia|done|done|]. intros ? ? [= <- <-]. by rewrite <- Hs.
    + split; [by apply Hfe|lia|done|done|done].
  - eexists _, _. split; [done|]. split; [|lia|done|done|done]. apply fire_kept; [apply Hi|done].
Qed.

(** Any step of a thread of a good state is good. *)
Lemma tstep_good s t th :
  tinv s -> tthreads s !! t = Some th -> next_generation s + 1 < 2 ^ 32 ->
  exists th' on s', tstep alloc body th s = Ret (th', on, s') /\ tstep_ok s s' th th' on.
Proof using alloc_fresh.
  intros Hi Ht Hn. pose proof (ti_core _ Hi) as Hc.
  assert (Hclient : forall s' p p' c on, core s' (detached (tthreads s)) -> same_threads s s' ->
    next_generation s <= next_generation s' <= next_generation s + 1 ->
    tstep_ok s s' (TCalling p c) (TCalling p' c) on).
  { intros s' p p' c on Hc' (E1 & E2 & _) Hg. split; try done. by apply fire_kept. }
  destruct th as [now n|p c|]; simpl.
  - destruct (ti_poll _ Hi t now n Ht) as [_ ->].
    destruct (poll_round body now (tserial s) s) as [[th' s']| | |] eqn:E.
    + simpl. eexists _, _, _. split; [done|].
      destruct (fire_core body s _ now th' s' Hc E) as [(-> & -> & _)|(a & p & Ha & -> & Hc' & E1 & E2 & E3 & _)].
      * split; [by apply fire_kept|lia|done|done|done].
      * split; [by apply (fire_new _ _ _ _ a)|lia|done|done|done].
    + exfalso. unfold poll_round in E. destruct (timers s) as [|a q]; [done|].
      unfold deref in E. destruct (heap s !! a); simpl in E; by repeat case_match.
    + exfalso. unfold poll_round in E. destruct (timers s) as [|a q] eqn:Eq; [done|].
      destruct (core_member s _ a Hc) as [x Hx]; [apply (c_all _ _ Hc); left; rewrite Eq; by left|].
      unfold deref in E. rewrite Hx in E. simpl in E. by case_match.
    + exfalso. unfold poll_round in E. destruct (timers s) as [|a q]; [done|].
      unfold deref in E. destruct (heap s !! a); simpl in E; by repeat case_match.
  - destruct p as [| |cb d k|h k|h k|h neg sec usec k|h sec usec k|h k|k].
    1,2: destruct (after_call_ok s t _ c Hi Ht) as (th' & s' & -> & Hok); simpl; eauto 7.
    + eexists _, _, _. split; [done|]. destruct (post_core alloc s _ cb d alloc_fresh Hc Hn) as [Hc' Hg].
      apply Hclient; [done|done|lia].
    + eexists _, _, _. split; [done|]. apply Hclient; [|done|simpl; lia]. apply core_facades; [done|].
      intros f [Hf| ->%list_elem_of_singleton]%elem_of_app; [done|]. unfold facade_of.
      destruct (facades s !! h) as [f|] eqn:E; [|done]. intros _. by eapply list_elem_of_lookup_2.
    + destruct (timer_cancel_core s _ h Hc) as (s' & -> & Hc' & Hs & Hg). simpl.
      eexists _, _, _. split; [done|]. apply Hclient; [done|done|lia].
    + destruct (timer_delay_core s _ h neg sec usec Hc) as (s' & -> & Hc' & Hs & Hg). simpl.
      eexists _, _, _. split; [done|]. apply Hclient; [done|done|lia].
    + destruct (timer_reset_core s _ h sec usec Hc) as (s' & -> & Hc' & Hs & Hg). simpl.
      eexists _, _, _. split; [done|]. apply Hclient; [done|done|lia].
    + destruct (timer_get_time_core s _ h Hc) as (v & ->). simpl.
      eexists _, _, _. split; [done|]. apply Hclient; [done|done|lia].
    + eexists _, _, _. split; [done|]. apply Hclient; [done|done|lia].
  - eexists _, _, _. split; [done|]. split; [by apply fire_kept|lia|done|done|done].
Qed.

(** The set of running callbacks after a thread is replaced. *)
Lemma fire_step_core s s' t th th' :
  tinv s -> tthreads s !! t = Some th -> fire_step s' (detached (tthreads s)) th th' ->
  core s' (detached (<[t := th']> (tthreads s))).
Proof.
  intros Hi Ht Hf. pose proof (ti_sole _ Hi) as Hsole.
  assert (Hnew : forall a, a ∈ detached (<[t := th']> (tthreads s)) <->
    firing_of th' = Some a \/ a ∈ detached (tthreads s) /\ firing_of th <> Some a).
  { intros a. rewrite !elem_of_detached. split.
    - intros (t0 & th0 & [(<- & <- & _)|[Hne H0]]%list_lookup_insert_Some & Ha); [by left|right].
      split; [eauto|]. intros Hth. by eapply Hne, (Hsole t t0).
    - intros [Ha|[(t0 & th0 & H0 & Ha) Hne]].
      + exists t, th'. split; [|done]. apply list_lookup_insert_eq. by eapply lookup_lt_Some.
      + exists t0, th0. split; [|done]. rewrite list_lookup_insert_ne; [done|]. intros ->. congruence. }
  assert (Hold : forall a, firing_of th = Some a -> a ∈ detached (tthreads s)) by (intros; apply elem_of_detached; eauto).
  destruct Hf as [Hc E|a Hc Ha E1 E2|a Hc E1 E2].
  - replace (detached (<[t := th']> (tthreads s))) with (detached (tthreads s)); [done|].
    apply set_eq. intros a. rewrite Hnew, E. destruct (decide (firing_of th = Some a)); naive_solver.
  - replace (detached (<[t := th']> (tthreads s))) with ({[a]} ∪ detached (tthreads s)); [done|].
    apply set_eq. intros b. rewrite Hnew, E1, E2. set_solver.
  - replace (detached (<[t := th']> (tthreads s))) with (detached (tthreads s) ∖ {[a]}); [done|].
    apply set_eq. intros b. rewrite Hnew, E1, E2. set_solver.
Qed.

Lemma tinstall_ok s s' t th th' on :
  tinv s -> trunning s = Some t -> tthreads s !! t = Some th -> tstep_ok s s' th th' on ->
  tinv (with_tthreads (<[t := th']> (tthreads s')) (if (on : bool) then Some t else None) s').
Proof.
  intros Hi Hrun Ht [Hf Hg Hs Hts Hp]. rewrite Hts. split; simpl.
  - by apply core_threads, (fire_step_core s s' t th th').
  - assert (Hback : forall t0 th0 a, <[t := th']> (tthreads s) !! t0 = Some th0 -> firing_of th0 = Some a ->
      (exists th1, tthreads s !! t0 = Some th1 /\ firing_of th1 = Some a) \/ t0 = t /\ a ∉ detached (tthreads s)).
    { intros t0 th0 a [(<- & <- & _)|[_ H0]]%list_lookup_insert_Some Ha; [|eauto].
      destruct Hf as [_ E|b _ Hb _ E|b _ _ E]; [left; exists th; split; congruence| |congruence].
      right. split; [done|]. congruence. }
    intros t1 t2 th1 th2 a H1 H2 E1 E2.
    destruct (Hback _ _ _ H1 E1) as [(x & Hx & Ex)|[-> Hna]], (Hback _ _ _ H2 E2) as [(y & Hy & Ey)|[-> Hnb]].
    + by eapply (ti_sole _ Hi).
    + destruct Hnb. apply elem_of_detached. eauto.
    + destruct Hna. apply elem_of_detached. eauto.
    + done.
  - intros t0 now n [(<- & -> & _)|[Hne H0]]%list_lookup_insert_Some.
    + destruct (Hp now n eq_refl) as [-> ->]. by rewrite Hs.
    + destruct (ti_poll _ Hi t0 now n H0). congruence.
Qed.

(** A new thread, in client code or in [poll]. *)
Lemma tstart_ok s s' th :
  tinv s -> trunning s = None -> core s' (detached (tthreads s)) -> tthreads s' = tthreads s ->
  firing_of th = None -> (forall now n, th = TPolling now n -> n = tserial s') ->
  tinv (with_tthreads (tthreads s' ++ [th]) (Some (length (tthreads s'))) s').
Proof.
  intros Hi Hr Hc Ets Hth Hn. rewrite Ets.
  assert (Hlook : forall t th0, (tthreads s ++ [th]) !! t = Some th0 ->
    tthreads s !! t = Some th0 \/ t = length (tthreads s) /\ th0 = th).
  { intros t th0 [H|[Hl H]]%lookup_app_Some; [by left|right].
    apply list_lookup_singleton_Some in H as [? <-]. split; [lia|done]. }
  split; simpl.
  - apply core_threads. replace (detached (tthreads s ++ [th])) with (detached (tthreads s)); [done|].
    unfold detached. rewrite omap_app. simpl. rewrite Hth. by rewrite app_nil_r.
  - intros t1 t2 th1 th2 a [H1|[-> ->]]%Hlook [H2|[-> ->]]%Hlook E1 E2; try congruence. by eapply (ti_sole _ Hi).
  - intros t now n [H|[-> <-]]%Hlook; [destruct (ti_poll _ Hi t now n H); congruence|]. split; [done|by eapply Hn].
Qed.

(** No action aborts, and each keeps the invariant; [k] bounds the counters. *)
Lemma tact_ok a s k :
  tinv s -> next_generation s <= k -> tserial s <= k -> k + 1 < 2 ^ 32 ->
  exists s', tact alloc body a s = Ret s' /\ tinv s' /\ next_generation s' <= k + 1 /\ tserial s' <= k + 1.
Proof using alloc_fresh.
  intros Hi Hg Hs Hk. unfold tact. destruct (trunning s) as [t|] eqn:Er.
  - destruct a; try (exists s; split_and!; [done|done|lia|lia]).
    destruct (tthreads s !! t) as [th|] eqn:Et; [|exists s; split_and!; [done|done|lia|lia]].
    destruct (tstep_good s t th Hi Et ltac:(lia)) as (th' & on & s' & -> & Hok). simpl. eexists. split; [done|].
    split; [by eapply (tinstall_ok s)|]. destruct Hok as [_ Hg' Hs' _ _]. simpl. lia.
  - destruct a as [|t|now|p]; simpl.
    + exists s. split_and!; [done|done|lia|lia].
    + destruct (Nat.ltb t (length (tthreads s))); [|exists s; split_and!; [done|done|lia|lia]].
      eexists. split; [done|]. split; [|simpl; lia]. split; simpl; [apply core_threads, Hi|apply Hi|].
      intros t0 now n H0. destruct (ti_poll _ Hi t0 now n H0). congruence.
    + destruct (begin_poll_core s _ now (ti_core _ Hi) ltac:(lia)) as (s' & -> & Hc & Es & Eg & Et & Er').
      simpl. eexists. split; [done|]. split; [|simpl; lia].
      apply (tstart_ok s); try done. by intros ? ? [= _ <-].
    + eexists. split; [done|]. split; [|simpl; lia]. apply (tstart_ok s); try done. apply Hi.
Qed.

Lemma tacts_ok l s k :
  tinv s -> next_generation s <= k -> tserial s <= k -> k + Z.of_nat (length l) < 2 ^ 32 ->
  exists s', tacts alloc body l s = Ret s' /\ tinv s'.
Proof using alloc_fresh.
  revert s k. induction l as [|a l IH]; intros s k Hi Hg Hs Hk; [by exists s|]. simpl in Hk.
  destruct (tact_ok a s k Hi Hg Hs ltac:(lia)) as (s' & E & Hi' & Hg' & Hs'). simpl. rewrite E.
  apply (IH s' (k + 1)); [done|done|done|lia].
Qed.

End machine.
