(* ===== verification/TimerProps.v ===== *)
(** * Timers: what clients rely on

    Theorems over every schedule, every callback program and every allocator
    of [TimerDispatcher]: no object is used after it was deleted, deleted
    twice or leaked; facades that outlived their timer do nothing, even when
    its address was allocated again; and [poll] fires each timer at most once,
    when it is due, in order. *)

From S2P Require Import Prelude Bytes Timeval TimerDispatcher TimerFacts.

Open Scope Z_scope.

(** An allocator that returns the address above the highest in use, so that
    the last object's address is used again after it is deleted. *)
Definition top_alloc (hp : gmap Z timer) : Z :=
  foldr (fun kv m => Z.max (kv.1 + 1) m) 1 (map_to_list hp).

Lemma top_alloc_fresh hp : hp !! top_alloc hp = None.
Proof.
  destruct (hp !! top_alloc hp) as [x|] eqn:E; [|done]. exfalso.
  apply elem_of_map_to_list in E. unfold top_alloc in E. revert E. generalize (map_to_list hp) as l.
  assert (H : forall (l : list (Z * timer)) kv, kv ∈ l -> kv.1 < foldr (fun kv m => Z.max (kv.1 + 1) m) 1 l).
  { induction l as [|kv' l IH]; intros kv Hin; [set_solver|]. simpl.
    apply elem_of_cons in Hin as [->|Hin]; [lia|]. specialize (IH kv Hin). lia. }
  intros l Hin. specialize (H l _ Hin). simpl in H. lia.
Qed.

(** Callback 1 posts another timer, resets facade 2 and blocks; 2 cancels
    facade 1, its own; others return. *)
Definition sample_callbacks (f : Z) : tprog :=
  if f =? 1 then TPost 3 (Timeval 0 5) (TReset 2 100 0 (TBlock TReturn))
  else if f =? 2 then TCancel 1 TThrow
  else TReturn.

Definition sample_schedule : list taction :=
  AClient (TPost 1 (Timeval 1 0) (TPost 2 (Timeval 0 10) (TPost 2 (Timeval 2 0) TReturn))) ::
  replicate 6 AStep ++ APoll (Timeval 10 0) :: replicate 12 AStep ++
  APoll (Timeval 11 0) :: replicate 12 AStep ++ AResume 1 :: replicate 5 AStep.

(** C15: whatever callbacks and clients do and however polls are interleaved,
    no timer object is used after [delete] or deleted twice; the objects alive
    are exactly the timers in the two sets, which are disjoint, and those
    whose callback is running. *)
Theorem timers_memory_safe (alloc : gmap Z timer -> Z) (body : Z -> tprog) (t0 : timeval) (l : list taction)
    (Halloc : forall hp, hp !! alloc hp = None) (Hl : Z.of_nat (length l) < 2 ^ 32) :
  exists s, tacts alloc body l (tinit t0) = Ret s /\
    (forall a, is_Some (heap s !! a) <->
       a ∈ all_timers s \/ exists t p now n, tthreads s !! t = Some (TCalling p (Some (a, now, n)))) /\
    (forall a, a ∈ all_timers s <-> a ∈ timers s \/ a ∈ applicants s) /\
    (forall a, a ∈ timers s -> a ∉ applicants s) /\ NoDup (timers s).
Proof.
  destruct (tacts_ok alloc body Halloc l (tinit t0) 0 (tinit_ok t0)) as (s & E & Hi); [simpl; lia..|].
  exists s. split; [done|]. pose proof (ti_core _ Hi) as Hc. split_and!.
  - intros a. rewrite (c_dom _ _ Hc), elem_of_detached. apply or_iff_compat_l. split.
    + intros (t & th & Ht & Ha). destruct th as [| p [[[b now] n]|] |]; simplify_eq/=. eauto.
    + intros (t & p & now & n & Ht). eauto.
  - intros a. split; [|apply (c_all _ _ Hc)]. intros Ha. destruct (core_member s _ a Hc Ha) as [x Hx].
    pose proof (c_flag _ _ Hc a x Ha Hx). case_match; naive_solver.
  - intros a Ha. assert (Hall : a ∈ all_timers s) by (apply (c_all _ _ Hc); by left).
    destruct (core_member s _ a Hc Hall) as [x Hx].
    pose proof (c_flag _ _ Hc a x Hall Hx). case_match; naive_solver.
  - eapply queue_ok_NoDup, Hc.
Qed.

Lemma timers_memory_safe_witness :
  Z.of_nat (length sample_schedule) < 2 ^ 32 /\
  exists s, tacts top_alloc sample_callbacks sample_schedule (tinit (Timeval 0 0)) = Ret s /\
    forall a, is_Some (heap s !! a) <->
       a ∈ all_timers s \/ exists t p now n, tthreads s !! t = Some (TCalling p (Some (a, now, n))).
Proof.
  split; [done|].
  destruct (timers_memory_safe top_alloc sample_callbacks (Timeval 0 0) sample_schedule top_alloc_fresh
    ltac:(done)) as (s & E & H & _). exists s. split; [exact E|exact H].
Defined.

(** C16: a timer fires at most once, and only at a [poll] whose time is past
    the timer's; within one [poll] timers fire in increasing order of time,
    those of equal time as they were posted; and when a [poll] ends its loop,
    no timer that was active is overdue. *)
Theorem timers_fire_in_order (alloc : gmap Z timer -> Z) (body : Z -> tprog) (t0 : timeval) (l : list taction)
    (s : tsys) (Halloc : forall hp, hp !! alloc hp = None) (Hl : Z.of_nat (length l) < 2 ^ 32)
    (Hrun : tacts alloc body l (tinit t0) = Ret s) :
  NoDup (f_generation <$> fired s) /\
  (forall f, f ∈ fired s -> tv_leb (f_now f) (f_time f) = false) /\
  StronglySorted (fun f g => f_serial f = f_serial g ->
    tv_ltb (f_time f) (f_time g) = true \/ f_time f = f_time g /\ f_generation f < f_generation g) (fired s) /\
  (forall t now n s', tthreads s !! t = Some (TPolling now n) -> poll_round body now n s = Ret (TDone, s') ->
     forall a x, a ∈ timers s' -> heap s' !! a = Some x -> tv_leb now (time x) = true).
Proof.
  destruct (tacts_ok alloc body Halloc l (tinit t0) 0 (tinit_ok t0)) as (s' & E & Hi); [simpl; lia..|].
  rewrite Hrun in E. injection E as <-. pose proof (ti_core _ Hi) as Hc. split_and!.
  - apply Hc.
  - intros f Hf. apply (fo_due _ _ (c_fired _ _ Hc f Hf)).
  - pose proof (c_order _ _ Hc) as Ho. induction Ho as [|f fs Hs IH Hf]; [constructor|]. constructor; [done|].
    eapply Forall_impl; [exact Hf|]. intros g Hg Es. specialize (Hg Es). clear -Hg. unfold flt, klt in Hg.
    pose proof (timeval_compare_cases (f_time f) (f_time g)) as Hcmp. unfold tv_ltb. rewrite Z.ltb_lt.
    destruct Hcmp as [|[[? Et]|]]; [lia| |lia]. rewrite Et in Hg |- *. right. split; [done|lia].
  - intros t now n s' Ht Hp. destruct (ti_poll _ Hi t now n Ht) as [_ ->].
    destruct (fire_core body s _ now _ s' Hc Hp) as [(_ & -> & H)|(a & p & _ & ? & _)]; [exact H|done].
Qed.

Definition tstate_of (r : res tsys) : tsys := match r with Ret s => s | _ => tinit (Timeval 0 0) end.

Lemma timers_fire_in_order_witness :
  exists s, tacts top_alloc sample_callbacks sample_schedule (tinit (Timeval 0 0)) = Ret s /\
    (f_generation <$> fired s) = [2; 1; 4] /\ NoDup (f_generation <$> fired s) /\
    StronglySorted (fun f g => f_serial f = f_serial g ->
      tv_ltb (f_time f) (f_time g) = true \/ f_time f = f_time g /\ f_generation f < f_generation g) (fired s).
Proof.
  exists (tstate_of (tacts top_alloc sample_callbacks sample_schedule (tinit (Timeval 0 0)))).
  assert (E : tacts top_alloc sample_callbacks sample_schedule (tinit (Timeval 0 0)) =
    Ret (tstate_of (tacts top_alloc sample_callbacks sample_schedule (tinit (Timeval 0 0)))))
    by (vm_compute; reflexivity).
  pose proof (timers_fire_in_order top_alloc sample_callbacks (Timeval 0 0) sample_schedule _ top_alloc_fresh
    ltac:(done) E) as (H1 & _ & H3 & _).
  split_and!; [exact E|vm_compute; reflexivity|exact H1|exact H3].
Defined.

(** A facade whose timer has fired, or is gone for any other reason, does
    nothing, although its address may belong to another timer by now; a facade
    whose timer is still set acts on that timer's object. *)
Theorem stale_timer_inert (alloc : gmap Z timer -> Z) (body : Z -> tprog) (t0 : timeval) (l : list taction)
    (s : tsys) (h : nat) (f : facade) (Halloc : forall hp, hp !! alloc hp = None)
    (Hl : Z.of_nat (length l) < 2 ^ 32) (Hrun : tacts alloc body l (tinit t0) = Ret s)
    (Hf : facades s !! h = Some f) (Hd : dispatcher f = true) :
  (forall g, g ∈ fired s -> f_generation g = fgeneration f ->
     forall a x, a ∈ all_timers s -> heap s !! a = Some x -> generation x <> fgeneration f) /\
  ((forall a x, a ∈ all_timers s -> heap s !! a = Some x -> generation x <> fgeneration f) ->
     timer_cancel h s = Ret s /\ (forall neg sec usec, timer_delay h neg sec usec s = Ret s) /\
     (forall sec usec, timer_reset h sec usec s = Ret s) /\ timer_get_time h s = Ret (Timeval 0 0)) /\
  (forall a x, a ∈ all_timers s -> heap s !! a = Some x -> generation x = fgeneration f ->
     a = impl f /\ valid s f = Ret true).
Proof.
  destruct (tacts_ok alloc body Halloc l (tinit t0) 0 (tinit_ok t0)) as (s' & E & Hi); [simpl; lia..|].
  rewrite Hrun in E. injection E as <-. pose proof (ti_core _ Hi) as Hc.
  assert (Ef : facade_of s h = f) by (unfold facade_of; by rewrite Hf).
  destruct (valid_spec s _ h Hc) as (v & Ev & Hv & Hv'). rewrite Ef in *.
  split_and!.
  - intros g Hg Eg a x Ha Hx. rewrite <- Eg. by apply (fo_gone _ _ (c_fired _ _ Hc g Hg) a).
  - intros Hgone. assert (v = false) as ->.
    { destruct v; [|done]. destruct (Hv eq_refl) as (x & Ha & Hx & Eg & _). by destruct (Hgone _ _ Ha Hx). }
    unfold timer_cancel, timer_delay, timer_reset, timer_get_time. rewrite Ef, Ev. done.
  - intros a x Ha Hx Eg. split.
    + by apply (fa_addr _ _ (c_facades _ _ Hc f (list_elem_of_lookup_2 _ _ _ Hf) Hd) a x).
    + rewrite Ev. by rewrite (Hv' Hd a x Ha Hx Eg).
Qed.

(** The facade of a timer that fired; its address belongs to the next timer. *)
Definition reuse_schedule : list taction :=
  AClient (TPost 9 (Timeval 0 0) TReturn) :: replicate 4 AStep ++ APoll (Timeval 1 0) :: replicate 4 AStep ++
  AClient (TPost 9 (Timeval 5 0) TReturn) :: replicate 4 AStep.

Lemma stale_timer_inert_witness :
  exists s f, tacts top_alloc sample_callbacks reuse_schedule (tinit (Timeval 0 0)) = Ret s /\
    facades s !! 0%nat = Some f /\ (impl <$> facades s !! 1%nat) = Some (impl f) /\ impl f ∈ all_timers s /\
    (exists g, g ∈ fired s /\ f_generation g = fgeneration f) /\ timer_cancel 0 s = Ret s.
Proof.
  exists (tstate_of (tacts top_alloc sample_callbacks reuse_schedule (tinit (Timeval 0 0)))), (Timer true 1 1).
  assert (E : tacts top_alloc sample_callbacks reuse_schedule (tinit (Timeval 0 0)) =
    Ret (tstate_of (tacts top_alloc sample_callbacks reuse_schedule (tinit (Timeval 0 0)))))
    by (vm_compute; reflexivity).
  assert (Hf : facades (tstate_of (tacts top_alloc sample_callbacks reuse_schedule (tinit (Timeval 0 0))))
    !! 0%nat = Some (Timer true 1 1)) by (vm_compute; reflexivity).
  assert (Hg : Firing 1 (Timeval 0 0) (Timeval 1 0) 1 ∈
    fired (tstate_of (tacts top_alloc sample_callbacks reuse_schedule (tinit (Timeval 0 0)))))
    by (apply list_elem_of_In; vm_compute; tauto).
  destruct (stale_timer_inert top_alloc sample_callbacks (Timeval 0 0) reuse_schedule _ 0 (Timer true 1 1)
    top_alloc_fresh ltac:(done) E Hf eq_refl) as (H1 & H2 & _).
  split_and!; [exact E|exact Hf|vm_compute; reflexivity| |by eexists; split; [exact Hg|]|].
  - refine (bool_decide_unpack _ _); vm_compute; exact I.
  - apply H2. apply (H1 _ Hg). done.
Defined.

(** On times with their microseconds in range, [+] adds exactly, [-]
    subtracts down to zero, the comparisons are those of the total number of
    microseconds, the results are in range again, and no signed addition or
    subtraction overflows while the seconds are below 2^62. *)
Theorem timeval_arithmetic (x y : timeval) (Hx : 0 <= tv_usec x < 1000000) (Hy : 0 <= tv_usec y < 1000000) :
  (usecs (tv_add x y) = usecs x + usecs y /\ 0 <= tv_usec (tv_add x y) < 1000000) /\
  (usecs (tv_sub x y) = Z.max 0 (usecs x - usecs y) /\ 0 <= tv_usec (tv_sub x y) < 1000000) /\
  (tv_ltb x y = true <-> usecs x < usecs y) /\ (tv_leb x y = true <-> usecs x <= usecs y) /\
  (tv_eqb x y = true <-> usecs x = usecs y) /\
  (Z.abs (tv_sec x) < 2 ^ 62 -> Z.abs (tv_sec y) < 2 ^ 62 ->
     is_s64 (tv_sec x + tv_sec y) /\ is_s64 (tv_usec x + tv_usec y) /\ is_s64 (tv_sec (tv_add x y)) /\
     is_s64 (tv_sec x - tv_sec y - 1) /\ is_s64 (tv_sec (tv_sub x y))).
Proof.
  split_and!; try (by apply tv_add_spec); try (by apply tv_sub_spec); try (by apply tv_ltb_usecs);
    try (by apply tv_leb_usecs).
  - rewrite tv_eqb_eq. split; [by intros ->|]. intros E. unfold usecs in E. destruct x, y. simpl in *. f_equal; lia.
  - intros H1 H2. destruct (tv_add_range x y Hx Hy H1 H2) as (? & ? & ?).
    destruct (tv_sub_range x y Hx Hy H1 H2). done.
Qed.

Lemma timeval_arithmetic_witness :
  usecs (tv_add (Timeval 3 700000) (Timeval 1 600000)) = 5300000 /\
  (tv_ltb (Timeval 3 700000) (Timeval 1 600000) = true <-> usecs (Timeval 3 700000) < usecs (Timeval 1 600000)).
Proof.
  split; [reflexivity|]. apply (timeval_arithmetic (Timeval 3 700000) (Timeval 1 600000)); simpl; lia.
Defined.


