(* ===== verification/Routing.v ===== *)
(** * Routing (src/nox/netapps/routing/routing.cc)

    [Routing_module] keeps, for every pair of datapaths, one shortest route
    over the links that are up, and updates it incrementally on every
    [Link_event].  A route is kept when it is "local": when the routes obtained
    by dropping its first or its last link are stored as shortest.

    Routes are values here.  The C++ code shares them by pointer and, while it
    removes the extensions of a route, shortens that object and restores it;
    meanwhile it only looks up routes one link longer, and the entries keyed by
    the object itself have been erased, so that no lookup sees the difference.
    [get_cached_path] only replaces a pointer by one to an equal route.

    The containers do not say which of several equally short candidates
    [std::priority_queue] delivers first, nor in which order a hash table is
    traversed: these choices are a class, and the theorems hold for all its
    instances. *)

From S2P Require Import Prelude.

Open Scope Z_scope.

(** ** Data *)

Record link := Link { l_dst : Z; outport : Z; inport : Z }.
Record route := Route { r_src : Z; r_dst : Z; path : list link }.
Abbreviation route_id := (Z * Z)%type.
Definition rid (r : route) : route_id := (r_src r, r_dst r).

#[export] Instance link_eq_dec : EqDecision link.
Proof. solve_decision. Defined.
#[export] Instance link_countable : Countable link.
Proof.
  apply (inj_countable' (fun l => (l_dst l, outport l, inport l)) (fun '(a, b, c) => Link a b c)).
  by intros [].
Defined.
#[export] Instance route_eq_dec : EqDecision route.
Proof. solve_decision. Defined.
#[export] Instance route_countable : Countable route.
Proof.
  apply (inj_countable' (fun r => (r_src r, r_dst r, path r)) (fun '(a, b, c) => Route a b c)).
  by intros [].
Defined.

(** [routeq] compares the ends and every link: it is equality. *)
Definition routeq (a b : route) : bool := bool_decide (a = b).

Abbreviation RouteMap := (gmap route_id route).
Abbreviation RoutesMap := (gmap route_id (list route)).
Abbreviation ExtensionMap := (gmap route (list route)).

Record routing := Routing {
  shortest : RouteMap;
  local_routes : RoutesMap;
  left_local : ExtensionMap;
  left_shortest : ExtensionMap;
  right_local : ExtensionMap;
  right_shortest : ExtensionMap
}.
Definition no_routes : routing := Routing ∅ ∅ ∅ ∅ ∅ ∅.

(** What the containers leave open: the top of the priority queue (and the
    queue without it), the first element of a hash set (and the set without
    it), and the order of a traversal. *)
Class Choices := {
  queue_top : list route -> option (route * list route);
  set_first : list route -> option (route * list route);
  traverse : RoutesMap -> list (list route)
}.

Definition len (r : route) : nat := length (path r).

Class ChoiceLaws `{Choices} := {
  queue_top_law q : match queue_top q with
    | Some (r, q') => q ≡ₚ r :: q' /\ forall x, x ∈ q -> (len r <= len x)%nat
    | None => q = []
    end;
  set_first_law q : match set_first q with Some (r, q') => q ≡ₚ r :: q' | None => q = [] end;
  traverse_law m : traverse m ≡ₚ (map_to_list m).*2
}.

(** ** Small operations *)

(** [set_subpath]: drops the last link, or the first one.  Routes given to it
    have links. *)
Definition init_route (r : route) : route :=
  let p := take (length (path r) - 1) (path r) in
  match last p with
  | None => Route (r_src r) (r_src r) p
  | Some l => Route (r_src r) (l_dst l) p
  end.
Definition tail_route (r : route) : route :=
  match path r with
  | [] => r
  | l :: p => Route (l_dst l) (r_dst r) p
  end.
Definition set_subpath (r : route) (left_ : bool) : route :=
  if left_ then init_route r else tail_route r.

(** [remove] on the three kinds of maps, with whether something was removed. *)
Definition remove_short (m : RouteMap) (r : route) : bool * RouteMap :=
  match m !! rid r with
  | Some r' => if routeq r r' then (true, delete (rid r) m) else (false, m)
  | None => (false, m)
  end.

(** The scan of a list for [routeq], erasing the first hit; an entry that
    becomes empty is erased. *)
Definition remove_at {K : Type} `{Countable K} (m : gmap K (list route)) (k : K) (r : route)
    : bool * gmap K (list route) :=
  match m !! k with
  | Some l =>
      if existsb (routeq r) l then
        let l' := remove_first (routeq r) l in
        (true, if is_nil l' then delete k m else <[k := l']> m)
      else (false, m)
  | None => (false, m)
  end.
Definition remove_local (m : RoutesMap) (r : route) : bool * RoutesMap := remove_at m (rid r) r.
Definition remove_ext (m : ExtensionMap) (r subpath : route) : bool * ExtensionMap := remove_at m subpath r.

(** [add] *)
Definition add_short (m : RouteMap) (r : route) : RouteMap := <[rid r := r]> m.

Fixpoint insert_by_size (r : route) (l : list route) : list route :=
  match l with
  | [] => [r]
  | x :: l' => if Nat.ltb (len r) (len x) then r :: l else x :: insert_by_size r l'
  end.
Definition add_local (m : RoutesMap) (r : route) : RoutesMap :=
  match m !! rid r with
  | None => <[rid r := [r]]> m
  | Some l => <[rid r := insert_by_size r l]> m
  end.
Definition add_ext (m : ExtensionMap) (r subpath : route) : ExtensionMap :=
  match m !! subpath with
  | None => <[subpath := [r]]> m
  | Some l => <[subpath := l ++ [r]]> m
  end.

(** ** Cleaning up *)

(** [clean_route]: removes [r], an extension of a route that is being cleaned
    and of which [subpath] is the rest without its last link, or without its
    first; the entry of [r] on the side it was found is gone already. *)
Definition clean_route (r subpath : route) (cleaned_left : bool) (s : routing) : routing :=
  let '(was_local, lo) := remove_local (local_routes s) r in
  if was_local : bool then
    let '(is_short, sh) := remove_short (shortest s) r in
    if cleaned_left then
      let sub := Route (r_src r) (r_dst subpath) (option_list (head (path r)) ++ path subpath) in
      let rl := snd (remove_ext (right_local s) r sub) in
      let rs := if is_short : bool then snd (remove_ext (right_shortest s) r sub) else right_shortest s in
      Routing sh lo (left_local s) (left_shortest s) rl rs
    else
      let newlink := last (path r) in
      let sub := Route (r_src subpath) (default (r_dst subpath) (l_dst <$> newlink))
                   (path subpath ++ option_list newlink) in
      let ll := snd (remove_ext (left_local s) r sub) in
      let ls := if is_short : bool then snd (remove_ext (left_shortest s) r sub) else left_shortest s in
      Routing sh lo ll ls (right_local s) (right_shortest s)
  else s.

(** [RouteSet::insert] *)
Definition set_insert (r : route) (l : list route) : list route :=
  if existsb (routeq r) l then l else l ++ [r].

(** [clean_subpath]: the loop over the extensions. *)
Fixpoint clean_extensions (subpath : route) (extensions to_clean : list route) (is_left : bool) (s : routing)
    : list route * routing :=
  match extensions with
  | [] => (to_clean, s)
  | r :: rest =>
      clean_extensions subpath rest (set_insert r to_clean) is_left (clean_route r subpath is_left s)
  end.
Definition clean_subpath (subpath : route) (extensions to_clean : list route) (is_left : bool) (s : routing)
    : list route * routing :=
  clean_extensions (set_subpath subpath is_left) extensions to_clean is_left s.

(** One turn of the loop of [cleanup] *)
Definition clean_turn (subpath : route) (to_clean : list route) (s : routing) : list route * routing :=
  let '(lefts, s) :=
    match left_local s !! subpath with
    | Some l => (l, Routing (shortest s) (local_routes s) (delete subpath (left_local s))
                      (delete subpath (left_shortest s)) (right_local s) (right_shortest s))
    | None => ([], s)
    end in
  let '(rights, s) :=
    match right_local s !! subpath with
    | Some l => (l, Routing (shortest s) (local_routes s) (left_local s) (left_shortest s)
                      (delete subpath (right_local s)) (delete subpath (right_shortest s)))
    | None => ([], s)
    end in
  let '(to_clean, s) := clean_subpath subpath lefts to_clean true s in
  clean_subpath subpath rights to_clean false s.

Section choices.
Context `{Choices}.

Fixpoint clean_loop (fuel : nat) (subpath : route) (to_clean : list route) (s : routing) : res routing :=
  match fuel with
  | O => NoFuel
  | S fuel =>
      let '(to_clean, s) := clean_turn subpath to_clean s in
      match set_first to_clean with
      | None => Ret s
      | Some (subpath, to_clean) => clean_loop fuel subpath to_clean s
      end
  end.

(** [cleanup] up to its loop *)
Definition clean_start (r : route) (delete_route : bool) (s : routing) : routing :=
  let '(is_short, sh) := remove_short (shortest s) r in
  let lo := if delete_route then snd (remove_local (local_routes s) r) else local_routes s in
  let sub := set_subpath r true in
  let rl := if delete_route then snd (remove_ext (right_local s) r sub) else right_local s in
  let rs := if is_short : bool then snd (remove_ext (right_shortest s) r sub) else right_shortest s in
  let sub := set_subpath r false in
  let ll := if delete_route then snd (remove_ext (left_local s) r sub) else left_local s in
  let ls := if is_short : bool then snd (remove_ext (left_shortest s) r sub) else left_shortest s in
  Routing sh lo ll ls rl rs.

Definition cleanup (fuel : nat) (r : route) (delete_route : bool) (s : routing) : res routing :=
  clean_loop fuel r [] (clean_start r delete_route s).

(** ** Finding new routes *)

(** [add_local_routes], the loops over the left and the right extensions *)
Definition extend_left (r e : route) : route :=
  Route (r_src e) (r_dst r) (option_list (head (path e)) ++ path r).
Definition extend_right (r e : route) : route :=
  Route (r_src r) (r_dst e) (path r ++ option_list (last (path e))).

Fixpoint add_lefts (r : route) (es : list route) (q : list route) (s : routing) : list route * routing :=
  match es with
  | [] => (q, s)
  | e :: es =>
      let n := extend_left r e in
      add_lefts r es (q ++ [n])
        (Routing (shortest s) (add_local (local_routes s) n) (add_ext (left_local s) n r) (left_shortest s)
           (add_ext (right_local s) n e) (right_shortest s))
  end.
Fixpoint add_rights (r : route) (es : list route) (q : list route) (s : routing) : list route * routing :=
  match es with
  | [] => (q, s)
  | e :: es =>
      let n := extend_right r e in
      add_rights r es (q ++ [n])
        (Routing (shortest s) (add_local (local_routes s) n) (add_ext (left_local s) n e) (left_shortest s)
           (add_ext (right_local s) n r) (right_shortest s))
  end.
Definition add_local_routes (r left_subpath right_subpath : route) (q : list route) (s : routing)
    : list route * routing :=
  let '(q, s) := add_lefts r (default [] (left_shortest s !! left_subpath)) q s in
  add_rights r (default [] (right_shortest s !! right_subpath)) q s.

(** The part of a turn of [fixup] that stores [r] as shortest *)
Definition accept (r : route) (q : list route) (s : routing) : list route * routing :=
  let left_subpath := set_subpath r true in
  let right_subpath := set_subpath r false in
  let s := Routing (add_short (shortest s) r) (local_routes s) (left_local s)
             (add_ext (left_shortest s) r right_subpath) (right_local s)
             (add_ext (right_shortest s) r left_subpath) in
  add_local_routes r left_subpath right_subpath q s.

(** The loop of [fixup]; [fuel] also bounds the calls of [cleanup]. *)
Fixpoint fixup_loop (fuel : nat) (q : list route) (s : routing) : res routing :=
  match fuel with
  | O => NoFuel
  | S fuel' =>
      match queue_top q with
      | None => Ret s
      | Some (r, q) =>
          match shortest s !! rid r with
          | Some old =>
              if Nat.leb (len old) (len r) then fixup_loop fuel' q s
              else
                s ← cleanup fuel old false s;
                let '(q, s) := accept r q s in fixup_loop fuel' q s
          | None =>
              if r_src r =? r_dst r then fixup_loop fuel' q s
              else let '(q, s) := accept r q s in fixup_loop fuel' q s
          end
      end
  end.

(** [fixup]: with [add_least] the first route of every entry is a candidate. *)
Definition fixup (fuel : nat) (q : list route) (add_least : bool) (s : routing) : res routing :=
  let least := if add_least then omap head (traverse (local_routes s)) else [] in
  fixup_loop fuel (q ++ least) s.

(** ** The handler and the queries *)

Inductive link_action := ADD | REMOVE.
Record link_event := Link_event { dpsrc : Z; dpdst : Z; sport : Z; dport : Z; action : link_action }.

Definition event_link (e : link_event) : link := Link (dpdst e) (sport e) (dport e).
Definition event_route (e : link_event) : route := Route (dpsrc e) (dpdst e) [event_link e].

(** [handle_link_change] *)
Definition handle_link_change (fuel : nat) (e : link_event) (s : routing) : res routing :=
  let r := event_route e in
  match action e with
  | REMOVE => s ← cleanup fuel r true s; fixup fuel [] true s
  | ADD =>
      let left_subpath := Route (dpsrc e) (dpsrc e) [] in
      let right_subpath := Route (dpdst e) (dpdst e) [] in
      let s := Routing (shortest s) (add_local (local_routes s) r)
                 (add_ext (left_local s) r right_subpath) (left_shortest s)
                 (add_ext (right_local s) r left_subpath) (right_shortest s) in
      fixup fuel [r] false s
  end.

Fixpoint handle_links (fuel : nat) (es : list link_event) (s : routing) : res routing :=
  match es with
  | [] => Ret s
  | e :: es => s ← handle_link_change fuel e s; handle_links fuel es s
  end.
End choices.

(** [get_route] *)
Definition get_route (id : route_id) (s : routing) : option route :=
  match shortest s !! id with
  | None => if fst id =? snd id then Some (Route (fst id) (snd id) []) else None
  | Some r => Some r
  end.

(** [check_route] *)
Definition check_route (r : route) (inp outp : Z) : bool :=
  match head (path r), last (path r) with
  | Some f, Some b => negb (inp =? outport f) && negb (outp =? inport b)
  | _, _ => negb (inp =? outp)
  end.

(** [is_on_path_location] *)
Definition is_on_path_location (id : route_id) (src_port dst_port : Z) (s : routing) : bool :=
  negb (fst id =? snd id) &&
  match get_route id s with
  | Some r =>
      match head (path r), last (path r) with
      | Some f, Some b => negb (outport f =? src_port) && (inport b =? dst_port)
      | _, _ => false
      end
  | None => false
  end.

(** One way the containers may behave: the oldest of the shortest candidates
    first, elements in the order they were inserted. *)
Fixpoint first_shortest (q : list route) : option route :=
  match q with
  | [] => None
  | r :: q =>
      match first_shortest q with
      | Some x => Some (if Nat.leb (len r) (len x) then r else x)
      | None => Some r
      end
  end.

Definition fifo : Choices := {|
  queue_top q := match first_shortest q with Some r => Some (r, remove_first (routeq r) q) | None => None end;
  set_first q := match q with [] => None | r :: q => Some (r, q) end;
  traverse m := (map_to_list m).*2
|}.
