(* ===== verification/RoutingFacts.v ===== *)
(** * Routing: the maps as sets of routes

    The six maps of [Routing] represent two sets of routes, the local ones and
    the shortest ones, indexed in several ways.  Each operation is related to
    its effect on the sets; the invariant [good] is over the sets. *)

From S2P Require Import Prelude Routing.

Open Scope Z_scope.

(** ** Indexes *)

Section indexes.
Context {K : Type} `{Countable K}.
Implicit Types (m : gmap K (list route)) (X : gset route).

Abbreviation entries m k := (default [] (m !! k)).

(** [m] files the routes of [X] under [key], each once. *)
Record reps m (key : route -> K) X : Prop := {
  rp_nodup : forall k, NoDup (entries m k);
  rp_mem : forall k r, r ∈ entries m k <-> r ∈ X /\ key r = k;
  rp_full : forall k, m !! k <> Some []
}.

Lemma existsb_routeq r l : existsb (routeq r) l = true <-> r ∈ l.
Proof.
  rewrite existsb_exists. split.
  - intros (x & Hx & E). apply bool_decide_eq_true in E. subst. by apply list_elem_of_In.
  - intros Hr. exists r. split; [by apply list_elem_of_In|]. by apply bool_decide_eq_true.
Qed.

Lemma remove_first_routeq r l :
  NoDup l -> NoDup (remove_first (routeq r) l) /\ forall x, x ∈ remove_first (routeq r) l <-> x ∈ l /\ x <> r.
Proof.
  induction l as [|y l IH]; intros Hn; simpl; [split; [done|set_solver]|].
  apply NoDup_cons in Hn as [Hy Hn]. destruct (IH Hn) as [IH1 IH2].
  unfold routeq at 1 3. case_bool_decide as E.
  - subst y. split; [done|]. set_solver.
  - split; [constructor; [rewrite IH2; set_solver|done]|]. intros x. rewrite !elem_of_cons, IH2.
    destruct (decide (x = y)); naive_solver.
Qed.

Lemma entries_insert m k l k' : entries (<[k := l]> m) k' = if decide (k = k') then l else entries m k'.
Proof. case_decide; [subst; by rewrite lookup_insert_eq|by rewrite lookup_insert_ne]. Qed.

Lemma entries_delete m k k' : entries (delete k m) k' = if decide (k = k') then [] else entries m k'.
Proof. case_decide; [subst; by rewrite lookup_delete_eq|by rewrite lookup_delete_ne]. Qed.

(** A map that differs at one key only. *)
Lemma reps_at m m' key X Y k :
  reps m key X -> (forall k', k' <> k -> m' !! k' = m !! k') -> m' !! k <> Some [] ->
  NoDup (entries m' k) -> (forall r, r ∈ entries m' k <-> r ∈ Y /\ key r = k) ->
  (forall r, key r <> k -> r ∈ Y <-> r ∈ X) -> reps m' key Y.
Proof.
  intros [Hn Hm Hf] Hother Hnil Hnd Hk HXY. split.
  - intros k'. destruct (decide (k' = k)) as [->|]; [done|]. rewrite Hother by done. apply Hn.
  - intros k' r. destruct (decide (k' = k)) as [->|]; [apply Hk|]. rewrite Hother by done. rewrite Hm.
    split; intros [? <-]; (split; [|done]); by apply HXY.
  - intros k'. destruct (decide (k' = k)) as [->|]; [done|]. rewrite Hother by done. apply Hf.
Qed.

Lemma remove_at_spec m key X r :
  reps m key X ->
  exists b, remove_at m (key r) r = (b, snd (remove_at m (key r) r)) /\ (b = true <-> r ∈ X) /\
    reps (snd (remove_at m (key r) r)) key (X ∖ {[r]}).
Proof.
  intros Hr. destruct (Hr) as [Hn Hm Hf]. pose proof (Hm (key r) r) as Hin. specialize (Hn (key r)).
  unfold remove_at. destruct (m !! key r) as [l|] eqn:E; simpl in *.
  - destruct (existsb (routeq r) l) eqn:Ex; simpl.
    + exists true. apply existsb_routeq in Ex. destruct (remove_first_routeq r l Hn) as [Hn' Hm'].
      split; [done|]. split; [split; [naive_solver|done]|].
      apply (reps_at m _ key X _ (key r)); [done| | | | |set_solver].
      * intros k' Hk. case_match; [by rewrite lookup_delete_ne|by rewrite lookup_insert_ne].
      * destruct (remove_first (routeq r) l); simpl; [by rewrite lookup_delete_eq|by rewrite lookup_insert_eq].
      * destruct (remove_first (routeq r) l) eqn:El; simpl.
        { rewrite lookup_delete_eq. constructor. }
        { by rewrite lookup_insert_eq. }
      * intros x. pose proof (Hm (key r) x) as Hx. rewrite E in Hx. simpl in Hx. specialize (Hm' x).
        destruct (remove_first (routeq r) l) eqn:El; simpl; rewrite ?lookup_delete_eq, ?lookup_insert_eq; simpl;
          set_solver.
    + exists false. split; [done|]. apply not_true_iff_false in Ex. rewrite existsb_routeq in Ex.
      assert (r ∉ X) by naive_solver. split; [naive_solver|].
      replace (X ∖ {[r]}) with X; [done|]. apply set_eq. intros x. set_solver.
  - exists false. assert (r ∉ X) by (intros ?; apply not_elem_of_nil with r; naive_solver).
    split; [done|]. split; [naive_solver|].
    replace (X ∖ {[r]}) with X; [done|]. apply set_eq. intros x. set_solver.
Qed.

Lemma delete_spec m key X k :
  reps m key X -> reps (delete k m) key (filter (fun r => key r <> k) X).
Proof.
  intros Hr. apply (reps_at m _ key X _ k); [done| | | | |].
  - intros k' Hk. by rewrite lookup_delete_ne.
  - by rewrite lookup_delete_eq.
  - rewrite lookup_delete_eq. constructor.
  - intros r. rewrite lookup_delete_eq. simpl. rewrite elem_of_filter. set_solver.
  - intros r Hk. rewrite elem_of_filter. naive_solver.
Qed.

(** Adding a route to its entry, wherever in the list. *)
Lemma add_entry_spec m key X r l :
  reps m key X -> r ∉ X -> l ≡ₚ r :: entries m (key r) -> reps (<[key r := l]> m) key (X ∪ {[r]}).
Proof.
  intros Hr Hn Hl. destruct (Hr) as [Hnd Hm Hf].
  apply (reps_at m _ key X _ (key r)); [done| | | | |].
  - intros k' Hk. by rewrite lookup_insert_ne.
  - rewrite lookup_insert_eq. intros [= ->]. by apply Permutation_nil_cons in Hl.
  - rewrite lookup_insert_eq. simpl. rewrite Hl. constructor; [|apply Hnd]. rewrite Hm. naive_solver.
  - intros x. rewrite lookup_insert_eq. simpl. rewrite Hl, elem_of_cons, Hm. set_solver.
  - intros x Hk. set_solver.
Qed.
End indexes.

Abbreviation entries m k := (default [] (m !! k)).

Lemma add_ext_spec m key X r : reps m key X -> r ∉ X -> reps (add_ext m r (key r)) key (X ∪ {[r]}).
Proof.
  intros Hr Hn. unfold add_ext. destruct (m !! key r) as [l|] eqn:E; apply add_entry_spec; try done; rewrite E; simpl.
  - symmetry. apply Permutation_cons_append.
  - done.
Qed.

Lemma insert_by_size_perm r l : insert_by_size r l ≡ₚ r :: l.
Proof.
  induction l as [|x l IH]; simpl; [done|]. case_match; [done|]. rewrite IH. constructor.
Qed.

Lemma add_local_spec m X r : reps m rid X -> r ∉ X -> reps (add_local m r) rid (X ∪ {[r]}).
Proof.
  intros Hr Hn. unfold add_local. destruct (m !! rid r) as [l|] eqn:E; apply add_entry_spec; try done; rewrite E; simpl.
  - apply insert_by_size_perm.
  - done.
Qed.

(** ** The map of shortest routes *)

Record reps_short (m : RouteMap) (S : gset route) : Prop := {
  rs_mem : forall r, r ∈ S <-> m !! rid r = Some r;
  rs_key : forall id r, m !! id = Some r -> rid r = id
}.

Lemma remove_short_spec m S r :
  reps_short m S ->
  exists b, remove_short m r = (b, snd (remove_short m r)) /\ (b = true <-> r ∈ S) /\
    reps_short (snd (remove_short m r)) (S ∖ {[r]}).
Proof.
  intros [Hm Hk]. unfold remove_short. pose proof (Hm r) as Hr.
  assert (Hno : r ∉ S -> reps_short m (S ∖ {[r]})).
  { intros Hn. split; [|done]. intros x. rewrite <- Hm. set_solver. }
  destruct (m !! rid r) as [r'|] eqn:E; [|exists false; split; [done|]; split; [|apply Hno]; naive_solver].
  unfold routeq. case_bool_decide as Er; [|exists false; split; [done|]; split; [|apply Hno]; naive_solver].
  subst r'. exists true. split; [done|]. split; [naive_solver|]. split; simpl.
  - intros x. destruct (decide (x = r)) as [->|Hx].
    + rewrite lookup_delete_eq. set_solver.
    + destruct (decide (rid x = rid r)) as [Ex|Ex].
      * rewrite Ex, lookup_delete_eq. rewrite elem_of_difference, Hm, Ex, E. split; [|done]. intros [[= ->] _]. done.
      * rewrite lookup_delete_ne by done. rewrite <- Hm. set_solver.
  - intros id x [_ Hx]%lookup_delete_Some. auto.
Qed.

Lemma add_short_spec m S r :
  reps_short m S -> m !! rid r = None -> reps_short (add_short m r) (S ∪ {[r]}).
Proof.
  intros [Hm Hk] Hn. unfold add_short. split.
  - intros x. destruct (decide (rid x = rid r)) as [Ex|Ex].
    + rewrite Ex, lookup_insert_eq. rewrite elem_of_union, elem_of_singleton, Hm, Ex, Hn. naive_solver.
    + rewrite lookup_insert_ne by done. rewrite elem_of_union, elem_of_singleton, <- Hm. naive_solver.
  - intros id x [[<- <-]|[_ Hx]]%lookup_insert_Some; auto.
Qed.

(** ** A state and its sets *)

Record rep6 (s : routing) (S L LL LS RL RS : gset route) : Prop := {
  r_short : reps_short (shortest s) S;
  r_local : reps (local_routes s) rid L;
  r_ll : reps (left_local s) tail_route LL;
  r_ls : reps (left_shortest s) tail_route LS;
  r_rl : reps (right_local s) init_route RL;
  r_rs : reps (right_shortest s) init_route RS
}.

(** [s] represents the local routes [L] and the shortest routes [S]. *)
Definition rep (s : routing) (L S : gset route) : Prop := rep6 s S L L S L S.

(** ** Walks *)

Abbreviation links := (gset (Z * link)).

(** Where a path from [a] ends. *)
Definition endpoint (a : Z) (p : list link) : Z := default a (l_dst <$> last p).

(** [p] follows links of [U] from [a] to [b]. *)
Fixpoint walk (U : links) (a : Z) (p : list link) (b : Z) : Prop :=
  match p with
  | [] => a = b
  | l :: p => (a, l) ∈ U /\ walk U (l_dst l) p b
  end.

Definition walks (U : links) (r : route) : Prop := path r <> [] /\ walk U (r_src r) (path r) (r_dst r).

Lemma endpoint_cons a l p : endpoint a (l :: p) = endpoint (l_dst l) p.
Proof. unfold endpoint. rewrite last_cons. by destruct (last p). Qed.

Lemma endpoint_snoc a l p : endpoint a (p ++ [l]) = l_dst l.
Proof. unfold endpoint. by rewrite last_snoc. Qed.

Lemma walk_endpoint U a p b : walk U a p b -> b = endpoint a p.
Proof.
  revert a. induction p as [|l p IH]; intros a; simpl; [by intros ->|]. intros [_ H].
  rewrite endpoint_cons. auto.
Qed.

Lemma walk_app U a p q b : walk U a (p ++ q) b <-> walk U a p (endpoint a p) /\ walk U (endpoint a p) q b.
Proof.
  revert a. induction p as [|l p IH]; intros a; simpl; [naive_solver|].
  rewrite IH, endpoint_cons. tauto.
Qed.

Lemma walk_mono U V a p b : U ⊆ V -> walk U a p b -> walk V a p b.
Proof. intros HUV. revert a. induction p as [|l p IH]; intros a; simpl; [done|]. set_solver. Qed.

Lemma walks_mono U V r : U ⊆ V -> walks U r -> walks V r.
Proof. intros HUV [Hn Hw]. split; [done|by eapply walk_mono]. Qed.

(** Routes as a first link and a rest, or a last link and a rest. *)
Lemma init_route_snoc a b p l : init_route (Route a b (p ++ [l])) = Route a (endpoint a p) p.
Proof.
  unfold init_route, endpoint. simpl. rewrite length_app. simpl.
  replace (length p + 1 - 1)%nat with (length p) by lia. rewrite take_app_length. by destruct (last p).
Qed.

Lemma route_snoc r : path r <> [] -> exists a b p l, r = Route a b (p ++ [l]).
Proof.
  destruct r as [a b p]; simpl. destruct p as [|l p] using rev_ind; [done|]. eauto.
Qed.

Lemma walks_tail U r : walks U r -> (2 <= len r)%nat -> walks U (tail_route r).
Proof.
  destruct r as [a b [|l [|l' p]]]; unfold len; simpl; try lia. intros [_ [H1 H2]] _. split; [done|]. exact H2.
Qed.

Lemma walks_init U r : walks U r -> (2 <= len r)%nat -> walks U (init_route r).
Proof.
  intros [Hn Hw] Hl. destruct (route_snoc r Hn) as (a & b & p & l & ->).
  rewrite init_route_snoc. unfold len in Hl. simpl in *. rewrite length_app in Hl. simpl in Hl.
  apply walk_app in Hw as [Hw _]. split; [|done]. simpl. by destruct p; [simpl in Hl; lia|].
Qed.

Lemma len_tail r : path r <> [] -> len r = S (len (tail_route r)).
Proof. destruct r as [a b [|l p]]; [done|]. done. Qed.

Lemma len_init r : path r <> [] -> len r = S (len (init_route r)).
Proof.
  intros Hn. destruct (route_snoc r Hn) as (a & b & p & l & ->). rewrite init_route_snoc. unfold len. simpl.
  rewrite length_app. simpl. lia.
Qed.

(** The keys that [clean_route] builds by extending the shortened subpath. *)
Lemma left_key r p :
  path r <> [] -> tail_route r = p -> path p <> [] ->
  Route (r_src r) (r_dst (init_route p)) (option_list (head (path r)) ++ path (init_route p)) = init_route r.
Proof.
  intros Hr <- Hp. destruct r as [a b [|l q]]; [done|]. cbn [tail_route path r_src r_dst] in *.
  destruct q as [|l' q _] using rev_ind; [done|]. rewrite init_route_snoc.
  rewrite (app_comm_cons q [l'] l), init_route_snoc. cbn [path r_dst head option_list app].
  by rewrite endpoint_cons.
Qed.

Lemma right_key U r p :
  walks U r -> init_route r = p -> path p <> [] ->
  Route (r_src (tail_route p)) (default (r_dst (tail_route p)) (l_dst <$> last (path r)))
    (path (tail_route p) ++ option_list (last (path r))) = tail_route r.
Proof.
  intros [Hr Hw] <- Hp. apply walk_endpoint in Hw. destruct (route_snoc r Hr) as (a & b & q & l & ->).
  simpl in Hw. rewrite endpoint_snoc in Hw.
  rewrite init_route_snoc in Hp |- *. simpl in *. rewrite last_snoc. simpl.
  destruct q as [|l' q]; [done|]. simpl. by rewrite Hw.
Qed.

(** ** Cleaning *)

(** Keys of the maps under sets that are equal. *)
Lemma rep6_ext s S L LL LS RL RS S' L' LL' LS' RL' RS' :
  rep6 s S L LL LS RL RS -> S' = S -> L' = L -> LL' = LL -> LS' = LS -> RL' = RL -> RS' = RS ->
  rep6 s S' L' LL' LS' RL' RS'.
Proof. by intros ? -> -> -> -> -> ->. Qed.

Ltac set_eq := apply set_eq; intros; set_solver.

Lemma clean_route_left U s S L LL LS RL RS r p :
  rep6 s S L LL LS RL RS -> S ⊆ L -> RL ⊆ L -> RS ⊆ S -> walks U r -> tail_route r = p -> path p <> [] ->
  rep6 (clean_route r (init_route p) true s)
    (S ∖ {[r]}) (L ∖ {[r]}) LL LS (RL ∖ {[r]}) (RS ∖ {[r]}).
Proof.
  intros [H1 H2 H3 H4 H5 H6] HSL HRL HRS [Hr _] Hp Hpp. unfold clean_route, remove_local, remove_ext.
  destruct (remove_at_spec _ _ _ r H2) as (b & -> & Hb & H2'). destruct b.
  - destruct (remove_short_spec _ _ r H1) as (c & -> & Hc & H1'). cbn [snd].
    rewrite (left_key r p) by done.
    destruct (remove_at_spec _ _ _ r H5) as (b5 & E5 & _ & H5').
    destruct (remove_at_spec _ _ _ r H6) as (b6 & E6 & _ & H6').
    destruct c; [by split|]. split; try done.
    replace (RS ∖ {[r]}) with RS; [done|]. assert (r ∉ S) by naive_solver. set_eq.
  - assert (r ∉ L) by naive_solver. eapply rep6_ext; [by split| | | | | |]; set_eq.
Qed.

Lemma clean_route_right U s S L LL LS RL RS r p :
  rep6 s S L LL LS RL RS -> S ⊆ L -> LL ⊆ L -> LS ⊆ S -> walks U r -> init_route r = p -> path p <> [] ->
  rep6 (clean_route r (tail_route p) false s)
    (S ∖ {[r]}) (L ∖ {[r]}) (LL ∖ {[r]}) (LS ∖ {[r]}) RL RS.
Proof.
  intros [H1 H2 H3 H4 H5 H6] HSL HLL HLS Hr Hp Hpp. unfold clean_route, remove_local, remove_ext.
  destruct (remove_at_spec _ _ _ r H2) as (b & -> & Hb & H2'). destruct b.
  - destruct (remove_short_spec _ _ r H1) as (c & -> & Hc & H1'). cbn [snd].
    rewrite (right_key U r p) by done.
    destruct (remove_at_spec _ _ _ r H3) as (b3 & E3 & _ & H3').
    destruct (remove_at_spec _ _ _ r H4) as (b4 & E4 & _ & H4').
    destruct c; [by split|]. split; try done.
    replace (LS ∖ {[r]}) with LS; [done|]. assert (r ∉ S) by naive_solver. set_eq.
  - assert (r ∉ L) by naive_solver. eapply rep6_ext; [by split| | | | | |]; set_eq.
Qed.

Lemma route_set_insert_spec r l :
  NoDup l -> NoDup (set_insert r l) /\ forall x, x ∈ set_insert r l <-> x ∈ l \/ x = r.
Proof.
  intros Hn. unfold set_insert. destruct (existsb (routeq r) l) eqn:E.
  - apply existsb_routeq in E. split; [done|]. set_solver.
  - apply not_true_iff_false in E. rewrite existsb_routeq in E. split; [|set_solver].
    apply NoDup_app. split_and!; [done|set_solver|apply NoDup_singleton].
Qed.

(** The loops of [clean_subpath]; [E] are the extensions. *)
Lemma clean_lefts U p es : forall s S L LL LS RL RS todo,
  rep6 s S L LL LS RL RS -> S ⊆ L -> RL ⊆ L -> RS ⊆ S -> path p <> [] -> NoDup todo ->
  (forall r, r ∈ es -> walks U r /\ tail_route r = p) ->
  exists todo' s', clean_extensions (init_route p) es todo true s = (todo', s') /\
    NoDup todo' /\ (forall x, x ∈ todo' <-> x ∈ todo \/ x ∈ es) /\
    rep6 s' (S ∖ list_to_set es) (L ∖ list_to_set es) LL LS (RL ∖ list_to_set es) (RS ∖ list_to_set es).
Proof.
  induction es as [|r es IH]; intros s S L LL LS RL RS todo Hr HSL HRL HRS Hp Hn Hes; simpl.
  - exists todo, s. split_and!; [done|done|set_solver|]. eapply rep6_ext; [done| | | | | |]; clear; set_eq.
  - destruct (Hes r ltac:(set_solver)) as [Hw Ht]. destruct (route_set_insert_spec r todo Hn) as [Hn' Hm'].
    destruct (IH (clean_route r (init_route p) true s) (S ∖ {[r]}) (L ∖ {[r]}) LL LS (RL ∖ {[r]}) (RS ∖ {[r]})
      (set_insert r todo)) as (todo' & s' & -> & Hn2 & Hm2 & Hr2);
      [by apply (clean_route_left U)|by apply difference_mono_r..|done|done|by intros; apply Hes; right|].
    exists todo', s'. split_and!; [done|done| |].
    + intros x. rewrite Hm2, Hm', elem_of_cons. tauto.
    + eapply rep6_ext; [exact Hr2| | | | | |]; clear; set_eq.
Qed.

Lemma clean_rights U p es : forall s S L LL LS RL RS todo,
  rep6 s S L LL LS RL RS -> S ⊆ L -> LL ⊆ L -> LS ⊆ S -> path p <> [] -> NoDup todo ->
  (forall r, r ∈ es -> walks U r /\ init_route r = p) ->
  exists todo' s', clean_extensions (tail_route p) es todo false s = (todo', s') /\
    NoDup todo' /\ (forall x, x ∈ todo' <-> x ∈ todo \/ x ∈ es) /\
    rep6 s' (S ∖ list_to_set es) (L ∖ list_to_set es) (LL ∖ list_to_set es) (LS ∖ list_to_set es) RL RS.
Proof.
  induction es as [|r es IH]; intros s S L LL LS RL RS todo Hr HSL HLL HLS Hp Hn Hes; simpl.
  - exists todo, s. split_and!; [done|done|set_solver|]. eapply rep6_ext; [done| | | | | |]; clear; set_eq.
  - destruct (Hes r ltac:(set_solver)) as [Hw Ht]. destruct (route_set_insert_spec r todo Hn) as [Hn' Hm'].
    destruct (IH (clean_route r (tail_route p) false s) (S ∖ {[r]}) (L ∖ {[r]}) (LL ∖ {[r]}) (LS ∖ {[r]}) RL RS
      (set_insert r todo)) as (todo' & s' & -> & Hn2 & Hm2 & Hr2);
      [by apply (clean_route_right U)|by apply difference_mono_r..|done|done|by intros; apply Hes; right|].
    exists todo', s'. split_and!; [done|done| |].
    + intros x. rewrite Hm2, Hm', elem_of_cons. tauto.
    + eapply rep6_ext; [exact Hr2| | | | | |]; clear; set_eq.
Qed.

(** The direct extensions of [p] in [L]. *)
Definition extensions (p : route) (L : gset route) : gset route :=
  filter (fun e => tail_route e = p \/ init_route e = p) L.

(** Erasing an entry, and the entry of the shortest ones with it. *)
Lemma erase_entries (m ms : ExtensionMap) key (p : route) (L S : gset route) :
  reps m key L -> reps ms key S -> S ⊆ L ->
  let es := entries m p in
  let m' := match m !! p with Some _ => delete p m | None => m end in
  let ms' := match m !! p with Some _ => delete p ms | None => ms end in
  reps m' key (L ∖ list_to_set es) /\ reps ms' key (S ∖ list_to_set es) /\
  NoDup es /\ forall r, r ∈ es <-> r ∈ L /\ key r = p.
Proof.
  intros Hm Hms HSL. simpl. pose proof (rp_mem _ _ _ Hm p) as Hmem. pose proof (rp_nodup _ _ _ Hm p) as Hnd.
  split_and!; [| |done|done].
  - replace (L ∖ list_to_set (entries m p)) with (filter (fun r => key r <> p) L).
    + destruct (m !! p) eqn:E; [by apply delete_spec|].
      replace (filter (fun r => key r <> p) L) with L; [done|]. apply set_eq. intros r. rewrite elem_of_filter.
      specialize (Hmem r). simpl in Hmem. set_solver.
    + apply set_eq. intros r. rewrite elem_of_filter, elem_of_difference, elem_of_list_to_set, Hmem. naive_solver.
  - replace (S ∖ list_to_set (entries m p)) with (filter (fun r => key r <> p) S).
    + destruct (m !! p) eqn:E; [by apply delete_spec|].
      replace (filter (fun r => key r <> p) S) with S; [done|]. apply set_eq. intros r. rewrite elem_of_filter.
      specialize (Hmem r). simpl in Hmem. set_solver.
    + apply set_eq. intros r. rewrite elem_of_filter, elem_of_difference, elem_of_list_to_set, Hmem. 
      split; [naive_solver|]. intros [Hr Hn]. split; [|done]. intros E. apply Hn. split; [by apply HSL|done].
Qed.

Lemma clean_turn_spec U s L S p todo :
  rep s L S -> S ⊆ L -> (forall r, r ∈ L -> walks U r) -> path p <> [] -> NoDup todo ->
  exists todo' s', clean_turn p todo s = (todo', s') /\ NoDup todo' /\
    (forall x, x ∈ todo' <-> x ∈ todo \/ x ∈ extensions p L) /\
    rep s' (L ∖ extensions p L) (S ∖ extensions p L).
Proof.
  intros [H1 H2 H3 H4 H5 H6] HSL Hw Hp Hn. unfold clean_turn.
  destruct (erase_entries _ _ _ p L S H3 H4 HSL) as (E3 & E4 & Hnl & Hml).
  destruct (erase_entries _ _ _ p L S H5 H6 HSL) as (E5 & E6 & Hnr & Hmr).
  set (lefts := entries (left_local s) p) in *. set (rights := entries (right_local s) p) in *.
  set (s1 := Routing (shortest s) (local_routes s)
    match left_local s !! p with Some _ => delete p (left_local s) | None => left_local s end
    match left_local s !! p with Some _ => delete p (left_shortest s) | None => left_shortest s end
    match right_local s !! p with Some _ => delete p (right_local s) | None => right_local s end
    match right_local s !! p with Some _ => delete p (right_shortest s) | None => right_shortest s end).
  assert (Hs1 : rep6 s1 S L (L ∖ list_to_set lefts) (S ∖ list_to_set lefts)
    (L ∖ list_to_set rights) (S ∖ list_to_set rights)) by (by split).
  destruct (clean_lefts U p lefts s1 _ _ _ _ _ _ todo Hs1) as (todo1 & s2 & C1 & Hn1 & Hm1 & Hr1);
    [done|apply subseteq_difference_l; done..|done|done| |].
  { intros r [Hr Ht]%Hml. auto. }
  destruct (clean_rights U p rights s2 _ _ _ _ _ _ todo1 Hr1) as (todo2 & s3 & C2 & Hn2 & Hm2 & Hr2);
    [by apply difference_mono_r|by apply difference_mono_r..|done|done| |].
  { intros r [Hr Ht]%Hmr. auto. }
  assert (Hext : forall x, x ∈ extensions p L <-> x ∈ lefts \/ x ∈ rights).
  { intros x. unfold extensions. rewrite elem_of_filter, Hml, Hmr. tauto. }
  exists todo2, s3. split_and!.
  - clear -C1 C2. unfold clean_subpath, set_subpath. subst s1 lefts rights. destruct s as [a b ll ls rl rs].
    cbn -[clean_extensions init_route tail_route] in *.
    destruct (ll !! p); cbn -[clean_extensions init_route tail_route] in *;
      (destruct (rl !! p); cbn -[clean_extensions init_route tail_route] in *; by rewrite C1).
  - done.
  - intros x. rewrite Hm2, Hm1, Hext. tauto.
  - eapply rep6_ext; [exact Hr2| | | | | |]; apply set_eq; intros x; 
      rewrite ?elem_of_difference, ?elem_of_list_to_set, Hext; tauto.
Qed.
