(* ===== verification/RoutingProps.v ===== *)
(** * Routing: the invariant, the two phases of an update, and what the other
    applications rely on

    [cleanup] removes every route that extends the given one and [fixup] finds
    replacements; both terminate and keep [good]. *)

From S2P Require Import Prelude Routing RoutingFacts.

Open Scope Z_scope.

(** Over the links [U]: local routes follow links, shortest routes are local
    and do not return to their start, and what remains of a local route of two
    links or more when an end is cut off is a shortest route. *)
Record good (U : links) (L S : gset route) : Prop := {
  g_sub : S ⊆ L;
  g_walk : forall r, r ∈ L -> walks U r;
  g_loop : forall r, r ∈ S -> r_src r <> r_dst r;
  g_sub_routes : forall r, r ∈ L -> (2 <= len r)%nat -> tail_route r ∈ S /\ init_route r ∈ S
}.

Section choices.
Context `{ChoiceLaws}.

(** ** [cleanup] *)

(** [p'] is done: no local route extends it any more. *)
Definition unextended (L : gset route) (p : route) : Prop :=
  forall e, e ∈ L -> tail_route e <> p /\ init_route e <> p.

Lemma extensions_len U p L e :
  (forall r, r ∈ L -> walks U r) -> e ∈ extensions p L -> len e = S (len p).
Proof.
  intros Hw [Hp He]%elem_of_filter. destruct (Hw e He) as [Hn _].
  destruct Hp as [<-|<-]; [by apply len_tail|by apply len_init].
Qed.

Lemma clean_loop_spec U fuel : forall p todo s L S n,
  rep s L S -> S ⊆ L -> (forall r, r ∈ L -> walks U r) -> path p <> [] -> NoDup todo ->
  (forall x, x ∈ todo -> path x <> []) -> (n <= len p)%nat -> (forall x, x ∈ todo -> (n <= len x)%nat) ->
  (2 * size L + length todo < fuel)%nat ->
  exists s' L', clean_loop fuel p todo s = Ret s' /\ rep s' L' (S ∩ L') /\ L' ⊆ L /\
    unextended L' p /\ (forall x, x ∈ todo -> unextended L' x) /\
    (forall x, x ∈ L -> x ∉ L' -> unextended L' x /\ (n < len x)%nat).
Proof.
  induction fuel as [|fuel IH]; intros p todo s L S n Hr HSL Hw Hp Hn Htodo Hlp Hlt Hf; [lia|]. simpl.
  destruct (clean_turn_spec U s L S p todo Hr HSL Hw Hp Hn) as (todo' & s' & -> & Hn' & Hm' & Hr').
  set (X := extensions p L) in *.
  assert (HX : forall e, e ∈ X -> e ∈ L /\ path e <> [] /\ (n < len e)%nat).
  { intros e He. assert (e ∈ L) by (by apply elem_of_filter in He as [_ ?]). split; [done|].
    pose proof (extensions_len U p L e Hw He). split; [by destruct (Hw e); [done|]|lia]. }
  assert (Hpdone : unextended (L ∖ X) p).
  { intros e [He HeX]%elem_of_difference. unfold X, extensions in HeX. rewrite elem_of_filter in HeX. tauto. }
  assert (Hset : S ∖ X = S ∩ (L ∖ X)).
  { apply set_eq. intros e. rewrite elem_of_intersection, !elem_of_difference. split; [|tauto].
    intros [He1 He2]. split_and!; auto. }
  pose proof (set_first_law todo') as Hfirst. destruct (set_first todo') as [[p' todo2]|].
  - assert (Hm2 : forall x, x ∈ todo' <-> x = p' \/ x ∈ todo2) by (intros x; rewrite Hfirst; set_solver).
    assert (Hin' : forall x, x ∈ todo' -> path x <> [] /\ (n <= len x)%nat).
    { intros x [Hx|Hx]%Hm'; [auto|]. destruct (HX x Hx) as (_ & ? & ?). split; [done|lia]. }
    rewrite Hfirst in Hn'. apply NoDup_cons in Hn' as [Hp'n Hn2].
    destruct (IH p' todo2 s' (L ∖ X) (S ∖ X) n) as (s2 & L2 & -> & Hrep2 & HL2 & Hp2 & Ht2 & Hx2).
    + done.
    + by apply difference_mono_r.
    + intros r [Hr0 _]%elem_of_difference. auto.
    + apply Hin', Hm2. by left.
    + done.
    + intros x Hx. apply Hin', Hm2. by right.
    + apply Hin', Hm2. by left.
    + intros x Hx. apply Hin', Hm2. by right.
    + assert (Hsz : size L = (size (L ∖ X) + size X)%nat).
      { rewrite <- size_union by set_solver. f_equal. apply set_eq. intros e.
        rewrite elem_of_union, elem_of_difference. destruct (decide (e ∈ X)) as [He|He]; [|tauto].
        destruct (HX e He). tauto. }
      assert (length todo' <= length todo + size X)%nat.
      { rewrite <- (size_list_to_set (C:=gset route) todo') by (rewrite Hfirst; by constructor).
        rewrite <- (size_list_to_set (C:=gset route) todo) by done.
        etransitivity; [apply (subseteq_size _ (list_to_set todo ∪ X))|].
        - intros x. rewrite elem_of_union, !elem_of_list_to_set. by intros ?%Hm'.
        - rewrite size_union_alt. apply Nat.add_le_mono_l, subseteq_size. clear. set_solver. }
      apply Permutation_length in Hfirst. simpl in Hfirst. lia.
    + exists s2, L2. assert (HL2' : forall x, x ∈ L2 -> x ∈ L /\ x ∉ X) by set_solver.
      assert (Hdone : forall x, x ∈ todo' -> unextended L2 x).
      { intros x [->|Hx]%Hm2; [done|auto]. }
      split_and!; [done| |intros x Hx; by apply HL2'| | |].
      * replace (S ∩ L2) with ((S ∖ X) ∩ L2); [done|]. apply set_eq. intros e.
        rewrite !elem_of_intersection, elem_of_difference. split; [tauto|]. intros [? He].
        destruct (HL2' e He). tauto.
      * intros e He. apply Hpdone. destruct (HL2' e He). by apply elem_of_difference.
      * intros x Hx. apply Hdone, Hm'. by left.
      * intros x Hx Hx'. destruct (decide (x ∈ X)) as [HxX|HxX].
        { split; [apply Hdone, Hm'; by right|by apply HX]. }
        { apply Hx2; [by apply elem_of_difference|done]. }
  - exists s', (L ∖ X). subst todo'.
    assert (HX0 : forall x, (x ∉ todo) /\ (x ∉ X)) by (intros x; split; intros Hx; apply (not_elem_of_nil x), Hm'; auto).
    split_and!; [done|by rewrite <- Hset|set_solver|done| |].
    + intros x Hx. by destruct (HX0 x).
    + intros x Hx Hx'. destruct Hx'. apply elem_of_difference. split; [done|]. apply HX0.
Qed.

(** [cleanup] of [r]: local routes that extend it go, and it goes itself if
    asked; it is no longer shortest. *)
Lemma cleanup_spec U fuel r del s L S :
  rep s L S -> good U L S -> path r <> [] -> (2 * size L < fuel)%nat ->
  exists s' L' S', cleanup fuel r del s = Ret s' /\ rep s' L' S' /\ good U L' S' /\
    L' ⊆ L /\ S' ⊆ S /\ (r ∉ S') /\ (del = true -> r ∉ L') /\
    (forall e, e ∈ L -> e ∉ L' -> (len r < len e)%nat \/ del = true /\ e = r) /\
    (forall e, e ∈ S -> e <> r -> e ∈ L' -> e ∈ S').
Proof.
  intros [H1 H2 H3 H4 H5 H6] Hg Hp Hf. unfold cleanup, clean_start.
  destruct (remove_short_spec _ _ r H1) as (c & -> & Hc & H1'). cbn [snd set_subpath].
  set (L0 := if del then L ∖ {[r]} else L). set (S0 := S ∖ {[r]}).
  assert (Hrep0 : forall s0, s0 = Routing (snd (remove_short (shortest s) r))
      (if del then snd (remove_local (local_routes s) r) else local_routes s)
      (if del then snd (remove_ext (left_local s) r (tail_route r)) else left_local s)
      (if c then snd (remove_ext (left_shortest s) r (tail_route r)) else left_shortest s)
      (if del then snd (remove_ext (right_local s) r (init_route r)) else right_local s)
      (if c then snd (remove_ext (right_shortest s) r (init_route r)) else right_shortest s) ->
    rep s0 L0 S0).
  { intros s0 ->. unfold remove_local, remove_ext.
    destruct (remove_at_spec _ _ _ r H2) as (? & _ & _ & H2'), (remove_at_spec _ _ _ r H3) as (? & _ & _ & H3'),
      (remove_at_spec _ _ _ r H4) as (? & _ & _ & H4'), (remove_at_spec _ _ _ r H5) as (? & _ & _ & H5'),
      (remove_at_spec _ _ _ r H6) as (? & _ & _ & H6').
    assert (Hnc : c = false -> S0 = S).
    { intros ->. assert (Hnr : r ∉ S) by naive_solver. apply set_eq. intros y. unfold S0.
      rewrite elem_of_difference, elem_of_singleton. naive_solver. }
    unfold L0. destruct del, c; split; simpl; try done; by rewrite Hnc. }
  destruct Hg as [G1 G2 G3 G4].
  assert (HL0 : L0 ⊆ L) by (unfold L0; destruct del; [apply subseteq_difference_l|]; done).
  assert (HS0 : S0 ⊆ L0).
  { unfold S0, L0. destruct del; [by apply difference_mono_r|]. intros e [He _]%elem_of_difference. auto. }
  destruct (clean_loop_spec U fuel r [] _ L0 S0 (len r) (Hrep0 _ eq_refl) HS0)
    as (s' & L' & -> & Hrep & HL' & Hr' & _ & Hgone).
  { auto. } { done. } { constructor. } { set_solver. } { done. } { set_solver. }
  { apply (subseteq_size _ _) in HL0. simpl. lia. }
  assert (HLL : forall e, e ∈ L' -> e ∈ L) by auto.
  assert (Hcut : forall e t, e ∈ L' -> t ∈ S -> t = tail_route e \/ t = init_route e -> t ∈ S0 ∩ L').
  { intros e t He Ht Hte. assert (t <> r) by (intros ->; destruct (Hr' e He); naive_solver).
    assert (HtS0 : t ∈ S0) by (apply elem_of_difference; rewrite elem_of_singleton; done).
    apply elem_of_intersection. split; [done|]. destruct (decide (t ∈ L')) as [|Hn]; [done|].
    destruct (Hgone t (HS0 _ HtS0) Hn) as [Hu _]. destruct (Hu e He). naive_solver. }
  exists s', L', (S0 ∩ L'). split_and!; [done|done| |done| | | | |].
  - split.
    + intros e [_ ?]%elem_of_intersection. done.
    + auto.
    + intros e [[He _]%elem_of_difference _]%elem_of_intersection. auto.
    + intros e He Hlen. destruct (G4 e (HLL e He) Hlen) as [Ht Hi].
      split; apply (Hcut e); auto.
  - intros e [[He _]%elem_of_difference _]%elem_of_intersection. done.
  - intros [[_ He]%elem_of_difference _]%elem_of_intersection. by apply He, elem_of_singleton.
  - intros -> Hin. apply HL' in Hin. unfold L0 in Hin. apply elem_of_difference in Hin as [_ Hin].
    by apply Hin, elem_of_singleton.
  - intros e He Hn. destruct (decide (e ∈ L0)) as [He0|He0]; [left; by apply Hgone|right].
    unfold L0 in He0. destruct del; [|done]. split; [done|]. destruct (decide (e = r)); [done|].
    destruct He0. apply elem_of_difference. rewrite elem_of_singleton. done.
  - intros e He Hne HeL. apply elem_of_intersection. split; [|done].
    apply elem_of_difference. rewrite elem_of_singleton. done.
Qed.

(** ** Accepting a route *)

Lemma extend_left_facts U r e :
  walks U r -> walks U e -> tail_route e = init_route r ->
  tail_route (extend_left r e) = r /\ init_route (extend_left r e) = e /\
  len (extend_left r e) = S (len r) /\ walks U (extend_left r e).
Proof.
  intros [Hr Hwr] [He Hwe] E. destruct e as [a b [|l p]]; [done|]. destruct r as [c d q].
  destruct q as [|l' q _] using rev_ind; [done|]. rewrite init_route_snoc in E.
  unfold tail_route in E. simpl in E. injection E as El Eb Ep. subst b p. unfold extend_left.
  cbn [path r_src r_dst head option_list app] in *. destruct Hwe as [Hl Hwe]. split_and!.
  - unfold tail_route. simpl. by rewrite El.
  - change (init_route (Route a d ((l :: q) ++ [l'])) = Route a (endpoint c q) (l :: q)).
    by rewrite init_route_snoc, endpoint_cons, El.
  - done.
  - split; [done|]. simpl. split; [done|]. by rewrite El.
Qed.

Lemma extend_right_facts U r e :
  walks U r -> walks U e -> init_route e = tail_route r ->
  init_route (extend_right r e) = r /\ tail_route (extend_right r e) = e /\
  len (extend_right r e) = S (len r) /\ walks U (extend_right r e).
Proof.
  intros [Hr Hwr] [He Hwe] E. destruct (route_snoc e He) as (a & b & p & l & ->). rewrite init_route_snoc in E.
  destruct r as [c d [|l' q]]; [done|]. unfold tail_route in E. simpl in E. injection E as Ea Ed Ep. subst a p.
  unfold extend_right. cbn [path r_src r_dst] in *. rewrite last_snoc. cbn [option_list].
  pose proof (walk_endpoint _ _ _ _ Hwr) as Hd. split_and!.
  - change (init_route (Route c b ((l' :: q) ++ [l])) = Route c d (l' :: q)).
    by rewrite init_route_snoc, <- Hd.
  - done.
  - unfold len. simpl. rewrite length_app. simpl. lia.
  - split; [done|]. cbn [path r_src r_dst]. apply walk_app. rewrite <- Hd. split; [done|].
    apply walk_app in Hwe as [_ Hwe]. by rewrite Ed in Hwe.
Qed.

(** Adding fresh local routes. *)
Lemma add_one s L S n :
  rep s L S -> n ∉ L ->
  rep (Routing (shortest s) (add_local (local_routes s) n) (add_ext (left_local s) n (tail_route n))
         (left_shortest s) (add_ext (right_local s) n (init_route n)) (right_shortest s)) (L ∪ {[n]}) S.
Proof.
  intros [H1 H2 H3 H4 H5 H6] Hn. split; simpl; try done; [by apply add_local_spec|by apply add_ext_spec..].
Qed.

Lemma add_lefts_spec U r S es : forall s L q,
  rep s L S -> walks U r -> NoDup es ->
  (forall e, e ∈ es -> walks U e /\ tail_route e = init_route r /\ extend_left r e ∉ L) ->
  exists s', add_lefts r es q s = (q ++ (extend_left r <$> es), s') /\
    rep s' (L ∪ list_to_set (extend_left r <$> es)) S /\
    left_shortest s' = left_shortest s /\ right_shortest s' = right_shortest s.
Proof.
  induction es as [|e es IH]; intros s L q Hr Hw Hn Hes; simpl.
  { exists s. rewrite app_nil_r, union_empty_r_L. done. }
  apply NoDup_cons in Hn as [Hne Hn]. destruct (Hes e ltac:(set_solver)) as (Hwe & Hte & Hfe).
  destruct (extend_left_facts U r e Hw Hwe Hte) as (Ht & Hi & _ & _).
  pose proof (add_one s L S _ Hr Hfe) as Hr1. rewrite Ht, Hi in Hr1.
  destruct (IH _ _ (q ++ [extend_left r e]) Hr1 Hw Hn) as (s' & -> & Hr2 & E1 & E2).
  - intros e' He'. destruct (Hes e' ltac:(set_solver)) as (Hwe' & Hte' & Hfe'). split_and!; [done|done|].
    intros [Hin|Hin%elem_of_singleton]%elem_of_union; [done|].
    destruct (extend_left_facts U r e' Hw Hwe' Hte') as (_ & Hi' & _ & _). rewrite Hin, Hi in Hi'. by subst.
  - exists s'. rewrite <- app_assoc. split_and!; [done| |done|done].
    by rewrite union_assoc_L.
Qed.

Lemma add_rights_spec U r S es : forall s L q,
  rep s L S -> walks U r -> NoDup es ->
  (forall e, e ∈ es -> walks U e /\ init_route e = tail_route r /\ extend_right r e ∉ L) ->
  exists s', add_rights r es q s = (q ++ (extend_right r <$> es), s') /\
    rep s' (L ∪ list_to_set (extend_right r <$> es)) S.
Proof.
  induction es as [|e es IH]; intros s L q Hr Hw Hn Hes; simpl.
  { exists s. rewrite app_nil_r, union_empty_r_L. done. }
  apply NoDup_cons in Hn as [Hne Hn]. destruct (Hes e ltac:(set_solver)) as (Hwe & Hte & Hfe).
  destruct (extend_right_facts U r e Hw Hwe Hte) as (Hi & Ht & _ & _).
  pose proof (add_one s L S _ Hr Hfe) as Hr1. rewrite Ht, Hi in Hr1.
  destruct (IH _ _ (q ++ [extend_right r e]) Hr1 Hw Hn) as (s' & -> & Hr2).
  - intros e' He'. destruct (Hes e' ltac:(set_solver)) as (Hwe' & Hte' & Hfe'). split_and!; [done|done|].
    intros [Hin|Hin%elem_of_singleton]%elem_of_union; [done|].
    destruct (extend_right_facts U r e' Hw Hwe' Hte') as (_ & Ht' & _ & _). rewrite Hin, Ht in Ht'. by subst.
  - exists s'. rewrite <- app_assoc. split_and!; [done|]. by rewrite union_assoc_L.
Qed.

Lemma path_init r : path (init_route r) = take (length (path r) - 1) (path r).
Proof. unfold init_route. by destruct (last _). Qed.

(** Cutting off the first or the last link of a route that does not return to
    its start gives different routes. *)
Lemma tail_init_differ U r : walks U r -> r_src r <> r_dst r -> tail_route r <> init_route r.
Proof.
  intros [Hr Hw] Hne E. destruct r as [a b [|l p]]; [done|]. simpl in Hne.
  assert (Hs : l_dst l = a).
  { change (r_src (tail_route (Route a b (l :: p))) = a). rewrite E.
    destruct (route_snoc (Route a b (l :: p)) Hr) as (a' & b' & p' & l' & E'). rewrite E', init_route_snoc. simpl.
    by injection E'. }
  apply Hne. clear Hne. apply walk_endpoint in Hw. cbn [r_src r_dst path] in Hw. rewrite Hw.
  assert (Hall : forall q l0 c, l_dst l0 = c -> take (length q) (l0 :: q) = q -> endpoint c (l0 :: q) = c).
  { clear. induction q as [|l1 q IH]; intros l0 c Hl Hq; rewrite endpoint_cons; [done|].
    cbn [length take] in Hq. injection Hq as -> Hq. rewrite Hl. by apply IH. }
  symmetry. apply (Hall p l a Hs). pose proof (path_init (Route a b (l :: p))) as Hp. rewrite <- E in Hp.
  cbn [path tail_route length] in Hp. rewrite Nat.sub_succ, Nat.sub_0_r in Hp. done.
Qed.

Lemma accept_spec U r q s L S :
  rep s L S -> good U L S -> r ∈ L -> shortest s !! rid r = None -> r_src r <> r_dst r ->
  exists s' L' new, accept r q s = (q ++ new, s') /\ rep s' L' (S ∪ {[r]}) /\ good U L' (S ∪ {[r]}) /\ L ⊆ L' /\
    (forall x, x ∈ new -> x ∈ L' /\ len x = Datatypes.S (len r)).
Proof.
  intros Hrep [G1 G2 G3 G4] Hr Hnone Hne. destruct (Hrep) as [H1 H2 H3 H4 H5 H6].
  assert (HrS : r ∉ S). { intros HrS. apply (rs_mem _ _ H1) in HrS. congruence. }
  pose proof (G2 r Hr) as Hwr. unfold accept. cbn [set_subpath].
  set (s1 := Routing _ _ _ _ _ _).
  assert (Hrep1 : rep s1 L (S ∪ {[r]})).
  { split; simpl; try done; [by apply add_short_spec|by apply add_ext_spec..]. }
  pose proof (rp_mem _ _ _ (r_ls _ _ _ _ _ _ _ Hrep1) (init_route r)) as Hls.
  pose proof (rp_mem _ _ _ (r_rs _ _ _ _ _ _ _ Hrep1) (tail_route r)) as Hrs.
  pose proof (rp_nodup _ _ _ (r_ls _ _ _ _ _ _ _ Hrep1) (init_route r)) as Hnl.
  pose proof (rp_nodup _ _ _ (r_rs _ _ _ _ _ _ _ Hrep1) (tail_route r)) as Hnr.
  unfold add_local_routes.
  set (es := entries (left_shortest s1) (init_route r)) in *.
  set (fs := entries (right_shortest s1) (tail_route r)) in *.
  assert (HS1 : forall e, e ∈ S ∪ {[r]} -> e ∈ L) by (intros e [He| ->%elem_of_singleton]%elem_of_union; auto).
  assert (Hdiff : tail_route r <> init_route r) by (by eapply tail_init_differ).
  assert (Hes : forall e, e ∈ es -> e ∈ S /\ walks U e /\ tail_route e = init_route r).
  { intros e [He Ht]%Hls. split_and!; [|auto|done]. apply elem_of_union in He as [He| ->%elem_of_singleton]; [done|].
    by destruct Hdiff. }
  assert (Hfs : forall e, e ∈ fs -> e ∈ S /\ walks U e /\ init_route e = tail_route r).
  { intros e [He Ht]%Hrs. split_and!; [|auto|done]. apply elem_of_union in He as [He| ->%elem_of_singleton]; [done|].
    by destruct Hdiff. }
  assert (Hfresh : forall x, x ∈ L -> (2 <= len x)%nat -> tail_route x <> r /\ init_route x <> r).
  { intros x Hx Hlen. destruct (G4 x Hx Hlen). split; intros E; subst r; contradiction. }
  assert (Hlen : (1 <= len r)%nat). { destruct Hwr as [Hp _]. unfold len. destruct (path r); [done|simpl; lia]. }
  destruct (add_lefts_spec U r (S ∪ {[r]}) es s1 L q Hrep1 Hwr Hnl) as (s2 & -> & Hrep2 & _ & Er).
  { intros e He. destruct (Hes e He) as (_ & Hwe & Ht). split_and!; [done|done|]. intros Hin.
    destruct (extend_left_facts U r e Hwr Hwe Ht) as (Et & _ & El & _). by destruct (Hfresh _ Hin ltac:(lia)) as [Hc _]. }
  rewrite Er. fold fs.
  destruct (add_rights_spec U r (S ∪ {[r]}) fs s2 _ (q ++ (extend_left r <$> es)) Hrep2 Hwr Hnr) as (s3 & -> & Hrep3).
  { intros e He. destruct (Hfs e He) as (_ & Hwe & Ht). split_and!; [done|done|].
    destruct (extend_right_facts U r e Hwr Hwe Ht) as (Ei & Et & El & _).
    intros [Hin|Hin]%elem_of_union; [by destruct (Hfresh _ Hin ltac:(lia)) as [_ Hc]|].
    apply elem_of_list_to_set, list_elem_of_fmap in Hin as (e' & E' & He'). destruct (Hes e' He') as (_ & Hwe' & Ht').
    destruct (extend_left_facts U r e' Hwr Hwe' Ht') as (Et' & _ & _ & _). rewrite <- E', Et in Et'. subst e.
    apply Hdiff. by rewrite Ht. }
  set (L' := L ∪ _ ∪ _) in *. exists s3, L', ((extend_left r <$> es) ++ (extend_right r <$> fs)).
  assert (HL' : forall x, x ∈ L' <-> x ∈ L \/ (exists e, e ∈ es /\ x = extend_left r e) \/
                                     (exists e, e ∈ fs /\ x = extend_right r e)).
  { intros x. unfold L'. rewrite !elem_of_union, !elem_of_list_to_set, !list_elem_of_fmap. naive_solver. }
  split_and!; [by rewrite app_assoc|done| | |].
  - split.
    + intros x Hx. apply HL'. auto.
    + intros x [Hx|[(e & He & ->)|(e & He & ->)]]%HL'; [auto| |].
      * destruct (Hes e He) as (_ & Hwe & Ht). by apply extend_left_facts.
      * destruct (Hfs e He) as (_ & Hwe & Ht). by apply extend_right_facts.
    + intros x [Hx| ->%elem_of_singleton]%elem_of_union; auto.
    + intros x [Hx|[(e & He & ->)|(e & He & ->)]]%HL' Hx2.
      * destruct (G4 x Hx Hx2). split; apply elem_of_union; by left.
      * destruct (Hes e He) as (HeS & Hwe & Ht).
        destruct (extend_left_facts U r e Hwr Hwe Ht) as (-> & -> & _ & _).
        rewrite !elem_of_union, !elem_of_singleton. auto.
      * destruct (Hfs e He) as (HeS & Hwe & Ht).
        destruct (extend_right_facts U r e Hwr Hwe Ht) as (-> & -> & _ & _).
        rewrite !elem_of_union, !elem_of_singleton. auto.
  - intros x Hx. apply HL'. auto.
  - intros x [(e & -> & He)%list_elem_of_fmap|(e & -> & He)%list_elem_of_fmap]%elem_of_app.
    + destruct (Hes e He) as (_ & Hwe & Ht). split; [apply HL'; eauto|]. by apply (extend_left_facts U).
    + destruct (Hfs e He) as (_ & Hwe & Ht). split; [apply HL'; eauto 6|]. by apply (extend_right_facts U).
Qed.
End choices.

(** ** Routing: histories of link events

    [fixup] terminates and keeps the invariant, hence so does every handler
    call; what [get_route] returns is a simple path over links that are up. *)

(** [r] has no more links than any path over [U] with the same ends. *)
Definition min_hop (U : links) (r : route) : Prop :=
  forall p, walk U (r_src r) p (r_dst r) -> (len r <= length p)%nat.

(** The ends of the routes over [U] are among finitely many. *)
Definition ends (U : links) : gset route_id :=
  set_map (fun x : (Z * link) * (Z * link) => (x.1.1, l_dst x.2.2)) (cprod U U).

Lemma rid_ends U r : walks U r -> rid r ∈ ends U.
Proof.
  intros [Hn Hw]. destruct (route_snoc r Hn) as (a & b & p & l & ->). cbn [path r_src r_dst] in Hw.
  apply walk_app in Hw as [Hw Hl]. cbn [walk] in Hl. destruct Hl as [Hl <-].
  unfold ends. apply elem_of_map. unfold rid. simpl.
  assert (exists l0, (a, l0) ∈ U) as [l0 H0].
  { destruct p as [|l0 p]; [exists l; exact Hl|]. simpl in Hw. naive_solver. }
  exists ((a, l0), (endpoint a p, l)). split; [done|]. by apply elem_of_gset_cprod.
Qed.

(** The pairs whose shortest route is final once candidates have [c] links. *)
Definition settled (c : nat) (S : gset route) : gset route_id :=
  set_map rid (filter (fun r => (len r <= c)%nat) S).

Lemma elem_of_settled c S id : id ∈ settled c S <-> exists r, r ∈ S /\ (len r <= c)%nat /\ rid r = id.
Proof.
  unfold settled. rewrite elem_of_map. split.
  - intros (r & -> & [Hl Hr]%elem_of_filter). eauto.
  - intros (r & Hr & Hl & <-). exists r. split; [done|]. by apply elem_of_filter.
Qed.

Section choices.
Context `{ChoiceLaws}.

(** ** More fuel gives the same result *)

Lemma clean_loop_mono f f' p todo s s' :
  (f <= f')%nat -> clean_loop f p todo s = Ret s' -> clean_loop f' p todo s = Ret s'.
Proof.
  revert f' p todo s. induction f as [|f IH]; intros f' p todo s Hf E; [done|].
  destruct f' as [|f']; [lia|]. simpl in *. destruct (clean_turn p todo s) as [todo' s1].
  destruct (set_first todo') as [[p' todo2]|]; [|done]. apply IH; [lia|done].
Qed.

Lemma fixup_loop_mono f f' q s s' :
  (f <= f')%nat -> fixup_loop f q s = Ret s' -> fixup_loop f' q s = Ret s'.
Proof.
  revert f' q s. induction f as [|f IH]; intros f' q s Hf E; [done|].
  destruct f' as [|f']; [lia|]. simpl in *. destruct (queue_top q) as [[r q1]|]; [|done].
  destruct (shortest s !! rid r) as [old|].
  - destruct (Nat.leb (len old) (len r)); [apply IH; [lia|done]|].
    destruct (cleanup (S f) old false s) as [s1| | |] eqn:Ec; try done.
    unfold cleanup in *. rewrite (clean_loop_mono (S f) (S f') _ _ _ _ ltac:(lia) Ec). simpl in *.
    destruct (accept r q1 s1). apply IH; [lia|done].
  - destruct (r_src r =? r_dst r); [apply IH; [lia|done]|]. destruct (accept r q1 s). apply IH; [lia|done].
Qed.

Lemma handle_mono f f' e s s' :
  (f <= f')%nat -> handle_link_change f e s = Ret s' -> handle_link_change f' e s = Ret s'.
Proof.
  intros Hf. unfold handle_link_change, fixup, cleanup. destruct (action e); [by apply fixup_loop_mono|].
  intros E. destruct (clean_loop f _ _ _) as [s1| | |] eqn:Ec; try done.
  rewrite (clean_loop_mono _ f' _ _ _ _ Hf Ec). simpl in *. by apply (fixup_loop_mono f).
Qed.

Lemma handle_links_mono f f' es s s' :
  (f <= f')%nat -> handle_links f es s = Ret s' -> handle_links f' es s = Ret s'.
Proof.
  intros Hf. revert s. induction es as [|e es IH]; intros s E; simpl in *; [done|].
  destruct (handle_link_change f e s) as [s1| | |] eqn:E1; try done.
  rewrite (handle_mono _ f' _ _ _ Hf E1). simpl in *. auto.
Qed.

Lemma handle_links_app f es es' s :
  handle_links f (es ++ es') s = (s ← handle_links f es s; handle_links f es' s).
Proof.
  revert s. induction es as [|e es IH]; intros s; simpl; [done|].
  destruct (handle_link_change f e s); simpl; auto.
Qed.

(** ** [fixup] *)

(** What keeps candidates from being cleaned up before their turn: either they
    have at most one link more than the last one ([ADD]), or no stored route is
    replaced at all ([REMOVE]). *)
Definition calm (adding : bool) (U : links) (q : list route) (S : gset route) (c : nat) : Prop :=
  if adding then forall x, x ∈ q -> (len x <= Datatypes.S c)%nat
  else forall r, r ∈ S -> (len r <= c)%nat \/ min_hop U r.

Lemma settled_grows U c c' S S' r :
  walks U r -> r ∈ S' -> (len r <= c')%nat -> (c <= c')%nat ->
  (forall x, x ∈ S -> (len x <= c)%nat -> x ∈ S') -> rid r ∉ settled c S ->
  (size (ends U ∖ settled c' S') < size (ends U ∖ settled c S))%nat.
Proof.
  intros Hw Hr Hl Hc Hkeep Hn. apply subset_size. split.
  - intros id [Hi Hs]%elem_of_difference. apply elem_of_difference. split; [done|]. intros Hin. apply Hs.
    apply elem_of_settled in Hin as (x & Hx & Hlx & <-). apply elem_of_settled. exists x. split_and!; auto. lia.
  - intros Hsub. assert (Hin : rid r ∈ ends U ∖ settled c S) by (apply elem_of_difference; split; [by apply rid_ends|done]).
    apply Hsub, elem_of_difference in Hin as [_ Hin]. apply Hin, elem_of_settled. eauto.
Qed.

(** The turn that accepts [r], once no other route holds its place. *)
Lemma accept_turn U adding r q1 s1 L1 S1 c :
  rep s1 L1 S1 -> good U L1 S1 -> r ∈ L1 -> shortest s1 !! rid r = None -> r_src r <> r_dst r ->
  (c <= len r)%nat -> (forall x, x ∈ q1 -> x ∈ L1 /\ (len r <= len x)%nat) ->
  calm adding U q1 S1 c ->
  exists q2 s2 L2, accept r q1 s1 = (q2, s2) /\ rep s2 L2 (S1 ∪ {[r]}) /\ good U L2 (S1 ∪ {[r]}) /\
    (forall x, x ∈ q2 -> x ∈ L2 /\ (len r <= len x)%nat) /\ calm adding U q2 (S1 ∪ {[r]}) (len r).
Proof.
  intros Hrep Hg Hr Hnone Hne Hc Hq Hcalm.
  destruct (accept_spec U r q1 s1 L1 S1 Hrep Hg Hr Hnone Hne) as (s2 & L2 & new & -> & Hrep2 & Hg2 & HL & Hnew).
  exists (q1 ++ new), s2, L2. split_and!; [done|done|done| |].
  - intros x [Hx|Hx]%elem_of_app.
    + destruct (Hq x Hx). split; [auto|done].
    + destruct (Hnew x Hx). split; [done|lia].
  - unfold calm in *. destruct adding.
    + intros x [Hx|Hx]%elem_of_app; [specialize (Hcalm x Hx); lia|]. destruct (Hnew x Hx). lia.
    + intros x [Hx| ->%elem_of_singleton]%elem_of_union; [|by left].
      destruct (Hcalm x Hx); [left; lia|by right].
Qed.

Lemma fixup_loop_spec U adding k : forall n q s L S c,
  rep s L S -> good U L S -> (forall x, x ∈ q -> x ∈ L /\ (c <= len x)%nat) -> calm adding U q S c ->
  (size (ends U ∖ settled c S) <= k)%nat -> (length q <= n)%nat ->
  exists N s' L' S', fixup_loop N q s = Ret s' /\ rep s' L' S' /\ good U L' S'.
Proof.
  induction k as [k IHk] using lt_wf_ind. induction n as [n IHn] using lt_wf_ind.
  intros q s L S c Hrep Hg Hq Hcalm Hk Hn. pose proof (queue_top_law q) as Htop.
  destruct (queue_top q) as [[r q1]|] eqn:Eq; [|exists 1%nat, s, L, S; simpl; by rewrite Eq].
  destruct Htop as [Hperm Hmin]. assert (Hlen : length q = Datatypes.S (length q1)) by (by rewrite Hperm).
  assert (Hqr : forall x, x ∈ q <-> x = r \/ x ∈ q1) by (intros x; rewrite Hperm; set_solver).
  destruct (Hq r) as [HrL Hcr]; [apply Hqr; by left|].
  assert (Hskip : forall b : bool, exists N s' L' S', fixup_loop N q1 s = Ret s' /\ rep s' L' S' /\ good U L' S').
  { intros _. apply (IHn (length q1) ltac:(lia) q1 s L S c); try done.
    - intros x Hx. apply Hq, Hqr. by right.
    - unfold calm in *. destruct adding; [|done]. intros x Hx. apply Hcalm, Hqr. by right. }
  pose proof (r_short _ _ _ _ _ _ _ Hrep) as Hsh.
  assert (Huniq : forall x, x ∈ S -> rid x = rid r -> shortest s !! rid r = Some x).
  { intros x Hx E. rewrite <- E. by apply (rs_mem _ _ Hsh). }
  destruct (shortest s !! rid r) as [old|] eqn:Eold.
  - pose proof (rs_key _ _ Hsh _ _ Eold) as Eid.
    assert (HoldS : old ∈ S) by (apply (rs_mem _ _ Hsh); by rewrite Eid).
    destruct (Nat.leb (len old) (len r)) eqn:Ele.
    { destruct (Hskip true) as (N & s' & L' & S' & E & ? & ?). exists (Datatypes.S N), s', L', S'.
      split; [|done]. simpl. by rewrite Eq, Eold, Ele. }
    apply Nat.leb_gt in Ele as Hlt. pose proof (g_walk _ _ _ Hg r HrL) as Hwr.
    destruct adding; simpl in Hcalm.
    2:{ exfalso. destruct (Hcalm old HoldS) as [|Hmh]; [lia|]. unfold rid in Eid. injection Eid as E1 E2.
        destruct Hwr as [_ Hwr]. rewrite <- E1, <- E2 in Hwr. apply Hmh in Hwr. unfold len in *. lia. }
    assert (Hpold : path old <> []) by (apply (g_walk _ _ _ Hg old), (g_sub _ _ _ Hg), HoldS).
    destruct (cleanup_spec U (2 * size L + 1) old false s L S Hrep Hg Hpold ltac:(lia))
      as (s1 & L1 & S1 & Ec & Hrep1 & Hg1 & HL1 & HS1 & Hold1 & _ & Hgone & Hkeep).
    assert (Hstay : forall x, x ∈ L -> (len x <= len old)%nat -> x ∈ L1).
    { intros x Hx Hl. destruct (decide (x ∈ L1)) as [|Hx1]; [done|].
      destruct (Hgone x Hx Hx1) as [|[]]; [lia|done]. }
    destruct (accept_turn U true r q1 s1 L1 S1 c Hrep1 Hg1) as (q2 & s2 & L2 & Ea & Hrep2 & Hg2 & Hq2 & Hc2).
    { apply Hstay; [done|lia]. }
    { destruct (shortest s1 !! rid r) as [x|] eqn:Ex; [|done]. pose proof (r_short _ _ _ _ _ _ _ Hrep1) as Hsh1.
      pose proof (rs_key _ _ Hsh1 _ _ Ex) as Exid. assert (Hx1 : x ∈ S1) by (apply (rs_mem _ _ Hsh1); by rewrite Exid).
      pose proof (Huniq x (HS1 _ Hx1) Exid) as [= <-]. done. }
    { unfold rid in Eid. injection Eid as <- <-. by apply (g_loop _ _ _ Hg). }
    { done. }
    { intros x Hx. split; [|apply Hmin, Hqr; by right]. apply Hstay; [apply Hq, Hqr; by right|].
      specialize (Hcalm x ltac:(apply Hqr; by right)). lia. }
    { intros x Hx. apply Hcalm, Hqr. by right. }
    assert (Hset : (size (ends U ∖ settled (len r) (S1 ∪ {[r]})) < size (ends U ∖ settled c S))%nat).
    { apply (settled_grows U _ _ _ _ r); [done|set_solver|done|done| |].
      - intros x Hx Hlx. apply elem_of_union. left. apply Hkeep; [done|intros ->; lia|].
        apply Hstay; [by apply (g_sub _ _ _ Hg)|lia].
      - intros (x & Hx & Hlx & Ex)%elem_of_settled. pose proof (Huniq x Hx Ex) as [= ->]. lia. }
    destruct (IHk _ (Nat.lt_le_trans _ _ _ Hset Hk) (length q2) q2 s2 L2 (S1 ∪ {[r]}) (len r) Hrep2 Hg2 Hq2 Hc2
      ltac:(done) ltac:(done)) as (N & s' & L' & S' & E & ? & ?).
    exists (Datatypes.S (N `max` (2 * size L + 1))), s', L', S'. split; [|done].
    cbn [fixup_loop]. rewrite Eq, Eold, Ele. unfold cleanup in *.
    rewrite (clean_loop_mono (2 * size L + 1) (Datatypes.S (N `max` (2 * size L + 1))) _ _ _ _ ltac:(lia) Ec).
    cbn [mbind res_bind]. rewrite Ea.
    apply (fixup_loop_mono N); [lia|done].
  - destruct (r_src r =? r_dst r) eqn:Esd.
    { destruct (Hskip true) as (N & s' & L' & S' & E & ? & ?). exists (Datatypes.S N), s', L', S'.
      split; [|done]. simpl. by rewrite Eq, Eold, Esd. }
    apply Z.eqb_neq in Esd as Hne.
    destruct (accept_turn U adding r q1 s L S c Hrep Hg HrL Eold Hne Hcr) as (q2 & s2 & L2 & Ea & Hrep2 & Hg2 & Hq2 & Hc2).
    { intros x Hx. split; [apply Hq, Hqr; by right|apply Hmin, Hqr; by right]. }
    { unfold calm in Hcalm. destruct adding; [|done]. intros x Hx. apply Hcalm, Hqr. by right. }
    assert (Hset : (size (ends U ∖ settled (len r) (S ∪ {[r]})) < size (ends U ∖ settled c S))%nat).
    { apply (settled_grows U _ _ _ _ r); [by apply (g_walk _ _ _ Hg)|set_solver|done|done|set_solver|].
      intros (x & Hx & Hlx & Ex)%elem_of_settled. by pose proof (Huniq x Hx Ex). }
    destruct (IHk _ (Nat.lt_le_trans _ _ _ Hset Hk) (length q2) q2 s2 L2 (S ∪ {[r]}) (len r) Hrep2 Hg2 Hq2 Hc2
      ltac:(done) ltac:(done)) as (N & s' & L' & S' & E & ? & ?).
    exists (Datatypes.S N), s', L', S'. split; [|done]. simpl. by rewrite Eq, Eold, Esd, Ea.
Qed.

(** ** The handler *)

Definition event_key (e : link_event) : Z * link := (dpsrc e, event_link e).

(** The links that are up after an event. *)
Definition up_after (e : link_event) (U : links) : links :=
  match action e with ADD => U ∪ {[event_key e]} | REMOVE => U ∖ {[event_key e]} end.
Definition up (es : list link_event) : links := foldl (fun U e => up_after e U) ∅ es.

Lemma good_mono U V L S : U ⊆ V -> good U L S -> good V L S.
Proof. intros HUV [G1 G2 G3 G4]. split; [done| |done|done]. intros r Hr. eapply walks_mono; eauto. Qed.

Lemma event_route_walks U e : walks U (event_route e) <-> event_key e ∈ U.
Proof. unfold walks, event_route, event_key, event_link. simpl. naive_solver. Qed.

Lemma handle_add_spec U e s L S :
  rep s L S -> good U L S -> action e = ADD -> event_key e ∉ U ->
  exists N s' L' S', handle_link_change N e s = Ret s' /\ rep s' L' S' /\ good (up_after e U) L' S'.
Proof.
  intros Hrep Hg Ha Hn. unfold up_after, handle_link_change. rewrite Ha.
  set (V := U ∪ {[event_key e]}). set (r := event_route e).
  assert (Hr : r ∉ L). { intros Hr%(g_walk _ _ _ Hg). by apply event_route_walks in Hr. }
  assert (Hwr : walks V r) by (apply event_route_walks; set_solver).
  assert (Hg1 : good V (L ∪ {[r]}) S).
  { apply (good_mono U V) in Hg as [G1 G2 G3 G4]; [|set_solver]. split; [set_solver| |done|].
    - intros x [Hx| ->%elem_of_singleton]%elem_of_union; auto.
    - intros x [Hx| ->%elem_of_singleton]%elem_of_union Hl; [auto|]. by unfold len in Hl; simpl in Hl; lia. }
  pose proof (add_one s L S r Hrep Hr) as Hrep1.
  destruct (fixup_loop_spec V true (size (ends V ∖ settled 1 S)) 1 [r] _ _ S 1 Hrep1 Hg1)
    as (N & s' & L' & S' & E & ? & ?); [| |done|done|].
  - intros x ->%list_elem_of_singleton. split; [set_solver|done].
  - intros x ->%list_elem_of_singleton. unfold len. simpl. lia.
  - exists N, s', L', S'. unfold fixup. rewrite app_nil_r. done.
Qed.

(** Without the route of a link no local route uses the link. *)
Lemma good_without U e L S :
  good U L S -> event_route e ∉ L -> good (U ∖ {[event_key e]}) L S.
Proof.
  intros [G1 G2 G3 G4] Hn. split; [done| |done|done].
  assert (Hind : forall n r, r ∈ L -> len r = n -> walks (U ∖ {[event_key e]}) r); [|eauto].
  induction n as [n IH] using lt_wf_ind. intros r Hr Hl. destruct (G2 r Hr) as [Hp Hw]. split; [done|].
  destruct r as [a b [|l [|l2 p]]]; [done| |].
  - simpl in *. destruct Hw as [Hl0 <-]. split; [|done]. apply elem_of_difference. split; [done|].
    intros E%elem_of_singleton. apply Hn. unfold event_key in E. injection E as -> E.
    unfold event_route. rewrite <- E. unfold event_link in E. by rewrite E in Hr.
  - unfold len in Hl. simpl in Hl. destruct (G4 _ Hr) as [Ht Hi]; [unfold len; simpl; lia|].
    destruct (IH (n - 1)%nat ltac:(lia) _ (G1 _ Ht)) as [_ Hwt]; [unfold len; simpl; lia|].
    pose proof (len_init (Route a b (l :: l2 :: p)) Hp) as Hli. unfold len in Hli at 1. simpl in Hli.
    destruct (IH (n - 1)%nat ltac:(lia) _ (G1 _ Hi)) as [_ Hwi]; [lia|].
    split; [|exact Hwt]. rewrite path_init in Hwi.
    assert (Es : r_src (init_route (Route a b (l :: l2 :: p))) = a) by (unfold init_route; simpl; by case_match).
    rewrite Es in Hwi. simpl in Hwi. by destruct Hwi.
Qed.

Lemma handle_remove_spec U e s L S :
  rep s L S -> good U L S -> action e = REMOVE -> (forall r, r ∈ S -> min_hop U r) ->
  exists N s' L' S', handle_link_change N e s = Ret s' /\ rep s' L' S' /\ good (up_after e U) L' S'.
Proof.
  intros Hrep Hg Ha Hmin. unfold up_after, handle_link_change. rewrite Ha.
  destruct (cleanup_spec U (2 * size L + 1) (event_route e) true s L S Hrep Hg ltac:(done) ltac:(lia))
    as (s1 & L1 & S1 & Ec & Hrep1 & Hg1 & HL1 & HS1 & _ & Hn & _ & _).
  apply good_without with (e := e) in Hg1; [|by apply Hn]. set (V := U ∖ {[event_key e]}) in *.
  set (q := omap head (traverse (local_routes s1))).
  destruct (fixup_loop_spec V false (size (ends V ∖ settled 0 S1)) (length q) q s1 L1 S1 0 Hrep1 Hg1)
    as (N & s' & L' & S' & E & ? & ?); [| |done|done|].
  - intros x Hx. split; [|lia]. unfold q in Hx. apply list_elem_of_omap in Hx as (l & Hl & Hx).
    rewrite traverse_law in Hl. apply list_elem_of_fmap in Hl as ([k l'] & -> & Hl). simpl in Hx.
    apply elem_of_map_to_list in Hl. apply head_Some_elem_of in Hx.
    apply (rp_mem _ _ _ (r_local _ _ _ _ _ _ _ Hrep1) k x). by rewrite Hl.
  - intros x Hx. right. intros p Hp. apply (Hmin x (HS1 _ Hx)). eapply walk_mono; [|exact Hp]. set_solver.
  - exists (N `max` (2 * size L + 1))%nat, s', L', S'. split; [|done]. unfold cleanup in *.
    rewrite (clean_loop_mono (2 * size L + 1) (N `max` (2 * size L + 1)) _ _ _ _ ltac:(lia) Ec).
    cbn [mbind res_bind]. unfold fixup.
    apply (fixup_loop_mono N); [lia|done].
Qed.

(** ** Histories *)

Lemma rep_empty : rep no_routes ∅ ∅.
Proof.
  split; split; simpl; intros; rewrite ?lookup_empty; simpl; try done; try constructor; set_solver.
Qed.

Lemma history_spec es :
  (forall pre e suf, es = pre ++ e :: suf -> action e = ADD -> event_key e ∉ up pre) ->
  (forall pre e suf, es = pre ++ e :: suf -> action e = REMOVE ->
     forall fuel s id r, handle_links fuel pre no_routes = Ret s -> shortest s !! id = Some r -> min_hop (up pre) r) ->
  exists N s L S, handle_links N es no_routes = Ret s /\ rep s L S /\ good (up es) L S.
Proof.
  induction es as [|e es IH] using rev_ind; intros Hadd Hrem.
  { exists 0%nat, no_routes, ∅, ∅. split; [done|]. split; [apply rep_empty|]. split; set_solver. }
  destruct IH as (N & s & L & S & E & Hrep & Hg).
  { intros pre e' suf -> Ha. apply (Hadd pre e' (suf ++ [e])); [|done]. by rewrite <- app_assoc. }
  { intros pre e' suf -> Ha. apply (Hrem pre e' (suf ++ [e])); [|done]. by rewrite <- app_assoc. }
  assert (exists N' s' L' S', handle_link_change N' e s = Ret s' /\ rep s' L' S' /\ good (up_after e (up es)) L' S')
    as (N' & s' & L' & S' & E' & Hrep' & Hg').
  { destruct (action e) eqn:Ha.
    - apply (handle_add_spec (up es) e s L S); try done. by apply (Hadd es e []).
    - apply (handle_remove_spec (up es) e s L S); try done. intros r Hr.
      apply (rs_mem _ _ (r_short _ _ _ _ _ _ _ Hrep)) in Hr. by apply (Hrem es e [] eq_refl Ha N s (rid r) r). }
  exists (N `max` N')%nat, s', L', S'. split_and!; [|done|].
  - rewrite handle_links_app, (handle_links_mono N (N `max` N') _ _ _ ltac:(lia) E). cbn [mbind res_bind handle_links].
    by rewrite (handle_mono N' (N `max` N') _ _ _ ltac:(lia) E').
  - unfold up. by rewrite foldl_app.
Qed.

(** Shortest routes visit no datapath twice. *)
Lemma good_simple U L S : good U L S ->
  forall r, r ∈ S -> NoDup (r_src r :: (l_dst <$> path r)).
Proof.
  intros [G1 G2 G3 G4].
  assert (Hind : forall n r, r ∈ S -> len r = n -> NoDup (r_src r :: (l_dst <$> path r))); [|eauto].
  induction n as [n IH] using lt_wf_ind. intros r Hr Hl. destruct (G2 r (G1 _ Hr)) as [Hp Hw].
  pose proof (G3 r Hr) as Hne. apply walk_endpoint in Hw.
  destruct r as [a b [|l [|l2 p]]]; [done| |].
  - simpl in *. unfold endpoint in Hw. simpl in Hw. subst b. constructor; [set_solver|apply NoDup_singleton].
  - unfold len in Hl. simpl in Hl. destruct (G4 _ (G1 _ Hr)) as [Ht Hi]; [unfold len; simpl; lia|].
    specialize (IH (n - 1)%nat ltac:(lia)). pose proof (IH _ Ht ltac:(unfold len; simpl; lia)) as Hnt.
    pose proof (len_init (Route a b (l :: l2 :: p)) Hp) as Hli. unfold len in Hli at 1. simpl in Hli.
    pose proof (IH _ Hi ltac:(lia)) as Hni. cbn [tail_route r_src path] in Hnt |- *.
    constructor; [|exact Hnt]. rewrite path_init in Hni.
    assert (Es : r_src (init_route (Route a b (l :: l2 :: p))) = a) by (unfold init_route; simpl; by case_match).
    rewrite Es in Hni. apply NoDup_cons in Hni as [Hni _]. cbn [path r_dst r_src] in Hw, Hni, Hne.
    intros Hin. remember (l :: l2 :: p) as q eqn:Eq. clear Hr Ht Hi Hnt Hli Es Hp IH.
    destruct q as [|l' q _] using rev_ind; [done|]. rewrite fmap_app in Hin. apply elem_of_app in Hin as [Hin|Hin].
    + apply Hni. rewrite length_app. simpl. replace (length q + 1 - 1)%nat with (length q) by lia.
      by rewrite take_app_length.
    + apply list_elem_of_singleton in Hin. rewrite endpoint_snoc in Hw. congruence.
Qed.
End choices.

(** ** Routing: what the other applications rely on *)

(** ** The choices of [Routing.fifo] are possible ones *)

Lemma remove_first_perm r q : r ∈ q -> q ≡ₚ r :: remove_first (routeq r) q.
Proof.
  induction q as [|x q IH]; intros Hr; [set_solver|]. simpl. unfold routeq at 1. case_bool_decide as E; [by subst|].
  apply elem_of_cons in Hr as [|Hr]; [done|]. rewrite IH at 1 by done. constructor.
Qed.

Lemma first_shortest_spec q :
  match first_shortest q with
  | Some r => r ∈ q /\ forall x, x ∈ q -> (len r <= len x)%nat
  | None => q = []
  end.
Proof.
  induction q as [|y q IH]; simpl; [done|]. destruct (first_shortest q) as [x|].
  - destruct IH as [Hx Hmin]. destruct (Nat.leb_spec (len y) (len x)).
    + split; [set_solver|]. intros z [->|Hz]%elem_of_cons; [done|]. specialize (Hmin z Hz). lia.
    + split; [set_solver|]. intros z [->|Hz]%elem_of_cons; [lia|auto].
  - subst. split; [set_solver|]. intros z ->%list_elem_of_singleton. done.
Qed.

Lemma fifo_laws : @ChoiceLaws fifo.
Proof.
  split.
  - intros q. simpl. pose proof (first_shortest_spec q) as Hq. destruct (first_shortest q) as [r|]; [|done].
    destruct Hq as [Hr Hmin]. split; [by apply remove_first_perm|done].
  - intros [|r q]; simpl; reflexivity.
  - intros m. simpl. reflexivity.
Qed.

Lemma get_route_walk `{ChoiceLaws} s L S U a b r :
  rep s L S -> good U L S -> get_route (a, b) s = Some r ->
  r_src r = a /\ r_dst r = b /\ walk U a (path r) b /\ NoDup (a :: (l_dst <$> path r)).
Proof.
  intros Hrep Hg. unfold get_route. destruct (shortest s !! (a, b)) as [r'|] eqn:Er.
  - intros [= <-]. pose proof (r_short _ _ _ _ _ _ _ Hrep) as Hsh.
    pose proof (rs_key _ _ Hsh _ _ Er) as Eid. unfold rid in Eid. injection Eid as <- <-.
    assert (Hr : r' ∈ S) by (apply (rs_mem _ _ Hsh); exact Er).
    split_and!; [done|done| |by eapply good_simple]. apply (g_walk _ _ _ Hg r'), (g_sub _ _ _ Hg), Hr.
  - simpl. destruct (Z.eqb_spec a b) as [->|]; [|done]. intros [= <-]. split_and!; try done. apply NoDup_singleton.
Qed.

(** ** Properties *)


(** Two links in a row; the first one fails. *)
Definition two_links : list link_event := [Link_event 1 2 10 20 ADD; Link_event 2 3 21 30 ADD].
Definition link_fails : list link_event := two_links ++ [Link_event 1 2 10 20 REMOVE].

Lemma two_links_state fuel s :
  handle_links (H := fifo) fuel two_links no_routes = Ret s ->
  s = match handle_links (H := fifo) 20 two_links no_routes with Ret s => s | _ => no_routes end.
Proof.
  intros E. apply (handle_links_mono fuel (fuel `max` 20)) in E; [|lia].
  assert (E' : handle_links (H := fifo) 20 two_links no_routes =
    Ret match handle_links (H := fifo) 20 two_links no_routes with Ret s => s | _ => no_routes end)
    by (vm_compute; reflexivity).
  apply (handle_links_mono 20 (fuel `max` 20)) in E'; [|lia]. congruence.
Qed.

Lemma two_links_shortest :
  map_to_list (shortest match handle_links (H := fifo) 20 two_links no_routes with Ret s => s | _ => no_routes end) =
  [((1, 3), Route 1 3 [Link 2 10 20; Link 3 21 30]); ((1, 2), Route 1 2 [Link 2 10 20]);
   ((2, 3), Route 2 3 [Link 3 21 30])].
Proof. vm_compute. reflexivity. Qed.

Lemma two_links_min_hop fuel s id r :
  handle_links (H := fifo) fuel two_links no_routes = Ret s -> shortest s !! id = Some r -> min_hop (up two_links) r.
Proof.
  intros ->%two_links_state Hr%elem_of_map_to_list. rewrite two_links_shortest in Hr.
  assert (Hup : up two_links = {[(1, Link 2 10 20)]} ∪ {[(2, Link 3 21 30)]})
    by (unfold up, two_links, up_after, event_key, event_link; simpl; set_solver).
  intros p Hw. rewrite Hup in Hw. unfold len.
  repeat (apply elem_of_cons in Hr as [[= -> ->]|Hr]); [| | |by apply not_elem_of_nil in Hr];
    destruct p as [|l [|l2 p]]; simpl in Hw |- *; try lia; exfalso.
  destruct Hw as [[[= ->]%elem_of_singleton|[= ->]%elem_of_singleton]%elem_of_union Hd]; done.
Qed.

Lemma link_fails_prefix pre e suf :
  link_fails = pre ++ e :: suf ->
  if action e is ADD then event_key e ∉ up pre else pre = two_links.
Proof.
  intros E. unfold link_fails, two_links in E. simpl in E.
  destruct pre as [|e1 [|e2 [|e3 [|e4 pre]]]]; simplify_eq/=; try done;
    unfold up, up_after, event_key, event_link; simpl; set_solver.
Qed.


(** Completeness fails when shortest paths are not unique: with one
    admissible way to break ties, after eleven links were added and one of them
    removed, no route is stored from datapath 5 to datapath 10 although a path
    of four links connects them. *)
Theorem routes_may_be_missing :
  let link a b c d := Link_event a b c d ADD in
  let es := [link 4 8 9 5; link 5 3 4 6; link 6 9 10 7; link 3 6 7 4; link 6 8 9 7; link 1 4 5 2; link 5 1 2 6;
             link 9 10 11 10; link 3 9 10 4; link 8 10 11 9; link 4 9 10 5; Link_event 3 9 10 4 REMOVE] in
  @ChoiceLaws fifo /\
  exists s, handle_links (H := fifo) 60 es no_routes = Ret s /\ get_route (5, 10) s = None /\
    walk (up es) 5 [Link 1 2 6; Link 4 5 2; Link 8 9 5; Link 10 11 9] 10.
Proof.
  intros link es. split; [apply fifo_laws|].
  exists match handle_links (H := fifo) 60 es no_routes with Ret s => s | _ => no_routes end.
  split_and!; [vm_compute; reflexivity|vm_compute; reflexivity|].
  simpl. split_and!; try done; refine (bool_decide_unpack _ _); vm_compute; exact I.
Qed.
