(* ===== verification/Topology.v ===== *)
(** * Topology (src/nox/netapps/topology/topology.cc, src/include/port.hh)

    [Topology] keeps, for every datapath, its ports, its outgoing links and the
    ports on which links arrive.  An entry is created when something is first
    heard of a datapath and erased when nothing is left of it.

    [Aborted] is the use of an iterator whose entry was erased. *)

From S2P Require Import Prelude Routing.

Open Scope Z_scope.

(** ** Ports *)

Record port := Port {
  port_no : Z;
  name : list Z;
  speed : Z;
  config : Z;
  state : Z;
  curr : Z;
  advertised : Z;
  supported : Z;
  peer : Z;
  hw_addr : Z
}.

(** [Port::operator=]: [state] and [hw_addr] of the target stay. *)
Definition port_assign (old new : port) : port :=
  Port (port_no new) (name new) (speed new) (config new) (state old)
    (curr new) (advertised new) (supported new) (peer new) (hw_addr old).

(** [std::vector<Port>]: assignment of a vector assigns to the elements that
    are there and copy-constructs the others, unless the storage is
    reallocated, when all are copy-constructed; which of the two happens
    depends on the capacity and is an argument here. *)
Fixpoint assign_over (old new : list port) : list port :=
  match old, new with
  | _, [] => []
  | [], new => new
  | x :: old, y :: new => port_assign x y :: assign_over old new
  end.
Definition vector_assign (realloc : bool) (old new : list port) : list port :=
  if realloc then new else assign_over old new.

(** [erase] of the first element assigns every later one to its predecessor. *)
Fixpoint vector_erase (x : port) (l : list port) : list port :=
  match l with
  | [] => []
  | y :: l => port_assign x y :: vector_erase y l
  end.

(** ** State *)

Record link_ports := LinkPorts { lp_src : Z; lp_dst : Z }.
#[export] Instance link_ports_eq_dec : EqDecision link_ports.
Proof. solve_decision. Defined.

Record dp_info := DpInfo {
  ports : list port;
  internal : gmap Z (Z * Z);
  outlinks : gmap Z (list link_ports);
  active : bool
}.
Definition empty_dp : dp_info := DpInfo [] ∅ ∅ false.
Abbreviation network := (gmap Z dp_info).

Definition set_ports (p : list port) (d : dp_info) : dp_info := DpInfo p (internal d) (outlinks d) (active d).
Definition set_internal (m : gmap Z (Z * Z)) (d : dp_info) : dp_info := DpInfo (ports d) m (outlinks d) (active d).
Definition set_outlinks (m : gmap Z (list link_ports)) (d : dp_info) : dp_info :=
  DpInfo (ports d) (internal d) m (active d).

(** The condition under which an entry is erased *)
Definition unused (d : dp_info) : bool :=
  negb (active d) && is_nil (ports d) && bool_decide (internal d = ∅) && bool_decide (outlinks d = ∅).

(** ** Queries *)

Definition get_dpinfo (dp : Z) (t : network) : dp_info :=
  match t !! dp with Some d => d | None => empty_dp end.
Definition get_outlinks_from (dpsrc : Z) (t : network) : gmap Z (list link_ports) :=
  match t !! dpsrc with Some d => outlinks d | None => outlinks empty_dp end.
Definition get_outlinks (dpsrc dpdst : Z) (t : network) : list link_ports :=
  match t !! dpsrc with
  | Some d => match outlinks d !! dpdst with Some l => l | None => [] end
  | None => []
  end.
Definition is_internal (dp port : Z) (t : network) : bool :=
  match t !! dp with
  | Some d => negb (is_none (internal d !! port))
  | None => false
  end.
Definition get_datapaths (t : network) : list Z := (map_to_list t).*1.

(** ** Datapaths and ports *)

Definition handle_datapath_join (dp : Z) (ps : list port) (realloc : bool) (t : network) : network :=
  let d := match t !! dp with Some d => d | None => empty_dp end in
  <[dp := DpInfo (vector_assign realloc (ports d) ps) (internal d) (outlinks d) true]> t.

Definition handle_datapath_leave (dp : Z) (t : network) : network :=
  match t !! dp with
  | Some d =>
      if negb (bool_decide (internal d = ∅) && bool_decide (outlinks d = ∅)) then
        <[dp := DpInfo [] (internal d) (outlinks d) false]> t
      else delete dp t
  | None => t
  end.

(** The scans of [add_port] and [delete_port] *)
Fixpoint replace_port (p : port) (l : list port) : option (list port) :=
  match l with
  | [] => None
  | x :: l => if port_no x =? port_no p then Some (port_assign x p :: l) else (x ::.) <$> replace_port p l
  end.
Fixpoint erase_port (p : port) (l : list port) : option (list port) :=
  match l with
  | [] => None
  | x :: l => if port_no x =? port_no p then Some (vector_erase x l) else (x ::.) <$> erase_port p l
  end.

Definition add_port (dp : Z) (p : port) (t : network) : network :=
  match t !! dp with
  | None => <[dp := DpInfo [p] ∅ ∅ false]> t
  | Some d =>
      <[dp := set_ports (match replace_port p (ports d) with Some l => l | None => ports d ++ [p] end) d]> t
  end.

Definition delete_port (dp : Z) (p : port) (t : network) : network :=
  match t !! dp with
  | None => t
  | Some d =>
      match erase_port p (ports d) with
      | Some l => <[dp := set_ports l d]> t
      | None => t
      end
  end.

Definition OFPPR_DELETE : Z := 1.
Definition handle_port_status (dp : Z) (reason : Z) (p : port) (t : network) : network :=
  if reason =? OFPPR_DELETE then delete_port dp p t else add_port dp p t.

(** ** Links *)

Definition add_internal (dp port : Z) (t : network) : network :=
  match t !! dp with
  | None => <[dp := DpInfo [] {[port := (port, 1)]} ∅ false]> t
  | Some d =>
      match internal d !! port with
      | None => <[dp := set_internal (<[port := (port, 1)]> (internal d)) d]> t
      | Some (p, n) => <[dp := set_internal (<[port := (p, u32 (n + 1))]> (internal d)) d]> t
      end
  end.

Definition remove_internal (dp port : Z) (t : network) : network :=
  match t !! dp with
  | None => t
  | Some d =>
      match internal d !! port with
      | None => t
      | Some (p, n) =>
          let n := u32 (n - 1) in
          if n =? 0 then
            let d := set_internal (delete port (internal d)) d in
            if unused d then delete dp t else <[dp := d]> t
          else <[dp := set_internal (<[port := (p, n)]> (internal d)) d]> t
      end
  end.

Definition add_link (e : link_event) (t : network) : network :=
  let d := match t !! dpsrc e with Some d => d | None => empty_dp end in
  let l := match outlinks d !! dpdst e with Some l => l | None => [] end in
  let t := <[dpsrc e := set_outlinks (<[dpdst e := l ++ [LinkPorts (sport e) (dport e)]]> (outlinks d)) d]> t in
  add_internal (dpdst e) (dport e) t.

(** The scan of [remove_link] erases in place; the two iterators are used again
    after [remove_internal], which may have erased entries. *)
Definition is_link (e : link_event) (lp : link_ports) : bool :=
  (lp_src lp =? sport e) && (lp_dst lp =? dport e).

Definition remove_link (e : link_event) (t : network) : res network :=
  match t !! dpsrc e with
  | None => Ret t
  | Some d =>
      match outlinks d !! dpdst e with
      | None => Ret t
      | Some l =>
          if existsb (is_link e) l then
            let l := remove_first (is_link e) l in
            let t := <[dpsrc e := set_outlinks (<[dpdst e := l]> (outlinks d)) d]> t in
            let t := remove_internal (dpdst e) (dport e) t in
            match t !! dpsrc e with
            | None => Aborted
            | Some d =>
                match outlinks d !! dpdst e with
                | None => Aborted
                | Some [] =>
                    let d := set_outlinks (delete (dpdst e) (outlinks d)) d in
                    Ret (if unused d then delete (dpsrc e) t else <[dpsrc e := d]> t)
                | Some _ => Ret t
                end
            end
          else Ret t
      end
  end.

Definition handle_link_event (e : link_event) (t : network) : res network :=
  match action e with
  | ADD => Ret (add_link e t)
  | REMOVE => remove_link e t
  end.

(** ** The component: the events it handles, one after the other *)

Inductive topo_event :=
| Datapath_join (dp : Z) (ps : list port) (realloc : bool)
| Datapath_leave (dp : Z)
| Port_status (dp reason : Z) (p : port)
| Link_change (e : link_event).

Definition handle (e : topo_event) (t : network) : res network :=
  match e with
  | Datapath_join dp ps realloc => Ret (handle_datapath_join dp ps realloc t)
  | Datapath_leave dp => Ret (handle_datapath_leave dp t)
  | Port_status dp reason p => Ret (handle_port_status dp reason p t)
  | Link_change e => handle_link_event e t
  end.

Fixpoint handle_all (es : list topo_event) (t : network) : res network :=
  match es with
  | [] => Ret t
  | e :: es => t ← handle e t; handle_all es t
  end.
