(* ===== verification/TopologyFacts.v ===== *)
(** * Topology: the abstract network and the effect of every handler

    The network is specified by the list of the links that are up, in the order
    they were added, and by the ports and the activity of every datapath.
    [rep] relates a state of the component to them; every handler preserves it. *)

From S2P Require Import Prelude Routing Topology.

Open Scope Z_scope.

(** ** Specification *)

(** A link that is up: its ends and its ports *)
Abbreviation wire := (Z * Z * link_ports)%type.
Definition event_wire (e : link_event) : wire := (dpsrc e, dpdst e, LinkPorts (sport e) (dport e)).

(** Links are added at the end; a removal takes away the oldest equal one. *)
Definition wires_after (e : topo_event) (W : list wire) : list wire :=
  match e with
  | Link_change e =>
      match action e with
      | ADD => W ++ [event_wire e]
      | REMOVE => remove_first (fun w => bool_decide (w = event_wire e)) W
      end
  | _ => W
  end.
Definition wires (es : list topo_event) : list wire := foldl (fun W e => wires_after e W) [] es.

Definition links_between (a b : Z) (W : list wire) : list link_ports :=
  snd <$> filter (fun w => w.1 = (a, b)) W.
Definition arrivals (dp p : Z) (W : list wire) : Z :=
  Z.of_nat (length (filter (fun w => w.1.2 = dp /\ lp_dst w.2 = p) W)).

(** The ports of a datapath, with whole ports stored *)
Fixpoint put_port (p : port) (l : list port) : list port :=
  match l with
  | [] => [p]
  | x :: l => if port_no x =? port_no p then p :: l else x :: put_port p l
  end.
Definition dp_after (dp : Z) (e : topo_event) (d : list port * bool) : list port * bool :=
  match e with
  | Datapath_join x ps _ => if x =? dp then (ps, true) else d
  | Datapath_leave x => if x =? dp then ([], false) else d
  | Port_status x reason p =>
      if x =? dp then
        (if reason =? OFPPR_DELETE then remove_first (fun q => port_no q =? port_no p) d.1 else put_port p d.1, d.2)
      else d
  | Link_change _ => d
  end.
Definition datapath (dp : Z) (es : list topo_event) : list port * bool :=
  foldl (fun d e => dp_after dp e d) ([], false) es.

(** Equal up to the two members that assignment forgets *)
Definition port_like (p q : port) : Prop := port_assign p q = p.

(** [d] is what the component keeps for the datapath [dp]. *)
Record dp_rep (W : list wire) (D : list port * bool) (dp : Z) (d : dp_info) : Prop := {
  d_ports : Forall2 port_like (ports d) D.1;
  d_active : active d = D.2;
  d_out b : outlinks d !! b = (let l := links_between dp b W in if is_nil l then None else Some l);
  d_in p : internal d !! p = (let n := arrivals dp p W in if n =? 0 then None else Some (p, n))
}.
Definition rep (t : network) (W : list wire) (D : Z -> list port * bool) : Prop :=
  forall dp, dp_rep W (D dp) dp (get_dpinfo dp t).

(** ** Ports *)

Lemma port_like_refl p : port_like p p.
Proof. by destruct p. Qed.
Lemma port_like_assign x y p : port_like y p -> port_like (port_assign x y) p.
Proof. destruct x, y, p. unfold port_like, port_assign. simpl. congruence. Qed.
Lemma port_like_no p q : port_like p q -> port_no p = port_no q.
Proof. destruct p, q. unfold port_like, port_assign. simpl. congruence. Qed.
Lemma ports_like_refl l : Forall2 port_like l l.
Proof. induction l; constructor; auto using port_like_refl. Qed.
#[export] Hint Resolve port_like_refl ports_like_refl port_like_assign : nox.

Lemma vector_assign_like realloc old new : Forall2 port_like (vector_assign realloc old new) new.
Proof.
  destruct realloc; [auto with nox|]. simpl. revert new.
  induction old as [|x old IH]; intros [|y new]; simpl; auto with nox.
Qed.

Lemma vector_erase_like x l D : Forall2 port_like l D -> Forall2 port_like (vector_erase x l) D.
Proof.
  intros HD. revert x. induction HD; intros z; simpl; constructor; auto with nox.
Qed.

Lemma replace_port_like p l D :
  Forall2 port_like l D ->
  Forall2 port_like (match replace_port p l with Some l => l | None => l ++ [p] end) (put_port p D).
Proof.
  induction 1 as [|x y l D Hxy HD IH]; simpl; [auto with nox|].
  rewrite <- (port_like_no _ _ Hxy). destruct (port_no x =? port_no p).
  - constructor; auto with nox.
  - destruct (replace_port p l); simpl; constructor; auto.
Qed.

Lemma erase_port_like p l D :
  Forall2 port_like l D ->
  Forall2 port_like (match erase_port p l with Some l => l | None => l end)
    (remove_first (fun q => port_no q =? port_no p) D).
Proof.
  induction 1 as [|x y l D Hxy HD IH]; simpl; [constructor|].
  rewrite <- (port_like_no _ _ Hxy). destruct (port_no x =? port_no p).
  - by apply vector_erase_like.
  - destruct (erase_port p l); simpl; constructor; auto.
Qed.

(** ** Entries *)

Lemma get_dpinfo_insert dp x d t : get_dpinfo x (<[dp := d]> t) = if bool_decide (x = dp) then d else get_dpinfo x t.
Proof.
  unfold get_dpinfo. case_bool_decide; [subst; by rewrite lookup_insert_eq|by rewrite lookup_insert_ne].
Qed.
Lemma get_dpinfo_delete dp x t :
  get_dpinfo x (delete dp t) = if bool_decide (x = dp) then empty_dp else get_dpinfo x t.
Proof.
  unfold get_dpinfo. case_bool_decide; [subst; by rewrite lookup_delete_eq|by rewrite lookup_delete_ne].
Qed.
Lemma get_dpinfo_Some dp d t : t !! dp = Some d -> get_dpinfo dp t = d.
Proof. unfold get_dpinfo. by intros ->. Qed.
Lemma get_dpinfo_None dp t : t !! dp = None -> get_dpinfo dp t = empty_dp.
Proof. unfold get_dpinfo. by intros ->. Qed.

Lemma unused_empty d : unused d = true -> d = empty_dp.
Proof.
  destruct d as [ps i o a]. unfold unused. simpl. rewrite !andb_true_iff, negb_true_iff, !bool_decide_eq_true.
  intros [[[-> ?] ->] ->]. by destruct ps.
Qed.

(** Erasing an entry nothing is left of cannot be observed. *)
Lemma get_dpinfo_drop dp x d t :
  get_dpinfo x (if unused d then delete dp t else <[dp := d]> t) = if bool_decide (x = dp) then d else get_dpinfo x t.
Proof.
  destruct (unused d) eqn:E; [|apply get_dpinfo_insert]. apply unused_empty in E. subst. apply get_dpinfo_delete.
Qed.

(** ** Lists of links *)

Lemma links_between_app a b W w :
  links_between a b (W ++ [w]) = links_between a b W ++ (if bool_decide (w.1 = (a, b)) then [w.2] else []).
Proof.
  unfold links_between. rewrite filter_app, fmap_app. f_equal. unfold filter. simpl.
  case_bool_decide; case_decide; done.
Qed.

Lemma remove_first_filter {A} `{EqDecision A} (P : A -> Prop) `{!forall x, Decision (P x)} (y : A) l :
  filter P (remove_first (fun x => bool_decide (x = y)) l) =
  if bool_decide (P y) then remove_first (fun x => bool_decide (x = y)) (filter P l) else filter P l.
Proof.
  induction l as [|x l IH]; [simpl; by case_bool_decide|]. simpl. destruct (decide (x = y)) as [->|Hxy].
  - rewrite (bool_decide_true (y = y)) by done. rewrite filter_cons. destruct (decide (P y)).
    + rewrite bool_decide_true by done. simpl. by rewrite bool_decide_true.
    + by rewrite bool_decide_false.
  - rewrite (bool_decide_false (x = y)) by done. rewrite !filter_cons. case_decide; [|exact IH].
    rewrite IH. case_bool_decide; [|done]. simpl. by rewrite (bool_decide_false (x = y)).
Qed.

Lemma links_between_remove a b W a' b' lp :
  links_between a b (remove_first (fun w => bool_decide (w = (a', b', lp))) W) =
  if bool_decide ((a', b') = (a, b)) then remove_first (fun x => bool_decide (x = lp)) (links_between a b W)
  else links_between a b W.
Proof.
  unfold links_between. rewrite remove_first_filter. simpl. case_bool_decide as E; [|done]. injection E as -> ->.
  induction W as [|[c l] W IH]; [done|]. rewrite filter_cons. simpl. case_decide as Hc; [|exact IH]. subst c.
  simpl. repeat case_bool_decide; simplify_eq; try done. simpl. f_equal. exact IH.
Qed.

Lemma arrivals_app dp p W w :
  arrivals dp p (W ++ [w]) = arrivals dp p W + (if bool_decide (w.1.2 = dp /\ lp_dst w.2 = p) then 1 else 0).
Proof.
  unfold arrivals. rewrite filter_app, length_app. unfold filter at 2. simpl.
  case_bool_decide; case_decide; simpl; try done; lia.
Qed.

Lemma remove_first_length {A} (f : A -> bool) l :
  length (remove_first f l) = (length l - if existsb f l then 1 else 0)%nat.
Proof.
  induction l as [|x l IH]; simpl; [done|]. destruct (f x); simpl; [lia|]. rewrite IH.
  destruct (existsb f l) eqn:E; simpl; [|lia]. destruct l; [done|simpl; lia].
Qed.

Lemma existsb_eq {A} `{EqDecision A} (y : A) l : existsb (fun x => bool_decide (x = y)) l = bool_decide (y ∈ l).
Proof.
  apply eq_bool_prop_intro. rewrite bool_decide_spec. unfold Is_true.
  destruct (existsb _ l) eqn:E.
  - apply existsb_exists in E as (x & Hx & ->%bool_decide_eq_true). split; [intros _|done]. by apply list_elem_of_In.
  - split; [done|]. intros Hy%list_elem_of_In. apply not_true_iff_false in E. apply E, existsb_exists.
    exists y. by rewrite bool_decide_true.
Qed.

Lemma arrivals_remove dp p W w :
  w ∈ W ->
  arrivals dp p (remove_first (fun x => bool_decide (x = w)) W) =
  arrivals dp p W - (if bool_decide (w.1.2 = dp /\ lp_dst w.2 = p) then 1 else 0).
Proof.
  intros Hw. unfold arrivals. rewrite remove_first_filter. case_bool_decide as E; [|lia].
  rewrite remove_first_length, existsb_eq.
  rewrite (bool_decide_eq_true_2 (w ∈ _)) by (by apply list_elem_of_filter).
  assert (length (filter (fun w0 => w0.1.2 = dp /\ lp_dst w0.2 = p) W) <> 0)%nat; [|lia].
  intros [=H0%length_zero_iff_nil]. apply (not_elem_of_nil w). rewrite <- H0. by apply list_elem_of_filter.
Qed.

Lemma arrivals_pos dp p W : arrivals dp p W <> 0 <-> exists a sp, (a, dp, LinkPorts sp p) ∈ W.
Proof.
  unfold arrivals. split.
  - intros Hn. destruct (filter _ W) as [|w l] eqn:E; [done|].
    assert (Hw : w ∈ filter (fun w => w.1.2 = dp /\ lp_dst w.2 = p) W) by (rewrite E; set_solver).
    apply list_elem_of_filter in Hw as [[<- <-] Hw]. destruct w as [[a b] [sp dp']]. eauto.
  - intros (a & sp & Hw) Hn. assert (Hf : (a, dp, LinkPorts sp p) ∈ filter (fun w => w.1.2 = dp /\ lp_dst w.2 = p) W)
      by (by apply list_elem_of_filter).
    destruct (filter _ W); [set_solver|simpl in Hn; lia].
Qed.

Lemma arrivals_bound dp p W : 0 <= arrivals dp p W <= Z.of_nat (length W).
Proof. unfold arrivals. pose proof (length_filter (fun w : wire => w.1.2 = dp /\ lp_dst w.2 = p) W). lia. Qed.

(** ** Every handler preserves [rep] *)

Lemma rep_init : rep ∅ [] (fun _ => ([], false)).
Proof. intros dp. unfold get_dpinfo. rewrite lookup_empty. split; simpl; auto using Forall2_nil. Qed.

Lemma rep_upd t t' W D D' dp :
  rep t W D -> (forall x, x <> dp -> get_dpinfo x t' = get_dpinfo x t /\ D' x = D x) ->
  dp_rep W (D' dp) dp (get_dpinfo dp t') -> rep t' W D'.
Proof. intros Hr Ho Hd x. destruct (decide (x = dp)) as [->|Hx]; [done|]. by destruct (Ho x Hx) as [-> ->]. Qed.

Lemma join_rep dp ps realloc t W D :
  rep t W D -> rep (handle_datapath_join dp ps realloc t) W (fun x => dp_after x (Datapath_join dp ps realloc) (D x)).
Proof.
  intros Hr. unfold handle_datapath_join. fold (get_dpinfo dp t). apply (rep_upd t _ W D _ dp Hr).
  - intros x Hx. rewrite get_dpinfo_insert, bool_decide_false by done. simpl. by destruct (Z.eqb_spec dp x); [subst|].
  - rewrite get_dpinfo_insert, bool_decide_true by done. destruct (Hr dp) as [H1 H2 H3 H4]. simpl. rewrite Z.eqb_refl.
    split; simpl; auto using vector_assign_like.
Qed.

Lemma leave_rep dp t W D :
  rep t W D -> rep (handle_datapath_leave dp t) W (fun x => dp_after x (Datapath_leave dp) (D x)).
Proof.
  intros Hr. apply (rep_upd t _ W D _ dp Hr).
  - intros x Hx. simpl. split; [|by destruct (Z.eqb_spec dp x); [subst|]]. unfold handle_datapath_leave.
    destruct (t !! dp); [|done]. case_match; rewrite ?get_dpinfo_insert, ?get_dpinfo_delete, bool_decide_false; done.
  - simpl. rewrite Z.eqb_refl. unfold handle_datapath_leave. pose proof (Hr dp) as [H1 H2 H3 H4].
    unfold get_dpinfo in H3, H4. destruct (t !! dp) as [d|] eqn:E.
    + destruct (negb _) eqn:Eb.
      * rewrite get_dpinfo_insert, bool_decide_true by done. split; simpl; auto.
      * rewrite get_dpinfo_delete, bool_decide_true by done. apply negb_false_iff, andb_true_iff in Eb.
        rewrite !bool_decide_eq_true in Eb. destruct Eb as [Ei Eo]. rewrite Ei in H4. rewrite Eo in H3.
        split; simpl; auto.
    + unfold get_dpinfo. rewrite E. split; simpl; auto.
Qed.

Lemma status_rep dp reason p t W D :
  rep t W D -> rep (handle_port_status dp reason p t) W (fun x => dp_after x (Port_status dp reason p) (D x)).
Proof.
  intros Hr. unfold handle_port_status. apply (rep_upd t _ W D _ dp Hr).
  - intros x Hx. simpl. split; [|by destruct (Z.eqb_spec dp x); [subst|]]. unfold delete_port, add_port.
    repeat case_match; rewrite ?get_dpinfo_insert, ?bool_decide_false; done.
  - simpl. rewrite Z.eqb_refl. pose proof (Hr dp) as [H1 H2 H3 H4]. destruct (reason =? OFPPR_DELETE).
    + pose proof (erase_port_like p _ _ H1) as He. unfold delete_port.
      destruct (t !! dp) as [d|] eqn:E; [rewrite (get_dpinfo_Some _ _ _ E) in *|by unfold get_dpinfo in *; rewrite E in *].
      destruct (erase_port p (ports d)); [|rewrite (get_dpinfo_Some _ _ _ E); by split].
      rewrite get_dpinfo_insert, bool_decide_true by done. by split.
    + pose proof (replace_port_like p _ _ H1) as He. unfold add_port.
      destruct (t !! dp) as [d|] eqn:E; rewrite get_dpinfo_insert, bool_decide_true by done;
        [rewrite (get_dpinfo_Some _ _ _ E) in *|unfold get_dpinfo in *; rewrite E in *]; by split.
Qed.

(** The counters of arriving links *)

Definition bump (p : Z) (m : gmap Z (Z * Z)) : gmap Z (Z * Z) :=
  match m !! p with None => <[p := (p, 1)]> m | Some (q, n) => <[p := (q, u32 (n + 1))]> m end.
Definition unbump (p : Z) (m : gmap Z (Z * Z)) : gmap Z (Z * Z) :=
  match m !! p with
  | None => m
  | Some (q, n) => if u32 (n - 1) =? 0 then delete p m else <[p := (q, u32 (n - 1))]> m
  end.

Lemma add_internal_info x dp p t :
  get_dpinfo x (add_internal dp p t) =
  if bool_decide (x = dp) then set_internal (bump p (internal (get_dpinfo dp t))) (get_dpinfo dp t) else get_dpinfo x t.
Proof.
  unfold add_internal, bump. destruct (t !! dp) as [d|] eqn:E.
  - rewrite (get_dpinfo_Some _ _ _ E). destruct (internal d !! p) as [[q n]|]; apply get_dpinfo_insert.
  - rewrite get_dpinfo_insert, (get_dpinfo_None _ _ E). case_bool_decide; [|done]. simpl. by rewrite lookup_empty.
Qed.

Lemma remove_internal_info x dp p t :
  get_dpinfo x (remove_internal dp p t) =
  if bool_decide (x = dp) then set_internal (unbump p (internal (get_dpinfo dp t))) (get_dpinfo dp t)
  else get_dpinfo x t.
Proof.
  unfold remove_internal, unbump. destruct (t !! dp) as [d|] eqn:E.
  - rewrite (get_dpinfo_Some _ _ _ E). destruct (internal d !! p) as [[q n]|].
    + destruct (u32 (n - 1) =? 0); [apply get_dpinfo_drop|apply get_dpinfo_insert].
    + case_bool_decide; [|done]. subst. rewrite (get_dpinfo_Some _ _ _ E). by destruct d.
  - case_bool_decide; [|done]. subst. by rewrite !(get_dpinfo_None _ _ E).
Qed.

(** What the counters must be *)
Definition counts (dp : Z) (W : list wire) (m : gmap Z (Z * Z)) : Prop :=
  forall p, m !! p = (let n := arrivals dp p W in if n =? 0 then None else Some (p, n)).

Lemma bump_counts dp W m a p sp :
  Z.of_nat (length W) + 1 < 2 ^ 32 -> counts dp W m -> counts dp (W ++ [(a, dp, LinkPorts sp p)]) (bump p m).
Proof.
  intros Hl Hm q. cbv zeta. rewrite arrivals_app. simpl. pose proof (arrivals_bound dp q W). unfold bump.
  rewrite (Hm p). cbv zeta. destruct (decide (p = q)) as [->|Hpq].
  - rewrite bool_decide_true by done. destruct (Z.eqb_spec (arrivals dp q W) 0) as [E|E].
    + rewrite lookup_insert_eq, E. done.
    + rewrite lookup_insert_eq. destruct (Z.eqb_spec (arrivals dp q W + 1) 0); [lia|]. unfold wrap.
      by rewrite Z.mod_small by lia.
  - rewrite bool_decide_false by naive_solver. rewrite Z.add_0_r.
    destruct (arrivals dp p W =? 0); rewrite lookup_insert_ne by done; apply Hm.
Qed.

Lemma unbump_counts dp W m a p sp :
  Z.of_nat (length W) < 2 ^ 32 -> (a, dp, LinkPorts sp p) ∈ W -> counts dp W m ->
  counts dp (remove_first (fun w => bool_decide (w = (a, dp, LinkPorts sp p))) W) (unbump p m).
Proof.
  intros Hl Hw Hm q. cbv zeta. rewrite arrivals_remove by done. simpl. pose proof (arrivals_bound dp q W).
  assert (Hp : arrivals dp p W <> 0) by (apply arrivals_pos; eauto). unfold unbump. rewrite (Hm p). cbv zeta.
  destruct (Z.eqb_spec (arrivals dp p W) 0); [done|]. destruct (decide (p = q)) as [->|Hpq].
  - rewrite bool_decide_true by done. unfold wrap. rewrite Z.mod_small by lia.
    destruct (arrivals dp q W - 1 =? 0); [apply lookup_delete_eq|apply lookup_insert_eq].
  - rewrite bool_decide_false by naive_solver. rewrite Z.sub_0_r.
    case_match; rewrite ?lookup_delete_ne, ?lookup_insert_ne by done; apply Hm.
Qed.

Lemma other_counts dp W w m : w.1.2 <> dp -> counts dp W m -> counts dp (W ++ [w]) m.
Proof.
  intros Hw Hm p. cbv zeta. rewrite arrivals_app, bool_decide_false, Z.add_0_r by naive_solver. apply Hm.
Qed.
Lemma other_counts_remove dp W w m :
  w ∈ W -> w.1.2 <> dp -> counts dp W m -> counts dp (remove_first (fun x => bool_decide (x = w)) W) m.
Proof.
  intros Hin Hw Hm p. cbv zeta. rewrite arrivals_remove, bool_decide_false, Z.sub_0_r by naive_solver. apply Hm.
Qed.

(** The lists of outgoing links *)

Definition outs (a : Z) (W : list wire) (m : gmap Z (list link_ports)) : Prop :=
  forall b, m !! b = (let l := links_between a b W in if is_nil l then None else Some l).

Lemma outs_default a b W m : outs a W m -> match m !! b with Some l => l | None => [] end = links_between a b W.
Proof. intros Hm. rewrite (Hm b). cbv zeta. by destruct (links_between a b W). Qed.

Lemma outs_add a b lp W m :
  outs a W m -> outs a (W ++ [(a, b, lp)]) (<[b := links_between a b W ++ [lp]]> m).
Proof.
  intros Hm c. cbv zeta. rewrite links_between_app. simpl. destruct (decide (b = c)) as [->|Hbc].
  - rewrite lookup_insert_eq, bool_decide_true by done. by destruct (links_between a c W).
  - rewrite lookup_insert_ne, bool_decide_false by naive_solver. rewrite app_nil_r. apply Hm.
Qed.

Lemma outs_other a W w m : w.1.1 <> a -> outs a W m -> outs a (W ++ [w]) m.
Proof.
  intros Hw Hm c. cbv zeta. rewrite links_between_app, bool_decide_false, app_nil_r; [apply Hm|].
  destruct w as [[? ?] ?]. naive_solver.
Qed.

Lemma outs_remove a b lp W m :
  outs a W m ->
  let l := remove_first (fun x => bool_decide (x = lp)) (links_between a b W) in
  outs a (remove_first (fun w => bool_decide (w = (a, b, lp))) W) (if is_nil l then delete b m else <[b := l]> m).
Proof.
  intros Hm l c. cbv zeta. rewrite links_between_remove. destruct (decide (b = c)) as [->|Hbc].
  - rewrite bool_decide_true by done. fold l. destruct l; simpl; [apply lookup_delete_eq|apply lookup_insert_eq].
  - rewrite bool_decide_false by naive_solver.
    destruct (is_nil l); rewrite ?lookup_delete_ne, ?lookup_insert_ne by done; apply Hm.
Qed.

Lemma outs_remove_other a W w m :
  w.1.1 <> a -> outs a W m -> outs a (remove_first (fun x => bool_decide (x = w)) W) m.
Proof.
  intros Hw Hm c. destruct w as [[a' b'] lp]. cbv zeta. rewrite links_between_remove, bool_decide_false by naive_solver.
  apply Hm.
Qed.

Lemma links_between_elem a b lp W : lp ∈ links_between a b W <-> (a, b, lp) ∈ W.
Proof.
  unfold links_between. rewrite list_elem_of_fmap. split.
  - intros ([c x] & -> & [Hc Hx]%list_elem_of_filter). simpl in *. by subst.
  - intros Hw. exists (a, b, lp). split; [done|]. by apply list_elem_of_filter.
Qed.

Lemma add_link_info x e t :
  let i := get_dpinfo x t in
  get_dpinfo x (add_link e t) =
  DpInfo (ports i) (if bool_decide (x = dpdst e) then bump (dport e) (internal i) else internal i)
    (if bool_decide (x = dpsrc e) then
       <[dpdst e := match outlinks i !! dpdst e with Some l => l | None => [] end ++ [LinkPorts (sport e) (dport e)]]>
         (outlinks i)
     else outlinks i) (active i).
Proof.
  unfold add_link. fold (get_dpinfo (dpsrc e) t). rewrite add_internal_info, !get_dpinfo_insert.
  repeat case_bool_decide; subst; try congruence; rewrite ?H0 in *; by destruct (get_dpinfo _ t).
Qed.

Lemma add_link_rep e t W D :
  Z.of_nat (length W) + 1 < 2 ^ 32 -> rep t W D -> rep (add_link e t) (W ++ [event_wire e]) D.
Proof.
  intros Hl Hr x. rewrite add_link_info. cbv zeta. destruct (Hr x) as [H1 H2 H3 H4]. split; simpl; [done|done| |].
  - case_bool_decide; [subst x|by apply outs_other]. rewrite (outs_default (dpsrc e) (dpdst e) W) by done.
    by apply outs_add.
  - case_bool_decide; [subst x; by apply bump_counts|by apply other_counts].
Qed.

(** The scan compares both ports. *)
Lemma is_link_eq e : forall lp, is_link e lp = bool_decide (lp = LinkPorts (sport e) (dport e)).
Proof.
  intros [s d]. unfold is_link. simpl. apply eq_bool_prop_intro. rewrite bool_decide_spec. unfold Is_true.
  destruct (Z.eqb_spec s (sport e)), (Z.eqb_spec d (dport e)); simpl; naive_solver congruence.
Qed.
Lemma remove_first_ext {A} (f g : A -> bool) l : (forall x, f x = g x) -> remove_first f l = remove_first g l.
Proof. intros Hfg. induction l as [|x l IH]; simpl; [done|]. by rewrite Hfg, IH. Qed.
Lemma existsb_same {A} (f g : A -> bool) l : (forall x, f x = g x) -> existsb f l = existsb g l.
Proof. intros Hfg. induction l as [|x l IH]; simpl; [done|]. by rewrite Hfg, IH. Qed.
Lemma remove_first_absent {A} (f : A -> bool) l : existsb f l = false -> remove_first f l = l.
Proof. induction l as [|x l IH]; simpl; [done|]. destruct (f x); simpl; [done|]. intros. by rewrite IH. Qed.

(** The iterators of [remove_link] stay valid, and the removal is exact. *)
Lemma remove_link_spec e t :
  exists t', remove_link e t = Ret t' /\ forall x, let i := get_dpinfo x t in
  let l := match outlinks (get_dpinfo (dpsrc e) t) !! dpdst e with Some l => l | None => [] end in
  let l' := remove_first (is_link e) l in
  get_dpinfo x t' =
  if existsb (is_link e) l then
    DpInfo (ports i) (if bool_decide (x = dpdst e) then unbump (dport e) (internal i) else internal i)
      (if bool_decide (x = dpsrc e) then
         if is_nil l' then delete (dpdst e) (outlinks i) else <[dpdst e := l']> (outlinks i)
       else outlinks i) (active i)
  else i.
Proof.
  unfold remove_link. set (a := dpsrc e). set (b := dpdst e). destruct (t !! a) as [d|] eqn:Ea.
  2: { rewrite (get_dpinfo_None _ _ Ea). simpl. rewrite lookup_empty. eauto. }
  rewrite (get_dpinfo_Some _ _ _ Ea). destruct (outlinks d !! b) as [l|] eqn:Eb; [|simpl; eauto].
  destruct (existsb (is_link e) l) eqn:Ex; [|eauto]. set (l' := remove_first (is_link e) l).
  set (d1 := set_outlinks (<[b:=l']> (outlinks d)) d). set (t1 := <[a:=d1]> t).
  pose proof (remove_internal_info a b (dport e) t1) as Hi.
  assert (Ed : exists m, get_dpinfo a (remove_internal b (dport e) t1) = set_internal m d1 /\
    m = if bool_decide (a = b) then unbump (dport e) (internal d) else internal d).
  { rewrite Hi. unfold t1. rewrite !get_dpinfo_insert, (bool_decide_true (a = a)) by done.
    case_bool_decide as Eab; [rewrite <- Eab, bool_decide_true by done|]; eexists; split; done. }
  destruct Ed as (m & Ed & Em). unfold get_dpinfo in Ed at 1.
  destruct (remove_internal b (dport e) t1 !! a) as [d2|] eqn:E2.
  2: { exfalso. apply (f_equal (fun d => outlinks d !! b)) in Ed. simpl in Ed. by rewrite lookup_insert_eq in Ed. }
  subst d2. unfold d1 at 1. simpl. rewrite lookup_insert_eq.
  assert (Hother : forall x, get_dpinfo x (remove_internal b (dport e) t1) =
    let i := if bool_decide (x = a) then d1 else get_dpinfo x t in
    if bool_decide (x = b) then set_internal (unbump (dport e) (internal i)) i else i).
  { intros x. rewrite remove_internal_info. unfold t1. rewrite !get_dpinfo_insert. cbv zeta.
    by split_decide (x = b); subst. }
  destruct l' as [|lp l'']; (eexists; split; [done|]); intros x; cbv zeta; simpl.
  - rewrite get_dpinfo_drop, Hother. cbv zeta. split_decide (x = a); subst.
    + rewrite (get_dpinfo_Some _ _ _ Ea). unfold d1. simpl. by rewrite delete_insert_eq.
    + split_decide (x = b); by destruct (get_dpinfo x t).
  - rewrite Hother. cbv zeta. split_decide (x = a); subst.
    + rewrite (get_dpinfo_Some _ _ _ Ea). by split_decide (a = b).
    + split_decide (x = b); by destruct (get_dpinfo x t).
Qed.

Lemma remove_link_rep e t W D :
  Z.of_nat (length W) < 2 ^ 32 -> rep t W D ->
  exists t', remove_link e t = Ret t' /\ rep t' (remove_first (fun w => bool_decide (w = event_wire e)) W) D.
Proof.
  intros Hl Hr. destruct (remove_link_spec e t) as (t' & Et & Hi). exists t'. split; [done|]. intros x.
  rewrite Hi. cbv zeta. rewrite (outs_default (dpsrc e) (dpdst e) W) by (intros b; apply (Hr (dpsrc e))).
  rewrite (remove_first_ext _ _ _ (is_link_eq e)).
  assert (Ex : existsb (is_link e) (links_between (dpsrc e) (dpdst e) W) = bool_decide (event_wire e ∈ W)).
  { rewrite (existsb_same _ _ _ (is_link_eq e)), existsb_eq. apply bool_decide_ext, links_between_elem. }
  rewrite Ex. destruct (Hr x) as [H1 H2 H3 H4]. case_bool_decide as Hw.
  - split; simpl; [done|done| |].
    + case_bool_decide; [subst x; by apply outs_remove|by apply outs_remove_other].
    + case_bool_decide; [subst x; by apply unbump_counts|by apply other_counts_remove].
  - rewrite remove_first_absent; [done|]. rewrite existsb_eq. by apply bool_decide_eq_false.
Qed.

(** ** Any sequence of events *)

Lemma wires_length es : (length (wires es) <= length es)%nat.
Proof.
  induction es as [|e es IH] using rev_ind; [done|]. unfold wires. rewrite foldl_snoc, length_app. fold (wires es).
  simpl. destruct e as [| | |e]; simpl; try lia. destruct (action e); [rewrite length_app; simpl; lia|].
  rewrite remove_first_length. lia.
Qed.

Lemma handle_rep e es t :
  Z.of_nat (length es) + 1 < 2 ^ 32 -> rep t (wires es) (fun dp => datapath dp es) ->
  exists t', handle e t = Ret t' /\ rep t' (wires (es ++ [e])) (fun dp => datapath dp (es ++ [e])).
Proof.
  intros Hl Hr. pose proof (wires_length es). unfold wires at 1. rewrite foldl_snoc. fold (wires es).
  assert (Hd : forall t', rep t' (wires_after e (wires es)) (fun dp => dp_after dp e (datapath dp es)) ->
    rep t' (wires_after e (wires es)) (fun dp => datapath dp (es ++ [e]))).
  { intros t' Ht x. unfold datapath. rewrite foldl_snoc. apply Ht. }
  destruct e as [dp ps r|dp|dp reason p|e]; simpl.
  - eexists. split; [done|]. apply Hd. by apply join_rep.
  - eexists. split; [done|]. apply Hd. by apply leave_rep.
  - eexists. split; [done|]. apply Hd. by apply status_rep.
  - unfold handle_link_event. simpl in Hd. destruct (action e).
    + eexists. split; [done|]. apply Hd. apply add_link_rep; [lia|done].
    + destruct (remove_link_rep e t (wires es) (fun dp => datapath dp es)) as (t' & E & Ht); [lia|done|]. eauto.
Qed.

Lemma handle_all_app es1 es2 t : handle_all (es1 ++ es2) t = (t ← handle_all es1 t; handle_all es2 t).
Proof. revert t. induction es1 as [|e es1 IH]; intros t; simpl; [done|]. destruct (handle e t); simpl; auto. Qed.

Lemma handle_all_rep es :
  Z.of_nat (length es) < 2 ^ 32 ->
  exists t, handle_all es ∅ = Ret t /\ rep t (wires es) (fun dp => datapath dp es).
Proof.
  induction es as [|e es IH] using rev_ind; intros Hl; [exists ∅; split; [done|apply rep_init]|].
  rewrite length_app in Hl. simpl in Hl. destruct IH as (t & Et & Hr); [lia|].
  destruct (handle_rep e es t) as (t' & Et' & Hr'); [lia|done|]. exists t'. split; [|done].
  rewrite handle_all_app, Et. simpl. rewrite Et'. done.
Qed.
