(* ===== verification/TopologyProps.v ===== *)
(** * Topology: what the other applications rely on *)

From S2P Require Import Prelude Routing RoutingFacts RoutingProps Topology TopologyFacts.

Open Scope Z_scope.


(** Two switches, a link each way, one of them lost; then a switch leaves. *)
Definition small_network : list topo_event :=
  [Datapath_join 1 [Port 10 [] 0 0 0 0 0 0 0 0] false; Datapath_join 2 [Port 20 [] 0 0 0 0 0 0 0 0] false;
   Link_change (Link_event 1 2 10 20 ADD); Link_change (Link_event 2 1 20 10 ADD);
   Link_change (Link_event 1 2 10 20 REMOVE); Datapath_leave 2].


(** Assignment of ports forgets the link state and the address: after a
    port-status message that reports port 7 down, the stored port is still up,
    and after port 7 was deleted, the stored port 8 carries the hardware
    address of port 7. *)
Theorem port_state_is_lost :
  let up n hw := Port n [] 1000 0 0 0 0 0 0 hw in
  let down n hw := Port n [] 1000 0 1 0 0 0 0 hw in
  forall realloc,
  (exists t, handle_all [Datapath_join 5 [up 7 70; up 8 80] realloc; Port_status 5 2 (down 7 70)] ∅ = Ret t /\
     state <$> ports (get_dpinfo 5 t) = [0; 0] /\
     state <$> (datapath 5 [Datapath_join 5 [up 7 70; up 8 80] realloc; Port_status 5 2 (down 7 70)]).1 = [1; 0]) /\
  (exists t, handle_all [Datapath_join 5 [up 7 70; up 8 80] realloc; Port_status 5 1 (up 7 70)] ∅ = Ret t /\
     (fun p => (port_no p, hw_addr p)) <$> ports (get_dpinfo 5 t) = [(8, 70)]).
Proof. intros up down [|]; split; eexists; (split; [reflexivity|]); vm_compute; auto. Qed.

(** ** Routes and the topology *)

Definition link_events (es : list topo_event) : list link_event :=
  omap (fun e => match e with Link_change e => Some e | _ => None end) es.

Lemma up_wires es a l :
  (a, l) ∈ up (link_events es) -> (a, l_dst l, LinkPorts (outport l) (inport l)) ∈ wires es.
Proof.
  revert a l. induction es as [|e es IH] using rev_ind; intros a l; [done|]. unfold wires, link_events.
  rewrite omap_app, foldl_snoc. fold (wires es) (link_events es). destruct e as [| | |e]; simpl; rewrite ?app_nil_r; auto.
  unfold up. rewrite foldl_snoc. fold (up (link_events es)). unfold up_after. destruct (action e).
  - intros [Hu|Hu%elem_of_singleton]%elem_of_union; apply elem_of_app; [auto|]. right. injection Hu as -> ->. set_solver.
  - intros [Hu Hne]%elem_of_difference. apply IH in Hu.
    assert (Hw : (a, l_dst l, LinkPorts (outport l) (inport l)) <> event_wire e).
    { intros [= -> Hd Hs Hp]. apply Hne. apply elem_of_singleton. unfold event_key, event_link. destruct l. simpl in *.
      congruence. }
    revert Hu. generalize (wires es). intros W. induction W as [|w W IHW]; simpl; [done|].
    intros [<-|Hu]%elem_of_cons; [by rewrite bool_decide_false by done; left|].
    case_bool_decide; [done|]. right. auto.
Qed.

(** Every hop of the route is a link the topology knows, into an internal port. *)
Fixpoint known_hops (t : network) (a : Z) (p : list link) : Prop :=
  match p with
  | [] => True
  | l :: p =>
      LinkPorts (outport l) (inport l) ∈ get_outlinks a (l_dst l) t /\ is_internal (l_dst l) (inport l) t = true /\
      known_hops t (l_dst l) p
  end.

Lemma walk_known es t U a p b :
  rep t (wires es) (fun dp => datapath dp es) -> U ⊆ up (link_events es) -> walk U a p b -> known_hops t a p.
Proof.
  intros Hr HU. revert a. induction p as [|l p IH]; intros a; simpl; [done|]. intros [Hl Hw].
  apply HU, up_wires in Hl. split_and!; [| |by apply IH].
  - destruct (Hr a) as [_ _ H3 _]. rewrite <- links_between_elem, <- (outs_default _ _ _ _ H3) in Hl.
    unfold get_outlinks, get_dpinfo in *. destruct (t !! a); [done|]. simpl in Hl. by rewrite lookup_empty in Hl.
  - destruct (Hr (l_dst l)) as [_ _ _ H4]. specialize (H4 (inport l)). cbv zeta in H4.
    destruct (Z.eqb_spec (arrivals (l_dst l) (inport l) (wires es)) 0) as [E|_].
    { exfalso. revert E. apply arrivals_pos. eauto. }
    unfold is_internal, get_dpinfo in *. destruct (t !! l_dst l); [by rewrite H4|]. simpl in H4.
    by rewrite lookup_empty in H4.
Qed.


(** The events of [link_fails], after both ends of the links joined *)
Definition link_fails_network : list topo_event := Datapath_join 2 [] false :: (Link_change <$> link_fails).

