(* ===== verification/Hosttracker.v ===== *)
(** * Host locations (src/nox/netapps/hoststate/hosttracker.cc, trackhost_pktin.cc)

    [hosttracker] keeps, for every host, the last few places (datapath and port)
    where it was seen, with the time.  [trackhost_pktin] reports the sources of
    packets that arrive on ports that lead to no other switch.

    The time is an argument.  [Aborted] is a dereference or erasure of the end
    of a list.  The order in which the hash table is traversed is left open. *)

From S2P Require Import Prelude Bytes Buffer Ethernetaddr Flow Switch Topology.

Open Scope Z_scope.

(** ** State *)

Record location := Location { dpid : Z; lport : Z; lastTime : Z }.
#[export] Instance location_eq_dec : EqDecision location.
Proof. solve_decision. Defined.

(** Hosts are identified by the six bytes of their address. *)
Abbreviation host := bytes.
Abbreviation locations := (gmap bytes (list location)).

Record tracker := Tracker {
  hostTimeout : Z;
  defaultnBindings : Z;
  nBindings : gmap bytes Z;
  hostlocation : locations
}.
Definition DEFAULT_HOST_N_BINDINGS : Z := 1.
Definition DEFAULT_HOST_TIMEOUT : Z := 300.

(** [configure] *)
Definition configure : tracker := Tracker DEFAULT_HOST_TIMEOUT DEFAULT_HOST_N_BINDINGS ∅ ∅.

Definition set_hostlocation (m : locations) (s : tracker) : tracker :=
  Tracker (hostTimeout s) (defaultnBindings s) (nBindings s) m.

(** What the component asks of the dispatcher: events and calls of
    [check_timeout] after some seconds. *)
Inductive location_change := LOC_ADD | LOC_REMOVE | LOC_MODIFY.
Inductive posted :=
| Host_location_event (h : host) (l : list location) (t : location_change)
| Check_timeout_in (secs : Z).

(** ** The oldest and the newest location of a list

    The scans keep an iterator; here its index, with the element. *)

Fixpoint scan (better : location -> location -> bool) (i j : nat) (best : location) (l : list location)
    : nat * location :=
  match l with
  | [] => (i, best)
  | x :: l => if better x best then scan better j (S j) x l else scan better i (S j) best l
  end.
Definition get_oldest (l : list location) : option (nat * location) :=
  match l with [] => None | x :: _ => Some (scan (fun a b => lastTime a <? lastTime b) 0 0 x l) end.
Definition get_newest (l : list location) : option (nat * location) :=
  match l with [] => None | x :: _ => Some (scan (fun a b => lastTime b <? lastTime a) 0 0 x l) end.

Definition getBindingNumber (h : host) (s : tracker) : Z := default (defaultnBindings s) (nBindings s !! h).

(** ** Adding and removing locations *)

Definition same_place (a b : location) : bool := (dpid a =? dpid b) && (lport a =? lport b).

(** [k->lastTime = loc.lastTime] at the place found by the scan; [None] when the
    scan reaches the end *)
Fixpoint touch (loc : location) (l : list location) : option (list location) :=
  match l with
  | [] => None
  | k :: l => if same_place k loc then Some (Location (dpid k) (lport k) (lastTime loc) :: l)
              else (k ::.) <$> touch loc l
  end.

(** [while (size() >= getBindingNumber(host)) erase(get_oldest())]: with no
    binding left to erase, the end is erased. *)
Fixpoint make_room (fuel : nat) (n : Z) (l : list location) : res (list location) :=
  if n <=? Z.of_nat (length l) then
    match fuel, get_oldest l with
    | S fuel, Some (i, _) => make_room fuel n (delete i l)
    | _, _ => Aborted
    end
  else Ret l.

Definition add_location_at (h : host) (loc : location) (postEvent : bool) (s : tracker)
    : res (list posted * tracker) :=
  '(evs, s) ←
    match hostlocation s !! h with
    | None =>
        Ret (if postEvent then [Host_location_event h [loc] LOC_ADD] else [],
             set_hostlocation (<[h := [loc]]> (hostlocation s)) s)
    | Some [] => Aborted
    | Some l =>
        match touch loc l with
        | None =>
            l ← make_room (length l) (getBindingNumber h s) l;
            let l := loc :: l in
            Ret (if postEvent then [Host_location_event h l LOC_MODIFY] else [],
                 set_hostlocation (<[h := l]> (hostlocation s)) s)
        | Some l => Ret ([], set_hostlocation (<[h := l]> (hostlocation s)) s)
        end
    end;
  Ret (if decide (hostlocation s = ∅) then evs ++ [Check_timeout_in (hostTimeout s)] else evs, s).

(** The variant with a default time *)
Definition add_location (h : host) (dp port tv now : Z) (postEvent : bool) (s : tracker)
    : res (list posted * tracker) :=
  let tv := if tv =? 0 then now else tv in
  add_location_at h (Location dp port tv) postEvent s.

Definition remove_location_at (h : host) (loc : location) (postEvent : bool) (s : tracker)
    : list posted * tracker :=
  match hostlocation s !! h with
  | Some l =>
      let l' := filter (fun k => negb ((dpid k =? dpid loc) || (lport k =? lport loc))) l in
      let changed := negb (Nat.eqb (length l') (length l)) in
      (if postEvent && changed
       then [Host_location_event h l' (if is_nil l' then LOC_REMOVE else LOC_MODIFY)] else [],
       set_hostlocation (if is_nil l' then delete h (hostlocation s) else <[h := l']> (hostlocation s)) s)
  | None => ([], s)
  end.
Definition remove_location (h : host) (dp port : Z) (postEvent : bool) (s : tracker) : list posted * tracker :=
  remove_location_at h (Location dp port 0) postEvent s.

(** ** Timeouts *)

Section order.
Context (traverse : locations -> list (bytes * list location)).

(** [oldest_host]: the address 0 when there is none. *)
Fixpoint oldest_scan (oldest : host) (oldest_time : Z) (l : list (bytes * list location)) : res host :=
  match l with
  | [] => Ret oldest
  | (h, ls) :: l =>
      match get_oldest ls with
      | None => Aborted
      | Some (_, o) =>
          if (oldest_time =? 0) || (lastTime o <? oldest_time) then oldest_scan h (lastTime o) l
          else oldest_scan oldest oldest_time l
      end
  end.
Definition oldest_host (s : tracker) : res host := oldest_scan (octet (of_id 0)) 0 (traverse (hostlocation s)).

(** The loop of [check_timeout] *)
Fixpoint timeout_loop (fuel : nat) (now : Z) (s : tracker) : res (list posted * tracker) :=
  h ← oldest_host s;
  match hostlocation s !! h with
  | None => Ret ([], s)
  | Some l =>
      match get_oldest l with
      | None => Aborted
      | Some (j, o) =>
          if lastTime o + hostTimeout s <? now then
            match fuel with
            | O => NoFuel
            | S fuel =>
                let l := delete j l in
                timeout_loop fuel now
                  (set_hostlocation (if is_nil l then delete h (hostlocation s) else <[h := l]> (hostlocation s)) s)
            end
          else Ret ([Check_timeout_in (lastTime o + hostTimeout s - now)], s)
      end
  end.
Definition check_timeout (fuel : nat) (now : Z) (s : tracker) : res (list posted * tracker) :=
  if decide (hostlocation s = ∅) then Ret ([], s) else timeout_loop fuel now s.
End order.

(** ** Queries *)

Definition get_locations (h : host) (s : tracker) : list location := default [] (hostlocation s !! h).
Definition get_latest_location (h : host) (s : tracker) : location :=
  match get_newest (get_locations h s) with Some (_, l) => l | None => Location 0 0 0 end.
Definition get_hosts (traverse : locations -> list (bytes * list location)) (s : tracker) : list host :=
  (traverse (hostlocation s)).*1.

(** ** [trackhost_pktin]

    [after] are the two bytes behind the source address, which [is_broadcast]
    reads and discards. *)
Definition handle_pkt_in (after : bytes) (dp in_port : Z) (f : flow) (now : Z) (t : network) (s : tracker)
    : res (list posted * tracker) :=
  if dl_type f =? LLDP then Ret ([], s)
  else if negb (is_internal dp in_port t) && negb (is_multicast (dl_src f)) && negb (is_broadcast after (dl_src f))
  then add_location (octet (dl_src f)) dp in_port 0 now true s
  else Ret ([], s).
