(* ===== verification/HosttrackerFacts.v ===== *)
(** * Host locations: the scans, the invariant and the effect of the operations *)

From S2P Require Import Prelude Bytes Ethernetaddr Hosttracker.

Open Scope Z_scope.

(** ** The scans find the first best element *)

Lemma scan_spec (f : location -> Z) L i j best pre l r x :
  scan (fun a b => f a <? f b) i j best l = (r, x) ->
  L = pre ++ l -> length pre = j -> L !! i = Some best -> (forall y, y ∈ pre -> f best <= f y) ->
  L !! r = Some x /\ forall y, y ∈ L -> f x <= f y.
Proof.
  revert i j best pre. induction l as [|y l IH]; intros i j best pre; simpl.
  { intros [= <- <-] -> _ Hi Hpre. rewrite app_nil_r in *. done. }
  intros E HL Hj Hi Hpre. rewrite (cons_middle y pre l) in HL. destruct (Z.ltb_spec (f y) (f best)).
  - apply IH with (pre := pre ++ [y]) in E; [done|by rewrite <- app_assoc|rewrite length_app; simpl; lia| |].
    + subst. rewrite lookup_app_r by lia. rewrite Nat.sub_diag. done.
    + intros z [Hz| ->%list_elem_of_singleton]%elem_of_app; [|lia]. specialize (Hpre z Hz). lia.
  - apply IH with (pre := pre ++ [y]) in E; [done|by rewrite <- app_assoc|rewrite length_app; simpl; lia|done|].
    intros z [Hz| ->%list_elem_of_singleton]%elem_of_app; [by apply Hpre|lia].
Qed.

Lemma scan_ext b1 b2 i j best l : (forall a b, b1 a b = b2 a b) -> scan b1 i j best l = scan b2 i j best l.
Proof.
  intros Hb. revert i j best. induction l as [|x l IH]; intros i j best; simpl; [done|]. rewrite Hb.
  destruct (b2 x best); apply IH.
Qed.

Lemma get_oldest_Some l i x : get_oldest l = Some (i, x) -> l !! i = Some x /\ forall y, y ∈ l -> lastTime x <= lastTime y.
Proof.
  destruct l as [|a l]; [done|]. unfold get_oldest. intros E%(inj Some).
  apply (scan_spec lastTime (a :: l) _ _ _ []) in E; [done|done|done|done|set_solver].
Qed.
Lemma get_newest_Some l i x : get_newest l = Some (i, x) -> l !! i = Some x /\ forall y, y ∈ l -> lastTime y <= lastTime x.
Proof.
  destruct l as [|a l]; [done|]. unfold get_newest. intros E%(inj Some).
  erewrite scan_ext in E; [apply (scan_spec (fun a => - lastTime a) (a :: l) _ _ _ []) in E; [|done|done|done|set_solver]|].
  - destruct E as [E1 E2]. split; [done|]. intros y Hy. specialize (E2 y Hy). lia.
  - intros b c. simpl. destruct (Z.ltb_spec (lastTime c) (lastTime b)), (Z.ltb_spec (- lastTime b) (- lastTime c)); lia.
Qed.
Lemma get_oldest_nonempty l : l <> [] -> exists i x, get_oldest l = Some (i, x).
Proof. destruct l as [|a l]; [done|]. intros _. unfold get_oldest. destruct (scan _ _ _ _ _); eauto. Qed.
Lemma get_newest_nonempty l : l <> [] -> exists i x, get_newest l = Some (i, x).
Proof. destruct l as [|a l]; [done|]. intros _. unfold get_newest. destruct (scan _ _ _ _ _); eauto. Qed.

(** ** Places *)

Definition place (l : location) : Z * Z := (dpid l, lport l).

Lemma same_place_spec a b : reflect (place a = place b) (same_place a b).
Proof.
  unfold same_place, place. destruct (Z.eqb_spec (dpid a) (dpid b)), (Z.eqb_spec (lport a) (lport b)); simpl;
    constructor; congruence.
Qed.

Lemma touch_Some loc l l' :
  touch loc l = Some l' ->
  exists pre k post, l = pre ++ k :: post /\ place k = place loc /\ l' = pre ++ loc :: post.
Proof.
  revert l'. induction l as [|k l IH]; intros l'; simpl; [done|]. destruct (same_place_spec k loc) as [E|E].
  - intros [= <-]. exists [], k, l. split_and!; [done|done|]. simpl. f_equal. destruct k, loc. unfold place in E.
    simpl in *. congruence.
  - destruct (touch loc l) as [l1|]; [|done]. intros [= <-]. destruct (IH l1 eq_refl) as (pre & k' & post & -> & ? & ->).
    by exists (k :: pre), k', post.
Qed.

Lemma touch_None loc l : touch loc l = None -> place loc ∉ place <$> l.
Proof.
  induction l as [|k l IH]; simpl; [intros _; apply not_elem_of_nil|]. destruct (same_place_spec k loc) as [E|E]; [done|].
  destruct (touch loc l); [done|]. intros _. apply not_elem_of_cons. auto.
Qed.

(** [make_room] leaves fewer than [n] locations, and what it erases is not newer
    than what it keeps. *)
Lemma make_room_spec fuel n l :
  1 <= n -> (length l <= fuel)%nat ->
  exists l', make_room fuel n l = Ret l' /\ l' ⊆+ l /\ Z.of_nat (length l') < n /\
    (Z.of_nat (length l) < n -> l' = l) /\ (n <= Z.of_nat (length l) -> Z.of_nat (length l') = n - 1) /\
    forall x, x ∈ l -> x ∈ l' \/ forall y, y ∈ l' -> lastTime x <= lastTime y.
Proof.
  intros Hn. revert l. induction fuel as [|fuel IH]; intros l Hf.
  { destruct l; [|simpl in Hf; lia]. exists []. split_and!; [simpl; destruct (Z.leb_spec n (Z.of_nat 0)); [lia|done]|reflexivity|simpl; lia|done|simpl; lia|set_solver]. }
  simpl. destruct (Z.leb_spec n (Z.of_nat (length l))).
  2: { exists l. split_and!; [done|reflexivity|lia|done|lia|auto]. }
  destruct (get_oldest_nonempty l) as (i & x & Ei); [by intros ->; simpl in *; lia|]. rewrite Ei.
  apply get_oldest_Some in Ei as [Hi Hmin]. pose proof (lookup_lt_Some _ _ _ Hi).
  assert (Hlen : length (delete i l) = pred (length l)) by (rewrite length_delete; [lia|eauto]).
  destruct (IH (delete i l)) as (l' & El & Hsub & Hl' & Hsame & Heq & Hold); [lia|]. exists l'.
  assert (Hperm : l ≡ₚ x :: delete i l) by (by apply delete_Permutation).
  split_and!; [done| |done|lia| |].
  - etrans; [exact Hsub|]. rewrite Hperm at 2. by apply submseteq_cons.
  - intros _. rewrite Hlen in Heq, Hsame. destruct (Z.lt_ge_cases (Z.of_nat (pred (length l))) n); [|auto].
    rewrite Hsame by done. rewrite Hlen. lia.
  - intros z Hz. rewrite Hperm in Hz. apply elem_of_cons in Hz as [->|Hz]; [|auto]. right. intros y Hy. apply Hmin.
    rewrite Hperm. right. by eapply elem_of_submseteq.
Qed.

(** ** What the list of a host holds after the sightings [A], oldest first *)

Definition last_time (p : Z * Z) (A : list location) : option Z :=
  lastTime <$> last (filter (fun x => place x = p) A).

Record keeps (n : Z) (A l : list location) : Prop := {
  k_nodup : NoDup (place <$> l);
  k_time x : x ∈ l -> last_time (place x) A = Some (lastTime x);
  k_recent p t : last_time p A = Some t ->
    p ∈ place <$> l \/ (Z.of_nat (length l) = n /\ forall x, x ∈ l -> t <= lastTime x);
  k_bound : Z.of_nat (length l) <= n;
  k_last x : last A = Some x -> x ∈ l
}.

Lemma last_time_snoc p A loc :
  last_time p (A ++ [loc]) = if bool_decide (place loc = p) then Some (lastTime loc) else last_time p A.
Proof.
  unfold last_time. rewrite filter_app. case_bool_decide as E.
  - rewrite (filter_cons_True _ loc []) by done. by rewrite filter_nil, last_snoc.
  - rewrite (filter_cons_False _ loc []) by done. by rewrite filter_nil, app_nil_r.
Qed.

Lemma last_time_elem p A t : last_time p A = Some t -> exists x, x ∈ A /\ place x = p /\ lastTime x = t.
Proof.
  unfold last_time. intros (x & Hx & ->)%fmap_Some. exists x. apply last_Some_elem_of in Hx.
  apply list_elem_of_filter in Hx as [? ?]. done.
Qed.

Lemma keeps_first n loc : 1 <= n -> keeps n [loc] [loc].
Proof.
  intros Hn. pose proof (fun p => last_time_snoc p [] loc) as Ht. rewrite app_nil_l in Ht. split; simpl; try lia.
  - apply NoDup_singleton.
  - intros x ->%list_elem_of_singleton. by rewrite Ht, bool_decide_true.
  - intros p t. rewrite Ht. case_bool_decide as E; [|done]. intros _. left. set_solver.
  - intros x [= ->]. set_solver.
Qed.

Lemma keeps_touch n A loc pre k post :
  (forall x, x ∈ A -> lastTime x <= lastTime loc) -> place k = place loc ->
  keeps n A (pre ++ k :: post) -> keeps n (A ++ [loc]) (pre ++ loc :: post).
Proof.
  intros Hmono Ek [K1 K2 K3 K4 _].
  assert (Epl : place <$> pre ++ loc :: post = place <$> pre ++ k :: post) by (rewrite !fmap_app, !fmap_cons; congruence).
  assert (Hne : forall x, x ∈ pre ++ post -> place x <> place loc).
  { intros x Hx Ex. rewrite <- Ek, <- Permutation_middle in *. apply NoDup_cons in K1 as [K1 _]. apply K1.
    rewrite <- Ex. by apply list_elem_of_fmap_2. }
  split.
  - by rewrite Epl.
  - intros x Hx. rewrite last_time_snoc. apply elem_of_app in Hx as [Hx|[->|Hx]%elem_of_cons].
    + rewrite bool_decide_false by (intros E; by apply (Hne x); [set_solver|]). apply K2. set_solver.
    + by rewrite bool_decide_true.
    + rewrite bool_decide_false by (intros E; by apply (Hne x); [set_solver|]). apply K2. set_solver.
  - intros p t. rewrite last_time_snoc, Epl. case_bool_decide as E.
    + intros _. left. subst p. rewrite <- Ek. apply list_elem_of_fmap_2. set_solver.
    + intros Ht. destruct (K3 p t Ht) as [?|[Hl Hall]]; [by left|]. right. split; [by rewrite length_app in *|].
      intros x Hx. apply elem_of_app in Hx as [Hx|[->|Hx]%elem_of_cons]; [apply Hall; set_solver| |apply Hall; set_solver].
      apply last_time_elem in Ht as (y & Hy & _ & <-). auto.
  - by rewrite length_app in *.
  - intros x. rewrite last_snoc. intros [= ->]. set_solver.
Qed.

Lemma keeps_new n A loc l l1 :
  (forall x, x ∈ A -> lastTime x <= lastTime loc) -> place loc ∉ place <$> l -> keeps n A l ->
  l1 ⊆+ l -> Z.of_nat (length l1) < n ->
  (Z.of_nat (length l) < n -> l1 = l) -> (n <= Z.of_nat (length l) -> Z.of_nat (length l1) = n - 1) ->
  (forall x, x ∈ l -> x ∈ l1 \/ forall y, y ∈ l1 -> lastTime x <= lastTime y) ->
  keeps n (A ++ [loc]) (loc :: l1).
Proof.
  intros Hmono Hnew [K1 K2 K3 K4 _] Hsub Hlt Hsame Hfull Hold.
  assert (Hin : forall x, x ∈ l1 -> x ∈ l) by (intros x Hx; by eapply elem_of_submseteq).
  assert (Hne : forall x, x ∈ l1 -> place loc <> place x).
  { intros x Hx E. apply Hnew. rewrite E. apply list_elem_of_fmap_2. auto. }
  split.
  - simpl. apply NoDup_cons. split.
    + intros (x & Ex & Hx)%list_elem_of_fmap. by apply (Hne x).
    + by apply (submseteq_NoDup _ (place <$> l)); [apply fmap_submseteq|].
  - intros x [->|Hx]%elem_of_cons; rewrite last_time_snoc; [by rewrite bool_decide_true|].
    rewrite bool_decide_false by auto. auto.
  - intros p t. rewrite last_time_snoc. case_bool_decide as E; [intros _; left; set_solver|]. intros Ht.
    assert (Hloc : t <= lastTime loc) by (apply last_time_elem in Ht as (y & Hy & _ & <-); auto).
    destruct (K3 p t Ht) as [(x & -> & Hx)%list_elem_of_fmap|[Hl Hall]].
    + destruct (Z.lt_ge_cases (Z.of_nat (length l)) n) as [Hc|Hc].
      { left. rewrite (Hsame Hc). right. by apply list_elem_of_fmap_2. }
      destruct (Hold x Hx) as [?|Hy]; [left; right; by apply list_elem_of_fmap_2|]. right. simpl.
      split; [specialize (Hfull Hc); lia|]. rewrite (K2 x Hx) in Ht. injection Ht as <-.
      intros y [->|?]%elem_of_cons; auto.
    + right. simpl. split; [specialize (Hfull ltac:(lia)); lia|]. intros y [->|?]%elem_of_cons; auto.
  - simpl. lia.
  - intros x. rewrite last_snoc. intros [= ->]. set_solver.
Qed.

(** ** Adding locations *)

Definition is_event (p : posted) : Prop := match p with Host_location_event _ _ _ => True | Check_timeout_in _ => False end.

Definition nonempty_lists (s : tracker) : Prop := map_Forall (fun _ l => l <> []) (hostlocation s).

Lemma getBindingNumber_set h m s : getBindingNumber h (set_hostlocation m s) = getBindingNumber h s.
Proof. done. Qed.

(** The whole effect of [add_location] on the tables, on every branch *)
Lemma add_location_spec h loc post s :
  nonempty_lists s -> 1 <= getBindingNumber h s ->
  exists evs l, add_location_at h loc post s = Ret (evs, set_hostlocation (<[h := l]> (hostlocation s)) s) /\
    Forall is_event evs /\ l <> [] /\
    match hostlocation s !! h with
    | None => l = [loc]
    | Some l0 =>
        (exists pre k suf, l0 = pre ++ k :: suf /\ place k = place loc /\ l = pre ++ loc :: suf) \/
        ((place loc ∉ place <$> l0) /\
         exists l1, make_room (length l0) (getBindingNumber h s) l0 = Ret l1 /\ l = loc :: l1)
    end.
Proof.
  intros Hne Hn. unfold add_location_at. destruct (hostlocation s !! h) as [l0|] eqn:El.
  2: { cbn [mbind res_bind hostlocation set_hostlocation]. rewrite decide_False by apply insert_non_empty.
       exists (if post then [Host_location_event h [loc] LOC_ADD] else []), [loc].
       split_and!; [done|destruct post; repeat constructor|done|done]. }
  pose proof (Hne _ _ El) as Hl0. destruct l0 as [|x l0]; [done|]. remember (x :: l0) as l1 eqn:E1. clear E1.
  destruct (touch loc l1) as [l2|] eqn:Et.
  - cbn [mbind res_bind hostlocation set_hostlocation]. rewrite decide_False by apply insert_non_empty.
    exists [], l2. apply touch_Some in Et as (pre & k & suf & -> & Ek & ->).
    split_and!; [done|constructor|by destruct pre|eauto 10].
  - destruct (make_room_spec (length l1) (getBindingNumber h s) l1) as (l2 & Er & _); [done|done|].
    rewrite Er. cbn [mbind res_bind hostlocation set_hostlocation]. rewrite decide_False by apply insert_non_empty.
    eexists _, (loc :: l2). split_and!; [done|destruct post; repeat constructor|done|].
    right. apply touch_None in Et. eauto.
Qed.

Lemma add_location_nonempty h l s : nonempty_lists s -> l <> [] -> nonempty_lists (set_hostlocation (<[h := l]> (hostlocation s)) s).
Proof. intros Hs Hl. by apply map_Forall_insert_2. Qed.

(** Sightings of all hosts, oldest first *)
Fixpoint add_all (adds : list (host * location)) (post : bool) (s : tracker) : res (list posted * tracker) :=
  match adds with
  | [] => Ret ([], s)
  | (h, loc) :: adds =>
      '(e1, s) ← add_location_at h loc post s;
      '(e2, s) ← add_all adds post s;
      Ret (e1 ++ e2, s)
  end.

Definition sightings (h : host) (adds : list (host * location)) : list location :=
  snd <$> filter (fun a => a.1 = h) adds.

Lemma sightings_snoc h a adds :
  sightings h (adds ++ [a]) = sightings h adds ++ (if bool_decide (a.1 = h) then [a.2] else []).
Proof.
  unfold sightings. rewrite filter_app, fmap_app. f_equal. unfold filter. simpl. case_bool_decide; case_decide; done.
Qed.

Lemma add_all_snoc adds h loc post s :
  add_all (adds ++ [(h, loc)]) post s =
  ('(e1, s) ← add_all adds post s; '(e2, s) ← add_location_at h loc post s; Ret (e1 ++ e2, s)).
Proof.
  revert s. induction adds as [|[h' l'] adds IH]; intros s; simpl.
  - destruct (add_location_at h loc post s) as [[e s']| | |]; simpl; [by rewrite app_nil_r|done..].
  - destruct (add_location_at h' l' post s) as [[e s']| | |]; simpl; [|done..]. rewrite IH.
    destruct (add_all adds post s') as [[e2 s2]| | |]; simpl; [|done..].
    destruct (add_location_at h loc post s2) as [[e3 s3]| | |]; simpl; [|done..]. by rewrite app_assoc.
Qed.

(** The state after the sightings [adds] *)
Record tracks (adds : list (host * location)) (s : tracker) : Prop := {
  t_nonempty : nonempty_lists s;
  t_keeps h : sightings h adds <> [] -> keeps (getBindingNumber h s) (sightings h adds) (get_locations h s);
  t_none h : sightings h adds = [] -> hostlocation s !! h = None
}.

Lemma add_tracks adds h loc post s :
  (forall h, 1 <= getBindingNumber h s) -> (forall a, a ∈ adds -> lastTime a.2 <= lastTime loc) -> tracks adds s ->
  exists evs s', add_location_at h loc post s = Ret (evs, s') /\ Forall is_event evs /\
    (forall h, getBindingNumber h s' = getBindingNumber h s) /\ tracks (adds ++ [(h, loc)]) s'.
Proof.
  intros Hn Hmono [T1 T2 T3]. destruct (add_location_spec h loc post s T1 (Hn h)) as (evs & l & E & Hev & Hl & Hcase).
  exists evs. eexists. split_and!; [exact E|done|done|].
  assert (Hm : forall x, x ∈ sightings h adds -> lastTime x <= lastTime loc).
  { intros x (a & -> & [_ Ha]%list_elem_of_filter)%list_elem_of_fmap. auto. }
  split; [by apply add_location_nonempty| |].
  - intros x Hx. rewrite getBindingNumber_set, sightings_snoc in *. unfold get_locations. simpl in *.
    case_bool_decide as Ex.
    2: { rewrite app_nil_r in *. rewrite lookup_insert_ne by done. by apply T2. }
    subst x. rewrite lookup_insert_eq. simpl. destruct (hostlocation s !! h) as [l0|] eqn:E0.
    + assert (Hk : keeps (getBindingNumber h s) (sightings h adds) l0).
      { specialize (T2 h). unfold get_locations in T2. rewrite E0 in T2. apply T2. intros Hs.
        by rewrite (T3 h Hs) in E0. }
      destruct Hcase as [(pre & k & suf & -> & Ek & ->)|(Hnew & l1 & Er & ->)]; [by eapply keeps_touch|].
      destruct (make_room_spec (length l0) (getBindingNumber h s) l0 (Hn h)) as (l2 & Er2 & ? & ? & ? & ? & ?); [done|].
      rewrite Er in Er2. injection Er2 as <-. by eapply keeps_new.
    + subst l. destruct (sightings h adds) as [|y ys] eqn:Es; [by apply keeps_first|]. exfalso.
      destruct (last_is_Some (y :: ys)) as [_ [z Hz]]; [done|].
      assert (Hk : keeps (getBindingNumber h s) (y :: ys) (get_locations h s)) by (rewrite <- Es; apply T2; by rewrite Es).
      apply (k_last _ _ _ Hk) in Hz. unfold get_locations in Hz. rewrite E0 in Hz. by apply not_elem_of_nil in Hz.
  - intros x. rewrite sightings_snoc. simpl. case_bool_decide as Ex; [by intros [_ ?]%app_nil|]. rewrite app_nil_r.
    intros Hx. rewrite lookup_insert_ne by done. by apply T3.
Qed.

Lemma add_all_tracks adds post s :
  hostlocation s = ∅ -> (forall h, 1 <= getBindingNumber h s) -> StronglySorted Z.le (lastTime <$> adds.*2) ->
  exists evs s', add_all adds post s = Ret (evs, s') /\ Forall is_event evs /\
    (forall h, getBindingNumber h s' = getBindingNumber h s) /\ tracks adds s'.
Proof.
  intros H0 Hn. induction adds as [|[h loc] adds IH] using rev_ind; intros Hs.
  { exists [], s. split_and!; try done. split; [|done|].
    - unfold nonempty_lists. rewrite H0. apply map_Forall_empty.
    - intros h _. by rewrite H0. }
  rewrite !fmap_app in Hs. simpl in Hs. apply StronglySorted_app in Hs as (Hcross & Hs & _).
  destruct (IH Hs) as (e1 & s1 & E1 & Hev1 & Hb1 & Ht1).
  destruct (add_tracks adds h loc post s1) as (e2 & s2 & E2 & Hev2 & Hb2 & Ht2).
  - intros x. by rewrite Hb1.
  - intros a Ha. apply Hcross; [|set_solver]. by do 2 apply list_elem_of_fmap_2.
  - done.
  - exists (e1 ++ e2), s2. rewrite add_all_snoc, E1. cbn [mbind res_bind]. rewrite E2. split_and!; try done.
    + by apply Forall_app.
    + intros x. by rewrite Hb2.
Qed.

(** ** Timeouts *)

Section timeouts.
Context (traverse : locations -> list (bytes * list location)).
Hypothesis traverse_perm : forall m, traverse m ≡ₚ map_to_list m.

Definition fresh (now T : Z) (x : location) : Prop := now <= lastTime x + T.
#[local] Instance fresh_dec now T x : Decision (fresh now T x).
Proof. unfold fresh. apply _. Defined.

(** All lists have elements, and all times are after the epoch. *)
Definition timed (m : locations) : Prop := map_Forall (fun _ l => l <> [] /\ Forall (fun x => 0 < lastTime x) l) m.

Lemma oldest_scan_spec L o ot :
  0 <= ot -> Forall (fun p => p.2 <> [] /\ Forall (fun x => 0 < lastTime x) p.2) L ->
  exists h t, oldest_scan o ot L = Ret h /\
    ((h, t) = (o, ot) \/ exists ls i x, (h, ls) ∈ L /\ get_oldest ls = Some (i, x) /\ t = lastTime x) /\
    (forall k ls y, (k, ls) ∈ L -> y ∈ ls -> t <= lastTime y) /\ (0 < ot -> t <= ot) /\ (L <> [] -> 0 < t).
Proof.
  intros Hot HL. revert o ot Hot. induction HL as [|[k l] L [Hne Hpos] _ IH]; intros o ot Hot; simpl.
  { exists o, ot. split_and!; [done|by left|set_solver|lia|done]. }
  destruct (get_oldest_nonempty l Hne) as (i & x & Ei). rewrite Ei. pose proof (get_oldest_Some _ _ _ Ei) as [Hi Hmin].
  assert (Hx : 0 < lastTime x) by (rewrite Forall_forall in Hpos; apply Hpos; by eapply list_elem_of_lookup_2).
  destruct ((ot =? 0) || (lastTime x <? ot)) eqn:Eb.
  - destruct (IH k (lastTime x)) as (h & t & E & Hcase & Hall & Hle & Hgt); [lia|]. exists h, t.
    assert (t <= lastTime x) by auto. split_and!; [done| | | |].
    + right. destruct Hcase as [[= -> ->]|(ls & j & y & ? & ? & ?)]; [exists l, i, x|exists ls, j, y];
        split_and!; try done; [left|right; done].
    + intros k' ls y [[= -> ->]|Hin]%elem_of_cons Hy; [specialize (Hmin y Hy); lia|by eapply Hall].
    + intros. apply orb_true_iff in Eb. destruct Eb as [?%Z.eqb_eq|?%Z.ltb_lt]; lia.
    + intros _. destruct Hcase as [[= -> ->]|(ls & j & y & Hin & _)]; [done|]. apply Hgt. by intros ->; apply not_elem_of_nil in Hin.
  - apply orb_false_iff in Eb as [Hz%Z.eqb_neq Hge%Z.ltb_ge].
    destruct (IH o ot Hot) as (h & t & E & Hcase & Hall & Hle & Hgt). exists h, t.
    assert (t <= ot) by (apply Hle; lia). split_and!; [done| | |auto|].
    + destruct Hcase as [?|(ls & j & y & ? & ? & ?)]; [by left|]. right. exists ls, j, y. split_and!; try done. by right.
    + intros k' ls y [[= -> ->]|Hin]%elem_of_cons Hy; [specialize (Hmin y Hy); lia|by eapply Hall].
    + intros _. destruct Hcase as [[= -> ->]|(ls & j & y & Hin & _)]; [lia|]. apply Hgt. by intros ->; apply not_elem_of_nil in Hin.
Qed.

Lemma oldest_host_spec s :
  hostlocation s <> ∅ -> timed (hostlocation s) ->
  exists h l i x, oldest_host traverse s = Ret h /\ hostlocation s !! h = Some l /\ get_oldest l = Some (i, x) /\
    forall k ls y, hostlocation s !! k = Some ls -> y ∈ ls -> lastTime x <= lastTime y.
Proof.
  intros Hne Ht. unfold oldest_host. set (L := traverse (hostlocation s)).
  assert (HL : forall k ls, (k, ls) ∈ L <-> hostlocation s !! k = Some ls).
  { intros k ls. unfold L. rewrite traverse_perm. apply elem_of_map_to_list. }
  destruct (oldest_scan_spec L (octet (of_id 0)) 0) as (h & t & E & Hcase & Hall & _ & Hgt); [lia| |].
  { apply Forall_forall. intros [k ls] Hin%HL. by apply (Ht k ls). }
  assert (HL0 : L <> []).
  { intros H0. apply Hne, map_empty. intros k. destruct (hostlocation s !! k) as [ls|] eqn:Ek; [|done].
    apply HL in Ek. rewrite H0 in Ek. by apply not_elem_of_nil in Ek. }
  destruct Hcase as [[= -> ->]|(ls & i & x & Hin & Ho & ->)]; [specialize (Hgt HL0); lia|].
  exists h, ls, i, x. split_and!; [done|by apply HL|done|]. intros k ls' y Hk. apply (Hall k ls' y). by apply HL.
Qed.

Lemma filter_delete {A} (P : A -> Prop) `{!forall x, Decision (P x)} (l : list A) (i : nat) x :
  l !! i = Some x -> ~ P x -> filter P (delete i l) = filter P l.
Proof.
  revert i. induction l as [|y l IH]; intros [|i]; intros Hi Hx; simplify_eq/=; [by rewrite filter_cons_False|].
  rewrite !filter_cons. case_decide; erewrite IH; done.
Qed.

(** The number of locations, which bounds the turns of the loop *)
Definition n_locations (m : locations) : nat := length (concat (map_to_list m).*2).

Lemma n_locations_insert h l m : n_locations (<[h := l]> m) = (length l + n_locations (delete h m))%nat.
Proof.
  unfold n_locations. rewrite <- insert_delete_eq, map_to_list_insert by (by rewrite lookup_delete_eq). simpl.
  by rewrite length_app.
Qed.
Lemma n_locations_lookup h l m : m !! h = Some l -> n_locations m = (length l + n_locations (delete h m))%nat.
Proof. intros Hh. rewrite <- n_locations_insert. by rewrite insert_id. Qed.

(** Dropping an element from the list of a host *)
Definition drop_at (h : host) (j : nat) (l : list location) (m : locations) : locations :=
  let l := delete j l in if is_nil l then delete h m else <[h := l]> m.

Lemma drop_at_lookup h j l m k :
  m !! h = Some l -> default [] (drop_at h j l m !! k) = if bool_decide (k = h) then delete j l else default [] (m !! k).
Proof.
  intros Hh. unfold drop_at. case_bool_decide as E.
  - subst. destruct (delete j l); simpl; by rewrite ?lookup_delete_eq, ?lookup_insert_eq.
  - destruct (delete j l); simpl; by rewrite ?lookup_delete_ne, ?lookup_insert_ne.
Qed.
Lemma drop_at_timed h j l m : m !! h = Some l -> timed m -> timed (drop_at h j l m).
Proof.
  intros Hh Ht. unfold drop_at. destruct (delete j l) as [|y l'] eqn:Ed; simpl; [by apply map_Forall_delete|].
  apply map_Forall_insert_2; [|done]. split; [done|]. rewrite <- Ed. apply Forall_delete. by apply (Ht h l).
Qed.
Lemma drop_at_count h j l m x : m !! h = Some l -> l !! j = Some x -> S (n_locations (drop_at h j l m)) = n_locations m.
Proof.
  intros Hh Hj. rewrite (n_locations_lookup h l m Hh). pose proof (lookup_lt_Some _ _ _ Hj).
  assert (Hd : length (delete j l) = (length l - 1)%nat) by (rewrite length_delete; [lia|eauto]).
  unfold drop_at. destruct (delete j l) as [|y l'] eqn:Ed; simpl; [simpl in Hd; lia|]. rewrite n_locations_insert. lia.
Qed.

(** What [check_timeout] leaves and posts: the fresh locations, and a call when
    the oldest of them expires *)
Definition expired_removed (now : Z) (s s' : tracker) (evs : list posted) : Prop :=
  (forall h, get_locations h s' = filter (fresh now (hostTimeout s)) (get_locations h s)) /\
  nonempty_lists s' /\ hostTimeout s' = hostTimeout s /\ nBindings s' = nBindings s /\
  (hostlocation s' = ∅ /\ evs = [] \/
   exists h x, x ∈ get_locations h s' /\ (forall k y, y ∈ get_locations k s' -> lastTime x <= lastTime y) /\
     evs = [Check_timeout_in (lastTime x + hostTimeout s - now)]).

Lemma timed_nonempty s : timed (hostlocation s) -> nonempty_lists s.
Proof. intros Ht h l Hl. by destruct (Ht h l Hl). Qed.

Lemma get_locations_elem h l s : hostlocation s !! h = Some l -> get_locations h s = l.
Proof. unfold get_locations. by intros ->. Qed.

Lemma all_fresh now s h l i x :
  hostlocation s !! h = Some l -> get_oldest l = Some (i, x) -> timed (hostlocation s) ->
  (forall k ls y, hostlocation s !! k = Some ls -> y ∈ ls -> lastTime x <= lastTime y) ->
  now <= lastTime x + hostTimeout s ->
  expired_removed now s s [Check_timeout_in (lastTime x + hostTimeout s - now)].
Proof.
  intros Hh Ho Ht Hmin Hnow. unfold expired_removed. split_and!; [|by apply timed_nonempty|done|done|].
  - intros k. symmetry. apply filter_all. intros y Hy. unfold fresh. unfold get_locations in Hy.
    destruct (hostlocation s !! k) as [ls|] eqn:Ek; simpl in Hy; [|by apply not_elem_of_nil in Hy].
    specialize (Hmin k ls y Ek Hy). lia.
  - right. exists h, x. apply get_oldest_Some in Ho as [Hi _]. rewrite (get_locations_elem _ _ _ Hh).
    split_and!; [by eapply list_elem_of_lookup_2| |done]. intros k y Hy. unfold get_locations in Hy.
    destruct (hostlocation s !! k) as [ls|] eqn:Ek; simpl in Hy; [by eapply Hmin|by apply not_elem_of_nil in Hy].
Qed.

Lemma timeout_loop_spec fuel now s :
  timed (hostlocation s) -> (n_locations (hostlocation s) <= fuel)%nat ->
  exists evs s', timeout_loop traverse fuel now s = Ret (evs, s') /\ expired_removed now s s' evs.
Proof.
  revert s. induction fuel as [|fuel IH]; intros s Ht Hf; simpl; destruct (decide (hostlocation s = ∅)) as [E0|E0].
  1,3: unfold oldest_host; rewrite E0;
    (replace (traverse ∅) with (@nil (bytes * list location))
       by (symmetry; apply Permutation_nil_r; by rewrite traverse_perm, map_to_list_empty));
    simpl; rewrite lookup_empty; exists [], s; (split; [done|]); unfold expired_removed, get_locations; rewrite E0;
    split_and!; [done|apply timed_nonempty; by rewrite E0|done|done|by left].
  all: destruct (oldest_host_spec s E0 Ht) as (h & l & i & x & Eh & El & Eo & Hmin); rewrite Eh; cbn [mbind res_bind];
    rewrite El, Eo; pose proof (get_oldest_Some _ _ _ Eo) as [Hi _];
    destruct (Z.ltb_spec (lastTime x + hostTimeout s) now) as [Hx|Hx];
    [|eexists _, s; split; [done|]; by eapply all_fresh].
  { exfalso. rewrite (n_locations_lookup h l _ El) in Hf. pose proof (lookup_lt_Some _ _ _ Hi). lia. }
  fold (drop_at h i l (hostlocation s)). set (s1 := set_hostlocation _ s).
  destruct (IH s1) as (evs & s' & Es & H1 & H2 & H3 & H4 & H5).
  - by apply drop_at_timed.
  - pose proof (drop_at_count h i l (hostlocation s) x El Hi). unfold s1. simpl. lia.
  - exists evs, s'. split; [exact Es|]. split_and!; try done. intros k. rewrite H1. unfold get_locations at 1, s1. simpl.
    rewrite drop_at_lookup by done. case_bool_decide; [|done]. subst. rewrite (get_locations_elem _ _ _ El).
    apply filter_delete with x; [done|]. unfold fresh. lia.
Qed.
End timeouts.
