(* ===== verification/HosttrackerProps.v ===== *)
(** * Host locations: what the other applications rely on *)

From S2P Require Import Prelude Bytes Ethernetaddr Flow Switch Topology Hosttracker HosttrackerFacts.

Open Scope Z_scope.

(** ** Packets *)

Record seen_packet := SeenPacket { p_dp : Z; p_port : Z; p_flow : flow; p_now : Z; p_net : network }.

Fixpoint handle_pkts (after : bytes) (ps : list seen_packet) (s : tracker) : res (list posted * tracker) :=
  match ps with
  | [] => Ret ([], s)
  | p :: ps =>
      '(e1, s) ← handle_pkt_in after (p_dp p) (p_port p) (p_flow p) (p_now p) (p_net p) s;
      '(e2, s) ← handle_pkts after ps s;
      Ret (e1 ++ e2, s)
  end.

(** The sighting a packet reports: its source, unless the packet is a discovery
    frame, comes from another switch, or has a group address as its source *)
Definition sighting (p : seen_packet) : option (host * location) :=
  if (dl_type (p_flow p) =? LLDP) || is_internal (p_dp p) (p_port p) (p_net p) || is_multicast (dl_src (p_flow p))
  then None else Some (octet (dl_src (p_flow p)), Location (p_dp p) (p_port p) (p_now p)).

Lemma broadcast_multicast after a :
  length after = 2%nat -> is_bytes after -> addr_ok a -> is_broadcast after a = true -> is_multicast a = true.
Proof.
  intros Hl Hb Ha. unfold is_broadcast. rewrite hb_long_value by done. intros E%Z.eqb_eq.
  destruct a as [o], Ha as [Hlen Ho]. unfold addr_value, is_multicast in *. simpl in *.
  do 7 (destruct o as [|? o]; try done). rewrite !Forall_cons in Ho.
  destruct Ho as (H0 & H1 & H2 & H3 & H4 & H5 & _). unfold in_width in *. cbn in E.
  assert (z = 255) as -> by lia. done.
Qed.

Lemma handle_pkt_in_sighting after p s :
  length after = 2%nat -> is_bytes after -> addr_ok (dl_src (p_flow p)) ->
  handle_pkt_in after (p_dp p) (p_port p) (p_flow p) (p_now p) (p_net p) s =
  match sighting p with Some (h, loc) => add_location_at h loc true s | None => Ret ([], s) end.
Proof.
  intros Hl Hb Ha. unfold handle_pkt_in, sighting. destruct (_ =? LLDP); [done|]. cbn [orb].
  destruct (is_internal _ _ _); [done|]. destruct (is_multicast (dl_src (p_flow p))) eqn:Em; [done|].
  cbn [orb negb andb].
  destruct (is_broadcast after (dl_src (p_flow p))) eqn:Eb; [|done].
  apply broadcast_multicast in Eb; [congruence|done..].
Qed.

Lemma handle_pkts_add_all after ps s :
  length after = 2%nat -> is_bytes after -> Forall (fun p => addr_ok (dl_src (p_flow p))) ps ->
  handle_pkts after ps s = add_all (omap sighting ps) true s.
Proof.
  intros Hl Hb Hps. revert s. induction Hps as [|p ps Hp _ IH]; intros s; simpl; [done|].
  rewrite handle_pkt_in_sighting by done. destruct (sighting p) as [[h loc]|]; simpl.
  - destruct (add_location_at h loc true s) as [[e s']| | |]; simpl; [|done..]. by rewrite IH.
  - rewrite IH. unfold omap. by destruct (add_all _ true s) as [[e s']| | |].
Qed.

Lemma sightings_sorted ps :
  StronglySorted Z.le (p_now <$> ps) -> StronglySorted Z.le (lastTime <$> (omap sighting ps).*2).
Proof.
  induction ps as [|p ps IH]; simpl; [constructor|]. intros [Hs Hall]%StronglySorted_inv.
  assert (Hin : forall a, a ∈ omap sighting ps -> p_now p <= lastTime a.2).
  { intros a (q & Hq & Ea)%list_elem_of_omap. unfold sighting in Ea. destruct (_ || _); simplify_eq. simpl.
    rewrite Forall_forall in Hall. apply Hall. by apply list_elem_of_fmap_2. }
  destruct (sighting p) as [a|] eqn:Ep; simpl; [|auto]. constructor; [auto|].
  unfold sighting in Ep. destruct (_ || _); simplify_eq. simpl. apply Forall_forall.
  intros t (x & -> & (b & -> & Hb)%list_elem_of_fmap)%list_elem_of_fmap. auto.
Qed.

Lemma last_sighting adds h x z :
  StronglySorted Z.le (lastTime <$> adds.*2) -> last (sightings h adds) = Some x -> z ∈ sightings h adds ->
  lastTime z <= lastTime x.
Proof.
  induction adds as [|[h' loc] adds IH] using rev_ind; [done|]. rewrite !fmap_app.
  intros (Hcross & Hs & _)%StronglySorted_app. rewrite sightings_snoc. simpl. case_bool_decide; [|rewrite app_nil_r; auto].
  rewrite last_snoc. intros [= <-] [Hz|Hz]%elem_of_app; [|apply list_elem_of_singleton in Hz as ->; lia].
  apply list_elem_of_fmap in Hz as (a & -> & [_ Ha]%list_elem_of_filter).
  apply Hcross; [by do 2 apply list_elem_of_fmap_2|set_solver].
Qed.

(** Operations of the public interface *)
Inductive tracker_op :=
| Op_add (h : host) (loc : location) (post : bool)
| Op_remove (h : host) (loc : location) (post : bool).
Definition run_op (o : tracker_op) (s : tracker) : res (list posted * tracker) :=
  match o with
  | Op_add h loc post => add_location_at h loc post s
  | Op_remove h loc post => Ret (remove_location_at h loc post s)
  end.
Fixpoint run_ops (os : list tracker_op) (s : tracker) : res (list posted * tracker) :=
  match os with
  | [] => Ret ([], s)
  | o :: os => '(e1, s) ← run_op o s; '(e2, s) ← run_ops os s; Ret (e1 ++ e2, s)
  end.

Lemma run_op_ok o s :
  nonempty_lists s -> (forall h, 1 <= getBindingNumber h s) ->
  exists evs s', run_op o s = Ret (evs, s') /\ Forall is_event evs /\ nonempty_lists s' /\
    forall h, getBindingNumber h s' = getBindingNumber h s.
Proof.
  intros Hs Hn. destruct o as [h loc post|h loc post]; simpl.
  - destruct (add_location_spec h loc post s Hs (Hn h)) as (evs & l & -> & Hev & Hl & _).
    eexists _, _. split_and!; [done|done|by apply add_location_nonempty|done].
  - unfold remove_location_at. destruct (hostlocation s !! h) as [l|] eqn:El; [|by eexists _, _].
    set (l' := filter _ l). eexists _, _. split_and!; [done| | |done].
    + case_match; repeat constructor.
    + destruct l' as [|x l1] eqn:E; simpl; [by apply map_Forall_delete|]. by apply map_Forall_insert_2.
Qed.

(** ** Properties *)

(** C21: hosts are where they were last seen.  For any packets, reported in the
    order of their time and with the topology known at that time, no packet
    makes the handler fail, no call of [check_timeout] is scheduled, and a host
    keeps at most its number of locations: no place twice, each with the time it
    was last seen there, the last one always among them, and a place that was
    dropped was seen no later than any that is kept.  Discovery frames, packets
    from other switches and packets with a group source address report nothing. *)
Theorem hosts_tracked (after : bytes) (ps : list seen_packet) (s0 : tracker)
    (Hafter : length after = 2%nat) (Hbytes : is_bytes after)
    (Haddr : Forall (fun p => addr_ok (dl_src (p_flow p))) ps) (Htime : StronglySorted Z.le (p_now <$> ps))
    (Hempty : hostlocation s0 = ∅) (Hbind : forall h, 1 <= getBindingNumber h s0) :
  exists evs s, handle_pkts after ps s0 = Ret (evs, s) /\ Forall is_event evs /\ forall h,
    let A := sightings h (omap sighting ps) in
    let l := get_locations h s in
    NoDup (place <$> l) /\ Z.of_nat (length l) <= getBindingNumber h s0 /\ (A = [] -> l = []) /\
    (forall x, last A = Some x -> x ∈ l /\ lastTime (get_latest_location h s) = lastTime x) /\
    (forall x, x ∈ l -> last_time (place x) A = Some (lastTime x)) /\
    (forall p t, last_time p A = Some t ->
       p ∈ place <$> l \/ (Z.of_nat (length l) = getBindingNumber h s0 /\ forall x, x ∈ l -> t <= lastTime x)).
Proof.
  destruct (add_all_tracks (omap sighting ps) true s0 Hempty Hbind (sightings_sorted ps Htime))
    as (evs & s & E & Hev & Hb & [T1 T2 T3]).
  exists evs, s. rewrite handle_pkts_add_all by done. split_and!; [done|done|]. intros h. cbv zeta.
  set (A := sightings h (omap sighting ps)). destruct (decide (A = [])) as [EA|EA].
  { unfold get_locations. rewrite (T3 h EA), EA. specialize (Hbind h). simpl. split_and!; try done; [constructor|lia|set_solver]. }
  destruct (T2 h EA) as [K1 K2 K3 K4 K5]. rewrite Hb in *. split_and!; try done. intros x Hx. split; [auto|].
  apply K5 in Hx as Hin. unfold get_latest_location.
  destruct (get_newest_nonempty (get_locations h s)) as (i & y & Ey); [by intros E0; rewrite E0 in Hin; apply not_elem_of_nil in Hin|].
  rewrite Ey. apply get_newest_Some in Ey as [Hy Hmax]. apply list_elem_of_lookup_2 in Hy.
  pose proof (Hmax x Hin). apply K2, last_time_elem in Hy as (z & Hz & _ & Ez).
  pose proof (last_sighting _ h x z (sightings_sorted ps Htime) Hx Hz). lia.
Qed.

(** A host that moves from port 4 of switch 1 to port 9 of switch 2 *)
Definition host_flow : flow := Flow false 4 0 0 (of_id 0x0a0b0c) (of_id 5) 8 0 0 0 0 0 0 0.
Definition moving_host : list seen_packet := [SeenPacket 1 4 host_flow 100 ∅; SeenPacket 2 9 host_flow 103 ∅].

Lemma moving_host_ok :
  Forall (fun p => addr_ok (dl_src (p_flow p))) moving_host /\ StronglySorted Z.le (p_now <$> moving_host).
Proof. split; [by repeat (apply Forall_cons; split; [apply addr_ok_of_id|])|]. simpl. repeat constructor. done. Qed.

Lemma hosts_tracked_witness :
  exists evs s, handle_pkts [0; 0] moving_host configure = Ret (evs, s) /\ Forall is_event evs /\
    forall h x, last (sightings h (omap sighting moving_host)) = Some x -> x ∈ get_locations h s.
Proof.
  destruct (hosts_tracked [0; 0] moving_host configure) as (evs & s & E & Hev & H).
  - reflexivity.
  - repeat constructor; vm_compute; done.
  - apply moving_host_ok.
  - apply moving_host_ok.
  - reflexivity.
  - intros h. vm_compute. done.
  - exists evs, s. split; [exact E|]. split; [exact Hev|]. intros h x Hx. specialize (H h). cbv zeta in H.
    destruct H as (_ & _ & _ & H & _). apply H. exact Hx.
Defined.

(** [check_timeout] removes exactly the expired locations, in every order
    in which the hash table may be traversed; it terminates after at most as
    many turns as there are locations, leaves no host without a location, and
    asks to be called again when the oldest remaining one expires, or not at all
    when none remains. *)
Theorem check_timeout_exact (traverse : locations -> list (bytes * list location))
    (Htrav : forall m, traverse m ≡ₚ map_to_list m) (now : Z) (s : tracker) (Htimed : timed (hostlocation s))
    (fuel : nat) (Hfuel : (n_locations (hostlocation s) <= fuel)%nat) :
  exists evs s', check_timeout traverse fuel now s = Ret (evs, s') /\ expired_removed now s s' evs.
Proof.
  unfold check_timeout. destruct (decide (hostlocation s = ∅)) as [E|_]; [|by apply timeout_loop_spec].
  exists [], s. split; [done|]. unfold expired_removed, get_locations. rewrite E.
  split_and!; [done|apply timed_nonempty; by rewrite E|done|done|by left].
Qed.

Definition two_hosts : tracker :=
  Tracker 300 1 ∅ {[ [1; 2; 3; 4; 5; 6] := [Location 1 4 1000]; [6; 5; 4; 3; 2; 1] := [Location 2 9 1200] ]}.

Lemma check_timeout_exact_witness :
  exists evs s', check_timeout map_to_list 2 1400 two_hosts = Ret (evs, s') /\ expired_removed 1400 two_hosts s' evs.
Proof.
  apply (check_timeout_exact map_to_list (fun m => reflexivity _) 1400 two_hosts).
  - refine (bool_decide_unpack _ _). vm_compute. exact I.
  - vm_compute. repeat constructor.
Defined.

(** Locations never expire.  Whatever locations are added and removed, the
    component never asks for a call of [check_timeout]: it tests whether the
    table is empty after it has stored the location. *)
Theorem timeouts_never_start (os : list tracker_op) :
  exists evs s, run_ops os configure = Ret (evs, s) /\ Forall is_event evs.
Proof.
  assert (Hrun : forall s, nonempty_lists s -> (forall h, 1 <= getBindingNumber h s) ->
    exists evs s', run_ops os s = Ret (evs, s') /\ Forall is_event evs).
  { induction os as [|o os IH]; intros s Hs Hn; simpl; [by eexists _, _|].
    destruct (run_op_ok o s Hs Hn) as (e1 & s1 & -> & He1 & Hs1 & Hb1). cbn [mbind res_bind].
    destruct (IH s1 Hs1) as (e2 & s2 & -> & He2); [intros h; by rewrite Hb1|].
    eexists _, _. split; [done|]. by apply Forall_app. }
  apply Hrun; [apply map_Forall_empty|]. intros h. vm_compute. done.
Qed.

(** [remove_location] compares with [||]: removing a host from port 3 of switch
    1 also removes it from port 3 of switch 2 and from port 8 of switch 1. *)
Theorem remove_location_takes_too_much :
  let h := [1; 2; 3; 4; 5; 6] in
  let s := Tracker 300 3 ∅ {[ h := [Location 1 3 10; Location 2 3 20; Location 1 8 30] ]} in
  remove_location h 1 3 true s = ([Host_location_event h [] LOC_REMOVE], Tracker 300 3 ∅ ∅).
Proof. vm_compute. reflexivity. Qed.
