(* ===== verification/Kernel.v ===== *)
(** * The component kernel (src/builtin/kernel.cc, src/builtin/deployer.cc)

    The kernel installs components together with the components they depend on.
    A component moves from state to state, one at a time; each transition runs
    code of the component, and is made only while all dependencies are
    installed.

    Contexts are identified by their names, by which the kernel finds them.  The
    code of the components is a parameter: [works name state] says whether the
    transition of [name] to [state] succeeds.  It is assumed not to call the
    kernel itself.  The field [log] records the transitions tried. *)

From stdpp Require Import strings.
From S2P Require Import Prelude.

Open Scope Z_scope.
Open Scope nox_scope.

(** ** Data *)

Abbreviation Component_name := string.

Definition NOT_INSTALLED : Z := 0.
Definition INSTALLED : Z := 6.
Definition ERROR : Z := 7.

Record context := Context {
  current_state : Z;
  required_state : Z;
  dependencies : list Component_name
}.

(** A deployer: the dependencies of the components it knows and has not handed
    to the kernel *)
Abbreviation deployer := (gmap Component_name (list Component_name)).

Record kernel := Kernel {
  deployers : list deployer;
  contexts : gmap Component_name context;
  per_state : gmap Z (list Component_name);
  state_requirements_changed : bool;
  installing : bool;
  log : list (Component_name * Z)
}.

(** [Kernel::Kernel] *)
Definition new_kernel (ds : list deployer) : kernel := Kernel ds ∅ ∅ false false [].

Definition set_contexts (m : gmap Component_name context) (k : kernel) : kernel :=
  Kernel (deployers k) m (per_state k) (state_requirements_changed k) (installing k) (log k).
Definition set_per_state (m : gmap Z (list Component_name)) (k : kernel) : kernel :=
  Kernel (deployers k) (contexts k) m (state_requirements_changed k) (installing k) (log k).
Definition set_changed (b : bool) (k : kernel) : kernel :=
  Kernel (deployers k) (contexts k) (per_state k) b (installing k) (log k).
Definition set_installing (b : bool) (k : kernel) : kernel :=
  Kernel (deployers k) (contexts k) (per_state k) (state_requirements_changed k) b (log k).
Definition set_deployers (ds : list deployer) (k : kernel) : kernel :=
  Kernel ds (contexts k) (per_state k) (state_requirements_changed k) (installing k) (log k).

(** ** Effects: the kernel is changed in place, also when an exception is thrown.
    [KCrash] is a null pointer dereference or a failed assertion. *)

Inductive state_change_error := Installed_twice | Description_not_found | Already_installed
  | Uninstall_not_implemented | Unknown_context | Cannot_change.

Inductive kres (A : Type) : Type :=
| KOk (x : A) (k : kernel)
| KThrow (e : state_change_error) (k : kernel)
| KCrash
| KNoFuel.
Arguments KOk {A} x k.
Arguments KThrow {A} e k.
Arguments KCrash {A}.
Arguments KNoFuel {A}.

Definition kbind {A B : Type} (m : kres A) (f : A -> kernel -> kres B) : kres B :=
  match m with
  | KOk x k => f x k
  | KThrow e k => KThrow e k
  | KCrash => KCrash
  | KNoFuel => KNoFuel
  end.
Notation "'let!' ( x , k ) := m 'in' f" := (kbind m (fun x k => f))
  (at level 10, x name, k name, m at level 100, f at level 200) : nox_scope.

(** ** Registration *)

(** [Kernel::get] *)
Definition get (name : Component_name) (k : kernel) : option context := contexts k !! name.
Definition get_in (name : Component_name) (state : Z) (k : kernel) : option context :=
  match contexts k !! name with
  | None => None
  | Some c => if current_state c =? state then Some c else None
  end.

Section kernel.
Context (works : Component_name -> Z -> bool).

(** [Kernel::change]; [resolve] is [Kernel::resolve()]. *)
Definition change (resolve : kernel -> kres unit) (name : Component_name) (to : Z) (k : kernel) : kres unit :=
  match contexts k !! name with
  | None => KThrow Unknown_context k
  | Some c =>
      let from := current_state c in
      if from =? to then KOk tt k
      else if to <? from then KThrow Uninstall_not_implemented k
      else
        let k := set_contexts (<[name := Context from to (dependencies c)]> (contexts k)) k in
        if installing k then KOk tt (set_changed true k)
        else
          let! (_, k) := resolve k in
          match get_in name to k with
          | Some _ => KOk tt k
          | None => KThrow Cannot_change k
          end
  end.

(** [Kernel::install(Component_context*, Component_state)] *)
Definition install_context (resolve : kernel -> kres unit) (name : Component_name) (deps : list Component_name) (to : Z)
    (k : kernel) : kres unit :=
  match contexts k !! name with
  | Some _ => KThrow Already_installed k
  | None =>
      let k := set_contexts (<[name := Context NOT_INSTALLED NOT_INSTALLED deps]> (contexts k)) k in
      let l := match per_state k !! NOT_INSTALLED with Some l => l | None => [] end in
      let k := set_per_state (<[NOT_INSTALLED := l ++ [name]]> (per_state k)) k in
      change resolve name to k
  end.

(** [Deployer::deploy], tried on one deployer after the other *)
Fixpoint find_deployer (name : Component_name) (ds : list deployer)
    : option (list Component_name * list deployer) :=
  match ds with
  | [] => None
  | d :: ds =>
      match d !! name with
      | Some deps => Some (deps, delete name d :: ds)
      | None => (fun p => (p.1, d :: p.2)) <$> find_deployer name ds
      end
  end.

(** [Kernel::install(const Component_name&, Component_state)] *)
Definition install_with (resolve : kernel -> kres unit) (name : Component_name) (to : Z) (k : kernel) : kres unit :=
  match contexts k !! name with
  | Some _ => KThrow Installed_twice k
  | None =>
      match find_deployer name (deployers k) with
      | Some (deps, ds) =>
          let! (_, k) := install_context resolve name deps NOT_INSTALLED (set_deployers ds k) in
          change resolve name to k
      | None => KThrow Description_not_found k
      end
  end.

(** ** Resolution of dependencies *)

(** [Component_context::resolve], with [Name_dependency::resolve] in the loop *)
Fixpoint resolve_dependencies (resolve : kernel -> kres unit) (ds : list Component_name) (k : kernel) : kres bool :=
  match ds with
  | [] => KOk true k
  | d :: ds =>
      match contexts k !! d with
      | None => let! (_, k) := install_with resolve d INSTALLED k in KOk false k
      | Some c => if current_state c =? INSTALLED then resolve_dependencies resolve ds k else KOk false k
      end
  end.

(** [Kernel::resolve(const Component_context_vector&, Component_state)]: the
    vector is the one in [per_state], and may grow during the loop. *)
Fixpoint resolve_contexts (resolve : kernel -> kres unit) (fuel : nat) (from : Z) (i : nat)
    (resolved : list Component_name) (k : kernel) : kres (list Component_name) :=
  match per_state k !! from with
  | None => KCrash
  | Some v =>
      match v !! i with
      | None => KOk resolved k
      | Some n =>
          match fuel with
          | O => KNoFuel
          | S fuel =>
              match contexts k !! n with
              | None => KCrash
              | Some c =>
                  let! (ok, k) := resolve_dependencies resolve (dependencies c) k in
                  resolve_contexts resolve fuel from (S i) (if ok : bool then resolved ++ [n] else resolved) k
              end
          end
      end
  end.

(** [Component_context::install]: the action, which leaves the new state or
    [ERROR] *)
Definition run_action (n : Component_name) (to : Z) (c : context) (k : kernel) : Z * kernel :=
  let st := if works n to then to else ERROR in
  (st, Kernel (deployers k) (<[n := Context st (required_state c) (dependencies c)]> (contexts k)) (per_state k)
         (state_requirements_changed k) (installing k) (log k ++ [(n, to)])).

(** The loop of [Kernel::resolve(from, to)] over the contexts that are ready *)
Fixpoint advance (from to : Z) (ready : list Component_name) (k : kernel) : kres unit :=
  match ready with
  | [] => KOk tt k
  | n :: ready =>
      match contexts k !! n with
      | None => KCrash
      | Some c =>
          let '(st, k) := run_action n to c k in
          match per_state k !! from with
          | None => KCrash
          | Some v =>
              let v := remove_first (fun x => bool_decide (x = n)) v in
              let k := set_per_state (<[from := v]> (per_state k)) k in
              if existsb (fun x => bool_decide (x = n)) v then KCrash
              else
                let w := match per_state k !! st with Some w => w | None => [] end in
                advance from to ready (set_per_state (<[st := w ++ [n]]> (per_state k)) k)
          end
      end
  end.

(** [Kernel::resolve(const Component_state from, const Component_state to)] *)
Definition resolve_state (resolve : kernel -> kres unit) (fuel : nat) (from to : Z) (k : kernel) : kres bool :=
  let! (ready, k) := resolve_contexts resolve fuel from 0 [] k in
  let! (_, k) := advance from to ready k in
  KOk (negb (is_nil ready)) k.

(** The [for] loop of [Kernel::resolve()] *)
Fixpoint resolve_states (resolve : kernel -> kres unit) (fuel : nat) (states : list Z) (k : kernel) : kres bool :=
  match states with
  | [] => KOk false k
  | i :: states =>
      let! (progress, k) := resolve_state resolve fuel i (i + 1) k in
      if progress : bool then KOk true k else resolve_states resolve fuel states k
  end.

(** [Kernel::resolve()] from its loop on; a call from within (which is never
    made, since [installing] is set) would start anew. *)
Fixpoint resolve_loop (fuel : nat) (progress : bool) (k : kernel) : kres unit :=
  match fuel with
  | O => KNoFuel
  | S fuel =>
      if progress || state_requirements_changed k then
        let! (progress, k) :=
          resolve_states (fun k => resolve_loop fuel true (set_installing true k)) fuel [0; 1; 2; 3; 4; 5]
            (set_changed false k) in
        resolve_loop fuel progress k
      else KOk tt (set_installing false k)
  end.
Definition resolve (fuel : nat) (k : kernel) : kres unit := resolve_loop fuel true (set_installing true k).

Definition install (fuel : nat) (name : Component_name) (to : Z) (k : kernel) : kres unit :=
  install_with (resolve fuel) name to k.
Definition install_static (fuel : nat) (name : Component_name) (deps : list Component_name) (to : Z) (k : kernel)
    : kres unit :=
  install_context (resolve fuel) name deps to k.
End kernel.
