(* ===== verification/KernelFacts.v ===== *)
(** * The component kernel: its invariant and the effect of one resolution *)

From stdpp Require Import strings.
From S2P Require Import Prelude Kernel.

Open Scope Z_scope.

Section facts.
Context (works : Component_name -> Z -> bool).

(** ** Specification *)

(** What is known of the dependencies of a component, from the kernel or from a
    deployer *)
Definition describes (k : kernel) (n : Component_name) : option (list Component_name) :=
  match contexts k !! n with
  | Some c => Some (dependencies c)
  | None => fst <$> find_deployer n (deployers k)
  end.

Context (G : Component_name -> option (list Component_name)).

(** The components that can be installed: the least set with a component when
    its dependencies are in it and its own transitions succeed *)
Inductive installable (n : Component_name) : Prop :=
| Installable ds : G n = Some ds -> (forall d, d ∈ ds -> installable d) ->
    (forall j, 1 <= j <= INSTALLED -> works n j = true) -> installable n.

Definition in_state (k : kernel) (n : Component_name) (st : Z) : Prop :=
  exists c, contexts k !! n = Some c /\ current_state c = st.

(** The transitions of one component, in order *)
Definition steps (n : Component_name) (l : list (Component_name * Z)) : list Z := snd <$> filter (fun p => p.1 = n) l.

(** What the transitions say of the state *)
Definition steps_ok (n : Component_name) (k : kernel) : Prop :=
  match contexts k !! n with
  | None => steps n (log k) = []
  | Some c =>
      0 <= current_state c <= INSTALLED /\ steps n (log k) = seqZ 1 (current_state c) /\
        (forall j, 1 <= j <= current_state c -> works n j = true) \/
      current_state c = ERROR /\ exists j, 1 <= j <= INSTALLED /\ steps n (log k) = seqZ 1 j /\ works n j = false
  end.

(** No transition before the dependencies are installed *)
Definition log_ordered (l : list (Component_name * Z)) : Prop :=
  forall pre n st suf, l = pre ++ (n, st) :: suf -> forall ds d, G n = Some ds -> d ∈ ds -> (d, INSTALLED) ∈ pre.

Record inv (k : kernel) : Prop := {
  i_desc n : describes k n = G n;
  i_lists st l : per_state k !! st = Some l -> NoDup l /\ forall n, n ∈ l <-> in_state k n st;
  i_has n st : in_state k n st -> is_Some (per_state k !! st);
  i_booted st : 0 <= st < INSTALLED -> is_Some (per_state k !! st);
  i_deps n c d : contexts k !! n = Some c -> 1 <= current_state c -> d ∈ dependencies c -> in_state k d INSTALLED;
  i_acc n c : contexts k !! n = Some c -> 1 <= current_state c -> forall d, d ∈ dependencies c -> installable d;
  i_steps n : steps_ok n k;
  i_order : log_ordered (log k)
}.

Lemma installed_installable k n : inv k -> in_state k n INSTALLED -> installable n.
Proof.
  intros Hi (c & Hc & Hs). pose proof (i_desc k Hi n) as Hd. unfold describes in Hd. rewrite Hc in Hd.
  apply (Installable n (dependencies c)); [done| |].
  - apply (i_acc k Hi n c Hc). rewrite Hs. unfold INSTALLED. lia.
  - pose proof (i_steps k Hi n) as H. unfold steps_ok in H. rewrite Hc, Hs in H. destruct H as [(_ & _ & H)|[? _]]; [done|].
    unfold INSTALLED, ERROR in *. lia.
Qed.

Lemma in_state_fun k n s1 s2 : in_state k n s1 -> in_state k n s2 -> s1 = s2.
Proof. intros (c & Hc & <-) (c' & Hc' & <-). congruence. Qed.

Lemma state_range k n c : inv k -> contexts k !! n = Some c -> 0 <= current_state c <= ERROR.
Proof.
  intros Hi Hc. pose proof (i_steps k Hi n) as H. unfold steps_ok in H. rewrite Hc in H.
  unfold INSTALLED, ERROR in *. destruct H as [(? & _)|(-> & _)]; lia.
Qed.

(** ** Handing a component to the kernel during a resolution *)

Definition undeployed (k : kernel) : nat := sum_list (size <$> deployers k).

Lemma find_deployer_spec n ds deps ds' :
  find_deployer n ds = Some (deps, ds') ->
  S (sum_list (size <$> ds')) = sum_list (size <$> ds) /\
  forall m, m <> n -> fst <$> find_deployer m ds' = fst <$> find_deployer m ds.
Proof.
  revert deps ds'. induction ds as [|d ds IH]; intros deps ds'; simpl; [done|].
  destruct (d !! n) as [ds0|] eqn:Ed.
  - intros [= <- <-]. simpl. split.
    + rewrite map_size_delete, Ed. pose proof (map_size_ne_0_lookup_2 d n (mk_is_Some _ _ Ed)). lia.
    + intros m Hm. rewrite lookup_delete_ne by congruence. destruct (d !! m); [done|]. by destruct (find_deployer m ds) as [[? ?]|].
  - destruct (find_deployer n ds) as [[ds1 ds2]|]; [|done]. intros [= <- <-]. destruct (IH _ _ eq_refl) as [H1 H2].
    split; [csimpl in *; lia|]. simpl. intros m Hm. destruct (d !! m); [done|]. specialize (H2 m Hm).
    destruct (find_deployer m ds2) as [[? ?]|], (find_deployer m ds) as [[? ?]|]; simplify_eq/=; done.
Qed.

(** The kernel after [d], with dependencies [ds], was handed over *)
Record handed (k : kernel) (d : Component_name) (ds : list Component_name) (k' : kernel) : Prop := {
  h_contexts : contexts k' = <[d := Context NOT_INSTALLED INSTALLED ds]> (contexts k);
  h_per_state : per_state k' = <[NOT_INSTALLED := default [] (per_state k !! NOT_INSTALLED) ++ [d]]> (per_state k);
  h_log : log k' = log k;
  h_changed : state_requirements_changed k' = true;
  h_installing : installing k' = true;
  h_undeployed : S (undeployed k') = undeployed k;
  h_other m : m <> d -> fst <$> find_deployer m (deployers k') = fst <$> find_deployer m (deployers k)
}.

Lemma install_handed resolve d k ds :
  inv k -> installing k = true -> contexts k !! d = None -> G d = Some ds ->
  exists k', install_with resolve d INSTALLED k = KOk tt k' /\ handed k d ds k'.
Proof.
  intros Hi Hin Hd Hg. pose proof (i_desc k Hi d) as Hdesc. unfold describes in Hdesc. rewrite Hd, Hg in Hdesc.
  unfold install_with. rewrite Hd. destruct (find_deployer d (deployers k)) as [[deps ds']|] eqn:Ef; [|done].
  injection Hdesc as ->. destruct (find_deployer_spec d (deployers k) ds ds' Ef) as [Hsz Hoth].
  unfold install_context. cbn [contexts set_deployers]. rewrite Hd. unfold change at 1.
  cbn [contexts set_deployers set_contexts set_per_state per_state]. rewrite lookup_insert_eq.
  cbn [current_state]. rewrite Z.eqb_refl. cbn [kbind]. unfold change.
  cbn [contexts set_deployers set_contexts set_per_state per_state]. rewrite lookup_insert_eq.
  cbn [current_state dependencies installing set_deployers set_contexts set_per_state].
  change (NOT_INSTALLED =? INSTALLED) with false. change (INSTALLED <? NOT_INSTALLED) with false. cbn iota. rewrite Hin.
  eexists. split; [done|].
  split; cbn; [by rewrite insert_insert_eq|by destruct (per_state k !! NOT_INSTALLED)|done|done|done|done|exact Hoth].
Qed.

Lemma handed_in_state k d ds k' n st :
  handed k d ds k' -> contexts k !! d = None ->
  in_state k' n st <-> in_state k n st \/ (n = d /\ st = NOT_INSTALLED).
Proof.
  intros [Hc _ _ _ _ _ _] Hd. unfold in_state. rewrite Hc. destruct (decide (n = d)) as [->|Hn].
  - rewrite lookup_insert_eq, Hd. split; [intros (c & [= <-] & <-); by right|].
    intros [(c & [=] & _)|[_ ->]]. by eexists.
  - rewrite lookup_insert_ne by done. naive_solver.
Qed.

Lemma handed_inv k d ds k' :
  inv k -> contexts k !! d = None -> G d = Some ds -> handed k d ds k' -> inv k'.
Proof.
  intros Hi Hd Hg Hh. pose proof (fun n st => handed_in_state k d ds k' n st Hh Hd) as Hst. destruct Hh as [Hc Hp Hl _ _ _ Ho].
  destruct (i_booted k Hi NOT_INSTALLED) as [l0 Hl0]; [done|]. rewrite Hl0 in Hp. cbn [default] in Hp.
  split.
  - intros n. unfold describes. rewrite Hc. destruct (decide (n = d)) as [->|Hn]; [by rewrite lookup_insert_eq|].
    rewrite lookup_insert_ne, Ho by done. apply (i_desc k Hi).
  - intros st l. rewrite Hp. destruct (decide (st = NOT_INSTALLED)) as [->|Hn].
    + rewrite lookup_insert_eq. intros [= <-]. destruct (i_lists k Hi _ _ Hl0) as [Hnd Hin]. split.
      * apply NoDup_app. split_and!; [done| |apply NoDup_singleton]. intros x Hx ->%list_elem_of_singleton.
        apply Hin in Hx as (c & Hx & _). congruence.
      * intros n. rewrite elem_of_app, list_elem_of_singleton, Hst, Hin. naive_solver.
    + rewrite lookup_insert_ne by done. intros Hl'. destruct (i_lists k Hi _ _ Hl') as [Hnd Hin]. split; [done|].
      intros n. rewrite Hst, Hin. naive_solver.
  - intros n st. rewrite Hst, Hp. destruct (decide (st = NOT_INSTALLED)) as [->|Hn]; [by rewrite lookup_insert_eq|].
    rewrite lookup_insert_ne by done. intros [?|[_ ?]]; [by eapply i_has|done].
  - intros st Hr. rewrite Hp. destruct (decide (st = NOT_INSTALLED)) as [->|Hn]; [by rewrite lookup_insert_eq|].
    rewrite lookup_insert_ne by done. by apply i_booted.
  - intros n c x. rewrite Hc. destruct (decide (n = d)) as [->|Hn].
    + rewrite lookup_insert_eq. intros [= <-]. cbn. unfold NOT_INSTALLED. lia.
    + rewrite lookup_insert_ne by done. intros. apply Hst. left. by eapply i_deps.
  - intros n c. rewrite Hc. destruct (decide (n = d)) as [->|Hn].
    + rewrite lookup_insert_eq. intros [= <-]. cbn. unfold NOT_INSTALLED. lia.
    + rewrite lookup_insert_ne by done. by apply i_acc.
  - intros n. pose proof (i_steps k Hi n) as Hs. unfold steps_ok in *. rewrite Hc, Hl.
    destruct (decide (n = d)) as [->|Hn]; [|by rewrite lookup_insert_ne].
    rewrite lookup_insert_eq. rewrite Hd in Hs. left. cbn. split_and!; [done|done|done|]. unfold NOT_INSTALLED. intros. lia.
  - rewrite Hl. by apply i_order.
Qed.

(** ** A resolution only adds components at the end *)

(** What is left to do: transitions, and components not handed over *)
Definition left_of (c : context) : nat := Z.to_nat (ERROR - current_state c).
Definition weight (k : kernel) : nat := sum_list ((fun p => left_of p.2) <$> map_to_list (contexts k)).
Definition todo (k : kernel) : nat := weight k + 8 * undeployed k.
Definition known (k : kernel) : nat := size (contexts k) + undeployed k.

Lemma weight_insert k k' n c :
  contexts k' = <[n := c]> (contexts k) ->
  (weight k' + default 0 (left_of <$> contexts k !! n) = weight k + left_of c)%nat.
Proof.
  intros Hk. unfold weight. rewrite Hk.
  assert (Hdel : sum_list ((fun p => left_of p.2) <$> map_to_list (<[n := c]> (contexts k))) =
    (left_of c + sum_list ((fun p => left_of p.2) <$> map_to_list (delete n (contexts k))))%nat).
  { rewrite <- insert_delete_eq. by rewrite map_to_list_insert by (by rewrite lookup_delete_eq). }
  rewrite Hdel. destruct (contexts k !! n) as [c0|] eqn:E; cbn.
  - rewrite <- (map_to_list_delete (contexts k) n c0 E). cbn. lia.
  - rewrite delete_id by done. lia.
Qed.

Record ext (k k' : kernel) : Prop := {
  e_state n st : in_state k n st -> in_state k' n st;
  e_new n st : in_state k' n st -> in_state k n st \/ st = NOT_INSTALLED;
  e_per_state st l : per_state k !! st = Some l ->
    exists l2, per_state k' !! st = Some (l ++ l2) /\ (undeployed k' + length l2 <= undeployed k)%nat;
  e_installing : installing k' = installing k;
  e_same : k' = k \/ (state_requirements_changed k' = true /\ (undeployed k' < undeployed k)%nat);
  e_todo : (todo k' + undeployed k = todo k + undeployed k')%nat;
  e_known : known k' = known k;
  e_deps n c : contexts k !! n = Some c -> contexts k' !! n = Some c
}.

Lemma ext_refl k : ext k k.
Proof. split; auto. intros st l ->. exists []. rewrite app_nil_r. split; [done|simpl; lia]. Qed.

Lemma ext_trans k1 k2 k3 : ext k1 k2 -> ext k2 k3 -> ext k1 k3.
Proof.
  intros [A1 A2 A3 A4 A5 A6 A7 A8] [B1 B2 B3 B4 B5 B6 B7 B8]. split; auto.
  - intros n st [H|H]%B2; auto.
  - intros st l Hl. destruct (A3 st l Hl) as (l2 & H2 & Hu2). destruct (B3 _ _ H2) as (l3 & H3 & Hu3).
    exists (l2 ++ l3). rewrite app_assoc, length_app. split; [done|lia].
  - congruence.
  - destruct A5 as [->|[? ?]], B5 as [->|[? ?]]; [by left|right..]; split; try done; lia.
  - lia.
  - lia.
Qed.

Lemma handed_ext k d ds k' :
  inv k -> installing k = true -> contexts k !! d = None -> handed k d ds k' -> ext k k'.
Proof.
  intros Hi Hk Hd Hh. pose proof (fun n st => handed_in_state k d ds k' n st Hh Hd) as Hst.
  destruct Hh as [Hc Hp Hl Hch Hin Hu Ho]. split.
  - intros n st ?. apply Hst. by left.
  - intros n st [?|[_ ?]]%Hst; auto.
  - intros st l Hsl. rewrite Hp. destruct (decide (st = NOT_INSTALLED)) as [->|Hn].
    + rewrite lookup_insert_eq, Hsl. exists [d]. split; [done|simpl; lia].
    + rewrite lookup_insert_ne by done. exists []. rewrite app_nil_r. split; [done|simpl; lia].
  - congruence.
  - right. split; [done|lia].
  - pose proof (weight_insert k k' d _ Hc) as Hw. rewrite Hd in Hw.
    change (left_of _) with 7%nat in Hw. cbn [fmap option_fmap option_map default] in Hw. unfold todo. lia.
  - unfold known. rewrite Hc, map_size_insert_None by done. lia.
  - intros n c Hn. rewrite Hc. rewrite lookup_insert_ne by congruence. done.
Qed.

(** ** Dependencies *)

Definition ready (k : kernel) (n : Component_name) : Prop :=
  exists c, contexts k !! n = Some c /\ forall d, d ∈ dependencies c -> in_state k d INSTALLED.
Definition blocked (k : kernel) (n : Component_name) : Prop :=
  exists c d st, contexts k !! n = Some c /\ d ∈ dependencies c /\ in_state k d st /\ st <> INSTALLED.

Lemma ready_ext k k' n : ext k k' -> ready k n -> ready k' n.
Proof. intros He (c & Hc & Hd). exists c. split; [by eapply e_deps|]. intros d Hin. by eapply e_state, Hd. Qed.

(** The outcome of resolving the dependencies [ds]: met, blocked by a known
    component, or one was handed over *)
Lemma resolve_dependencies_spec resolve ds k :
  inv k -> installing k = true -> (forall d, d ∈ ds -> is_Some (G d)) ->
  exists b k', resolve_dependencies resolve ds k = KOk b k' /\ inv k' /\ ext k k' /\
    (b = true -> k' = k /\ forall d, d ∈ ds -> in_state k d INSTALLED) /\
    (b = false -> state_requirements_changed k' = true \/
       (k' = k /\ exists d st, d ∈ ds /\ in_state k d st /\ st <> INSTALLED)).
Proof.
  intros Hi Hk. induction ds as [|d ds IH]; intros Hg; simpl.
  { exists true, k. split_and!; [done|done|apply ext_refl|set_solver|done]. }
  destruct (contexts k !! d) as [c|] eqn:Ed.
  - destruct (Z.eqb_spec (current_state c) INSTALLED) as [Es|Es].
    + destruct IH as (b & k' & E & Hi' & He & Ht & Hf); [set_solver|]. exists b, k'. split_and!; [done|done|done| |].
      * intros Eb. destruct (Ht Eb) as [-> Hall]. split; [done|]. intros x [->|Hx]%elem_of_cons; [by exists c|auto].
      * intros Eb. destruct (Hf Eb) as [?|(-> & x & st & ? & ? & ?)]; [by left|]. right. split; [done|].
        exists x, st. set_solver.
    + exists false, k. split_and!; [done|done|apply ext_refl|done|]. intros _. right. split; [done|].
      exists d, (current_state c). split_and!; [set_solver|by exists c|done].
  - destruct (Hg d) as [dd Hdd]; [set_solver|].
    destruct (install_handed resolve d k dd Hi Hk Ed Hdd) as (k' & E & Hh). rewrite E. cbn [kbind].
    exists false, k'. split_and!; [done|by eapply handed_inv|by eapply handed_ext|done|]. intros _. left. apply Hh.
Qed.

Hypothesis closed : forall n ds d, G n = Some ds -> d ∈ ds -> is_Some (G d).

Lemma context_deps_known k n c d : inv k -> contexts k !! n = Some c -> d ∈ dependencies c -> is_Some (G d).
Proof.
  intros Hi Hc. pose proof (i_desc k Hi n) as Hd. unfold describes in Hd. rewrite Hc in Hd. by apply closed with n.
Qed.

(** A component that was looked at is ready, or a reason is known. *)
Definition looked_at (k : kernel) (ready_list : list Component_name) (n : Component_name) : Prop :=
  n ∈ ready_list \/ state_requirements_changed k = true \/ blocked k n.

Lemma looked_at_ext k k' r n : ext k k' -> looked_at k r n -> looked_at k' r n.
Proof.
  intros He [?|[H|H]]; [by left| |]; destruct (e_same _ _ He) as [->|[? _]]; unfold looked_at; auto.
Qed.

Lemma resolve_contexts_spec resolve fuel from i acc k v :
  inv k -> installing k = true -> per_state k !! from = Some v ->
  (length v - i + undeployed k <= fuel)%nat -> acc `sublist_of` take i v ->
  (forall n, n ∈ acc -> ready k n) -> (forall n, n ∈ take i v -> looked_at k acc n) ->
  exists r k' v', resolve_contexts resolve fuel from i acc k = KOk r k' /\ inv k' /\ ext k k' /\
    per_state k' !! from = Some v' /\ r `sublist_of` v' /\ (forall n, n ∈ r -> ready k' n) /\
    (forall n, n ∈ v' -> looked_at k' r n).
Proof.
  revert i acc k v. induction fuel as [|fuel IH]; intros i acc k v Hi Hk Hv Hf Hsub Hready Hlook; simpl; rewrite Hv.
  all: destruct (v !! i) as [n|] eqn:En;
    [pose proof (lookup_lt_Some _ _ _ En)|apply lookup_ge_None in En; rewrite take_ge in * by done;
       exists acc, k, v; split_and!; auto using ext_refl].
  { lia. }
  destruct (i_lists k Hi _ _ Hv) as [_ Hin]. apply list_elem_of_lookup_2 in En as Hnv. apply Hin in Hnv as (c & Hc & Hst).
  rewrite Hc. destruct (resolve_dependencies_spec resolve (dependencies c) k Hi Hk) as (b & k1 & E & Hi1 & He1 & Ht & Hfa).
  { intros d. by eapply context_deps_known. }
  rewrite E. cbn [kbind]. destruct (e_per_state _ _ He1 _ _ Hv) as (l2 & Hv1 & Hu).
  assert (Etake : take (S i) (v ++ l2) = take i v ++ [n]).
  { rewrite take_app_le by lia. by apply take_S_r. }
  destruct (IH (S i) (if b then acc ++ [n] else acc) k1 (v ++ l2)) as (r & k' & v' & Er & Hi' & He' & ?); auto.
  - rewrite (e_installing _ _ He1). done.
  - rewrite length_app. lia.
  - rewrite Etake. destruct b; [by apply sublist_app|]. rewrite <- (app_nil_r acc). apply sublist_app; [done|].
    apply sublist_nil_l.
  - intros m Hm. assert (m ∈ acc \/ (b = true /\ m = n)) as [Hma|[-> ->]].
    { destruct b; [|by left]. apply elem_of_app in Hm as [?|?%list_elem_of_singleton]; auto. }
    + eapply ready_ext; eauto.
    + destruct (Ht eq_refl) as [-> Hall]. by exists c.
  - intros m. rewrite Etake. intros [Hm|Hm]%elem_of_app.
    + apply Hlook, (looked_at_ext _ _ _ _ He1) in Hm as [?|?]; [|by right]. left. destruct b; set_solver.
    + apply list_elem_of_singleton in Hm as ->. destruct b; [left; set_solver|]. right.
      destruct (Hfa eq_refl) as [?|(-> & d & st & ? & ? & ?)]; [by left|]. right. by exists c, d, st.
  - exists r, k', v'. split_and!; try tauto. by eapply ext_trans.
Qed.

(** ** One transition *)

Definition moved (n : Component_name) (from to : Z) (k : kernel) : kernel :=
  match contexts k !! n, per_state k !! from with
  | Some c, Some v =>
      let '(st, k) := run_action works n to c k in
      let k := set_per_state (<[from := remove_first (fun x => bool_decide (x = n)) v]> (per_state k)) k in
      set_per_state (<[st := default [] (per_state k !! st) ++ [n]]> (per_state k)) k
  | _, _ => k
  end.

Definition new_state (n : Component_name) (to : Z) : Z := if works n to then to else ERROR.

Lemma remove_first_elem (n : Component_name) v m :
  NoDup v -> m ∈ remove_first (fun x => bool_decide (x = n)) v <-> m ∈ v /\ m <> n.
Proof.
  induction v as [|x v IH]; intros Hnd; simpl; [set_solver|]. apply NoDup_cons in Hnd as [Hx Hnd].
  case_bool_decide as E; [subst; set_solver|]. rewrite !elem_of_cons, IH by done. naive_solver.
Qed.
Lemma remove_first_NoDup {A} (f : A -> bool) (v : list A) : NoDup v -> NoDup (remove_first f v).
Proof.
  induction v as [|x v IH]; intros Hnd; simpl; [done|]. apply NoDup_cons in Hnd as [Hx Hnd].
  destruct (f x); [done|]. apply NoDup_cons. split; [|auto]. intros Hin. apply Hx. clear -Hin.
  induction v as [|y v IH]; simpl in *; [done|]. destruct (f y); set_solver.
Qed.

Lemma steps_snoc m n to l : steps m (l ++ [(n, to)]) = steps m l ++ (if bool_decide (n = m) then [to] else []).
Proof.
  unfold steps. rewrite filter_app, fmap_app. f_equal. unfold filter. simpl. case_bool_decide; case_decide; done.
Qed.
Lemma steps_elem n st l : st ∈ steps n l <-> (n, st) ∈ l.
Proof.
  unfold steps. rewrite list_elem_of_fmap. split.
  - intros ([m s] & -> & [Hm Hin]%list_elem_of_filter). simpl in *. by subst.
  - intros Hin. exists (n, st). split; [done|]. by apply list_elem_of_filter.
Qed.
Lemma installed_logged k d : inv k -> in_state k d INSTALLED -> (d, INSTALLED) ∈ log k.
Proof.
  intros Hi (c & Hc & Hs). apply steps_elem. pose proof (i_steps k Hi d) as H. unfold steps_ok in H. rewrite Hc, Hs in H.
  destruct H as [(_ & -> & _)|[? _]]; [|done]. apply elem_of_seqZ. unfold INSTALLED. lia.
Qed.

Section transition.
Context (k : kernel) (n : Component_name) (from : Z).
Hypothesis (Hi : inv k) (Hn : in_state k n from) (Hfrom : 0 <= from < INSTALLED) (Hr : ready k n).
Let to := from + 1.
Let k' := moved n from to k.

Lemma new_state_range : from < new_state n to <= ERROR.
Proof. unfold new_state, to, INSTALLED, ERROR in *. destruct (works n (from + 1)); lia. Qed.

Lemma moved_fields :
  exists c v, contexts k !! n = Some c /\ current_state c = from /\ per_state k !! from = Some v /\
    contexts k' = <[n := Context (new_state n to) (required_state c) (dependencies c)]> (contexts k) /\
    per_state k' = <[new_state n to := default [] (per_state k !! new_state n to) ++ [n]]>
      (<[from := remove_first (fun x => bool_decide (x = n)) v]> (per_state k)) /\
    log k' = log k ++ [(n, to)] /\ deployers k' = deployers k /\
    state_requirements_changed k' = state_requirements_changed k /\ installing k' = installing k.
Proof.
  destruct Hn as (c & Hc & Hs). destruct (i_booted k Hi from Hfrom) as [v Hv]. exists c, v.
  unfold k', moved. rewrite Hc, Hv. cbn. pose proof new_state_range.
  rewrite lookup_insert_ne by (unfold new_state in *; lia). done.
Qed.

Lemma moved_in_state m st : in_state k' m st <-> (m <> n /\ in_state k m st) \/ (m = n /\ st = new_state n to).
Proof.
  destruct moved_fields as (c & v & Hc & _ & _ & Hk & _). unfold in_state. rewrite Hk.
  destruct (decide (m = n)) as [->|Hm].
  - rewrite lookup_insert_eq. split; [intros (? & [= <-] & <-); by right|]. intros [[? _]|[_ ->]]; [done|]. by eexists.
  - rewrite lookup_insert_ne by done. naive_solver.
Qed.

Lemma moved_installed d : in_state k d INSTALLED -> in_state k' d INSTALLED.
Proof.
  intros Hd. apply moved_in_state. left. split; [|done]. intros ->. pose proof (in_state_fun _ _ _ _ Hd Hn). lia.
Qed.

Lemma moved_steps m : steps_ok m k'.
Proof.
  pose proof (i_steps k Hi m) as Hs. destruct moved_fields as (c & v & Hc & Hst & _ & Hk & _ & Hl & _).
  unfold steps_ok in *. rewrite Hk, Hl, steps_snoc. destruct (decide (m = n)) as [->|Hm].
  2: { rewrite lookup_insert_ne, bool_decide_false, app_nil_r by done. done. }
  rewrite lookup_insert_eq, bool_decide_true by done. rewrite Hc, Hst in Hs. cbn [current_state].
  destruct Hs as [(_ & Hsteps & Hw)|[? _]]; [|unfold INSTALLED, ERROR in *; lia].
  assert (Hseq : steps n (log k) ++ [to] = seqZ 1 to).
  { rewrite Hsteps. unfold to. rewrite (seqZ_app 1 from 1) by lia. rewrite (Z.add_comm 1 from). done. }
  unfold new_state. destruct (works n to) eqn:Ew; [left|right; split; [done|]; exists to].
  - unfold to, INSTALLED in *. split_and!; [lia|lia|done|]. intros j Hj.
    destruct (decide (j = from + 1)) as [->|]; [done|]. apply Hw. lia.
  - unfold to, INSTALLED in *. split_and!; [lia|lia|done|done].
Qed.

Lemma moved_inv : inv k'.
Proof.
  pose proof new_state_range as Hns. pose proof moved_in_state as Hst. pose proof moved_steps as Hsteps.
  destruct moved_fields as (c & v & Hc & Ecs & Hv & Hk & Hp & Hl & Hd & _ & _).
  destruct Hr as (c' & Hc' & Hdeps). rewrite Hc in Hc'. injection Hc' as <-.
  destruct (i_lists k Hi _ _ Hv) as [Hnd Hin].
  split; [| | | | | |exact Hsteps|].
  - intros m. unfold describes. rewrite Hk, Hd. pose proof (i_desc k Hi m) as Hm. unfold describes in Hm.
    destruct (decide (m = n)) as [->|]; [by rewrite lookup_insert_eq; rewrite Hc in Hm|by rewrite lookup_insert_ne].
  - intros st l. rewrite Hp. destruct (decide (st = new_state n to)) as [->|Hst1].
    + rewrite lookup_insert_eq. intros [= <-]. destruct (per_state k !! new_state n to) as [w|] eqn:Ew; cbn [default].
      * destruct (i_lists k Hi _ _ Ew) as [Hwd Hwin].
        assert (n ∉ w). { intros Hw%Hwin. pose proof (in_state_fun _ _ _ _ Hw Hn). lia. }
        split; [apply NoDup_app; split_and!; [done|set_solver|apply NoDup_singleton]|].
        intros m. rewrite elem_of_app, list_elem_of_singleton, Hst, Hwin. split; [|naive_solver].
        intros [Hm| ->]; [|by right]. left. split; [|done]. intros ->. pose proof (in_state_fun _ _ _ _ Hm Hn). lia.
      * cbn [app]. split; [apply NoDup_singleton|]. intros m. rewrite list_elem_of_singleton, Hst. split; [by right|].
        intros [[_ Hm]|[-> _]]; [|done]. apply (i_has k Hi) in Hm. rewrite Ew in Hm. by destruct Hm.
    + rewrite lookup_insert_ne by done. destruct (decide (st = from)) as [->|Hst2].
      * rewrite lookup_insert_eq. intros [= <-]. split; [by apply remove_first_NoDup|]. intros m.
        rewrite remove_first_elem by done. rewrite Hst, Hin. split; [naive_solver|].
        intros [[? ?]|[_ ?]]; [done|lia].
      * rewrite lookup_insert_ne by done. intros Hl'. destruct (i_lists k Hi _ _ Hl') as [Hwd Hwin].
        split; [done|]. intros m. rewrite Hst, Hwin. split; [|naive_solver]. intros Hm. left. split; [|done].
        intros ->. pose proof (in_state_fun _ _ _ _ Hm Hn). done.
  - intros m st [[_ Hm]|[-> ->]]%Hst; rewrite Hp; [|by rewrite lookup_insert_eq].
    apply (i_has k Hi) in Hm. destruct (decide (st = new_state n to)) as [->|]; [by rewrite lookup_insert_eq|].
    rewrite lookup_insert_ne by done. destruct (decide (st = from)) as [->|]; [by rewrite lookup_insert_eq|].
    by rewrite lookup_insert_ne.
  - intros st Hb%(i_booted k Hi). rewrite Hp. destruct (decide (st = new_state n to)) as [->|]; [by rewrite lookup_insert_eq|].
    rewrite lookup_insert_ne by done. destruct (decide (st = from)) as [->|]; [by rewrite lookup_insert_eq|].
    by rewrite lookup_insert_ne.
  - intros m cm d. rewrite Hk. destruct (decide (m = n)) as [->|Hm].
    + rewrite lookup_insert_eq. intros [= <-] _ Hdin. apply moved_installed. auto.
    + rewrite lookup_insert_ne by done. intros. apply moved_installed. by eapply i_deps.
  - intros m cm. rewrite Hk. destruct (decide (m = n)) as [->|Hm].
    + rewrite lookup_insert_eq. intros [= <-] _ d Hdin. apply (installed_installable k); auto.
    + rewrite lookup_insert_ne by done. by apply i_acc.
  - intros pre m st suf. rewrite Hl. intros E ds d Hg Hdin.
    destruct suf as [|p suf _] using rev_ind.
    + apply app_inj_tail in E as [<- [= <- <-]]. apply installed_logged; [done|]. apply Hdeps.
      pose proof (i_desc k Hi n) as Hm. unfold describes in Hm. rewrite Hc, Hg in Hm. congruence.
    + rewrite app_comm_cons, app_assoc in E. apply app_inj_tail in E as [E _]. by eapply (i_order k Hi).
Qed.
End transition.

(** ** All ready components of a state move on *)

Definition same_names (k k' : kernel) : Prop := forall n, is_Some (contexts k !! n) -> is_Some (contexts k' !! n).

Lemma advance_spec from r k :
  inv k -> 0 <= from < INSTALLED -> NoDup r -> (forall n, n ∈ r -> in_state k n from /\ ready k n) ->
  exists k', advance works from (from + 1) r k = KOk tt k' /\ inv k' /\ installing k' = installing k /\
    state_requirements_changed k' = state_requirements_changed k /\ undeployed k' = undeployed k /\
    known k' = known k /\ (todo k' + length r <= todo k)%nat /\ same_names k k'.
Proof.
  revert k. induction r as [|n r IH]; intros k Hi Hf Hnd Hr; simpl.
  { exists k. split_and!; try done; [lia|by intros m]. }
  apply NoDup_cons in Hnd as [Hnr Hnd]. destruct (Hr n) as [Hn Hrn]; [set_solver|].
  pose proof (moved_inv k n from Hi Hn Hf Hrn) as Hi1. pose proof (moved_in_state k n from Hi Hn Hf) as Hst1.
  pose proof (new_state_range n from Hf) as Hns.
  destruct (moved_fields k n from Hi Hn Hf) as (c & v & Hc & Hcs & Hv & Hk1 & Hp1 & Hl1 & Hd1 & Hch1 & Hin1).
  set (k1 := moved n from (from + 1) k) in *.
  destruct (IH k1) as (k' & E & Hi' & Hin' & Hch' & Hu' & Hkn' & Ht' & Hnm'); [done|done|done| |].
  { intros m Hm. destruct (Hr m) as [Hms Hmr]; [set_solver|]. split.
    - apply Hst1. left. split; [|done]. by intros ->.
    - destruct Hmr as (cm & Hcm & Hdm). exists cm. rewrite Hk1, lookup_insert_ne by (by intros ->). split; [done|].
      intros d Hdin. by apply (moved_installed k n from Hi Hn Hf), Hdm. }
  exists k'. rewrite Hc. destruct (i_lists k Hi _ _ Hv) as [Hvnd Hvin].
  unfold run_action. cbn [per_state contexts set_per_state]. rewrite Hv.
  assert (Eb : existsb (fun x => bool_decide (x = n)) (remove_first (fun x => bool_decide (x = n)) v) = false).
  { apply not_true_iff_false. intros (x & Hx & ->%bool_decide_eq_true)%existsb_exists. apply list_elem_of_In in Hx.
    apply remove_first_elem in Hx as [_ ?]; done. }
  rewrite Eb. split_and!; [|done|congruence|congruence| | | |].
  - rewrite <- E. unfold k1, moved. rewrite Hc, Hv. cbn. f_equal.
  - rewrite Hu'. unfold undeployed. by rewrite Hd1.
  - rewrite Hkn'. unfold known, undeployed. rewrite Hk1, Hd1, map_size_insert_Some; [done|by eexists].
  - pose proof (weight_insert k k1 n _ Hk1) as Hw. rewrite Hc in Hw.
    cbn [fmap option_fmap option_map default] in Hw. unfold left_of in Hw. rewrite Hcs in Hw. cbn [current_state] in Hw.
    assert (undeployed k1 = undeployed k) by (unfold undeployed; by rewrite Hd1).
    unfold todo, INSTALLED, ERROR in *. unfold id in Hw. lia.
  - intros m Hm. apply Hnm'. rewrite Hk1. destruct (decide (m = n)) as [->|]; [by rewrite lookup_insert_eq|].
    by rewrite lookup_insert_ne.
Qed.

(** ** [Kernel::resolve(from, to)] and the loop over the states *)

Lemma resolve_state_spec resolve fuel from k :
  inv k -> installing k = true -> 0 <= from < INSTALLED -> (known k <= fuel)%nat ->
  exists p k', resolve_state works resolve fuel from (from + 1) k = KOk p k' /\ inv k' /\ installing k' = true /\
    same_names k k' /\ known k' = known k /\ (todo k' <= todo k)%nat /\ (p = true -> (todo k' < todo k)%nat) /\
    (p = false -> (k' = k \/ (state_requirements_changed k' = true /\ (todo k' < todo k)%nat)) /\
       forall n, in_state k' n from -> state_requirements_changed k' = true \/ blocked k' n).
Proof.
  intros Hi Hk Hf Hfuel. destruct (i_booted k Hi from Hf) as [v Hv].
  assert (Hlen : (length v <= size (contexts k))%nat).
  { destruct (i_lists k Hi _ _ Hv) as [Hnd Hin]. rewrite <- length_map_to_list, <- (length_fmap fst).
    apply submseteq_length, NoDup_submseteq; [done|]. intros n (c & Hc & _)%Hin.
    apply list_elem_of_fmap. exists (n, c). split; [done|]. by apply elem_of_map_to_list. }
  destruct (resolve_contexts_spec resolve fuel from 0 [] k v) as (r & k1 & v1 & E & Hi1 & He & Hv1 & Hsub & Hr & Hlook);
    [done|done|done|unfold known in Hfuel; lia|apply sublist_nil_l|set_solver|set_solver|].
  unfold resolve_state. rewrite E. cbn [kbind]. destruct (i_lists k1 Hi1 _ _ Hv1) as [Hnd1 Hin1].
  destruct (advance_spec from r k1) as (k2 & E2 & Hi2 & Hin2 & Hch2 & Hu2 & Hkn2 & Ht2 & Hnm2); [done|done| | |].
  { by eapply sublist_NoDup. }
  { intros n Hn. split; [|by apply Hr]. apply Hin1. by eapply elem_of_submseteq; [|by apply sublist_submseteq]. }
  rewrite E2. cbn [kbind]. pose proof (e_todo _ _ He) as Het. pose proof (e_known _ _ He) as Hek.
  assert (Hu : (undeployed k1 <= undeployed k)%nat) by (destruct (e_same _ _ He) as [->|[_ ?]]; lia).
  exists (negb (is_nil r)), k2. split_and!; [done|done| | |congruence|lia| |].
  - rewrite Hin2, (e_installing _ _ He). done.
  - intros n [c Hc]. apply Hnm2. exists c. by eapply e_deps.
  - destruct r; [done|]. simpl in *. intros _. lia.
  - destruct r; [|done]. intros _. cbn in E2. injection E2 as <-.
    split; [destruct (e_same _ _ He) as [->|[? ?]]; [by left|right; split; [done|lia]]|].
    intros n Hn%Hin1%Hlook. destruct Hn as [?|?]; [set_solver|done].
Qed.

Lemma resolve_states_spec resolve fuel states k :
  inv k -> installing k = true -> Forall (fun i => 0 <= i < INSTALLED) states -> (known k <= fuel)%nat ->
  exists p k', resolve_states works resolve fuel states k = KOk p k' /\ inv k' /\ installing k' = true /\
    same_names k k' /\ known k' = known k /\ (todo k' <= todo k)%nat /\ (p = true -> (todo k' < todo k)%nat) /\
    (p = false -> (k' = k \/ (state_requirements_changed k' = true /\ (todo k' < todo k)%nat)) /\
       forall i n, i ∈ states -> in_state k' n i -> state_requirements_changed k' = true \/ blocked k' n).
Proof.
  intros Hi Hk Hs. revert k Hi Hk. induction Hs as [|i states Hf _ IH]; intros k Hi Hk Hfuel; simpl.
  { exists false, k. split_and!; try done; [by intros m|]. intros _. split; [by left|set_solver]. }
  destruct (resolve_state_spec resolve fuel i k Hi Hk Hf Hfuel) as (p & k1 & E & Hi1 & Hk1 & Hnm1 & Hkn1 & Ht1 & Hp1 & Hp1').
  rewrite E. cbn [kbind]. destruct p; [exists true, k1; split_and!; try done; by apply Hp1|].
  destruct (IH k1 Hi1 Hk1) as (p & k2 & E2 & Hi2 & Hk2 & Hnm2 & Hkn2 & Ht2 & Hp2 & Hp2'); [lia|]. rewrite E2.
  destruct (Hp1' eq_refl) as [Hsame1 Hall1]. exists p, k2. split_and!; try done; try lia.
  - intros n Hn. by apply Hnm2, Hnm1.
  - intros Ep. specialize (Hp2 Ep). lia.
  - intros Ep. destruct (Hp2' Ep) as [Hsame2 Hall2]. split.
    + destruct Hsame1 as [->|[? ?]], Hsame2 as [->|[? ?]]; [by left|right..]; split; try done; lia.
    + intros j n [->|Hj]%elem_of_cons; [|by apply Hall2]. destruct Hsame2 as [->|[? ?]]; [by apply Hall1|by left].
Qed.

(** ** [Kernel::resolve()] ends, with every component installed or blocked *)

Lemma resolve_loop_spec fuel p k :
  inv k -> installing k = true -> (todo k + known k + 2 <= fuel)%nat ->
  (p = false -> forall i n, 0 <= i < INSTALLED -> in_state k n i -> state_requirements_changed k = true \/ blocked k n) ->
  exists k', resolve_loop works fuel p k = KOk tt k' /\ inv k' /\ installing k' = false /\ same_names k k' /\
    forall n i, 0 <= i < INSTALLED -> in_state k' n i -> blocked k' n.
Proof.
  remember (todo k) as w eqn:Ew. revert fuel p k Ew. induction (lt_wf w) as [w _ IH].
  intros fuel p k Ew Hi Hk Hfuel Hp. destruct fuel as [|fuel]; [lia|]. cbn [resolve_loop].
  destruct (p || state_requirements_changed k) eqn:Eg.
  2: { apply orb_false_iff in Eg as [-> Hch]. exists (set_installing false k). split_and!; [done| |done|by intros m|].
       - destruct Hi as [H1 H2 H3 H4 H5 H6 H7 H8]. split; auto.
       - intros n i Hr Hs. destruct (Hp eq_refl i n Hr Hs) as [?|?]; [congruence|done]. }
  assert (Hi0 : inv (set_changed false k)) by (destruct Hi as [H1 H2 H3 H4 H5 H6 H7 H8]; split; auto).
  destruct (resolve_states_spec (fun k => resolve_loop works fuel true (set_installing true k)) fuel [0; 1; 2; 3; 4; 5]
    (set_changed false k)) as (q & k1 & E & Hi1 & Hk1 & Hnm1 & Hkn1 & Ht1 & Hq & Hq'); [done|done| | |].
  { repeat constructor; unfold INSTALLED; lia. }
  { change (known (set_changed false k)) with (known k). lia. }
  rewrite E. cbn [kbind]. change (known (set_changed false k)) with (known k) in *.
  change (todo (set_changed false k)) with (todo k) in *.
  assert (Hblk : q = false -> forall i n, 0 <= i < INSTALLED -> in_state k1 n i ->
    state_requirements_changed k1 = true \/ blocked k1 n).
  { intros Eq i n Hr. apply (proj2 (Hq' Eq)). unfold INSTALLED in Hr. apply list_elem_of_In. simpl. lia. }
  destruct (decide (todo k1 < todo k)%nat) as [Hlt|Hge].
  - destruct (IH (todo k1) ltac:(lia) fuel q k1) as (k' & ? & ? & ? & Hnm' & ?); try done; [lia|].
    exists k'. split_and!; try done. intros n Hn. apply Hnm'. by apply Hnm1.
  - destruct q; [specialize (Hq eq_refl); lia|]. destruct (Hq' eq_refl) as [[->|[_ ?]] _]; [|lia].
    destruct fuel as [|fuel]; [lia|]. exists (set_installing false (set_changed false k)). split_and!; [done| |done|by intros m|].
    + destruct Hi as [H1 H2 H3 H4 H5 H6 H7 H8]. split; auto.
    + intros n i Hr Hs. destruct (Hblk eq_refl i n Hr Hs) as [?|?]; done.
Qed.

(** Where nothing can move, exactly the installable components are installed. *)
Lemma settled_installable k :
  inv k -> (forall n i, 0 <= i < INSTALLED -> in_state k n i -> blocked k n) ->
  forall n c, contexts k !! n = Some c -> current_state c = INSTALLED <-> installable n.
Proof.
  intros Hi Hb n c Hc. split; [intros Hs; apply (installed_installable k); [done|by exists c]|].
  intros Hn. revert c Hc. induction Hn as [n ds Hg _ IH Hw]; intros c Hc.
  pose proof (i_steps k Hi n) as Hs. unfold steps_ok in Hs. rewrite Hc in Hs.
  destruct Hs as [(Hr & _)|(_ & j & Hj & _ & Hf)]; [|rewrite Hw in Hf; done].
  destruct (decide (current_state c = INSTALLED)) as [?|Hne]; [done|]. exfalso.
  destruct (Hb n (current_state c)) as (c' & d & st & Hc' & Hd & (cd & Hcd & Hst) & Hne'); [lia|by exists c|].
  rewrite Hc in Hc'. injection Hc' as <-. pose proof (i_desc k Hi n) as Hm. unfold describes in Hm.
  rewrite Hc, Hg in Hm. injection Hm as Hm. apply Hne'. rewrite <- Hst. apply (IH d); [by rewrite <- Hm|done].
Qed.

(** Neither flag matters to the invariant. *)
Lemma inv_flags k b c : inv k -> inv (set_changed b (set_installing c k)).
Proof. intros [H1 H2 H3 H4 H5 H6 H7 H8]. split; auto. Qed.

Lemma install_spec k name ds fuel :
  inv k -> installing k = false -> contexts k !! name = None -> G name = Some ds ->
  (todo k + known k + 2 <= fuel)%nat ->
  exists k', ((installable name /\ install works fuel name INSTALLED k = KOk tt k') \/
      (~ installable name /\ install works fuel name INSTALLED k = KThrow Cannot_change k')) /\
    inv k' /\ installing k' = false /\ same_names k k' /\
    forall n c, contexts k' !! n = Some c -> current_state c = INSTALLED <-> installable n.
Proof.
  intros Hi Hin Hd Hg Hfuel. pose proof (i_desc k Hi name) as Hdesc. unfold describes in Hdesc. rewrite Hd, Hg in Hdesc.
  destruct (find_deployer name (deployers k)) as [[deps ds']|] eqn:Ef; [|done].
  injection Hdesc as ->. destruct (find_deployer_spec name (deployers k) ds ds' Ef) as [Hsz Hoth].
  set (k2 := Kernel ds' (<[name := Context NOT_INSTALLED INSTALLED ds]> (contexts k))
    (<[NOT_INSTALLED := default [] (per_state k !! NOT_INSTALLED) ++ [name]]> (per_state k))
    (state_requirements_changed k) false (log k)).
  assert (E : install works fuel name INSTALLED k =
    kbind (resolve works fuel k2) (fun _ k => match get_in name INSTALLED k with
      | Some _ => KOk tt k | None => KThrow Cannot_change k end)).
  { unfold install, install_with. rewrite Hd, Ef. unfold install_context. cbn [contexts set_deployers]. rewrite Hd.
    unfold change at 1. cbn [contexts set_deployers set_contexts set_per_state per_state]. rewrite lookup_insert_eq.
    cbn [current_state]. rewrite Z.eqb_refl. cbn [kbind]. unfold change.
    cbn [contexts set_deployers set_contexts set_per_state per_state]. rewrite lookup_insert_eq.
    cbn [current_state dependencies installing set_deployers set_contexts set_per_state].
    change (NOT_INSTALLED =? INSTALLED) with false. change (INSTALLED <? NOT_INSTALLED) with false. cbn iota. rewrite Hin.
    unfold set_contexts, set_per_state, set_deployers. cbn. rewrite insert_insert_eq, Hin. unfold k2.
    by destruct (per_state k !! NOT_INSTALLED). }
  assert (Hh : handed (set_installing true k) name ds (set_changed true (set_installing true k2))) by (split; done).
  pose proof (inv_flags k (state_requirements_changed k) true Hi) as Hi0.
  change (inv (set_installing true k)) in Hi0.
  apply (handed_inv _ _ _ _ Hi0 Hd Hg) in Hh as Hi2. pose proof (handed_ext _ _ _ _ Hi0 eq_refl Hd Hh) as He.
  apply (inv_flags _ (state_requirements_changed k2) true) in Hi2.
  change (inv (set_installing true k2)) in Hi2.
  destruct (resolve_loop_spec fuel true (set_installing true k2)) as (k' & E' & Hi' & Hin' & Hnm & Hblk); [done|done| |done|].
  { pose proof (e_todo _ _ He) as H1. pose proof (e_known _ _ He) as H2. pose proof (h_undeployed _ _ _ _ Hh) as H3.
    change (todo (set_changed true (set_installing true k2))) with (todo (set_installing true k2)) in H1.
    change (undeployed (set_changed true (set_installing true k2))) with (undeployed (set_installing true k2)) in *.
    change (known (set_changed true (set_installing true k2))) with (known (set_installing true k2)) in H2.
    change (todo (set_installing true k)) with (todo k) in H1. change (known (set_installing true k)) with (known k) in H2.
    lia. }
  pose proof (settled_installable k' Hi' Hblk) as Hset. exists k'. split; [|split_and!; try done].
  - rewrite E. unfold resolve. rewrite E'. cbn [kbind]. unfold get_in.
    destruct (Hnm name) as [c Hc]; [cbn; by rewrite lookup_insert_eq|]. rewrite Hc. specialize (Hset name c Hc).
    destruct (Z.eqb_spec (current_state c) INSTALLED); [left|right]; split; try done; tauto.
  - intros n Hn. apply Hnm. cbn. destruct (decide (n = name)) as [->|]; [by rewrite lookup_insert_eq|].
    by rewrite lookup_insert_ne.
Qed.
End facts.
