(* ===== verification/KernelProps.v ===== *)
(** * The component kernel: what the controller relies on *)

From stdpp Require Import strings.
From S2P Require Import Prelude Kernel KernelFacts.

Open Scope Z_scope.

(** ** A booted kernel

    The controller first installs a component without dependencies. *)

Definition booted (n : Component_name) (ds : list deployer) : kernel :=
  Kernel ds {[ n := Context INSTALLED INSTALLED [] ]}
    {[ 0 := []; 1 := []; 2 := []; 3 := []; 4 := []; 5 := []; 6 := [n] ]} false false
    ((fun j => (n, j)) <$> seqZ 1 6).

Lemma boot_dispatcher ds :
  install_static (fun _ _ => true) 20 "built-in event dispatcher" [] INSTALLED (new_kernel ds) =
  KOk tt (booted "built-in event dispatcher" ds).
Proof. vm_compute. reflexivity. Qed.

Lemma booted_in_state n ds m st : in_state (booted n ds) m st <-> m = n /\ st = INSTALLED.
Proof.
  unfold in_state, booted. cbn. split.
  - intros (c & [<- <-]%lookup_singleton_Some & <-). done.
  - intros [-> ->]. eexists. by rewrite lookup_singleton_eq.
Qed.

Lemma booted_per_state n ds st l :
  per_state (booted n ds) !! st = Some l <-> (0 <= st < INSTALLED /\ l = []) \/ (st = INSTALLED /\ l = [n]).
Proof.
  split.
  - unfold booted, INSTALLED. cbn [per_state]. rewrite !lookup_insert_Some, lookup_singleton_Some. naive_solver lia.
  - unfold INSTALLED. intros [[Hr ->]|[-> ->]]; [|reflexivity].
    assert (st = 0 \/ st = 1 \/ st = 2 \/ st = 3 \/ st = 4 \/ st = 5) as Hst by lia.
    destruct Hst as [->|[->|[->|[->|[->| ->]]]]]; reflexivity.
Qed.

Lemma booted_inv works n ds :
  (forall j, 1 <= j <= INSTALLED -> works n j = true) -> inv works (describes (booted n ds)) (booted n ds).
Proof.
  intros Hw. pose proof (booted_in_state n ds) as Hst. pose proof (booted_per_state n ds) as Hps.
  assert (Hc : forall m c, contexts (booted n ds) !! m = Some c -> m = n /\ c = Context INSTALLED INSTALLED []).
  { intros m c. unfold booted. cbn [contexts]. intros [<- <-]%lookup_singleton_Some. done. }
  split.
  - done.
  - intros st l [[Hr ->]|[-> ->]]%Hps.
    + split; [constructor|]. intros m. rewrite Hst. split; [set_solver|]. intros [_ ->]. lia.
    + split; [apply NoDup_singleton|]. intros m. rewrite Hst, list_elem_of_singleton. naive_solver.
  - intros m st [-> ->]%Hst. exists [n]. apply Hps. by right.
  - intros st Hr. exists []. apply Hps. by left.
  - intros m c d [_ ->]%Hc. set_solver.
  - intros m c [_ ->]%Hc _ d. set_solver.
  - intros m. unfold steps_ok. destruct (contexts (booted n ds) !! m) as [c|] eqn:E.
    + apply Hc in E as [-> ->]. left. unfold INSTALLED in *. cbn [current_state]. split_and!; [lia|lia| |done].
      unfold steps, booted. cbn [log]. rewrite filter_all, <- list_fmap_compose; [by apply list_fmap_id|].
      intros x (j & -> & _)%list_elem_of_fmap. done.
    + apply elem_of_nil_inv. intros j Hj%steps_elem. unfold booted in Hj. cbn [log] in Hj.
      apply list_elem_of_fmap in Hj as (i & [= -> ->] & _). cbn in E. by rewrite lookup_singleton_eq in E.
  - intros pre m st suf E ds' d Hg Hd. assert (Hm : (m, st) ∈ log (booted n ds)) by (rewrite E; set_solver).
    unfold booted in Hm. cbn [log] in Hm. apply list_elem_of_fmap in Hm as (i & [= -> ->] & _).
    unfold describes, booted in Hg. cbn in Hg. rewrite lookup_singleton_eq in Hg. injection Hg as <-. set_solver.
Qed.

(** ** Properties *)


(** Three applications: the switch needs the Python runtime, two others need
    each other. *)
Definition demo_deployer : deployer :=
  {[ "switch" := ["python"]; "python" := []; "a" := ["b"]; "b" := ["python"; "a"] ]}.
Definition demo_kernel : kernel := booted "built-in event dispatcher" [demo_deployer].

Lemma demo_closed n ds d : describes demo_kernel n = Some ds -> d ∈ ds -> is_Some (describes demo_kernel d).
Proof.
  intros Hn Hd. unfold describes in Hn. destruct (contexts demo_kernel !! n) as [c|] eqn:Ec.
  { unfold demo_kernel, booted in Ec. cbn [contexts] in Ec. apply lookup_singleton_Some in Ec as [_ <-].
    injection Hn as <-. set_solver. }
  assert (Hm : demo_deployer !! n = Some ds) by (cbn [deployers demo_kernel booted find_deployer] in Hn; by destruct (demo_deployer !! n); simplify_eq/=).
  assert (Hall : map_Forall (fun _ ds => Forall (fun d => is_Some (describes demo_kernel d)) ds) demo_deployer).
  { refine (bool_decide_unpack _ _). vm_compute. exact I. }
  specialize (Hall n ds Hm). rewrite Forall_forall in Hall. auto.
Qed.


(** A component cannot be installed to a state before [INSTALLED]: the kernel
    installs it and then reports an error. *)
Theorem lower_state_refused :
  exists k', install (fun _ _ => true) 80 "python" 5 demo_kernel = KThrow Cannot_change k' /\
    (current_state <$> contexts k' !! "python") = Some INSTALLED.
Proof. eexists. split; vm_compute; reflexivity. Qed.

(** A dependency without a description leaves the kernel in the middle of an
    installation: the next component is accepted and never installed. *)
Theorem missing_description_wedges :
  let k := booted "built-in event dispatcher" [ {[ "x" := ["absent"]; "python" := [] ]} ] in
  exists k1 k2, install (fun _ _ => true) 80 "x" INSTALLED k = KThrow Description_not_found k1 /\
    installing k1 = true /\ install (fun _ _ => true) 80 "python" INSTALLED k1 = KOk tt k2 /\
    (current_state <$> contexts k2 !! "python") = Some NOT_INSTALLED.
Proof.
  intros k. pose (after := fun r : kres unit => match r with KOk _ k => k | KThrow _ k => k | _ => k end).
  pose (k1 := after (install (fun _ _ => true) 80 "x" INSTALLED k)).
  exists k1, (after (install (fun _ _ => true) 80 "python" INSTALLED k1)).
  split_and!; vm_compute; reflexivity.
Qed.
