(* ===== verification/Messenger.v ===== *)
(** * The messenger (src/nox/coreapps/messenger/)

    [messenger_core] reads messages from TCP and TLS connections.  How the byte
    stream is cut into messages is up to a [message_processor], an interface:
    [messenger] reads a length field, [jsonmessenger] counts braces.

    [Aborted] is a copy of a negative size or past the end of a buffer. *)

From S2P Require Import Prelude Bytes.

Open Scope Z_scope.

Definition MESSENGER_MAX_MSG_SIZE : Z := 3072.

(** ** The interface [message_processor]

    [block] is the data received and not yet consumed, [data] the message buffer
    of the connection, of which [currSize] bytes are filled; [pstate] is what the
    processor keeps for the connection. *)
Class MessageProcessor := {
  pstate : Type;
  p_new : pstate;
  processBlock : bytes -> bytes -> Z -> pstate -> Z * pstate;
  msg_complete : bytes -> Z -> pstate -> bool
}.

(** ** [messenger_connection] *)

Section connection.
Context `{MessageProcessor}.

Record connection := Connection {
  internalrecvbuf : bytes;
  endpointer : Z;
  currSize : Z;
  proc : pstate
}.

(** The constructor, on whatever the memory holds *)
Definition new_connection (raw : bytes) : connection := Connection raw 0 0 p_new.

(** [messenger_connection::processBlock]: the messages handed to [process] *)
Fixpoint process_block (fuel : nat) (block : bytes) (c : connection) : res (list bytes * connection) :=
  match block with
  | [] => Ret ([], c)
  | _ =>
      match fuel with
      | O => NoFuel
      | S fuel =>
          let '(cpSize, p) := processBlock block (internalrecvbuf c) (currSize c) (proc c) in
          if (cpSize <? 0) || (Z.of_nat (length block) <? cpSize) || (MESSENGER_MAX_MSG_SIZE <? endpointer c + cpSize)
          then Aborted
          else
            let buf := store (Z.to_nat (endpointer c)) (take (Z.to_nat cpSize) block) (internalrecvbuf c) in
            let rest := drop (Z.to_nat cpSize) block in
            let size := currSize c + cpSize in
            if (0 <? size) && msg_complete buf size p then
              '(ms, c) ← process_block fuel rest (Connection buf 0 0 p);
              Ret (take (Z.to_nat size) buf :: ms, c)
            else process_block fuel rest (Connection buf (endpointer c + cpSize) size p)
      end
  end.

(** The loop of [run]: one block per successful read *)
Fixpoint run (fuel : nat) (blocks : list bytes) (c : connection) : res (list bytes * connection) :=
  match blocks with
  | [] => Ret ([], c)
  | b :: blocks =>
      '(m1, c) ← process_block fuel b c;
      '(m2, c) ← run fuel blocks c;
      Ret (m1 ++ m2, c)
  end.
End connection.

(** ** [messenger]: a length field of two bytes, which counts itself *)

Definition message_size (data : bytes) : Z := ntohs (load_word 0 2 data).

Definition messenger_processBlock (block data : bytes) (currSize : Z) : Z :=
  let dataSize := Z.of_nat (length block) in
  if currSize <? 2 then (if dataSize <? 2 then dataSize else 2)
  else
    let size := message_size data in
    if 0 <=? size - currSize - dataSize then dataSize else size - currSize.

Definition messenger_msg_complete (data : bytes) (currSize : Z) : bool :=
  (message_size data =? currSize) && (2 <? currSize).

#[export] Instance messenger : MessageProcessor := {|
  pstate := unit;
  p_new := tt;
  processBlock block data currSize s := (messenger_processBlock block data currSize, s);
  msg_complete data currSize _ := messenger_msg_complete data currSize
|}.

(** ** [jsonmessenger]: brackets and braces must balance *)

Record counters := Counters { brackets : Z; braces : Z }.
Definition balanced (c : counters) : bool := (brackets c =? 0) && (braces c =? 0).

(** The [switch] on one character; [prev] is the one before it. *)
Definition count (prev ch : Z) (c : counters) : counters :=
  if prev =? 92 then c
  else if ch =? 91 then Counters (brackets c + 1) (braces c)
  else if ch =? 93 then (if brackets c =? 0 then c else Counters (brackets c - 1) (braces c))
  else if ch =? 123 then Counters (brackets c) (braces c + 1)
  else if ch =? 125 then (if braces c =? 0 then c else Counters (brackets c) (braces c - 1))
  else c.

(** The loop over the block; the result is the number of bytes to copy. *)
Fixpoint json_scan (block : bytes) (prev j currSize : Z) (c : counters) : Z * counters :=
  match block with
  | [] => (j, c)
  | ch :: block =>
      let c := count prev ch c in
      if (2 <? currSize + j) && balanced c then (j + 1, c) else json_scan block ch (j + 1) currSize c
  end.

Definition json_processBlock (block data : bytes) (currSize : Z) (c : counters) : Z * counters :=
  let prev := if currSize =? 0 then 0 else nth (Z.to_nat (currSize - 1)) data 0 in
  json_scan block prev 0 currSize c.

Definition json_msg_complete (currSize : Z) (c : counters) : bool := (1 <? currSize) && balanced c.

(** A connection has its entry in [sock_counters] from its first block on; it is
    created with zeros. *)
Definition jsonmessenger : MessageProcessor := {|
  pstate := counters;
  p_new := Counters 0 0;
  processBlock := json_processBlock;
  msg_complete _ currSize c := json_msg_complete currSize c
|}.

(** ** Sending *)

(** [Msg_stream::send(msg, size)]; the default of [size] is 0. *)
Definition send (msg : bytes) (size : Z) : bytes := take (Z.to_nat size) msg.

Definition MSG_DISCONNECT : Z := 0.
Definition MSG_ECHO : Z := 1.
Definition MSG_ECHO_RESPONSE : Z := 2.

(** A [messenger_msg] without a body *)
Definition header (type : Z) : bytes := to_le 2 (htons 3) ++ [type].
Definition send_echo : bytes := send (header MSG_ECHO) 0.
Definition reply_echo : bytes := send (header MSG_ECHO_RESPONSE) 0.

(** [Msg_stream::init] with braces added, on memory [raw] *)
Definition json_init (str : bytes) : bytes := [123] ++ str ++ [125; 0].
Definition json_send (str : bytes) : bytes := send (json_init str) (Z.of_nat (length str) + 3).

(** ** Events

    [messenger::process] turns messages and changes of the connection into
    events, [messenger::handle_message] answers some of them; what is left goes
    to the other components. *)

Inductive message_code := Msg_code_normal | Msg_code_new_connection | Msg_code_disconnection.

Definition process (code : message_code) (msg : bytes) : bytes :=
  match code with
  | Msg_code_normal => msg
  | Msg_code_new_connection => to_le 2 0 ++ [0]
  | Msg_code_disconnection => header MSG_DISCONNECT
  end.

(** The disposition ([true] stops) and the bytes sent *)
Definition handle_message (ev : bytes) : bool * bytes :=
  if ntohs (load_word 0 2 ev) =? 0 then (false, [])
  else
    let type := nth 2 ev 0 in
    if type =? MSG_DISCONNECT then (true, [])
    else if type =? MSG_ECHO then (true, reply_echo)
    else if type =? MSG_ECHO_RESPONSE then (true, [])
    else (false, []).

(** ** Idle connections *)

Record idle := Idle { echoMissed : Z; lastActiveTime : Z; running : bool }.

Inductive idle_action := Echo_sent | Disconnected | Check_again (secs : Z).

(** [messenger_connection::check_idle]; [post_disconnect] counts as activity. *)
Definition check_idle (idleInterval thresholdEchoMissed now : Z) (s : idle) : list idle_action * idle :=
  let '(acts, s) :=
    if idleInterval <? now - lastActiveTime s then
      if thresholdEchoMissed <=? echoMissed s then ([Disconnected], Idle 0 now false)
      else ([Echo_sent], Idle (u8 (echoMissed s + 1)) (lastActiveTime s) (running s))
    else ([], s) in
  if running s && negb (idleInterval =? 0) then (acts ++ [Check_again idleInterval], s) else (acts, s).
