(* ===== verification/MessengerProps.v ===== *)
(** * The messenger: what a processor promises, what follows for connections, and
    the properties of both protocols *)

From S2P Require Import Prelude Bytes Messenger.

Open Scope Z_scope.

(** ** The promise

    [framed m]: [m] is one message.  [p_inv p cur]: [p] is the state after the
    bytes [cur] of a message.  The processor takes some of the data, never beyond
    the end of the message, and sees the end exactly there. *)
Class ProcessorLaws `{MessageProcessor} := {
  framed : bytes -> Prop;
  p_inv : pstate -> bytes -> Prop;
  p_inv_new : p_inv p_new [];
  framed_size m : framed m -> 0 < Z.of_nat (length m) <= MESSENGER_MAX_MSG_SIZE;
  processBlock_law cur rest block stale p :
    framed (cur ++ rest) -> rest <> [] -> block <> [] -> block `prefix_of` rest \/ rest `prefix_of` block ->
    p_inv p cur ->
    exists (n : nat) p', processBlock block (cur ++ stale) (Z.of_nat (length cur)) p = (Z.of_nat n, p') /\
      (0 < n <= length block)%nat /\ (n <= length rest)%nat /\
      forall stale', let cur' := cur ++ take n rest in
        msg_complete (cur' ++ stale') (Z.of_nat (length cur')) p' = bool_decide (n = length rest) /\
        p_inv p' (if bool_decide (n = length rest) then [] else cur')
}.

Section connections.
Context `{ProcessorLaws}.

(** The bytes [cur] have arrived of the messages [ms], and [S] are to come. *)
Definition pending (cur S : bytes) (ms : list bytes) : Prop :=
  cur ++ S = concat ms /\ Forall framed ms /\
  match ms with [] => cur = [] | m :: _ => (length cur < length m)%nat end.

(** The buffer holds [cur]. *)
Definition holds (cur : bytes) (c : connection) : Prop :=
  endpointer c = Z.of_nat (length cur) /\ currSize c = Z.of_nat (length cur) /\ p_inv (proc c) cur /\
  exists stale, internalrecvbuf c = cur ++ stale /\ Z.of_nat (length (cur ++ stale)) = MESSENGER_MAX_MSG_SIZE.

Lemma prefix_compare (a b x y : bytes) : a ++ b = x ++ y -> a `prefix_of` x \/ x `prefix_of` a.
Proof.
  intros E. apply app_eq_inv in E as [(l & -> & _)|(l & -> & _)]; [right|left]; by exists l.
Qed.

Lemma pending_step cur block S ms :
  block <> [] -> pending cur (block ++ S) ms ->
  exists rest ms', ms = (cur ++ rest) :: ms' /\ rest <> [] /\ block ++ S = rest ++ concat ms' /\
    framed (cur ++ rest) /\ Forall framed ms'.
Proof.
  intros Hb (E & Hf & Hl). destruct ms as [|m ms'].
  { subst cur. simpl in E. destruct block; [done|]. done. }
  apply Forall_cons in Hf as [Hm Hf]. simpl in E.
  assert (cur `prefix_of` m) as [rest ->].
  { destruct (prefix_compare _ _ _ _ E) as [?|[l Hl']]; [done|]. subst cur. rewrite length_app in Hl. lia. }
  exists rest, ms'. split_and!; try done.
  - intros ->. rewrite app_nil_r in Hl. lia.
  - rewrite <- app_assoc in E. by apply app_inv_head in E.
Qed.

Lemma store_middle (cur new stale : bytes) :
  (length new <= length stale)%nat -> store (length cur) new (cur ++ stale) = (cur ++ new) ++ drop (length new) stale.
Proof.
  intros Hl. unfold store. rewrite take_app_length, drop_app_ge by lia. rewrite <- app_assoc. repeat f_equal. lia.
Qed.

Lemma take_same (a b : bytes) n :
  (a `prefix_of` b \/ b `prefix_of` a) -> (n <= length a)%nat -> (n <= length b)%nat -> take n a = take n b.
Proof. intros [[l ->]|[l ->]] H1 H2; rewrite take_app_le by lia; done. Qed.

(** ** One block of data *)
Lemma process_block_spec fuel block S cur ms c :
  (length block <= fuel)%nat -> pending cur (block ++ S) ms -> holds cur c ->
  exists done_ todo cur' c', process_block fuel block c = Ret (done_, c') /\ ms = done_ ++ todo /\
    pending cur' S todo /\ holds cur' c'.
Proof.
  revert block cur ms c. induction fuel as [|fuel IH]; intros block cur ms c Hf Hp Hc.
  { destruct block; [|simpl in Hf; lia]. exists [], ms, cur, c. done. }
  destruct block as [|b0 block0]; [by exists [], ms, cur, c|].
  remember (b0 :: block0) as block eqn:Eb. assert (Hb : block <> []) by (by subst).
  destruct (pending_step cur block S ms Hb Hp) as (rest & ms' & -> & Hrest & E & Hm & Hms).
  destruct Hc as (He & Hs & Hpi & stale & Hbuf & Hlen).
  destruct (processBlock_law cur rest block stale (proc c) Hm Hrest Hb (prefix_compare _ _ _ _ E) Hpi)
    as (n & p' & Ep & [Hn0 Hn] & Hnr & Hlaw).
  pose proof (framed_size _ Hm) as Hsz. rewrite length_app in Hsz, Hlen.
  set (stale' := drop (length (take n block)) stale). destruct (Hlaw stale') as [Hcomp Hinv]. cbv zeta in Hcomp.
  assert (Etake : take n block = take n rest) by (apply take_same; [by eapply prefix_compare|done|done]).
  assert (Estore : store (length cur) (take n block) (cur ++ stale) = (cur ++ take n rest) ++ stale').
  { unfold stale'. rewrite <- Etake. apply store_middle. rewrite length_take. lia. }
  assert (Elen : length (cur ++ take n rest) = (length cur + n)%nat) by (rewrite length_app, length_take; lia).
  assert (Eproc : process_block (Datatypes.S fuel) block c =
    if bool_decide (n = length rest) then
      '(ms, c) ← process_block fuel (drop n block) (Connection ((cur ++ take n rest) ++ stale') 0 0 p');
      Ret ((cur ++ rest) :: ms, c)
    else process_block fuel (drop n block)
           (Connection ((cur ++ take n rest) ++ stale') (Z.of_nat (length (cur ++ take n rest)))
              (Z.of_nat (length (cur ++ take n rest))) p')).
  { rewrite Eb. cbn [process_block]. rewrite <- Eb, Hbuf, He, Hs, Ep.
    destruct (Z.ltb_spec (Z.of_nat n) 0); [lia|]. destruct (Z.ltb_spec (Z.of_nat (length block)) (Z.of_nat n)); [lia|].
    destruct (Z.ltb_spec MESSENGER_MAX_MSG_SIZE (Z.of_nat (length cur) + Z.of_nat n)); [lia|]. cbn [orb].
    rewrite !Nat2Z.id, Estore, <- Nat2Z.inj_add, Nat2Z.id, <- Elen, Hcomp.
    destruct (Z.ltb_spec 0 (Z.of_nat (length (cur ++ take n rest)))); [|lia]. cbn [andb].
    rewrite take_app_length. case_bool_decide as Ed; [|done]. subst n. by rewrite firstn_all. }
  assert (Elen' : Z.of_nat (length ((cur ++ take n rest) ++ stale')) = MESSENGER_MAX_MSG_SIZE).
  { rewrite length_app, Elen. unfold stale'. rewrite length_drop, length_take. lia. }
  assert (Eblock : block = take n rest ++ drop n block) by (rewrite <- Etake; symmetry; apply take_drop).
  rewrite Eproc. case_bool_decide as Ed.
  - destruct (IH (drop n block) [] ms' (Connection ((cur ++ take n rest) ++ stale') 0 0 p')) as (d & td & cur' & c' & E1 & -> & E2 & E3).
    + rewrite length_drop. lia.
    + split_and!; [|done|destruct ms' as [|m1 ?]; [done|]; apply Forall_cons in Hms as [Hm1 _]; apply framed_size in Hm1; simpl; lia].
      simpl. rewrite Eblock, Ed, firstn_all, <- app_assoc in E. by apply app_inv_head in E; rewrite Ed.
    + split_and!; [done|done|exact Hinv|]. by exists ((cur ++ take n rest) ++ stale').
    + rewrite E1. cbn [mbind res_bind]. by exists ((cur ++ rest) :: d), td, cur', c'.
  - apply (IH (drop n block) (cur ++ take n rest)).
    + rewrite length_drop. lia.
    + split_and!; [|by apply Forall_cons|rewrite Elen, length_app; lia]. simpl. rewrite <- !app_assoc. f_equal.
      rewrite <- E. rewrite Eblock at 2. by rewrite <- app_assoc.
    + split_and!; [done|done|exact Hinv|]. by exists stale'.
Qed.

(** ** All blocks *)
Lemma messenger_run_spec fuel blocks S cur ms c :
  Forall (fun b => length b <= fuel)%nat blocks -> pending cur (concat blocks ++ S) ms -> holds cur c ->
  exists done_ todo cur' c', run fuel blocks c = Ret (done_, c') /\ ms = done_ ++ todo /\
    pending cur' S todo /\ holds cur' c'.
Proof.
  intros Hb. revert cur ms c. induction Hb as [|b blocks Hb _ IH]; intros cur ms c Hp Hc; simpl in *.
  { by exists [], ms, cur, c. }
  rewrite <- app_assoc in Hp.
  destruct (process_block_spec fuel b (concat blocks ++ S) cur ms c Hb Hp Hc) as (d1 & t1 & cur1 & c1 & E1 & -> & Hp1 & Hc1).
  destruct (IH cur1 t1 c1 Hp1 Hc1) as (d2 & t2 & cur2 & c2 & E2 & -> & Hp2 & Hc2).
  rewrite E1. cbn [mbind res_bind]. rewrite E2. cbn [mbind res_bind]. exists (d1 ++ d2), t2, cur2, c2.
  split_and!; try done. by rewrite app_assoc.
Qed.

Lemma holds_new raw : Z.of_nat (length raw) = MESSENGER_MAX_MSG_SIZE -> holds [] (new_connection raw).
Proof. intros Hr. split_and!; [done|done|apply p_inv_new|]. by exists raw. Qed.
End connections.

(** ** The messenger: its two processors keep their promise *)

(** ** The length field *)

(** A message of [messenger]: a length field with its own length, and a type *)
Definition messenger_framed (m : bytes) : Prop :=
  is_bytes m /\ 3 <= Z.of_nat (length m) <= MESSENGER_MAX_MSG_SIZE /\ of_be (take 2 m) = Z.of_nat (length m).

Lemma message_size_prefix cur rest stale :
  messenger_framed (cur ++ rest) -> (2 <= length cur)%nat ->
  message_size (cur ++ stale) = Z.of_nat (length (cur ++ rest)).
Proof.
  intros (Hb & _ & Hs) Hl. unfold message_size, load_word, load. rewrite drop_0.
  rewrite take_app_le in Hs |- * by lia. apply Forall_app in Hb as [Hb _].
  rewrite ntohs_be; [done|rewrite length_take; lia|by apply Forall_take].
Qed.

Lemma messenger_block_law cur rest block stale (p : unit) :
  messenger_framed (cur ++ rest) -> rest <> [] -> block <> [] ->
  exists (n : nat) p', processBlock block (cur ++ stale) (Z.of_nat (length cur)) p = (Z.of_nat n, p') /\
    (0 < n <= length block)%nat /\ (n <= length rest)%nat /\
    forall stale', let cur' := cur ++ take n rest in
      msg_complete (cur' ++ stale') (Z.of_nat (length cur')) p' = bool_decide (n = length rest) /\ True.
Proof.
  destruct p. intros Hm Hr Hb. pose proof Hm as (_ & Hlen & _). rewrite length_app in Hlen.
  assert (0 < length block)%nat by (destruct block; [done|simpl; lia]).
  assert (0 < length rest)%nat by (destruct rest; [done|simpl; lia]).
  assert (Hn : exists n : nat, messenger_processBlock block (cur ++ stale) (Z.of_nat (length cur)) = Z.of_nat n /\
    (0 < n <= length block)%nat /\ (n <= length rest)%nat /\ (2 <= length cur + n \/ n = length block)%nat).
  { unfold messenger_processBlock. destruct (Z.ltb_spec (Z.of_nat (length cur)) 2).
    - destruct (Z.ltb_spec (Z.of_nat (length block)) 2); [exists (length block)|exists 2%nat]; lia.
    - rewrite (message_size_prefix cur rest stale Hm) by lia. rewrite length_app.
      match goal with |- context [0 <=? ?x] => destruct (Z.leb_spec 0 x) end; [exists (length block)|exists (length rest)]; lia. }
  destruct Hn as (n & En & Hn1 & Hn2 & _). exists n, tt. cbn. rewrite En. split_and!; try done; try lia.
  intros stale'. split; [|done]. unfold messenger_msg_complete.
  set (cur' := cur ++ take n rest). assert (Hl' : length cur' = (length cur + n)%nat).
  { unfold cur'. rewrite length_app, length_take. lia. }
  destruct (Z.ltb_spec 2 (Z.of_nat (length cur'))) as [H2|H2].
  - assert (Em : cur ++ rest = cur' ++ drop n rest) by (unfold cur'; rewrite <- app_assoc, take_drop; done).
    rewrite Em in Hm. rewrite (message_size_prefix cur' (drop n rest) stale' Hm), <- Em by lia. rewrite length_app, Hl'.
    rewrite andb_true_r. case_bool_decide; [apply Z.eqb_eq|apply Z.eqb_neq]; lia.
  - rewrite andb_false_r. symmetry. apply bool_decide_eq_false. lia.
Qed.

Definition messenger_laws : @ProcessorLaws messenger.
Proof.
  refine {| framed := messenger_framed; p_inv _ _ := True; p_inv_new := I |}.
  - intros m (_ & ? & _). unfold MESSENGER_MAX_MSG_SIZE in *. lia.
  - intros cur rest block stale p Hm Hr Hb _ _. by apply messenger_block_law.
Defined.

(** ** Balanced braces *)

(** The last character and the counters after the beginning of a message *)
Definition json_after (l : bytes) : Z * counters :=
  foldl (fun pc ch => (ch, count pc.1 ch pc.2)) (0, Counters 0 0) l.
Definition json_counts (l : bytes) : counters := (json_after l).2.

(** A message of [jsonmessenger]: balanced at its end and nowhere before, except
    after the first byte, where the NUL that ends the previous one may be *)
Definition json_framed (m : bytes) : Prop :=
  4 <= Z.of_nat (length m) <= MESSENGER_MAX_MSG_SIZE /\ balanced (json_counts m) = true /\
  forall k, (1 < k < length m)%nat -> balanced (json_counts (take k m)) = false.

Lemma json_after_snoc l ch : json_after (l ++ [ch]) = (ch, count (json_after l).1 ch (json_counts l)).
Proof. unfold json_after. by rewrite foldl_snoc. Qed.

Lemma json_after_last cur stale :
  (json_after cur).1 =
  if Z.of_nat (length cur) =? 0 then 0 else nth (Z.to_nat (Z.of_nat (length cur) - 1)) (cur ++ stale) 0.
Proof.
  destruct cur as [|ch cur _] using rev_ind; [done|]. rewrite json_after_snoc, length_app. cbn [fst length].
  destruct (Z.eqb_spec (Z.of_nat (length cur + 1)) 0); [lia|].
  replace (Z.to_nat (Z.of_nat (length cur + 1) - 1)) with (length cur) by lia.
  rewrite <- app_assoc, app_nth2 by lia. by rewrite Nat.sub_diag.
Qed.

Lemma json_scan_spec block rest cur j size :
  json_framed (cur ++ rest) -> rest <> [] -> block `prefix_of` rest \/ rest `prefix_of` block ->
  Z.of_nat (length cur) = size + j ->
  json_scan block (json_after cur).1 j size (json_counts cur) =
  (j + Z.of_nat (length block `min` length rest), json_counts (cur ++ take (length block) rest)).
Proof.
  revert rest cur j. induction block as [|ch block IH]; intros rest cur j Hm Hr Hcmp Hj.
  { simpl. rewrite app_nil_r. f_equal. lia. }
  assert (exists rest', rest = ch :: rest' /\ (block `prefix_of` rest' \/ rest' `prefix_of` block)) as (rest' & -> & Hcmp').
  { destruct rest as [|c rest]; [done|]. destruct Hcmp as [Hc|Hc]; apply prefix_cons_inv_1 in Hc as Hc1; subst c;
      apply prefix_cons_inv_2 in Hc; eauto. }
  cbn [json_scan length take Nat.min].
  assert (Ec : count (json_after cur).1 ch (json_counts cur) = json_counts (cur ++ [ch]))
    by (unfold json_counts at 2; by rewrite json_after_snoc).
  rewrite Ec. destruct Hm as (Hlen & Hbal & Hpre). rewrite length_app in Hlen, Hpre. cbn [length] in Hlen, Hpre.
  destruct rest' as [|ch' rest'].
  - rewrite Hbal. simpl in Hlen. destruct (Z.ltb_spec 2 (size + j)); [|lia]. cbn [andb]. rewrite Nat.min_0_r, take_nil.
    f_equal; lia.
  - assert (Eb : (2 <? size + j) && balanced (json_counts (cur ++ [ch])) = false).
    { destruct (Z.ltb_spec 2 (size + j)); [|done]. rewrite <- (Hpre (length cur + 1)%nat) by (cbn; lia).
      rewrite take_app_add. done. }
    rewrite Eb.
    assert (El : ch = (json_after (cur ++ [ch])).1) by (by rewrite json_after_snoc). rewrite El at 1.
    rewrite IH with (rest := ch' :: rest').
    + rewrite <- app_assoc. cbn [app]. f_equal. lia.
    + rewrite <- app_assoc. cbn [app]. split; [rewrite length_app; cbn [length] in *; lia|split; [exact Hbal|]].
      intros k. rewrite length_app. cbn [length]. intros Hk. apply Hpre. cbn [length]. lia.
    + done.
    + done.
    + rewrite length_app. cbn. lia.
Qed.

Lemma json_block_law cur rest block stale :
  json_framed (cur ++ rest) -> rest <> [] -> block <> [] -> block `prefix_of` rest \/ rest `prefix_of` block ->
  exists (n : nat) p', json_processBlock block (cur ++ stale) (Z.of_nat (length cur)) (json_counts cur) = (Z.of_nat n, p') /\
    (0 < n <= length block)%nat /\ (n <= length rest)%nat /\
    forall stale' : bytes, let cur' := cur ++ take n rest in
      json_msg_complete (Z.of_nat (length cur')) p' = bool_decide (n = length rest) /\
      p' = json_counts (if bool_decide (n = length rest) then [] else cur').
Proof.
  intros Hm Hr Hb Hcmp. unfold json_processBlock. rewrite <- json_after_last.
  rewrite (json_scan_spec block rest cur 0) by (done || lia). rewrite Z.add_0_l.
  assert (0 < length block)%nat by (destruct block; [done|simpl; lia]).
  assert (0 < length rest)%nat by (destruct rest; [done|simpl; lia]).
  set (n := (length block `min` length rest)%nat). exists n, (json_counts (cur ++ take n rest)).
  assert (Et : take (length block) rest = take n rest).
  { unfold n. destruct (decide (length block <= length rest)%nat); [by rewrite Nat.min_l|].
    rewrite Nat.min_r, !take_ge; done || lia. }
  rewrite Et. split_and!; [done|lia|lia|lia|]. intros _. pose proof Hm as (Hlen & Hbal & Hpre).
  rewrite length_app in Hlen, Hpre. assert (Hl : length (cur ++ take n rest) = (length cur + n)%nat).
  { rewrite length_app, length_take. lia. }
  rewrite Hl. unfold json_msg_complete. case_bool_decide as En.
  - rewrite En, firstn_all, Hbal. split; [destruct (Z.ltb_spec 1 (Z.of_nat (length cur + length rest))); [done|lia]|].
    unfold balanced in Hbal. apply andb_true_iff in Hbal as [H1%Z.eqb_eq H2%Z.eqb_eq].
    destruct (json_counts (cur ++ rest)). simpl in *. by subst.
  - split; [|done]. destruct (Z.ltb_spec 1 (Z.of_nat (length cur + n))); [|done].
    specialize (Hpre (length cur + n)%nat ltac:(lia)). by rewrite take_app_add in Hpre.
Qed.

Definition json_laws : @ProcessorLaws jsonmessenger.
Proof.
  refine (@Build_ProcessorLaws jsonmessenger json_framed (fun p cur => p = json_counts cur) eq_refl _ _).
  - intros m (? & _). unfold MESSENGER_MAX_MSG_SIZE in *. lia.
  - intros cur rest block stale p Hm Hr Hb Hcmp ->. by apply json_block_law.
Defined.

(** ** Properties *)

Inductive protocol := Length_prefixed | Json.
Definition processor (p : protocol) : MessageProcessor :=
  match p with Length_prefixed => messenger | Json => jsonmessenger end.
Definition is_message (p : protocol) : bytes -> Prop :=
  match p with Length_prefixed => messenger_framed | Json => json_framed end.


(** Two messages in three blocks, cut inside the first length field and inside
    the second message *)
Definition echo_and_text : list bytes := [header MSG_ECHO; [0; 5; 10; 72; 105]].
Definition odd_blocks : list bytes := [[0]; [3; 1; 0; 5]; [10; 72]].

Lemma echo_and_text_ok : Forall (is_message Length_prefixed) echo_and_text.
Proof.
  repeat constructor; try (unfold MESSENGER_MAX_MSG_SIZE; simpl; lia); try (by apply bytes_check); vm_compute; done.
Qed.


Definition aborts {A : Type} (r : res A) : bool := match r with Aborted => true | _ => false end.

Lemma aborts_Aborted {A : Type} (r : res A) : aborts r = true -> r = Aborted.
Proof. by destruct r. Qed.

(** With a length field of 2 the message is never complete and no byte is copied. *)
Lemma length_two_loops fuel r :
  process_block (H := messenger) fuel [0] (Connection (H := messenger) (0 :: 2 :: r) 2 2 tt) = NoFuel.
Proof. induction fuel as [|fuel IH]; [done|exact IH]. Qed.

Lemma length_two_starts fuel r :
  process_block (H := messenger) (S fuel) [0; 2; 0] (new_connection (H := messenger) (0 :: 0 :: r)) =
  process_block (H := messenger) fuel [0] (Connection (H := messenger) (0 :: 2 :: r) 2 2 tt).
Proof. reflexivity. Qed.

(** A wrong length field is fatal: a field of 2 keeps the thread in an
    endless loop, 0 or 1 copy a negative number of bytes, and a message longer
    than the buffer, which arrives in blocks of the size of the read buffer,
    overflows it. *)
Theorem bad_length_is_fatal :
  (forall fuel, run (H := messenger) fuel [[0; 2; 0]] (new_connection (H := messenger) (replicate 3072 0)) = NoFuel) /\
  run (H := messenger) 9 [[0; 0; 0]] (new_connection (H := messenger) (replicate 3072 0)) = Aborted /\
  run (H := messenger) 9 [[0; 1; 0]] (new_connection (H := messenger) (replicate 3072 0)) = Aborted /\
  run (H := messenger) 9 (([255; 255] ++ replicate 510 0) :: replicate 6 (replicate 512 0))
    (new_connection (H := messenger) (replicate 3072 0)) = Aborted.
Proof.
  refine (conj _ (conj _ (conj _ _))); [intros fuel|apply aborts_Aborted; vm_compute; reflexivity..].
  cbn [run]. destruct fuel as [|fuel]; [done|].
  change (replicate 3072 0) with (0 :: 0 :: replicate 3070 0). by rewrite length_two_starts, length_two_loops.
Qed.

(** Braces inside strings count: a well-formed JSON object is cut in two. *)
Theorem braces_in_strings_split_messages :
  let m := [123; 34; 97; 34; 58; 34; 125; 34; 125] in
  exists c, run (H := jsonmessenger) 9 [m] (new_connection (H := jsonmessenger) (replicate 3072 0)) =
    Ret ([[123; 34; 97; 34; 58; 34; 125]; [34; 125]], c).
Proof. eexists. vm_compute. reflexivity. Qed.

(** The echo messages of [messenger] have no bytes. *)
Theorem echoes_are_empty : send_echo = [] /\ reply_echo = [].
Proof. split; reflexivity. Qed.

(** A silent connection is closed after the echoes that the threshold
    allows: each check finds it idle, sends one echo and asks for the next check,
    until [thresholdEchoMissed] echoes were missed; the check after that
    disconnects and no further check is scheduled. *)
Theorem idle_connection_closes (interval threshold : Z) (times : list Z) (last_ : Z)
    (Hint : 0 < interval) (Hthr : 0 <= threshold < 256) (Hn : Z.of_nat (length times) = threshold)
    (Hidle : Forall (fun now => interval < now - last_) times) :
  let s := foldl (fun s now => (check_idle interval threshold now s).2) (Idle 0 last_ true) times in
  s = Idle threshold last_ true /\
  forall now, interval < now - last_ -> check_idle interval threshold now s = ([Disconnected], Idle 0 now false).
Proof.
  assert (Hrun : forall k, 0 <= k -> k + Z.of_nat (length times) <= threshold ->
    foldl (fun s now => (check_idle interval threshold now s).2) (Idle k last_ true) times =
    Idle (k + Z.of_nat (length times)) last_ true).
  { clear Hn. induction Hidle as [|now times Hnow _ IH]; intros k Hk Hle; simpl; [by rewrite Z.add_0_r|].
    simpl in Hle. unfold check_idle at 2. cbn [lastActiveTime echoMissed running].
    destruct (Z.ltb_spec interval (now - last_)); [|lia]. destruct (Z.leb_spec threshold k); [lia|].
    cbn [running andb]. destruct (Z.eqb_spec interval 0); [lia|]. cbn [negb snd].
    unfold wrap. rewrite Z.mod_small by lia. rewrite IH by lia. f_equal. lia. }
  intros s. assert (Es : s = Idle threshold last_ true) by (unfold s; rewrite Hrun by lia; f_equal; lia).
  split; [done|]. intros now Hnow. rewrite Es. unfold check_idle. cbn [lastActiveTime echoMissed].
  destruct (Z.ltb_spec interval (now - last_)); [|lia]. destruct (Z.leb_spec threshold threshold); [done|lia].
Qed.

Lemma idle_connection_closes_witness :
  let s := foldl (fun s now => (check_idle 10 3 now s).2) (Idle 0 0 true) [11; 22; 33] in
  s = Idle 3 0 true /\ forall now, 10 < now - 0 -> check_idle 10 3 now s = ([Disconnected], Idle 0 now false).
Proof. apply (idle_connection_closes 10 3 [11; 22; 33] 0); [lia|lia|reflexivity|repeat constructor; lia]. Defined.
