(* ===== verification/FlowSetup.v ===== *)
(** * Flow set-up along routes (src/nox/netapps/routing/routing.cc)

    [Routing_module] keeps one [ofp_flow_mod] in memory, with room for actions
    behind it, and sends it with changes to every datapath of a route.

    [hd] is the structure (72 bytes), [acts] the memory behind it.  [Aborted] is
    an access outside that memory or through a null pointer.  Memory that is
    allocated has unknown contents; MD5 is the function of the crypto library. *)

From S2P Require Import Prelude Bytes Ethernetaddr Flow OfpWire OfpCore OfpActions OfpMessages OpenflowConnection OpenflowSend Switch Topology Routing.

Open Scope Z_scope.

Definition OFPAT_STRIP_VLAN : Z := 3.
Definition OFPAT_SET_DL_SRC : Z := 4.
Definition OFPAT_SET_DL_DST : Z := 5.
Definition OFPAT_SET_NW_SRC : Z := 6.
Definition OFPAT_SET_NW_DST : Z := 7.
Definition OFPAT_SET_NW_TOS : Z := 8.
Definition OFPAT_SET_TP_SRC : Z := 9.
Definition OFPAT_SET_TP_DST : Z := 10.
Definition OFPP_MAX : Z := 0xff00.
Definition NX_VENDOR_ID : Z := 0x2320.
Definition NXAST_SNAT : Z := 0.

(** [sizeof(ofp_flow_mod)] and [get_max_action_len()] *)
Definition flow_mod_size : Z := 72.
Definition get_max_action_len : Z :=
  let output := 8 in let snat := 16 in let dl_addr := 16 in
  if snat <=? output then output + dl_addr else snat + dl_addr.
Definition max_output_action_len : Z := u16 get_max_action_len.

(** Calls that reach the datapath [dp] *)
Inductive command :=
| Flow_command (dp : Z) (msg : bytes)
| Packet_data (dp : Z) (packet actions : bytes) (in_port : Z)
| Packet_buffer (dp : Z) (bid : Z) (actions : bytes) (in_port : Z).

(** The part of [Routing_module] that sets up flows, with the calls made so far *)
Record flow_mod := FlowMod { hd : bytes; acts : bytes }.
Record setup := Setup { ofm : option flow_mod; len_flow_actions : Z; sent : list command }.
Definition no_setup : setup := Setup None 0 [].

(** Code of other parties: the allocator, the transaction ids, MD5, and the
    result of sending, which may depend on what was sent before. *)
Class Controller := {
  new_uint8 : Z -> bytes;
  get_xid : Z;
  MD5 : bytes -> bytes;
  send_error : list command -> command -> Z
}.

(** [memcpy(mem + off, bs)] *)
Definition poke (off : Z) (bs mem : bytes) : res bytes :=
  if off + Z.of_nat (length bs) <=? Z.of_nat (length mem) then Ret (store (Z.to_nat off) bs mem) else Aborted.

(** [NAT_enforcer::nat_location]: whether the location is listed, and its
    address *)
Fixpoint nat_location (location : Z) (locations : list (list Z)) : res (bool * Z) :=
  match locations with
  | [] => Ret (false, 0)
  | [] :: _ => Aborted
  | (loc :: more) :: locations =>
      if location =? loc then Ret (true, default 0 (head more)) else nat_location location locations
  end.

Section setup.
Context `{Controller}.

(** [Flow::hash_code] *)
Definition hash_code (f : flow) : Z :=
  load_word 0 8 (MD5 (to_le 2 (in_port f) ++ to_le 2 (dl_vlan f) ++ to_le 1 (dl_vlan_pcp f) ++
    octet (dl_src f) ++ octet (dl_dst f) ++ to_le 2 (dl_type f) ++ to_le 4 (nw_src f) ++ to_le 4 (nw_dst f) ++
    to_le 1 (nw_proto f) ++ to_le 1 (nw_tos f) ++ to_le 2 (tp_src f) ++ to_le 2 (tp_dst f))).

(** ** The structure in memory *)

Definition init_openflow (actions_len : Z) (s : setup) : setup :=
  let mem := new_uint8 (flow_mod_size + actions_len) in
  let b := take 72 mem in
  let b := put8 0 OFP_VERSION b in
  let b := put8 1 OFPT_FLOW_MOD b in
  let b := put32 4 get_xid b in
  let b := put32 8 0 b in
  let b := zero 29 1 b in
  let b := zero 34 2 b in
  let b := put64 48 0 b in
  let b := put16 56 (htons OFPFC_ADD) b in
  let b := put16 62 (htons OFP_DEFAULT_PRIORITY) b in
  let b := put16 70 (htons ofd_flow_mod_flags) b in
  Setup (Some (FlowMod b (drop 72 mem))) actions_len (sent s).

(** The parameter is a [uint16_t], so that doubling it can wrap around; only
    the structure is copied to the new memory. *)
Definition check_openflow (actions_len : Z) (s : setup) : setup :=
  let actions_len := u16 actions_len in
  if actions_len <=? len_flow_actions s then s
  else
    match ofm s with
    | None => init_openflow actions_len s
    | Some m =>
        let actions_len := u16 (actions_len * 2) in
        let mem := new_uint8 (flow_mod_size + actions_len) in
        Setup (Some (FlowMod (store 0 (hd m) (take 72 mem)) (drop 72 mem))) actions_len (sent s)
    end.

(** A change of the structure [*ofm] *)
Definition with_hd (f : bytes -> bytes) (s : setup) : res setup :=
  match ofm s with
  | None => Aborted
  | Some m => Ret (Setup (Some (FlowMod (f (hd m)) (acts m))) (len_flow_actions s) (sent s))
  end.

(** The assignments of [set_openflow] *)
Definition set_fields (f : flow) (buffer_id timeout : Z) (b : bytes) : bytes :=
  let b := put32 64 (htonl buffer_id) b in
  let b := put16 58 (htons timeout) b in
  let b := put16 60 (htons OFP_FLOW_PERMANENT) b in
  let b := put64 48 (htonll (hash_code f)) b in
  let b := put16 12 (in_port f) b in
  let b := store 14 (load 0 6 (octet (dl_src f))) b in
  let b := store 20 (load 0 6 (octet (dl_dst f))) b in
  let b := put16 26 (dl_vlan f) b in
  let b := put8 28 (dl_vlan_pcp f) b in
  let b := put16 30 (dl_type f) b in
  let b := put32 36 (nw_src f) b in
  let b := put32 40 (nw_dst f) b in
  let b := put8 32 (nw_tos f) b in
  let b := put8 33 (nw_proto f) b in
  let b := put16 44 (tp_src f) b in
  put16 46 (tp_dst f) b.

Definition set_openflow (f : flow) (buffer_id timeout : Z) (s : setup) : res setup :=
  let s := if len_flow_actions s <? max_output_action_len then init_openflow (8 * max_output_action_len) s else s in
  with_hd (set_fields f buffer_id timeout) s.

(** ** Actions *)

(** The three structures [set_action] writes *)
Definition dl_dst_action (mac : Z) : bytes :=
  let b := replicate 16 0 in
  let b := put16 0 (htons OFPAT_SET_DL_DST) b in
  let b := put16 2 (htons 16) b in
  store 4 (octet (of_id mac)) b.
Definition snat_action (port : Z) : bytes :=
  let b := replicate 16 0 in
  let b := put16 0 (htons OFPAT_VENDOR) b in
  let b := put16 2 (htons 16) b in
  let b := put32 4 (htonl NX_VENDOR_ID) b in
  let b := put16 8 (htons NXAST_SNAT) b in
  put16 10 (htons port) b.
Definition port_action (port : Z) : bytes := output_action (replicate 8 0) port.

(** [set_action(action, ...)] at the offset [off] of the action memory; results
    in [natted], [nat_overwritten] and the new [actions_len] *)
Definition set_action (off dp port actions_len : Z) (check_nat allow_mac_overwrite : bool) (overwrite_mac : Z)
    (nat_flow : list (list Z)) (s : setup) : res (bool * bool * Z * setup) :=
  '(natted, nat_dladdr) ← if check_nat then nat_location (u64 (dp + Z.shiftl port 48)) nat_flow else Ret (false, 0);
  match ofm s with
  | None => Aborted
  | Some m =>
      let nat_overwritten := natted && allow_mac_overwrite && negb (nat_dladdr =? 0) in
      let mac := if nat_overwritten then nat_dladdr else overwrite_mac in
      '(mem, off, actions_len) ←
        (if negb (mac =? 0)
         then mem ← poke off (dl_dst_action mac) (acts m); Ret (mem, off + 16, u16 (actions_len + 16))
         else Ret (acts m, off, actions_len));
      '(mem, actions_len) ←
        (if natted : bool
         then mem ← poke off (snat_action port) mem; Ret (mem, u16 (actions_len + 16))
         else mem ← poke off (port_action port) mem; Ret (mem, u16 (actions_len + 8)));
      Ret (natted, nat_overwritten, actions_len, Setup (Some (FlowMod (hd m) mem)) (len_flow_actions s) (sent s))
  end.

(** [memcpy(ofm->actions, actions.data(), actions.size())] *)
Definition copy_actions (actions : bytes) (s : setup) : res setup :=
  match ofm s with
  | None => Aborted
  | Some m =>
      mem ← poke 0 actions (acts m);
      Ret (Setup (Some (FlowMod (hd m) mem)) (len_flow_actions s) (sent s))
  end.

Definition set_openflow_actions (actions : bytes) (dp outport : Z) (check_nat allow_mac_overwrite : bool)
    (nat_flow : list (list Z)) (s : setup) : res (bool * setup) :=
  let size := Z.of_nat (length actions) in
  s ← copy_actions actions (check_openflow (size + max_output_action_len) s);
  '(natted, _, packet_len, s) ←
    set_action size dp outport (u16 (flow_mod_size + size)) check_nat allow_mac_overwrite 0 nat_flow s;
  s ← with_hd (put16 2 (htons packet_len)) s;
  Ret (natted, s).

(** ** The effect of actions on the match *)

(** The [switch] of [modify_match]; [a] begins with the action.  The match is at
    offset 8 of the structure. *)
Definition modify_one (a b : bytes) : bytes :=
  let type := ntohs (get16 0 a) in
  if type =? OFPAT_SET_VLAN_PCP then put8 28 (get8 4 a) b
  else if type =? OFPAT_SET_VLAN_VID then put16 26 (get16 4 a) b
  else if type =? OFPAT_STRIP_VLAN then put16 26 (htons OFP_VLAN_NONE) b
  else if type =? OFPAT_SET_DL_SRC then store 14 (load 4 6 a) b
  else if type =? OFPAT_SET_DL_DST then store 20 (load 4 6 a) b
  else if type =? OFPAT_SET_NW_SRC then put32 36 (get32 4 a) b
  else if type =? OFPAT_SET_NW_DST then put32 40 (get32 4 a) b
  else if type =? OFPAT_SET_TP_SRC then put16 44 (get16 4 a) b
  else if type =? OFPAT_SET_TP_DST then put16 46 (get16 4 a) b
  else b.

(** How far into the action the [switch] reads *)
Definition action_read (type : Z) : Z :=
  if type =? OFPAT_SET_VLAN_PCP then 5
  else if (type =? OFPAT_SET_VLAN_VID) || (type =? OFPAT_SET_TP_SRC) || (type =? OFPAT_SET_TP_DST) then 6
  else if (type =? OFPAT_SET_NW_SRC) || (type =? OFPAT_SET_NW_DST) then 8
  else if (type =? OFPAT_SET_DL_SRC) || (type =? OFPAT_SET_DL_DST) then 10
  else 4.

(** The loop of [modify_match]; [ofs] is a [uint16_t]. *)
Fixpoint modify_loop (fuel : nat) (actions : bytes) (ofs : Z) (b : bytes) : res bytes :=
  if ofs <? Z.of_nat (length actions) then
    match fuel with
    | O => NoFuel
    | S fuel =>
        let a := drop (Z.to_nat ofs) actions in
        if (Z.of_nat (length a) <? 4) || (Z.of_nat (length a) <? action_read (ntohs (get16 0 a))) then Aborted
        else modify_loop fuel actions (u16 (ofs + ntohs (get16 2 a))) (modify_one a b)
    end
  else Ret b.

Definition modify_match (fuel : nat) (actions : bytes) (s : setup) : res setup :=
  match ofm s with
  | None => Aborted
  | Some m =>
      b ← modify_loop fuel actions 0 (hd m);
      Ret (Setup (Some (FlowMod b (acts m))) (len_flow_actions s) (sent s))
  end.

(** ** Sending *)

Definition send (c : command) (s : setup) : Z * setup :=
  (send_error (sent s) c, Setup (ofm s) (len_flow_actions s) (sent s ++ [c])).

(** [send_openflow_command(dp, &ofm->header, false)] reads as many bytes as the
    header says. *)
Definition send_flow_mod (dp : Z) (s : setup) : res (Z * setup) :=
  match ofm s with
  | None => Aborted
  | Some m =>
      let mem := hd m ++ acts m in
      let n := ntohs (get16 2 (hd m)) in
      if n <=? Z.of_nat (length mem) then Ret (send (Flow_command dp (take (Z.to_nat n) mem)) s) else Aborted
  end.

(** The first [actions_len] bytes of [ofm->actions] *)
Definition current_actions (actions_len : Z) (s : setup) : res bytes :=
  match ofm s with
  | None => Aborted
  | Some m =>
      if actions_len <=? Z.of_nat (length (acts m)) then Ret (take (Z.to_nat actions_len) (acts m)) else Aborted
  end.

(** ** One datapath *)

(** The loop over the ports when flooding; [overwrite] restores the address
    after a port that was rewritten. *)
Fixpoint flood_actions (ports : list Z) (dp inport orig_dl actions_len overwrite : Z) (allow : bool)
    (nat_flow : list (list Z)) (s : setup) : res (Z * setup) :=
  match ports with
  | [] => Ret (actions_len, s)
  | p :: ports =>
      if negb (p =? inport) && (p <? OFPP_MAX) then
        '(_, nat_overwritten, actions_len, s) ← set_action actions_len dp p actions_len true allow overwrite nat_flow s;
        flood_actions ports dp inport orig_dl actions_len (if nat_overwritten : bool then orig_dl else 0) allow nat_flow s
      else flood_actions ports dp inport orig_dl actions_len overwrite allow nat_flow s
  end.

(** What [setup_flow] and [send_packet] have in common: the actions for the
    datapath, or [None] when no port is left.  [after] are the bytes behind the
    address in memory, which [hb_long] reads and drops. *)
Definition datapath_actions (t : network) (after : bytes) (f : flow) (dp inport outport : Z) (actions : bytes)
    (check_nat : bool) (nat_flow : list (list Z)) (s : setup) : res (option Z * setup) :=
  let size := Z.of_nat (length actions) in
  let actions_len := u16 size in
  let s := check_openflow (actions_len + max_output_action_len) s in
  s ← copy_actions actions s;
  if negb check_nat then
    '(_, _, n, s) ← set_action actions_len dp outport actions_len false false 0 [] s; Ret (Some n, s)
  else
    let allow := negb (is_multicast (dl_dst f)) in
    if outport =? OFPP_FLOOD then
      let ps := port_no <$> ports (get_dpinfo dp t) in
      let s := check_openflow (Z.of_nat (length ps) * max_output_action_len + actions_len) s in
      '(n, s) ← flood_actions ps dp inport (hb_long after (dl_dst f)) actions_len 0 allow nat_flow s;
      if n =? size then Ret (None, s) else Ret (Some n, s)
    else '(_, _, n, s) ← set_action actions_len dp outport actions_len true allow 0 nat_flow s; Ret (Some n, s).

Definition setup_flow (t : network) (after : bytes) (f : flow) (dp outport bid : Z) (buf : bytes) (flow_timeout : Z)
    (actions : bytes) (check_nat : bool) (nat_flow : list (list Z)) (s : setup) : res (bool * setup) :=
  let inport := ntohs (in_port f) in
  s ← set_openflow f bid flow_timeout s;
  '(n, s) ← datapath_actions t after f dp inport outport actions check_nat nat_flow s;
  match n with
  | None => Ret (false, s)
  | Some n =>
      s ← with_hd (put16 2 (htons (u16 (flow_mod_size + n)))) s;
      '(ret, s) ← send_flow_mod dp s;
      if (ret =? 0) && (bid =? UINT32_MAX) then
        a ← current_actions n s;
        let '(ret, s) := send (Packet_data dp buf a inport) s in
        Ret (ret =? 0, s)
      else Ret (ret =? 0, s)
  end.

(** It does not call [set_openflow]: the memory is allocated by
    [check_openflow] if need be. *)
Definition send_packet (t : network) (after : bytes) (dp inport outport bid : Z) (buf actions : bytes)
    (check_nat : bool) (f : flow) (nat_flow : list (list Z)) (s : setup) : res (bool * setup) :=
  '(n, s) ← datapath_actions t after f dp inport outport actions check_nat nat_flow s;
  match n with
  | None => Ret (false, s)
  | Some n =>
      a ← current_actions n s;
      let '(ret, s) := send (if bid =? UINT32_MAX then Packet_data dp buf a inport else Packet_buffer dp bid a inport) s in
      Ret (ret =? 0, s)
  end.

(** ** A route *)

(** The loop of [setup_route] *)
Fixpoint route_loop (fuel : nat) (links : list link) (actions : option (list bytes)) (dp inport ap_outport : Z)
    (check_nat allow_overwrite : bool) (nat_flow : list (list Z)) (s : setup) : res (bool * setup) :=
  let outport := match links with [] => ap_outport | l :: _ => outport l end in
  '(nat_match, s) ←
    match actions with
    | Some [] => Aborted
    | Some (a :: _) => set_openflow_actions a dp outport check_nat allow_overwrite nat_flow s
    | None =>
        '(nat_match, _, packet_len, s) ← set_action 0 dp outport flow_mod_size check_nat allow_overwrite 0 nat_flow s;
        s ← with_hd (put16 2 (htons packet_len)) s;
        Ret (nat_match, s)
    end;
  s ← with_hd (put16 12 (htons inport)) s;
  '(err, s) ← send_flow_mod dp s;
  if negb (err =? 0) then Ret (false, s)
  else
    match links with
    | [] => Ret (true, s)
    | l :: links =>
        if nat_match : bool then Ret (true, s)
        else
          match actions with
          | Some (a :: rest) =>
              s ← modify_match fuel a s;
              route_loop fuel links (Some rest) (l_dst l) (Routing.inport l) ap_outport check_nat allow_overwrite nat_flow s
          | _ => route_loop fuel links actions (l_dst l) (Routing.inport l) ap_outport check_nat allow_overwrite nat_flow s
          end
    end.

Definition setup_route (fuel : nat) (f : flow) (r : route) (ap_inport ap_outport flow_timeout : Z)
    (actions : list bytes) (check_nat : bool) (nat_flow : list (list Z)) (s : setup) : res (bool * setup) :=
  let actions_def := negb (is_nil actions) && (Z.of_nat (length actions) =? Z.of_nat (length (path r)) + 1) in
  s ← set_openflow f UINT32_MAX flow_timeout s;
  route_loop fuel (path r) (if actions_def then Some actions else None) (r_src r) ap_inport ap_outport check_nat
    (negb (is_multicast (dl_dst f))) nat_flow s.
End setup.
