(* ===== verification/FlowSetupRoute.v ===== *)
(** * Flow set-up: facts

    What the calls of [FlowSetup] leave in memory, in terms of the wire format
    of the structures ([OfpMessages], [OfpActions]). *)

From S2P Require Import Prelude Bytes Ethernetaddr Flow FlowSpec OfpWire OfpCore OfpActions OfpMessages FlowMatch OpenflowConnection OpenflowSend Switch Topology Routing FlowSetup.

Open Scope Z_scope.

(** ** Actions and headers

    Headers are exact matches, in host order. *)

Inductive act :=
| A_output (port max_len : Z)
| A_vlan_vid (v : Z)
| A_vlan_pcp (v : Z)
| A_strip_vlan
| A_dl_src (a : bytes)
| A_dl_dst (a : bytes)
| A_nw_src (x : Z)
| A_nw_dst (x : Z)
| A_nw_tos (x : Z)
| A_tp_src (x : Z)
| A_tp_dst (x : Z)
| A_snat (port : Z).

Definition encode (a : act) : bytes :=
  match a with
  | A_output p n => of_action_output.wire (of_action_output.mk OFPAT_OUTPUT 8 p n)
  | A_vlan_vid v => of_action_vlan_vid.wire (of_action_vlan_vid.mk OFPAT_SET_VLAN_VID 8 v [0; 0])
  | A_vlan_pcp v => of_action_vlan_pcp.wire (of_action_vlan_pcp.mk OFPAT_SET_VLAN_PCP 8 v [0; 0; 0])
  | A_strip_vlan => of_action_header.wire (of_action_header.mk OFPAT_STRIP_VLAN 8 [0; 0; 0; 0])
  | A_dl_src a => of_action_dl_addr.wire (of_action_dl_addr.mk OFPAT_SET_DL_SRC 16 a [0; 0; 0; 0; 0; 0])
  | A_dl_dst a => of_action_dl_addr.wire (of_action_dl_addr.mk OFPAT_SET_DL_DST 16 a [0; 0; 0; 0; 0; 0])
  | A_nw_src x => of_action_nw_addr.wire (of_action_nw_addr.mk OFPAT_SET_NW_SRC 8 x)
  | A_nw_dst x => of_action_nw_addr.wire (of_action_nw_addr.mk OFPAT_SET_NW_DST 8 x)
  | A_nw_tos x => of_action_nw_tos.wire (of_action_nw_tos.mk OFPAT_SET_NW_TOS 8 x [0; 0; 0])
  | A_tp_src x => of_action_tp_port.wire (of_action_tp_port.mk OFPAT_SET_TP_SRC 8 x [0; 0])
  | A_tp_dst x => of_action_tp_port.wire (of_action_tp_port.mk OFPAT_SET_TP_DST 8 x [0; 0])
  | A_snat p => snat_action p
  end.
Definition encode_all (l : list act) : bytes := concat (encode <$> l).

Definition act_ok (a : act) : Prop :=
  match a with
  | A_output p n => is_u16 p /\ is_u16 n
  | A_vlan_vid v => is_u16 v
  | A_vlan_pcp v => is_u8 v
  | A_strip_vlan => True
  | A_dl_src a | A_dl_dst a => is_array 6 a
  | A_nw_src x | A_nw_dst x => is_u32 x
  | A_nw_tos x => is_u8 x
  | A_tp_src x | A_tp_dst x => is_u16 x
  | A_snat p => is_u16 p
  end.

Definition act_size (a : act) : Z := match a with A_dl_src _ | A_dl_dst _ | A_snat _ => 16 | _ => 8 end.

(** Changing one header *)
Definition change (a : act) (m : of_match.t) : of_match.t :=
  let 'of_match.mk w p s d v c p1 ty tos pr p2 ns nd ts td := m in
  match a with
  | A_vlan_vid v => of_match.mk w p s d v c p1 ty tos pr p2 ns nd ts td
  | A_vlan_pcp c => of_match.mk w p s d v c p1 ty tos pr p2 ns nd ts td
  | A_strip_vlan => of_match.mk w p s d OFP_VLAN_NONE c p1 ty tos pr p2 ns nd ts td
  | A_dl_src s => of_match.mk w p s d v c p1 ty tos pr p2 ns nd ts td
  | A_dl_dst d => of_match.mk w p s d v c p1 ty tos pr p2 ns nd ts td
  | A_nw_src ns => of_match.mk w p s d v c p1 ty tos pr p2 ns nd ts td
  | A_nw_dst nd => of_match.mk w p s d v c p1 ty tos pr p2 ns nd ts td
  | A_tp_src ts => of_match.mk w p s d v c p1 ty tos pr p2 ns nd ts td
  | A_tp_dst td => of_match.mk w p s d v c p1 ty tos pr p2 ns nd ts td
  | A_output _ _ | A_nw_tos _ | A_snat _ => m
  end.
Definition at_port (p : Z) (m : of_match.t) : of_match.t :=
  let 'of_match.mk w _ s d v c p1 ty tos pr p2 ns nd ts td := m in of_match.mk w p s d v c p1 ty tos pr p2 ns nd ts td.
Definition change_all (l : list act) (m : of_match.t) : of_match.t := foldl (fun m a => change a m) m l.

Lemma length_encode a : act_ok a -> Z.of_nat (length (encode a)) = act_size a.
Proof.
  destruct a; simpl; intros Ha; try reflexivity; destruct Ha as [Hl _];
    unfold of_action_dl_addr.wire; cbn [of_action_dl_addr.type_ of_action_dl_addr.len of_action_dl_addr.dl_addr of_action_dl_addr.pad];
    rewrite !length_app, Hl; reflexivity.
Qed.

Lemma length_encode_all l : Forall act_ok l -> Z.of_nat (length (encode_all l)) = foldr (fun a n => act_size a + n) 0 l.
Proof.
  induction 1 as [|a l Ha _ IH]; [done|]. unfold encode_all in *. csimpl. rewrite length_app, Nat2Z.inj_add, IH.
  by rewrite length_encode.
Qed.

(** ** The structure *)

(** Case analysis on a match with arrays of the right size *)
Ltac open_match m Hs :=
  let s := fresh "s" in let d := fresh "d" in let p1 := fresh "p" in let p2 := fresh "q" in
  destruct m as [? ? s d ? ? p1 ? ? ? p2 ? ? ? ?]; destruct Hs as ([? _] & [? _] & [? _] & [? _]); simpl in *;
  do 6 (destruct s as [|? s]; [done|]); destruct s; [|done]; do 6 (destruct d as [|? d]; [done|]); destruct d; [|done];
  destruct p1 as [|? p1]; [done|]; destruct p1; [|done]; do 2 (destruct p2 as [|? p2]; [done|]); destruct p2; [|done].

Lemma change_shape a m : act_ok a -> of_match.shape m -> of_match.shape (change a m).
Proof. destruct m, a; simpl; intros Ha (? & ? & ? & ?); unfold of_match.shape; simpl in *; by split_and!. Qed.

Lemma change_all_shape l m : Forall act_ok l -> of_match.shape m -> of_match.shape (change_all l m).
Proof.
  intros Hl. revert m. induction Hl as [|a l Ha _ IH]; intros m Hm; [done|]. simpl. apply IH. by apply change_shape.
Qed.

Lemma at_port_shape p m : of_match.shape m -> of_match.shape (at_port p m).
Proof. by destruct m. Qed.

Section memory.
Context `{Controller}.

(** The [ofp_flow_mod] of the module: what [init_openflow] sets never changes. *)
Definition fm (len : Z) (m : of_match.t) (ck idle hard bid outp : Z) : of_flow_mod.t :=
  of_flow_mod.mk (built_header OFPT_FLOW_MOD len (ntohl get_xid)) m ck OFPFC_ADD idle hard OFP_DEFAULT_PRIORITY bid outp
    ofd_flow_mod_flags.

Definition exact (m : of_match.t) : Prop :=
  of_match.shape m /\ of_match.wildcards m = 0 /\ of_match.pad1 m = [0] /\ of_match.pad2 m = [0; 0].

Definition prepared (b : bytes) : Prop :=
  exists len m ck idle hard bid outp, exact m /\ b = of_flow_mod.wire (fm len m ck idle hard bid outp).

Lemma at_port_exact p m : exact m -> exact (at_port p m).
Proof. by destruct m. Qed.

Lemma change_all_exact l m : Forall act_ok l -> exact m -> exact (change_all l m).
Proof.
  intros Hl. revert m. induction Hl as [|a l Ha _ IH]; intros m Hm; [done|]. simpl. apply IH.
  destruct Hm as (Hs & Hx). split; [by apply change_shape|]. by destruct m, a.
Qed.

Lemma exact_match_exact f : flow_ok f -> exact (get_exact_match f).
Proof. intros Hf. split; [by apply match_shape|done]. Qed.

Ltac open_fm := unfold of_flow_mod.wire, fm, built_header;
  cbn [of_flow_mod.header of_flow_mod.match_ of_flow_mod.cookie of_flow_mod.command of_flow_mod.idle_timeout
    of_flow_mod.hard_timeout of_flow_mod.priority of_flow_mod.buffer_id of_flow_mod.out_port of_flow_mod.flags
    msg_wire of_header.header_message of_match.match_message];
  unfold of_header.wire, of_match.wire;
  cbn [of_header.version of_header.type_ of_header.length_ of_header.xid of_match.wildcards of_match.in_port
    of_match.dl_src of_match.dl_dst of_match.dl_vlan of_match.dl_vlan_pcp of_match.pad1 of_match.dl_type
    of_match.nw_tos of_match.nw_proto of_match.pad2 of_match.nw_src of_match.nw_dst of_match.tp_src of_match.tp_dst].

Lemma fm_length len m ck idle hard bid outp :
  of_match.shape m -> length (of_flow_mod.wire (fm len m ck idle hard bid outp)) = 72%nat.
Proof. intros Hm. apply of_flow_mod.flow_mod_wire_length. by split. Qed.

Lemma put_length n len m ck idle hard bid outp : of_match.shape m ->
  put16 2 (htons n) (of_flow_mod.wire (fm len m ck idle hard bid outp)) = of_flow_mod.wire (fm n m ck idle hard bid outp).
Proof. intros Hm. unfold put16. rewrite htons_bytes. open_match m Hm. open_fm. reflexivity. Qed.

Lemma get_length len m ck idle hard bid outp : of_match.shape m -> is_u16 len ->
  ntohs (get16 2 (of_flow_mod.wire (fm len m ck idle hard bid outp))) = len.
Proof.
  intros Hm Hl. assert (E : load 2 2 (of_flow_mod.wire (fm len m ck idle hard bid outp)) = to_be 2 len)
    by (open_match m Hm; open_fm; reflexivity).
  unfold get16. rewrite E, ntohs_be; [|apply length_to_be|apply to_be_bytes]. by apply of_be_to_be.
Qed.

Lemma put_in_port p len m ck idle hard bid outp : of_match.shape m ->
  put16 12 (htons p) (of_flow_mod.wire (fm len m ck idle hard bid outp)) =
  of_flow_mod.wire (fm len (at_port p m) ck idle hard bid outp).
Proof. intros Hm. unfold put16. rewrite htons_bytes. open_match m Hm. open_fm. reflexivity. Qed.

(** *** [modify_match] *)

Lemma put16_get16 (o k : nat) a rest b : (k + 2 <= length a)%nat -> is_bytes a ->
  put16 o (get16 k (a ++ rest)) b = store o (load k 2 a) b.
Proof.
  intros Hk Ha. unfold put16, get16. rewrite load_app_l by done.
  rewrite to_le_of_le_n; [done|by apply load_bytes|by apply length_load].
Qed.
Lemma put32_get32 (o k : nat) a rest b : (k + 4 <= length a)%nat -> is_bytes a ->
  put32 o (get32 k (a ++ rest)) b = store o (load k 4 a) b.
Proof.
  intros Hk Ha. unfold put32, get32. rewrite load_app_l by done.
  rewrite to_le_of_le_n; [done|by apply load_bytes|by apply length_load].
Qed.

Lemma snat_bytes p : is_bytes (snat_action p).
Proof.
  unfold snat_action, put16, put32. rewrite !htons_bytes, htonl_bytes.
  repeat (apply store_bytes; [apply to_be_bytes|]). by apply Forall_replicate.
Qed.

Lemma encode_bytes a : act_ok a -> is_bytes (encode a).
Proof.
  destruct a; intros Ha; [..|exact (snat_bytes _)]; cbn in Ha; unfold encode, of_action_output.wire,
    of_action_vlan_vid.wire, of_action_vlan_pcp.wire, of_action_header.wire, of_action_dl_addr.wire,
    of_action_nw_addr.wire, of_action_nw_tos.wire, of_action_tp_port.wire;
    repeat (apply Forall_app_2; [first [apply to_be_bytes|apply Ha|by apply Forall_cons]|]);
    first [apply to_be_bytes|by apply bytes_check].
Qed.

Lemma act_header a rest : act_ok a ->
  ntohs (get16 2 (encode a ++ rest)) = act_size a /\
  (4 <= length (encode a))%nat /\ action_read (ntohs (get16 0 (encode a ++ rest))) <= act_size a.
Proof. intros Ha. destruct a; simpl in Ha |- *; (split_and!; [reflexivity|cbn; lia|vm_compute; congruence]). Qed.

(** The bytes an action replaces *)
Definition modification (a : act) (b : bytes) : bytes :=
  match a with
  | A_vlan_vid v => store 26 (to_be 2 v) b
  | A_vlan_pcp v => store 28 [v] b
  | A_strip_vlan => store 26 (to_be 2 OFP_VLAN_NONE) b
  | A_dl_src a => store 14 a b
  | A_dl_dst a => store 20 a b
  | A_nw_src x => store 36 (to_be 4 x) b
  | A_nw_dst x => store 40 (to_be 4 x) b
  | A_tp_src x => store 44 (to_be 2 x) b
  | A_tp_dst x => store 46 (to_be 2 x) b
  | A_output _ _ | A_nw_tos _ | A_snat _ => b
  end.

Lemma dl_addr_load ty n a pad rest : length a = 6%nat ->
  load 4 6 (of_action_dl_addr.wire (of_action_dl_addr.mk ty n a pad) ++ rest) = a.
Proof. intros Ha. do 6 (destruct a as [|? a]; [done|]). by destruct a. Qed.

Lemma modify_one_store a rest b : act_ok a -> modify_one (encode a ++ rest) b = modification a b.
Proof.
  intros Ha. pose proof (encode_bytes a Ha) as Hb. destruct a; try reflexivity.
  - change (put16 26 (get16 4 (encode (A_vlan_vid v) ++ rest)) b = store 26 (to_be 2 v) b).
    by rewrite put16_get16 by (cbn; lia || done).
  - change (put8 28 (v + 256 * 0) b = store 28 [v] b). unfold put8. by rewrite Z.add_0_r.
  - change (store 14 (load 4 6 (encode (A_dl_src a) ++ rest)) b = store 14 a b).
    unfold encode. by rewrite dl_addr_load by apply Ha.
  - change (store 20 (load 4 6 (encode (A_dl_dst a) ++ rest)) b = store 20 a b).
    unfold encode. by rewrite dl_addr_load by apply Ha.
  - change (put32 36 (get32 4 (encode (A_nw_src x) ++ rest)) b = store 36 (to_be 4 x) b).
    by rewrite put32_get32 by (cbn; lia || done).
  - change (put32 40 (get32 4 (encode (A_nw_dst x) ++ rest)) b = store 40 (to_be 4 x) b).
    by rewrite put32_get32 by (cbn; lia || done).
  - change (put16 44 (get16 4 (encode (A_tp_src x) ++ rest)) b = store 44 (to_be 2 x) b).
    by rewrite put16_get16 by (cbn; lia || done).
  - change (put16 46 (get16 4 (encode (A_tp_dst x) ++ rest)) b = store 46 (to_be 2 x) b).
    by rewrite put16_get16 by (cbn; lia || done).
Qed.

(** One action changes the match as it changes the headers, except that the
    type of service is left alone. *)
Lemma modify_one_spec a rest len m ck idle hard bid outp : act_ok a -> of_match.shape m ->
  modify_one (encode a ++ rest) (of_flow_mod.wire (fm len m ck idle hard bid outp)) =
  of_flow_mod.wire (fm len (change a m) ck idle hard bid outp).
Proof.
  intros Ha Hm. rewrite modify_one_store by done. open_match m Hm. destruct a; try reflexivity.
  - destruct Ha as [Ha _]. do 6 (destruct a as [|? a]; [done|]). by destruct a.
  - destruct Ha as [Ha _]. do 6 (destruct a as [|? a]; [done|]). by destruct a.
Qed.

Lemma modify_loop_spec fuel l done_ len m ck idle hard bid outp :
  Forall act_ok l -> of_match.shape m -> (length l < fuel)%nat ->
  Z.of_nat (length (done_ ++ encode_all l)) < 2 ^ 16 ->
  modify_loop fuel (done_ ++ encode_all l) (Z.of_nat (length done_)) (of_flow_mod.wire (fm len m ck idle hard bid outp)) =
  Ret (of_flow_mod.wire (fm len (change_all l m) ck idle hard bid outp)).
Proof.
  intros Hl. revert fuel done_ m. induction Hl as [|a l Ha Hl IH]; intros fuel done_ m Hm Hf Hs.
  { destruct fuel; [simpl in Hf; lia|]. unfold encode_all. simpl. rewrite app_nil_r.
    by destruct (Z.ltb_spec (Z.of_nat (length done_)) (Z.of_nat (length done_))); [lia|]. }
  destruct fuel as [|fuel]; [simpl in Hf; lia|]. unfold encode_all in Hs |- *. csimpl in *. fold (encode_all l) in Hs |- *.
  pose proof (length_encode a Ha) as Hla. destruct (act_header a (encode_all l) Ha) as (E2 & E4 & Er).
  destruct (Z.ltb_spec (Z.of_nat (length done_)) (Z.of_nat (length (done_ ++ encode a ++ encode_all l)))) as [_|Hc];
    [|rewrite !length_app in Hc; lia].
  rewrite Nat2Z.id, drop_app_length.
  destruct (Z.ltb_spec (Z.of_nat (length (encode a ++ encode_all l))) 4) as [Hc|_]; [rewrite length_app in Hc; lia|].
  destruct (Z.ltb_spec (Z.of_nat (length (encode a ++ encode_all l))) (action_read (ntohs (get16 0 (encode a ++ encode_all l)))))
    as [Hc|_]; [rewrite length_app in Hc; lia|]. cbn [orb]. rewrite E2, modify_one_spec by done.
  rewrite app_assoc. rewrite !length_app in Hs. replace (u16 _) with (Z.of_nat (length (done_ ++ encode a))).
  - rewrite IH; [done|by apply change_shape|lia|rewrite !length_app; lia].
  - rewrite length_app. unfold wrap. rewrite Z.mod_small; lia.
Qed.

(** *** [init_openflow], [set_openflow] *)

Lemma init_prepared mem : length mem = 72%nat -> is_bytes mem ->
  0 <= get_xid < 2 ^ 32 ->
  prepared (put16 70 (htons ofd_flow_mod_flags) (put16 62 (htons OFP_DEFAULT_PRIORITY) (put16 56 (htons OFPFC_ADD)
    (put64 48 0 (zero 34 2 (zero 29 1 (put32 8 0 (put32 4 get_xid (put8 1 OFPT_FLOW_MOD (put8 0 OFP_VERSION mem)))))))))).
Proof.
  intros Hl Hb Hx. unfold prepared.
  exists (of_be (load 2 2 mem)), (of_match.mk 0 (of_be (load 12 2 mem)) (load 14 6 mem) (load 20 6 mem)
    (of_be (load 26 2 mem)) (nth 28 mem 0) [0] (of_be (load 30 2 mem)) (nth 32 mem 0) (nth 33 mem 0) [0; 0]
    (of_be (load 36 4 mem)) (of_be (load 40 4 mem)) (of_be (load 44 2 mem)) (of_be (load 46 2 mem))), 0,
    (of_be (load 58 2 mem)), (of_be (load 60 2 mem)), (of_be (load 64 4 mem)), (of_be (load 68 2 mem)).
  split.
  - assert (Ha : forall (o n : nat), (o + n <= 72)%nat -> is_array n (load o n mem))
      by (intros; split; [apply length_load; lia|by apply load_bytes]).
    unfold exact, of_match.shape. cbn [of_match.dl_src of_match.dl_dst of_match.pad1 of_match.pad2 of_match.wildcards].
    split_and!; try done; try (apply Ha; lia); split; try done; by apply bytes_check.
  - open_fm. rewrite !to_be_load by (done || lia). unfold put16, put32. rewrite !htons_bytes, (raw32_bytes get_xid) by done.
    clear -Hl. do 72 (destruct mem as [|? mem]; [done|]). destruct mem; [|done]. reflexivity.
Qed.

Lemma set_fields_spec f bid timeout b : prepared b -> flow_ok f -> is_u16 (in_port f) ->
  exists len outp, set_fields f bid timeout b =
    of_flow_mod.wire (fm len (get_exact_match f) (hash_code f) timeout OFP_FLOW_PERMANENT bid outp).
Proof.
  intros (len & m & ck & idle & hard & bid' & outp & (Hm & Hw & Hp1 & Hp2) & ->) [? ? [Hs _] [Hd _] ? ? ? ? ? ? ?] Hin.
  exists len, outp. unfold set_fields, put8, put16, put32, put64. rewrite !htons_bytes, !htonl_bytes, htonll_bytes.
  rewrite (raw16_bytes (in_port f)), (raw16_bytes (dl_vlan f)), (raw16_bytes (dl_type f)), (raw16_bytes (tp_src f)),
    (raw16_bytes (tp_dst f)), (raw32_bytes (nw_src f)), (raw32_bytes (nw_dst f)) by done.
  open_match m Hm. simplify_eq. unfold get_exact_match. rewrite !load_full by done. open_fm.
  destruct (octet (dl_src f)) as [|s0 [|s1 [|s2 [|s3 [|s4 [|s5 [|]]]]]]]; try done.
  destruct (octet (dl_dst f)) as [|d0 [|d1 [|d2 [|d3 [|d4 [|d5 [|]]]]]]]; try done.
Qed.
End memory.

(** ** Flow set-up: the messages of a route

    [route_entries] says which entry each datapath gets; [route_loop] sends
    exactly these, in wire format, as far as sending succeeds. *)

Class ControllerLaws `{Controller} := {
  new_uint8_length n : 0 <= n -> Z.of_nat (length (new_uint8 n)) = n;
  new_uint8_bytes n : is_bytes (new_uint8 n);
  get_xid_range : 0 <= get_xid < 2 ^ 32
}.

Lemma max_output_action_len_eq : max_output_action_len = 32.
Proof. reflexivity. Qed.

(** ** The entries of a route *)

(** What [set_action] appends for a port; [na] says whether the port is natted
    and the address to use. *)
Definition port_acts (na : bool * Z) (allow : bool) (overwrite port : Z) : list act :=
  let mac := if na.1 && allow && negb (na.2 =? 0) then na.2 else overwrite in
  (if negb (mac =? 0) then [A_dl_dst (octet (of_id mac))] else []) ++ [if na.1 then A_snat port else A_output port 0].

Record entry := Entry { e_dp : Z; e_match : of_match.t; e_acts : list act }.

Section entries.
Variable na : Z -> Z -> bool * Z.
Variable allow : bool.

Fixpoint route_entries (links : list link) (actions : option (list (list act))) (dp inport ap_outport : Z)
    (m : of_match.t) : list entry :=
  let outport := match links with [] => ap_outport | l :: _ => outport l end in
  let a := match actions with Some (a :: _) => a | _ => [] end in
  let m := at_port inport m in
  Entry dp m (a ++ port_acts (na dp outport) allow 0 outport) ::
  match links with
  | [] => []
  | l :: links =>
      if (na dp outport).1 then []
      else route_entries links (tail <$> actions) (l_dst l) (Routing.inport l) ap_outport (change_all a m)
  end.
End entries.

Section route.
Context `{ControllerLaws}.

(** The message for an entry *)
Definition entry_msg (ck idle outp : Z) (e : entry) : bytes :=
  of_flow_mod.wire (fm (flow_mod_size + Z.of_nat (length (encode_all (e_acts e)))) (e_match e) ck idle OFP_FLOW_PERMANENT
    UINT32_MAX outp) ++ encode_all (e_acts e).
Definition entry_command (ck idle outp : Z) (e : entry) : command := Flow_command (e_dp e) (entry_msg ck idle outp e).

(** Sending stops at the first error. *)
Fixpoint send_all (sent : list command) (cs : list command) : bool * list command :=
  match cs with
  | [] => (true, sent)
  | c :: cs => if send_error sent c =? 0 then send_all (sent ++ [c]) cs else (false, sent ++ [c])
  end.

(** ** Memory *)

(** The structure [b] is in memory, followed by the actions [A]. *)
Definition holds (b A : bytes) (s : setup) : Prop :=
  exists mem, ofm s = Some (FlowMod b mem) /\ Z.of_nat (length mem) = len_flow_actions s /\
    32 <= len_flow_actions s /\ take (length A) mem = A.

Lemma poke_spec (mem pre bs : bytes) (off : Z) :
  take (length pre) mem = pre -> off = Z.of_nat (length pre) -> off + Z.of_nat (length bs) <= Z.of_nat (length mem) ->
  exists mem', poke off bs mem = Ret mem' /\ length mem' = length mem /\ take (length (pre ++ bs)) mem' = pre ++ bs.
Proof.
  intros Hp -> Hl. unfold poke. destruct (Z.leb_spec (Z.of_nat (length pre) + Z.of_nat (length bs)) (Z.of_nat (length mem))); [|lia].
  eexists. split; [done|]. rewrite Nat2Z.id. split; [apply length_store; lia|].
  rewrite length_app, take_store by lia. by rewrite Hp.
Qed.

Lemma encode_all_app l1 l2 : encode_all (l1 ++ l2) = encode_all l1 ++ encode_all l2.
Proof. unfold encode_all. by rewrite fmap_app, concat_app. Qed.

Lemma encode_all_one a : encode_all [a] = encode a.
Proof. unfold encode_all. csimpl. apply app_nil_r. Qed.

Lemma dl_dst_action_encode mac : dl_dst_action mac = encode (A_dl_dst (octet (of_id mac))).
Proof.
  pose proof (proj1 (addr_ok_of_id mac)) as Hl. unfold dl_dst_action, put16. rewrite !htons_bytes.
  destruct (octet (of_id mac)) as [|s0 [|s1 [|s2 [|s3 [|s4 [|s5 [|]]]]]]]; done.
Qed.

Lemma port_action_encode port : port_action port = encode (A_output port 0).
Proof. by apply output_action_wire. Qed.

Lemma port_acts_ok na allow ow port : is_u16 port -> Forall act_ok (port_acts na allow ow port).
Proof.
  intros Hp. unfold port_acts. apply Forall_app_2.
  - destruct (negb _); [|done]. apply Forall_cons. split; [apply addr_ok_of_id|done].
  - by destruct na as [[] ?]; apply Forall_cons.
Qed.

Lemma set_action_spec (off dp port actions_len : Z) (check_nat allow : bool) (overwrite : Z) (nat_flow : list (list Z))
    (na : bool * Z) (b mem pre : bytes) (s : setup) :
  (if check_nat then nat_location (u64 (dp + Z.shiftl port 48)) nat_flow else Ret (false, 0)) = Ret na ->
  ofm s = Some (FlowMod b mem) -> Z.of_nat (length mem) = len_flow_actions s -> off + 32 <= len_flow_actions s ->
  take (length pre) mem = pre -> off = Z.of_nat (length pre) -> 0 <= actions_len -> actions_len + 32 < 2 ^ 16 ->
  let P := encode_all (port_acts na allow overwrite port) in
  exists mem', set_action off dp port actions_len check_nat allow overwrite nat_flow s =
      Ret (na.1, na.1 && allow && negb (na.2 =? 0), actions_len + Z.of_nat (length P), Setup (Some (FlowMod b mem')) (len_flow_actions s) (sent s)) /\
    length mem' = length mem /\ take (length (pre ++ P)) mem' = pre ++ P.
Proof.
  intros Hnat Hm Hl Hroom Hpre Hoff Ha0 Hn. unfold set_action. rewrite Hnat. cbn [mbind res_bind]. rewrite Hm.
  destruct na as [natted dladdr]. cbn [fst]. unfold port_acts. cbn [fst snd].
  set (ow := natted && allow && negb (dladdr =? 0)). set (mac := if ow then dladdr else overwrite). cbn [acts hd].
  rewrite encode_all_app.
  assert (exists mem1 pre1, (if negb (mac =? 0)
      then mem ← poke off (dl_dst_action mac) mem; Ret (mem, off + 16, u16 (actions_len + 16))
      else Ret (mem, off, actions_len)) =
      Ret (mem1, Z.of_nat (length pre1), actions_len + (Z.of_nat (length pre1) - off)) /\
      pre1 = pre ++ encode_all (if negb (mac =? 0) then [A_dl_dst (octet (of_id mac))] else []) /\
      length mem1 = length mem /\ take (length pre1) mem1 = pre1 /\ Z.of_nat (length pre1) <= off + 16)
    as (mem1 & pre1 & -> & -> & Hl1 & Ht1 & Hle).
  { destruct (negb (mac =? 0)).
    - rewrite dl_dst_action_encode, encode_all_one. set (e := encode _).
      assert (He : Z.of_nat (length e) = 16) by (apply (length_encode (A_dl_dst _)), addr_ok_of_id).
      destruct (poke_spec mem pre e off Hpre Hoff) as (mem1 & E & Hl1 & Ht1); [lia|].
      exists mem1, (pre ++ e). rewrite E. cbn [mbind res_bind]. pose proof (length_app pre e).
      split_and!; try done; [|lia]. unfold wrap. rewrite Z.mod_small by lia. f_equal. f_equal; [f_equal|]; lia.
    - exists mem, (pre ++ encode_all []). rewrite app_nil_r. split_and!; try done; [|lia]. f_equal. f_equal; [f_equal|]; lia. }
  cbn [mbind res_bind]. set (pre1 := pre ++ encode_all _) in *.
  set (e := if natted then snat_action port else port_action port).
  assert (He : e = encode_all [if natted then A_snat port else A_output port 0]).
  { rewrite encode_all_one. unfold e. destruct natted; [done|]. by rewrite port_action_encode. }
  assert (Hes : Z.of_nat (length e) = if natted then 16 else 8).
  { unfold e. destruct natted; [done|]. by rewrite port_action_encode. }
  destruct (poke_spec mem1 pre1 e (Z.of_nat (length pre1)) Ht1 eq_refl) as (mem' & E & Hl' & Ht');
    [destruct natted; lia|].
  exists mem'. rewrite app_assoc, <- He. fold pre1. split_and!; [|congruence|done].
  assert (Hsum : Z.of_nat (length (encode_all (if negb (mac =? 0) then [A_dl_dst (octet (of_id mac))] else []) ++ e)) =
    Z.of_nat (length pre1) - off + Z.of_nat (length e)).
  { unfold pre1. rewrite !length_app. lia. }
  unfold pre1 in Hle. rewrite Hsum. fold e in E. destruct natted; unfold e in E; rewrite E; cbn [mbind res_bind]; unfold wrap;
    rewrite Z.mod_small by (unfold pre1 in *; lia); rewrite Hes; do 3 f_equal; lia.
Qed.

(** Enlarging the memory keeps the structure, not the actions. *)
Lemma check_openflow_spec n b A s : holds b A s -> length b = 72%nat -> 0 <= n -> 2 * n < 2 ^ 16 ->
  holds b [] (check_openflow n s) /\ sent (check_openflow n s) = sent s /\ n <= len_flow_actions (check_openflow n s).
Proof.
  intros (mem & Hm & Hl & Hr & _) Hb Hn0 Hn. unfold check_openflow. rewrite Hm, (wrap_small 16 n) by lia.
  destruct (Z.leb_spec n (len_flow_actions s)); [split_and!; [by exists mem|done|done]|].
  cbn [sent len_flow_actions hd]. rewrite wrap_small by lia.
  pose proof (new_uint8_length (flow_mod_size + n * 2) ltac:(unfold flow_mod_size; lia)) as Hnew. unfold flow_mod_size in *.
  split_and!; [|done|lia]. eexists. cbn [ofm len_flow_actions length]. split_and!; [| |lia|done].
  - do 2 f_equal. unfold store. rewrite take_0, Hb. rewrite drop_ge by (rewrite length_take; lia). by rewrite app_nil_r.
  - rewrite length_drop. lia.
Qed.

Lemma with_hd_spec f b A s : holds b A s -> exists s', with_hd f s = Ret s' /\ holds (f b) A s' /\ sent s' = sent s.
Proof.
  intros (mem & Hm & Hl & Hr & Ht). unfold with_hd. rewrite Hm. eexists. split_and!; [done|by exists mem|done].
Qed.

(** The answer of [nat_location] for a port *)
Definition nat_of (check_nat : bool) (nat_flow : list (list Z)) (dp port : Z) : bool * Z :=
  match (if check_nat then nat_location (u64 (dp + Z.shiftl port 48)) nat_flow else Ret (false, 0)) with
  | Ret r => r
  | _ => (false, 0)
  end.

Lemma nat_of_spec (check_nat : bool) nat_flow dp port : Forall (fun l => l <> []) nat_flow ->
  (if check_nat then nat_location (u64 (dp + Z.shiftl port 48)) nat_flow else Ret (false, 0)) =
  Ret (nat_of check_nat nat_flow dp port).
Proof.
  intros Hf. unfold nat_of. destruct check_nat; [|done]. generalize (u64 (dp + Z.shiftl port 48)) as loc. intros loc.
  induction Hf as [|l nat_flow Hl _ IH]; [done|]. destruct l as [|x l]; [done|]. simpl. by destruct (loc =? x).
Qed.

Lemma set_action_holds (dp port actions_len : Z) (check_nat allow : bool) (overwrite : Z) (nat_flow : list (list Z))
    (b A : bytes) (s : setup) :
  Forall (fun l => l <> []) nat_flow -> holds b A s -> Z.of_nat (length A) + 32 <= len_flow_actions s ->
  0 <= actions_len -> actions_len + 32 < 2 ^ 16 ->
  let na := nat_of check_nat nat_flow dp port in
  let P := encode_all (port_acts na allow overwrite port) in
  exists s', set_action (Z.of_nat (length A)) dp port actions_len check_nat allow overwrite nat_flow s =
      Ret (na.1, na.1 && allow && negb (na.2 =? 0), actions_len + Z.of_nat (length P), s') /\
    holds b (A ++ P) s' /\ sent s' = sent s /\ len_flow_actions s' = len_flow_actions s.
Proof.
  intros Hf (mem & Hm & Hl & Hr & Ht) Hroom Ha0 Han na P.
  destruct (set_action_spec (Z.of_nat (length A)) dp port actions_len check_nat allow overwrite nat_flow na b mem A s)
    as (mem' & E & Hl' & Ht'); try done; [by apply nat_of_spec|].
  eexists. split; [exact E|]. split_and!; [|done|done]. exists mem'. cbn. split_and!; [done|lia|done|done].
Qed.

Lemma copy_actions_holds b A s : holds b [] s -> Z.of_nat (length A) <= len_flow_actions s ->
  exists s', copy_actions A s = Ret s' /\ holds b A s' /\ sent s' = sent s /\ len_flow_actions s' = len_flow_actions s.
Proof.
  intros (mem & Hm & Hl & Hr & _) Hroom. unfold copy_actions. rewrite Hm. cbn [acts hd].
  destruct (poke_spec mem [] A 0) as (mem' & -> & Hl' & Ht'); [done|done|lia|]. cbn [mbind res_bind].
  eexists. split_and!; [done| |done|done]. exists mem'. cbn. split_and!; [done|lia|done|done].
Qed.

Definition fits (l : list act) : Prop := 2 * (Z.of_nat (length (encode_all l)) + 32) < 2 ^ 16.

Lemma port_acts_small na allow ow port : Z.of_nat (length (encode_all (port_acts na allow ow port))) <= 32.
Proof.
  unfold port_acts. rewrite encode_all_app, length_app, encode_all_one.
  set (mac := if na.1 && allow && negb (na.2 =? 0) then na.2 else ow). assert (Z.of_nat (length (encode_all (if negb (mac =? 0)
    then [A_dl_dst (octet (of_id mac))] else []))) <= 16).
  { clearbody mac. destruct (negb (mac =? 0)); [|by vm_compute].
    rewrite encode_all_one, (length_encode (A_dl_dst _)) by apply addr_ok_of_id. cbn. lia. }
  assert (Z.of_nat (length (encode (if na.1 then A_snat port else A_output port 0))) <= 16)
    by (destruct na as [[] ?]; cbn; lia). lia.
Qed.

Lemma set_openflow_actions_spec (l : list act) (dp port : Z) (check_nat allow : bool) (nat_flow : list (list Z)) b A s :
  Forall (fun l => l <> []) nat_flow -> holds b A s -> length b = 72%nat -> fits l ->
  let na := nat_of check_nat nat_flow dp port in
  let B := encode_all (l ++ port_acts na allow 0 port) in
  exists s', set_openflow_actions (encode_all l) dp port check_nat allow nat_flow s = Ret (na.1, s') /\
    holds (put16 2 (htons (flow_mod_size + Z.of_nat (length B))) b) B s' /\ sent s' = sent s.
Proof.
  intros Hf Hs Hb Hfit na B. unfold set_openflow_actions, fits in *. rewrite max_output_action_len_eq.
  destruct (check_openflow_spec (Z.of_nat (length (encode_all l)) + 32) b A s Hs Hb) as (H1 & S1 & L1); [lia..|].
  destruct (copy_actions_holds b (encode_all l) _ H1) as (s2 & -> & H2 & S2 & L2); [lia|]. cbn [mbind res_bind].
  pose proof (port_acts_small na allow 0 port) as Hsm. unfold flow_mod_size in *. rewrite wrap_small by lia.
  destruct (set_action_holds dp port (72 + Z.of_nat (length (encode_all l))) check_nat allow 0 nat_flow b (encode_all l) s2)
    as (s3 & -> & H3 & S3 & L3); [done|done|lia|lia|lia|]. cbn [mbind res_bind]. fold na in H3 |- *.
  rewrite <- encode_all_app in H3. fold B in H3.
  destruct (with_hd_spec (put16 2 (htons (72 + Z.of_nat (length (encode_all l)) +
    Z.of_nat (length (encode_all (port_acts na allow 0 port)))))) b B s3 H3) as (s4 & -> & H4 & S4). cbn [mbind res_bind].
  exists s4. split_and!; [done| |congruence]. assert (El : 72 + Z.of_nat (length B) = 72 + Z.of_nat (length (encode_all l)) +
    Z.of_nat (length (encode_all (port_acts na allow 0 port)))) by (unfold B; rewrite encode_all_app, length_app; lia).
  by rewrite El.
Qed.

Lemma send_flow_mod_spec dp m ck idle hard bid outp A s :
  of_match.shape m -> holds (of_flow_mod.wire (fm (72 + Z.of_nat (length A)) m ck idle hard bid outp)) A s ->
  72 + Z.of_nat (length A) < 2 ^ 16 ->
  send_flow_mod dp s = Ret (send (Flow_command dp
    (of_flow_mod.wire (fm (72 + Z.of_nat (length A)) m ck idle hard bid outp) ++ A)) s).
Proof.
  intros Hsh (mem & Hm & Hl & Hr & Ht) Hn. unfold send_flow_mod. rewrite Hm. cbn [hd acts].
  rewrite get_length by (done || (unfold in_width; lia)).
  pose proof (fm_length (72 + Z.of_nat (length A)) m ck idle hard bid outp Hsh) as Hw.
  assert (HA : (length A <= length mem)%nat) by (rewrite <- Ht, length_take; lia).
  rewrite length_app, Hw. destruct (Z.leb_spec (72 + Z.of_nat (length A)) (Z.of_nat (72 + length mem))); [|lia].
  do 4 f_equal. replace (Z.to_nat (72 + Z.of_nat (length A))) with (length (of_flow_mod.wire
    (fm (72 + Z.of_nat (length A)) m ck idle hard bid outp)) + length A)%nat by lia.
  by rewrite take_app_add, Ht.
Qed.

(** Memory that was never set up, or holds a structure of the module *)
Definition ready (s : setup) : Prop :=
  len_flow_actions s < 32 \/ exists b, holds b [] s /\ prepared b.

Lemma set_openflow_spec f bid timeout s : ready s -> flow_ok f -> is_u16 (in_port f) ->
  exists len outp s', set_openflow f bid timeout s = Ret s' /\ sent s' = sent s /\
    holds (of_flow_mod.wire (fm len (get_exact_match f) (hash_code f) timeout OFP_FLOW_PERMANENT bid outp)) [] s'.
Proof.
  intros Hs Hf Hp. unfold set_openflow. rewrite max_output_action_len_eq.
  set (s1 := if len_flow_actions s <? 32 then init_openflow (8 * 32) s else s).
  assert (exists b, holds b [] s1 /\ prepared b /\ sent s1 = sent s) as (b & Hh & Hb & <-).
  { unfold s1. destruct (Z.ltb_spec (len_flow_actions s) 32).
    - pose proof (new_uint8_length 328 ltac:(lia)) as Hl. pose proof (new_uint8_bytes 328) as Hby.
      eexists. split_and!; [|apply (init_prepared (take 72 (new_uint8 328)))|done].
      + eexists. unfold init_openflow. cbn [ofm len_flow_actions]. split_and!; [done| |lia|done].
        change (flow_mod_size + 8 * 32) with 328. rewrite length_drop. lia.
      + rewrite length_take. lia.
      + by apply Forall_take.
      + apply get_xid_range.
    - destruct Hs as [?|(b & Hh & Hb)]; [lia|]. by exists b. }
  destruct (set_fields_spec f bid timeout b Hb Hf Hp) as (len & outp & E).
  destruct (with_hd_spec (set_fields f bid timeout) b [] s1 Hh) as (s' & E' & Hs' & Hsent).
  exists len, outp, s'. by rewrite <- E.
Qed.

Lemma holds_weaken b A s : holds b A s -> holds b [] s.
Proof. intros (mem & ? & ? & ? & _). by exists mem. Qed.

Lemma holds_nil (b : bytes) s : holds b [] s -> forall n, n <= 32 -> Z.of_nat (length (@nil Z)) + n <= len_flow_actions s.
Proof. intros (mem & _ & _ & ? & _) n Hn. simpl. lia. Qed.

(** What an entry's actions take; [None]: no list of actions was given. *)
Definition actions_ok (fuel : nat) (links : list link) (actions : option (list (list act))) : Prop :=
  match actions with
  | None => True
  | Some l => length l = S (length links) /\ Forall (fun a => Forall act_ok a /\ fits a /\ (length a < fuel)%nat) l
  end.

Section loop.
Variables (ck idle outp ap_outport : Z) (check_nat allow : bool) (nat_flow : list (list Z)) (fuel : nat).
Hypothesis Hnat : Forall (fun l => l <> []) nat_flow.

Definition fm_of (len : Z) (m : of_match.t) : bytes :=
  of_flow_mod.wire (fm len m ck idle OFP_FLOW_PERMANENT UINT32_MAX outp).

(** The first part of a round: the actions and the length are in place. *)
Lemma round_actions actions dp outport len m s links :
  of_match.shape m -> holds (fm_of len m) [] s -> actions_ok fuel links actions ->
  let na := nat_of check_nat nat_flow dp outport in
  let B := encode_all (match actions with Some (a :: _) => a | _ => [] end ++ port_acts na allow 0 outport) in
  72 + Z.of_nat (length B) < 2 ^ 16 /\
  exists s', (match fmap (M := option) (fmap (M := list) encode_all) actions with
    | Some [] => Aborted
    | Some (a :: _) => set_openflow_actions a dp outport check_nat allow nat_flow s
    | None =>
        '(nat_match, _, packet_len, s) ← set_action 0 dp outport flow_mod_size check_nat allow 0 nat_flow s;
        s ← with_hd (put16 2 (htons packet_len)) s;
        Ret (nat_match, s)
    end) = Ret (na.1, s') /\ holds (fm_of (72 + Z.of_nat (length B)) m) B s' /\ sent s' = sent s.
Proof.
  intros Hm Hs Ha na B. pose proof (port_acts_small na allow 0 outport) as Hsm.
  assert (Hlen : length (fm_of len m) = 72%nat) by (by apply fm_length).
  destruct actions as [[|a l]|]; [by destruct Ha as [? _]| |]; cbn [fmap option_fmap option_map list_fmap].
  - destruct Ha as [_ Ha]. apply Forall_cons in Ha as [(_ & Hfit & _) _].
    assert (HB : Z.of_nat (length B) <= Z.of_nat (length (encode_all a)) + 32)
      by (unfold B; rewrite encode_all_app, length_app; lia).
    split; [unfold fits in Hfit; lia|].
    destruct (set_openflow_actions_spec a dp outport check_nat allow nat_flow _ [] s Hnat Hs Hlen Hfit) as (s' & E & Hs' & Hsent).
    exists s'. split_and!; [exact E| |done]. unfold fm_of in Hs' |- *. rewrite put_length in Hs' by done. exact Hs'.
  - split; [unfold B; simpl; lia|].
    destruct (set_action_holds dp outport flow_mod_size check_nat allow 0 nat_flow (fm_of len m) [] s Hnat Hs)
      as (s2 & E & H2 & S2 & _); [by apply (holds_nil _ _ Hs)|done|done|]. change (Z.of_nat (length [])) with 0 in E. rewrite E. cbn [mbind res_bind].
    fold na in H2 |- *. cbn [app] in H2. fold B in H2.
    destruct (with_hd_spec (put16 2 (htons (flow_mod_size + Z.of_nat (length B)))) _ B s2 H2) as (s3 & E3 & H3 & S3).
    unfold B in E3 at 1. cbn [app] in E3. rewrite E3. cbn [mbind res_bind]. exists s3. split_and!; [done| |congruence].
    unfold fm_of in H3 |- *. by rewrite put_length in H3.
Qed.

(** A round up to the call that sends the entry *)
Lemma round_spec actions dp inport outport len m s links :
  of_match.shape m -> holds (fm_of len m) [] s -> actions_ok fuel links actions ->
  let na := nat_of check_nat nat_flow dp outport in
  let a := match actions with Some (a :: _) => a | _ => [] end in
  let c := entry_command ck idle outp (Entry dp (at_port inport m) (a ++ port_acts na allow 0 outport)) in
  exists s1 s2 s' len', (match fmap (M := option) (fmap (M := list) encode_all) actions with
    | Some [] => Aborted
    | Some (a :: _) => set_openflow_actions a dp outport check_nat allow nat_flow s
    | None =>
        '(nat_match, _, packet_len, s) ← set_action 0 dp outport flow_mod_size check_nat allow 0 nat_flow s;
        s ← with_hd (put16 2 (htons packet_len)) s;
        Ret (nat_match, s)
    end) = Ret (na.1, s1) /\ with_hd (put16 12 (htons inport)) s1 = Ret s2 /\
    send_flow_mod dp s2 = Ret (send_error (sent s) c, s') /\ sent s' = sent s ++ [c] /\
    holds (fm_of len' (at_port inport m)) [] s'.
Proof.
  intros Hm Hs Ha na a c. destruct (round_actions actions dp outport len m s _ Hm Hs Ha) as (HB & s1 & E1 & H1 & S1).
  fold na a in HB, H1. set (B := encode_all (a ++ port_acts na allow 0 outport)) in *.
  destruct (with_hd_spec (put16 12 (htons inport)) _ B s1 H1) as (s2 & E2 & H2 & S2).
  unfold fm_of in H2. rewrite put_in_port in H2 by done.
  exists s1, s2, (send c s2).2, (72 + Z.of_nat (length B)). split_and!; [exact E1|exact E2| | |].
  - rewrite (send_flow_mod_spec dp (at_port inport m) ck idle _ _ outp B s2) by (done || by apply at_port_shape).
    unfold send. by rewrite S2, S1.
  - simpl. by rewrite S2, S1.
  - destruct H2 as (mem & ? & ? & ? & _). by exists mem.
Qed.

(** [route_loop] sends the entries of the route, as far as sending succeeds. *)
Lemma route_loop_spec links : forall actions dp inport len m s,
  exact m -> holds (fm_of len m) [] s -> actions_ok fuel links actions ->
  let cs := entry_command ck idle outp <$>
    route_entries (nat_of check_nat nat_flow) allow links actions dp inport ap_outport m in
  exists s' len' m', route_loop fuel links (fmap (M := option) (fmap (M := list) encode_all) actions) dp inport ap_outport
      check_nat allow nat_flow s = Ret ((send_all (sent s) cs).1, s') /\
    sent s' = (send_all (sent s) cs).2 /\ exact m' /\ holds (fm_of len' m') [] s'.
Proof.
  induction links as [|l links IH]; intros actions dp inport len m s Hm Hs Ha; cbn [route_entries route_loop].
  - destruct (round_spec actions dp inport ap_outport len m s _ (proj1 Hm) Hs Ha) as (s1 & s2 & s3 & len' & -> & E2 & E3 & S3 & H3).
    cbn [mbind res_bind]. rewrite E2. cbn [mbind res_bind]. rewrite E3. cbn [mbind res_bind fmap list_fmap send_all].
    apply (at_port_exact inport) in Hm. exists s3, len', (at_port inport m).
    match goal with |- context [send_error ?a ?b =? 0] => destruct (Z.eqb_spec (send_error a b) 0) as [He|He] end; done.
  - destruct (round_spec actions dp inport (outport l) len m s _ (proj1 Hm) Hs Ha) as (s1 & s2 & s3 & len' & -> & E2 & E3 & S3 & H3).
    cbn [mbind res_bind]. rewrite E2. cbn [mbind res_bind]. rewrite E3. cbn [mbind res_bind fmap list_fmap send_all].
    apply (at_port_exact inport) in Hm.
    match goal with |- context [send_error ?a ?b =? 0] => destruct (Z.eqb_spec (send_error a b) 0) as [He|He] end;
      cbn [negb]; [|by exists s3, len', (at_port inport m)].
    rewrite <- S3. destruct (nat_of check_nat nat_flow dp (outport l)).1 eqn:En.
    { by exists s3, len', (at_port inport m). }
    destruct actions as [[|a rest]|]; [by destruct Ha| |].
    + destruct Ha as [Hlen Ha]. apply Forall_cons in Ha as [(Hok & Hfit & Hfuel) Ha].
      cbn [fmap option_fmap option_map list_fmap tail]. destruct H3 as (mem & Hm3 & Hl3 & Hr3 & _).
      unfold modify_match at 1. rewrite Hm3. cbn [hd acts].
      pose proof (modify_loop_spec fuel a [] len' (at_port inport m) ck idle OFP_FLOW_PERMANENT UINT32_MAX outp Hok (proj1 Hm) Hfuel) as El.
      unfold fits in Hfit. cbn [app] in El. change (Z.of_nat (length [])) with 0 in El. unfold fm_of. rewrite El by lia.
      cbn [mbind res_bind]. set (s4 := Setup _ _ _).
      destruct (IH (Some rest) (l_dst l) (Routing.inport l) len' (change_all a (at_port inport m)) s4) as (s' & len4 & m' & E & HH).
      * by apply change_all_exact.
      * exists mem. by split_and!.
      * split; [simpl in Hlen; lia|done].
      * exists s', len4, m'. split; [exact E|exact HH].
    + cbn [fmap option_fmap option_map].
      destruct (IH None (l_dst l) (Routing.inport l) len' (at_port inport m) s3) as (s' & len4 & m' & E & HH); try done.
      exists s', len4, m'. split; [exact E|exact HH].
Qed.
End loop.
End route.
