(* ===== verification/FlowSetupProps.v ===== *)
(** * Flow set-up: what the entries do in the network *)

From S2P Require Import Prelude Bytes Ethernetaddr Flow FlowSpec OfpWire OfpCore OfpActions OfpMessages FlowMatch OpenflowConnection OpenflowSend Switch Topology Routing RoutingFacts FlowSetup FlowSetupRoute.

Open Scope Z_scope.

(** ** What a datapath reads *)

Definition decode_act (b : bytes) : option act :=
  let ty := of_be (load 0 2 b) in
  if ty =? OFPAT_OUTPUT then Some (A_output (of_be (load 4 2 b)) (of_be (load 6 2 b)))
  else if ty =? OFPAT_SET_VLAN_VID then Some (A_vlan_vid (of_be (load 4 2 b)))
  else if ty =? OFPAT_SET_VLAN_PCP then Some (A_vlan_pcp (of_be (load 4 1 b)))
  else if ty =? OFPAT_STRIP_VLAN then Some A_strip_vlan
  else if ty =? OFPAT_SET_DL_SRC then Some (A_dl_src (load 4 6 b))
  else if ty =? OFPAT_SET_DL_DST then Some (A_dl_dst (load 4 6 b))
  else if ty =? OFPAT_SET_NW_SRC then Some (A_nw_src (of_be (load 4 4 b)))
  else if ty =? OFPAT_SET_NW_DST then Some (A_nw_dst (of_be (load 4 4 b)))
  else if ty =? OFPAT_SET_NW_TOS then Some (A_nw_tos (of_be (load 4 1 b)))
  else if ty =? OFPAT_SET_TP_SRC then Some (A_tp_src (of_be (load 4 2 b)))
  else if ty =? OFPAT_SET_TP_DST then Some (A_tp_dst (of_be (load 4 2 b)))
  else if (ty =? OFPAT_VENDOR) && (of_be (load 4 4 b) =? NX_VENDOR_ID) && (of_be (load 8 2 b) =? NXAST_SNAT)
  then Some (A_snat (of_be (load 10 2 b)))
  else None.

Fixpoint decode_acts (fuel : nat) (b : bytes) : option (list act) :=
  match b, fuel with
  | [], _ => Some []
  | _, O => None
  | _, S fuel =>
      let n := of_be (load 2 2 b) in
      if n <? 8 then None
      else a ← decode_act b; l ← decode_acts fuel (drop (Z.to_nat n) b); Some (a :: l)
  end.

(** The entry that a message adds: an exact match and its actions *)
Definition read_entry (c : command) : option entry :=
  match c with
  | Flow_command dp msg =>
      m ← of_match.unpack (drop 8 msg);
      l ← decode_acts (length msg) (drop 72 msg);
      if (of_match.wildcards m =? 0) && (of_be (load 56 2 msg) =? OFPFC_ADD) && (of_be (load 2 2 msg) =? Z.of_nat (length msg))
      then Some (Entry dp m l) else None
  | _ => None
  end.

(** ** What a datapath does *)

(** The packets it emits, with their ports *)
Fixpoint run_acts (l : list act) (h : of_match.t) : list (Z * of_match.t) :=
  match l with
  | [] => []
  | A_output p _ :: l => (p, h) :: run_acts l h
  | A_snat p :: l => (p, h) :: run_acts l h
  | A_strip_vlan :: l => run_acts l (change (A_vlan_pcp 0) (change A_strip_vlan h))
  | A_nw_tos x :: l =>
      let 'of_match.mk w p s d v c p1 ty _ pr p2 ns nd ts td := h in
      run_acts l (of_match.mk w p s d v c p1 ty x pr p2 ns nd ts td)
  | a :: l => run_acts l (change a h)
  end.

#[export] Instance of_match_eq_dec : EqDecision of_match.t.
Proof. solve_decision. Defined.

(** A packet crosses the network: where it leaves, and its headers then.  A port
    without cable is an access port.  Packets that match nothing go to the
    controller and not on. *)
Fixpoint deliver (hops : nat) (cable : Z -> Z -> option (Z * Z)) (es : list entry) (dp : Z) (h : of_match.t)
    : list (Z * Z * of_match.t) :=
  match hops with
  | O => []
  | S hops =>
      match List.find (fun e => bool_decide (e_dp e = dp /\ e_match e = h)) es with
      | None => []
      | Some e =>
          '(p, h) ← run_acts (e_acts e) h;
          match cable dp p with
          | None => [(dp, p, h)]
          | Some (dp', p') => deliver hops cable es dp' (at_port p' h)
          end
      end
  end.

(** ** Reading back *)

Lemma decode_field (k n : nat) x a b rest : a = b ++ to_be n x ++ rest -> length b = k ->
  0 <= x < 2 ^ (8 * Z.of_nat n) -> of_be (load k n a) = x.
Proof.
  intros -> <- Hx. rewrite load_app_r, Nat.sub_diag by lia. rewrite load_here by apply length_to_be. by apply of_be_to_be.
Qed.

Lemma decode_act_encode a rest : act_ok a -> decode_act (encode a ++ rest) = Some a.
Proof.
  intros Ha. destruct a; cbn in Ha.
  - change (Some (A_output (of_be (load 4 2 (encode (A_output port max_len) ++ rest)))
      (of_be (load 6 2 (encode (A_output port max_len) ++ rest)))) = Some (A_output port max_len)).
    f_equal. f_equal; [apply (decode_field 4 2 _ _ [0; 0; 0; 8] (to_be 2 max_len ++ rest))|
      apply (decode_field 6 2 _ _ ([0; 0; 0; 8] ++ to_be 2 port) rest)]; done || apply Ha.
  - change (Some (A_vlan_vid (of_be (load 4 2 (encode (A_vlan_vid v) ++ rest)))) = Some (A_vlan_vid v)).
    do 2 f_equal. by apply (decode_field 4 2 _ _ [0; 1; 0; 8] ([0; 0] ++ rest)).
  - change (Some (A_vlan_pcp (v + 256 * 0)) = Some (A_vlan_pcp v)). do 2 f_equal. lia.
  - done.
  - change (Some (A_dl_src (load 4 6 (encode (A_dl_src a) ++ rest))) = Some (A_dl_src a)). unfold encode.
    by rewrite dl_addr_load by apply Ha.
  - change (Some (A_dl_dst (load 4 6 (encode (A_dl_dst a) ++ rest))) = Some (A_dl_dst a)). unfold encode.
    by rewrite dl_addr_load by apply Ha.
  - change (Some (A_nw_src (of_be (load 4 4 (encode (A_nw_src x) ++ rest)))) = Some (A_nw_src x)).
    do 2 f_equal. by apply (decode_field 4 4 _ _ [0; 6; 0; 8] rest).
  - change (Some (A_nw_dst (of_be (load 4 4 (encode (A_nw_dst x) ++ rest)))) = Some (A_nw_dst x)).
    do 2 f_equal. by apply (decode_field 4 4 _ _ [0; 7; 0; 8] rest).
  - change (Some (A_nw_tos (x + 256 * 0)) = Some (A_nw_tos x)). do 2 f_equal. lia.
  - change (Some (A_tp_src (of_be (load 4 2 (encode (A_tp_src x) ++ rest)))) = Some (A_tp_src x)).
    do 2 f_equal. by apply (decode_field 4 2 _ _ [0; 9; 0; 8] ([0; 0] ++ rest)).
  - change (Some (A_tp_dst (of_be (load 4 2 (encode (A_tp_dst x) ++ rest)))) = Some (A_tp_dst x)).
    do 2 f_equal. by apply (decode_field 4 2 _ _ [0; 10; 0; 8] ([0; 0] ++ rest)).
  - change (Some (A_snat (of_be (load 10 2 (encode (A_snat port) ++ rest)))) = Some (A_snat port)).
    do 2 f_equal. apply (decode_field 10 2 _ _ [255; 255; 0; 16; 0; 0; 35; 32; 0; 0] ([0; 0; 0; 0] ++ rest)); [|done|done].
    unfold encode, snat_action, put16, put32. by rewrite !htons_bytes, htonl_bytes.
Qed.

Lemma decode_acts_encode l fuel : Forall act_ok l -> (length l <= fuel)%nat -> decode_acts fuel (encode_all l) = Some l.
Proof.
  intros Hl. revert fuel. induction Hl as [|a l Ha _ IH]; intros fuel Hf; [by destruct fuel|].
  destruct fuel as [|fuel]; [simpl in Hf; lia|]. unfold encode_all. csimpl. fold (encode_all l).
  destruct (act_header a (encode_all l) Ha) as (E2 & E4 & _). pose proof (length_encode a Ha) as Hla.
  pose proof (encode_bytes a Ha) as Hb.
  assert (En : of_be (load 2 2 (encode a ++ encode_all l)) = act_size a).
  { rewrite <- E2. unfold get16. rewrite load_app_l by lia. symmetry. apply ntohs_be; [apply length_load; lia|by apply load_bytes]. }
  unfold decode_acts; fold decode_acts. destruct (encode a ++ encode_all l) as [|x r] eqn:E.
  { destruct (encode a); [simpl in E4; lia|done]. }
  rewrite <- E in *. rewrite En. assert (8 <= act_size a) by (destruct a; simpl; lia).
  destruct (Z.ltb_spec (act_size a) 8); [lia|]. rewrite decode_act_encode by done. cbn [mbind option_bind].
  replace (Z.to_nat (act_size a)) with (length (encode a)) by lia. rewrite drop_app_length. simpl in Hf.
  by rewrite IH by lia.
Qed.

Lemma change_wf a m : act_ok a -> of_match.wf m -> of_match.wf (change a m).
Proof.
  intros Ha (Hs & Hm). split; [by apply change_shape|]. destruct m, a; simpl in *; destruct_and!; split_and!; try done; apply Ha.
Qed.

Lemma change_all_wf l m : Forall act_ok l -> of_match.wf m -> of_match.wf (change_all l m).
Proof. intros Hl. revert m. induction Hl; intros m Hm; [done|]. simpl. auto using change_wf. Qed.

Lemma at_port_wf p m : is_u16 p -> of_match.wf m -> of_match.wf (at_port p m).
Proof. intros Hp (Hs & Hm). split; [by apply at_port_shape|]. destruct m. simpl in *. by destruct_and!; split_and!. Qed.

Lemma exact_match_wf f : flow_ok f -> is_u16 (in_port f) -> of_match.wf (get_exact_match f).
Proof.
  intros Hf Hp. split; [by apply match_shape|]. destruct Hf. simpl. split_and!; try apply htons_range; try apply htonl_range; try done.
  unfold in_width. lia.
Qed.

Lemma change_all_wildcards l m : of_match.wildcards (change_all l m) = of_match.wildcards m.
Proof. revert m. induction l as [|a l IH]; intros m; [done|]. simpl. rewrite IH. by destruct m, a. Qed.

Lemma at_port_wildcards p m : of_match.wildcards (at_port p m) = of_match.wildcards m.
Proof. by destruct m. Qed.

(** Entries whose message says what they are *)
Definition entry_ok (e : entry) : Prop :=
  of_match.wf (e_match e) /\ of_match.wildcards (e_match e) = 0 /\ Forall act_ok (e_acts e) /\
  72 + Z.of_nat (length (encode_all (e_acts e))) < 2 ^ 16.

Lemma length_acts_encode l : Forall act_ok l -> (length l <= length (encode_all l))%nat.
Proof.
  induction 1 as [|a l Ha _ IH]; [simpl; lia|]. unfold encode_all in *. csimpl. rewrite length_app.
  pose proof (length_encode a Ha). assert (8 <= act_size a) by (destruct a; simpl; lia). lia.
Qed.

Lemma read_flow_mod `{Controller} ck idle hard bid outp dp m l : entry_ok (Entry dp m l) ->
  read_entry (Flow_command dp (of_flow_mod.wire (fm (72 + Z.of_nat (length (encode_all l))) m ck idle hard bid outp) ++ encode_all l)) =
  Some (Entry dp m l).
Proof.
  intros (Hm & Hw & Ha & Hlen). cbn [e_match e_acts e_dp] in *. unfold read_entry. set (b := of_flow_mod.wire _).
  assert (Hb : length b = 72%nat) by (apply fm_length, Hm).
  assert (E8 : exists r, drop 8 b = of_match.wire m ++ r).
  { eexists. unfold b, of_flow_mod.wire, fm. cbn [of_flow_mod.header of_flow_mod.match_ msg_wire of_header.header_message
      of_match.match_message]. reflexivity. }
  destruct E8 as [r Er]. rewrite (drop_app_le b _ 8), Er, <- app_assoc by lia. rewrite of_match.match_unpack_wire by done.
  cbn [mbind option_bind]. rewrite (drop_app_ge b _ 72), Hb, Nat.sub_diag, drop_0 by lia.
  rewrite decode_acts_encode; [|done|rewrite length_app; pose proof (length_acts_encode l Ha); lia]. cbn [mbind option_bind].
  rewrite Hw, !load_app_l by lia.
  assert (Hs : of_match.shape m) by apply Hm. assert (E56 : load 56 2 b = to_be 2 OFPFC_ADD) by (unfold b; open_match m Hs; reflexivity).
  assert (E2 : load 2 2 b = to_be 2 (72 + Z.of_nat (length (encode_all l)))) by (unfold b; open_match m Hs; reflexivity).
  rewrite E56, E2, !of_be_to_be by (unfold OFPFC_ADD; lia). rewrite length_app, Hb.
  destruct (Z.eqb_spec (72 + Z.of_nat (length (encode_all l))) (Z.of_nat (72 + length (encode_all l)))); [done|lia].
Qed.

Lemma read_entry_command `{Controller} ck idle outp e : entry_ok e -> read_entry (entry_command ck idle outp e) = Some e.
Proof. destruct e. apply read_flow_mod. Qed.

(** ** Delivery *)

(** Actions that rewrite a header and that the module follows *)
Definition rewriting (a : act) : Prop :=
  match a with A_output _ _ | A_snat _ | A_nw_tos _ | A_strip_vlan => False | _ => True end.

Lemma run_rewriting l p h : Forall rewriting l -> run_acts (l ++ [A_output p 0]) h = [(p, change_all l h)].
Proof. intros Hl. revert h. induction Hl as [|a l Ha _ IH]; intros h; [done|]. destruct a; try done; simpl; apply IH. Qed.

Lemma change_at_port a p m : change a (at_port p m) = at_port p (change a m).
Proof. by destruct m, a. Qed.
Lemma change_all_at_port l p m : change_all l (at_port p m) = at_port p (change_all l m).
Proof. revert m. induction l as [|a l IH]; intros m; [done|]. simpl. by rewrite change_at_port, IH. Qed.
Lemma at_port_at_port p q m : at_port p (at_port q m) = at_port p m.
Proof. by destruct m. Qed.

Lemma find_entry es e : NoDup (e_dp <$> es) -> e ∈ es ->
  List.find (fun x => bool_decide (e_dp x = e_dp e /\ e_match x = e_match e)) es = Some e.
Proof.
  induction es as [|x es IH]; intros Hn He; [by apply not_elem_of_nil in He|]. csimpl in Hn. apply NoDup_cons in Hn as [Hx Hn].
  simpl. apply elem_of_cons in He as [->|He]; [by rewrite bool_decide_true|].
  rewrite bool_decide_false; [by apply IH|]. intros [E _]. apply Hx. rewrite E. by apply list_elem_of_fmap_2.
Qed.

(** The port on which the last datapath receives the packet *)
Definition last_inport (inp : Z) (links : list link) : Z := foldl (fun _ l => Routing.inport l) inp links.

Section plain.
Variables (U : links) (cable : Z -> Z -> option (Z * Z)) (ap_outport : Z).
Hypothesis Hcable : forall a l, (a, l) ∈ U -> cable a (outport l) = Some (l_dst l, Routing.inport l).

Abbreviation plain_entries := (route_entries (fun _ _ => (false, 0))).

Lemma plain_dps allow links : forall actions dp inport m,
  e_dp <$> plain_entries allow links actions dp inport ap_outport m = dp :: (l_dst <$> links).
Proof. induction links as [|l links IH]; intros; [done|]. cbn [route_entries fst fmap list_fmap]. by rewrite IH. Qed.

Lemma delivers es allow links : forall actions dp inport m hops b,
  NoDup (e_dp <$> es) -> plain_entries allow links actions dp inport ap_outport m ⊆ es -> (length links < hops)%nat ->
  walk U dp links b -> cable b ap_outport = None ->
  (forall l, actions = Some l -> Forall (Forall rewriting) l /\ length l = S (length links)) ->
  deliver hops cable es dp (at_port inport m) =
    [(b, ap_outport, change_all (concat (default [] actions)) (at_port (last_inport inport links) m))].
Proof.
  induction links as [|l links IH]; intros actions dp inport m hops b Hn Hsub Hh Hw Hb Ha;
    (destruct hops as [|hops]; [lia|]); cbn [deliver].
  all: assert (Hact : Forall rewriting (match actions with Some (a :: _) => a | _ => [] end))
         by (destruct actions as [[|a l']|]; [done| |done]; destruct (Ha _ eq_refl) as [Hr _]; by apply Forall_cons in Hr as [? _]).
  all: set (a := match actions with Some (a :: _) => a | _ => [] end) in *.
  - simpl in Hw. subst dp. set (e := Entry b (at_port inport m) (a ++ [A_output ap_outport 0])).
    pose proof (find_entry es e Hn (Hsub e (list_elem_of_here _ _))) as Hf. cbn [e e_dp e_match] in Hf. rewrite Hf.
    unfold e. cbn [e_acts]. rewrite run_rewriting by done.
    cbn [mbind list_bind]. rewrite Hb, app_nil_r. do 2 f_equal. unfold last_inport. cbn [foldl].
    assert (Ec : concat (default [] actions) = a); [|by rewrite Ec].
    destruct actions as [[|a' [|]]|]; simpl; try done; destruct (Ha _ eq_refl) as [_ Hl]; simpl in Hl; try lia.
    by rewrite app_nil_r.
  - destruct Hw as [Hl Hw]. simpl in Hh. set (e := Entry dp (at_port inport m) (a ++ [A_output (outport l) 0])).
    pose proof (find_entry es e Hn (Hsub e (list_elem_of_here _ _))) as Hf. cbn [e e_dp e_match] in Hf. rewrite Hf.
    unfold e. cbn [e_acts]. rewrite run_rewriting by done.
    cbn [mbind list_bind]. rewrite (Hcable _ _ Hl), app_nil_r.
    rewrite (IH (tail <$> actions) (l_dst l) (Routing.inport l) (change_all a (at_port inport m)) hops b); try done; [| |lia|].
    + do 2 f_equal. unfold last_inport. cbn [foldl]. rewrite <- change_all_at_port, at_port_at_port.
      unfold change_all. rewrite <- foldl_app. do 2 f_equal. by destruct actions as [[|]|].
    + intros x Hx. apply Hsub. right. exact Hx.
    + intros l' E. destruct actions as [[|a0 l0]|]; simplify_eq/=.
      * destruct (Ha _ eq_refl) as [_ Hlen]. simpl in Hlen. lia.
      * destruct (Ha _ eq_refl) as [Hr Hlen]. apply Forall_cons in Hr as [_ Hr]. simpl in Hlen. split; [done|lia].
Qed.
End plain.

(** ** Properties *)

(** The given list of actions, if it has the right length *)
Definition given (actions : list (list act)) (r : route) : option (list (list act)) :=
  if Z.of_nat (length actions) =? Z.of_nat (length (path r)) + 1 then Some actions else None.

Definition usable (fuel : nat) (a : list act) : Prop := Forall act_ok a /\ fits a /\ (length a < fuel)%nat.

Section setup_route.
Context `{ControllerLaws}.

Lemma setup_route_spec fuel f r ap_inport ap_outport timeout actions check_nat nat_flow s :
  ready s -> flow_ok f -> is_u16 (in_port f) -> Forall (usable fuel) actions -> Forall (fun l => l <> []) nat_flow ->
  exists outp s', let cs := entry_command (hash_code f) timeout outp <$>
      route_entries (nat_of check_nat nat_flow) (negb (is_multicast (dl_dst f))) (path r) (given actions r) (r_src r)
        ap_inport ap_outport (get_exact_match f) in
    setup_route fuel f r ap_inport ap_outport timeout (encode_all <$> actions) check_nat nat_flow s =
      Ret ((send_all (sent s) cs).1, s') /\ sent s' = (send_all (sent s) cs).2 /\ ready s'.
Proof.
  intros Hs Hf Hp Ha Hn. destruct (set_openflow_spec f UINT32_MAX timeout s Hs Hf Hp) as (len & outp & s1 & E1 & S1 & H1).
  exists outp. unfold setup_route. rewrite E1. cbn [mbind res_bind].
  assert (Eg : (if negb (is_nil (encode_all <$> actions)) && (Z.of_nat (length (encode_all <$> actions)) =?
      Z.of_nat (length (path r)) + 1) then Some (encode_all <$> actions) else None) =
    fmap (M := option) (fmap (M := list) encode_all) (given actions r)).
  { unfold given. rewrite length_fmap. destruct (Z.eqb_spec (Z.of_nat (length actions)) (Z.of_nat (length (path r)) + 1));
      [|by rewrite andb_false_r]. destruct actions; [simpl in *; lia|done]. }
  rewrite Eg. destruct (route_loop_spec (hash_code f) timeout outp ap_outport check_nat (negb (is_multicast (dl_dst f)))
    nat_flow fuel Hn (path r) (given actions r) (r_src r) ap_inport len (get_exact_match f) s1) as (s' & len' & m' & E & S & Hm' & H').
  - by apply exact_match_exact.
  - exact H1.
  - unfold given. destruct (Z.eqb_spec (Z.of_nat (length actions)) (Z.of_nat (length (path r)) + 1)); [|done]. split; [lia|done].
  - rewrite S1 in E, S. exists s'. split_and!; [exact E|exact S|]. right. eexists. split; [exact H'|].
    exists len', m', (hash_code f), timeout, OFP_FLOW_PERMANENT, UINT32_MAX, outp. by split.
Qed.

(** [setup_route] sends exactly the entries of the route.  Datapath by
    datapath along the route, the message is an exact match on the headers as
    the actions of the datapaths before have rewritten them, on the port where
    the packet arrives, with the given actions followed by those for the outgoing
    port; it stops after a port that is address-translated, and at the first
    error of sending, which makes it return [false].  No access leaves the memory
    of the module, which stays ready for the next flow, and the actions are
    ignored when there are not as many as datapaths. *)
Theorem setup_route_sends (fuel : nat) (f : flow) (r : route) (ap_inport ap_outport timeout : Z)
    (actions : list (list act)) (check_nat : bool) (nat_flow : list (list Z)) (s : setup)
    (Hs : ready s) (Hf : flow_ok f) (Hp : is_u16 (in_port f)) (Hacts : Forall (usable fuel) actions)
    (Hnat : Forall (fun l => l <> []) nat_flow) :
  exists outp s', let cs := entry_command (hash_code f) timeout outp <$>
      route_entries (nat_of check_nat nat_flow) (negb (is_multicast (dl_dst f))) (path r) (given actions r) (r_src r)
        ap_inport ap_outport (get_exact_match f) in
    setup_route fuel f r ap_inport ap_outport timeout (encode_all <$> actions) check_nat nat_flow s =
      Ret ((send_all (sent s) cs).1, s') /\ sent s' = (send_all (sent s) cs).2 /\ ready s'.
Proof. by apply setup_route_spec. Qed.

Lemma send_all_ok sent cs : (forall l c, send_error l c = 0) -> send_all sent cs = (true, sent ++ cs).
Proof.
  intros Hok. revert sent. induction cs as [|c cs IH]; intros sent; simpl; [by rewrite app_nil_r|].
  rewrite Hok. simpl. by rewrite IH, <- app_assoc.
Qed.

Definition head_acts (actions : option (list (list act))) : list act :=
  match actions with Some (a :: _) => a | _ => [] end.

Lemma head_acts_ok fuel links actions : actions_ok fuel links actions ->
  Forall act_ok (head_acts actions) /\ fits (head_acts actions).
Proof.
  destruct actions as [[|a l]|]; intros Ha; [by destruct Ha| |by split].
  destruct Ha as [_ Ha]. by apply Forall_cons in Ha as [(? & ? & _) _].
Qed.

Lemma actions_ok_tail fuel l links actions : actions_ok fuel (l :: links) actions -> actions_ok fuel links (tail <$> actions).
Proof.
  destruct actions as [[|a l']|]; intros Ha; [by destruct Ha| |done].
  destruct Ha as [Hl Ha]. apply Forall_cons in Ha as [_ Ha]. split; [simpl in *; lia|done].
Qed.

Lemma head_entry_ok allow fuel links actions dp inport p m :
  of_match.wf m -> of_match.wildcards m = 0 -> actions_ok fuel links actions -> is_u16 inport -> is_u16 p ->
  entry_ok (Entry dp (at_port inport m) (head_acts actions ++ port_acts (false, 0) allow 0 p)).
Proof.
  intros Hm Hw Ha Hin Hp. destruct (head_acts_ok _ _ _ Ha) as [Hok Hfit]. unfold fits in Hfit.
  unfold entry_ok. cbn [e_match e_acts]. split_and!; [by apply at_port_wf|by rewrite at_port_wildcards| |].
  - apply Forall_app_2; [done|by apply port_acts_ok].
  - rewrite encode_all_app, length_app. pose proof (port_acts_small (false, 0) allow 0 p). lia.
Qed.

Lemma plain_entries_ok allow ap_outport fuel links : forall actions dp inport m,
  of_match.wf m -> of_match.wildcards m = 0 -> actions_ok fuel links actions -> is_u16 inport -> is_u16 ap_outport ->
  Forall (fun l => is_u16 (outport l) /\ is_u16 (Routing.inport l)) links ->
  Forall entry_ok (route_entries (fun _ _ => (false, 0)) allow links actions dp inport ap_outport m).
Proof.
  induction links as [|l links IH]; intros actions dp inport m Hm Hw Ha Hin Hout Hl; cbn [route_entries fst];
    fold (head_acts actions).
  - apply Forall_cons. split; [by eapply head_entry_ok|done].
  - apply Forall_cons in Hl as [[Ho Hi] Hl]. apply Forall_cons. split; [by eapply head_entry_ok|].
    destruct (head_acts_ok _ _ _ Ha) as [Hok _]. apply IH; try done.
    + apply change_all_wf; [done|]. by apply at_port_wf.
    + by rewrite change_all_wildcards, at_port_wildcards.
    + by eapply actions_ok_tail.
Qed.

Lemma read_entries ck idle outp es : Forall entry_ok es -> mapM read_entry (entry_command ck idle outp <$> es) = Some es.
Proof.
  intros He. apply mapM_Some. rewrite Forall2_fmap_l. apply Forall_Forall2_diag.
  eapply Forall_impl; [exact He|]. intros e. apply read_entry_command.
Qed.

End setup_route.

(** ** Examples *)

(** New memory is filled with sevens; sending the second message fails or not. *)
Definition example_controller (fails : bool) : Controller := {|
  new_uint8 k := replicate (Z.to_nat k) 7;
  get_xid := 9;
  MD5 _ := replicate 16 1;
  send_error l _ := if fails && (length l =? 1)%nat then 11 else 0
|}.

Lemma example_controller_laws fails : @ControllerLaws (example_controller fails).
Proof.
  split; simpl; intros; [rewrite length_replicate; lia|by apply Forall_replicate|lia].
Qed.

Definition example_flow : flow :=
  Flow false (htons 3) (htons 7) 0 (of_id 0x1122) (of_id 0x3344) (htons 0x800) (htonl 10) (htonl 20) 6 0 (htons 1000) (htons 80) 0.
Definition example_route : route := Route 1 2 [Link 2 10 20].
Definition example_cable (dp p : Z) : option (Z * Z) := if (dp =? 1) && (p =? 10) then Some (2, 20) else None.
Definition example_actions : list (list act) := [[A_vlan_vid 5; A_dl_dst [1; 2; 3; 4; 5; 6]]; [A_tp_dst 8080]].

Lemma example_flow_ok : flow_ok example_flow.
Proof. split; try apply htons_range; try apply htonl_range; try apply addr_ok_of_id; done || (simpl; lia). Qed.

Lemma example_actions_ok : Forall (usable 5) example_actions.
Proof.
  assert (is_bytes [1; 2; 3; 4; 5; 6]) by (by apply bytes_check).
  repeat constructor; try done; try (simpl; lia); vm_compute; reflexivity.
Qed.

Lemma no_setup_ready `{Controller} : ready no_setup.
Proof. left. reflexivity. Qed.

Lemma setup_route_sends_witness :
  let C := example_controller true in
  exists outp s', let cs := entry_command (H := C) (hash_code (H := C) example_flow) 60 outp <$>
      route_entries (nat_of true [[5; 6]]) true (path example_route) (given example_actions example_route) 1 3 4
        (get_exact_match example_flow) in
    setup_route (H := C) 5 example_flow example_route 3 4 60 (encode_all <$> example_actions) true [[5; 6]] no_setup =
      Ret ((send_all (H := C) [] cs).1, s') /\ sent s' = (send_all (H := C) [] cs).2 /\ ready (H := C) s'.
Proof.
  apply (@setup_route_sends (example_controller true) (example_controller_laws true) 5 example_flow example_route 3 4 60 example_actions
    true [[5; 6]] no_setup).
  - apply no_setup_ready.
  - apply example_flow_ok.
  - apply htons_range.
  - apply example_actions_ok.
  - by repeat constructor.
Defined.


(** A change of the type of service is not followed: the second datapath does not
    recognise the packet. *)
Theorem tos_is_not_followed :
  match setup_route (H := example_controller false) 5 example_flow example_route 3 4 60 (encode_all <$> [[A_nw_tos 8]; []])
          false [] no_setup with
  | Ret (ok, s) => ok = true /\ option_map (fun es => deliver 2 example_cable es 1 (at_port 3 (get_exact_match example_flow)))
      (mapM read_entry (sent s)) = Some []
  | _ => False
  end.
Proof. vm_compute. by split. Qed.

(** A datapath with nine ports *)
Definition nine_ports : network :=
  {[1 := DpInfo ((fun p => Port p [] 0 0 0 0 0 0 0 0) <$> [1; 2; 3; 4; 5; 6; 7; 8; 9]) ∅ ∅ true]}.

(** Flooding loses the given actions when the memory has to grow for the ports:
    what is sent in their place is whatever the new memory held. *)
Theorem flooding_loses_actions :
  let a := encode_all [A_dl_dst [1; 2; 3; 4; 5; 6]] in
  match setup_flow (H := example_controller false) nine_ports [0; 0] example_flow 1 OFPP_FLOOD 5 [] 60 a true [] no_setup with
  | Ret (ok, s) => ok = true /\ (fun c => match c with Flow_command _ m => load 72 16 m | _ => [] end) <$> sent s = [replicate 16 7]
  | _ => False
  end.
Proof. vm_compute. by split. Qed.

(** Long actions overflow the memory: the size, doubled, wraps around to 0. *)
Theorem long_actions_overflow :
  let a := [replicate (Z.to_nat 32736) 0; []] in
  match setup_route (H := example_controller false) 5 example_flow example_route 3 4 60 a false [] no_setup with
  | Aborted => True
  | _ => False
  end.
Proof. vm_compute. exact I. Qed.
