(* ===== verification/FlowSetupFlood.v ===== *)
(** * Flow set-up at one datapath: flooding with address translation *)

From S2P Require Import Prelude Bytes Ethernetaddr Flow FlowSpec OfpWire OfpCore OfpActions OfpMessages FlowMatch OpenflowConnection OpenflowSend Switch Topology Routing FlowSetup FlowSetupRoute FlowSetupProps.

Open Scope Z_scope.

#[local] Arguments change : simpl never.
#[local] Opaque of_id.

(** ** The actions *)

Section flood.
Variables (na : Z -> bool * Z) (allow : bool) (inport orig : Z).

Definition eligible (p : Z) : bool := negb (p =? inport) && (p <? OFPP_MAX).
(** Whether the address is replaced at a port, and the address sent there *)
Definition replaced (p : Z) : bool := (na p).1 && allow && negb ((na p).2 =? 0).
Definition target (p : Z) : Z := if replaced p then (na p).2 else orig.

Fixpoint flood_acts (ps : list Z) (overwrite : Z) : list act :=
  match ps with
  | [] => []
  | p :: ps =>
      if eligible p then port_acts (na p) allow overwrite p ++ flood_acts ps (if replaced p then orig else 0)
      else flood_acts ps overwrite
  end.

Lemma flood_acts_ok ps ow : Forall is_u16 ps -> Forall act_ok (flood_acts ps ow).
Proof.
  intros Hp. revert ow. induction Hp as [|p ps Hp _ IH]; intros ow; [done|]. simpl.
  destruct (eligible p); [|done]. apply Forall_app_2; [by apply port_acts_ok|done].
Qed.

Lemma flood_acts_small ps ow :
  Z.of_nat (length (encode_all (flood_acts ps ow))) <= Z.of_nat (length ps) * 32.
Proof.
  revert ow. induction ps as [|p ps IH]; intros ow; [by vm_compute|]. simpl. destruct (eligible p); [|specialize (IH ow); lia].
  rewrite encode_all_app, length_app. pose proof (port_acts_small (na p) allow ow p).
  specialize (IH (if replaced p then orig else 0)). lia.
Qed.

(** Every eligible port gets the packet once, with the address for that port:
    what was replaced for one port is restored for the next. *)
Lemma run_flood_acts ps : forall ow (h : of_match.t), orig <> 0 ->
  (ow = 0 /\ change (A_dl_dst (octet (of_id orig))) h = h) \/ ow = orig ->
  run_acts (flood_acts ps ow) h =
    (fun p => (p, change (A_dl_dst (octet (of_id (target p)))) h)) <$> List.filter eligible ps.
Proof.
  induction ps as [|p ps IH]; intros ow h Ho Hh; [done|]. simpl. destruct (eligible p); [|by apply IH]. csimpl.
  unfold port_acts, target at 1. fold (replaced p).
  set (h' := change (A_dl_dst (octet (of_id (if replaced p then (na p).2 else orig)))) h).
  assert (Hrun : forall l, run_acts (((if negb ((if replaced p then (na p).2 else ow) =? 0)
      then [A_dl_dst (octet (of_id (if replaced p then (na p).2 else ow)))] else []) ++
      [if (na p).1 then A_snat p else A_output p 0]) ++ l) h = (p, h') :: run_acts l h').
  { intros l. assert (Hout : forall x, run_acts ([if (na p).1 then A_snat p else A_output p 0] ++ l) x = (p, x) :: run_acts l x)
      by (intros x; by destruct (na p).1).
    unfold h'. destruct (replaced p) eqn:Er.
    - unfold replaced in Er. apply andb_true_iff in Er as [_ Er]. rewrite Er. simpl. apply Hout.
    - destruct Hh as [[-> Hh]| ->]; simpl; [rewrite Hh; apply Hout|].
      destruct (Z.eqb_spec orig 0); [done|]. simpl. apply Hout. }
  rewrite Hrun. f_equal. rewrite IH; [|done|].
  - apply list_fmap_ext. intros _ q _. f_equal. unfold h'. by destruct h.
  - destruct (replaced p); [by right|]. left. split; [done|]. unfold h'. by destruct h.
Qed.
End flood.

(** ** The calls *)

Section calls.
Context `{ControllerLaws}.

Lemma flood_actions_holds (dp inport orig : Z) (allow : bool) (nat_flow : list (list Z)) b ps : forall overwrite A s,
  Forall (fun l => l <> []) nat_flow -> holds b A s ->
  Z.of_nat (length A) + Z.of_nat (length ps) * 32 <= len_flow_actions s -> Z.of_nat (length A) + Z.of_nat (length ps) * 32 < 2 ^ 16 ->
  let L := encode_all (flood_acts (nat_of true nat_flow dp) allow inport orig ps overwrite) in
  exists s', flood_actions ps dp inport orig (Z.of_nat (length A)) overwrite allow nat_flow s =
      Ret (Z.of_nat (length (A ++ L)), s') /\ holds b (A ++ L) s' /\ sent s' = sent s.
Proof.
  induction ps as [|p ps IH]; intros overwrite A s Hf Hs Hroom Hlim; cbn [flood_actions flood_acts].
  { exists s. unfold encode_all. simpl. by rewrite app_nil_r. }
  cbn [length] in Hroom, Hlim. change (negb (p =? inport) && (p <? OFPP_MAX)) with (eligible inport p).
  destruct (eligible inport p) eqn:Ee; [|by apply IH; [done|done|lia|lia]].
  destruct (set_action_holds dp p (Z.of_nat (length A)) true allow overwrite nat_flow b A s) as (s1 & -> & H1 & S1 & L1);
    [done|done|lia|lia|lia|]. cbn [mbind res_bind].
  set (P := encode_all (port_acts (nat_of true nat_flow dp p) allow overwrite p)) in *.
  pose proof (port_acts_small (nat_of true nat_flow dp p) allow overwrite p) as Hsm. fold P in Hsm.
  replace (Z.of_nat (length A) + Z.of_nat (length P)) with (Z.of_nat (length (A ++ P))) by (rewrite length_app; lia).
  change ((nat_of true nat_flow dp p).1 && allow && negb ((nat_of true nat_flow dp p).2 =? 0)) with
    (replaced (nat_of true nat_flow dp) allow p).
  destruct (IH (if replaced (nat_of true nat_flow dp) allow p then orig else 0) (A ++ P) s1 Hf H1) as (s' & E & Hs' & Ss');
    [rewrite length_app; lia|rewrite length_app; lia|].
  exists s'. rewrite encode_all_app, app_assoc. fold P. split_and!; [exact E|exact Hs'|congruence].
Qed.

Lemma flood_acts_nonempty na allow inport orig ps ow : List.filter (eligible inport) ps <> [] ->
  encode_all (flood_acts na allow inport orig ps ow) <> [].
Proof.
  revert ow. induction ps as [|p ps IH]; intros ow; simpl; [done|]. destruct (eligible inport p); [|apply IH]. intros _.
  rewrite encode_all_app. unfold port_acts. rewrite encode_all_app, encode_all_one. intros E.
  apply app_eq_nil in E as [E _]. apply app_eq_nil in E as [_ E]. by destruct (na p) as [[] ?].
Qed.

Lemma datapath_actions_flood t after f dp inport nat_flow b s :
  Forall (fun l => l <> []) nat_flow -> holds b [] s -> length b = 72%nat ->
  let ps := port_no <$> ports (get_dpinfo dp t) in
  2 * (Z.of_nat (length ps) * 32) < 2 ^ 16 -> List.filter (eligible inport) ps <> [] ->
  let L := encode_all (flood_acts (nat_of true nat_flow dp) (negb (is_multicast (dl_dst f))) inport (hb_long after (dl_dst f)) ps 0) in
  exists s', datapath_actions t after f dp inport OFPP_FLOOD [] true nat_flow s = Ret (Some (Z.of_nat (length L)), s') /\
    holds b L s' /\ sent s' = sent s.
Proof.
  intros Hf Hs Hb ps Hps Hne L. unfold datapath_actions. rewrite max_output_action_len_eq. cbv zeta.
  change (Z.of_nat (length [])) with 0. change (u16 0) with 0. destruct (check_openflow_spec (0 + 32) b [] s Hs Hb) as (H1 & S1 & L1); [lia..|].
  destruct (copy_actions_holds b [] _ H1) as (s2 & -> & H2 & S2 & L2); [simpl; lia|]. cbn [mbind res_bind negb].
  change (OFPP_FLOOD =? OFPP_FLOOD) with true. cbv iota. fold ps.
  destruct (check_openflow_spec (Z.of_nat (length ps) * 32 + 0) b [] s2 H2 Hb) as (H3 & S3 & L3); [lia..|].
  destruct (flood_actions_holds dp inport (hb_long after (dl_dst f)) (negb (is_multicast (dl_dst f))) nat_flow b ps 0 [] _ Hf H3)
    as (s4 & E4 & H4 & S4); [simpl; lia|simpl; lia|]. cbn [app] in E4, H4. change (Z.of_nat (length [])) with 0 in E4.
  rewrite E4. cbn [mbind res_bind].
  fold L in E4, H4 |- *. destruct (Z.eqb_spec (Z.of_nat (length L)) 0) as [E0|_].
  { exfalso. apply (flood_acts_nonempty (nat_of true nat_flow dp) (negb (is_multicast (dl_dst f))) inport
      (hb_long after (dl_dst f)) ps 0 Hne). apply length_zero_iff_nil. unfold L in E0. lia. }
  exists s4. split_and!; [done|exact H4|congruence].
Qed.
End calls.

Lemma of_id_hb_long after a : addr_ok a -> length after = 2%nat -> is_bytes after -> of_id (hb_long after a) = a.
Proof.
  intros Ha Hl Hb. rewrite hb_long_value by done. set (x := of_id (addr_value a)).
  assert (Hx : addr_ok x) by apply addr_ok_of_id.
  assert (Ev : addr_value x = addr_value a).
  { apply of_id_value. unfold addr_value, of_be. destruct Ha as [Hla Hba].
    pose proof (of_le_range (rev (octet a)) (is_bytes_rev _ Hba)) as Hr. rewrite length_rev, Hla in Hr. exact Hr. }
  destruct Ha as [Hla Hba], Hx as [Hlx Hbx]. unfold addr_value in Ev. apply (f_equal (to_be 6)) in Ev.
  rewrite !to_be_of_be in Ev by done. clearbody x. destruct x, a. simpl in *. by subst.
Qed.


Definition example_nat : list (list Z) := [[1 + Z.shiftl 2 48; 0x99]; [1 + Z.shiftl 4 48]].

