(* ===== verification/Registry.v ===== *)
(** * Registered connections (src/builtin/nox.cc)

    [nox.cc] keeps a [Conn] per datapath id.  [Conn] objects have addresses, so
    that a use after [delete this] shows; [Aborted] is such a use, or a failed
    assertion. *)

From S2P Require Import Prelude Bytes.

Open Scope Z_scope.

(** ** State *)

(** [Conn]; [oconn] is the pair of ids of its connection. *)
Record conn := Conn { dp_id : Z; mgmt_id : Z; closing : bool; poll_cnt : Z }.

(** The events that [nox.cc] posts about connections; a join carries the
    features reply. *)
Inductive event :=
| Datapath_join (dp : Z) (features : bytes)
| Datapath_leave (dp : Z)
| Switch_mgr_join (mgmt : Z)
| Switch_mgr_leave (mgmt : Z).

Record nox := Nox {
  connection_map : gmap Z Z;
  mgmt_map : gmap Z Z;
  swm_map : gset Z;
  conns : gmap Z conn;
  brk : Z;
  pollables : gset Z;
  posted : list event
}.
Definition no_connections : nox := Nox ∅ ∅ ∅ ∅ 0 ∅ [].

Definition set_conns (m : gmap Z conn) (s : nox) : nox :=
  Nox (connection_map s) (mgmt_map s) (swm_map s) m (brk s) (pollables s) (posted s).
Definition set_connection_map (m : gmap Z Z) (s : nox) : nox :=
  Nox m (mgmt_map s) (swm_map s) (conns s) (brk s) (pollables s) (posted s).
Definition post_event (e : event) (s : nox) : nox :=
  Nox (connection_map s) (mgmt_map s) (swm_map s) (conns s) (brk s) (pollables s) (posted s ++ [e]).

(** ** Closing *)

(** [Conn::close]; the destructor calls it again, when [closing] is set. *)
Definition close (a : Z) (s : nox) : res nox :=
  match conns s !! a with
  | None => Aborted
  | Some c =>
      if closing c then Ret s
      else if decide (a ∉ pollables s) then Aborted
      else
        let is_mgmt := dp_id c =? mgmt_id c in
        let s := Nox (delete (dp_id c) (connection_map s)) (delete (dp_id c) (mgmt_map s))
          (if is_mgmt then swm_map s ∖ {[mgmt_id c]} else swm_map s)
          (<[a := Conn (dp_id c) (mgmt_id c) true (poll_cnt c)]> (conns s)) (brk s) (pollables s ∖ {[a]})
          (posted s ++ [if is_mgmt then Switch_mgr_leave (mgmt_id c) else Datapath_leave (dp_id c)]) in
        if poll_cnt c =? 0 then Ret (set_conns (delete a (conns s)) s) else Ret s
  end.

(** [close_openflow_connection]: 0 or [ESRCH] *)
Definition ESRCH : Z := 3.
Definition close_openflow_connection (dpid : Z) (s : nox) : res (Z * nox) :=
  match connection_map s !! dpid with
  | None => Ret (ESRCH, s)
  | Some a => s ← close a s; Ret (0, s)
  end.

(** ** Polling

    [Conn::poll] may block in the handlers of the events it dispatches; its two
    halves are separate steps. *)
Definition poll_begin (a : Z) (s : nox) : res nox :=
  match conns s !! a with
  | None => Aborted
  | Some c => Ret (set_conns (<[a := Conn (dp_id c) (mgmt_id c) (closing c) (poll_cnt c + 1)]> (conns s)) s)
  end.
Definition poll_end (a : Z) (s : nox) : res nox :=
  match conns s !! a with
  | None => Aborted
  | Some c =>
      let c := Conn (dp_id c) (mgmt_id c) (closing c) (poll_cnt c - 1) in
      if (poll_cnt c =? 0) && closing c then Ret (set_conns (delete a (conns s)) s)
      else Ret (set_conns (<[a := c]> (conns s)) s)
  end.

(** ** Registering *)

(** [register_conn]; the new [Conn] adds itself to the poll loop. *)
Definition register_conn (dp mgmt : Z) (s : nox) : res nox :=
  let a := brk s in
  let s := Nox (connection_map s) (mgmt_map s) (swm_map s) (<[a := Conn dp mgmt false 0]> (conns s)) (brk s + 1)
    (pollables s ∪ {[a]}) (posted s) in
  match connection_map s !! dp with
  | None => Ret (set_connection_map (<[dp := a]> (connection_map s)) s)
  | Some old =>
      s ← close old s;
      match connection_map s !! dp with
      | None => Ret (set_connection_map (<[dp := a]> (connection_map s)) s)
      | Some _ => Aborted
      end
  end.

(** The registry's part of [Handshake_fsm::register_switch]; [mgmt_map.insert]
    does not replace. *)
Definition register_dp (dp mgmt : Z) (features : bytes) (s : nox) : res nox :=
  s ← register_conn dp mgmt s;
  let s := Nox (connection_map s) (match mgmt_map s !! dp with None => <[dp := mgmt]> (mgmt_map s) | Some _ => mgmt_map s end)
    (swm_map s) (conns s) (brk s) (pollables s) (posted s) in
  Ret (post_event (Datapath_join dp features) s).

(** The registry's part of [Handshake_fsm::register_mgmt] *)
Definition register_mgr (mgmt : Z) (s : nox) : res nox :=
  s ← register_conn mgmt mgmt s;
  let s := Nox (connection_map s) (mgmt_map s) (swm_map s ∪ {[mgmt]}) (conns s) (brk s) (pollables s) (posted s) in
  Ret (post_event (Switch_mgr_join mgmt) s).

(** ** Queries *)

(** [dpid_to_oconn], [dpid_to_mgmtid], [active_mgmt], [mgmtid_to_swm] *)
Definition dpid_to_oconn (dpid : Z) (s : nox) : res (option (Z * Z)) :=
  match connection_map s !! dpid with
  | None => Ret None
  | Some a => match conns s !! a with None => Aborted | Some c => Ret (Some (dp_id c, mgmt_id c)) end
  end.
Definition dpid_to_mgmtid (dpid : Z) (s : nox) : Z := default 0 (mgmt_map s !! dpid).
Definition active_mgmt (mgmtid : Z) (s : nox) : bool := existsb (Z.eqb mgmtid) (map_to_list (mgmt_map s)).*2.
Definition mgmtid_to_swm (mgmt : Z) (s : nox) : bool := bool_decide (mgmt ∈ swm_map s).

(** ** Histories

    What the other parts do: register connections, ask to close them, and poll
    them, as the poll loop promises: only while they are registered with it, and
    every call ends.  [Poll_error] is a failing [recv_openflow] inside a call. *)
Inductive op :=
| Register_dp (dp mgmt : Z) (features : bytes)
| Register_mgr (mgmt : Z)
| Close_dp (dp : Z)
| Poll_begin (a : Z)
| Poll_error (a : Z)
| Poll_end (a : Z).

Definition apply (o : op) (s : nox) : res nox :=
  match o with
  | Register_dp dp mgmt f => register_dp dp mgmt f s
  | Register_mgr mgmt => register_mgr mgmt s
  | Close_dp dp => '(_, s) ← close_openflow_connection dp s; Ret s
  | Poll_begin a => poll_begin a s
  | Poll_error a => close a s
  | Poll_end a => poll_end a s
  end.

Definition polled (s : nox) (a : Z) : Prop := match conns s !! a with Some c => 0 < poll_cnt c | None => False end.

Definition allowed (o : op) (s : nox) : Prop :=
  match o with
  | Register_dp dp mgmt _ => dp <> mgmt
  | Poll_begin a => a ∈ pollables s
  | Poll_error a | Poll_end a => polled s a
  | _ => True
  end.

Inductive history : nox -> Prop :=
| history_init : history no_connections
| history_step s o s' : history s -> allowed o s -> apply o s = Ret s' -> history s'.
