(* ===== verification/RegistryProps.v ===== *)
(** * The registry of connections is consistent (src/builtin/nox.cc)

    The abstract registry is what an observer of the posted events knows: the
    ids that have joined and not left, and as what. *)

From S2P Require Import Prelude Bytes Registry.

Open Scope Z_scope.

(** ** The abstract registry *)

Inductive party := Datapath | Manager.
#[export] Instance party_eq_dec : EqDecision party.
Proof. solve_decision. Defined.

(** A join is for an id that is away, a leave for one that has joined as the same
    party. *)
Definition announce (m : gmap Z party) (e : event) : option (gmap Z party) :=
  let join id p := match m !! id with None => Some (<[id := p]> m) | Some _ => None end in
  let leave id p := if decide (m !! id = Some p) then Some (delete id m) else None in
  match e with
  | Datapath_join dp _ => join dp Datapath
  | Datapath_leave dp => leave dp Datapath
  | Switch_mgr_join id => join id Manager
  | Switch_mgr_leave id => leave id Manager
  end.
Definition replay (l : list event) : option (gmap Z party) := foldl (fun m e => m ≫= fun m => announce m e) (Some ∅) l.

Lemma replay_snoc l e m : replay l = Some m -> replay (l ++ [e]) = announce m e.
Proof. unfold replay. rewrite foldl_app. by intros ->. Qed.

(** The connections that the registry has. *)
Definition party_of (c : conn) : party := if dp_id c =? mgmt_id c then Manager else Datapath.
Definition connected (s : nox) : gmap Z party :=
  omap (fun a => party_of <$> conns s !! a) (connection_map s).

(** ** The invariant; [x] is a connection that is not yet in [connection_map] *)
Record inv (x : option Z) (s : nox) : Prop := {
  inv_map : forall id a, connection_map s !! id = Some a ->
    exists c, conns s !! a = Some c /\ closing c = false /\ dp_id c = id /\ x <> Some a;
  inv_conns : forall a c, conns s !! a = Some c ->
    0 <= poll_cnt c /\ a < brk s /\ (if closing c then 0 < poll_cnt c
      else a ∈ pollables s /\ (x <> Some a -> connection_map s !! dp_id c = Some a));
  inv_pollables : forall a, a ∈ pollables s -> exists c, conns s !! a = Some c /\ closing c = false;
  inv_mgmt : forall id m, mgmt_map s !! id = Some m <->
    id <> m /\ exists a c, connection_map s !! id = Some a /\ conns s !! a = Some c /\ mgmt_id c = m;
  inv_swm : forall id, id ∈ swm_map s <-> connected s !! id = Some Manager;
  inv_posted : replay (posted s) = Some (connected s)
}.

Lemma connected_lookup s id p : connected s !! id = Some p <->
  exists a c, connection_map s !! id = Some a /\ conns s !! a = Some c /\ party_of c = p.
Proof.
  unfold connected. rewrite lookup_omap_Some. split.
  - intros (a & E & H). destruct (conns s !! a) as [c|] eqn:C; [|discriminate]. naive_solver.
  - intros (a & c & H & E & <-). exists a. by rewrite E.
Qed.

Lemma connected_none s id x : inv x s -> (connected s !! id = None <-> connection_map s !! id = None).
Proof.
  intros I. unfold connected. rewrite lookup_omap. destruct (connection_map s !! id) as [a|] eqn:E; [|done].
  destruct (inv_map x s I id a E) as (c & C & _). cbn. by rewrite C.
Qed.

Lemma inv_init : inv None no_connections.
Proof.
  assert (forall id, connection_map no_connections !! id = None) as E by (intros id; apply lookup_empty).
  assert (forall a, conns no_connections !! a = None) as C by (intros id; apply lookup_empty).
  assert (connected no_connections = ∅) as N by apply omap_empty.
  split.
  - intros id a. by rewrite E.
  - intros a c. by rewrite C.
  - intros a. unfold no_connections. cbn. set_solver.
  - intros id m. unfold no_connections at 1. cbn [mgmt_map]. rewrite lookup_empty. naive_solver.
  - intros id. rewrite N, lookup_empty. unfold no_connections. cbn. set_solver.
  - by rewrite N.
Qed.

(** ** Closing *)

Definition closed (c : conn) : conn := Conn (dp_id c) (mgmt_id c) true (poll_cnt c).

(** What [Conn::close] does to a registered connection. *)
Record close_effect (a : Z) (c : conn) (s s' : nox) : Prop := {
  ce_map : connection_map s' = delete (dp_id c) (connection_map s);
  ce_mgmt : mgmt_map s' = delete (dp_id c) (mgmt_map s);
  ce_swm : swm_map s' = if dp_id c =? mgmt_id c then swm_map s ∖ {[mgmt_id c]} else swm_map s;
  ce_conn : conns s' !! a = if poll_cnt c =? 0 then None else Some (closed c);
  ce_conns : forall b, b <> a -> conns s' !! b = conns s !! b;
  ce_brk : brk s' = brk s;
  ce_pollables : pollables s' = pollables s ∖ {[a]};
  ce_posted : posted s' = posted s ++ [match party_of c with Manager => Switch_mgr_leave (mgmt_id c) | Datapath => Datapath_leave (dp_id c) end]
}.

Lemma close_does a c s : conns s !! a = Some c -> closing c = false -> a ∈ pollables s ->
  exists s', close a s = Ret s' /\ close_effect a c s s'.
Proof.
  intros C N P. unfold close. rewrite C, N, (decide_False (P := a ∉ pollables s)) by tauto. cbn zeta.
  destruct (poll_cnt c =? 0) eqn:Q; eexists; (split; [reflexivity|]);
    (split; cbn; rewrite ?Q; try done; unfold party_of; try by destruct (dp_id c =? mgmt_id c)).
  - apply lookup_delete_eq.
  - intros b Hb. by rewrite lookup_delete_ne, lookup_insert_ne by congruence.
  - apply lookup_insert_eq.
  - intros b Hb. by rewrite lookup_insert_ne by congruence.
Qed.

Section close_keeps.
Context (x : option Z) (a : Z) (c : conn) (s s' : nox).
Context (I : inv x s) (C : conns s !! a = Some c) (N : closing c = false) (X : x <> Some a).
Context (E : close_effect a c s s').

Lemma registered_here : connection_map s !! dp_id c = Some a.
Proof. destruct (inv_conns x s I a c C) as (_ & _ & H). rewrite N in H. by apply H. Qed.

Lemma map_after id b : connection_map s' !! id = Some b <-> id <> dp_id c /\ b <> a /\ connection_map s !! id = Some b.
Proof.
  rewrite (ce_map _ _ _ _ E), lookup_delete_Some. split; [|naive_solver].
  intros [Hid Hb]. split_and!; [done| |done]. intros ->.
  destruct (inv_map x s I id a Hb) as (d & D & _ & <- & _). rewrite C in D. congruence.
Qed.

Lemma connected_after : connected s' = delete (dp_id c) (connected s).
Proof.
  apply map_eq. intros id. apply option_eq. intros p. rewrite lookup_delete_Some, !connected_lookup.
  setoid_rewrite map_after. split.
  - intros (b & d & (Hid & Hb & M) & D & P). rewrite (ce_conns _ _ _ _ E b Hb) in D. naive_solver.
  - intros (Hid & b & d & M & D & P). exists b, d.
    assert (b <> a) as Hb by (intros ->; destruct (inv_map x s I id a M) as (d' & D' & _ & <- & _); congruence).
    rewrite (ce_conns _ _ _ _ E b Hb). naive_solver.
Qed.

Lemma connected_here : connected s !! dp_id c = Some (party_of c).
Proof. apply connected_lookup. exists a, c. split_and!; [apply registered_here|done|done]. Qed.

Lemma close_keeps : inv x s'.
Proof.
  split.
  - intros id b (Hid & Hb & M)%map_after. destruct (inv_map x s I id b M) as (d & D & Q).
    exists d. rewrite (ce_conns _ _ _ _ E b Hb). naive_solver.
  - intros b d D. rewrite (ce_brk _ _ _ _ E). destruct (decide (b = a)) as [->|Hb].
    + rewrite (ce_conn _ _ _ _ E) in D. destruct (poll_cnt c =? 0) eqn:Q; [done|]. injection D as <-. cbn.
      destruct (inv_conns x s I a c C) as (? & ? & _). lia.
    + rewrite (ce_conns _ _ _ _ E b Hb) in D. destruct (inv_conns x s I b d D) as (? & ? & Q).
      split_and!; [done|done|]. destruct (closing d); [done|]. destruct Q as [P M].
      rewrite (ce_pollables _ _ _ _ E). split; [set_solver|]. intros Hx. apply map_after.
      split_and!; [|done|by apply M]. intros Hid. specialize (M Hx). rewrite Hid, registered_here in M. congruence.
  - intros b. rewrite (ce_pollables _ _ _ _ E). intros [P Hb]%elem_of_difference.
    rewrite (ce_conns _ _ _ _ E b) by set_solver. by apply (inv_pollables x s I).
  - intros id m. rewrite (ce_mgmt _ _ _ _ E), lookup_delete_Some, (inv_mgmt x s I).
    setoid_rewrite map_after. split.
    + intros (Hid & Hm & b & d & M & D & Q). split; [done|].
      assert (b <> a) as Hb by (intros ->; destruct (inv_map x s I id a M) as (d' & D' & _ & <- & _); congruence).
      exists b, d. rewrite (ce_conns _ _ _ _ E b Hb). naive_solver.
    + intros (Hm & b & d & (Hid & Hb & M) & D & Q). rewrite (ce_conns _ _ _ _ E b Hb) in D. naive_solver.
  - intros id. rewrite (ce_swm _ _ _ _ E), connected_after, lookup_delete_Some, <- (inv_swm x s I).
    destruct (dp_id c =? mgmt_id c) eqn:Q.
    + apply Z.eqb_eq in Q. rewrite <- Q. set_solver.
    + split; [|naive_solver]. intros H. split; [|done]. intros <-. apply (inv_swm x s I) in H.
      rewrite connected_here in H. unfold party_of in H. by rewrite Q in H.
  - rewrite (ce_posted _ _ _ _ E), (replay_snoc _ _ _ (inv_posted x s I)), connected_after.
    pose proof connected_here as H. unfold party_of in *. destruct (dp_id c =? mgmt_id c) eqn:Q; cbn.
    + apply Z.eqb_eq in Q. rewrite <- Q. by rewrite decide_True.
    + by rewrite decide_True.
Qed.
End close_keeps.

Lemma close_ok x a c s : inv x s -> conns s !! a = Some c -> x <> Some a ->
  exists s', close a s = Ret s' /\ inv x s' /\ brk s' = brk s /\
    (forall b, b <> a -> conns s' !! b = conns s !! b) /\
    (closing c = false -> connection_map s' = delete (dp_id c) (connection_map s)).
Proof.
  intros I C X. destruct (closing c) eqn:N.
  - exists s. unfold close. by rewrite C, N.
  - destruct (inv_conns x s I a c C) as (_ & _ & H). rewrite N in H. destruct H as [P _].
    destruct (close_does a c s C N P) as (s' & -> & E). exists s'.
    split_and!; [done|by eapply close_keeps| | |]; by destruct E.
Qed.

(** ** Registering *)

Lemma new_conn_inv dp mgmt s : inv None s ->
  inv (Some (brk s)) (Nox (connection_map s) (mgmt_map s) (swm_map s) (<[brk s := Conn dp mgmt false 0]> (conns s))
    (brk s + 1) (pollables s ∪ {[brk s]}) (posted s)).
Proof.
  intros I. set (s' := Nox _ _ _ _ _ _ _).
  assert (forall a c, conns s !! a = Some c -> a <> brk s) as F
    by (intros a c C; destruct (inv_conns None s I a c C); lia).
  assert (forall a, a <> brk s -> conns s' !! a = conns s !! a) as K by (intros; by apply lookup_insert_ne).
  assert (forall id a, connection_map s !! id = Some a -> conns s' !! a = conns s !! a) as KM.
  { intros id a M. apply K. destruct (inv_map None s I id a M) as (c & C & _). by eapply F. }
  assert (connected s' = connected s) as N.
  { apply map_eq. intros id. apply option_eq. intros p. rewrite !connected_lookup. cbn [connection_map s'].
    split; intros (a & c & M & C & P); exists a, c; [rewrite (KM id a M) in C|rewrite (KM id a M)]; done. }
  split.
  - intros id a M. rewrite (KM id a M). destruct (inv_map None s I id a M) as (c & C & Q). exists c.
    split_and!; [done|naive_solver|naive_solver|]. intros [= E]. by apply F in C.
  - intros a c C. cbn in C |- *. destruct (decide (a = brk s)) as [->|Ha].
    + rewrite lookup_insert_eq in C. injection C as <-. cbn. split_and!; [lia|lia|set_solver|done].
    + rewrite lookup_insert_ne in C by done. destruct (inv_conns None s I a c C) as (? & ? & Q).
      split_and!; [done|lia|]. destruct (closing c); [done|]. split; [set_solver|]. intros _. by apply Q.
  - intros a. cbn. intros [P|P]%elem_of_union.
    + destruct (inv_pollables None s I a P) as (c & C & Q). exists c. rewrite lookup_insert_ne; [done|].
      intros E. by apply F in C.
    + apply elem_of_singleton in P as ->. eexists. by rewrite lookup_insert_eq.
  - intros id m. cbn [mgmt_map connection_map s']. rewrite (inv_mgmt None s I).
    split; intros (Hm & a & c & M & C & Q); split; [done| |done|]; exists a, c;
      [rewrite (KM id a M)|rewrite (KM id a M) in C]; done.
  - intros id. rewrite N. apply (inv_swm None s I).
  - rewrite N. apply (inv_posted None s I).
Qed.

Lemma register_conn_ok dp mgmt s : inv None s ->
  exists s1, register_conn dp mgmt s = Ret (set_connection_map (<[dp := brk s]> (connection_map s1)) s1) /\
    inv (Some (brk s)) s1 /\ connection_map s1 !! dp = None /\ conns s1 !! brk s = Some (Conn dp mgmt false 0).
Proof.
  intros I. pose proof (new_conn_inv dp mgmt s I) as I1. unfold register_conn. cbn zeta.
  set (s1 := Nox _ _ _ _ _ _ _) in *. cbn [connection_map s1].
  destruct (connection_map s !! dp) as [old|] eqn:M.
  2:{ exists s1. split_and!; [done|done|done|]. cbn. apply lookup_insert_eq. }
  destruct (inv_map _ s1 I1 dp old M) as (c & C & N & D & X).
  destruct (close_ok _ old c s1 I1 C X) as (s2 & -> & I2 & _ & K & R). exists s2. cbn.
  rewrite (R N), D, lookup_delete_eq. split_and!; [done|done|done|].
  rewrite K by congruence. cbn. apply lookup_insert_eq.
Qed.

(** The new entries and the join event complete a registration. *)
Lemma joined_inv a c e s : inv (Some a) s -> connection_map s !! dp_id c = None -> conns s !! a = Some c -> closing c = false ->
  (forall m : gmap Z party, m !! dp_id c = None -> announce m e = Some (<[dp_id c := party_of c]> m)) ->
  inv None (Nox (<[dp_id c := a]> (connection_map s))
    (if dp_id c =? mgmt_id c then mgmt_map s else <[dp_id c := mgmt_id c]> (mgmt_map s))
    (if dp_id c =? mgmt_id c then swm_map s ∪ {[mgmt_id c]} else swm_map s)
    (conns s) (brk s) (pollables s) (posted s ++ [e])).
Proof.
  intros I F C N A. set (s' := Nox _ _ _ _ _ _ _).
  assert (connected s' = <[dp_id c := party_of c]> (connected s)) as K.
  { unfold connected. cbn [connection_map conns s']. rewrite (omap_insert_Some _ _ _ _ (party_of c)); [done|]. cbn. by rewrite C. }
  pose proof (proj2 (connected_none s (dp_id c) _ I) F) as FC.
  split.
  - intros id b. cbn. intros [[<- <-]|[Hid M]]%lookup_insert_Some; [by exists c|].
    destruct (inv_map _ s I id b M) as (d & D & Q). exists d. naive_solver.
  - intros b d D. destruct (inv_conns _ s I b d D) as (? & ? & Q). split_and!; [done|done|].
    destruct (closing d) eqn:Cd; [done|]. destruct Q as [P Q]. split; [done|]. intros _. cbn.
    destruct (decide (b = a)) as [->|Hb].
    + replace d with c by (cbn in D; congruence). apply lookup_insert_eq.
    + rewrite lookup_insert_ne; [apply Q; congruence|]. intros Hd. rewrite <- Hd in Q. rewrite F in Q.
      by specialize (Q ltac:(congruence)).
  - apply (inv_pollables _ s I).
  - intros id m. cbn [mgmt_map connection_map conns s'].
    assert (mgmt_map s !! dp_id c = None) as FM.
    { destruct (mgmt_map s !! dp_id c) as [m'|] eqn:E; [|done]. apply (inv_mgmt _ s I) in E.
      destruct E as (_ & b & d & M & _). congruence. }
    destruct (decide (id = dp_id c)) as [->|Hid].
    + transitivity (dp_id c <> mgmt_id c /\ mgmt_id c = m).
      * destruct (dp_id c =? mgmt_id c) eqn:Q; [rewrite FM; apply Z.eqb_eq in Q; naive_solver|].
        apply Z.eqb_neq in Q. rewrite lookup_insert_eq. naive_solver.
      * setoid_rewrite lookup_insert_eq. naive_solver.
    + setoid_rewrite lookup_insert_ne; [|done]. rewrite <- (inv_mgmt _ s I).
      destruct (dp_id c =? mgmt_id c); [done|]. by rewrite lookup_insert_ne.
  - intros id. rewrite K. cbn [swm_map s']. unfold party_of. destruct (dp_id c =? mgmt_id c) eqn:Q.
    + apply Z.eqb_eq in Q. rewrite lookup_insert_Some, <- (inv_swm _ s I), <- Q.
      destruct (decide (id = dp_id c)) as [->|Hid]; set_solver.
    + rewrite lookup_insert_Some, <- (inv_swm _ s I). split; [|naive_solver]. intros H. right. split; [|done].
      intros <-. apply (inv_swm _ s I) in H. congruence.
  - cbn [posted s']. rewrite (replay_snoc _ _ _ (inv_posted _ s I)), K. by apply A.
Qed.

Lemma register_dp_ok dp mgmt f s : inv None s -> dp <> mgmt -> exists s', register_dp dp mgmt f s = Ret s' /\ inv None s'.
Proof.
  intros I Hd. destruct (register_conn_ok dp mgmt s I) as (s1 & R & I1 & F & C). unfold register_dp. rewrite R. cbn.
  assert (mgmt_map s1 !! dp = None) as ->.
  { destruct (mgmt_map s1 !! dp) eqn:E; [|done]. apply (inv_mgmt _ s1 I1) in E. destruct E as (_ & b & d & M & _). congruence. }
  eexists. split; [reflexivity|].
  pose proof (joined_inv (brk s) (Conn dp mgmt false 0) (Datapath_join dp f) s1 I1 F C eq_refl) as J.
  unfold party_of in J. cbn in J. rewrite (proj2 (Z.eqb_neq dp mgmt) Hd) in J. apply J. by intros m ->.
Qed.

Lemma register_mgr_ok id s : inv None s -> exists s', register_mgr id s = Ret s' /\ inv None s'.
Proof.
  intros I. destruct (register_conn_ok id id s I) as (s1 & R & I1 & F & C). unfold register_mgr. rewrite R. cbn.
  eexists. split; [reflexivity|].
  pose proof (joined_inv (brk s) (Conn id id false 0) (Switch_mgr_join id) s1 I1 F C eq_refl) as J.
  unfold party_of in J. cbn in J. rewrite Z.eqb_refl in J. apply J. by intros m ->.
Qed.

(** ** Polling *)

(** [set_conns] keeps the registered connections, up to their [poll_cnt]. *)
Lemma set_conns_inv m s : inv None s ->
  (forall a c, conns s !! a = Some c -> closing c = false -> exists n, m !! a = Some (Conn (dp_id c) (mgmt_id c) false n)) ->
  (forall a c, m !! a = Some c -> 0 <= poll_cnt c /\ (closing c = true -> 0 < poll_cnt c) /\
    exists n, conns s !! a = Some (Conn (dp_id c) (mgmt_id c) (closing c) n)) ->
  inv None (set_conns m s).
Proof.
  intros I H1 H2.
  assert (forall id a c, connection_map s !! id = Some a -> conns s !! a = Some c ->
    exists n, m !! a = Some (Conn (dp_id c) (mgmt_id c) false n)) as K.
  { intros id a c M C. apply H1; [done|]. destruct (inv_map _ s I id a M) as (c' & ? & ? & _). congruence. }
  assert (connected (set_conns m s) = connected s) as N.
  { apply map_eq. intros id. apply option_eq. intros p. rewrite !connected_lookup. cbn. split; intros (a & c & M & C & P).
    - destruct (H2 a c C) as (_ & _ & n & E). eexists a, _. by split_and!.
    - destruct (K id a c M C) as [n E]. eexists a, _. by split_and!. }
  split.
  - intros id a M. destruct (inv_map _ s I id a M) as (c & C & Nc & <- & X). destruct (H1 a c C Nc) as [n E]. by eexists.
  - intros a c C. destruct (H2 a c C) as (P & Q & n & E). destruct (inv_conns _ s I a _ E) as (_ & B & R).
    cbn in R |- *. split_and!; [done|done|]. destruct (closing c); [by apply Q|done].
  - intros a P. destruct (inv_pollables _ s I a P) as (c & C & Nc). destruct (H1 a c C Nc) as [n E]. by eexists.
  - intros id v. cbn. rewrite (inv_mgmt _ s I). split; intros (Hv & a & c & M & C & P); (split; [done|]).
    + destruct (K id a c M C) as [n E]. eexists a, _. by split_and!.
    + destruct (H2 a c C) as (_ & _ & n & E). eexists a, _. by split_and!.
  - intros id. rewrite N. apply (inv_swm _ s I).
  - rewrite N. apply (inv_posted _ s I).
Qed.

Lemma recount_inv a c n s : inv None s -> conns s !! a = Some c -> 0 <= n -> (closing c = true -> 0 < n) ->
  inv None (set_conns (<[a := Conn (dp_id c) (mgmt_id c) (closing c) n]> (conns s)) s).
Proof.
  intros I C Hn Hc. apply set_conns_inv; [done| |].
  - intros b d D Nd. destruct (decide (b = a)) as [->|Hb].
    + exists n. rewrite lookup_insert_eq. congruence.
    + exists (poll_cnt d). rewrite lookup_insert_ne, D by done. destruct d; cbn in *; congruence.
  - intros b d [[<- <-]|[Hb D]]%lookup_insert_Some; cbn.
    + split_and!; [done|done|]. exists (poll_cnt c). rewrite C. by destruct c.
    + destruct (inv_conns _ s I b d D) as (? & _ & Q). split_and!; [done|by intros E; rewrite E in Q|].
      exists (poll_cnt d). rewrite D. by destruct d.
Qed.

Lemma forget_inv a c s : inv None s -> conns s !! a = Some c -> closing c = true ->
  inv None (set_conns (delete a (conns s)) s).
Proof.
  intros I C Hc. apply set_conns_inv; [done| |].
  - intros b d D Nd. exists (poll_cnt d). rewrite lookup_delete_ne by congruence. rewrite D. destruct d; cbn in *; congruence.
  - intros b d [Hb D]%lookup_delete_Some. destruct (inv_conns _ s I b d D) as (? & _ & Q).
    split_and!; [done|by intros E; rewrite E in Q|]. exists (poll_cnt d). rewrite D. by destruct d.
Qed.

Lemma poll_end_ok a s : inv None s -> polled s a -> exists s', poll_end a s = Ret s' /\ inv None s'.
Proof.
  intros I P. unfold polled in P. unfold poll_end. destruct (conns s !! a) as [c|] eqn:C; [|done]. cbn.
  destruct (inv_conns _ s I a c C) as (Hn & _ & Q).
  destruct ((poll_cnt c - 1 =? 0) && closing c) eqn:E; eexists; (split; [reflexivity|]).
  - apply andb_true_iff in E as [_ E]. by eapply forget_inv.
  - apply recount_inv; [done|done|lia|]. intros Hc. rewrite Hc, andb_true_r in E. lia.
Qed.

(** ** Every operation *)

Lemma apply_ok o s : inv None s -> allowed o s -> exists s', apply o s = Ret s' /\ inv None s'.
Proof.
  intros I A. destruct o; cbn in *.
  - by apply register_dp_ok.
  - by apply register_mgr_ok.
  - unfold close_openflow_connection. destruct (connection_map s !! dp) as [a|] eqn:M; [|by exists s].
    destruct (inv_map _ s I dp a M) as (c & C & _).
    destruct (close_ok None a c s I C ltac:(done)) as (s' & -> & I' & _). by exists s'.
  - destruct (inv_pollables _ s I a A) as (c & C & N). unfold poll_begin. rewrite C. eexists. split; [reflexivity|].
    destruct (inv_conns _ s I a c C) as (Hn & _). apply recount_inv; [done|done|lia|congruence].
  - unfold polled in A. destruct (conns s !! a) as [c|] eqn:C; [|done].
    destruct (close_ok None a c s I C ltac:(done)) as (s' & -> & I' & _). by exists s'.
  - by apply poll_end_ok.
Qed.

Lemma history_inv s : history s -> inv None s.
Proof.
  induction 1 as [|s o s' H IH A E]; [apply inv_init|].
  destruct (apply_ok o s IH A) as (s1 & E1 & I1). congruence.
Qed.

(** C26: Whatever sequence of registrations, close requests and overlapping
    polls, the registry is consistent.  The next operation succeeds: no deleted
    [Conn] is used, deleted twice or left registered, and no assertion fails.
    The events posted so far are a possible history of joins and leaves, a leave
    always for an id that joined as the same party, and the ids they leave joined
    are those of [connection_map], [mgmt_map] (datapaths, with the id of their
    manager) and [swm_map] (managers).  A [Conn] exists as long as it is
    registered or being polled, and only registered ones are in the poll loop. *)
Theorem registry_consistent s : history s ->
  (forall o, allowed o s -> exists s', apply o s = Ret s') /\
  replay (posted s) = Some (connected s) /\
  (forall id, connected s !! id = None <-> dpid_to_oconn id s = Ret None) /\
  (forall id p, connected s !! id = Some p -> exists m, dpid_to_oconn id s = Ret (Some (id, m)) /\
    match p with
    | Manager => m = id /\ mgmtid_to_swm id s = true /\ mgmt_map s !! id = None
    | Datapath => m <> id /\ dpid_to_mgmtid id s = m /\ active_mgmt m s = true /\ mgmtid_to_swm id s = false
    end) /\
  (forall a c, conns s !! a = Some c -> closing c = true -> 0 < poll_cnt c) /\
  (forall a, a ∈ pollables s <-> exists id, connection_map s !! id = Some a).
Proof.
  intros I%history_inv. split_and!.
  - intros o A. destruct (apply_ok o s I A) as (s' & E & _). by exists s'.
  - apply (inv_posted _ s I).
  - intros id. rewrite (connected_none _ _ _ I). unfold dpid_to_oconn. destruct (connection_map s !! id) as [a|] eqn:M; [|done].
    destruct (inv_map _ s I id a M) as (c & -> & _). done.
  - intros id p P. pose proof P as Q. apply connected_lookup in Q as (a & c & M & C & <-).
    pose proof (inv_swm _ s I id) as W. unfold mgmtid_to_swm.
    unfold dpid_to_oconn. rewrite M, C. destruct (inv_map _ s I id a M) as (c' & C' & _ & D & _).
    replace c' with c in D by congruence. rewrite D. exists (mgmt_id c). split; [done|].
    pose proof (inv_mgmt _ s I id) as G. unfold party_of in *. rewrite D in *. destruct (id =? mgmt_id c) eqn:Q.
    + apply Z.eqb_eq in Q. split_and!; [done|by apply bool_decide_eq_true, W|].
      destruct (mgmt_map s !! id) as [m|] eqn:E; [|done]. destruct (proj1 (G m) eq_refl) as (? & a' & d & M' & C'' & <-).
      congruence.
    + apply Z.eqb_neq in Q.
      assert (mgmt_map s !! id = Some (mgmt_id c)) as E by (apply G; naive_solver).
      split_and!; [done|unfold dpid_to_mgmtid; by rewrite E| |].
      * unfold active_mgmt. apply existsb_exists. exists (mgmt_id c). rewrite Z.eqb_refl. split; [|done].
        apply list_elem_of_In, list_elem_of_fmap. exists (id, mgmt_id c). by rewrite elem_of_map_to_list.
      * apply bool_decide_eq_false. rewrite W, P. done.
  - intros a c C Hc. destruct (inv_conns _ s I a c C) as (_ & _ & Q). by rewrite Hc in Q.
  - intros a. split.
    + intros P. destruct (inv_pollables _ s I a P) as (c & C & N). destruct (inv_conns _ s I a c C) as (_ & _ & Q).
      rewrite N in Q. exists (dp_id c). by apply Q.
    + intros [id M]. destruct (inv_map _ s I id a M) as (c & C & N & _). destruct (inv_conns _ s I a c C) as (_ & _ & Q).
      rewrite N in Q. apply Q.
Qed.

(** ** Concrete histories *)

Definition allowedb (o : op) (s : nox) : bool :=
  match o with
  | Register_dp dp mgmt _ => negb (dp =? mgmt)
  | Poll_begin a => bool_decide (a ∈ pollables s)
  | Poll_error a | Poll_end a => match conns s !! a with Some c => 0 <? poll_cnt c | None => false end
  | _ => true
  end.
Fixpoint runs (l : list op) (s : nox) : option nox :=
  match l with
  | [] => Some s
  | o :: l => if allowedb o s then match apply o s with Ret s => runs l s | _ => None end else None
  end.

Lemma runs_history l s s' : history s -> runs l s = Some s' -> history s'.
Proof.
  revert s. induction l as [|o l IH]; intros s H E; cbn in E; [congruence|].
  destruct (allowedb o s) eqn:A; [|done]. destruct (apply o s) as [s1| | |] eqn:Q; try done.
  eapply IH; [|exact E]. eapply history_step; [done| |exact Q].
  destruct o; cbn in *; try done.
  - apply negb_true_iff in A. lia.
  - by apply bool_decide_eq_true in A.
  - unfold polled. destruct (conns s !! a); [lia|done].
  - unfold polled. destruct (conns s !! a); [lia|done].
Qed.

(** A datapath registers again while it is polled: its old [Conn] goes when that
    poll ends. *)
Definition reconnect : list op := [Register_dp 1 7 [0]; Register_mgr 7; Poll_begin 0; Register_dp 1 9 [0]; Poll_end 0].

Lemma registry_consistent_witness : exists s, history s /\
  posted s = [Datapath_join 1 [0]; Switch_mgr_join 7; Datapath_leave 1; Datapath_join 1 [0]] /\
  replay (posted s) = Some (connected s).
Proof.
  assert (posted <$> runs reconnect no_connections =
    Some [Datapath_join 1 [0]; Switch_mgr_join 7; Datapath_leave 1; Datapath_join 1 [0]]) as P by (vm_compute; reflexivity).
  destruct (runs reconnect no_connections) as [s|] eqn:E; [|discriminate]. injection P as P.
  pose proof (runs_history _ _ _ history_init E) as H. exists s. split; [exact H|split; [exact P|]].
  apply (registry_consistent s H).
Defined.

(** A datapath whose manager has its own id joins as a datapath and leaves as a
    manager: no observer can replay the events. *)
Theorem leaves_as_manager : exists s,
  (s ← register_dp 5 5 [0] no_connections; '(_, s) ← close_openflow_connection 5 s; Ret s) = Ret s /\
  posted s = [Datapath_join 5 [0]; Switch_mgr_leave 5] /\ replay (posted s) = None.
Proof. eexists. split; [reflexivity|]. split; [reflexivity|]. vm_compute. reflexivity. Qed.
