(* ===== verification/Sha1.v ===== *)
(** * SHA-1 (src/include/sha1.hh, src/lib/sha1.cc)

    The class as it is written, [message_block] filled byte by byte, and the
    function of FIPS 180 that it means to compute.  A write outside
    [message_block] or a read past the input is [Aborted]. *)

From S2P Require Import Prelude Bytes.

Open Scope Z_scope.

Record sha1 := Sha1 {
  H : list Z;
  length_low : Z;
  length_high : Z;
  message_block : bytes;
  message_block_index : nat;
  computed : bool;
  corrupted : bool
}.

(** ** Operations *)

(** [SHA1::reset]; [message_block] keeps what it holds. *)
Definition H_init : list Z := [0x67452301; 0xEFCDAB89; 0x98BADCFE; 0x10325476; 0xC3D2E1F0].
Definition reset (s : sha1) : sha1 := Sha1 H_init 0 0 (message_block s) 0 false false.

(** The constructor, on memory that holds [raw] where [message_block] will be. *)
Definition new_sha1 (raw : bytes) : sha1 := reset (Sha1 [] 0 0 raw 0 false false).

(** [SHA1::circular_shift] *)
Definition circular_shift (bits word : Z) : Z :=
  Z.lor (Z.land (u32 (Z.shiftl word bits)) 0xFFFFFFFF) (Z.shiftr (Z.land word 0xFFFFFFFF) (32 - bits)).

(** The words [W[0]] to [W[15]], then [W[16]] to [W[79]] *)
Definition word_at (b : bytes) (t : nat) : Z :=
  let byte i := nth (t * 4 + i) b 0 in
  Z.lor (Z.lor (Z.lor (u32 (Z.shiftl (byte 0%nat) 24)) (u32 (Z.shiftl (byte 1%nat) 16)))
    (u32 (Z.shiftl (byte 2%nat) 8))) (byte 3%nat).
Definition extend (W : list Z) (t : nat) : list Z :=
  let w i := nth (t - i) W 0 in
  W ++ [circular_shift 1 (Z.lxor (Z.lxor (Z.lxor (w 3%nat) (w 8%nat)) (w 14%nat)) (w 16%nat))].
Definition W_of (b : bytes) : list Z := foldl extend (word_at b <$> seq 0 16) (seq 16 64).

(** One turn of a loop over [t], with the function of [B], [C] and [D] and the
    constant of its twenty turns *)
Record regs := Regs { rA : Z; rB : Z; rC : Z; rD : Z; rE : Z }.
Definition turn (f : Z -> Z -> Z -> Z) (K : Z) (r : regs) (w : Z) : regs :=
  let temp := u32 (circular_shift 5 (rA r) + f (rB r) (rC r) (rD r) + rE r + w + K) in
  Regs (Z.land temp 0xFFFFFFFF) (rA r) (circular_shift 30 (rB r)) (rC r) (rD r).

Definition f0 (b c d : Z) : Z := Z.lor (Z.land b c) (Z.land (u32 (Z.lnot b)) d).
Definition f1 (b c d : Z) : Z := Z.lxor (Z.lxor b c) d.
Definition f2 (b c d : Z) : Z := Z.lor (Z.lor (Z.land b c) (Z.land b d)) (Z.land c d).

(** [SHA1::process_message_block] on [H] *)
Definition compress (h : list Z) (b : bytes) : list Z :=
  let W := W_of b in
  let word i := nth i h 0 in
  let r := Regs (word 0%nat) (word 1%nat) (word 2%nat) (word 3%nat) (word 4%nat) in
  let r := foldl (turn f0 0x5A827999) r (take 20 W) in
  let r := foldl (turn f1 0x6ED9EBA1) r (take 20 (drop 20 W)) in
  let r := foldl (turn f2 0x8F1BBCDC) r (take 20 (drop 40 W)) in
  let r := foldl (turn f1 0xCA62C1D6) r (take 20 (drop 60 W)) in
  let sum x y := Z.land (u32 (x + y)) 0xFFFFFFFF in
  [sum (word 0%nat) (rA r); sum (word 1%nat) (rB r); sum (word 2%nat) (rC r); sum (word 3%nat) (rD r); sum (word 4%nat) (rE r)].

Definition process_message_block (s : sha1) : sha1 :=
  Sha1 (compress (H s) (message_block s)) (length_low s) (length_high s) (message_block s) 0 (computed s) (corrupted s).

(** [message_block[message_block_index++] = b] *)
Definition push (b : Z) (s : sha1) : res sha1 :=
  if (message_block_index s <? 64)%nat then
    Ret (Sha1 (H s) (length_low s) (length_high s) (<[message_block_index s := b]> (message_block s))
      (S (message_block_index s)) (computed s) (corrupted s))
  else Aborted.

(** The body of the loop of [SHA1::input] *)
Definition input_byte (b : Z) (s : sha1) : res sha1 :=
  s ← push (Z.land b 0xFF) s;
  let low := Z.land (u32 (length_low s + 8)) 0xFFFFFFFF in
  let high := if low =? 0 then Z.land (u32 (length_high s + 1)) 0xFFFFFFFF else length_high s in
  let s := Sha1 (H s) low high (message_block s) (message_block_index s) (computed s)
    (if (low =? 0) && (high =? 0) then true else corrupted s) in
  Ret (if (message_block_index s =? 64)%nat then process_message_block s else s).

Fixpoint input_loop (array : bytes) (length : Z) (s : sha1) : res sha1 :=
  if (length =? 0) || corrupted s then Ret s
  else match array with
       | [] => Aborted
       | b :: array => s ← input_byte b s; input_loop array (length - 1) s
       end.

Definition set_corrupted (s : sha1) : sha1 :=
  Sha1 (H s) (length_low s) (length_high s) (message_block s) (message_block_index s) (computed s) true.

(** [SHA1::input] *)
Definition input (message : bytes) (length : Z) (s : sha1) : res sha1 :=
  if length =? 0 then Ret s
  else if computed s || corrupted s then Ret (set_corrupted s)
  else input_loop message length s.

(** [while (message_block_index < n) message_block[message_block_index++] = 0] *)
Fixpoint push_zeros (fuel n : nat) (s : sha1) : res sha1 :=
  if (message_block_index s <? n)%nat then
    match fuel with
    | O => NoFuel
    | S fuel => s ← push 0 s; push_zeros fuel n s
    end
  else Ret s.

Definition length_bytes (s : sha1) : bytes :=
  (fun i => Z.land (Z.shiftr (length_high s) i) 0xFF) <$> [24; 16; 8; 0].
Definition length_bytes_low (s : sha1) : bytes :=
  (fun i => Z.land (Z.shiftr (length_low s) i) 0xFF) <$> [24; 16; 8; 0].

(** [SHA1::pad_message] *)
Definition pad_message (s : sha1) : res sha1 :=
  s ← (if (55 <? message_block_index s)%nat then
         s ← push 0x80 s;
         s ← push_zeros 64 64 s;
         push_zeros 64 56 (process_message_block s)
       else
         s ← push 0x80 s;
         push_zeros 64 56 s);
  Ret (process_message_block
    (Sha1 (H s) (length_low s) (length_high s) (store 56 (length_bytes s ++ length_bytes_low s) (message_block s))
      (message_block_index s) (computed s) (corrupted s))).

(** [SHA1::digest]: what it stores, if it returns true *)
Definition digest (s : sha1) : res (option bytes * sha1) :=
  if corrupted s then Ret (None, s)
  else
    s ← (if computed s then Ret s
         else s ← pad_message s;
              Ret (Sha1 (H s) (length_low s) (length_high s) (message_block s) (message_block_index s) true (corrupted s)));
    Ret (Some (concat ((fun h => to_le 4 (htonl h)) <$> H s)), s).

(** Calls of [input] with the messages of a list *)
Fixpoint inputs (ms : list bytes) (s : sha1) : res sha1 :=
  match ms with
  | [] => Ret s
  | m :: ms => s ← input m (Z.of_nat (length m)) s; inputs ms s
  end.

(** ** The function of FIPS 180 *)

Module Fips.
Definition rotl (n x : Z) : Z := (x * 2 ^ n) `mod` 2 ^ 32 + x `div` 2 ^ (32 - n).
Definition Ch (x y z : Z) : Z := Z.lxor (Z.land x y) (Z.land (2 ^ 32 - 1 - x) z).
Definition Parity (x y z : Z) : Z := Z.lxor (Z.lxor x y) z.
Definition Maj (x y z : Z) : Z := Z.lxor (Z.lxor (Z.land x y) (Z.land x z)) (Z.land y z).

Definition f (t : nat) : Z -> Z -> Z -> Z :=
  if (t <? 20)%nat then Ch else if (t <? 40)%nat then Parity else if (t <? 60)%nat then Maj else Parity.
Definition K (t : nat) : Z :=
  if (t <? 20)%nat then 0x5a827999 else if (t <? 40)%nat then 0x6ed9eba1
  else if (t <? 60)%nat then 0x8f1bbcdc else 0xca62c1d6.

(** The message schedule, latest word first *)
Fixpoint schedule (n : nat) (W : list Z) : list Z :=
  match n with
  | O => W
  | S n =>
      let W := schedule n W in
      rotl 1 (Z.lxor (nth 2 W 0) (Z.lxor (nth 7 W 0) (Z.lxor (nth 13 W 0) (nth 15 W 0)))) :: W
  end.
Definition words (M : bytes) : list Z := (fun t => of_be (load (4 * t) 4 M)) <$> seq 0 16.
Definition W (M : bytes) : list Z := rev (schedule 64 (rev (words M))).

Definition step (M : bytes) (r : Z * Z * Z * Z * Z) (t : nat) : Z * Z * Z * Z * Z :=
  let '(a, b, c, d, e) := r in
  ((rotl 5 a + f t b c d + e + K t + nth t (W M) 0) `mod` 2 ^ 32, a, rotl 30 b, c, d).

Definition block (h : Z * Z * Z * Z * Z) (M : bytes) : Z * Z * Z * Z * Z :=
  let '(a, b, c, d, e) := foldl (step M) h (seq 0 80) in
  let '(h0, h1, h2, h3, h4) := h in
  ((h0 + a) `mod` 2 ^ 32, (h1 + b) `mod` 2 ^ 32, (h2 + c) `mod` 2 ^ 32, (h3 + d) `mod` 2 ^ 32, (h4 + e) `mod` 2 ^ 32).

Definition pad (m : bytes) : bytes :=
  m ++ [0x80] ++ replicate (Z.to_nat ((55 - Z.of_nat (length m)) `mod` 64)) 0 ++ to_be 8 (8 * Z.of_nat (length m)).

Fixpoint blocks (n : nat) (m : bytes) : list bytes :=
  match n with O => [] | S n => take 64 m :: blocks n (drop 64 m) end.

Definition sha1 (m : bytes) : bytes :=
  let p := pad m in
  let '(a, b, c, d, e) :=
    foldl block (0x67452301, 0xefcdab89, 0x98badcfe, 0x10325476, 0xc3d2e1f0) (blocks (length p / 64) p) in
  concat (to_be 4 <$> [a; b; c; d; e]).
End Fips.
