(* ===== verification/Sha1Props.v ===== *)
(** * The class computes SHA-1 (src/lib/sha1.cc)

    The words and the rounds agree with FIPS 180; then the state after any calls
    of [input] is what FIPS 180 gives for the bytes so far. *)

From S2P Require Import Prelude Bytes Sha1.

Open Scope Z_scope.

(** ** Words *)

Lemma land_u32 x : Z.land x 0xFFFFFFFF = u32 x.
Proof. change 0xFFFFFFFF with (Z.ones 32). by rewrite Z.land_ones. Qed.

Lemma u32_range x : is_u32 (u32 x).
Proof. by apply wrap_range. Qed.
Lemma u32_id x : is_u32 x -> u32 x = x.
Proof. apply wrap_small. Qed.

Lemma testbit_high w x i : in_width w x -> 0 <= w <= i -> Z.testbit x i = false.
Proof. intros Hx Hi. rewrite <- (Z.mod_small x (2 ^ w)) by done. apply Z.mod_pow2_bits_high. lia. Qed.

Lemma lxor_range w x y : 0 <= w -> in_width w x -> in_width w y -> in_width w (Z.lxor x y).
Proof.
  intros Hw Hx Hy. unfold in_width. replace (Z.lxor x y) with (wrap w (Z.lxor x y)); [by apply wrap_range|].
  apply Z.bits_inj'. intros i Hi. unfold wrap. destruct (decide (i < w)); [by rewrite Z.mod_pow2_bits_low|].
  rewrite Z.mod_pow2_bits_high by lia. rewrite Z.lxor_spec, !(testbit_high w) by (done || lia). done.
Qed.

Lemma circular_shift_rotl n x : 0 < n < 32 -> is_u32 x -> circular_shift n x = Fips.rotl n x.
Proof.
  intros Hn Hx. unfold circular_shift, Fips.rotl. rewrite !land_u32, (u32_id x), (u32_id (u32 _)) by (done || apply u32_range).
  rewrite Z.shiftr_div_pow2, Z.shiftl_mul_pow2 by lia. unfold wrap.
  replace (2 ^ 32) with (2 ^ (32 - n) * 2 ^ n) by (rewrite <- Z.pow_add_r by lia; f_equal; lia).
  rewrite Z.mul_mod_distr_r by lia. apply lor_disjoint; [lia|]. split; [apply Z.div_pos; unfold in_width in Hx; lia|].
  apply Z.div_lt_upper_bound; [lia|]. rewrite <- Z.pow_add_r by lia. replace (32 - n + n) with 32 by lia. apply Hx.
Qed.

Lemma rotl_range n x : 0 < n < 32 -> is_u32 x -> is_u32 (Fips.rotl n x).
Proof.
  intros Hn Hx. unfold Fips.rotl, in_width in *.
  assert ((x * 2 ^ n) `mod` 2 ^ 32 = x `mod` 2 ^ (32 - n) * 2 ^ n) as ->.
  { rewrite <- Z.mul_mod_distr_r by lia. f_equal. rewrite <- Z.pow_add_r by lia. f_equal. lia. }
  pose proof (Z.mod_pos_bound x (2 ^ (32 - n)) ltac:(lia)) as M.
  assert (0 <= x `div` 2 ^ (32 - n) < 2 ^ n) as Dv.
  { split; [apply Z.div_pos; lia|]. apply Z.div_lt_upper_bound; [lia|].
    rewrite <- Z.pow_add_r by lia. replace (32 - n + n) with 32 by lia. apply Hx. }
  assert (2 ^ 32 = 2 ^ (32 - n) * 2 ^ n) as -> by (rewrite <- Z.pow_add_r by lia; f_equal; lia). nia.
Qed.

Lemma f0_Ch b c d : is_u32 b -> f0 b c d = Fips.Ch b c d.
Proof.
  intros Hb. unfold f0, Fips.Ch.
  assert (u32 (Z.lnot b) = 2 ^ 32 - 1 - b) as E.
  { unfold wrap, in_width in *. unfold Z.lnot. symmetry. apply (Z.mod_unique _ _ (-1)); lia. }
  rewrite <- E. apply Z.bits_inj'. intros i Hi. rewrite Z.lor_spec, Z.lxor_spec, !Z.land_spec.
  destruct (decide (i < 32)) as [Hlt|Hge].
  - unfold wrap. rewrite Z.mod_pow2_bits_low, Z.lnot_spec by lia. by destruct (Z.testbit b i), (Z.testbit c i), (Z.testbit d i).
  - rewrite (testbit_high 32 b), (testbit_high 32 (u32 _)) by (done || lia || apply u32_range). done.
Qed.

Lemma f2_Maj b c d : f2 b c d = Fips.Maj b c d.
Proof.
  unfold f2, Fips.Maj. apply Z.bits_inj'. intros i Hi. rewrite !Z.lor_spec, !Z.lxor_spec, !Z.land_spec.
  by destruct (Z.testbit b i), (Z.testbit c i), (Z.testbit d i).
Qed.

(** ** The message schedule *)

Lemma word_at_be b t : is_bytes b -> (4 * t + 4 <= length b)%nat -> word_at b t = of_be (load (4 * t) 4 b).
Proof.
  intros Hb Hl. unfold word_at, load.
  assert (exists x0 x1 x2 x3, take 4 (drop (4 * t) b) = [x0; x1; x2; x3]) as (x0 & x1 & x2 & x3 & E).
  { assert (length (take 4 (drop (4 * t) b)) = 4%nat) as L by (rewrite length_take, length_drop; lia).
    destruct (take 4 (drop (4 * t) b)) as [|x0 [|x1 [|x2 [|x3 [|]]]]]; try discriminate. by exists x0, x1, x2, x3. }
  assert (is_bytes [x0; x1; x2; x3]) as Hx by (rewrite <- E; by apply Forall_take, Forall_drop).
  assert (forall i, (i < 4)%nat -> nth (t * 4 + i) b 0 = nth i [x0; x1; x2; x3] 0) as N.
  { intros i Hi. rewrite <- E. rewrite nth_firstn, nth_skipn.
    assert ((i <? 4)%nat = true) as -> by (apply Nat.ltb_lt; lia). f_equal. lia. }
  rewrite !N by lia. rewrite E. cbn [nth]. clear - Hx. rewrite !Forall_cons in Hx.
  destruct Hx as (H0 & H1 & H2 & H3 & _). unfold in_width in *. change (2 ^ 8) with 256 in *.
  rewrite !Z.shiftl_mul_pow2 by lia.
  rewrite !wrap_small by (change (2 ^ 24) with 16777216; change (2 ^ 32) with 4294967296; change (2 ^ 16) with 65536; lia).
  rewrite (lor_disjoint x0 (x1 * 2 ^ 16) 24) by (change (2 ^ 24) with (256 * 2 ^ 16); lia).
  replace (x0 * 2 ^ 24 + x1 * 2 ^ 16) with ((x0 * 256 + x1) * 2 ^ 16) by lia.
  rewrite (lor_disjoint _ (x2 * 2 ^ 8) 16) by (change (2 ^ 16) with (256 * 2 ^ 8); lia).
  replace ((x0 * 256 + x1) * 2 ^ 16 + x2 * 2 ^ 8) with (((x0 * 256 + x1) * 256 + x2) * 2 ^ 8) by lia.
  rewrite (lor_disjoint _ x3 8) by lia. unfold of_be. cbn. lia.
Qed.

Lemma words_range b : is_bytes b -> length b = 64%nat -> Forall is_u32 (Fips.words b).
Proof.
  intros Hb Hl. unfold Fips.words. apply Forall_fmap, Forall_seq. intros t Ht. unfold compose, of_be.
  pose proof (of_le_range (rev (load (4 * t) 4 b))) as R.
  assert (length (rev (load (4 * t) 4 b)) = 4%nat) as L by (unfold load; rewrite length_rev, length_take, length_drop; lia).
  rewrite L in R. apply R. apply is_bytes_rev. unfold load. by apply Forall_take, Forall_drop.
Qed.

Lemma nth_range l i : Forall is_u32 l -> is_u32 (nth i l 0).
Proof.
  intros Hl. destruct (nth_in_or_default i l 0) as [Hi| ->]; [|unfold in_width; lia].
  rewrite Forall_forall in Hl. apply Hl. by apply list_elem_of_In.
Qed.

Lemma schedule_ok n w : Forall is_u32 w -> length w = 16%nat ->
  foldl extend w (seq 16 n) = rev (Fips.schedule n (rev w)) /\ length (foldl extend w (seq 16 n)) = (16 + n)%nat /\
  Forall is_u32 (foldl extend w (seq 16 n)).
Proof.
  intros Hw Hl. induction n as [|n (IHe & IHl & IHr)]; [cbn; by rewrite rev_involutive|].
  rewrite seq_S, foldl_app. cbn [foldl]. set (V := foldl extend w (seq 16 n)) in *. unfold extend.
  set (x := Z.lxor _ _).
  assert (is_u32 x) as Hx by (unfold x; repeat apply lxor_range; try apply nth_range; done || lia).
  rewrite circular_shift_rotl by (lia || done). split_and!.
  - cbn [Fips.schedule]. cbn [rev]. rewrite <- IHe. do 2 f_equal. f_equal. unfold x.
    assert (Fips.schedule n (rev w) = rev V) as -> by (rewrite IHe; by rewrite rev_involutive).
    rewrite !rev_nth by lia. rewrite IHl. rewrite <- !Z.lxor_assoc.
    replace (16 + n - 1 - 2)%nat with (16 + n - 3)%nat by lia. repeat f_equal; lia.
  - rewrite length_app. cbn. lia.
  - apply Forall_app. split; [done|]. constructor; [|done]. apply rotl_range; [lia|done].
Qed.

Lemma W_of_ok b : is_bytes b -> length b = 64%nat ->
  W_of b = Fips.W b /\ length (W_of b) = 80%nat /\ Forall is_u32 (W_of b).
Proof.
  intros Hb Hl.
  assert (word_at b <$> seq 0 16 = Fips.words b) as E.
  { unfold Fips.words. apply list_fmap_ext. intros i t Ht%lookup_seq. apply word_at_be; [done|lia]. }
  unfold W_of, Fips.W. rewrite E.
  apply (schedule_ok 64 (Fips.words b)); [by apply words_range|reflexivity].
Qed.

(** ** The rounds *)

Abbreviation five := (Z * Z * Z * Z * Z)%type.
Definition regs_of (h : five) : regs := let '(a, b, c, d, e) := h in Regs a b c d e.
Definition H_of (h : five) : list Z := let '(a, b, c, d, e) := h in [a; b; c; d; e].
Definition five_u32 (h : five) : Prop := let '(a, b, c, d, e) := h in is_u32 a /\ is_u32 b /\ is_u32 c /\ is_u32 d /\ is_u32 e.

#[local] Opaque Fips.rotl Fips.W circular_shift W_of.

Lemma take_drop_nth (l : list Z) n k : (k + n <= length l)%nat -> take n (drop k l) = (fun t => nth t l 0) <$> seq k n.
Proof.
  revert k. induction n as [|n IH]; intros k Hl; [done|]. cbn [seq fmap list_fmap].
  destruct (drop k l) as [|x d] eqn:E; [apply (f_equal length) in E; rewrite length_drop in E; cbn in E; lia|]. cbn. f_equal.
  - replace x with (nth 0 (drop k l) 0) by (by rewrite E). rewrite nth_skipn. f_equal. lia.
  - rewrite <- IH by lia. replace (drop (S k) l) with (drop 1 (drop k l)) by (rewrite drop_drop; f_equal; lia). by rewrite E.
Qed.

Lemma step_range M h t : five_u32 h -> five_u32 (Fips.step M h t).
Proof.
  destruct h as [[[[a b] c] d] e]. intros (? & ? & ? & ? & ?). unfold Fips.step, five_u32. split_and!; try assumption.
  - apply Z.mod_pos_bound. lia.
  - apply rotl_range; [lia|assumption].
Qed.

Lemma turn_step M h t f K : five_u32 h -> (forall b c d, is_u32 b -> f b c d = Fips.f t b c d) -> K = Fips.K t ->
  turn f K (regs_of h) (nth t (Fips.W M) 0) = regs_of (Fips.step M h t).
Proof.
  destruct h as [[[[a b] c] d] e]. intros (? & ? & ? & ? & ?) Hf ->. unfold turn, Fips.step, regs_of. cbn [rA rB rC rD rE].
  rewrite !circular_shift_rotl, Hf, land_u32, (u32_id (u32 _)) by (assumption || lia || apply u32_range).
  f_equal. unfold wrap. f_equal. lia.
Qed.

Lemma rounds_ok M f K ts h : five_u32 h -> (forall t b c d, t ∈ ts -> is_u32 b -> f b c d = Fips.f t b c d) ->
  (forall t, t ∈ ts -> K = Fips.K t) ->
  foldl (turn f K) (regs_of h) ((fun t => nth t (Fips.W M) 0) <$> ts) = regs_of (foldl (Fips.step M) h ts) /\
  five_u32 (foldl (Fips.step M) h ts).
Proof.
  revert h. induction ts as [|t ts IH]; intros h Hh Hf HK; [done|]. cbn.
  rewrite turn_step; [|done|intros; apply Hf; [left|done]|apply HK; left].
  apply IH; [by apply step_range|intros; apply Hf; [by right|done]|intros; apply HK; by right].
Qed.

(** Twenty turns *)
Lemma twenty_ok M k f h : five_u32 h -> is_bytes M -> length M = 64%nat -> (k + 20 <= 80)%nat ->
  (forall t b c d, (k <= t < k + 20)%nat -> is_u32 b -> f b c d = Fips.f t b c d) ->
  (forall t, (k <= t < k + 20)%nat -> Fips.K k = Fips.K t) ->
  foldl (turn f (Fips.K k)) (regs_of h) (take 20 (drop k (W_of M))) = regs_of (foldl (Fips.step M) h (seq k 20)) /\
  five_u32 (foldl (Fips.step M) h (seq k 20)).
Proof.
  intros Hh Hb Hl Hk Hf HK. destruct (W_of_ok M Hb Hl) as (E & L & _). rewrite take_drop_nth by lia. rewrite E.
  apply rounds_ok; [done| |].
  - intros t b c d Ht. apply Hf. apply elem_of_seq in Ht. lia.
  - intros t Ht. apply HK. apply elem_of_seq in Ht. lia.
Qed.

Lemma steps_seq M h a b c : (a + b = c)%nat -> foldl (Fips.step M) (foldl (Fips.step M) h (seq 0 a)) (seq a b) = foldl (Fips.step M) h (seq 0 c).
Proof. intros <-. by rewrite seq_app, foldl_app. Qed.

Ltac by_twenties := intros t **; unfold Fips.f, Fips.K;
  destruct (Nat.ltb_spec t 20), (Nat.ltb_spec t 40), (Nat.ltb_spec t 60); try lia;
  reflexivity || (apply f0_Ch; assumption) || apply f2_Maj.

Lemma compress_block M h : five_u32 h -> is_bytes M -> length M = 64%nat ->
  compress (H_of h) M = H_of (Fips.block h M) /\ five_u32 (Fips.block h M).
Proof.
  intros Hh Hb Hl.
  destruct (twenty_ok M 0 f0 h) as [E1 R1]; [assumption..|lia|by_twenties|by_twenties|].
  destruct (twenty_ok M 20 f1 (foldl (Fips.step M) h (seq 0 20))) as [E2 R2]; [assumption..|lia|by_twenties|by_twenties|].
  destruct (twenty_ok M 40 f2 (foldl (Fips.step M) (foldl (Fips.step M) h (seq 0 20)) (seq 20 20))) as [E3 R3];
    [assumption..|lia|by_twenties|by_twenties|].
  destruct (twenty_ok M 60 f1 (foldl (Fips.step M) (foldl (Fips.step M) (foldl (Fips.step M) h (seq 0 20)) (seq 20 20)) (seq 40 20)))
    as [E4 R4]; [assumption..|lia|by_twenties|by_twenties|].
  rewrite !(steps_seq M h 20 20 40 eq_refl) in E2, E3, E4, R4. rewrite !(steps_seq M h 40 20 60 eq_refl) in E3, E4, R4.
  rewrite (steps_seq M h 60 20 80 eq_refl) in E4, R4.
  unfold compress, Fips.block. cbv zeta.
  assert (Regs (nth 0 (H_of h) 0) (nth 1 (H_of h) 0) (nth 2 (H_of h) 0) (nth 3 (H_of h) 0) (nth 4 (H_of h) 0) = regs_of h) as ->
    by (by destruct h as [[[[? ?] ?] ?] ?]).
  change (Fips.K 0) with 0x5A827999 in E1. change (Fips.K 20) with 0x6ED9EBA1 in E2.
  change (Fips.K 40) with 0x8F1BBCDC in E3. change (Fips.K 60) with 0xCA62C1D6 in E4.
  rewrite drop_0 in E1. rewrite E1, E2, E3, E4.
  destruct (foldl (Fips.step M) h (seq 0 80)) as [[[[a b] c] d] e]. destruct h as [[[[h0 h1] h2] h3] h4].
  split; [|unfold five_u32; split_and!; apply Z.mod_pos_bound; lia].
  cbn [H_of regs_of nth rA rB rC rD rE]. by rewrite !land_u32, !(u32_id (u32 _)) by apply u32_range.
Qed.

#[local] Opaque compress Fips.block.

(** ** Blocks *)

Definition hashed (n : nat) (m : bytes) : five :=
  foldl Fips.block (0x67452301, 0xefcdab89, 0x98badcfe, 0x10325476, 0xc3d2e1f0) (Fips.blocks n m).

Lemma blocks_add n k m : Fips.blocks (n + k) m = Fips.blocks n m ++ Fips.blocks k (drop (64 * n) m).
Proof.
  revert m. induction n as [|n IH]; intros m; [done|]. cbn [Fips.blocks Nat.add app]. f_equal. rewrite IH, drop_drop. do 3 f_equal. lia.
Qed.

Lemma blocks_app n m x : (64 * n <= length m)%nat -> Fips.blocks n (m ++ x) = Fips.blocks n m.
Proof.
  revert m. induction n as [|n IH]; intros m Hm; [done|]. cbn [Fips.blocks].
  rewrite take_app_le, drop_app_le by lia. f_equal. apply IH. rewrite length_drop. lia.
Qed.

Lemma hashed_S n m : hashed (S n) m = Fips.block (hashed n m) (take 64 (drop (64 * n) m)).
Proof. unfold hashed. replace (S n) with (n + 1)%nat by lia. by rewrite blocks_add, foldl_app. Qed.

Lemma block_ok n m h : five_u32 h -> (64 * S n <= length m)%nat -> is_bytes m ->
  compress (H_of h) (take 64 (drop (64 * n) m)) = H_of (Fips.block h (take 64 (drop (64 * n) m))) /\
  five_u32 (Fips.block h (take 64 (drop (64 * n) m))).
Proof.
  intros Hh Hl Hm. apply compress_block; [done|by apply Forall_take, Forall_drop|]. rewrite length_take, length_drop. lia.
Qed.

Lemma hashed_range n m : (64 * n <= length m)%nat -> is_bytes m -> five_u32 (hashed n m).
Proof.
  induction n as [|n IH]; intros Hl Hb; [cbn; unfold in_width; lia|].
  rewrite hashed_S. apply block_ok; [apply IH; [lia|done]|done|done].
Qed.

(** ** Input *)

(** The state once the bytes [m] have been given *)
Record fed (m : bytes) (s : sha1) : Prop := {
  fed_H : H s = H_of (hashed (length m / 64) m);
  fed_block : length (message_block s) = 64%nat;
  fed_index : message_block_index s = (length m mod 64)%nat;
  fed_bytes : take (message_block_index s) (message_block s) = drop (64 * (length m / 64)) m;
  fed_low : is_u32 (length_low s);
  fed_high : is_u32 (length_high s);
  fed_length : length_high s * 2 ^ 32 + length_low s = 8 * Z.of_nat (length m);
  fed_open : computed s = false /\ corrupted s = false
}.

Lemma fed_new raw : length raw = 64%nat -> fed [] (new_sha1 raw).
Proof. intros Hl. split; cbn; try done; unfold in_width; lia. Qed.

(** The block that follows the first [n] *)
Lemma process_next m n b : is_bytes m -> length b = 64%nat -> (64 * S n <= length m)%nat -> b = take 64 (drop (64 * n) m) ->
  compress (H_of (hashed n m)) b = H_of (hashed (S n) m).
Proof. intros Hm Hb Hl ->. rewrite hashed_S. apply block_ok; [apply hashed_range; [lia|exact Hm]|exact Hl|exact Hm]. Qed.

Lemma take_insert_end (l : bytes) i b : (i < length l)%nat -> take (S i) (<[i := b]> l) = take i l ++ [b].
Proof.
  intros Hi. rewrite (take_S_r _ _ b) by (by apply list_lookup_insert_eq). by rewrite take_insert_ge by lia.
Qed.

(** The bit count, in two words *)
Lemma count_ok low high n : is_u32 low -> is_u32 high -> high * 2 ^ 32 + low = 8 * n -> n + 1 < 2 ^ 61 ->
  let low' := u32 (low + 8) in
  let high' := if low' =? 0 then u32 (high + 1) else high in
  is_u32 low' /\ is_u32 high' /\ high' * 2 ^ 32 + low' = 8 * (n + 1) /\ (low' =? 0) && (high' =? 0) = false.
Proof.
  unfold in_width, wrap. change (2 ^ 32) with 4294967296. change (2 ^ 61) with 2305843009213693952. intros H1 H2 H3 H4. cbv zeta.
  destruct (decide (low + 8 = 4294967296)) as [He|Hne].
  - rewrite He. change (4294967296 `mod` 4294967296) with 0. change (0 =? 0) with true. cbv iota.
    rewrite (Z.mod_small (high + 1)) by lia. lia.
  - rewrite (Z.mod_small (low + 8)) by lia. assert ((low + 8 =? 0) = false) as -> by lia. split_and!; lia || done.
Qed.

Section fed_byte.
Context (m : bytes) (b : Z) (s : sha1) (Hm : is_bytes m) (Hb : is_u8 b) (F : fed m s).
Context (low high : Z) (R1 : is_u32 low) (R2 : is_u32 high)
  (R3 : high * 2 ^ 32 + low = 8 * Z.of_nat (length (m ++ [b]))).
Let n : nat := length m / 64.
Let i : nat := message_block_index s.

Lemma fed_split : (length m = 64 * n + i /\ i < 64)%nat.
Proof.
  unfold i. rewrite (fed_index m s F). split; [by apply Nat.div_mod_eq|by apply Nat.mod_upper_bound].
Qed.

Definition stored : sha1 := Sha1 (H s) low high (<[i := b]> (message_block s)) (S i) (computed s) (corrupted s).

Lemma stored_bytes : take (S i) (message_block stored) = drop (64 * n) (m ++ [b]).
Proof.
  pose proof fed_split. cbn [message_block stored]. rewrite take_insert_end by (rewrite (fed_block m s F); lia).
  rewrite drop_app_le by lia. f_equal. apply (fed_bytes m s F).
Qed.

Lemma hashed_stored : hashed n (m ++ [b]) = hashed n m.
Proof. pose proof fed_split. unfold hashed. by rewrite blocks_app by lia. Qed.

(** A byte that does not fill the block *)
Lemma fed_stored : (S i < 64)%nat -> fed (m ++ [b]) stored.
Proof.
  intros Hi. pose proof fed_split as [DM _].
  assert (length (m ++ [b]) = 64 * n + S i)%nat as EL by (rewrite length_app; cbn [length]; lia).
  assert (length (m ++ [b]) / 64 = n)%nat as EN by (symmetry; apply (Nat.div_unique _ _ _ (S i)); lia).
  split; cbn [H message_block message_block_index length_low length_high computed corrupted stored]; try done.
  - by rewrite EN, hashed_stored, (fed_H m s F).
  - rewrite length_insert. apply (fed_block m s F).
  - apply (Nat.mod_unique _ _ n); lia.
  - rewrite EN. apply stored_bytes.
  - apply (fed_open m s F).
Qed.

(** One that does *)
Lemma fed_processed : (S i = 64)%nat -> fed (m ++ [b]) (process_message_block stored).
Proof.
  intros Hi. pose proof fed_split as [DM _].
  assert (length (m ++ [b]) = S n * 64)%nat as EL by (rewrite length_app; cbn [length]; lia).
  assert (length (m ++ [b]) / 64 = S n)%nat as EN by (rewrite EL; by apply Nat.div_mul).
  split; unfold process_message_block; cbn [H message_block message_block_index length_low length_high computed corrupted stored]; try done.
  - rewrite EN, (fed_H m s F). fold n. rewrite <- hashed_stored. apply process_next.
    + apply Forall_app_2; [done|by apply Forall_singleton].
    + rewrite length_insert. apply (fed_block m s F).
    + lia.
    + rewrite <- stored_bytes, Hi. cbn [message_block stored]. symmetry. rewrite take_take, Nat.min_id. apply take_ge.
      by rewrite length_insert, (fed_block m s F).
  - rewrite length_insert. apply (fed_block m s F).
  - rewrite EL. symmetry. apply Nat.Div0.mod_mul.
  - rewrite EN, (Nat.mul_comm 64), <- EL. by rewrite drop_all.
  - apply (fed_open m s F).
Qed.
End fed_byte.

Lemma fed_step m b s : is_bytes m -> is_u8 b -> fed m s -> Z.of_nat (length m) + 1 < 2 ^ 61 ->
  exists s', input_byte b s = Ret s' /\ fed (m ++ [b]) s'.
Proof.
  intros Hm Hb F Hl. pose proof (fed_split m s F) as [_ Hi].
  assert (Z.land b 0xFF = b) as Lb by (change 0xFF with (Z.ones 8); rewrite Z.land_ones by done; by apply Z.mod_small).
  unfold input_byte, push. rewrite (proj2 (Nat.ltb_lt _ _) Hi), Lb.
  cbn [mbind res_bind length_low length_high message_block message_block_index computed corrupted H].
  rewrite !land_u32, !(u32_id (u32 _)) by apply u32_range.
  destruct (count_ok _ _ _ (fed_low m s F) (fed_high m s F) (fed_length m s F) Hl) as (R1 & R2 & R3 & ->).
  assert (Z.of_nat (length m) + 1 = Z.of_nat (length (m ++ [b]))) as EL by (rewrite length_app; cbn [length]; lia).
  rewrite EL in R3. eexists. split; [reflexivity|].
  destruct (S (message_block_index s) =? 64)%nat eqn:E.
  - apply fed_processed; [done..|]. by apply Nat.eqb_eq.
  - apply fed_stored; [done..|]. apply Nat.eqb_neq in E. lia.
Qed.

Lemma fed_input_loop a m s : is_bytes m -> is_bytes a -> fed m s -> Z.of_nat (length (m ++ a)) < 2 ^ 61 ->
  exists s', input_loop a (Z.of_nat (length a)) s = Ret s' /\ fed (m ++ a) s'.
Proof.
  revert m s. induction a as [|b a IH]; intros m s Hm Ha F Hl; [exists s; by rewrite app_nil_r|].
  apply Forall_cons in Ha as [Hb Ha]. rewrite length_app in Hl. cbn [length] in Hl.
  destruct (fed_step m b s Hm Hb F ltac:(lia)) as (s1 & E & F1). cbn [input_loop].
  rewrite (proj2 (fed_open m s F)). rewrite orb_false_r, (proj2 (Z.eqb_neq _ _)) by (cbn [length]; lia).
  rewrite E. cbn [mbind res_bind length]. replace (Z.of_nat (S (length a)) - 1) with (Z.of_nat (length a)) by lia.
  replace (m ++ b :: a) with ((m ++ [b]) ++ a) by (by rewrite <- app_assoc). apply IH; [|done|done|].
  - apply Forall_app_2; [done|by apply Forall_singleton].
  - rewrite !length_app. cbn [length]. lia.
Qed.

Lemma fed_inputs ms m s : is_bytes m -> Forall is_bytes ms -> fed m s -> Z.of_nat (length (m ++ concat ms)) < 2 ^ 61 ->
  exists s', inputs ms s = Ret s' /\ fed (m ++ concat ms) s'.
Proof.
  revert m s. induction ms as [|a ms IH]; intros m s Hm Hms F Hl; cbn [concat inputs]; [exists s; by rewrite app_nil_r|].
  apply Forall_cons in Hms as [Ha Hms]. cbn [concat] in Hl. rewrite app_assoc in Hl |- *. unfold input.
  destruct (Z.of_nat (length a) =? 0) eqn:E0.
  - assert (a = []) as -> by (apply nil_length_inv; lia). cbn [mbind res_bind]. rewrite app_nil_r in *. by apply IH.
  - destruct (fed_open m s F) as [-> ->]. cbn [orb].
    destruct (fed_input_loop a m s Hm Ha F) as (s1 & -> & F1); [rewrite length_app in Hl; lia|].
    cbn [mbind res_bind]. apply IH; [by apply Forall_app_2|done|done|done].
Qed.

(** ** Padding *)

Definition with_block (s : sha1) (h : list Z) (b : bytes) (i : nat) : sha1 :=
  Sha1 h (length_low s) (length_high s) b i (computed s) (corrupted s).

Lemma push_zeros_ok fuel n s : (message_block_index s <= n <= 64)%nat -> (n <= fuel + message_block_index s)%nat ->
  length (message_block s) = 64%nat -> exists b, length b = 64%nat /\
    take n b = take (message_block_index s) (message_block s) ++ replicate (n - message_block_index s) 0 /\
    push_zeros fuel n s = Ret (with_block s (H s) b n).
Proof.
  revert s. induction fuel as [|fuel IH]; intros s Hi Hf Hl; cbn [push_zeros].
  - rewrite (proj2 (Nat.ltb_ge _ _)) by lia. exists (message_block s). replace n with (message_block_index s) by lia.
    rewrite Nat.sub_diag, app_nil_r. by destruct s.
  - destruct (Nat.ltb_spec (message_block_index s) n) as [Hlt|Hge].
    + unfold push. rewrite (proj2 (Nat.ltb_lt _ _)) by lia. cbn [mbind res_bind].
      set (s1 := Sha1 _ _ _ _ _ _ _). destruct (IH s1) as (b & Lb & Tb & E); [cbn; lia|cbn; lia|cbn; by rewrite length_insert|].
      exists b. split; [done|]. split; [|done]. rewrite Tb. cbn [message_block message_block_index s1].
      rewrite take_insert_end by lia. rewrite <- app_assoc. f_equal.
      by replace (n - message_block_index s)%nat with (S (n - S (message_block_index s))) by lia.
    + exists (message_block s). replace n with (message_block_index s) by lia. rewrite Nat.sub_diag, app_nil_r. by destruct s.
Qed.

Lemma be4_shifts x : (fun i => Z.land (Z.shiftr x i) 0xFF) <$> [24; 16; 8; 0] = to_be 4 x.
Proof.
  unfold to_be. cbn [to_le rev app fmap list_fmap]. change 0xFF with (Z.ones 8).
  rewrite !Z.land_ones, !Z.shiftr_div_pow2 by lia. rewrite !Z.div_div by lia. by rewrite Z.div_1_r.
Qed.

Lemma length_bytes_be m s : fed m s -> length_bytes s ++ length_bytes_low s = to_be 8 (8 * Z.of_nat (length m)).
Proof.
  intros F. unfold length_bytes, length_bytes_low. rewrite !be4_shifts, <- (fed_length m s F).
  pose proof (fed_low m s F) as R. unfold in_width in R.
  unfold to_be. change 8%nat with (4 + 4)%nat. rewrite to_le_app, rev_app_distr. change (8 * Z.of_nat 4) with 32.
  rewrite (Z.add_comm (length_high s * 2 ^ 32)), Z.div_add, Z.div_small, Z.add_0_l by lia. f_equal. f_equal.
  rewrite <- (to_le_mod 4 (length_low s + _)). change (8 * Z.of_nat 4) with 32. rewrite Z.mod_add by lia.
  change 32 with (8 * Z.of_nat 4). by rewrite to_le_mod.
Qed.

Lemma pad_tail m n i : (length m = 64 * n + i)%nat -> (i < 64)%nat ->
  drop (64 * n) (Fips.pad m) = drop (64 * n) m ++ [0x80] ++ replicate (if (55 <? i)%nat then 119 - i else 55 - i) 0 ++
    to_be 8 (8 * Z.of_nat (length m)) /\
  (length (Fips.pad m) / 64 = if (55 <? i)%nat then S (S n) else S n)%nat.
Proof.
  intros Hm Hi. unfold Fips.pad.
  assert (Z.to_nat ((55 - Z.of_nat (length m)) `mod` 64) = if (55 <? i)%nat then 119 - i else 55 - i)%nat as ->.
  { rewrite Hm. destruct (Nat.ltb_spec 55 i).
    - replace ((55 - Z.of_nat (64 * n + i)) `mod` 64) with (119 - Z.of_nat i); [lia|].
      apply (Z.mod_unique _ _ (- Z.of_nat n - 1)); lia.
    - replace ((55 - Z.of_nat (64 * n + i)) `mod` 64) with (55 - Z.of_nat i); [lia|].
      apply (Z.mod_unique _ _ (- Z.of_nat n)); lia. }
  split; [by rewrite drop_app_le by lia|]. rewrite !length_app, length_replicate, length_to_be. cbn [length]. rewrite Hm.
  destruct (Nat.ltb_spec 55 i); symmetry; apply (Nat.div_unique _ _ _ 0); lia.
Qed.

Lemma pad_bytes m : is_bytes m -> is_bytes (Fips.pad m).
Proof.
  intros Hm. unfold Fips.pad. apply Forall_app_2; [done|]. apply Forall_app_2; [by apply Forall_singleton|].
  apply Forall_app_2; [by apply Forall_replicate|apply to_be_bytes].
Qed.

Lemma hashed_pad n m : (64 * n <= length m)%nat -> hashed n (Fips.pad m) = hashed n m.
Proof. intros Hl. unfold hashed, Fips.pad. by rewrite blocks_app by lia. Qed.

Lemma store_last (b l : bytes) : length b = 64%nat -> length l = 8%nat -> store 56 l b = take 56 b ++ l.
Proof. intros Hb Hl. unfold store. rewrite (drop_ge b) by lia. by rewrite app_nil_r. Qed.

Section padding.
Context (m : bytes) (s : sha1) (Hm : is_bytes m) (F : fed m s).
Let n : nat := length m / 64.
Let i : nat := message_block_index s.
Let L : bytes := to_be 8 (8 * Z.of_nat (length m)).
Let s1 : sha1 := with_block s (H s) (<[i := 0x80]> (message_block s)) (S i).

Lemma marked : take (S i) (message_block s1) = drop (64 * n) m ++ [0x80] /\ length (message_block s1) = 64%nat.
Proof.
  pose proof (fed_split m s F) as [_ Hi]. pose proof (fed_block m s F) as FB. cbn [message_block s1 with_block].
  rewrite take_insert_end, length_insert by (fold i in Hi; lia). split; [|done]. f_equal. apply (fed_bytes m s F).
Qed.

(** The length goes into the last eight bytes of the last block. *)
Lemma pad_last b k : length b = 64%nat -> (64 * S k = length (Fips.pad m))%nat ->
  take 56 b ++ L = drop (64 * k) (Fips.pad m) ->
  compress (H_of (hashed k (Fips.pad m))) (store 56 (length_bytes s ++ length_bytes_low s) b) =
  H_of (hashed (length (Fips.pad m) / 64) (Fips.pad m)).
Proof.
  intros Lb Lk E. rewrite (length_bytes_be m s F). rewrite <- Lk, (Nat.mul_comm 64), Nat.div_mul by done.
  assert (length L = 8%nat) as L8 by apply length_to_be.
  rewrite store_last by done. apply process_next; [by apply pad_bytes| |lia|].
  - rewrite length_app, length_take, length_to_be, Lb. done.
  - rewrite <- E. symmetry. apply take_ge. rewrite length_app, length_take, length_to_be, Lb. done.
Qed.

(** Room for the length in this block *)
Lemma pad_small : (i <= 55)%nat -> exists b, push_zeros 64 56 s1 = Ret (with_block s (H s) b 56) /\
  compress (H s) (store 56 (length_bytes s ++ length_bytes_low s) b) = H_of (hashed (length (Fips.pad m) / 64) (Fips.pad m)).
Proof.
  intros Hi. destruct marked as [T1 L1]. pose proof (fed_split m s F) as [DM _].
  destruct (push_zeros_ok 64 56 s1) as (b & Lb & Tb & E); [cbn; lia|cbn; lia|done|]. exists b. split; [exact E|].
  cbn [message_block_index s1 with_block] in Tb. change (H s1) with (H s) in Tb.
  destruct (pad_tail m n i DM ltac:(lia)) as [PT PL]. rewrite (proj2 (Nat.ltb_ge 55 i)) in PT, PL by lia.
  rewrite (fed_H m s F). fold n. rewrite <- (hashed_pad n) by (unfold n, i in *; lia). apply pad_last; [done| |].
  - apply (f_equal length) in PT. rewrite length_drop, !length_app, length_drop, length_replicate, length_to_be in PT. cbn [length] in PT. unfold n, i in *. lia.
  - rewrite PT, Tb, T1, <- !app_assoc. replace (56 - S i)%nat with (55 - i)%nat by lia. done.
Qed.

(** No room: the length goes into a block of its own. *)
Lemma pad_big : (55 < i)%nat -> exists b b2, push_zeros 64 64 s1 = Ret (with_block s (H s) b 64) /\
  push_zeros 64 56 (process_message_block (with_block s (H s) b 64)) = Ret (with_block s (compress (H s) b) b2 56) /\
  compress (compress (H s) b) (store 56 (length_bytes s ++ length_bytes_low s) b2) =
  H_of (hashed (length (Fips.pad m) / 64) (Fips.pad m)).
Proof.
  intros Hi. destruct marked as [T1 L1]. pose proof (fed_split m s F) as [DM Hi2]. fold i in Hi2.
  destruct (push_zeros_ok 64 64 s1) as (b & Lb & Tb & E); [cbn; lia|cbn; lia|done|].
  cbn [message_block_index s1 with_block] in Tb. rewrite take_ge in Tb by lia.
  destruct (push_zeros_ok 64 56 (process_message_block (with_block s (H s) b 64))) as (b2 & Lb2 & Tb2 & E2); [cbn; lia|cbn; lia|done|].
  cbn [message_block_index process_message_block] in Tb2. rewrite take_0 in Tb2. exists b, b2. split_and!; [exact E|exact E2|].
  destruct (pad_tail m n i DM ltac:(lia)) as [PT PL]. rewrite (proj2 (Nat.ltb_lt 55 i)) in PT, PL by lia.
  assert (length (Fips.pad m) = 64 * S (S n))%nat as LP.
  { apply (f_equal length) in PT. rewrite length_drop, !length_app, length_drop, length_replicate, length_to_be in PT. cbn [length] in PT. unfold n, i in *. lia. }
  assert (drop (64 * n) (Fips.pad m) = b ++ replicate 56 0 ++ L) as PT2.
  { rewrite PT, Tb, T1, <- !app_assoc. do 2 f_equal. rewrite app_assoc, <- replicate_add. do 2 f_equal. lia. }
  rewrite (fed_H m s F). fold n. rewrite <- (hashed_pad n) by (unfold n, i in *; lia).
  rewrite (process_next (Fips.pad m) n b); [|by apply pad_bytes|done|lia|by rewrite PT2, take_app_le, take_ge by lia].
  apply pad_last; [done|lia|]. replace (64 * S n)%nat with (64 * n + 64)%nat by lia. rewrite <- drop_drop, PT2, Tb2.
  by rewrite drop_app_ge, Lb, Nat.sub_diag by lia.
Qed.

Lemma pad_message_ok : exists s', pad_message s = Ret s' /\
  H s' = H_of (hashed (length (Fips.pad m) / 64) (Fips.pad m)) /\ corrupted s' = corrupted s.
Proof.
  pose proof (fed_split m s F) as [_ Hi]. unfold pad_message, push. rewrite (proj2 (Nat.ltb_lt _ 64) Hi). cbn [mbind res_bind].
  change (Sha1 _ _ _ (<[_:=0x80]> _) _ _ _) with s1.
  destruct (Nat.ltb_spec 55 (message_block_index s)) as [Hb|Hb].
  - destruct (pad_big Hb) as (b & b2 & -> & E2 & E3). cbn [mbind res_bind]. rewrite E2. eexists. split; [reflexivity|]. by split.
  - destruct (pad_small Hb) as (b & -> & E2). eexists. split; [reflexivity|]. by split.
Qed.
End padding.

Lemma digest_fed m s : is_bytes m -> fed m s -> exists s', digest s = Ret (Some (Fips.sha1 m), s') /\
  digest s' = Ret (Some (Fips.sha1 m), s').
Proof.
  intros Hm F. destruct (pad_message_ok m s Hm F) as (s2 & P & HH & HC). destruct (fed_open _ s F) as [O1 O2]. rewrite O2 in HC.
  assert (concat ((fun h => to_le 4 (htonl h)) <$> H s2) = Fips.sha1 m) as D.
  { rewrite HH. unfold Fips.sha1. cbv zeta. fold (hashed (length (Fips.pad m) / 64) (Fips.pad m)).
    destruct (hashed _ _) as [[[[a b] c] d] e]. cbn [H_of fmap list_fmap]. by rewrite !htonl_bytes. }
  eexists. unfold digest. rewrite O1, O2, P. cbn [mbind res_bind H]. rewrite D.
  split; [reflexivity|]. cbn [mbind res_bind H corrupted computed]. by rewrite HC, D.
Qed.

(** C30: [SHA1] computes the hash function of FIPS 180.  Whatever pieces a message
    of less than 2^61 bytes is given in, and whatever the memory of the object held
    before, the calls of [input] and [digest] stay within [message_block], and
    [digest] returns true and stores the hash of the message; called again, it
    stores the same. *)
Theorem sha1_is_fips raw ms : length raw = 64%nat -> Forall is_bytes ms -> Z.of_nat (length (concat ms)) < 2 ^ 61 ->
  exists s s', inputs ms (new_sha1 raw) = Ret s /\ digest s = Ret (Some (Fips.sha1 (concat ms)), s') /\
    digest s' = Ret (Some (Fips.sha1 (concat ms)), s').
Proof.
  intros Hr Hms Hl. destruct (fed_inputs ms [] (new_sha1 raw)) as (s & E & F); [done..|by apply fed_new|done|].
  destruct (digest_fed (concat ms) s) as (s' & D & D'); [by apply Forall_concat|done|]. by exists s, s'.
Qed.

(** The hash of [abc], given as [a] and [bc] *)
Lemma sha1_is_fips_witness : exists s s', inputs [[97]; [98; 99]] (new_sha1 (replicate 64 0)) = Ret s /\
  digest s = Ret (Some (to_be 20 0xa9993e364706816aba3e25717850c26c9cd0d89d), s').
Proof.
  assert (to_be 20 0xa9993e364706816aba3e25717850c26c9cd0d89d = Fips.sha1 (concat [[97]; [98; 99]])) as -> by (vm_compute; reflexivity).
  destruct (sha1_is_fips (replicate 64 0) [[97]; [98; 99]]) as (s & s' & E & D & _).
  - reflexivity.
  - repeat constructor; unfold in_width; lia.
  - cbn. lia.
  - exists s, s'. split; [exact E|exact D].
Defined.
