(* ===== verification/Cfg.v ===== *)
(** * Switch configurations (src/include/cfg.hh, src/lib/cfg.cc)

    A [Cfg] is a multimap from keys to values, with the SHA-1 of its text as its
    cookie.  Strings are lists of bytes, compared as [std::string] compares them;
    the multimap is its list of entries, in order. *)

From S2P Require Import Prelude Bytes Sha1.

Open Scope Z_scope.

(** ** [std::string], [std::set], [std::multimap] *)

(** [a < b] *)
Fixpoint str_ltb (a b : bytes) : bool :=
  match a, b with
  | _, [] => false
  | [], _ :: _ => true
  | x :: a, y :: b => (x <? y) || ((x =? y) && str_ltb a b)
  end.

(** [std::set::insert] *)
Fixpoint set_insert (x : bytes) (l : list bytes) : list bytes :=
  match l with
  | [] => [x]
  | y :: l' => if str_ltb x y then x :: l else if str_ltb y x then y :: set_insert x l' else l
  end.

(** [std::multimap::insert] puts an entry after those with the same key. *)
Fixpoint mm_insert (e : bytes * bytes) (l : list (bytes * bytes)) : list (bytes * bytes) :=
  match l with
  | [] => [e]
  | e' :: l' => if str_ltb e.1 e'.1 then e :: l else e' :: mm_insert e l'
  end.

Definition equal_range (key : bytes) (l : list (bytes * bytes)) : list (bytes * bytes) := filter (fun e => e.1 = key) l.

(** [find_first_of] and [find_first_not_of] with one character; [None] is [npos]. *)
Fixpoint find_from (p : Z -> bool) (s : bytes) (i : nat) : option nat :=
  match s with
  | [] => None
  | c :: s' =>
      match i with
      | S i => option_map S (find_from p s' i)
      | O => if p c then Some O else option_map S (find_from p s' O)
      end
  end.
Definition find_first_of (c : Z) (s : bytes) (pos : option nat) : option nat :=
  pos ≫= find_from (fun x => x =? c) s.
Definition find_first_not_of (c : Z) (s : bytes) (pos : option nat) : option nat :=
  pos ≫= find_from (fun x => negb (x =? c)) s.

(** ** State *)

Record cfg := Cfg { dirty : bool; entries : list (bytes * bytes); cfg_cookie : bytes }.

(** [Cfg()] leaves the cookie as it is in memory. *)
Definition new_cfg (raw : bytes) : cfg := Cfg false [] raw.

(** ** Text *)

Definition newline : Z := 10.
Definition equals : Z := 61.

(** [parse_entry] *)
Definition parse_entry (entry : bytes) : bytes * bytes :=
  match find_first_of equals entry (Some O) with
  | None => ([], [])
  | Some pos => (take pos entry, drop (pos + 1) entry)
  end.

(** [str.substr(last_pos, pos - last_pos)] *)
Definition substr_between (s : bytes) (last_pos pos : option nat) : res bytes :=
  match last_pos with
  | None => Throw 0
  | Some i => Ret (match pos with None => drop i s | Some j => take (j - i) (drop i s) end)
  end.

(** The loop of [Cfg::load]; it takes a line per turn. *)
Fixpoint load_loop (fuel : nat) (str : bytes) (last_pos pos : option nat) (l : list (bytes * bytes)) : res (list (bytes * bytes)) :=
  if is_none pos && is_none last_pos then Ret l
  else
    match fuel with
    | O => NoFuel
    | S fuel =>
        entry ← substr_between str last_pos pos;
        let key_value := parse_entry entry in
        let l := if is_nil key_value.1 then l else mm_insert key_value l in
        let last_pos := find_first_not_of newline str pos in
        load_loop fuel str last_pos (find_first_of newline str last_pos) l
    end.

Definition line (e : bytes * bytes) : bytes := e.1 ++ [equals] ++ e.2 ++ [newline].

(** [Cfg::to_string] *)
Definition to_string (c : cfg) : bytes :=
  concat (foldl (fun set e => set_insert (line e) set) [] (entries c)).

(** ** Cookies; [stack] is the memory a local [SHA1] is made in *)

(** The [int] a [size_t] is converted to *)
Definition int_of (n : Z) : Z := let r := u32 n in if r <? 2 ^ 31 then r else r - 2 ^ 32.

Definition update_cookie (stack : bytes) (c : cfg) : res cfg :=
  let str := to_string c in
  s ← input str (int_of (Z.of_nat (length str))) (new_sha1 stack);
  '(d, _) ← digest s;
  Ret (Cfg (dirty c) (entries c) (default (cfg_cookie c) d)).

(** [Cfg::get_cookie]: the cookie, and the object *)
Definition get_cookie (stack : bytes) (c : cfg) : res (bytes * cfg) :=
  c ← (if dirty c then update_cookie stack c else Ret c);
  Ret (cfg_cookie c, c).

(** [Cfg::set_dirty] *)
Definition set_dirty (stack : bytes) (v : bool) (c : cfg) : res cfg :=
  c ← update_cookie stack c;
  Ret (Cfg v (entries c) (cfg_cookie c)).

(** [Cfg::load] *)
Definition load (stack data : bytes) (c : cfg) : res cfg :=
  let last_pos := find_first_not_of newline data (Some O) in
  let pos := find_first_of newline data last_pos in
  l ← load_loop (S (length data)) data last_pos pos [];
  c ← update_cookie stack (Cfg (dirty c) l (cfg_cookie c));
  Ret (Cfg false (entries c) (cfg_cookie c)).

(** ** Entries *)

Definition has_key (key : bytes) (c : cfg) : bool := negb (is_nil (equal_range key (entries c))).

(** [Cfg::get_prefix_keys] *)
Fixpoint is_prefix (p s : bytes) : bool :=
  match p, s with
  | [], _ => true
  | x :: p, y :: s => (x =? y) && is_prefix p s
  | _ :: _, [] => false
  end.
Definition get_prefix_keys (prefix : bytes) (c : cfg) : gset bytes :=
  list_to_set (filter (fun k => is_prefix prefix k = true) (entries c).*1).

(** [Cfg::add_entry], [Cfg::del_entry] *)
Definition add_entry (key value : bytes) (c : cfg) : cfg :=
  Cfg true (mm_insert (key, value) (entries c)) (cfg_cookie c).
Definition is_entry (key value : bytes) (e : bytes * bytes) : bool := bool_decide (e = (key, value)).
Definition del_entry (key value : bytes) (c : cfg) : cfg :=
  if existsb (is_entry key value) (entries c)
  then Cfg true (remove_first (is_entry key value) (entries c)) (cfg_cookie c)
  else c.

(** [Cfg::get_nth_value] *)
Fixpoint nth_value (i idx : Z) (l : list (bytes * bytes)) : bytes :=
  match l with
  | [] => []
  | e :: l => if i =? idx then e.2 else nth_value (i + 1) idx l
  end.
Definition get_nth_value (idx : Z) (key : bytes) (c : cfg) : bytes := nth_value 0 idx (equal_range key (entries c)).

Definition true_string : bytes := [116; 114; 117; 101].
Definition false_string : bytes := [102; 97; 108; 115; 101].

Definition get_string : Z -> bytes -> cfg -> bytes := get_nth_value.
Definition set_string : bytes -> bytes -> cfg -> cfg := add_entry.
Definition get_bool (idx : Z) (key : bytes) (c : cfg) : bool := bool_decide (get_nth_value idx key c = true_string).
Definition set_bool (key : bytes) (value : bool) (c : cfg) : cfg := add_entry key (if value then true_string else false_string) c.

(** Conversions of Boost *)
Class Lexical_cast := {
  int_to_string : Z -> bytes;
  string_to_int : bytes -> option Z
}.

Definition get_int `{Lexical_cast} (idx : Z) (key : bytes) (c : cfg) : Z := default 0 (string_to_int (get_nth_value idx key c)).
Definition set_int `{Lexical_cast} (key : bytes) (value : Z) (c : cfg) : cfg := add_entry key (int_to_string value) c.
Definition get_vlan `{Lexical_cast} (idx : Z) (key : bytes) (c : cfg) : Z :=
  let vlan_id := default (-1) (string_to_int (get_nth_value idx key c)) in
  if (vlan_id <? 0) || (4095 <? vlan_id) then -1 else vlan_id.
Definition set_vlan `{Lexical_cast} (key : bytes) (value : Z) (c : cfg) : cfg :=
  if (value <? 0) || (4095 <? value) then c else add_entry key (int_to_string value) c.
Definition del_int_entry `{Lexical_cast} (key : bytes) (value : Z) (c : cfg) : cfg := del_entry key (int_to_string value) c.
