(* ===== verification/CfgProps.v ===== *)
(** * Configurations and their text (src/lib/cfg.cc)

    What [load] reads is the list of the non-empty lines; [to_string] writes the
    sorted set of the entries' lines; so that reading what was written gives the
    same entries, and the same cookie. *)

From S2P Require Import Prelude Bytes Sha1 Sha1Props Cfg.

Open Scope Z_scope.

(** ** The order of strings *)

Lemma str_ltb_irrefl a : str_ltb a a = false.
Proof. induction a as [|x a IH]; [done|]. cbn. by rewrite Z.ltb_irrefl, Z.eqb_refl, IH. Qed.

Lemma str_ltb_trans a b c : str_ltb a b = true -> str_ltb b c = true -> str_ltb a c = true.
Proof.
  revert b c. induction a as [|x a IH]; intros [|y b] [|z c]; cbn; try done.
  rewrite !orb_true_iff, !andb_true_iff, !Z.ltb_lt, !Z.eqb_eq. intros [H1|[-> H1]] [H2|[-> H2]]; [lia..|].
  right. split; [done|]. by eapply IH.
Qed.

Lemma str_ltb_total a b : str_ltb a b = false -> str_ltb b a = false -> a = b.
Proof.
  revert b. induction a as [|x a IH]; intros [|y b]; cbn; try done.
  rewrite !orb_false_iff, !andb_false_iff, !Z.ltb_ge, !Z.eqb_neq. intros [H1 H2] [H3 H4].
  assert (x = y) as -> by lia. f_equal. apply IH; naive_solver.
Qed.

Abbreviation str_lt := (fun a b => str_ltb a b = true).
Abbreviation str_sorted := (StronglySorted str_lt).

Lemma set_insert_elem x l y : y ∈ set_insert x l <-> y = x \/ y ∈ l.
Proof.
  induction l as [|z l IH]; cbn; [set_solver|]. destruct (str_ltb x z) eqn:E; [set_solver|].
  destruct (str_ltb z x) eqn:E2; [set_solver|]. rewrite (str_ltb_total _ _ E E2). set_solver.
Qed.

Lemma set_insert_sorted x l : str_sorted l -> str_sorted (set_insert x l).
Proof.
  induction 1 as [|z l Hl IH Hz]; cbn; [by repeat constructor|].
  destruct (str_ltb x z) eqn:E; [|destruct (str_ltb z x) eqn:E2].
  - constructor; [by constructor|]. constructor; [done|]. eapply Forall_impl; [exact Hz|]. intros y. by apply str_ltb_trans.
  - constructor; [done|]. rewrite Forall_forall in Hz |- *. intros y [->|Hy]%set_insert_elem; [done|by apply Hz].
  - by constructor.
Qed.

(** Sorted lists with the same elements are equal. *)
Lemma str_sorted_unique l1 l2 : str_sorted l1 -> str_sorted l2 -> (forall x, x ∈ l1 <-> x ∈ l2) -> l1 = l2.
Proof.
  intros S1. revert l2. induction S1 as [|x l1 S1 IH F1]; intros l2 S2 E; destruct S2 as [|y l2 S2 F2].
  - done.
  - specialize (E y). set_solver.
  - specialize (E x). set_solver.
  - rewrite Forall_forall in F1, F2.
    assert (x = y) as ->.
    { destruct (decide (x = y)) as [|Hne]; [done|]. exfalso.
      assert (str_ltb x y = true) as H1 by (apply F1; specialize (E y); set_solver).
      assert (str_ltb y x = true) as H2 by (apply F2; specialize (E x); set_solver).
      pose proof (str_ltb_trans _ _ _ H1 H2) as H3. by rewrite str_ltb_irrefl in H3. }
    f_equal. apply IH; [done|]. intros z. specialize (E z). rewrite !elem_of_cons in E. split; intros Hz.
    + assert (z <> y) by (intros ->; apply F1 in Hz; by rewrite str_ltb_irrefl in Hz). naive_solver.
    + assert (z <> y) by (intros ->; apply F2 in Hz; by rewrite str_ltb_irrefl in Hz). naive_solver.
Qed.

(** ** The set that [to_string] writes *)

Definition line_set (l : list (bytes * bytes)) : list bytes := foldl (fun set e => set_insert (line e) set) [] l.

Lemma line_set_elem l x : x ∈ line_set l <-> exists e, e ∈ l /\ x = line e.
Proof.
  unfold line_set. assert (forall s, x ∈ foldl (fun set e => set_insert (line e) set) s l <-> x ∈ s \/ exists e, e ∈ l /\ x = line e) as G.
  { induction l as [|e l IH]; intros s; cbn; [set_solver|]. rewrite IH, set_insert_elem. set_solver. }
  rewrite G. set_solver.
Qed.

Lemma line_set_sorted l : str_sorted (line_set l).
Proof.
  unfold line_set. assert (forall s, str_sorted s -> str_sorted (foldl (fun set e => set_insert (line e) set) s l)) as G.
  { induction l as [|e l IH]; intros s Hs; cbn; [done|]. by apply IH, set_insert_sorted. }
  apply G. constructor.
Qed.

(** ** Entries that survive the text *)

Definition wf_entry (e : bytes * bytes) : Prop :=
  (e.1 <> []) /\ (equals ∉ e.1) /\ (newline ∉ e.1) /\ (newline ∉ e.2).

Lemma find_from_absent p s : Forall (fun c => p c = false) s -> find_from p s 0 = None.
Proof. induction 1 as [|c s Hc _ IH]; [done|]. cbn. by rewrite Hc, IH. Qed.

Lemma find_from_hit p s c t : Forall (fun c => p c = false) s -> p c = true -> find_from p (s ++ c :: t) 0 = Some (length s).
Proof. intros Hs Hc. induction Hs as [|d s Hd _ IH]; cbn; [by rewrite Hc|]. by rewrite Hd, IH. Qed.

Lemma find_from_drop p s i : (i <= length s)%nat -> find_from p s i = (fun k => i + k)%nat <$> find_from p (drop i s) 0.
Proof.
  revert i. induction s as [|c s IH]; intros [|i] Hi; cbn in Hi; [done|lia| |].
  - cbn [drop]. by destruct (find_from p (c :: s) 0).
  - cbn. rewrite IH by lia. by destruct (find_from p (drop i s) 0).
Qed.

Lemma not_char c s : c ∉ s -> Forall (fun x => (x =? c) = false) s.
Proof. intros Hs. apply Forall_forall. intros x Hx. apply Z.eqb_neq. set_solver. Qed.

Lemma parse_line k v : equals ∉ k -> parse_entry (k ++ [equals] ++ v) = (k, v).
Proof.
  intros Hk. unfold parse_entry, find_first_of. cbn [mbind option_bind].
  rewrite (find_from_hit _ k equals v); [|by apply not_char|done]. cbn [app].
  rewrite take_app_length. replace (length k + 1)%nat with (S (length k)) by lia. by rewrite drop_app_ge, Nat.sub_succ_l, Nat.sub_diag by lia.
Qed.

(** ** What [load] reads *)

(** The non-empty lines of a text; [cur] is the beginning of the current one. *)
Fixpoint lines (s cur : bytes) : list bytes :=
  match s with
  | [] => if is_nil cur then [] else [cur]
  | c :: s => if c =? newline then (if is_nil cur then lines s [] else cur :: lines s []) else lines s (cur ++ [c])
  end.

Definition add_line (l : list (bytes * bytes)) (w : bytes) : list (bytes * bytes) :=
  if is_nil (parse_entry w).1 then l else mm_insert (parse_entry w) l.

Lemma lines_newlines k s : lines (replicate k newline ++ s) [] = lines s [].
Proof. induction k as [|k IH]; [done|]. exact IH. Qed.

Definition at_end (s : bytes) : Prop := match s with [] => True | c :: _ => c = newline end.

Lemma lines_word w s cur : newline ∉ w -> at_end s -> cur ++ w <> [] -> lines (w ++ s) cur = (cur ++ w) :: lines s [].
Proof.
  revert cur. induction w as [|c w IH]; intros cur Hw Hs Hc; cbn [app].
  - rewrite app_nil_r in *. destruct cur; [done|]. destruct s as [|d s]; [done|]. cbn in Hs. by subst d.
  - cbn [lines]. apply not_elem_of_cons in Hw as [Hc1 Hw]. rewrite (proj2 (Z.eqb_neq c newline)) by congruence.
    rewrite IH; [by rewrite <- app_assoc|done|done|]. destruct cur; done.
Qed.

(** A text is newlines, a word and the rest. *)
Lemma text_cases s : (exists k, s = replicate k newline) \/
  exists k w r, s = replicate k newline ++ w ++ r /\ (w <> []) /\ (newline ∉ w) /\ at_end r.
Proof.
  induction s as [|c s IH]; [left; by exists O|]. destruct (decide (c = newline)) as [->|Hc].
  - destruct IH as [[k ->]|(k & w & r & -> & H)]; [left; by exists (S k)|right; exists (S k), w, r; done].
  - right. exists O. destruct IH as [[[|k] ->]|([|k] & w & r & -> & Hw & Hn & Hr)].
    + exists [c], []. split_and!; [done|done|set_solver|done].
    + exists [c], (replicate (S k) newline). split_and!; [done|done|set_solver|done].
    + exists (c :: w), r. split_and!; [done|done|set_solver|done].
    + exists [c], (replicate (S k) newline ++ w ++ r). split_and!; [done|done|set_solver|done].
Qed.

Lemma find_not_newline k w r : w <> [] -> newline ∉ w ->
  find_from (fun x => negb (x =? newline)) (replicate k newline ++ w ++ r) 0 = Some k.
Proof.
  intros Hw Hn. destruct w as [|c w]; [done|]. cbn [app]. rewrite find_from_hit, length_replicate; [done| |].
  - apply Forall_replicate. done.
  - apply not_elem_of_cons in Hn as [Hn _]. by rewrite (proj2 (Z.eqb_neq c newline)).
Qed.

Lemma load_loop_ok fuel s i l : (i <= length s)%nat -> (length s - i < fuel)%nat ->
  let last_pos := find_first_not_of newline s (Some i) in
  load_loop fuel s last_pos (find_first_of newline s last_pos) l = Ret (foldl add_line l (lines (drop i s) [])).
Proof.
  revert i l. induction fuel as [|fuel IH]; intros i l Hi Hf; [lia|]. cbv zeta.
  assert (find_first_not_of newline s (Some i) = (fun k => i + k)%nat <$> find_from (fun x => negb (x =? newline)) (drop i s) 0) as ->
    by (by apply find_from_drop).
  assert (length (drop i s) = (length s - i)%nat) as Ld by apply length_drop.
  destruct (text_cases (drop i s)) as [[k E]|(k & w & r & E & Hw & Hn & Hr)]; rewrite E in Ld |- *.
  - rewrite find_from_absent by (apply Forall_replicate; done). cbn [fmap option_fmap option_map].
    replace (lines (replicate k newline) []) with (@nil bytes); [done|].
    rewrite <- (app_nil_r (replicate k newline)). by rewrite lines_newlines.
  - rewrite find_not_newline, lines_newlines, lines_word by done. cbn [fmap option_fmap option_map foldl app].
    rewrite !length_app, length_replicate in Ld.
    assert (length w <> O) as Lw by (destruct w; done).
    assert (drop (i + k) s = w ++ r) as Ek by (rewrite <- drop_drop, E, drop_app_ge, length_replicate, Nat.sub_diag by (rewrite length_replicate; lia); done).
    assert (find_first_of newline s (Some (i + k)%nat) = (fun j => i + k + j)%nat <$> find_from (fun x => x =? newline) (w ++ r) 0) as ->
      by (rewrite <- Ek; apply find_from_drop; lia).
    cbn [load_loop is_none].
    destruct r as [|c r].
    + rewrite app_nil_r in *. rewrite find_from_absent by (by apply not_char). cbn [fmap option_fmap option_map substr_between andb].
      cbn [mbind res_bind]. rewrite Ek. cbn [find_first_not_of mbind option_bind find_first_of].
      fold (add_line l w). by destruct fuel.
    + cbn in Hr. subst c. rewrite find_from_hit; [|by apply not_char|done].
      cbn [fmap option_fmap option_map substr_between andb mbind res_bind].
      replace (i + k + length w - (i + k))%nat with (length w) by lia. rewrite Ek, take_app_length. fold (add_line l w).
      cbn [length] in Ld. rewrite IH by lia. do 2 f_equal.
      replace (i + k + length w)%nat with (length w + (i + k))%nat by lia. f_equal.
      rewrite (Nat.add_comm (length w)), <- drop_drop, Ek, drop_app_length. done.
Qed.

(** ** Cookies *)

Lemma update_cookie_ok stack c : length stack = 64%nat -> is_bytes (to_string c) -> Z.of_nat (length (to_string c)) < 2 ^ 31 ->
  update_cookie stack c = Ret (Cfg (dirty c) (entries c) (Fips.sha1 (to_string c))).
Proof.
  intros Hs Hb Hl. unfold update_cookie. set (str := to_string c) in *.
  assert (int_of (Z.of_nat (length str)) = Z.of_nat (length str)) as ->.
  { unfold int_of. rewrite wrap_small by (change (2 ^ 31) with 2147483648 in Hl; change (2 ^ 32) with 4294967296; lia).
    by rewrite (proj2 (Z.ltb_lt _ _)). }
  destruct (fed_inputs [str] [] (new_sha1 stack)) as (s & E & F); [done|by apply Forall_singleton|by apply fed_new| |].
  { cbn [app concat]. rewrite app_nil_r. change (2 ^ 31) with 2147483648 in Hl. change (2 ^ 61) with 2305843009213693952. lia. }
  cbn [inputs] in E. destruct (input str (Z.of_nat (length str)) (new_sha1 stack)) as [s1| | |]; try done. injection E as ->.
  cbn [app concat] in F. rewrite app_nil_r in F. destruct (digest_fed str s Hb F) as (s' & D & _).
  cbn [mbind res_bind]. by rewrite D.
Qed.

(** ** Round trip *)

Lemma mm_insert_perm e l : mm_insert e l ≡ₚ e :: l.
Proof.
  induction l as [|d l IH]; cbn; [done|]. destruct (str_ltb e.1 d.1); [done|]. rewrite IH. constructor.
Qed.

Lemma line_inj e1 e2 : wf_entry e1 -> wf_entry e2 -> line e1 = line e2 -> e1 = e2.
Proof.
  destruct e1 as [k1 v1], e2 as [k2 v2]. intros (_ & H1 & _) (_ & H2 & _). unfold line. cbn [fst snd] in *. rewrite !app_assoc.
  intros [E _]%app_inj_tail. rewrite <- (parse_line k1 v1), <- (parse_line k2 v2), !app_assoc by done. by rewrite E.
Qed.

Lemma wf_body e : wf_entry e -> newline ∉ e.1 ++ [equals] ++ e.2.
Proof. intros (_ & _ & H1 & H2). rewrite !elem_of_app, list_elem_of_singleton. intros [?|[?|?]]; done. Qed.

Lemma lines_written es : Forall wf_entry es -> lines (concat (line <$> es)) [] = (fun e => e.1 ++ [equals] ++ e.2) <$> es.
Proof.
  induction 1 as [|e es He _ IH]; [done|]. cbn [fmap list_fmap concat]. unfold line at 1.
  replace ((e.1 ++ [equals] ++ e.2 ++ [newline]) ++ concat (line <$> es)) with
    ((e.1 ++ [equals] ++ e.2) ++ newline :: concat (line <$> es)) by (by rewrite <- !app_assoc).
  rewrite lines_word; [|by apply wf_body|done|by destruct e.1]. cbn [lines app]. rewrite Z.eqb_refl. cbn [is_nil]. by rewrite IH.
Qed.

Lemma add_lines es l : Forall wf_entry es ->
  foldl add_line l ((fun e => e.1 ++ [equals] ++ e.2) <$> es) ≡ₚ rev es ++ l.
Proof.
  intros He. revert l. induction He as [|e es (Hn & Hq & _) _ IH]; intros l; [done|]. cbn [fmap list_fmap foldl rev].
  rewrite IH. unfold add_line. rewrite parse_line by done. cbn [fst]. destruct e as [[|x k] v]; [done|]. cbn [is_nil fst].
  rewrite mm_insert_perm. by rewrite <- app_assoc.
Qed.

Lemma line_set_entries l : exists es, line_set l = line <$> es /\ (forall e, e ∈ es -> e ∈ l).
Proof.
  assert (forall ls : list bytes, (forall x, x ∈ ls -> exists e, e ∈ l /\ x = line e) -> exists es, ls = line <$> es /\ (forall e, e ∈ es -> e ∈ l)) as G.
  { induction ls as [|x ls IH]; intros Hx; [exists []; set_solver|].
    destruct (Hx x) as (e & He & ->); [set_solver|]. destruct IH as (es & -> & Hes); [set_solver|]. exists (e :: es). set_solver. }
  apply G. intros x. apply line_set_elem.
Qed.

Lemma sorted_NoDup l : str_sorted l -> NoDup l.
Proof.
  induction 1 as [|x l _ IH Hx]; constructor; [|done]. intros Hin. rewrite Forall_forall in Hx.
  apply Hx in Hin. by rewrite str_ltb_irrefl in Hin.
Qed.

Definition text_bytes (c : cfg) : Prop := Forall (fun e => is_bytes e.1 /\ is_bytes e.2) (entries c).

Lemma to_string_bytes c : text_bytes c -> is_bytes (to_string c).
Proof.
  intros Hc. change (is_bytes (concat (line_set (entries c)))). apply Forall_concat, Forall_forall.
  intros x (e & He & ->)%line_set_elem. unfold text_bytes in Hc. rewrite Forall_forall in Hc. destruct (Hc e He) as [H1 H2].
  unfold line. repeat apply Forall_app_2; [done|by apply Forall_singleton|done|by apply Forall_singleton].
Qed.


(** Two values of key [k] and one of key [b], written and read *)
Definition sample : cfg := add_entry [107] [98] (add_entry [98] [121] (add_entry [107] [122] (new_cfg []))).


(** ** Values of a key *)

Lemma nth_value_lookup l i idx : i <= idx -> nth_value i idx l = default [] ((l !! Z.to_nat (idx - i)) ≫= fun e => Some e.2).
Proof.
  revert i. induction l as [|e l IH]; intros i Hi; [done|]. cbn [nth_value]. destruct (i =? idx) eqn:E.
  - replace (Z.to_nat (idx - i)) with O by lia. done.
  - rewrite IH by lia. replace (Z.to_nat (idx - i)) with (S (Z.to_nat (idx - (i + 1)))) by lia. done.
Qed.

Definition key_sorted (l : list (bytes * bytes)) : Prop := StronglySorted (fun e1 e2 => str_ltb e2.1 e1.1 = false) l.

Lemma equal_range_insert k v l k' : key_sorted l ->
  equal_range k' (mm_insert (k, v) l) = equal_range k' l ++ (if decide (k = k') then [(k, v)] else []).
Proof.
  unfold equal_range. induction 1 as [|d l Hl IH Hd].
  - cbn [mm_insert]. rewrite filter_cons, filter_nil. cbn [fst]. by destruct (decide (k = k')).
  - cbn [mm_insert fst]. destruct (str_ltb k d.1) eqn:E.
    + assert (k = k' -> filter (fun e : bytes * bytes => e.1 = k') (d :: l) = []) as N.
      { intros <-. apply filter_none. intros e He Hk. rewrite Forall_forall in Hd.
        apply elem_of_cons in He as [->|He]; [rewrite Hk, str_ltb_irrefl in E; done|].
        specialize (Hd e He). rewrite Hk in Hd. congruence. }
      rewrite (filter_cons _ (k, v)). cbn [fst]. destruct (decide (k = k')) as [Hk|]; [by rewrite (N Hk)|by rewrite app_nil_r].
    + rewrite !filter_cons, IH. by destruct (decide (d.1 = k')).
Qed.

Lemma mm_insert_sorted e l : key_sorted l -> key_sorted (mm_insert e l).
Proof.
  unfold key_sorted. induction 1 as [|d l Hl IH Hd]; cbn [mm_insert]; [by repeat constructor|]. destruct (str_ltb e.1 d.1) eqn:E.
  - constructor; [by constructor|]. assert (str_ltb d.1 e.1 = false) as E2.
    { destruct (str_ltb d.1 e.1) eqn:E2; [|done]. pose proof (str_ltb_trans _ _ _ E E2) as Q. by rewrite str_ltb_irrefl in Q. }
    constructor; [done|]. eapply Forall_impl; [exact Hd|]. intros x Hx. cbn in *.
    destruct (str_ltb x.1 e.1) eqn:E3; [|done]. by rewrite (str_ltb_trans _ _ _ E3 E) in Hx.
  - constructor; [done|]. rewrite mm_insert_perm. by constructor.
Qed.

(** A new value comes after the values its key had; other keys keep theirs. *)
Theorem added_value_is_last k v c : key_sorted (entries c) ->
  let n := Z.of_nat (length (equal_range k (entries c))) in
  key_sorted (entries (add_entry k v c)) /\
  get_nth_value n k (add_entry k v c) = v /\
  (forall idx k', 0 <= idx -> k' <> k \/ idx < n -> get_nth_value idx k' (add_entry k v c) = get_nth_value idx k' c).
Proof.
  intros Hs n. split; [by apply mm_insert_sorted|]. unfold get_nth_value. cbn [entries add_entry]. split.
  - rewrite nth_value_lookup, equal_range_insert, decide_True by (done || lia).
    replace (Z.to_nat (n - 0)) with (length (equal_range k (entries c))) by lia. by rewrite lookup_app_r, Nat.sub_diag by lia.
  - intros idx k' Hi Hc. rewrite !nth_value_lookup, equal_range_insert by (done || lia). destruct (decide (k = k')) as [->|Hk]; [|by rewrite app_nil_r].
    rewrite lookup_app_l by (unfold n in *; destruct Hc; [done|lia]). done.
Qed.

(** The text orders the values of a key, so that reading it may change which
    value is first. *)
Theorem text_reorders_values : exists c', load (replicate 64 0) (to_string sample) (new_cfg []) = Ret c' /\
  get_string 0 [107] sample = [122] /\ get_string 0 [107] c' = [98].
Proof.
  destruct (load (replicate 64 0) (to_string sample) (new_cfg [])) as [c'| | |] eqn:E.
  - exists c'. split; [done|]. split; [vm_compute; reflexivity|].
    assert (match load (replicate 64 0) (to_string sample) (new_cfg []) with Ret c => get_string 0 [107] c | _ => [] end = [98]) as G
      by (vm_compute; reflexivity).
    by rewrite E in G.
  - vm_compute in E. discriminate.
  - vm_compute in E. discriminate.
  - vm_compute in E. discriminate.
Qed.
