(* ===== verification/Ofmp.v ===== *)
(** * The management protocol (openflow-mgmt.h, ofmp-*.hh, openflow.cc, switch-mgr.cc)

    Management messages are vendor messages.  The requests that
    [Openflow_connection] sends, the events made of the replies, and
    [Switch_mgr::send_ofmp_msg], which cuts a message that is too long for
    OpenFlow into pieces.  A message in memory is the list of its bytes; reading
    past its end is [Aborted]. *)

From S2P Require Import Prelude Bytes Ethernetaddr OfpWire OfpCore OpenflowStream OpenflowConnection Cfg.

Open Scope Z_scope.

Definition NX_VENDOR_ID : Z := 0x00002320.
Definition NXT_MGMT : Z := 8.

Definition OFMPT_CAPABILITY_REQUEST : Z := 0.
Definition OFMPT_CAPABILITY_REPLY : Z := 1.
Definition OFMPT_RESOURCES_REQUEST : Z := 2.
Definition OFMPT_RESOURCES_UPDATE : Z := 3.
Definition OFMPT_CONFIG_REQUEST : Z := 4.
Definition OFMPT_CONFIG_UPDATE : Z := 5.
Definition OFMPT_CONFIG_UPDATE_ACK : Z := 6.
Definition OFMPT_ERROR : Z := 7.
Definition OFMPT_EXTENDED_DATA : Z := 8.

Definition OFMPCAF_SIMPLE : Z := 0.
Definition OFMPCOF_SIMPLE : Z := 0.
Definition OFMPCUAF_SUCCESS : Z := 1.
Definition OFMPEDF_MORE_DATA : Z := 1.

(** The sizes of the structures *)
Definition sizeof_nicira_header : nat := 16.
Definition sizeof_ofmp_header : nat := 20.
Definition sizeof_ofmp_capability_reply : nat := 32.
Definition sizeof_ofmp_resources_update : nat := 20.
Definition sizeof_ofmp_config_update : nat := 44.
Definition sizeof_ofmp_config_update_ack : nat := 48.
Definition sizeof_ofmp_error_msg : nat := 24.
Definition sizeof_ofmp_extended_data : nat := 24.

(** The fields of the headers, as they are in memory *)
Definition h_xid (m : bytes) : Z := get32 4 m.
Definition h_vendor (m : bytes) : Z := get32 8 m.
Definition h_subtype (m : bytes) : Z := get32 12 m.
Definition h_type (m : bytes) : Z := get16 16 m.

(** ** Requests *)

(** The headers all of them fill in, after [memset] *)
Definition ofmp_request (size : nat) (type xid : Z) : bytes :=
  let m := replicate size 0 in
  let m := put8 1 OFPT_VENDOR m in
  let m := put8 0 OFP_VERSION m in
  let m := put16 2 (htons (Z.of_nat size)) m in
  let m := put32 4 xid m in
  let m := put32 8 (htonl NX_VENDOR_ID) m in
  let m := put32 12 (htonl NXT_MGMT) m in
  put16 16 (htons type) m.
Definition capability_request_msg (xid : Z) : bytes :=
  put32 20 (htonl OFMPCAF_SIMPLE) (ofmp_request 24 OFMPT_CAPABILITY_REQUEST xid).
Definition resources_request_msg (xid : Z) : bytes := ofmp_request 20 OFMPT_RESOURCES_REQUEST xid.
Definition config_request_msg (xid : Z) : bytes :=
  put32 20 (htonl OFMPCOF_SIMPLE) (ofmp_request 24 OFMPT_CONFIG_REQUEST xid).

(** ** Resources *)

Definition OFMPTSR_END : Z := 0.
Definition OFMPTSR_DP : Z := 1.
Definition OFMPTSR_DP_UUID : Z := 2.
Definition OFMPTSR_MGMT_UUID : Z := 3.
Definition OFMPTSR_VIF : Z := 4.
Definition OFMP_UUID_LEN : nat := 36.
Definition OFP_MAX_PORT_NAME_LEN : nat := 16.

Record Vif_details := Vif { vif_uuid : bytes; vif_mac : ethernetaddr; vm_uuid : bytes; net_uuid : bytes }.

Record resources := Resources {
  port_name_map : gmap Z bytes;
  mgmt_uuid_map : gmap Z bytes;
  net_uuid_map : gmap Z (list bytes);
  vif_details_map : gmap bytes Vif_details
}.
Definition no_resources : resources := Resources ∅ ∅ ∅ ∅.

(** [std::map::insert] keeps an entry that is there. *)
Definition map_insert {K V : Type} `{Countable K} (k : K) (v : V) (m : gmap K V) : gmap K V :=
  match m !! k with None => <[k := v]> m | Some _ => m end.

Definition add_port_name (id : Z) (s : bytes) (r : resources) : resources :=
  Resources (map_insert id s (port_name_map r)) (mgmt_uuid_map r) (net_uuid_map r) (vif_details_map r).
Definition add_mgmt_uuid (id : Z) (s : bytes) (r : resources) : resources :=
  Resources (port_name_map r) (map_insert id s (mgmt_uuid_map r)) (net_uuid_map r) (vif_details_map r).
Definition add_net_uuids (id : Z) (l : list bytes) (r : resources) : resources :=
  Resources (port_name_map r) (mgmt_uuid_map r) (map_insert id l (net_uuid_map r)) (vif_details_map r).
Definition add_vif (name : bytes) (v : Vif_details) (r : resources) : resources :=
  Resources (port_name_map r) (mgmt_uuid_map r) (net_uuid_map r) (map_insert name v (vif_details_map r)).

(** [n] bytes at an offset *)
Definition read (off n : nat) (m : bytes) : res bytes :=
  if (off + n <=? length m)%nat then Ret (Bytes.load off n m) else Aborted.
Definition read_id (off : nat) (m : bytes) : res Z := b ← read off 8 m; Ret (ntohll (of_le b)).

(** [std::string((const char* ) ptr)] *)
Definition read_string (off : nat) (m : bytes) : res bytes :=
  match read_cstr (drop off m) with Some s => Ret s | None => Aborted end.

(** The loop over the UUIDs of an [OFMPTSR_DP_UUID] *)
Fixpoint read_uuids (n off : nat) (m : bytes) : res (list bytes) :=
  match n with
  | O => Ret []
  | S n => u ← read off OFMP_UUID_LEN m; us ← read_uuids n (off + OFMP_UUID_LEN) m; Ret (u :: us)
  end.

(** The cases of the [switch]; [None] is a return from the constructor.  The name
    of a datapath is terminated in place. *)
Definition tlv_dp (len : nat) (m : bytes) (r : resources) : res (option (bytes * resources)) :=
  if negb (len =? 32)%nat then Ret None
  else
    _ ← read 0 32 m;
    let m := put8 31 0 m in
    id ← read_id 8 m;
    name ← read_string 16 m;
    Ret (Some (m, add_port_name id name r)).
Definition tlv_dp_uuid (len : nat) (m : bytes) (r : resources) : res (option (bytes * resources)) :=
  if (len <? 16)%nat then Ret None
  else if negb ((len - 16) mod OFMP_UUID_LEN =? 0)%nat then Ret None
  else
    networks ← read_uuids ((len - 16) / OFMP_UUID_LEN) 16 m;
    id ← read_id 8 m;
    Ret (Some (m, add_net_uuids id networks r)).
Definition tlv_mgmt_uuid (len : nat) (m : bytes) (r : resources) : res (option (bytes * resources)) :=
  if negb (len =? 56)%nat then Ret None
  else
    id ← read_id 8 m;
    uuid ← read 16 OFMP_UUID_LEN m;
    Ret (Some (m, add_mgmt_uuid id uuid r)).
Definition tlv_vif (len : nat) (m : bytes) (r : resources) : res (option (bytes * resources)) :=
  if negb (len =? 136)%nat then Ret None
  else
    vif ← read 20 OFMP_UUID_LEN m;
    mac ← read_id 128 m;
    vm ← read 56 OFMP_UUID_LEN m;
    net ← read 92 OFMP_UUID_LEN m;
    name ← read_string 4 m;
    Ret (Some (m, add_vif name (Vif vif (of_id mac) vm net) r)).

Definition tlv_body (type : Z) (len : nat) (m : bytes) (r : resources) : res (option (bytes * resources)) :=
  if type =? OFMPTSR_DP then tlv_dp len m r
  else if type =? OFMPTSR_DP_UUID then tlv_dp_uuid len m r
  else if type =? OFMPTSR_MGMT_UUID then tlv_mgmt_uuid len m r
  else if type =? OFMPTSR_VIF then tlv_vif len m r
  else Ret (Some (m, r)).

(** The loop over the TLVs; [m] is the memory from [ptr] on.  The comparison of
    [data_len] with a size is unsigned. *)
Fixpoint tlv_loop (fuel : nat) (data_len : Z) (m : bytes) (r : resources) : res resources :=
  if u64 data_len <? 4 then Ret r
  else
    match fuel with
    | O => NoFuel
    | S fuel =>
        h ← read 0 4 m;
        let len := Z.to_nat (ntohs (get16 2 h)) in
        if get16 0 h =? htons OFMPTSR_END then Ret r
        else
          o ← tlv_body (ntohs (get16 0 h)) len m r;
          match o with
          | None => Ret r
          | Some (m, r) => tlv_loop fuel (data_len - Z.of_nat len) (drop len m) r
          end
    end.

(** [Ofmp_resources_update_event]: what it holds besides the id *)
Definition resources_update_event (fuel : nat) (m : bytes) : res resources :=
  let data_len := Z.of_nat (length m) - Z.of_nat sizeof_ofmp_resources_update in
  if data_len <=? 0 then Ret no_resources
  else tlv_loop fuel data_len (drop sizeof_ofmp_resources_update m) no_resources.

(** ** Configurations *)

(** [Ofmp_config_update_event]: the format, the cookie and the configuration;
    [raw] is the memory the event is made in. *)
Record config_update := Config_update { cu_format : Z; cu_cookie : bytes; new_config : cfg }.
Definition config_update_event (stack : bytes) (raw : Z * bytes * bytes) (m : bytes) : res config_update :=
  let '(format, cookie, cfg_raw) := raw in
  let e := Config_update format cookie (new_cfg cfg_raw) in
  if Z.of_nat (length m) - Z.of_nat sizeof_ofmp_config_update <? 0 then Ret e
  else
    let format := ntohl (get32 20 m) in
    if negb (format =? OFMPCOF_SIMPLE) then Ret (Config_update format cookie (new_config e))
    else
      c ← Cfg.load stack (drop sizeof_ofmp_config_update m) (new_config e);
      Ret (Config_update format (Bytes.load 24 20 m) c).

(** [Ofmp_config_update_ack_event] *)
Record config_update_ack := Config_update_ack { success : bool; ack_format : Z; ack_flags : Z; ack_xid : Z; ack_cookie : bytes }.
Definition config_update_ack_event (m : bytes) : config_update_ack :=
  let flags := ntohl (get32 24 m) in
  Config_update_ack (negb (Z.land flags OFMPCUAF_SUCCESS =? 0)) (ntohl (get32 20 m)) flags (ntohl (get32 4 m)) (Bytes.load 28 20 m).

(** ** Sending long messages *)

Section send.
Context {S : Type} (send_openflow_command : bytes -> S -> Z * S).

(** A piece; [header] is the message with its headers. *)
Definition piece (header : bytes) (data : bytes) (more : bool) : bytes :=
  let size := (sizeof_ofmp_extended_data + length data)%nat in
  let b := replicate (Z.to_nat 65536) 0 in
  let b := put8 1 OFPT_VENDOR b in
  let b := put8 0 OFP_VERSION b in
  let b := put16 2 (htons (Z.of_nat size)) b in
  let b := put32 4 (h_xid header) b in
  let b := put32 8 (htonl NX_VENDOR_ID) b in
  let b := put32 12 (htonl NXT_MGMT) b in
  let b := put16 16 (htons OFMPT_EXTENDED_DATA) b in
  let b := put16 20 (h_type header) b in
  let b := if more then put8 22 (Z.lor (get8 22 b) OFMPEDF_MORE_DATA) b else b in
  take size (store 24 data b).

(** Ten attempts; the error, if any *)
Fixpoint send_attempts (n : nat) (m : bytes) (s : S) : option Z * S :=
  match n with
  | O => (None, s)
  | Datatypes.S n =>
      let '(retval, s) := send_openflow_command m s in
      if retval =? EAGAIN then send_attempts n m s
      else if retval =? 0 then (None, s)
      else (Some retval, s)
  end.

Definition MAX_PIECE : nat := Z.to_nat 65511.

(** A piece is at least one byte, so that [remain] turns are enough. *)
Fixpoint send_pieces (fuel : nat) (header rest : bytes) (s : S) : res (Z * S) :=
  match rest with
  | [] => Ret (0, s)
  | _ =>
      match fuel with
      | O => NoFuel
      | Datatypes.S fuel =>
          let new_len := Nat.min MAX_PIECE (length rest) in
          let '(error, s) := send_attempts 10 (piece header (take new_len rest) (new_len <? length rest)%nat) s in
          match error with
          | Some e => Ret (e, s)
          | None => send_pieces fuel header (drop new_len rest) s
          end
      end
  end.

(** [Switch_mgr::send_ofmp_msg] *)
Definition send_ofmp_msg (m : bytes) (s : S) : res (Z * S) :=
  if Z.of_nat (length m) <? 65535 then Ret (send_openflow_command m s)
  else
    let m := put16 2 0 m in
    send_pieces (length m) m m s.
End send.
