(* ===== verification/OfmpProps.v ===== *)
(** * Resources in management messages (ofmp-resources-update.hh)

    The event made of a resources update holds the resources it describes; a TLV
    with a wrong length makes the constructor hang or read past the message. *)

From S2P Require Import Prelude Bytes Ethernetaddr OfpWire OpenflowStream Ofmp.

Open Scope Z_scope.

(** ** The format, from openflow-mgmt.h *)

Inductive resource :=
| Dp (id : Z) (name : bytes)
| Dp_uuid (id : Z) (uuids : list bytes)
| Mgmt_uuid (id : Z) (uuid : bytes)
| Vif_resource (name vif vm net : bytes) (mac : Z)
| Other (type : Z) (data : bytes).

Definition tlv (type : Z) (data : bytes) : bytes := to_be 2 type ++ to_be 2 (4 + Z.of_nat (length data)) ++ data.
Definition data_of (r : resource) : bytes :=
  match r with
  | Dp id name => replicate 4 0 ++ to_be 8 id ++ fixed_string 16 name
  | Dp_uuid id uuids => replicate 4 0 ++ to_be 8 id ++ concat uuids
  | Mgmt_uuid id uuid => replicate 4 0 ++ to_be 8 id ++ uuid ++ replicate 4 0
  | Vif_resource name vif vm net mac => fixed_string 16 name ++ vif ++ vm ++ net ++ to_be 8 mac
  | Other _ data => data
  end.
Definition type_of (r : resource) : Z :=
  match r with
  | Dp _ _ => OFMPTSR_DP | Dp_uuid _ _ => OFMPTSR_DP_UUID | Mgmt_uuid _ _ => OFMPTSR_MGMT_UUID
  | Vif_resource _ _ _ _ _ => OFMPTSR_VIF | Other type _ => type
  end.
Definition encode (r : resource) : bytes := tlv (type_of r) (data_of r).

Definition is_uuid (u : bytes) : Prop := length u = OFMP_UUID_LEN.
Definition resource_ok (r : resource) : Prop :=
  match r with
  | Dp id name => is_u64 id /\ is_name 16 name
  | Dp_uuid id uuids => is_u64 id /\ Forall is_uuid uuids /\ Z.of_nat (length (concat uuids)) < 65520
  | Mgmt_uuid id uuid => is_u64 id /\ is_uuid uuid
  | Vif_resource name vif vm net mac => is_name 16 name /\ is_uuid vif /\ is_uuid vm /\ is_uuid net /\ is_u64 mac
  | Other type data => OFMPTSR_VIF < type < 2 ^ 16 /\ Z.of_nat (length data) < 65532
  end.

Definition add_resource (m : resources) (r : resource) : resources :=
  match r with
  | Dp id name => add_port_name id name m
  | Dp_uuid id uuids => add_net_uuids id uuids m
  | Mgmt_uuid id uuid => add_mgmt_uuid id uuid m
  | Vif_resource name vif vm net mac => add_vif name (Vif vif (of_id mac) vm net) m
  | Other _ _ => m
  end.

(** ** Reading *)

Lemma load_app (a b c : bytes) off n : length a = off -> length b = n -> Bytes.load off n (a ++ b ++ c) = b.
Proof. intros <- <-. unfold Bytes.load. by rewrite drop_app_length, take_app_length. Qed.

Lemma read_app (a b c : bytes) off n : length a = off -> length b = n -> read off n (a ++ b ++ c) = Ret b.
Proof.
  intros Ha Hb. unfold read. rewrite (proj2 (Nat.leb_le _ _)) by (rewrite !length_app; lia). by rewrite load_app.
Qed.

Lemma ntohll_to_be id : is_u64 id -> ntohll (of_le (to_be 8 id)) = id.
Proof. intros Hid. rewrite <- htonll_bytes, of_le_to_le_id by apply htonll_range. by apply ntohll_htonll. Qed.

Lemma read_id_app (a c : bytes) off id : length a = off -> is_u64 id -> read_id off (a ++ to_be 8 id ++ c) = Ret id.
Proof. intros Ha Hid. unfold read_id. rewrite read_app by (done || apply length_to_be). cbn [mbind res_bind]. by rewrite ntohll_to_be. Qed.

Lemma fixed_string_name n s : is_name (S n) s -> fixed_string (S n) s = s ++ 0 :: replicate (n - length s) 0.
Proof.
  intros [Hl Hs]. unfold fixed_string. rewrite until_nul_id by done. rewrite take_ge by lia.
  by replace (S n - length s)%nat with (S (n - length s)) by lia.
Qed.

Lemma read_string_app (a c : bytes) off n s : length a = off -> is_name (S n) s ->
  read_string off (a ++ fixed_string (S n) s ++ c) = Ret s.
Proof.
  intros <- Hs. unfold read_string. rewrite drop_app_length, fixed_string_name by done. rewrite <- app_assoc. cbn [app].
  rewrite read_cstr_app; [done|apply Hs].
Qed.

Lemma read_uuids_app us (a c : bytes) off : length a = off -> Forall is_uuid us ->
  read_uuids (length us) off (a ++ concat us ++ c) = Ret us.
Proof.
  intros Ha Hus. revert a off Ha. induction Hus as [|u us Hu _ IH]; intros a off Ha; [done|]. cbn [length concat read_uuids].
  rewrite <- app_assoc, read_app by done. cbn [mbind res_bind].
  rewrite (app_assoc a u), IH; [done|]. rewrite length_app. by rewrite Ha, Hu.
Qed.

Lemma length_uuids us : Forall is_uuid us -> length (concat us) = (length us * OFMP_UUID_LEN)%nat.
Proof. induction 1 as [|u us Hu _ IH]; [done|]. cbn [concat length]. rewrite length_app, Hu, IH. lia. Qed.

(** The name of a datapath is already terminated. *)
Lemma terminate (a c : bytes) s : length a = 16%nat -> is_name 16 s -> put8 31 0 (a ++ fixed_string 16 s ++ c) = a ++ fixed_string 16 s ++ c.
Proof.
  intros Ha [Hl Hs]. assert (exists p, fixed_string 16 s = p ++ [0] /\ length p = 15%nat) as (p & -> & Lp).
  { rewrite fixed_string_name by done. exists (s ++ replicate (15 - length s) 0). rewrite <- app_assoc. split.
    - f_equal. by rewrite <- replicate_S_end.
    - rewrite length_app, length_replicate. lia. }
  unfold put8, store. rewrite <- !app_assoc. rewrite (app_assoc a p). cbn [length app].
  rewrite take_app_le, take_ge by (rewrite length_app; lia). f_equal. f_equal.
  rewrite drop_app_ge by (rewrite length_app; lia). rewrite length_app. by replace (31 + 1 - (length a + length p))%nat with 1%nat by lia.
Qed.

(** ** One TLV *)

Lemma type_of_u16 r : resource_ok r -> is_u16 (type_of r) /\ type_of r <> OFMPTSR_END.
Proof. destruct r; cbn; unfold in_width, OFMPTSR_END, OFMPTSR_DP, OFMPTSR_DP_UUID, OFMPTSR_MGMT_UUID, OFMPTSR_VIF; lia. Qed.

Lemma data_of_short r : resource_ok r -> 4 + Z.of_nat (length (data_of r)) < 2 ^ 16.
Proof.
  assert (forall s, length (fixed_string 16 s) = 16%nat) as L by apply length_fixed_string.
  destruct r; unfold resource_ok, is_uuid, data_of; intros Hr; rewrite ?length_app, ?length_replicate, ?length_to_be, ?L;
    change (2 ^ 16) with 65536; unfold OFMP_UUID_LEN in *; lia.
Qed.

Section cases.
Context (h rest : bytes) (Lh : length h = 4%nat) (m : resources).

Lemma tlv_dp_ok id name : is_u64 id -> is_name 16 name ->
  let M := h ++ replicate 4 0 ++ to_be 8 id ++ fixed_string 16 name ++ rest in
  tlv_dp 32 M m = Ret (Some (M, add_port_name id name m)).
Proof.
  intros Hid Hn M. assert (length (fixed_string 16 name) = 16%nat) as LF by apply length_fixed_string.
  unfold tlv_dp, read. cbn [Nat.eqb negb].
  rewrite (proj2 (Nat.leb_le _ _)) by (unfold M; rewrite !length_app, length_replicate, length_to_be, LF; lia).
  cbn [mbind res_bind]. assert (put8 31 0 M = M) as ->.
  { unfold M. rewrite 2 app_assoc. apply terminate; [|done]. rewrite !length_app, length_replicate, length_to_be. lia. }
  assert (read_id 8 M = Ret id) as -> by (unfold M; rewrite app_assoc; apply read_id_app; [rewrite length_app, length_replicate; lia|done]).
  cbn [mbind res_bind]. assert (read_string 16 M = Ret name) as ->; [|done].
  unfold M. rewrite 2 app_assoc. apply read_string_app; [rewrite !length_app, length_replicate, length_to_be; lia|done].
Qed.

Lemma tlv_dp_uuid_ok id uuids : is_u64 id -> Forall is_uuid uuids ->
  let M := h ++ replicate 4 0 ++ to_be 8 id ++ concat uuids ++ rest in
  tlv_dp_uuid (16 + length (concat uuids)) M m = Ret (Some (M, add_net_uuids id uuids m)).
Proof.
  intros Hid Hu M. unfold tlv_dp_uuid. rewrite length_uuids, (proj2 (Nat.ltb_ge _ _)) by (done || lia).
  rewrite Nat.add_comm, Nat.add_sub, Nat.Div0.mod_mul, Nat.div_mul by done. cbn [Nat.eqb negb].
  assert (read_uuids (length uuids) 16 M = Ret uuids) as ->
    by (unfold M; rewrite 2 app_assoc; apply read_uuids_app; [rewrite !length_app, length_replicate, length_to_be; lia|done]).
  cbn [mbind res_bind]. assert (read_id 8 M = Ret id) as ->; [|done].
  unfold M. rewrite app_assoc. apply read_id_app; [rewrite length_app, length_replicate; lia|done].
Qed.

Lemma tlv_mgmt_uuid_ok id uuid : is_u64 id -> is_uuid uuid ->
  let M := h ++ replicate 4 0 ++ to_be 8 id ++ uuid ++ rest in
  tlv_mgmt_uuid 56 M m = Ret (Some (M, add_mgmt_uuid id uuid m)).
Proof.
  intros Hid Hu M. unfold tlv_mgmt_uuid. cbn [Nat.eqb negb].
  assert (read_id 8 M = Ret id) as -> by (unfold M; rewrite app_assoc; apply read_id_app; [rewrite length_app, length_replicate; lia|done]).
  cbn [mbind res_bind]. assert (read 16 OFMP_UUID_LEN M = Ret uuid) as ->; [|done].
  unfold M. rewrite 2 app_assoc. apply read_app; [rewrite !length_app, length_replicate, length_to_be; lia|done].
Qed.

Lemma tlv_vif_ok name vif vm net mac : is_name 16 name -> is_uuid vif -> is_uuid vm -> is_uuid net -> is_u64 mac ->
  let M := h ++ fixed_string 16 name ++ vif ++ vm ++ net ++ to_be 8 mac ++ rest in
  tlv_vif 136 M m = Ret (Some (M, add_vif name (Vif vif (of_id mac) vm net) m)).
Proof.
  intros Hn H1 H2 H3 Hm M. assert (length (fixed_string 16 name) = 16%nat) as LF by apply length_fixed_string.
  unfold is_uuid, OFMP_UUID_LEN in *. unfold tlv_vif, OFMP_UUID_LEN. cbn [Nat.eqb negb].
  assert (read 20 36 M = Ret vif) as -> by (unfold M; rewrite app_assoc; apply read_app; [rewrite !length_app; lia|done]).
  assert (read_id 128 M = Ret mac) as -> by (unfold M; rewrite 4 app_assoc; apply read_id_app; [rewrite !length_app; lia|done]).
  assert (read 56 36 M = Ret vm) as -> by (unfold M; rewrite 2 app_assoc; apply read_app; [rewrite !length_app; lia|done]).
  assert (read 92 36 M = Ret net) as -> by (unfold M; rewrite 3 app_assoc; apply read_app; [rewrite !length_app; lia|done]).
  cbn [mbind res_bind]. assert (read_string 4 M = Ret name) as ->; [|done]. by apply read_string_app.
Qed.
End cases.

Lemma tlv_body_ok r rest m : resource_ok r ->
  tlv_body (type_of r) (4 + length (data_of r)) (encode r ++ rest) m = Ret (Some (encode r ++ rest, add_resource m r)).
Proof.
  intros Hr. unfold encode, tlv. rewrite <- !app_assoc, app_assoc. set (h := to_be 2 (type_of r) ++ _).
  assert (length h = 4%nat) as Lh by (unfold h; by rewrite length_app, !length_to_be). clearbody h.
  assert (forall s, length (fixed_string 16 s) = 16%nat) as LF by apply length_fixed_string.
  destruct r as [id name|id uuids|id uuid|name vif vm net mac|type data]; cbn [resource_ok] in Hr; unfold tlv_body; cbn [type_of data_of add_resource].
  - rewrite !length_app, length_replicate, length_to_be, LF, <- !app_assoc. exact (tlv_dp_ok h rest Lh m id name (proj1 Hr) (proj2 Hr)).
  - rewrite !length_app, length_replicate, length_to_be, <- !app_assoc. exact (tlv_dp_uuid_ok h rest Lh m id uuids (proj1 Hr) (proj1 (proj2 Hr))).
  - rewrite !length_app, !length_replicate, length_to_be, (proj2 Hr), <- !app_assoc.
    exact (tlv_mgmt_uuid_ok h (replicate 4 0 ++ rest) Lh m id uuid (proj1 Hr) (proj2 Hr)).
  - destruct Hr as (Hn & H1 & H2 & H3 & Hm). rewrite !length_app, length_to_be, LF, H1, H2, H3, <- !app_assoc. 
    exact (tlv_vif_ok h rest Lh m name vif vm net mac Hn H1 H2 H3 Hm).
  - destruct Hr as [Ht _]. unfold OFMPTSR_VIF, OFMPTSR_MGMT_UUID, OFMPTSR_DP_UUID, OFMPTSR_DP in *.
    by rewrite !(proj2 (Z.eqb_neq type _)) by lia.
Qed.

(** ** The list *)

Lemma get16_be n a : is_u16 n -> length a = 2%nat -> forall c, get16 2 (a ++ to_be 2 n ++ c) = htons n /\ get16 0 (to_be 2 n ++ c) = htons n.
Proof.
  intros Hn La c. pose proof (length_to_be 2 n) as Ln. unfold get16. split.
  - rewrite (load_app a (to_be 2 n) c 2 2 La Ln), <- htons_bytes. apply of_le_to_le_id, htons_range.
  - change (to_be 2 n ++ c) with ([] ++ to_be 2 n ++ c). rewrite (load_app [] (to_be 2 n) c 0 2 eq_refl Ln), <- htons_bytes. apply of_le_to_le_id, htons_range.
Qed.

Lemma tlv_loop_step fuel r rest d m : resource_ok r -> 4 <= d < 2 ^ 31 ->
  tlv_loop (S fuel) d (encode r ++ rest) m = tlv_loop fuel (d - Z.of_nat (length (encode r))) rest (add_resource m r).
Proof.
  intros Hr Hd. pose proof (type_of_u16 r Hr) as [Ht Hend]. pose proof (data_of_short r Hr) as Hl. cbn [tlv_loop].
  rewrite wrap_small by (change (2 ^ 31) with 2147483648 in Hd; change (2 ^ 64) with 18446744073709551616; lia).
  rewrite (proj2 (Z.ltb_ge d 4)) by lia. pose proof (tlv_body_ok r rest m Hr) as B.
  assert (length (encode r) = 4 + length (data_of r))%nat as LE by (unfold encode, tlv; rewrite !length_app, !length_to_be; lia).
  set (h := to_be 2 (type_of r) ++ to_be 2 (4 + Z.of_nat (length (data_of r)))).
  assert (read 0 4 (encode r ++ rest) = Ret h) as ->.
  { unfold encode, tlv. rewrite <- !app_assoc, app_assoc. fold h.
    rewrite <- (app_nil_l (h ++ _)). apply read_app; [done|]. unfold h. by rewrite length_app, !length_to_be. }
  cbn [mbind res_bind]. destruct (get16_be (type_of r) [0; 0] Ht eq_refl (to_be 2 (4 + Z.of_nat (length (data_of r))))) as [_ G0]. fold h in G0.
  destruct (get16_be (4 + Z.of_nat (length (data_of r))) (to_be 2 (type_of r)) ltac:(unfold in_width; lia) ltac:(apply length_to_be) []) as [G2 _].
  rewrite app_nil_r in G2. fold h in G2. rewrite G0, G2, !ntohs_htons by (done || unfold in_width; lia).
  assert ((htons (type_of r) =? htons OFMPTSR_END) = false) as ->.
  { apply Z.eqb_neq. intros E. apply (f_equal ntohs) in E. rewrite !ntohs_htons in E by (done || (unfold in_width, OFMPTSR_END; lia)). done. }
  replace (Z.to_nat (4 + Z.of_nat (length (data_of r)))) with (4 + length (data_of r))%nat by lia. rewrite B. cbn [mbind res_bind].
  rewrite LE. rewrite <- LE, drop_app_length. done.
Qed.

Definition end_tlv : bytes := [0; 0; 0; 4].

Lemma tlv_loop_ok rs fuel m : Forall resource_ok rs -> (length rs < fuel)%nat ->
  Z.of_nat (length (concat (encode <$> rs) ++ end_tlv)) < 2 ^ 31 ->
  tlv_loop fuel (Z.of_nat (length (concat (encode <$> rs) ++ end_tlv))) (concat (encode <$> rs) ++ end_tlv) m = Ret (foldl add_resource m rs).
Proof.
  intros Hr. revert fuel m. induction Hr as [|r rs Hr _ IH]; intros fuel m Hf Hl; destruct fuel as [|fuel]; try (cbn in Hf; lia); [done|].
  cbn [fmap list_fmap concat foldl] in *. rewrite <- app_assoc in *. cbn [length] in Hf. rewrite tlv_loop_step; [|done|].
  - rewrite (length_app (encode r)) in *.
    replace (Z.of_nat (length (encode r) + length (concat (encode <$> rs) ++ end_tlv)) - Z.of_nat (length (encode r)))
      with (Z.of_nat (length (concat (encode <$> rs) ++ end_tlv))) by lia. apply IH; lia.
  - assert (4 <= length (encode r))%nat by (unfold encode, tlv; rewrite !length_app, !length_to_be; lia).
    rewrite (length_app (encode r)) in *. lia.
Qed.

Lemma encoded_longer rs : (length rs <= length (concat (encode <$> rs)))%nat.
Proof.
  induction rs as [|r rs IH]; [done|]. cbn [fmap list_fmap concat length]. rewrite length_app.
  assert (4 <= length (encode r))%nat by (unfold encode, tlv; rewrite !length_app, !length_to_be; lia). lia.
Qed.

(** The event made of a resources update holds what the message describes.
    For any list of datapaths, network UUIDs, management UUIDs, interfaces and
    TLVs of unknown types, in the format of openflow-mgmt.h, the constructor ends
    and its maps hold exactly the described entries, the first description of an
    id winning; as many turns as the message has bytes are enough. *)
Theorem resources_parsed header rs fuel : length header = 20%nat -> Forall resource_ok rs ->
  let m := header ++ concat (encode <$> rs) ++ end_tlv in
  Z.of_nat (length m) < 2 ^ 31 -> (length m <= fuel)%nat ->
  resources_update_event fuel m = Ret (foldl add_resource no_resources rs).
Proof.
  intros Hh Hr m Hl Hf. unfold resources_update_event, sizeof_ofmp_resources_update, m in *. rewrite length_app, Hh in *.
  pose proof (encoded_longer rs). rewrite (length_app (concat _)) in Hf. cbn [length end_tlv] in Hf.
  rewrite (proj2 (Z.leb_gt _ _)) by (rewrite length_app; cbn [length end_tlv]; lia). rewrite drop_app_ge, Hh, Nat.sub_diag, drop_0 by lia.
  replace (Z.of_nat (20 + length (concat (encode <$> rs) ++ end_tlv)) - Z.of_nat 20) with
    (Z.of_nat (length (concat (encode <$> rs) ++ end_tlv))) by lia.
  apply tlv_loop_ok; [done|lia|lia].
Qed.

(** A datapath and its networks *)
Lemma resources_parsed_witness :
  let rs := [Dp 5 [98; 114]; Dp_uuid 5 [replicate 36 65; replicate 36 66]; Other 9 [1; 2; 3]] in
  let m := replicate 20 0 ++ concat (encode <$> rs) ++ end_tlv in
  resources_update_event (length m) m = Ret (foldl add_resource no_resources rs).
Proof.
  cbv zeta. apply (resources_parsed (replicate 20 0) [Dp 5 [98; 114]; Dp_uuid 5 [replicate 36 65; replicate 36 66]; Other 9 [1; 2; 3]]).
  - reflexivity.
  - repeat constructor; cbn; unfold in_width; try lia; try discriminate.
  - vm_compute. reflexivity.
  - apply le_n.
Defined.

(** A TLV of an unknown type and length zero: no bound on the turns is enough. *)
Theorem empty_tlv_hangs header fuel : length header = 20%nat -> resources_update_event fuel (header ++ [0; 9; 0; 0]) = NoFuel.
Proof.
  intros Hh. unfold resources_update_event, sizeof_ofmp_resources_update. rewrite length_app, drop_app_ge, Hh, Nat.sub_diag by lia.
  cbn [length drop]. change (Z.of_nat (20 + 4) - Z.of_nat 20) with 4. cbn [Z.leb Z.compare].
  induction fuel as [|fuel IH]; [done|]. cbn [tlv_loop]. exact IH.
Qed.

(** A TLV longer than the message: the number of bytes left is negative, compares
    as a large one, and the next TLV is read past the message. *)
Theorem long_tlv_overreads header n fuel : length header = 20%nat -> 4 < n < 2 ^ 16 ->
  resources_update_event (S (S fuel)) (header ++ [0; 9] ++ to_be 2 n) = Aborted.
Proof.
  intros Hh Hn. unfold resources_update_event, sizeof_ofmp_resources_update. rewrite length_app, drop_app_ge, Hh, Nat.sub_diag, drop_0 by lia.
  assert (length ([0; 9] ++ to_be 2 n) = 4%nat) as L by (by rewrite length_app, length_to_be). rewrite L.
  change (Z.of_nat (20 + 4) - Z.of_nat 20) with 4. cbn [Z.leb Z.compare]. cbn [tlv_loop].
  change (u64 4 <? 4) with false. cbv iota.
  assert (read 0 4 ([0; 9] ++ to_be 2 n) = Ret ([0; 9] ++ to_be 2 n)) as ->
    by (unfold read; rewrite L; cbn [Nat.add Nat.leb]; unfold Bytes.load; rewrite drop_0, take_ge by lia; done).
  cbn [mbind res_bind]. destruct (get16_be n [0; 9] ltac:(unfold in_width; lia) eq_refl []) as [G _]. rewrite app_nil_r in G.
  rewrite G, ntohs_htons by (unfold in_width; lia). change (get16 0 ([0; 9] ++ to_be 2 n)) with (htons 9).
  cbn [tlv_body]. change (htons 9 =? htons OFMPTSR_END) with false. cbv iota. change (ntohs (htons 9)) with 9.
  cbn [tlv_body Z.eqb OFMPTSR_DP OFMPTSR_DP_UUID OFMPTSR_MGMT_UUID OFMPTSR_VIF Pos.eqb mbind res_bind].
  assert (4 - Z.of_nat (Z.to_nat n) < 0 /\ 4 - Z.of_nat (Z.to_nat n) >= - 2 ^ 16) as N by lia.
  assert ((u64 (4 - Z.of_nat (Z.to_nat n)) <? 4) = false) as ->.
  { apply Z.ltb_ge. unfold wrap. rewrite <- (Z.mod_unique _ (2 ^ 64) (-1) (2 ^ 64 + (4 - Z.of_nat (Z.to_nat n)))); lia. }
  unfold read. rewrite drop_ge by lia. done.
Qed.
