(* ===== verification/OpenflowEvent.v ===== *)
(** * From messages to events (src/lib/openflow-event.cc, src/include/*.hh)

    [openflow_packet_to_event] makes an event of a received message.  A message is
    the list of its bytes; [Aborted] is a failed assertion or a read past its end,
    [Throw] a failed allocation. *)

From S2P Require Import Prelude Bytes Buffer Ethernetaddr Flow OfpWire OfpCore OpenflowStream OpenflowConnection OpenflowSend Cfg Ofmp.

Open Scope Z_scope.

Definition OFPT_BARRIER_REPLY : Z := 19.
Definition OFPT_QUEUE_GET_CONFIG_REPLY : Z := 21.
Definition OFPST_DESC : Z := 0.
Definition OFPST_FLOW : Z := 1.
Definition OFPST_AGGREGATE : Z := 2.
Definition OFPST_TABLE : Z := 3.
Definition OFPST_PORT : Z := 4.
Definition OFPST_QUEUE : Z := 5.
Definition OFPSF_REPLY_MORE : Z := 1.
Definition OFPQT_MIN_RATE : Z := 1.
Definition sizeof_ofp_stats_reply : Z := 12.

(** ** What events hold *)

Record port := Port {
  port_no : Z; port_name : bytes; speed : Z; config : Z; port_state : Z;
  curr : Z; advertised : Z; supported : Z; peer : Z; hw_addr : bytes }.
Record table_stats := Table_stats {
  table_id : Z; table_name : bytes; max_entries : Z; active_count : Z; lookup_count : Z; matched_count : Z }.
Record port_stats := Port_stats { ps_port_no : Z; ps_counters : list Z }.
Record queue_stats := Queue_stats { qs_port_no : Z; qs_queue_id : Z; tx_bytes : Z; tx_packets : Z; tx_errors : Z }.
Record flow_stats := Flow_stats { fs_raw : bytes; action_data : bytes; v_actions : list nat }.
(** A property is an object of the empty base class. *)
Record packet_queue := Packet_queue { queue_id : Z; queue_len : Z; properties : list unit }.

Inductive ofp_event :=
| Packet_in_event (in_port total_len buffer_id reason : Z) (packet : buffer) (fl : flow)
| Flow_removed_event (priority reason cookie duration_sec duration_nsec idle_timeout packet_count byte_count : Z)
| Queue_config_in_event (port : Z) (queues : list packet_queue)
| Port_status_event (reason : Z) (p : port)
| Desc_stats_in_event (mfr_desc hw_desc sw_desc dp_desc serial_num : bytes)
| Table_stats_in_event (tables : list table_stats)
| Port_stats_in_event (ports : list port_stats)
| Aggregate_stats_in_event (packet_count byte_count flow_count : Z)
| Flow_stats_in_event (more : bool) (flows : list flow_stats)
| Queue_stats_in_event (queues : list queue_stats)
| Barrier_reply_event
| Echo_request_event (data : buffer)
| Error_event (type code : Z)
| Openflow_msg_event.

Inductive event :=
| Ofp_event (datapath_id : Z) (msg : bytes) (e : ofp_event)
| Ofmp_config_update_event (mgmt_id : Z) (e : config_update)
| Ofmp_config_update_ack_event (mgmt_id : Z) (e : config_update_ack)
| Ofmp_resources_update_event (mgmt_id : Z) (e : resources).

(** The parts of an [Openflow_connection] that are used here; [None] is a null
    [ext_data_buffer]. *)
Record oconn := Oconn { datapath_id : Z; ext_data_buffer : option bytes; ext_data_xid : Z }.

(** The structure of [n] bytes at the start of [m] *)
Definition structure (n : nat) (m : bytes) : res bytes := read 0 n m.

(** ** Messages *)

Definition whole (m : bytes) : buffer := Buffer m 0 (Z.of_nat (length m)).

(** [handle_packet_in]: the flow is that of the packet after the header. *)
Definition handle_packet_in (m : bytes) : res ofp_event :=
  '(_, packet) ← pull 18 (whole m);
  let in_port := ntohs (get16 14 m) in
  f ← flow_of_packet (htons in_port) packet 0;
  Ret (Packet_in_event in_port (ntohs (get16 12 m)) (ntohl (get32 8 m)) (get8 16 m) packet f).

(** [Flow_removed_event] *)
Definition handle_flow_removed (m : bytes) : res ofp_event :=
  ofr ← structure 88 m;
  Ret (Flow_removed_event (ntohs (get16 56 ofr)) (get8 58 ofr) (ntohll (get64 48 ofr)) (ntohl (get32 60 ofr))
    (ntohl (get32 64 ofr)) (ntohs (get16 68 ofr)) (ntohll (get64 72 ofr)) (ntohll (get64 80 ofr))).

(** [Port::Port(const ofp_phy_port* )] *)
Definition speed_of (curr : Z) : Z :=
  if negb (Z.land curr 3 =? 0) then 10
  else if negb (Z.land curr 12 =? 0) then 100
  else if negb (Z.land curr 48 =? 0) then 1000
  else if negb (Z.land curr 64 =? 0) then 10000
  else 0.
Definition port_of (m : bytes) : res port :=
  name ← read_string 8 m;
  opp ← structure 48 m;
  let curr := ntohl (get32 32 opp) in
  Ret (Port (ntohs (get16 0 opp)) name (speed_of curr) (ntohl (get32 24 opp)) (ntohl (get32 28 opp)) curr
    (ntohl (get32 36 opp)) (ntohl (get32 40 opp)) (ntohl (get32 44 opp)) (Bytes.load 2 6 opp)).

(** [Port_status_event] *)
Definition handle_port_status (m : bytes) : res ofp_event :=
  ops ← structure 9 m;
  p ← port_of (drop 16 m);
  Ret (Port_status_event (get8 8 ops) p).

(** [Error_event] *)
Definition handle_error (m : bytes) : res ofp_event :=
  oem ← structure 12 m;
  Ret (Error_event (ntohs (get16 8 oem)) (ntohs (get16 10 oem))).

Definition handle_echo_request (m : bytes) : res ofp_event :=
  '(_, packet) ← pull 8 (whole m);
  Ret (Echo_request_event packet).

(** ** Statistics *)

Definition body_of (m : bytes) : bytes := drop 12 m.

(** [handle_stats_aggregate_reply] and [Aggregate_stats_in_event] *)
Definition handle_stats_aggregate_reply (len : Z) (m : bytes) : res (option ofp_event) :=
  if negb (u64 (len - sizeof_ofp_stats_reply) =? 24) then Ret None
  else
    s ← structure 24 (body_of m);
    Ret (Some (Aggregate_stats_in_event (ntohll (get64 0 s)) (ntohll (get64 8 s)) (ntohl (get32 16 s)))).

(** [handle_stats_desc_reply] and [Desc_stats_in_event] *)
Definition handle_stats_desc_reply (len : Z) (m : bytes) : res (option ofp_event) :=
  if negb (u64 (len - sizeof_ofp_stats_reply) =? 1056) then Ret None
  else
    mfr ← read_string 12 m; hw ← read_string 268 m; sw ← read_string 524 m;
    dp ← read_string 812 m; serial ← read_string 780 m;
    Ret (Some (Desc_stats_in_event mfr hw sw dp serial)).

(** An element of a body, for each of [n] structures of [size] bytes *)
Fixpoint read_each {A : Type} (f : bytes -> res A) (size n : nat) (m : bytes) : res (list A) :=
  match n with
  | O => Ret []
  | S n => x ← f m; l ← read_each f size n (drop size m); Ret (x :: l)
  end.

(** [handle_stats_table_reply] *)
Definition table_of (m : bytes) : res table_stats :=
  name ← read_string 4 m;
  s ← structure 64 m;
  Ret (Table_stats (get8 0 s) name (htonl (get32 40 s)) (htonl (get32 44 s)) (htonll (get64 48 s)) (htonll (get64 56 s))).
Definition handle_stats_table_reply (len : Z) (m : bytes) : res (option ofp_event) :=
  if negb (u64 (len - sizeof_ofp_stats_reply) `mod` 64 =? 0) then Ret None
  else
    l ← read_each table_of 64 (Z.to_nat (u64 (len - sizeof_ofp_stats_reply) `div` 64)) (body_of m);
    Ret (Some (Table_stats_in_event l)).

(** [handle_stats_port_reply]: the twelve counters in the order of the structure *)
Definition port_stats_of (m : bytes) : res port_stats :=
  s ← structure 104 m;
  Ret (Port_stats (ntohs (get16 0 s)) ((fun i => ntohll (get64 (8 + 8 * i) s)) <$> seq 0 12)).
Definition handle_stats_port_reply (len : Z) (m : bytes) : res (option ofp_event) :=
  if negb (u64 (len - sizeof_ofp_stats_reply) `mod` 104 =? 0) then Ret None
  else
    l ← read_each port_stats_of 104 (Z.to_nat (u64 (len - sizeof_ofp_stats_reply) `div` 104)) (body_of m);
    Ret (Some (Port_stats_in_event l)).

(** [Queue_stats_in_event] *)
Definition queue_stats_of (m : bytes) : res queue_stats :=
  s ← structure 32 m;
  Ret (Queue_stats (ntohs (get16 0 s)) (ntohl (get32 4 s)) (ntohll (get64 8 s)) (ntohll (get64 16 s)) (ntohll (get64 24 s))).
Definition handle_stats_queue_reply (len : Z) (m : bytes) : res (option ofp_event) :=
  l ← read_each queue_stats_of 32 (Z.to_nat (Z.min (u64 (len - sizeof_ofp_stats_reply) `div` 32) (Z.of_nat (length m)))) (body_of m);
  Ret (Some (Queue_stats_in_event l)).

(** [Flow_stats::Flow_stats]: the offsets of the actions, from the structure on *)
Fixpoint actions_of (fuel p last : nat) (m : bytes) : res (list nat) :=
  if (p <? last)%nat then
    match fuel with
    | O => NoFuel
    | S fuel =>
        h ← read p 4 m;
        l ← actions_of fuel (p + Z.to_nat (ntohs (get16 2 h))) last m;
        Ret (p :: l)
    end
  else Ret [].
Definition bad_alloc : Z := 12.
Definition flow_stats_of (fuel : nat) (m : bytes) : res flow_stats :=
  ofs ← structure 88 m;
  let length := Z.to_nat (ntohs (get16 0 ofs)) in
  if (length <? 88)%nat then Throw bad_alloc
  else
    data ← read 88 (length - 88) m;
    l ← actions_of fuel 88 length m;
    Ret (Flow_stats ofs data l).

(** [Flow_stats_in_event] *)
Fixpoint flows_of (fuel : nat) (flow_len : Z) (m : bytes) : res (list flow_stats) :=
  if flow_len <? 88 then Ret []
  else
    match fuel with
    | O => NoFuel
    | S fuel =>
        h ← read 0 2 m;
        let length := ntohs (get16 0 h) in
        if flow_len <? length then Ret []
        else
          fs ← flow_stats_of fuel m;
          l ← flows_of fuel (flow_len - length) (drop (Z.to_nat length) m);
          Ret (fs :: l)
    end.
Definition handle_stats_flow_reply (fuel : nat) (len : Z) (m : bytes) : res (option ofp_event) :=
  if len - sizeof_ofp_stats_reply <? 0 then Ret None
  else
    osr ← structure 12 m;
    l ← flows_of fuel (len - sizeof_ofp_stats_reply) (body_of m);
    Ret (Some (Flow_stats_in_event (negb (Z.land (get16 10 osr) (htons OFPSF_REPLY_MORE) =? 0)) l)).

(** [handle_stats_reply] *)
Definition handle_stats_reply (fuel : nat) (m : bytes) : res (option ofp_event) :=
  osr ← structure 10 m;
  let type := htons (get16 8 osr) in
  let len := htons (get16 2 osr) in
  if type =? OFPST_DESC then handle_stats_desc_reply len m
  else if type =? OFPST_TABLE then handle_stats_table_reply len m
  else if type =? OFPST_PORT then handle_stats_port_reply len m
  else if type =? OFPST_AGGREGATE then handle_stats_aggregate_reply len m
  else if type =? OFPST_FLOW then handle_stats_flow_reply fuel len m
  else if type =? OFPST_QUEUE then handle_stats_queue_reply len m
  else Ret None.

(** ** Queue configurations *)

(** The loop of [Packet_queue::Packet_queue]: [len >- sizeof *oqph] is [len > -8],
    and -8 is a [size_t]. *)
Fixpoint properties_of (fuel : nat) (len : Z) (m : bytes) : res (list unit) :=
  if len <=? 2 ^ 64 - 8 then Ret []
  else
    match fuel with
    | O => NoFuel
    | S fuel =>
        h ← read 0 4 m;
        let length := ntohs (get16 2 h) in
        if len <? length then Ret []
        else
          l ← properties_of fuel (len - length) (drop (Z.to_nat length) m);
          Ret (if ntohs (get16 0 h) =? OFPQT_MIN_RATE then tt :: l else l)
    end.

(** [Packet_queue::Packet_queue]; [ntohll] is applied to a 32-bit field, and its
    result stored in one. *)
Definition packet_queue_of (fuel : nat) (m : bytes) : res packet_queue :=
  opq ← structure 8 m;
  let len := ntohs (get16 4 opq) in
  l ← properties_of fuel (u64 (len - 8)) (drop 8 m);
  Ret (Packet_queue (u32 (ntohll (get32 0 opq))) len l).

(** [Queue_config_in_event] *)
Fixpoint queues_of (fuel : nat) (len : Z) (m : bytes) : res (list packet_queue) :=
  if len <? 8 then Ret []
  else
    match fuel with
    | O => NoFuel
    | S fuel =>
        opq ← structure 6 m;
        let length := ntohs (get16 4 opq) in
        if len <? length then Ret []
        else
          q ← packet_queue_of fuel m;
          l ← queues_of fuel (len - length) (drop (Z.to_nat length) m);
          Ret (q :: l)
    end.
Definition handle_queue_config_reply (fuel : nat) (m : bytes) : res ofp_event :=
  oqgcr ← structure 10 m;
  l ← queues_of fuel (u64 (ntohs (get16 2 oqgcr) - 16)) (drop 16 m);
  Ret (Queue_config_in_event (ntohs (get16 8 oqgcr)) l).

(** ** Management *)

Section management.
(** Memory that the code uses without setting it first *)
Context (stack : bytes) (raw : Z * bytes * bytes).

Definition set_ext (b : option bytes) (c : oconn) : oconn := Oconn (datapath_id c) b (ext_data_xid c).

(** The cases of [handle_nx_vendor] besides extended data *)
Definition handle_mgmt (fuel : nat) (type : Z) (m : bytes) (c : oconn) : res (option event) :=
  if type =? htons OFMPT_CONFIG_UPDATE then
    if (length m <? sizeof_ofmp_config_update)%nat then Ret None
    else e ← config_update_event stack raw m; Ret (Some (Ofmp_config_update_event (datapath_id c) e))
  else if type =? htons OFMPT_CONFIG_UPDATE_ACK then
    if (length m <? sizeof_ofmp_config_update_ack)%nat then Ret None
    else Ret (Some (Ofmp_config_update_ack_event (datapath_id c) (config_update_ack_event m)))
  else if type =? htons OFMPT_RESOURCES_UPDATE then
    if (length m <? sizeof_ofmp_resources_update)%nat then Ret None
    else e ← resources_update_event fuel m; Ret (Some (Ofmp_resources_update_event (datapath_id c) e))
  else if type =? htons OFMPT_ERROR then
    if (length m <? sizeof_ofmp_error_msg)%nat then Aborted else Ret None
  else Ret None.

(** [handle_nx_vendor] and [handle_ofmp_extended_data], which calls it again.
    [oh->type == htonl(OFMPT_EXTENDED_DATA)] compares a 16-bit field. *)
Fixpoint handle_nx_vendor (depth fuel : nat) (m : bytes) (c : oconn) : res (option event * oconn) :=
  if (length m <? sizeof_nicira_header)%nat then Ret (None, c)
  else if negb (ntohl (h_subtype m) =? NXT_MGMT) then Ret (None, c)
  else if (length m <? sizeof_ofmp_header)%nat then Ret (None, c)
  else
    c ← (if ext_data_xid c =? h_xid m then Ret c
         else match ext_data_buffer c with
              | None => Aborted
              | Some b => Ret (if is_nil b then c else set_ext (Some []) c)
              end);
    if negb (h_type m =? htons OFMPT_EXTENDED_DATA) then
      e ← handle_mgmt fuel (h_type m) m c; Ret (e, c)
    else if (length m <=? sizeof_ofmp_extended_data)%nat then Ret (None, c)
    else
      match ext_data_buffer c with
      | None => Aborted
      | Some b =>
          let b := b ++ drop sizeof_ofmp_extended_data m in
          let c := Oconn (datapath_id c) (Some b) (h_xid m) in
          if negb (Z.land (get8 22 m) OFMPEDF_MORE_DATA =? 0) then Ret (None, c)
          else if Z.of_nat (length b) <? 65536 then Ret (None, c)
          else if negb (h_vendor b =? htonl NX_VENDOR_ID) || negb (h_subtype b =? htonl NXT_MGMT)
               || (h_type b =? htonl OFMPT_EXTENDED_DATA) then Ret (None, c)
          else
            let b := put16 2 0 (put32 4 (ext_data_xid c) b) in
            match depth with
            | O => NoFuel
            | S depth =>
                '(e, c) ← handle_nx_vendor depth fuel b (set_ext None c);
                Ret (e, set_ext (Some []) c)
            end
      end.

(** [handle_vendor] *)
Definition handle_vendor (depth fuel : nat) (m : bytes) (c : oconn) : res (option event * oconn) :=
  ovh ← structure 12 m;
  if ntohl (h_vendor ovh) =? NX_VENDOR_ID then handle_nx_vendor depth fuel m c else Ret (None, c).

(** ** [openflow_packet_to_event] *)
Definition openflow_packet_to_event (depth fuel : nat) (m : bytes) (c : oconn) : res (option event * oconn) :=
  let ofp e := Some (Ofp_event (datapath_id c) m e) in
  if (length m <? 8)%nat then Ret (None, c)
  else if negb (get8 0 m =? OFP_VERSION) then Ret (None, c)
  else
    let type := get8 1 m in
    if type =? OFPT_PACKET_IN then e ← handle_packet_in m; Ret (ofp e, c)
    else if type =? OFPT_FLOW_REMOVED then e ← handle_flow_removed m; Ret (ofp e, c)
    else if type =? OFPT_QUEUE_GET_CONFIG_REPLY then e ← handle_queue_config_reply fuel m; Ret (ofp e, c)
    else if type =? OFPT_PORT_STATUS then e ← handle_port_status m; Ret (ofp e, c)
    else if type =? OFPT_FEATURES_REPLY then Ret (None, c)
    else if type =? OFPT_STATS_REPLY then e ← handle_stats_reply fuel m; Ret (e ≫= ofp, c)
    else if type =? OFPT_BARRIER_REPLY then Ret (ofp Barrier_reply_event, c)
    else if type =? OFPT_ECHO_REQUEST then e ← handle_echo_request m; Ret (ofp e, c)
    else if type =? OFPT_VENDOR then handle_vendor depth fuel m c
    else if type =? OFPT_ECHO_REPLY then Ret (None, c)
    else if type =? OFPT_ERROR then e ← handle_error m; Ret (ofp e, c)
    else Ret (None, c).
End management.

(** [openflow_msg_to_event] *)
Definition openflow_msg_to_event (m : bytes) (c : oconn) : option event :=
  if (length m <? 8)%nat then None
  else if negb (get8 0 m =? OFP_VERSION) then None
  else Some (Ofp_event (datapath_id c) m Openflow_msg_event).
