(* ===== verification/OpenflowEventProps.v ===== *)
(** * Events carry what the messages say (src/lib/openflow-event.cc)

    The messages are those the wrapper classes of openflow-pack-raw.cc encode;
    the events have their fields. *)

From S2P Require Import Prelude Bytes Buffer Ethernetaddr Flow FlowSpec OfpWire OfpCore OfpStats OfpMessages OpenflowStream OpenflowConnection OpenflowSend Cfg Ofmp OfmpProps OpenflowEvent.

Open Scope Z_scope.

(** ** Messages and their events *)

Definition reply_header (type : Z) (body : bytes) (xid : Z) : of_header.t :=
  of_header.mk OFP_VERSION type (12 + Z.of_nat (length body)) xid.
Definition stats_msg (type flags xid : Z) (body : bytes) : bytes :=
  of_stats_reply.wire (of_stats_reply.mk (reply_header OFPT_STATS_REPLY body xid) type flags) ++ body.
Definition stats_ok (flags xid : Z) (body : bytes) : Prop := is_u16 flags /\ is_u32 xid /\ 12 + Z.of_nat (length body) < 2 ^ 16.

Definition is_header (type : Z) (h : of_header.t) : Prop := of_header.version h = OFP_VERSION /\ of_header.type_ h = type.

Definition port_fields (p : of_phy_port.t) : port :=
  Port (of_phy_port.port_no p) (of_phy_port.name p) (speed_of (of_phy_port.curr p)) (of_phy_port.config p) (of_phy_port.state p)
    (of_phy_port.curr p) (of_phy_port.advertised p) (of_phy_port.supported p) (of_phy_port.peer p) (of_phy_port.hw_addr p).
Definition table_fields (t : of_table_stats.t) : table_stats :=
  Table_stats (of_table_stats.table_id t) (of_table_stats.name t) (of_table_stats.max_entries t) (of_table_stats.active_count t)
    (of_table_stats.lookup_count t) (of_table_stats.matched_count t).
Definition port_stats_fields (p : of_port_stats.t) : port_stats :=
  Port_stats (of_port_stats.port_no p) ((fun f => f p) <$> [of_port_stats.rx_packets; of_port_stats.tx_packets; of_port_stats.rx_bytes;
    of_port_stats.tx_bytes; of_port_stats.rx_dropped; of_port_stats.tx_dropped; of_port_stats.rx_errors; of_port_stats.tx_errors;
    of_port_stats.rx_frame_err; of_port_stats.rx_over_err; of_port_stats.rx_crc_err; of_port_stats.collisions]).
Definition queue_fields (q : of_queue_stats.t) : queue_stats :=
  Queue_stats (of_queue_stats.port_no q) (of_queue_stats.queue_id q) (of_queue_stats.tx_bytes q) (of_queue_stats.tx_packets q) (of_queue_stats.tx_errors q).

Inductive announces : bytes -> ofp_event -> Prop :=
| announces_packet_in p data f : of_packet_in.wf p -> is_header OFPT_PACKET_IN (of_packet_in.header p) ->
    let packet := Buffer (of_packet_in.wire p ++ data) 18 (Z.of_nat (length data)) in
    flow_of_packet (htons (of_packet_in.in_port p)) packet 0 = Ret f ->
    announces (of_packet_in.wire p ++ data)
      (Packet_in_event (of_packet_in.in_port p) (of_packet_in.total_len p) (of_packet_in.buffer_id p) (of_packet_in.reason p) packet f)
| announces_flow_removed r : of_flow_removed.wf r -> is_header OFPT_FLOW_REMOVED (of_flow_removed.header r) ->
    announces (of_flow_removed.wire r)
      (Flow_removed_event (of_flow_removed.priority r) (of_flow_removed.reason r) (of_flow_removed.cookie r) (of_flow_removed.duration_sec r)
        (of_flow_removed.duration_nsec r) (of_flow_removed.idle_timeout r) (of_flow_removed.packet_count r) (of_flow_removed.byte_count r))
| announces_port_status s : of_port_status.wf s -> is_header OFPT_PORT_STATUS (of_port_status.header s) ->
    announces (of_port_status.wire s) (Port_status_event (of_port_status.reason s) (port_fields (of_port_status.desc s)))
| announces_error e data : of_error_msg.wf e -> is_header OFPT_ERROR (of_error_msg.header e) ->
    announces (of_error_msg.wire e ++ data) (Error_event (of_error_msg.type_ e) (of_error_msg.code e))
| announces_echo_request h data : of_header.wf h -> is_header OFPT_ECHO_REQUEST h ->
    announces (of_header.wire h ++ data) (Echo_request_event (Buffer (of_header.wire h ++ data) 8 (Z.of_nat (length data))))
| announces_barrier_reply h : of_header.wf h -> is_header OFPT_BARRIER_REPLY h ->
    announces (of_header.wire h) Barrier_reply_event
| announces_desc flags xid d : of_desc_stats.wf d -> stats_ok flags xid (of_desc_stats.wire d) ->
    announces (stats_msg OFPST_DESC flags xid (of_desc_stats.wire d))
      (Desc_stats_in_event (of_desc_stats.mfr_desc d) (of_desc_stats.hw_desc d) (of_desc_stats.sw_desc d) (of_desc_stats.dp_desc d) (of_desc_stats.serial_num d))
| announces_aggregate flags xid a : of_aggregate_stats_reply.wf a -> stats_ok flags xid (of_aggregate_stats_reply.wire a) ->
    announces (stats_msg OFPST_AGGREGATE flags xid (of_aggregate_stats_reply.wire a))
      (Aggregate_stats_in_event (of_aggregate_stats_reply.packet_count a) (of_aggregate_stats_reply.byte_count a) (of_aggregate_stats_reply.flow_count a))
| announces_tables flags xid l : Forall of_table_stats.wf l -> stats_ok flags xid (concat (of_table_stats.wire <$> l)) ->
    announces (stats_msg OFPST_TABLE flags xid (concat (of_table_stats.wire <$> l))) (Table_stats_in_event (table_fields <$> l))
| announces_ports flags xid l : Forall of_port_stats.wf l -> stats_ok flags xid (concat (of_port_stats.wire <$> l)) ->
    announces (stats_msg OFPST_PORT flags xid (concat (of_port_stats.wire <$> l))) (Port_stats_in_event (port_stats_fields <$> l))
| announces_queues flags xid l : Forall of_queue_stats.wf l -> stats_ok flags xid (concat (of_queue_stats.wire <$> l)) ->
    announces (stats_msg OFPST_QUEUE flags xid (concat (of_queue_stats.wire <$> l))) (Queue_stats_in_event (queue_fields <$> l)).

(** ** Structures in memory *)

Lemma structure_wire {T} `{MessageLaws T} (x : T) rest : msg_shape x -> structure msg_size (msg_wire x ++ rest) = Ret (msg_wire x).
Proof.
  intros Hx. pose proof (msg_wire_length x Hx) as L. unfold structure.
  change (msg_wire x ++ rest) with ([] ++ msg_wire x ++ rest). by apply read_app.
Qed.

Lemma unpack_wire {T} `{MessageLaws T} (x : T) : msg_wf x -> msg_unpack (msg_wire x) = Some x.
Proof. intros Hx. rewrite <- (app_nil_r (msg_wire x)). by apply msg_unpack_wire. Qed.

Lemma read_string_of b off s : read_cstr (drop off b) = Some s -> read_string off b = Ret s.
Proof. unfold read_string. by intros ->. Qed.

(** A C string does not depend on what follows it. *)
Lemma read_cstr_more b s rest : read_cstr b = Some s -> read_cstr (b ++ rest) = Some s.
Proof.
  revert s. induction b as [|c b IH]; intros s; [done|]. cbn. destruct (c =? 0); [done|].
  destruct (read_cstr b) as [t|] eqn:E; [|done]. cbn. intros [= <-]. by rewrite (IH t).
Qed.

Lemma read_string_more b off s rest : (off <= length b)%nat -> read_cstr (drop off b) = Some s -> read_string off (b ++ rest) = Ret s.
Proof. intros Ho E. unfold read_string. rewrite drop_app_le by done. by rewrite (read_cstr_more _ _ _ E). Qed.

Lemma read_each_ok {A B} (f : bytes -> res B) (w : A -> bytes) (g : A -> B) size l :
  (forall x rest, x ∈ l -> f (w x ++ rest) = Ret (g x) /\ length (w x) = size) ->
  read_each f size (length l) (concat (w <$> l)) = Ret (g <$> l).
Proof.
  induction l as [|x l IH]; intros Hf; [done|]. cbn [length fmap list_fmap concat read_each].
  destruct (Hf x (concat (w <$> l)) ltac:(left)) as [E L]. rewrite E. cbn [mbind res_bind].
  rewrite <- L, drop_app_length, L, IH; [done|]. intros y rest Hy. apply Hf. by right.
Qed.

Lemma length_each {A} (w : A -> bytes) size (l : list A) : (forall x, x ∈ l -> length (w x) = size) ->
  length (concat (w <$> l)) = (length l * size)%nat.
Proof.
  induction l as [|x l IH]; intros Hw; [done|]. cbn [length fmap list_fmap concat]. rewrite length_app, Hw, IH by set_solver. lia.
Qed.

(** ** The elements *)

Lemma load_six (w : bytes) : (8 <= length w)%nat ->
  Bytes.load 2 6 w = [get8 2 w; get8 3 w; get8 4 w; get8 5 w; get8 6 w; get8 7 w].
Proof.
  do 8 (destruct w as [|? w]; [cbn; lia|]). intros _. unfold get8, Bytes.load. cbn. by rewrite !Z.add_0_r.
Qed.

Lemma table_of_ok t rest : of_table_stats.wf t -> table_of (of_table_stats.wire t ++ rest) = Ret (table_fields t).
Proof.
  intros Hw. pose proof (unpack_wire t Hw) as U. pose proof (msg_wire_length t (proj1 Hw)) as L. pose proof (structure_wire t rest (proj1 Hw)) as S.
  cbn [msg_unpack msg_wire msg_size of_table_stats.table_stats_message] in U, L, S. unfold table_of, of_table_stats.size in *.
  unfold of_table_stats.unpack in U. clear Hw.
  destruct (read_cstr (drop 4 (of_table_stats.wire t))) as [s|] eqn:E; [|done]. cbn [mbind option_bind] in U.
  rewrite (read_string_more _ 4 s) by (done || lia). cbn [mbind res_bind]. rewrite S. cbn [mbind res_bind].
  set (w := of_table_stats.wire t) in *. clearbody w. clear - U. injection U as <-. reflexivity.
Qed.

Lemma port_of_ok p rest : of_phy_port.wf p -> port_of (of_phy_port.wire p ++ rest) = Ret (port_fields p).
Proof.
  intros Hw. pose proof (unpack_wire p Hw) as U. pose proof (msg_wire_length p (proj1 Hw)) as L. pose proof (structure_wire p rest (proj1 Hw)) as S.
  cbn [msg_unpack msg_wire msg_size of_phy_port.phy_port_message] in U, L, S. unfold port_of, of_phy_port.size in *.
  unfold of_phy_port.unpack in U. clear Hw.
  destruct (read_cstr (drop 8 (of_phy_port.wire p))) as [s|] eqn:E; [|done]. cbn [mbind option_bind] in U.
  rewrite (read_string_more _ 8 s) by (done || lia). cbn [mbind res_bind]. rewrite S. cbn [mbind res_bind].
  set (w := of_phy_port.wire p) in *. clearbody w.
  assert (Bytes.load 2 6 w = [get8 2 w; get8 3 w; get8 4 w; get8 5 w; get8 6 w; get8 7 w]) as -> by (apply load_six; lia).
  clear - U. injection U as <-. reflexivity.
Qed.

Lemma port_stats_of_ok p rest : of_port_stats.wf p -> port_stats_of (of_port_stats.wire p ++ rest) = Ret (port_stats_fields p).
Proof.
  intros Hw. pose proof (unpack_wire p Hw) as U. pose proof (structure_wire p rest (proj1 Hw)) as S.
  cbn [msg_unpack msg_wire msg_size of_port_stats.port_stats_message] in U, S. unfold port_stats_of, of_port_stats.size in *.
  rewrite S. cbn [mbind res_bind]. clear S Hw. unfold of_port_stats.unpack in U.
  set (w := of_port_stats.wire p) in *. clearbody w. injection U as <-. reflexivity.
Qed.

Lemma queue_stats_of_ok q rest : of_queue_stats.wf q -> queue_stats_of (of_queue_stats.wire q ++ rest) = Ret (queue_fields q).
Proof.
  intros Hw. pose proof (unpack_wire q Hw) as U. pose proof (structure_wire q rest (proj1 Hw)) as S.
  cbn [msg_unpack msg_wire msg_size of_queue_stats.queue_stats_message] in U, S. unfold queue_stats_of, of_queue_stats.size in *.
  rewrite S. cbn [mbind res_bind]. clear S Hw. unfold of_queue_stats.unpack in U.
  set (w := of_queue_stats.wire q) in *. clearbody w. injection U as <-. reflexivity.
Qed.

(** ** The handlers *)

Lemma wire_header h rest : of_header.wf h -> let m := of_header.wire h ++ rest in
  get8 0 m = of_header.version h /\ get8 1 m = of_header.type_ h /\ ntohs (get16 2 m) = of_header.length_ h /\ (8 <= length m)%nat.
Proof.
  intros Hw m. pose proof (of_header.header_unpack_wire h rest Hw) as U. pose proof (of_header.header_wire_length h (proj1 Hw)) as L.
  fold m in U. unfold of_header.size in L. assert (8 <= length m)%nat as Lm by (unfold m; rewrite length_app; lia).
  clearbody m. unfold of_header.unpack in U. injection U as <-. done.
Qed.

#[local] Opaque handle_packet_in handle_flow_removed handle_port_status handle_stats_reply handle_echo_request handle_error.

(** [openflow_packet_to_event] on a message that starts with the header [h] *)
Lemma dispatch_header stack raw depth fuel h rest m c e : of_header.wf h -> of_header.version h = OFP_VERSION ->
  m = of_header.wire h ++ rest ->
  (if of_header.type_ h =? OFPT_PACKET_IN then handle_packet_in m = Ret e
   else if of_header.type_ h =? OFPT_FLOW_REMOVED then handle_flow_removed m = Ret e
   else if of_header.type_ h =? OFPT_PORT_STATUS then handle_port_status m = Ret e
   else if of_header.type_ h =? OFPT_STATS_REPLY then handle_stats_reply fuel m = Ret (Some e)
   else if of_header.type_ h =? OFPT_BARRIER_REPLY then e = Barrier_reply_event
   else if of_header.type_ h =? OFPT_ECHO_REQUEST then handle_echo_request m = Ret e
   else of_header.type_ h = OFPT_ERROR /\ handle_error m = Ret e) ->
  openflow_packet_to_event stack raw depth fuel m c = Ret (Some (Ofp_event (datapath_id c) m e), c).
Proof.
  intros Hw Hv Hm. destruct (wire_header h rest Hw) as (E0 & E1 & _ & L). rewrite <- Hm in E0, E1, L. clear Hm.
  unfold openflow_packet_to_event. rewrite (proj2 (Nat.ltb_ge _ _)), E0, E1, Hv by lia. cbn [Z.eqb OFP_VERSION negb Pos.eqb].
  destruct (of_header.type_ h =? OFPT_PACKET_IN) eqn:T1; [by intros ->|].
  destruct (of_header.type_ h =? OFPT_FLOW_REMOVED) eqn:T2; [by intros ->|].
  destruct (of_header.type_ h =? OFPT_PORT_STATUS) eqn:T3.
  { apply Z.eqb_eq in T3. rewrite T3. cbn. intros H. by rewrite H. }
  destruct (of_header.type_ h =? OFPT_STATS_REPLY) eqn:T4.
  { apply Z.eqb_eq in T4. rewrite T4. cbn. intros H. by rewrite H. }
  destruct (of_header.type_ h =? OFPT_BARRIER_REPLY) eqn:T5.
  { apply Z.eqb_eq in T5. rewrite T5. cbn. by intros ->. }
  destruct (of_header.type_ h =? OFPT_ECHO_REQUEST) eqn:T6.
  { apply Z.eqb_eq in T6. rewrite T6. cbn. intros H. by rewrite H. }
  intros [T7 H]. rewrite T7. cbn. by rewrite H.
Qed.

#[local] Transparent handle_packet_in handle_flow_removed handle_port_status handle_stats_reply handle_echo_request handle_error.

Lemma handle_packet_in_ok p data f : of_packet_in.wf p ->
  let packet := Buffer (of_packet_in.wire p ++ data) 18 (Z.of_nat (length data)) in
  flow_of_packet (htons (of_packet_in.in_port p)) packet 0 = Ret f ->
  handle_packet_in (of_packet_in.wire p ++ data) =
  Ret (Packet_in_event (of_packet_in.in_port p) (of_packet_in.total_len p) (of_packet_in.buffer_id p) (of_packet_in.reason p) packet f).
Proof.
  intros Hw packet F. pose proof (of_packet_in.packet_in_unpack_wire p data Hw) as U.
  pose proof (of_packet_in.packet_in_wire_length p (proj1 Hw)) as L. unfold of_packet_in.size in L.
  unfold handle_packet_in, whole, pull. cbn [m_size m_data base]. rewrite (proj2 (Z.leb_le _ _)) by (rewrite length_app; lia).
  cbn [mbind res_bind]. replace (Z.of_nat (length (of_packet_in.wire p ++ data)) - 18) with (Z.of_nat (length data)) by (rewrite length_app; lia).
  change (0 + 18) with 18. fold packet. clearbody packet.
  unfold of_packet_in.unpack in U. destruct (msg_unpack (drop 0 (of_packet_in.wire p ++ data))) as [h|]; [|done]. cbn [mbind option_bind] in U.
  set (w := of_packet_in.wire p ++ data) in *. clearbody w. clear Hw L. injection U as <-. cbn [of_packet_in.in_port] in F. by rewrite F.
Qed.

Lemma handle_flow_removed_ok r : of_flow_removed.wf r ->
  handle_flow_removed (of_flow_removed.wire r) =
  Ret (Flow_removed_event (of_flow_removed.priority r) (of_flow_removed.reason r) (of_flow_removed.cookie r) (of_flow_removed.duration_sec r)
    (of_flow_removed.duration_nsec r) (of_flow_removed.idle_timeout r) (of_flow_removed.packet_count r) (of_flow_removed.byte_count r)).
Proof.
  intros Hw. pose proof (unpack_wire r Hw) as U. pose proof (structure_wire r [] (proj1 Hw)) as S. rewrite app_nil_r in S.
  cbn [msg_unpack msg_wire msg_size of_flow_removed.flow_removed_message] in U, S. unfold handle_flow_removed, of_flow_removed.size in *.
  rewrite S. cbn [mbind res_bind]. clear S Hw. unfold of_flow_removed.unpack in U. set (w := of_flow_removed.wire r) in *. clearbody w.
  destruct (msg_unpack (drop 0 w)) as [h|]; [|done]. cbn [mbind option_bind] in U.
  destruct (msg_unpack (drop 8 w)) as [x|]; [|done]. cbn [mbind option_bind] in U. injection U as <-. reflexivity.
Qed.

Lemma handle_port_status_ok s : of_port_status.wf s ->
  handle_port_status (of_port_status.wire s) = Ret (Port_status_event (of_port_status.reason s) (port_fields (of_port_status.desc s))).
Proof.
  intros Hw. pose proof (of_port_status.port_status_wire_length s (proj1 Hw)) as L. unfold of_port_status.size in L.
  pose proof (of_port_status.port_status_unpack_wire s [] Hw) as U. rewrite app_nil_r in U.
  destruct Hw as ((Hh & [Lp _] & _) & _ & _ & Hd). pose proof (msg_wire_length _ Hh) as Lh.
  assert (drop 16 (of_port_status.wire s) = of_phy_port.wire (of_port_status.desc s) ++ []) as D.
  { unfold of_port_status.wire. rewrite app_nil_r. rewrite 2 app_assoc. rewrite drop_app_ge by (rewrite !length_app; cbn in *; lia).
    rewrite !length_app. cbn [length]. change (length (msg_wire (of_port_status.header s)) = 8%nat) in Lh. by rewrite Lh, Lp. }
  unfold handle_port_status, structure, read. rewrite (proj2 (Nat.leb_le _ _)), D, port_of_ok by (done || lia). cbn [mbind res_bind]. do 2 f_equal.
  clear D Hd Lp Lh Hh. set (w := of_port_status.wire s) in *. clearbody w. unfold of_port_status.unpack in U.
  destruct (msg_unpack (drop 0 w)) as [h|]; [|done]. cbn [mbind option_bind] in U.
  destruct (msg_unpack (drop 16 w)) as [x|]; [|done]. cbn [mbind option_bind] in U. injection U as <-. cbn [of_port_status.reason].
  unfold get8. f_equal. unfold Bytes.load. rewrite drop_0, skipn_firstn_comm, take_take. done.
Qed.

Lemma handle_error_ok e data : of_error_msg.wf e ->
  handle_error (of_error_msg.wire e ++ data) = Ret (Error_event (of_error_msg.type_ e) (of_error_msg.code e)).
Proof.
  intros Hw. pose proof (unpack_wire e Hw) as U. pose proof (structure_wire e data (proj1 Hw)) as S.
  cbn [msg_unpack msg_wire msg_size of_error_msg.error_msg_message] in U, S. unfold handle_error, of_error_msg.size in *.
  rewrite S. cbn [mbind res_bind]. clear S Hw. unfold of_error_msg.unpack in U. set (w := of_error_msg.wire e) in *. clearbody w.
  destruct (msg_unpack (drop 0 w)) as [h|]; [|done]. cbn [mbind option_bind] in U. injection U as <-. reflexivity.
Qed.

(** ** Statistics *)

Lemma get16_take off n (w : bytes) : (off + 2 <= n)%nat -> get16 off (take n w) = get16 off w.
Proof. intros Hn. unfold get16, Bytes.load. by rewrite skipn_firstn_comm, take_take, Nat.min_l by lia. Qed.

Lemma stats_wf type flags xid body : is_u16 type -> stats_ok flags xid body ->
  of_stats_reply.wf (of_stats_reply.mk (reply_header OFPT_STATS_REPLY body xid) type flags).
Proof. intros Ht (Hf & Hx & Hl). unfold of_stats_reply.wf. cbn. unfold in_width in *. unfold of_header.wf, of_header.shape. cbn. unfold in_width. split_and!; try done; try lia. Qed.

Lemma stats_fields type flags xid body : is_u16 type -> stats_ok flags xid body ->
  let m := stats_msg type flags xid body in
  ntohs (get16 8 m) = type /\ ntohs (get16 2 m) = 12 + Z.of_nat (length body) /\ body_of m = body /\ (12 <= length m)%nat.
Proof.
  intros Ht Hs m. pose proof (stats_wf type flags xid body Ht Hs) as W. pose proof (of_stats_reply.stats_reply_unpack_wire _ body W) as U.
  pose proof (of_stats_reply.stats_reply_wire_length _ (proj1 W)) as L. unfold of_stats_reply.size in L. fold (stats_msg type flags xid body) in U. fold m in U.
  split_and!.
  - unfold of_stats_reply.unpack in U. destruct (msg_unpack (drop 0 m)); [|done]. by injection U.
  - destruct (wire_header (reply_header OFPT_STATS_REPLY body xid) (drop 8 m) (proj1 (proj2 W))) as (_ & _ & E & _).
    unfold m, stats_msg, of_stats_reply.wire. rewrite <- !app_assoc. cbn [of_stats_reply.header].
    replace (drop 8 m) with (to_be 2 type ++ to_be 2 flags ++ body) in E; [exact E|].
    unfold m, stats_msg, of_stats_reply.wire. rewrite <- !app_assoc. cbn [of_stats_reply.header of_stats_reply.type_ of_stats_reply.flags].
    rewrite drop_app_ge; [|done]. done.
  - unfold body_of, m, stats_msg. by rewrite drop_app_ge, L, Nat.sub_diag by lia.
  - unfold m, stats_msg. rewrite length_app. lia.
Qed.

Lemma handle_stats_ok fuel type flags xid body : is_u16 type -> stats_ok flags xid body ->
  let m := stats_msg type flags xid body in
  let len := 12 + Z.of_nat (length body) in
  handle_stats_reply fuel m =
    (if type =? OFPST_DESC then handle_stats_desc_reply len m
     else if type =? OFPST_TABLE then handle_stats_table_reply len m
     else if type =? OFPST_PORT then handle_stats_port_reply len m
     else if type =? OFPST_AGGREGATE then handle_stats_aggregate_reply len m
     else if type =? OFPST_FLOW then handle_stats_flow_reply fuel len m
     else if type =? OFPST_QUEUE then handle_stats_queue_reply len m
     else Ret None).
Proof.
  intros Ht Hs m len. destruct (stats_fields type flags xid body Ht Hs) as (E8 & E2 & _ & L). fold m in E8, E2, L. clearbody m.
  unfold handle_stats_reply, structure, read. rewrite (proj2 (Nat.leb_le _ _)) by lia. cbn [mbind res_bind]. unfold Bytes.load. rewrite drop_0.
  rewrite !get16_take by lia. change htons with ntohs. by rewrite E8, E2.
Qed.

Lemma stats_len (n : nat) : 12 + Z.of_nat n < 2 ^ 16 -> u64 (12 + Z.of_nat n - sizeof_ofp_stats_reply) = Z.of_nat n.
Proof. intros Hn. unfold sizeof_ofp_stats_reply. rewrite wrap_small; [lia|]. change (2 ^ 16) with 65536 in Hn. change (2 ^ 64) with 18446744073709551616. lia. Qed.

Lemma stats_array {A B} (f : bytes -> res B) (w : A -> bytes) (g : A -> B) size l flags xid :
  (forall x rest, x ∈ l -> f (w x ++ rest) = Ret (g x) /\ length (w x) = size) -> size <> O ->
  stats_ok flags xid (concat (w <$> l)) ->
  let n := u64 (12 + Z.of_nat (length (concat (w <$> l))) - sizeof_ofp_stats_reply) in
  n `mod` Z.of_nat size = 0 /\ read_each f size (Z.to_nat (n `div` Z.of_nat size)) (concat (w <$> l)) = Ret (g <$> l) /\
  n `div` Z.of_nat size <= Z.of_nat (length (concat (w <$> l))).
Proof.
  intros Hf Hz (_ & _ & Hl) n. assert (forall x, x ∈ l -> length (w x) = size) as Hw by (intros x Hx; by apply (Hf x [])).
  unfold n. rewrite stats_len by done. rewrite (length_each w size l Hw), Nat2Z.inj_mul. rewrite Z.mod_mul, Z.div_mul by lia.
  split_and!; [done| |nia]. rewrite Nat2Z.id. by apply read_each_ok.
Qed.

Lemma read_body_string m k s : read_cstr (drop k (body_of m)) = Some s -> read_string (12 + k) m = Ret s.
Proof. unfold body_of, read_string. rewrite drop_drop. by intros ->. Qed.

Lemma handle_desc_ok flags xid d : of_desc_stats.wf d -> stats_ok flags xid (of_desc_stats.wire d) ->
  let m := stats_msg OFPST_DESC flags xid (of_desc_stats.wire d) in
  handle_stats_desc_reply (12 + Z.of_nat (length (of_desc_stats.wire d))) m =
  Ret (Some (Desc_stats_in_event (of_desc_stats.mfr_desc d) (of_desc_stats.hw_desc d) (of_desc_stats.sw_desc d) (of_desc_stats.dp_desc d) (of_desc_stats.serial_num d))).
Proof.
  intros Hw Hs m. destruct (stats_fields OFPST_DESC flags xid _ ltac:(done) Hs) as (_ & _ & B & _). fold m in B. clearbody m.
  pose proof (unpack_wire d Hw) as U. cbn [msg_unpack msg_wire of_desc_stats.desc_stats_message] in U.
  pose proof (of_desc_stats.desc_stats_wire_length d I) as L. unfold of_desc_stats.size in L.
  unfold handle_stats_desc_reply. rewrite stats_len by apply Hs. rewrite L.
  assert ((Z.of_nat 1056 =? 1056) = true) as -> by done. cbn [negb]. unfold of_desc_stats.unpack in U. rewrite <- B in U.
  destruct (read_cstr (drop 0 (body_of m))) as [s1|] eqn:E1; [|done]. cbn [mbind option_bind] in U.
  destruct (read_cstr (drop 256 (body_of m))) as [s2|] eqn:E2; [|done]. cbn [mbind option_bind] in U.
  destruct (read_cstr (drop 512 (body_of m))) as [s3|] eqn:E3; [|done]. cbn [mbind option_bind] in U.
  destruct (read_cstr (drop 768 (body_of m))) as [s4|] eqn:E4; [|done]. cbn [mbind option_bind] in U.
  destruct (read_cstr (drop 800 (body_of m))) as [s5|] eqn:E5; [|done]. cbn [mbind option_bind] in U.
  rewrite (read_body_string m 0 s1 E1 : read_string 12 m = _), (read_body_string m 256 s2 E2 : read_string 268 m = _),
    (read_body_string m 512 s3 E3 : read_string 524 m = _), (read_body_string m 800 s5 E5 : read_string 812 m = _),
    (read_body_string m 768 s4 E4 : read_string 780 m = _). cbn [mbind res_bind]. clear - U. by injection U as <-.
Qed.

Lemma handle_aggregate_ok flags xid a : of_aggregate_stats_reply.wf a -> stats_ok flags xid (of_aggregate_stats_reply.wire a) ->
  let m := stats_msg OFPST_AGGREGATE flags xid (of_aggregate_stats_reply.wire a) in
  handle_stats_aggregate_reply (12 + Z.of_nat (length (of_aggregate_stats_reply.wire a))) m =
  Ret (Some (Aggregate_stats_in_event (of_aggregate_stats_reply.packet_count a) (of_aggregate_stats_reply.byte_count a) (of_aggregate_stats_reply.flow_count a))).
Proof.
  intros Hw Hs m. destruct (stats_fields OFPST_AGGREGATE flags xid _ ltac:(done) Hs) as (_ & _ & B & _). fold m in B. clearbody m.
  pose proof (unpack_wire a Hw) as U. pose proof (structure_wire a [] (proj1 Hw)) as S. rewrite app_nil_r in S.
  pose proof (msg_wire_length a (proj1 Hw)) as L.
  cbn [msg_unpack msg_wire msg_size of_aggregate_stats_reply.aggregate_stats_reply_message] in U, S, L. unfold of_aggregate_stats_reply.size in *.
  unfold handle_stats_aggregate_reply. rewrite stats_len, L by apply Hs. change (Z.of_nat 24 =? 24) with true. cbn [negb].
  rewrite B, S. cbn [mbind res_bind]. clear S Hw B Hs L. unfold of_aggregate_stats_reply.unpack in U.
  set (w := of_aggregate_stats_reply.wire a) in *. clearbody w. by injection U as <-.
Qed.

Lemma handle_tables_ok flags xid l : Forall of_table_stats.wf l -> stats_ok flags xid (concat (of_table_stats.wire <$> l)) ->
  handle_stats_table_reply (12 + Z.of_nat (length (concat (of_table_stats.wire <$> l)))) (stats_msg OFPST_TABLE flags xid (concat (of_table_stats.wire <$> l))) =
  Ret (Some (Table_stats_in_event (table_fields <$> l))).
Proof.
  intros Hw Hs. destruct (stats_fields OFPST_TABLE flags xid _ ltac:(done) Hs) as (_ & _ & B & _). rewrite Forall_forall in Hw.
  destruct (stats_array table_of of_table_stats.wire table_fields 64 l flags xid) as (M & R & _); [|done|done|].
  { intros x rest Hx. split; [by apply table_of_ok, Hw|]. apply of_table_stats.table_stats_wire_length, (Hw x Hx). }
  unfold handle_stats_table_reply. change (Z.of_nat 64) with 64 in M, R. rewrite M. cbn [Z.eqb negb]. by rewrite B, R.
Qed.

Lemma handle_ports_ok flags xid l : Forall of_port_stats.wf l -> stats_ok flags xid (concat (of_port_stats.wire <$> l)) ->
  handle_stats_port_reply (12 + Z.of_nat (length (concat (of_port_stats.wire <$> l)))) (stats_msg OFPST_PORT flags xid (concat (of_port_stats.wire <$> l))) =
  Ret (Some (Port_stats_in_event (port_stats_fields <$> l))).
Proof.
  intros Hw Hs. destruct (stats_fields OFPST_PORT flags xid _ ltac:(done) Hs) as (_ & _ & B & _). rewrite Forall_forall in Hw.
  destruct (stats_array port_stats_of of_port_stats.wire port_stats_fields 104 l flags xid) as (M & R & _); [|done|done|].
  { intros x rest Hx. split; [by apply port_stats_of_ok, Hw|]. apply of_port_stats.port_stats_wire_length, (Hw x Hx). }
  unfold handle_stats_port_reply. change (Z.of_nat 104) with 104 in M, R. rewrite M. cbn [Z.eqb negb]. by rewrite B, R.
Qed.

Lemma handle_queues_ok flags xid l : Forall of_queue_stats.wf l -> stats_ok flags xid (concat (of_queue_stats.wire <$> l)) ->
  handle_stats_queue_reply (12 + Z.of_nat (length (concat (of_queue_stats.wire <$> l)))) (stats_msg OFPST_QUEUE flags xid (concat (of_queue_stats.wire <$> l))) =
  Ret (Some (Queue_stats_in_event (queue_fields <$> l))).
Proof.
  intros Hw Hs. destruct (stats_fields OFPST_QUEUE flags xid _ ltac:(done) Hs) as (_ & _ & B & _). rewrite Forall_forall in Hw.
  destruct (stats_array queue_stats_of of_queue_stats.wire queue_fields 32 l flags xid) as (_ & R & N); [|done|done|].
  { intros x rest Hx. split; [by apply queue_stats_of_ok, Hw|]. apply of_queue_stats.queue_stats_wire_length, (Hw x Hx). }
  unfold handle_stats_queue_reply. change (Z.of_nat 32) with 32 in R, N. rewrite Z.min_l; [by rewrite B, R|].
  unfold stats_msg. rewrite length_app. lia.
Qed.

Lemma dispatch_stats stack raw depth fuel type flags xid body c e : is_u16 type -> stats_ok flags xid body ->
  handle_stats_reply fuel (stats_msg type flags xid body) = Ret (Some e) ->
  openflow_packet_to_event stack raw depth fuel (stats_msg type flags xid body) c =
  Ret (Some (Ofp_event (datapath_id c) (stats_msg type flags xid body) e), c).
Proof.
  intros Ht Hs E. pose proof (stats_wf type flags xid body Ht Hs) as W.
  eapply (dispatch_header _ _ _ _ (reply_header OFPT_STATS_REPLY body xid)); [apply W|done| |exact E].
  unfold stats_msg, of_stats_reply.wire. rewrite <- !app_assoc. done.
Qed.

(** C33: A received message becomes the event it announces, for packet-ins, removed
    flows, port changes, errors, echo requests, barrier replies and the replies
    with descriptions, aggregates and the statistics of any number of tables, ports
    and queues.  For a message as the wrapper classes encode it, whatever its field
    values, [openflow_packet_to_event] ends, reads nothing outside the message, and
    makes the event with the connection's datapath id and these values. *)
Theorem events_carry_messages stack raw depth fuel m e c : announces m e ->
  openflow_packet_to_event stack raw depth fuel m c = Ret (Some (Ofp_event (datapath_id c) m e), c).
Proof.
  destruct 1 as [p data f Hw [Hv Ht] packet F|r Hw [Hv Ht]|s Hw [Hv Ht]|x data Hw [Hv Ht]|h data Hw [Hv Ht]|h Hw [Hv Ht]|
    flags xid d Hw Hs|flags xid a Hw Hs|flags xid l Hw Hs|flags xid l Hw Hs|flags xid l Hw Hs].
  - eapply (dispatch_header _ _ _ _ (of_packet_in.header p)); [apply Hw|done|unfold of_packet_in.wire; by rewrite <- app_assoc|].
    rewrite Ht. by apply handle_packet_in_ok.
  - eapply (dispatch_header _ _ _ _ (of_flow_removed.header r)); [apply Hw|done|done|]. rewrite Ht. by apply handle_flow_removed_ok.
  - eapply (dispatch_header _ _ _ _ (of_port_status.header s)); [apply Hw|done|done|]. rewrite Ht. by apply handle_port_status_ok.
  - eapply (dispatch_header _ _ _ _ (of_error_msg.header x)); [apply Hw|done|unfold of_error_msg.wire; by rewrite <- app_assoc|].
    rewrite Ht. split; [done|]. by apply handle_error_ok.
  - eapply (dispatch_header _ _ _ _ h); [done|done|done|]. rewrite Ht. unfold handle_echo_request, pull, whole. cbn [OFPT_ECHO_REQUEST Z.eqb Pos.eqb m_size].
    pose proof (of_header.header_wire_length h I) as L. unfold of_header.size in L. rewrite (proj2 (Z.leb_le _ _)) by (rewrite length_app; lia).
    cbn [mbind res_bind base m_data]. do 3 f_equal. rewrite length_app. lia.
  - eapply (dispatch_header _ _ _ _ h []); [done|done|by rewrite app_nil_r|]. by rewrite Ht.
  - apply dispatch_stats; [done|done|]. rewrite handle_stats_ok by done. by apply handle_desc_ok.
  - apply dispatch_stats; [done|done|]. rewrite handle_stats_ok by done. by apply handle_aggregate_ok.
  - apply dispatch_stats; [done|done|]. rewrite handle_stats_ok by done. by apply handle_tables_ok.
  - apply dispatch_stats; [done|done|]. rewrite handle_stats_ok by done. by apply handle_ports_ok.
  - apply dispatch_stats; [done|done|]. rewrite handle_stats_ok by done. by apply handle_queues_ok.
Qed.

(** The statistics of two ports *)
Definition sample_ports : list of_port_stats.t :=
  [of_port_stats.mk 1 (replicate 6 0) 10 20 30 40 0 0 0 0 0 0 0 0; of_port_stats.mk 2 (replicate 6 0) 1 2 3 4 5 6 7 8 9 10 11 12].

Lemma events_carry_messages_witness :
  let m := stats_msg OFPST_PORT 0 5 (concat (of_port_stats.wire <$> sample_ports)) in
  openflow_packet_to_event [] (0, [], []) 0 0 m (Oconn 77 (Some []) 0) =
  Ret (Some (Ofp_event 77 m (Port_stats_in_event [Port_stats 1 [10; 20; 30; 40; 0; 0; 0; 0; 0; 0; 0; 0]; Port_stats 2 [1; 2; 3; 4; 5; 6; 7; 8; 9; 10; 11; 12]])),
    Oconn 77 (Some []) 0).
Proof.
  intros m. apply (events_carry_messages [] (0, [], []) 0 0 m _ (Oconn 77 (Some []) 0)). apply (announces_ports 0 5 sample_ports).
  - unfold sample_ports. repeat apply Forall_cons_2; try apply Forall_nil_2;
      unfold of_port_stats.wf, of_port_stats.shape, is_array, in_width; cbn; split_and!; try lia; repeat apply Forall_cons_2; try apply Forall_nil_2; lia.
  - unfold stats_ok, in_width. split; [lia|split; [lia|]]. vm_compute. reflexivity.
Defined.

(** ** Messages that are too short *)

Definition needed (type : Z) : nat :=
  if type =? OFPT_PACKET_IN then 18 else if type =? OFPT_FLOW_REMOVED then 88 else if type =? OFPT_STATS_REPLY then 10
  else if type =? OFPT_VENDOR then 12 else if type =? OFPT_ERROR then 12 else 0.

Lemma read_short off n m : (length m < off + n)%nat -> read off n m = Aborted.
Proof. intros Hl. unfold read. by rewrite (proj2 (Nat.leb_gt _ _)) by lia. Qed.

(** [handle_packet] notes that a message is shorter than its structure, and
    goes on: a packet-in, removed flow, statistics reply, vendor or error message
    with a header but without all the fields its handler uses is read past its
    end, or fails the assertion of [Buffer::pull]. *)
Theorem short_messages_are_fatal stack raw depth fuel m c : get8 0 m = OFP_VERSION ->
  (8 <= length m < needed (get8 1 m))%nat -> openflow_packet_to_event stack raw depth fuel m c = Aborted.
Proof.
  intros Hv [H8 Hn]. unfold openflow_packet_to_event. rewrite (proj2 (Nat.ltb_ge _ _)), Hv by lia. cbn [Z.eqb OFP_VERSION negb Pos.eqb].
  unfold needed in Hn. set (t := get8 1 m) in *. clearbody t.
  destruct (t =? OFPT_PACKET_IN) eqn:T1.
  { unfold handle_packet_in, pull, whole. cbn [m_size]. by rewrite (proj2 (Z.leb_gt _ _)) by lia. }
  destruct (t =? OFPT_FLOW_REMOVED) eqn:T2; [unfold handle_flow_removed, structure; by rewrite read_short by lia|].
  destruct (t =? OFPT_STATS_REPLY) eqn:T3.
  { apply Z.eqb_eq in T3. subst t. cbn [OFPT_STATS_REPLY Z.eqb Pos.eqb OFPT_QUEUE_GET_CONFIG_REPLY OFPT_PORT_STATUS OFPT_FEATURES_REPLY].
    unfold handle_stats_reply, structure. by rewrite read_short by lia. }
  destruct (t =? OFPT_VENDOR) eqn:T4.
  { apply Z.eqb_eq in T4. subst t. cbn [OFPT_VENDOR Z.eqb Pos.eqb OFPT_QUEUE_GET_CONFIG_REPLY OFPT_PORT_STATUS OFPT_FEATURES_REPLY OFPT_BARRIER_REPLY OFPT_ECHO_REQUEST].
    unfold handle_vendor, structure. by rewrite read_short by lia. }
  destruct (t =? OFPT_ERROR) eqn:T5; [|lia]. apply Z.eqb_eq in T5. subst t.
  cbn [OFPT_ERROR Z.eqb Pos.eqb OFPT_QUEUE_GET_CONFIG_REPLY OFPT_PORT_STATUS OFPT_FEATURES_REPLY OFPT_BARRIER_REPLY OFPT_ECHO_REQUEST OFPT_ECHO_REPLY].
  unfold handle_error, structure. by rewrite read_short by lia.
Qed.

(** A packet-in that is only a header *)
Lemma short_messages_are_fatal_witness :
  openflow_packet_to_event [] (0, [], []) 0 0 [1; 10; 0; 8; 0; 0; 0; 0] (Oconn 77 (Some []) 0) = Aborted.
Proof.
  apply (short_messages_are_fatal [] (0, [], []) 0 0 [1; 10; 0; 8; 0; 0; 0; 0] (Oconn 77 (Some []) 0)); [reflexivity|].
  vm_compute. lia.
Defined.

(** ** Queues and flows *)

(** The ids of queues are lost: [ntohll] moves the 32 bits of the field to the upper
    half, of which nothing is kept. *)
Theorem queue_ids_are_lost fuel m q : is_bytes m -> packet_queue_of fuel m = Ret q -> queue_id q = 0.
Proof.
  intros Hm. unfold packet_queue_of, structure, read. destruct (0 + 8 <=? length m)%nat; [|done]. cbn [mbind res_bind].
  set (w := Bytes.load 0 8 m). assert (is_bytes w) as Hw by (by apply Forall_take, Forall_drop).
  destruct (properties_of _ _ _) as [l| | |]; try done. cbn [mbind res_bind]. intros [= <-]. cbn [queue_id].
  assert (is_u32 (get32 0 w)) as R.
  { unfold get32, in_width. pose proof (of_le_range (Bytes.load 0 4 w) ltac:(by apply Forall_take, Forall_drop)) as R.
    assert (length (Bytes.load 0 4 w) <= 4)%nat as L by (unfold Bytes.load; rewrite length_take; lia).
    split; [lia|]. eapply Z.lt_le_trans; [apply R|]. apply Z.pow_le_mono_r; lia. }
  unfold ntohll. change (htonl 1 =? 1) with false. cbv iota. unfold in_width in R.
  rewrite (wrap_small 32 (get32 0 w)), Z.shiftr_div_pow2, Z.div_small by lia. change (ntohl (u32 0)) with 0. rewrite Z.lor_0_r.
  pose proof (htonl_range (get32 0 w)) as R2. change (htonl (get32 0 w)) with (ntohl (get32 0 w)) in R2. unfold in_width in R2.
  rewrite Z.shiftl_mul_pow2, (wrap_small 64) by (change (2 ^ 64) with (2 ^ 32 * 2 ^ 32); lia).
  unfold wrap. apply Z.mod_mul. lia.
Qed.

(** The properties of a queue are never read: the condition of the loop is a typing
    error. *)
Theorem queue_properties_are_lost fuel m q : packet_queue_of fuel m = Ret q -> 8 <= queue_len q -> properties q = [].
Proof.
  unfold packet_queue_of. destruct (structure 8 m) as [w| | |]; try done. cbn [mbind res_bind].
  destruct (properties_of _ _ _) as [l| | |] eqn:E; try done. cbn [mbind res_bind]. intros [= <-]. cbn [queue_len properties]. intros Hl.
  pose proof (htons_range (get16 4 w)) as R. change (htons (get16 4 w)) with (ntohs (get16 4 w)) in R. unfold in_width in R.
  assert ((u64 (ntohs (get16 4 w) - 8) <=? 2 ^ 64 - 8) = true) as C
    by (apply Z.leb_le; rewrite wrap_small; change (2 ^ 16) with 65536 in R; change (2 ^ 64) with 18446744073709551616; lia).
  destruct fuel; cbn [properties_of] in E; rewrite C in E; by injection E as <-.
Qed.

(** An action of length zero: the constructor never ends. *)
Theorem empty_action_hangs fuel p last m : (p < last)%nat -> read p 4 m = Ret [0; 0; 0; 0] -> actions_of fuel p last m = NoFuel.
Proof.
  intros Hp R. induction fuel as [|fuel IH]; cbn [actions_of]; rewrite (proj2 (Nat.ltb_lt _ _)) by done; [done|].
  rewrite R. cbn [mbind res_bind]. change (Z.to_nat (ntohs (get16 2 [0; 0; 0; 0]))) with O. by rewrite Nat.add_0_r, IH.
Qed.
