(* ===== verification/OfmpExtended.v ===== *)
(** * Long management messages (switch-mgr.cc, openflow-event.cc)

    [Switch_mgr::send_ofmp_msg] cuts messages that are too long for OpenFlow into
    pieces, with the protocol that [handle_ofmp_extended_data] understands: what one
    sends the other puts together. *)

From S2P Require Import Prelude Bytes OfpWire OfpCore OpenflowStream OpenflowConnection Cfg Ofmp OfmpProps OpenflowEvent.

Open Scope Z_scope.

(** ** A piece *)

Lemma take_stored (b d : bytes) n : (n <= length b)%nat -> take (n + length d) (store n d b) = take n b ++ d.
Proof.
  intros Hn. unfold store. rewrite app_assoc, take_app_le by (rewrite length_app, length_take; lia).
  apply take_ge. rewrite length_app, length_take. lia.
Qed.

Lemma piece_form header d more : piece header d more =
  [OFP_VERSION; OFPT_VENDOR] ++ to_le 2 (htons (Z.of_nat (24 + length d))) ++ to_le 4 (h_xid header) ++ to_le 4 (htonl NX_VENDOR_ID) ++
  to_le 4 (htonl NXT_MGMT) ++ to_le 2 (htons OFMPT_EXTENDED_DATA) ++ [0; 0] ++ to_le 2 (h_type header) ++ [if more then 1 else 0; 0] ++ d.
Proof.
  unfold piece, sizeof_ofmp_extended_data. cbv zeta.
  assert (replicate (Z.to_nat 65536) 0 = replicate 24 0 ++ replicate (Z.to_nat 65512) 0) as ->
    by (rewrite <- replicate_add; f_equal; lia).
  set (t := replicate (Z.to_nat 65512) 0). clearbody t.
  set (x := h_xid header). set (y := h_type header). set (z := htons (Z.of_nat (24 + length d))). clearbody x y z.
  set (v := htonl NX_VENDOR_ID). set (w := htonl NXT_MGMT). set (e := htons OFMPT_EXTENDED_DATA). clearbody v w e.
  destruct more; (rewrite take_stored; [reflexivity|cbn; lia]).
Qed.

Record piece_fields (header d : bytes) (more : bool) (p : bytes) : Prop := {
  pf_length : length p = (24 + length d)%nat;
  pf_xid : h_xid p = h_xid header;
  pf_subtype : h_subtype p = htonl NXT_MGMT;
  pf_type : h_type p = htons OFMPT_EXTENDED_DATA;
  pf_more : get8 22 p = if more then 1 else 0;
  pf_data : drop 24 p = d;
  pf_message : (length d <= MAX_PIECE)%nat -> ntohs (get16 2 p) = Z.of_nat (length p) /\ (length p <= Z.to_nat 65535)%nat
}.

Lemma u32_of_le (m : bytes) off : is_bytes m -> is_u32 (get32 off m).
Proof.
  intros Hm. unfold get32, in_width. pose proof (of_le_range (Bytes.load off 4 m) ltac:(by apply Forall_take, Forall_drop)) as R.
  assert (length (Bytes.load off 4 m) <= 4)%nat as L by (unfold Bytes.load; rewrite length_take; lia).
  split; [lia|]. eapply Z.lt_le_trans; [apply R|]. apply Z.pow_le_mono_r; lia.
Qed.
Lemma u16_of_le (m : bytes) off : is_bytes m -> is_u16 (get16 off m).
Proof.
  intros Hm. unfold get16, in_width. pose proof (of_le_range (Bytes.load off 2 m) ltac:(by apply Forall_take, Forall_drop)) as R.
  assert (length (Bytes.load off 2 m) <= 2)%nat as L by (unfold Bytes.load; rewrite length_take; lia).
  split; [lia|]. eapply Z.lt_le_trans; [apply R|]. apply Z.pow_le_mono_r; lia.
Qed.

Lemma get_app_le (a c : bytes) off n x : length a = off -> is_bytes (to_le n x) -> 0 <= x < 2 ^ (8 * Z.of_nat n) ->
  of_le (Bytes.load off n (a ++ to_le n x ++ c)) = x.
Proof. intros Ha _ Hx. rewrite load_app by (done || apply length_to_le). by apply of_le_to_le_id. Qed.

Lemma piece_ok header d more : is_bytes header -> piece_fields header d more (piece header d more).
Proof.
  intros Hh. rewrite piece_form. pose proof (htons_range (Z.of_nat (24 + length d))) as Rz. set (z := to_le 2 (htons (Z.of_nat (24 + length d)))).
  assert (length z = 2%nat) as Lz by apply length_to_le.
  assert ((length d <= MAX_PIECE)%nat -> ntohs (of_le z) = Z.of_nat (24 + length d)) as Nz.
  { intros Hd. assert (Z.of_nat (length d) <= 65511) as Hd' by (unfold MAX_PIECE in Hd; lia).
    unfold z. rewrite of_le_to_le_id by apply Rz. apply ntohs_htons. unfold in_width. lia. }
  clearbody z. set (x := h_xid header). assert (is_u32 x) as Hx by (by apply u32_of_le).
  pose proof (length_to_le 4 x) as Lx. pose proof (to_le_bytes 4 x) as Bx.
  split.
  - rewrite !length_app, Lz, !length_to_le. done.
  - unfold h_xid at 1, get32. rewrite app_assoc. apply get_app_le; [by rewrite length_app, Lz|done|exact Hx].
  - unfold h_subtype, get32. rewrite 3 app_assoc. apply get_app_le; [by rewrite !length_app, Lz, !length_to_le|apply to_le_bytes|apply htonl_range].
  - unfold h_type, get16. rewrite 4 app_assoc. apply get_app_le; [by rewrite !length_app, Lz, !length_to_le|apply to_le_bytes|apply htons_range].
  - unfold get8. rewrite 7 app_assoc. change ([if more then 1 else 0; 0] ++ d) with ([if more then 1 else 0] ++ 0 :: d).
    rewrite load_app by (done || by rewrite !length_app, Lz, !length_to_le). by destruct more.
  - rewrite 8 app_assoc. rewrite drop_app_ge by (rewrite !length_app, Lz, !length_to_le; done).
    rewrite !length_app, Lz, !length_to_le. done.
  - intros Hd. split.
    + unfold get16. rewrite load_app by done. rewrite (Nz Hd). by rewrite !length_app, Lz, !length_to_le.
    + rewrite !length_app, Lz, !length_to_le. cbn [length]. unfold MAX_PIECE in Hd. lia.
Qed.

(** ** Sending *)

(** A connection that accepts everything *)
Definition accept (m : bytes) (sent : list bytes) : Z * list bytes := (0, sent ++ [m]).

(** The pieces with the data [ds] *)
Fixpoint pieces (header : bytes) (ds : list bytes) : list bytes :=
  match ds with
  | [] => []
  | d :: ds => piece header d (negb (is_nil ds)) :: pieces header ds
  end.

Lemma send_pieces_ok fuel header rest s : (length rest <= fuel)%nat ->
  exists ds, send_pieces accept fuel header rest s = Ret (0, s ++ pieces header ds) /\ concat ds = rest /\
    Forall (fun d => d <> [] /\ (length d <= MAX_PIECE)%nat) ds.
Proof.
  revert rest s. induction fuel as [|fuel IH]; intros rest s Hf.
  - destruct rest; [|cbn in Hf; lia]. exists []. cbn. by rewrite app_nil_r.
  - destruct rest as [|b rest]; [exists []; cbn; by rewrite app_nil_r|]. cbn [send_pieces].
    set (r := b :: rest) in *. set (n := Nat.min MAX_PIECE (length r)).
    assert (1 <= MAX_PIECE)%nat as HM by (apply Nat2Z.inj_le; unfold MAX_PIECE; rewrite Z2Nat.id; lia).
    assert (1 <= n <= length r)%nat as Hn by (unfold n, r; cbn [length]; lia).
    cbn [send_attempts accept]. change (0 =? EAGAIN) with false. change (0 =? 0) with true. cbv iota.
    destruct (IH (drop n r) (s ++ [piece header (take n r) (n <? length r)%nat])) as (ds & E & C & F); [rewrite length_drop; lia|].
    rewrite E. exists (take n r :: ds). split_and!.
    + cbn [pieces]. rewrite <- app_assoc. cbn [app]. do 5 f_equal. destruct (Nat.ltb_spec n (length r)) as [H|H].
      * destruct ds; [|done]. apply (f_equal length) in C. rewrite length_drop in C. cbn [concat length] in C. lia.
      * assert (drop n r = []) as D by (apply drop_ge; lia). rewrite D in C. destruct ds as [|d ds]; [done|].
        apply Forall_cons in F as [[F _] _]. destruct d; done.
    + cbn [concat]. by rewrite C, take_drop.
    + constructor; [|done]. rewrite length_take. split; [|unfold n; lia].
      intros T. apply (f_equal length) in T. rewrite length_take in T. cbn [length] in T. lia.
Qed.

(** ** Receiving *)

Section receive.
Context (stack : bytes) (raw : Z * bytes * bytes) (fuel : nat).
Abbreviation handle := (handle_nx_vendor stack raw).

(** The messages of a list, one after the other *)
Fixpoint receive (depth : nat) (ms : list bytes) (c : oconn) : res (list (option event) * oconn) :=
  match ms with
  | [] => Ret ([], c)
  | m :: ms => '(e, c) ← handle depth fuel m c; '(es, c) ← receive depth ms c; Ret (e :: es, c)
  end.

(** What has been gathered of the message with [header] *)
Definition gathered (header : bytes) (c : oconn) : option bytes :=
  b ← ext_data_buffer c; Some (if ext_data_xid c =? h_xid header then b else []).

(** A piece is appended to what has been gathered. *)
Lemma handle_piece depth header d more c b : is_bytes header -> d <> [] -> gathered header c = Some b ->
  let c' := Oconn (datapath_id c) (Some (b ++ d)) (h_xid header) in
  handle depth fuel (piece header d more) c =
  if more then Ret (None, c')
  else if Z.of_nat (length (b ++ d)) <? 65536 then Ret (None, c')
  else if negb (h_vendor (b ++ d) =? htonl NX_VENDOR_ID) || negb (h_subtype (b ++ d) =? htonl NXT_MGMT)
       || (h_type (b ++ d) =? htonl OFMPT_EXTENDED_DATA) then Ret (None, c')
  else match depth with
       | O => NoFuel
       | S depth =>
           '(e, c) ← handle depth fuel (put16 2 0 (put32 4 (h_xid header) (b ++ d))) (set_ext None c');
           Ret (e, set_ext (Some []) c)
       end.
Proof.
  intros Hh Hd G c'. destruct (piece_ok header d more Hh) as [L X S T M D _]. set (p := piece header d more) in *. clearbody p.
  assert (length d <> O) as Ld by (destruct d; done).
  unfold gathered in G. destruct (ext_data_buffer c) as [b0|] eqn:B; [|done]. cbn [mbind option_bind] in G. injection G as G.
  destruct depth as [|depth]; cbn [handle_nx_vendor]; unfold sizeof_nicira_header, sizeof_ofmp_header, sizeof_ofmp_extended_data;
    rewrite !(proj2 (Nat.ltb_ge _ _)), X, S, T, M, D by lia; rewrite ntohl_htonl by done; cbn [NXT_MGMT Z.eqb Pos.eqb negb];
    rewrite Z.eqb_refl, B, (proj2 (Nat.leb_gt _ _)) by lia; cbn [negb];
    (destruct (ext_data_xid c =? h_xid header) eqn:E; cbn [mbind res_bind];
     [rewrite B|destruct (is_nil b0) eqn:N; cbn [mbind res_bind set_ext ext_data_buffer datapath_id];
       [destruct b0; [|done]; rewrite B|]]); subst b; by destruct more.
Qed.

Lemma receive_more depth header ds c b : is_bytes header -> Forall (fun d => d <> []) ds -> gathered header c = Some b -> ds <> [] ->
  receive depth ((fun d => piece header d true) <$> ds) c =
  Ret (replicate (length ds) None, Oconn (datapath_id c) (Some (b ++ concat ds)) (h_xid header)).
Proof.
  intros Hh Hds. revert c b. induction Hds as [|d ds Hd Hds IH]; intros c b G Hn; [done|]. cbn [fmap list_fmap receive].
  rewrite (handle_piece depth header d true c b Hh Hd G). cbn [mbind res_bind]. destruct ds as [|d2 ds].
  - cbn. by rewrite app_nil_r.
  - rewrite (IH _ (b ++ d)); [|unfold gathered; cbn; by rewrite Z.eqb_refl|done]. cbn [mbind res_bind datapath_id concat length replicate].
    by rewrite <- !app_assoc.
Qed.
End receive.

Lemma receive_app stack raw fuel depth ms1 ms2 c es1 c1 : receive stack raw fuel depth ms1 c = Ret (es1, c1) ->
  receive stack raw fuel depth (ms1 ++ ms2) c = ('(es2, c2) ← receive stack raw fuel depth ms2 c1; Ret (es1 ++ es2, c2)).
Proof.
  revert c es1. induction ms1 as [|m ms1 IH]; intros c es1; cbn [receive app].
  - intros [= <- <-]. by destruct (receive stack raw fuel depth ms2 c) as [[es2 c2]| | |].
  - destruct (handle_nx_vendor stack raw depth fuel m c) as [[e c']| | |]; try done. cbn [mbind res_bind].
    destruct (receive stack raw fuel depth ms1 c') as [[es c3]| | |] eqn:E; try done. cbn [mbind res_bind]. intros [= <- ->].
    rewrite (IH c' es E). by destruct (receive stack raw fuel depth ms2 c1) as [[es2 c2]| | |].
Qed.

Lemma pieces_snoc header ds d : pieces header (ds ++ [d]) = ((fun d => piece header d true) <$> ds) ++ [piece header d false].
Proof. induction ds as [|d' ds IH]; [done|]. cbn [pieces app fmap list_fmap]. rewrite IH. by destruct ds. Qed.

(** ** The headers of the message *)

Lemma zero_length m : (20 <= length m)%nat -> is_bytes m -> let m' := put16 2 0 m in
  h_xid m' = h_xid m /\ h_vendor m' = h_vendor m /\ h_subtype m' = h_subtype m /\ h_type m' = h_type m /\
  length m' = length m /\ put16 2 0 (put32 4 (h_xid m) m') = m' /\ is_bytes m'.
Proof.
  do 20 (destruct m as [|? m]; [cbn; lia|]). intros _ Hm. repeat (apply Forall_cons in Hm as [? Hm]).
  assert (to_le 4 (of_le [z3; z4; z5; z6]) = [z3; z4; z5; z6]) as E by (apply (to_le_of_le_n 4); [repeat apply Forall_cons_2; try apply Forall_nil_2; done|done]).
  split_and!; try reflexivity.
  - change (h_xid (z :: _)) with (of_le [z3; z4; z5; z6]). unfold put16 at 2, put32, store. rewrite E. reflexivity.
  - cbn. repeat apply Forall_cons_2; done.
Qed.

Lemma h_type_small m : is_bytes m -> (h_type m =? htonl OFMPT_EXTENDED_DATA) = false.
Proof. intros Hm. pose proof (u16_of_le m 16 Hm) as R. unfold in_width in R. apply Z.eqb_neq. change (htonl OFMPT_EXTENDED_DATA) with 134217728. unfold h_type. lia. Qed.

(** What the receiver does with all the pieces of a message *)
Lemma receive_pieces stack raw fuel depth m ds c b0 : is_bytes m -> Z.of_nat (length m) >= 65536 ->
  h_vendor m = htonl NX_VENDOR_ID -> h_subtype m = htonl NXT_MGMT ->
  ext_data_buffer c = Some b0 -> b0 = [] \/ ext_data_xid c <> h_xid m ->
  let m' := put16 2 0 m in
  concat ds = m' -> Forall (fun d => d <> []) ds -> exists n,
  receive stack raw fuel (S depth) (pieces m' ds) c =
    ('(e, c') ← handle_nx_vendor stack raw depth fuel m' (Oconn (datapath_id c) None (h_xid m));
     Ret (replicate n None ++ [e], set_ext (Some []) c')).
Proof.
  intros Hm Hl Hv Hs Hb Hx m' Hc Hds. destruct (zero_length m ltac:(lia) Hm) as (X & V & S & T & L & P & B). fold m' in X, V, S, T, L, P, B.
  assert (gathered m' c = Some []) as G.
  { unfold gathered. rewrite Hb, X. cbn. destruct Hx as [->|Hx]; [by destruct (_ =? _)|]. by rewrite (proj2 (Z.eqb_neq _ _)). }
  destruct ds as [|d ds _] using rev_ind; [cbn in Hc; rewrite <- Hc in L; cbn in L; lia|]. rewrite concat_app in Hc. cbn [concat] in Hc. rewrite app_nil_r in Hc.
  apply Forall_app in Hds as [Hds Hd]. rewrite Forall_singleton in Hd. rewrite pieces_snoc. exists (length ds).
  assert (forall c1, gathered m' c1 = Some (concat ds) -> datapath_id c1 = datapath_id c ->
    handle_nx_vendor stack raw (Datatypes.S depth) fuel (piece m' d false) c1 =
    ('(e, c') ← handle_nx_vendor stack raw depth fuel m' (Oconn (datapath_id c) None (h_xid m)); Ret (e, set_ext (Some []) c'))) as LAST.
  { intros c1 G1 D1. rewrite (handle_piece stack raw fuel (Datatypes.S depth) m' d false c1 (concat ds) B Hd G1). rewrite Hc, D1, L, V, S, X, Hv, Hs, !Z.eqb_refl, h_type_small by done.
    rewrite (proj2 (Z.ltb_ge _ _)) by lia. cbn [negb orb set_ext datapath_id ext_data_xid]. by rewrite P. }
  destruct ds as [|d0 ds].
  - cbn [fmap list_fmap app receive length replicate]. rewrite LAST by done.
    by destruct (handle_nx_vendor stack raw depth fuel m' _) as [[e c']| | |].
  - rewrite (receive_app _ _ _ _ _ _ _ _ _ (receive_more stack raw fuel _ m' (d0 :: ds) c [] B Hds G ltac:(done))). cbn [receive].
    rewrite LAST; [|unfold gathered; cbn; by rewrite Z.eqb_refl|done].
    by destruct (handle_nx_vendor stack raw depth fuel m' _) as [[e c']| | |].
Qed.

Lemma sent_pieces m : Z.of_nat (length m) >= 65535 -> (20 <= length m)%nat -> is_bytes m ->
  exists ds, send_ofmp_msg accept m [] = Ret (0, pieces (put16 2 0 m) ds) /\ concat ds = put16 2 0 m /\
    Forall (fun d => d <> [] /\ (length d <= MAX_PIECE)%nat) ds.
Proof.
  intros Hl H20 Hm. unfold send_ofmp_msg. rewrite (proj2 (Z.ltb_ge _ _)) by lia.
  destruct (send_pieces_ok (length (put16 2 0 m)) (put16 2 0 m) (put16 2 0 m) []) as (ds & E & C & F); [done|]. by exists ds.
Qed.

Lemma pieces_messages header ds : is_bytes header -> Forall (fun d => d <> [] /\ (length d <= MAX_PIECE)%nat) ds ->
  Forall (fun p => ntohs (get16 2 p) = Z.of_nat (length p) /\ (length p <= Z.to_nat 65535)%nat) (pieces header ds).
Proof.
  intros Hh. induction 1 as [|d ds [_ Hd] _ IH]; [constructor|]. cbn [pieces]. constructor; [|done].
  by apply (pf_message _ _ _ _ (piece_ok header d (negb (is_nil ds)) Hh)).
Qed.

(** C32: A management message of 65536 bytes or more survives being cut up: the
    pieces that [send_ofmp_msg] sends are messages of at most 65535 bytes with
    their length in the header, and the receiver, whatever it did before, makes no
    event of any but the last, at which it has put the message together and handles
    it as if it had come whole (with the length field zero, as the protocol says). *)
Theorem long_messages_reassembled stack raw fuel m c b0 : is_bytes m -> Z.of_nat (length m) >= 65536 ->
  h_vendor m = htonl NX_VENDOR_ID -> h_subtype m = htonl NXT_MGMT -> h_type m <> htons OFMPT_EXTENDED_DATA ->
  ext_data_buffer c = Some b0 -> b0 = [] \/ ext_data_xid c <> h_xid m ->
  exists ms n, send_ofmp_msg accept m [] = Ret (0, ms) /\
    Forall (fun p => ntohs (get16 2 p) = Z.of_nat (length p) /\ (length p <= Z.to_nat 65535)%nat) ms /\
    receive stack raw fuel 1 ms c =
      (e ← handle_mgmt stack raw fuel (h_type m) (put16 2 0 m) c;
       Ret (replicate n None ++ [e], Oconn (datapath_id c) (Some []) (h_xid m))).
Proof.
  intros Hm Hl Hv Hs Ht Hb Hx. destruct (zero_length m ltac:(lia) Hm) as (X & V & S & T & L & _ & B).
  destruct (sent_pieces m ltac:(lia) ltac:(lia) Hm) as (ds & E & C & F).
  destruct (receive_pieces stack raw fuel 0 m ds c b0 Hm Hl Hv Hs Hb Hx C) as [n R]; [eapply Forall_impl; [exact F|]; naive_solver|].
  exists (pieces (put16 2 0 m) ds), n. split_and!; [done|by apply pieces_messages|]. rewrite R. cbn [handle_nx_vendor].
  rewrite L, S, X, T, Hs. unfold sizeof_nicira_header, sizeof_ofmp_header. rewrite !(proj2 (Nat.ltb_ge _ _)) by lia.
  rewrite ntohl_htonl by done. cbn [NXT_MGMT Z.eqb Pos.eqb negb ext_data_xid]. rewrite Z.eqb_refl, (proj2 (Z.eqb_neq _ _) Ht). cbn [negb mbind res_bind].
  replace (handle_mgmt stack raw fuel (h_type m) (put16 2 0 m) (Oconn (datapath_id c) None (h_xid m)))
    with (handle_mgmt stack raw fuel (h_type m) (put16 2 0 m) c) by (unfold handle_mgmt; by destruct c).
  by destruct (handle_mgmt stack raw fuel (h_type m) (put16 2 0 m) c).
Qed.

(** A resources update of 65536 bytes that is one TLV of an unknown type after
    another, and an end *)
Definition long_update : bytes :=
  [1; 4; 0; 0; 0; 0; 0; 9; 0; 0; 35; 32; 0; 0; 0; 8; 0; 3; 0; 0] ++ end_tlv ++ replicate (Z.to_nat 65512) 0.

Lemma long_update_ok : is_bytes long_update /\ Z.of_nat (length long_update) >= 65536 /\
  h_vendor long_update = htonl NX_VENDOR_ID /\ h_subtype long_update = htonl NXT_MGMT /\ h_type long_update <> htons OFMPT_EXTENDED_DATA.
Proof.
  split_and!; try reflexivity.
  - apply Forall_app_2; [repeat apply Forall_cons_2; try apply Forall_nil_2; done|].
    apply Forall_app_2; [repeat apply Forall_cons_2; try apply Forall_nil_2; done|]. by apply Forall_replicate.
  - unfold long_update. rewrite !length_app, length_replicate. cbn [length end_tlv]. lia.
  - vm_compute. discriminate.
Qed.

Lemma long_messages_reassembled_witness : exists ms n, send_ofmp_msg accept long_update [] = Ret (0, ms) /\
  receive [] (0, [], []) 1 1 ms (Oconn 5 (Some [1; 2; 3]) 0) =
    (e ← handle_mgmt [] (0, [], []) 1 (h_type long_update) (put16 2 0 long_update) (Oconn 5 (Some [1; 2; 3]) 0);
     Ret (replicate n None ++ [e], Oconn 5 (Some []) (h_xid long_update))).
Proof.
  destruct long_update_ok as (H1 & H2 & H3 & H4 & H5).
  destruct (long_messages_reassembled [] (0, [], []) 1 long_update (Oconn 5 (Some [1; 2; 3]) 0) [1; 2; 3] H1 H2 H3 H4 H5) as (ms & n & E & _ & R).
  - reflexivity.
  - right. vm_compute. discriminate.
  - exists ms, n. split; [exact E|exact R].
Defined.

(** ** Where it goes wrong *)

(** A message of 65535 bytes is cut up, and then rejected as too short. *)
Theorem limit_is_off_by_one stack raw fuel m c b0 : is_bytes m -> Z.of_nat (length m) = 65535 ->
  ext_data_buffer c = Some b0 -> b0 = [] \/ ext_data_xid c <> h_xid m ->
  exists ms n, send_ofmp_msg accept m [] = Ret (0, ms) /\
    receive stack raw fuel 1 ms c = Ret (replicate n None, Oconn (datapath_id c) (Some (put16 2 0 m)) (h_xid m)).
Proof.
  intros Hm Hl Hb Hx. destruct (zero_length m ltac:(lia) Hm) as (X & _ & _ & _ & L & _ & B).
  destruct (sent_pieces m ltac:(lia) ltac:(lia) Hm) as (ds & E & C & F). set (m' := put16 2 0 m) in *.
  assert (Forall (fun d => d <> []) ds) as Hds by (eapply Forall_impl; [exact F|]; naive_solver). clear F.
  assert (gathered m' c = Some []) as G.
  { unfold gathered. rewrite Hb, X. cbn. destruct Hx as [->|Hx]; [by destruct (_ =? _)|]. by rewrite (proj2 (Z.eqb_neq _ _)). }
  exists (pieces m' ds), (length ds). split; [done|].
  destruct ds as [|d ds _] using rev_ind; [apply (f_equal length) in C; cbn [concat length] in C; lia|].
  rewrite concat_app in C. cbn [concat] in C. rewrite app_nil_r in C. apply Forall_app in Hds as [Hds Hd]. rewrite Forall_singleton in Hd.
  rewrite pieces_snoc, length_app. cbn [length]. rewrite Nat.add_comm, <- X.
  assert (forall c1, gathered m' c1 = Some (concat ds) -> datapath_id c1 = datapath_id c ->
    handle_nx_vendor stack raw 1 fuel (piece m' d false) c1 = Ret (None, Oconn (datapath_id c) (Some m') (h_xid m'))) as LAST.
  { intros c1 G1 D1. rewrite (handle_piece stack raw fuel 1 m' d false c1 (concat ds) B Hd G1), C, D1, L.
    by rewrite (proj2 (Z.ltb_lt _ _)) by lia. }
  destruct ds as [|d0 ds].
  - cbn [fmap list_fmap app receive length replicate Nat.add]. by rewrite LAST by done.
  - rewrite (receive_app _ _ _ _ _ _ _ _ _ (receive_more stack raw fuel _ m' (d0 :: ds) c [] B Hds G ltac:(done))). cbn [receive].
    rewrite LAST; [|unfold gathered; cbn; by rewrite Z.eqb_refl|done]. cbn [mbind res_bind]. by rewrite <- replicate_S_end.
Qed.

(** The check for an embedded piece compares a 16-bit field with [htonl] of the
    type, which never holds: a piece within a long message is handled while there is
    no buffer to put its data in. *)
Theorem nested_pieces_are_fatal stack raw fuel m c b0 : is_bytes m -> Z.of_nat (length m) >= 65536 ->
  h_vendor m = htonl NX_VENDOR_ID -> h_subtype m = htonl NXT_MGMT -> h_type m = htons OFMPT_EXTENDED_DATA ->
  ext_data_buffer c = Some b0 -> b0 = [] \/ ext_data_xid c <> h_xid m ->
  exists ms, send_ofmp_msg accept m [] = Ret (0, ms) /\ receive stack raw fuel 1 ms c = Aborted.
Proof.
  intros Hm Hl Hv Hs Ht Hb Hx. destruct (zero_length m ltac:(lia) Hm) as (X & V & S & T & L & _ & B).
  destruct (sent_pieces m ltac:(lia) ltac:(lia) Hm) as (ds & E & C & F).
  destruct (receive_pieces stack raw fuel 0 m ds c b0 Hm Hl Hv Hs Hb Hx C) as [n R]; [eapply Forall_impl; [exact F|]; naive_solver|].
  exists (pieces (put16 2 0 m) ds). split; [done|]. rewrite R. cbn [handle_nx_vendor].
  rewrite L, S, X, T, Hs, Ht. unfold sizeof_nicira_header, sizeof_ofmp_header, sizeof_ofmp_extended_data. rewrite !(proj2 (Nat.ltb_ge _ _)) by lia.
  rewrite ntohl_htonl by done. cbn [NXT_MGMT Z.eqb Pos.eqb negb ext_data_xid]. rewrite !Z.eqb_refl. cbn [negb mbind res_bind].
  by rewrite (proj2 (Nat.leb_gt _ _)) by lia.
Qed.

(** A connection that is not ready for the ten attempts: the piece is dropped and
    the caller told that the message was sent. *)
Theorem busy_connection_drops_pieces m : Z.of_nat (length m) >= 65535 -> (20 <= length m)%nat -> is_bytes m ->
  send_ofmp_msg (fun _ (n : Z) => (EAGAIN, n)) m 0 = Ret (0, 0).
Proof.
  intros Hl H20 Hm. unfold send_ofmp_msg. rewrite (proj2 (Z.ltb_ge _ _)) by lia.
  assert (forall fuel h rest, (length rest <= fuel)%nat -> send_pieces (fun _ (n : Z) => (EAGAIN, n)) fuel h rest 0 = Ret (0, 0)) as G; [|by apply G].
  assert (1 <= MAX_PIECE)%nat as HM by (apply Nat2Z.inj_le; unfold MAX_PIECE; rewrite Z2Nat.id; lia).
  induction fuel as [|fuel IH]; intros h [|b rest] Hf; try done; [cbn in Hf; lia|]. cbn [send_pieces].
  change (send_attempts _ 10 _ 0) with (@None Z, 0). cbv iota. apply IH. rewrite length_drop. cbn [length] in *. lia.
Qed.
