(* ===== verification/Handshake.v ===== *)
(** * The handshake with a new connection (src/builtin/nox.cc, [Handshake_fsm])

    [run] is called whenever the state machine is due.  What it learns from the
    outside in one call (the clock, the result of sending or receiving, whether a
    switch authenticator is registered) is its argument; what it does is a list of
    actions.  [Aborted] is a null pointer or a failed assertion. *)

From S2P Require Import Prelude Bytes OfpWire OfpCore OpenflowStream OpenflowConnection OpenflowSend Cfg Ofmp.

Open Scope Z_scope.

Inductive Handshake_state :=
| SEND_FEATURES_REQ | SEND_CONFIG | RECV_FEATURES_REPLY
| SEND_MGMT_CAPABILITY_REQ | RECV_MGMT_CAPABILITY_REPLY
| SEND_MGMT_RESOURCES_REQ | RECV_MGMT_RESOURCES_UPDATE
| SEND_MGMT_CONFIG_REQ | RECV_MGMT_CONFIG_UPDATE
| CHECK_SWITCH_AUTH | CHECK_MGMT_AUTH | REGISTER_SWITCH | REGISTER_MGMT.
#[export] Instance state_eq_dec : EqDecision Handshake_state.
Proof. solve_decision. Defined.

Inductive request := Features_request | Switch_config | Capability_request | Resources_request | Config_request.

(** What the state machine does; a registered connection is taken over, with the
    data of its event or manager. *)
Inductive action :=
| Send (r : request)
| Echo_reply (m : bytes)
| Ask_auth (features : bytes)
| Register_switch (dp mgmt : Z) (features : bytes)
| Register_mgmt (mgmt : Z) (caps config : cfg) (res : resources)
| Clear_flows (dp : Z) (msg : bytes)
| Exit (error : Z).

(** The object: [None] is a null pointer; [pending] is the state that a callback
    given to the authenticator will continue in. *)
Record fsm := Fsm {
  state : Handshake_state;
  timeout : Z;
  switch_approved : bool;
  mgmt_id : Z;
  swm_caps : cfg;
  swm_config : cfg;
  ext_data_buffer : option bytes;
  ext_data_xid : Z;
  features_reply : option bytes;
  resources_event : option resources;
  pending : option Handshake_state
}.

Definition UINT32_MAX : Z := 4294967295.
Definition EPERM : Z := 1.
Definition EINVAL : Z := 22.
Definition ETIMEDOUT : Z := 110.

(** [Handshake_fsm::Handshake_fsm]; [raw] is the memory of the two cookies. *)
Definition new_fsm (now timeout_secs : Z) (raw : bytes * bytes) : fsm :=
  Fsm SEND_FEATURES_REQ (now + 1000000 * timeout_secs) false 0 (new_cfg raw.1) (new_cfg raw.2) (Some []) UINT32_MAX None None None.

Definition set_state (st : Handshake_state) (s : fsm) : fsm :=
  Fsm st (timeout s) (switch_approved s) (mgmt_id s) (swm_caps s) (swm_config s) (ext_data_buffer s) (ext_data_xid s)
    (features_reply s) (resources_event s) (pending s).
Definition set_ext (b : option bytes) (xid : Z) (s : fsm) : fsm :=
  Fsm (state s) (timeout s) (switch_approved s) (mgmt_id s) (swm_caps s) (swm_config s) b xid
    (features_reply s) (resources_event s) (pending s).

(** What a call of [run] learns: the time, in microseconds, at its two possible
    readings of the clock, the error a send returns, the error and the message a
    receive returns, and whether there is an authenticator. *)
Record input := Input { now : Z; now_again : Z; send_error : Z; recv_error : Z; recv_msg : bytes; has_auth : bool }.

(** A call ends with the machine blocked or ready to run again, or gone. *)
Definition outcome : Type := list action * option fsm.
Definition goes_on (s : fsm) : outcome := ([], Some s).
Definition do_exit (error : Z) : outcome := ([Exit error], None).

(** ** [send_message] *)
Definition send_message (i : input) (s : fsm) : outcome :=
  let send r next :=
    if send_error i =? 0 then ([Send r], Some (set_state next s))
    else if send_error i =? EAGAIN then goes_on s
    else do_exit (send_error i) in
  match state s with
  | SEND_FEATURES_REQ => send Features_request SEND_CONFIG
  | SEND_CONFIG => send Switch_config RECV_FEATURES_REPLY
  | SEND_MGMT_CAPABILITY_REQ => send Capability_request RECV_MGMT_CAPABILITY_REPLY
  | SEND_MGMT_RESOURCES_REQ => send Resources_request RECV_MGMT_RESOURCES_UPDATE
  | SEND_MGMT_CONFIG_REQ => send Config_request RECV_MGMT_CONFIG_UPDATE
  | _ => do_exit EINVAL
  end.

(** ** Management messages *)

Definition manager_key : bytes := [99; 111; 109; 46; 110; 105; 99; 105; 114; 97; 46; 109; 103; 109; 116; 46; 109; 97; 110; 97; 103; 101; 114].

Section management.
Context (stack : bytes) (fuel : nat).

(** [handle_ofmp_capability] *)
Definition handle_ofmp_capability (m : bytes) (s : fsm) : res fsm :=
  if (length m <? sizeof_ofmp_capability_reply)%nat then Ret s
  else if negb (get32 20 m =? htonl OFMPCAF_SIMPLE) then Ret s
  else
    caps ← Cfg.load stack (drop sizeof_ofmp_capability_reply m) (swm_caps s);
    let s := Fsm (state s) (timeout s) (switch_approved s) (ntohll (get64 24 m)) caps (swm_config s) (ext_data_buffer s)
      (ext_data_xid s) (features_reply s) (resources_event s) (pending s) in
    if negb (get_bool 0 manager_key caps) then
      match features_reply s with
      | None => Aborted
      | Some _ => Ret (set_state CHECK_SWITCH_AUTH s)
      end
    else Ret (set_state SEND_MGMT_RESOURCES_REQ s).

(** [handle_ofmp_resources] *)
Definition handle_ofmp_resources (m : bytes) (s : fsm) : res fsm :=
  r ← resources_update_event fuel m;
  Ret (Fsm (state s) (timeout s) (switch_approved s) (mgmt_id s) (swm_caps s) (swm_config s) (ext_data_buffer s)
    (ext_data_xid s) (features_reply s) (Some r) (pending s)).

(** [handle_ofmp_config_update] *)
Definition handle_ofmp_config_update (m : bytes) (s : fsm) : res fsm :=
  if (length m <? sizeof_ofmp_config_update)%nat then Ret s
  else if negb (get32 20 m =? htonl OFMPCOF_SIMPLE) then Ret s
  else
    config ← Cfg.load stack (drop sizeof_ofmp_config_update m) (swm_config s);
    Ret (Fsm (state s) (timeout s) (switch_approved s) (mgmt_id s) (swm_caps s) config (ext_data_buffer s)
      (ext_data_xid s) (features_reply s) (resources_event s) (pending s)).

(** The cases of [handle_vendor] besides extended data *)
Definition handle_ofmp (type : Z) (m : bytes) (s : fsm) : res fsm :=
  if type =? OFMPT_CAPABILITY_REPLY then
    if decide (state s = RECV_MGMT_CAPABILITY_REPLY) then handle_ofmp_capability m s else Ret s
  else if type =? OFMPT_RESOURCES_UPDATE then
    if decide (state s = RECV_MGMT_RESOURCES_UPDATE) then s ← handle_ofmp_resources m s; Ret (set_state SEND_MGMT_CONFIG_REQ s)
    else Ret s
  else if type =? OFMPT_CONFIG_UPDATE then
    if decide (state s = RECV_MGMT_CONFIG_UPDATE) then s ← handle_ofmp_config_update m s; Ret (set_state CHECK_MGMT_AUTH s)
    else Ret s
  else if type =? OFMPT_ERROR then if (length m <? sizeof_ofmp_error_msg)%nat then Aborted else Ret s
  else Ret s.

(** [handle_vendor] and [handle_ofmp_extended_data], which calls it again *)
Fixpoint handle_vendor (depth : nat) (m : bytes) (s : fsm) : res fsm :=
  if (length m <? sizeof_nicira_header)%nat then Ret s
  else if negb (h_vendor m =? htonl NX_VENDOR_ID) || negb (h_subtype m =? htonl NXT_MGMT) then Ret s
  else if (length m <? sizeof_ofmp_header)%nat then Ret s
  else
    s ← (if ext_data_xid s =? h_xid m then Ret s
         else match ext_data_buffer s with
              | None => Aborted
              | Some b => Ret (if is_nil b then s else set_ext (Some []) (ext_data_xid s) s)
              end);
    if negb (ntohs (h_type m) =? OFMPT_EXTENDED_DATA) then handle_ofmp (ntohs (h_type m)) m s
    else if (length m <=? sizeof_ofmp_extended_data)%nat then Ret s
    else
      match ext_data_buffer s with
      | None => Aborted
      | Some b =>
          let b := b ++ drop sizeof_ofmp_extended_data m in
          let s := set_ext (Some b) (h_xid m) s in
          if negb (Z.land (get8 22 m) OFMPEDF_MORE_DATA =? 0) then Ret s
          else if Z.of_nat (length b) <? 65536 then Ret s
          else if negb (h_vendor b =? htonl NX_VENDOR_ID) || negb (h_subtype b =? htonl NXT_MGMT)
               || (h_type b =? htonl OFMPT_EXTENDED_DATA) then Ret s
          else
            let b := put16 2 0 (put32 4 (ext_data_xid s) b) in
            match depth with
            | O => NoFuel
            | S depth =>
                s ← handle_vendor depth b (set_ext None (ext_data_xid s) s);
                Ret (set_ext (Some []) (ext_data_xid s) s)
            end
      end.
End management.

(** ** [recv_message] *)
Definition sizeof_ofp_switch_features : nat := 32.
Definition sizeof_ofp_error_msg : nat := 12.

Definition set_features (f : option bytes) (s : fsm) : fsm :=
  Fsm (state s) (timeout s) (switch_approved s) (mgmt_id s) (swm_caps s) (swm_config s) (ext_data_buffer s) (ext_data_xid s)
    f (resources_event s) (pending s).

Definition recv_message (stack : bytes) (fuel depth : nat) (i : input) (s : fsm) : res outcome :=
  let m := recv_msg i in
  if recv_error i =? EAGAIN then Ret (goes_on s)
  else if negb (recv_error i =? 0) then Ret (do_exit (recv_error i))
  else if (length m <? 8)%nat then Ret (goes_on s)
  else
    let type := get8 1 m in
    if type =? OFPT_FEATURES_REPLY then
      if decide (state s = RECV_FEATURES_REPLY) then
        if (length m <? sizeof_ofp_switch_features)%nat then Ret (goes_on (set_features None s))
        else Ret (goes_on (set_state SEND_MGMT_CAPABILITY_REQ (set_features (Some m) s)))
      else Ret (goes_on s)
    else if type =? OFPT_VENDOR then s ← handle_vendor stack fuel depth m s; Ret (goes_on s)
    else if type =? OFPT_ECHO_REQUEST then Ret ([Echo_reply m], Some s)
    else if type =? OFPT_ERROR then
      if decide (state s = RECV_MGMT_CAPABILITY_REPLY) then
        match features_reply s with None => Aborted | Some _ => Ret (goes_on (set_state CHECK_SWITCH_AUTH s)) end
      else if (length m <? sizeof_ofp_error_msg)%nat then Aborted
      else Ret (do_exit EINVAL)
    else Ret (goes_on s).

(** ** Registration *)

(** The message that deletes all flows, in memory that holds [raw] *)
Definition OFPFC_DELETE : Z := 3.
Definition OFPP_NONE : Z := 0xffff.
Definition clear_flows_msg (raw : bytes) : bytes :=
  let b := put8 0 OFP_VERSION raw in
  let b := put8 1 OFPT_FLOW_MOD b in
  let b := put16 2 (htons 72) b in
  let b := put32 8 (htonl 0xffffffff) b in
  let b := put64 48 (htonl 0) b in
  let b := put16 56 (htons OFPFC_DELETE) b in
  let b := put32 64 (htonl 0) b in
  let b := put16 58 (htons 0) b in
  let b := put16 60 (htons 0) b in
  let b := put16 62 (htons 0) b in
  let b := put16 68 (htons OFPP_NONE) b in
  put16 70 (htons 0) b.

(** [register_switch] *)
Definition features_dpid (f : bytes) : Z := ntohll (get64 8 f).
Definition register_switch (raw : bytes) (s : fsm) : res outcome :=
  match features_reply s with
  | None => Aborted
  | Some f =>
      let dpid := features_dpid f in
      if negb (switch_approved s) then Ret (do_exit EPERM)
      else if dpid =? 0 then Ret (do_exit EINVAL)
      else Ret ([Register_switch dpid (mgmt_id s) f; Clear_flows dpid (clear_flows_msg raw); Exit 0], None)
  end.

(** [register_mgmt] *)
Definition register_mgmt (s : fsm) : res outcome :=
  if negb (switch_approved s) then Ret (do_exit EPERM)
  else if mgmt_id s =? 0 then Ret (do_exit EINVAL)
  else match resources_event s with
       | None => Aborted
       | Some r => Ret ([Register_mgmt (mgmt_id s) (swm_caps s) (swm_config s) r; Exit 0], None)
       end.

(** ** [run] *)

Definition set_approved (b : bool) (next : Handshake_state) (s : fsm) : fsm :=
  Fsm next (timeout s) b (mgmt_id s) (swm_caps s) (swm_config s) (ext_data_buffer s) (ext_data_xid s)
    (features_reply s) (resources_event s) None.
Definition set_pending (next : Handshake_state) (s : fsm) : fsm :=
  Fsm (state s) (timeout s) (switch_approved s) (mgmt_id s) (swm_caps s) (swm_config s) (ext_data_buffer s) (ext_data_xid s)
    (features_reply s) (resources_event s) (Some next).

(** The end of [run] in the two states [check_switch_auth] continues in *)
Definition register (raw : bytes) (clock : Z) (next : Handshake_state) (s : fsm) : res outcome :=
  if timeout s <? clock then Ret (do_exit ETIMEDOUT)
  else match next with
       | REGISTER_SWITCH => register_switch raw s
       | _ => register_mgmt s
       end.

(** [check_switch_auth] *)
Definition check_switch_auth (raw : bytes) (i : input) (next : Handshake_state) (s : fsm) : res outcome :=
  if negb (has_auth i) then register raw (now_again i) next (set_approved true next s)
  else match features_reply s with
       | None => Aborted
       | Some f => Ret ([Ask_auth f], Some (set_pending next s))
       end.

(** [switch_auth_cb] *)
Definition switch_auth_cb (is_approved : bool) (next : Handshake_state) (s : fsm) : fsm := set_approved is_approved next s.

Definition run (stack raw : bytes) (fuel depth : nat) (i : input) (s : fsm) : res outcome :=
  if timeout s <? now i then Ret (do_exit ETIMEDOUT)
  else
    match state s with
    | SEND_FEATURES_REQ | SEND_CONFIG | SEND_MGMT_CAPABILITY_REQ | SEND_MGMT_RESOURCES_REQ | SEND_MGMT_CONFIG_REQ =>
        Ret (send_message i s)
    | RECV_FEATURES_REPLY | RECV_MGMT_CAPABILITY_REPLY | RECV_MGMT_RESOURCES_UPDATE | RECV_MGMT_CONFIG_UPDATE =>
        recv_message stack fuel depth i s
    | CHECK_SWITCH_AUTH => check_switch_auth raw i REGISTER_SWITCH s
    | CHECK_MGMT_AUTH => check_switch_auth raw i REGISTER_MGMT s
    | REGISTER_SWITCH => register_switch raw s
    | REGISTER_MGMT => register_mgmt s
    end.

(** ** Histories

    The machine runs, or the authenticator answers; while a question is pending
    nothing wakes the machine. *)
Inductive turn := Run (i : input) | Answer (is_approved : bool).

Definition step (stack raw : bytes) (fuel depth : nat) (t : turn) (s : fsm) : res outcome :=
  match t, pending s with
  | Run i, None => run stack raw fuel depth i s
  | Answer b, Some next => Ret (goes_on (switch_auth_cb b next s))
  | _, _ => Ret (goes_on s)
  end.

Fixpoint turns (stack raw : bytes) (fuel depth : nat) (ts : list turn) (s : fsm) : res outcome :=
  match ts with
  | [] => Ret (goes_on s)
  | t :: ts =>
      '(acts, o) ← step stack raw fuel depth t s;
      match o with
      | None => Ret (acts, None)
      | Some s => '(acts', o) ← turns stack raw fuel depth ts s; Ret (acts ++ acts', o)
      end
  end.
