(* ===== verification/HandshakeProps.v ===== *)
(** * The handshake follows its protocol (src/builtin/nox.cc)

    The protocol is an automaton over the log of what the state machine did and of
    the answers of the authenticator. *)

From S2P Require Import Prelude Bytes OfpWire OfpCore OpenflowStream OpenflowConnection OpenflowSend Cfg Ofmp Handshake.

Open Scope Z_scope.

(** ** The protocol *)

Inductive goal := Switch | Mgmt.
Inductive phase :=
| Start | Features_asked | Configured | Capabilities_asked | Resources_asked | Config_asked
| Authenticating (g : goal) | Answered (g : goal) (approved : bool) | Registered | Over.

Inductive log_entry := Did (a : action) | Was_answered (b : bool).

(** The features reply of a switch that may be registered *)
Definition good_features (dp : Z) (f : bytes) : Prop := (32 <= length f)%nat /\ dp = features_dpid f /\ dp <> 0.
#[export] Instance good_features_dec dp f : Decision (good_features dp f).
Proof. unfold good_features. apply _. Defined.

(** [auth]: there is an authenticator all the time, so that nothing is registered
    without its approval. *)
Definition advance (auth : bool) (p : phase) (l : log_entry) : option phase :=
  match l, p with
  | Did (Exit _), Over => None
  | Did (Exit _), _ => Some Over
  | Did (Send Features_request), Start => Some Features_asked
  | Did (Send Switch_config), Features_asked => Some Configured
  | Did (Send Capability_request), Configured => Some Capabilities_asked
  | Did (Send Resources_request), Capabilities_asked => Some Resources_asked
  | Did (Send Config_request), Resources_asked => Some Config_asked
  | Did (Echo_reply _), (Configured | Capabilities_asked | Resources_asked | Config_asked) => Some p
  | Did (Ask_auth _), Capabilities_asked => Some (Authenticating Switch)
  | Did (Ask_auth _), Config_asked => Some (Authenticating Mgmt)
  | Was_answered b, Authenticating g => Some (Answered g b)
  | Did (Register_switch dp _ f), Capabilities_asked => if auth then None else if decide (good_features dp f) then Some Registered else None
  | Did (Register_switch dp _ f), Answered Switch true => if decide (good_features dp f) then Some Registered else None
  | Did (Register_mgmt id _ _ _), Config_asked => if auth || (id =? 0) then None else Some Registered
  | Did (Register_mgmt id _ _ _), Answered Mgmt true => if id =? 0 then None else Some Registered
  | Did (Clear_flows _ _), Registered => Some Registered
  | _, _ => None
  end.
Definition follows (auth : bool) (p : phase) (l : list log_entry) : option phase :=
  foldl (fun p e => p ≫= fun p => advance auth p e) (Some p) l.

Lemma follows_app auth p l1 l2 : follows auth p (l1 ++ l2) = follows auth p l1 ≫= fun p => follows auth p l2.
Proof.
  unfold follows. rewrite foldl_app. destruct (foldl _ (Some p) l1) as [q|]; [done|]. by induction l2.
Qed.

(** ** Logs *)

Definition logged (t : turn) (s : fsm) (acts : list action) : list log_entry :=
  match t, pending s with Answer b, Some _ => [Was_answered b] | _, _ => [] end ++ (Did <$> acts).

Fixpoint log_of (stack raw : bytes) (fuel depth : nat) (ts : list turn) (s : fsm) : res (list log_entry * option fsm) :=
  match ts with
  | [] => Ret ([], Some s)
  | t :: ts =>
      '(acts, o) ← step stack raw fuel depth t s;
      match o with
      | None => Ret (logged t s acts, None)
      | Some s' => '(l, o) ← log_of stack raw fuel depth ts s'; Ret (logged t s acts ++ l, o)
      end
  end.

(** ** The phase of a state *)

Definition phase_of (s : fsm) : phase :=
  match state s with
  | SEND_FEATURES_REQ => Start
  | SEND_CONFIG => Features_asked
  | RECV_FEATURES_REPLY | SEND_MGMT_CAPABILITY_REQ => Configured
  | RECV_MGMT_CAPABILITY_REPLY | SEND_MGMT_RESOURCES_REQ => Capabilities_asked
  | RECV_MGMT_RESOURCES_UPDATE | SEND_MGMT_CONFIG_REQ => Resources_asked
  | RECV_MGMT_CONFIG_UPDATE => Config_asked
  | CHECK_SWITCH_AUTH => match pending s with None => Capabilities_asked | Some _ => Authenticating Switch end
  | CHECK_MGMT_AUTH => match pending s with None => Config_asked | Some _ => Authenticating Mgmt end
  | REGISTER_SWITCH => Answered Switch (switch_approved s)
  | REGISTER_MGMT => Answered Mgmt (switch_approved s)
  end.

(** What the machine has by then: the features reply from the capability request on,
    the resources from the configuration request on. *)
Definition needs_features (st : Handshake_state) : bool :=
  match st with SEND_FEATURES_REQ | SEND_CONFIG | RECV_FEATURES_REPLY => false | _ => true end.
Definition needs_resources (st : Handshake_state) : bool :=
  match st with SEND_MGMT_CONFIG_REQ | RECV_MGMT_CONFIG_UPDATE | CHECK_MGMT_AUTH | REGISTER_MGMT => true | _ => false end.

Record ok (s : fsm) : Prop := {
  ok_features : needs_features (state s) = true -> exists f, features_reply s = Some f /\ (32 <= length f)%nat;
  ok_resources : needs_resources (state s) = true -> resources_event s <> None;
  ok_pending : pending s = match state s with CHECK_SWITCH_AUTH | CHECK_MGMT_AUTH => pending s | _ => None end;
  ok_next : pending s <> None -> pending s = Some (if decide (state s = CHECK_SWITCH_AUTH) then REGISTER_SWITCH else REGISTER_MGMT)
}.

Lemma ok_new now secs raw : ok (new_fsm now secs raw).
Proof. by split. Qed.

(** ** Vendor messages *)

(** They change the state only forward, within the phase, and keep the rest that
    matters. *)
Record vendor_effect (s s' : fsm) : Prop := {
  ve_features : features_reply s' = features_reply s;
  ve_pending : pending s' = pending s;
  ve_approved : switch_approved s' = switch_approved s;
  ve_timeout : timeout s' = timeout s;
  ve_state :
    (state s' = state s /\ resources_event s' = resources_event s) \/
    (state s = RECV_MGMT_CAPABILITY_REPLY /\ (state s' = CHECK_SWITCH_AUTH \/ state s' = SEND_MGMT_RESOURCES_REQ)) \/
    (state s = RECV_MGMT_RESOURCES_UPDATE /\ state s' = SEND_MGMT_CONFIG_REQ /\ resources_event s' <> None) \/
    (state s = RECV_MGMT_CONFIG_UPDATE /\ state s' = CHECK_MGMT_AUTH /\ resources_event s' = resources_event s)
}.

Lemma ve_refl s : vendor_effect s s.
Proof. split; try done. by left. Qed.

Lemma ve_set_ext b x s s' : vendor_effect s s' -> vendor_effect s (set_ext b x s').
Proof. intros []. by split. Qed.
Lemma ve_set_ext_l b x s s' : vendor_effect (set_ext b x s) s' -> vendor_effect s s'.
Proof. intros []. by split. Qed.

Lemma handle_ofmp_effect stack fuel type m s s' : handle_ofmp stack fuel type m s = Ret s' -> vendor_effect s s'.
Proof.
  unfold handle_ofmp.
  destruct (type =? OFMPT_CAPABILITY_REPLY).
  { destruct (decide (state s = RECV_MGMT_CAPABILITY_REPLY)) as [E|]; [|intros [= <-]; apply ve_refl]. unfold handle_ofmp_capability.
    destruct (_ <? _)%nat; [intros [= <-]; apply ve_refl|]. destruct (negb _); [intros [= <-]; apply ve_refl|].
    destruct (Cfg.load _ _ _) as [c| | |]; try done. cbn [mbind res_bind]. destruct (negb _).
    - cbn [features_reply]. destruct (features_reply s) eqn:F; [|done]. intros [= <-]. split; cbn; try done. right. left. auto.
    - intros [= <-]. split; cbn; try done. right. left. auto. }
  destruct (type =? OFMPT_RESOURCES_UPDATE).
  { destruct (decide (state s = RECV_MGMT_RESOURCES_UPDATE)) as [E|]; [|intros [= <-]; apply ve_refl]. unfold handle_ofmp_resources.
    destruct (resources_update_event _ _) as [r| | |]; try done. cbn [mbind res_bind]. intros [= <-]. split; cbn; try done. do 2 right. left. auto. }
  destruct (type =? OFMPT_CONFIG_UPDATE).
  { destruct (decide (state s = RECV_MGMT_CONFIG_UPDATE)) as [E|]; [|intros [= <-]; apply ve_refl]. unfold handle_ofmp_config_update.
    assert (forall s1, features_reply s1 = features_reply s -> pending s1 = pending s -> switch_approved s1 = switch_approved s ->
      timeout s1 = timeout s -> resources_event s1 = resources_event s -> vendor_effect s (set_state CHECK_MGMT_AUTH s1)) as G
      by (intros s1 ? ? ? ? ?; split; cbn; try done; do 3 right; auto).
    destruct (_ <? _)%nat; [intros [= <-]; by apply G|]. destruct (negb _); [intros [= <-]; by apply G|].
    destruct (Cfg.load _ _ _) as [c| | |]; try done. cbn [mbind res_bind]. intros [= <-]. by apply G. }
  destruct (type =? OFMPT_ERROR); [destruct (_ <? _)%nat; [done|]|]; intros [= <-]; apply ve_refl.
Qed.

Lemma handle_vendor_effect stack fuel depth m s s' : handle_vendor stack fuel depth m s = Ret s' -> vendor_effect s s'.
Proof.
  revert m s s'. induction depth as [|depth IH]; intros m s s'; cbn [handle_vendor].
  all: destruct (_ <? _)%nat; [intros [= <-]; apply ve_refl|]; destruct (_ || _); [intros [= <-]; apply ve_refl|].
  all: destruct (_ <? _)%nat; [intros [= <-]; apply ve_refl|].
  all: intros (s1 & E1 & H)%res_bind_Ret.
  all: assert (vendor_effect s s1 /\ forall s2, vendor_effect s1 s2 -> vendor_effect s s2) as [V1 V]
    by (destruct (_ =? _); [injection E1 as <-; split; [apply ve_refl|auto]|];
        destruct (ext_data_buffer s) as [b|]; [|done]; injection E1 as <-; destruct (is_nil b);
        [split; [apply ve_refl|auto]|split; [apply ve_set_ext, ve_refl|intros s2; apply ve_set_ext_l]]).
  all: revert H; destruct (negb _); [intros H; by eapply V, handle_ofmp_effect|].
  all: destruct (_ <=? _)%nat; [by intros [= <-]|]; destruct (ext_data_buffer s1) as [b|]; [|done].
  all: set (s2 := set_ext (Some _) _ s1); assert (vendor_effect s1 s2) as V2 by apply ve_set_ext, ve_refl.
  all: destruct (negb _); [intros [= <-]; auto|]; destruct (_ <? 65536); [intros [= <-]; auto|]; destruct (_ || _ || _); [intros [= <-]; auto|].
  - done.
  - intros (s3 & E3 & H)%res_bind_Ret. injection H as <-. apply V, ve_set_ext. apply IH in E3.
    by apply ve_set_ext_l, ve_set_ext_l in E3.
Qed.

Lemma vendor_ok s s' : ok s -> vendor_effect s s' -> pending s = None -> ok s' /\ phase_of s' = phase_of s.
Proof.
  intros O [F P A _ S] Hp. pose proof (ok_features s O) as OF. pose proof (ok_resources s O) as OR. rewrite Hp in P.
  assert (forall st, state s' = st -> (needs_features st = true -> needs_features (state s) = true) -> (needs_resources st = true -> resources_event s' <> None) -> ok s') as G.
  { intros st <- H1 H2. split; [rewrite F; auto|done|rewrite P; by destruct (state s')|by rewrite P]. }
  destruct S as [[S R]|[[S [S'|S']]|[(S & S' & R)|(S & S' & R)]]].
  - split; [apply (G _ eq_refl); rewrite S, ?R; auto|]. unfold phase_of. by rewrite S, P, Hp, A.
  - split; [apply (G _ S'); [by rewrite S|done]|]. unfold phase_of. by rewrite S, S', P.
  - split; [apply (G _ S'); [by rewrite S|done]|]. unfold phase_of. by rewrite S, S'.
  - split; [apply (G _ S'); [by rewrite S|done]|]. unfold phase_of. by rewrite S, S'.
  - split; [apply (G _ S'); [by rewrite S|rewrite R; intros _; apply OR; by rewrite S]|]. unfold phase_of. by rewrite S, S', P.
Qed.

(** ** One turn *)

(** The log of a call leads from phase [p] to that of what is left. *)
Definition lands (auth : bool) (p : phase) (r : outcome) : Prop :=
  match r.2 with
  | None => follows auth p (Did <$> r.1) = Some Over
  | Some s' => ok s' /\ follows auth p (Did <$> r.1) = Some (phase_of s')
  end.

Lemma not_over s : phase_of s <> Over.
Proof. unfold phase_of. destruct (state s); try done; by destruct (pending s). Qed.

Lemma lands_stay auth s : ok s -> lands auth (phase_of s) (goes_on s).
Proof. by intros O. Qed.
Lemma lands_exit auth p e : p <> Over -> lands auth p (do_exit e).
Proof. by destruct p. Qed.
#[local] Hint Resolve not_over lands_stay lands_exit : core.

Lemma send_message_lands auth i s : ok s -> pending s = None -> lands auth (phase_of s) (send_message i s).
Proof.
  intros O P. pose proof (ok_features s O) as OF. pose proof (ok_resources s O) as OR. unfold send_message.
  assert (forall r next, follows auth (phase_of s) [Did (Send r)] = Some (phase_of (set_state next s)) ->
    (needs_features next = true -> needs_features (state s) = true) -> (needs_resources next = true -> needs_resources (state s) = true) ->
    lands auth (phase_of s) (if send_error i =? 0 then ([Send r], Some (set_state next s)) else if send_error i =? EAGAIN then goes_on s else do_exit (send_error i))) as G.
  { intros r next F N1 N2. destruct (send_error i =? 0); [|destruct (send_error i =? EAGAIN); auto].
    split; [|exact F]. split; cbn; [auto|auto|rewrite P; by destruct next|by rewrite P]. }
  destruct (state s) eqn:S; auto; apply G; try done; unfold phase_of; by rewrite S.
Qed.

(** The phases in which messages are received *)
Definition receiving (p : phase) : bool :=
  match p with Configured | Capabilities_asked | Resources_asked | Config_asked => true | _ => false end.

Lemma recv_message_lands auth stack fuel depth i s r : ok s -> pending s = None -> receiving (phase_of s) = true ->
  recv_message stack fuel depth i s = Ret r -> lands auth (phase_of s) r.
Proof.
  intros O P N. unfold recv_message. set (m := recv_msg i).
  destruct (recv_error i =? EAGAIN); [intros [= <-]; auto|]. destruct (negb _); [intros [= <-]; auto|].
  destruct (_ <? 8)%nat; [intros [= <-]; auto|]. destruct (get8 1 m =? OFPT_FEATURES_REPLY).
  { destruct (decide (state s = RECV_FEATURES_REPLY)) as [S|]; [|intros [= <-]; auto].
    destruct (Nat.ltb_spec (length m) sizeof_ofp_switch_features) as [H|H]; intros [= <-];
      (split; [split; cbn; rewrite ?S, ?P; try done|unfold phase_of; cbn; by rewrite S]).
    intros _. by exists m. }
  destruct (get8 1 m =? OFPT_VENDOR).
  { intros (s' & E & H)%res_bind_Ret. injection H as <-. apply handle_vendor_effect in E.
    destruct (vendor_ok s s' O E P) as [O' E']. split; [done|]. cbn. by rewrite E'. }
  destruct (get8 1 m =? OFPT_ECHO_REQUEST); [intros [= <-]; split; [done|]; cbn; by destruct (phase_of s)|].
  destruct (get8 1 m =? OFPT_ERROR); [|intros [= <-]; auto].
  destruct (decide (state s = RECV_MGMT_CAPABILITY_REPLY)) as [S|]; [|destruct (_ <? _)%nat; [done|intros [= <-]; auto]].
  destruct (features_reply s) as [f|] eqn:F; [|done]. intros [= <-]. split; [|unfold phase_of; cbn; by rewrite S, P].
  pose proof (ok_features s O) as OF. split; cbn; rewrite ?P; try done. intros _. apply OF. by rewrite S.
Qed.

Lemma register_switch_lands auth raw s r p : ok s -> needs_features (state s) = true -> p <> Over ->
  (forall dp mg f, good_features dp f -> switch_approved s = true -> advance auth p (Did (Register_switch dp mg f)) = Some Registered) ->
  register_switch raw s = Ret r -> lands auth p r.
Proof.
  intros O N Hp H. unfold register_switch. destruct (ok_features s O N) as (f & -> & L).
  destruct (switch_approved s) eqn:A; cbn [negb]; [|intros [= <-]; auto]. destruct (features_dpid f =? 0) eqn:D; [intros [= <-]; auto|].
  intros [= <-]. unfold lands. cbn [fst snd fmap list_fmap]. unfold follows. cbn [foldl mbind option_bind].
  rewrite H; [done| |done]. split_and!; [done|done|lia].
Qed.

Lemma register_mgmt_lands auth s r p : ok s -> p <> Over ->
  (forall id c g x, id <> 0 -> switch_approved s = true -> advance auth p (Did (Register_mgmt id c g x)) = Some Registered) ->
  register_mgmt s = Ret r -> lands auth p r.
Proof.
  intros O Hp H. unfold register_mgmt.
  destruct (switch_approved s) eqn:A; cbn [negb]; [|intros [= <-]; auto]. destruct (mgmt_id s =? 0) eqn:D; [intros [= <-]; auto|].
  destruct (resources_event s); [|done]. intros [= <-]. unfold lands. cbn [fst snd fmap list_fmap]. unfold follows. cbn [foldl mbind option_bind].
  rewrite H; [done|lia|done].
Qed.

(** [check_switch_auth] asks the authenticator, or registers at once. *)
Lemma check_switch_auth_lands auth raw i s r g : ok s -> pending s = None -> (auth = true -> has_auth i = true) ->
  state s = (match g with Switch => CHECK_SWITCH_AUTH | Mgmt => CHECK_MGMT_AUTH end) ->
  check_switch_auth raw i (match g with Switch => REGISTER_SWITCH | Mgmt => REGISTER_MGMT end) s = Ret r -> lands auth (phase_of s) r.
Proof.
  intros O P A S. pose proof (ok_features s O) as OF. pose proof (ok_resources s O) as OR. unfold check_switch_auth.
  assert (ok (set_approved true (match g with Switch => REGISTER_SWITCH | Mgmt => REGISTER_MGMT end) s)) as O'.
  { split; cbn; [|intros N; apply OR; rewrite S; by destruct g|by destruct g|done]. intros _. apply OF. rewrite S. by destruct g. }
  destruct (has_auth i) eqn:HA; cbn [negb].
  - destruct (features_reply s) as [f|] eqn:F; [|done]. intros [= <-]. split.
    + split; cbn; rewrite S; [intros _; assert (needs_features (state s) = true) as N by (rewrite S; by destruct g); destruct (OF N) as (f' & ? & ?); exists f'; split; congruence| | |].
      * intros N. apply OR. rewrite S. exact N.
      * by destruct g.
      * intros _. by destruct g.
    + unfold phase_of. cbn. rewrite S, P. by destruct g.
  - assert (auth = false) as -> by (destruct auth; [by specialize (A eq_refl)|done]). unfold register.
    destruct (_ <? _); [intros [= <-]; auto|]. destruct g.
    + apply register_switch_lands; [done|done|auto|]. intros dp mg f Hf _. unfold phase_of. rewrite S, P. cbn. by rewrite decide_True.
    + apply register_mgmt_lands; [done|auto|]. intros id c x y Hid _. unfold phase_of. rewrite S, P. cbn. by rewrite (proj2 (Z.eqb_neq _ _) Hid).
Qed.

Lemma run_lands auth stack raw fuel depth i s r : ok s -> pending s = None -> (auth = true -> has_auth i = true) ->
  run stack raw fuel depth i s = Ret r -> lands auth (phase_of s) r.
Proof.
  intros O P A. unfold run. destruct (timeout s <? now i); [intros [= <-]; auto|].
  destruct (state s) eqn:S; try (intros [= <-]; by apply send_message_lands);
    try (apply recv_message_lands; [done|done|unfold phase_of; by rewrite S]).
  - apply (check_switch_auth_lands auth raw i s r Switch); done.
  - apply (check_switch_auth_lands auth raw i s r Mgmt); done.
  - apply register_switch_lands; [done|by rewrite S|auto|]. intros dp mg f Hf Ap. unfold phase_of. rewrite S, Ap. cbn. by rewrite decide_True.
  - apply register_mgmt_lands; [done|auto|]. intros id c x y Hid Ap. unfold phase_of. rewrite S, Ap. cbn. by rewrite (proj2 (Z.eqb_neq _ _) Hid).
Qed.

Lemma step_lands auth stack raw fuel depth t s acts o : ok s -> (forall i, t = Run i -> auth = true -> has_auth i = true) ->
  step stack raw fuel depth t s = Ret (acts, o) ->
  match o with
  | None => follows auth (phase_of s) (logged t s acts) = Some Over
  | Some s' => ok s' /\ follows auth (phase_of s) (logged t s acts) = Some (phase_of s')
  end.
Proof.
  intros O A. unfold step, logged. destruct t as [i|b], (pending s) as [next|] eqn:P.
  - intros [= <- <-]. done.
  - intros E. apply (run_lands auth) in E; [exact E|done|done|by apply A].
  - intros [= <- <-]. pose proof (ok_next s O) as N. pose proof (ok_pending s O) as OP. rewrite P in N, OP. specialize (N ltac:(done)). injection N as N.
    pose proof (ok_features s O) as OF. pose proof (ok_resources s O) as OR.
    destruct (state s) eqn:S; try done; cbn in N; subst next.
    + split; [by split|]. unfold phase_of. cbn. by rewrite S, P.
    + split; [by split|]. unfold phase_of. cbn. by rewrite S, P.
  - intros [= <- <-]. done.
Qed.

(** ** Histories *)

Definition authenticated (auth : bool) (t : turn) : Prop := match t with Run i => auth = true -> has_auth i = true | Answer _ => True end.

Lemma log_lands auth stack raw fuel depth ts s l o : ok s -> Forall (authenticated auth) ts ->
  log_of stack raw fuel depth ts s = Ret (l, o) ->
  match o with
  | None => follows auth (phase_of s) l = Some Over
  | Some s' => ok s' /\ follows auth (phase_of s) l = Some (phase_of s')
  end.
Proof.
  revert s l o. induction ts as [|t ts IH]; intros s l o O A; cbn [log_of]; [by intros [= <- <-]|].
  inversion A as [|? ? At Ats]; subst. intros ([acts o1] & E & H)%res_bind_Ret.
  apply (step_lands auth) in E; [|done|by intros i ->]. destruct o1 as [s1|]; [|by injection H as <- <-].
  destruct E as [O1 F1]. apply res_bind_Ret in H as ([l2 o2] & H2 & E2). injection E2 as <- <-.
  apply IH in H2; [|done|done]. rewrite follows_app, F1. exact H2.
Qed.

(** ** Crashes *)

(** A vendor message is parsed as far as its lengths allow; the text of an error
    message is fetched from null when the message is short. *)
Definition fatal (i : input) : Prop :=
  recv_error i = 0 /\ (get8 1 (recv_msg i) = OFPT_VENDOR \/ (get8 1 (recv_msg i) = OFPT_ERROR /\ (length (recv_msg i) < sizeof_ofp_error_msg)%nat)).
#[export] Instance fatal_dec i : Decision (fatal i).
Proof. unfold fatal. apply _. Defined.
Definition fatal_turn (t : turn) : Prop := match t with Run i => fatal i | Answer _ => False end.
#[export] Instance fatal_turn_dec t : Decision (fatal_turn t).
Proof. destruct t; apply _. Defined.

Lemma recv_message_total stack fuel depth i s : ok s -> ~ fatal i -> exists r, recv_message stack fuel depth i s = Ret r.
Proof.
  intros O F. pose proof (ok_features s O) as OF. unfold recv_message. set (m := recv_msg i).
  destruct (recv_error i =? EAGAIN); [by eexists|]. destruct (Z.eqb_spec (recv_error i) 0) as [E|]; cbn [negb]; [|by eexists].
  destruct (_ <? 8)%nat; [by eexists|]. destruct (get8 1 m =? OFPT_FEATURES_REPLY).
  { destruct (decide _); [destruct (_ <? _)%nat|]; by eexists. }
  destruct (Z.eqb_spec (get8 1 m) OFPT_VENDOR) as [V|]; [destruct F; split; auto|].
  destruct (get8 1 m =? OFPT_ECHO_REQUEST); [by eexists|]. destruct (Z.eqb_spec (get8 1 m) OFPT_ERROR) as [R|]; [|by eexists].
  destruct (decide (state s = RECV_MGMT_CAPABILITY_REPLY)) as [S|].
  - rewrite S in OF. destruct (OF eq_refl) as (f & -> & _). by eexists.
  - destruct (Nat.ltb_spec (length m) sizeof_ofp_error_msg) as [H|H]; [destruct F; split; auto|by eexists].
Qed.

Lemma register_total raw clock g s : ok s -> state s = (match g with Switch => REGISTER_SWITCH | Mgmt => REGISTER_MGMT end) ->
  (exists r, register raw clock (state s) s = Ret r) /\
  exists r, match g with Switch => register_switch raw s | Mgmt => register_mgmt s end = Ret r.
Proof.
  intros O S. pose proof (ok_features s O) as OF. pose proof (ok_resources s O) as OR. unfold register, register_switch, register_mgmt.
  rewrite S in *. destruct g; cbn in *.
  - destruct (OF eq_refl) as (f & -> & _). split; repeat case_match; by eexists.
  - specialize (OR eq_refl). destruct (resources_event s); [|done]. split; repeat case_match; by eexists.
Qed.

Lemma check_switch_auth_total raw i s g : ok s -> state s = (match g with Switch => CHECK_SWITCH_AUTH | Mgmt => CHECK_MGMT_AUTH end) ->
  exists r, check_switch_auth raw i (match g with Switch => REGISTER_SWITCH | Mgmt => REGISTER_MGMT end) s = Ret r.
Proof.
  intros O S. pose proof (ok_features s O) as OF. pose proof (ok_resources s O) as OR. rewrite S in *. unfold check_switch_auth.
  destruct (has_auth i); cbn [negb].
  - destruct OF as (f & -> & _); [by destruct g|]. by eexists.
  - set (next := match g with Switch => REGISTER_SWITCH | Mgmt => REGISTER_MGMT end).
    apply (register_total raw (now_again i) g (set_approved true next s)); [|done].
    split; cbn; [intros _; apply OF; by destruct g|by destruct g|by destruct g|done].
Qed.

Lemma step_total stack raw fuel depth t s : ok s -> ~ fatal_turn t -> exists r, step stack raw fuel depth t s = Ret r.
Proof.
  intros O F. unfold step. destruct t as [i|b], (pending s); try by eexists. unfold run.
  destruct (timeout s <? now i); [by eexists|].
  destruct (state s) eqn:S; try by eexists. all: try by apply recv_message_total.
  - by apply (check_switch_auth_total raw i s Switch).
  - by apply (check_switch_auth_total raw i s Mgmt).
  - by apply (register_total raw 0 Switch s).
  - by apply (register_total raw 0 Mgmt s).
Qed.

Lemma log_total stack raw fuel depth ts s : ok s -> Forall (fun t => ~ fatal_turn t) ts ->
  exists r, log_of stack raw fuel depth ts s = Ret r.
Proof.
  revert s. induction ts as [|t ts IH]; intros s O F; cbn [log_of]; [by eexists|]. inversion F as [|? ? Ft Fts]; subst.
  destruct (step_total stack raw fuel depth t s O Ft) as [[acts o] E]. rewrite E. cbn [mbind res_bind]. destruct o as [s'|]; [|by eexists].
  apply (step_lands false) in E as [O' _]; [|done|done]. destruct (IH s' O' Fts) as [[l o] ->]. by eexists.
Qed.

(** C27: The handshake follows its protocol, whatever the other side sends and
    whatever sends, receives, the clock and the authenticator return.  The log of
    what it does is a run of the automaton: the features request, the switch
    configuration and the capability request are sent in that order; a manager is
    then asked for its resources and its configuration; a connection is registered
    at most once, as a switch with the datapath id of a complete features reply
    and not 0, or as a manager with an id that is not 0, and, when there is an
    authenticator, only after a question that it answered with approval; an exit
    ends it.  No null pointer is followed and the machine always returns, unless
    a vendor message or an error message of fewer than 12 bytes was received. *)
Theorem handshake_follows_protocol auth stack raw fuel depth ts now secs cookies : Forall (authenticated auth) ts ->
  match log_of stack raw fuel depth ts (new_fsm now secs cookies) with
  | Ret (l, None) => follows auth Start l = Some Over
  | Ret (l, Some s) => follows auth Start l = Some (phase_of s)
  | _ => Exists fatal_turn ts
  end.
Proof.
  intros A. pose proof (ok_new now secs cookies) as O. destruct (decide (Exists fatal_turn ts)) as [X|X].
  - destruct (log_of _ _ _ _ _ _) as [[l o]| | |] eqn:E; try done. apply (log_lands auth) in E; [|done|done]. destruct o; [by destruct E|done].
  - apply not_Exists_Forall in X; [|apply _]. destruct (log_total stack raw fuel depth ts _ O X) as [[l o] E]. rewrite E.
    apply (log_lands auth) in E; [|done|done]. destruct o; [by destruct E|done].
Qed.

(** ** A switch that answers *)

Lemma log_step stack raw fuel depth t ts s acts s' l l' o : step stack raw fuel depth t s = Ret (acts, Some s') ->
  log_of stack raw fuel depth ts s' = Ret (l, o) -> logged t s acts ++ l = l' -> log_of stack raw fuel depth (t :: ts) s = Ret (l', o).
Proof. intros E1 E2 <-. cbn [log_of]. rewrite E1. cbn [mbind res_bind]. by rewrite E2. Qed.

Definition sends : input := Input 0 0 0 0 [] false.
Definition receives (m : bytes) : input := Input 0 0 0 0 m false.

Local Ltac turn T := unfold step, run; cbn [pending timeout now set_state sends receives state set_features]; rewrite T.


Definition sample_reply : bytes := put8 1 OFPT_FEATURES_REPLY (put64 8 (htonll 5) (replicate 32 0)).
Definition sample_error : bytes := put8 1 OFPT_ERROR (replicate 8 0).

(** A history with an authenticator: the switch is registered after its approval. *)
Definition asks : input := Input 0 0 0 0 [] true.
Definition sample_turns : list turn := (Run <$> [asks; asks; Input 0 0 0 0 sample_reply true; asks; Input 0 0 0 0 sample_error true; asks]) ++ [Answer true; Run asks].
Lemma handshake_follows_protocol_witness :
  match log_of [] (replicate 72 0) 0 0 sample_turns (new_fsm 0 3 ([], [])) with
  | Ret (l, None) => follows true Start l = Some Over
  | Ret (l, Some s) => follows true Start l = Some (phase_of s)
  | _ => Exists fatal_turn sample_turns
  end.
Proof. apply (handshake_follows_protocol true [] (replicate 72 0) 0 0 sample_turns 0 3 ([], [])). unfold sample_turns. repeat apply Forall_cons_2; try apply Forall_nil_2; done. Defined.

Example approved_switch : log_of [] (replicate 72 0) 0 0 sample_turns (new_fsm 0 3 ([], [])) =
  Ret ((Did <$> [Send Features_request; Send Switch_config; Send Capability_request; Ask_auth sample_reply]) ++ [Was_answered true] ++
       (Did <$> [Register_switch 5 0 sample_reply; Clear_flows 5 (clear_flows_msg (replicate 72 0)); Exit 0]), None).
Proof. reflexivity. Qed.

(** A manager that offers its capabilities with an id, its resources and its
    configuration is registered as a manager. *)
Definition mgmt_message (type : Z) (size : nat) (rest : bytes) : bytes := ofmp_request size type 7 ++ rest.
Definition manager_caps : bytes := put64 24 (htonll 9) (mgmt_message OFMPT_CAPABILITY_REPLY 32 (manager_key ++ [61] ++ [116; 114; 117; 101; 10])).
Definition manager_turns : list turn := Run <$> [sends; sends; receives sample_reply; sends; receives manager_caps; sends;
  receives (mgmt_message OFMPT_RESOURCES_UPDATE 20 [0; 0; 0; 4]); sends; receives (mgmt_message OFMPT_CONFIG_UPDATE 44 []); sends].
Definition kind_of (a : log_entry) : option (Z * Z) :=
  match a with Did (Register_switch dp m _) => Some (dp, m) | Did (Register_mgmt m _ _ _) => Some (0, m) | _ => None end.
Example manager_is_registered : match log_of (replicate 64 0) (replicate 72 0) 10 1 manager_turns (new_fsm 0 3 ([], [])) with
  | Ret (l, None) => omap kind_of l = [(0, 9)] /\ length l = 7%nat
  | _ => False
  end.
Proof. vm_compute. split; reflexivity. Qed.

(** An error message that has its header but not its type and code ends the
    controller, in every state but the wait for the capability reply. *)
Theorem short_error_is_fatal stack raw fuel depth i s : ok s -> pending s = None -> state s = RECV_FEATURES_REPLY ->
  now i <= timeout s -> recv_error i = 0 -> get8 1 (recv_msg i) = OFPT_ERROR -> (8 <= length (recv_msg i) < 12)%nat ->
  step stack raw fuel depth (Run i) s = Aborted.
Proof.
  intros O P S T E G L. unfold step, run. rewrite P, S, (proj2 (Z.ltb_ge _ _) T). unfold recv_message. rewrite E, G.
  cbn [Z.eqb EAGAIN negb]. rewrite (proj2 (Nat.ltb_ge _ 8)) by lia. cbn [Z.eqb OFPT_ERROR OFPT_FEATURES_REPLY OFPT_VENDOR OFPT_ECHO_REQUEST Pos.eqb].
  rewrite S, decide_False by done. unfold sizeof_ofp_error_msg. by rewrite (proj2 (Nat.ltb_lt _ 12)) by lia.
Qed.
