(* ===== verification/SwitchMgr.v ===== *)
(** * Switch managers (lib/switch-mgr.cc, include/switch-mgr.hh)

    A manager edits a local copy of the configuration of a switch, commits it and
    takes up the answers.  [stack] is the memory that hashing uses, [raw] the memory
    that a message is made in. *)

From S2P Require Import Prelude Bytes OfpWire OfpCore OpenflowStream OpenflowConnection Cfg Ofmp.

Open Scope Z_scope.

(** [CommitInfo]; a callback is known by a number, [None] is an empty one. *)
Record CommitInfo := Commit_info { ci_cfg : cfg; ci_cookie : bytes; ci_old_cookie : bytes; callback : option Z }.

(** [Switch_mgr] *)
Record swm := Swm {
  xid : Z;
  commits : gmap Z CommitInfo;
  global_cfg : cfg;
  global_cookie : bytes;
  local_cfg : cfg;
  last_commit : cfg;
  capabilities : cfg;
  maps : resources
}.

(** The constructor, on memory whose configurations and cookie hold [raw] *)
Definition new_swm (raw : bytes) : swm :=
  Swm 0 ∅ (new_cfg raw) raw (new_cfg raw) (new_cfg raw) (new_cfg raw) no_resources.

Definition set_local (c : cfg) (s : swm) : swm :=
  Swm (xid s) (commits s) (global_cfg s) (global_cookie s) c (last_commit s) (capabilities s) (maps s).
Definition set_last (c : cfg) (s : swm) : swm :=
  Swm (xid s) (commits s) (global_cfg s) (global_cookie s) (local_cfg s) c (capabilities s) (maps s).
Definition set_commits (m : gmap Z CommitInfo) (s : swm) : swm :=
  Swm (xid s) m (global_cfg s) (global_cookie s) (local_cfg s) (last_commit s) (capabilities s) (maps s).
Definition set_capabilities (c : cfg) (s : swm) : swm :=
  Swm (xid s) (commits s) (global_cfg s) (global_cookie s) (local_cfg s) (last_commit s) c (maps s).

(** ** The local copy *)

Definition revert (s : swm) : swm := set_local (last_commit s) s.
Definition is_dirty (s : swm) : bool := dirty (local_cfg s).
Definition mgr_set_string (k v : bytes) (s : swm) : swm := set_local (set_string k v (local_cfg s)) s.
Definition mgr_del_entry (k v : bytes) (s : swm) : swm := set_local (del_entry k v (local_cfg s)) s.

(** ** Committing *)

(** The message of a commit in memory that holds [raw] where its structure is *)
Definition config_update_msg (raw : bytes) (id : Z) (old_cookie text : bytes) : bytes :=
  let data_len := (sizeof_ofmp_config_update + length text)%nat in
  let m := put8 1 OFPT_VENDOR raw in
  let m := put8 0 OFP_VERSION m in
  let m := put16 2 (htons (u16 (Z.of_nat data_len))) m in
  let m := put32 4 (htonl id) m in
  let m := put32 8 (htonl NX_VENDOR_ID) m in
  let m := put32 12 (htonl NXT_MGMT) m in
  let m := put16 16 (htons OFMPT_CONFIG_UPDATE) m in
  let m := put32 20 (htonl OFMPCAF_SIMPLE) m in
  store 24 old_cookie m ++ text.

Definition next_xid (x : Z) : Z := if x =? 2 ^ 32 - 1 then 0 else x + 1.

Section commit.
Context {S : Type} (send_openflow_command : bytes -> S -> Z * S) (stack raw : bytes).

(** [Switch_mgr::commit]; an entry that is in the map under the number is
    overwritten. *)
Definition commit (cb : option Z) (s : swm) (w : S) : res (Z * swm * S) :=
  let id := xid s in
  '(cookie, c) ← get_cookie stack (local_cfg s);
  '(old_cookie, last) ← get_cookie stack (last_commit s);
  let s := Swm (next_xid id) (<[id := Commit_info c cookie old_cookie cb]> (commits s)) (global_cfg s) (global_cookie s)
    (local_cfg s) last (capabilities s) (maps s) in
  '(error, w) ← send_ofmp_msg send_openflow_command (config_update_msg raw id old_cookie (to_string c)) w;
  if negb (error =? 0) then Ret (error, set_commits (delete id (commits s)) s, w)
  else Ret (error, set_last (local_cfg s) s, w).
End commit.

(** ** Answers *)

Section answers.
Context (stack : bytes).

(** [Switch_mgr::set_config] *)
Definition set_config (c : cfg) (s : swm) : res swm :=
  '(cookie, g) ← get_cookie stack c;
  g ← set_dirty stack false g;
  let s := Swm (xid s) (commits s) g cookie (local_cfg s) (last_commit s) (capabilities s) (maps s) in
  if negb (dirty (local_cfg s)) then Ret (set_last g (set_local g s))
  else
    '(cookie, last) ← get_cookie stack (last_commit s);
    let s := set_last last s in
    if negb (bool_decide (global_cookie s = cookie)) then Ret s
    else
      '(cookie, local) ← get_cookie stack (local_cfg s);
      if negb (bool_decide (global_cookie s = cookie)) then Ret (set_local local s)
      else local ← set_dirty stack false local; Ret (set_local local s).

(** [Switch_mgr::config_ack_handler]: the manager and the calls of callbacks.  A
    callback that commits again adds an entry under another number, which the
    erasure that follows the call does not touch. *)
Definition config_ack_handler (a : config_update_ack) (s : swm) : res (list (Z * bool) * swm) :=
  match commits s !! ack_xid a with
  | None => Ret ([], s)
  | Some info =>
      s ← (if success a then
             if negb (bool_decide (ci_cookie info = ack_cookie a)) then Ret s
             else if negb (bool_decide (ci_old_cookie info = global_cookie s)) then Ret s
             else set_config (ci_cfg info) s
           else Ret (set_last (global_cfg s) (set_local (global_cfg s) s)));
      Ret (match callback info with None => [] | Some cb => [(cb, success a)] end,
           set_commits (delete (ack_xid a) (commits s)) s)
  end.
End answers.

(** [Switch_mgr::resources_update_handler] *)
Definition keep {A : Type} `{EqDecision A} (new old : A) : A := if decide (new = old) then old else new.
Definition resources_update_handler (oru : resources) (s : swm) : swm :=
  let m := maps s in
  Swm (xid s) (commits s) (global_cfg s) (global_cookie s) (local_cfg s) (last_commit s) (capabilities s)
    (Resources (keep (port_name_map oru) (port_name_map m)) (keep (mgmt_uuid_map oru) (mgmt_uuid_map m))
       (keep (net_uuid_map oru) (net_uuid_map m)) (vif_details_map oru)).

(** [Switch_mgr::port_is_virtual] *)
Definition port_is_virtual (name : bytes) : bool := is_prefix [118; 105; 102] name || is_prefix [116; 97; 112] name.

(** The manager that [Handshake_fsm::register_mgmt] makes (src/builtin/nox.cc) *)
Definition registered_swm (stack raw : bytes) (caps config : cfg) (r : resources) : res swm :=
  s ← set_config stack config (set_capabilities caps (new_swm raw));
  Ret (resources_update_handler r s).

(** ** Events for managers (src/builtin/nox.cc) *)

(** [handle_ofmp_config], [handle_ofmp_config_ack] and [handle_ofmp_resources_update] *)
Definition handle_ofmp_config (stack : bytes) (mgmt : Z) (c : cfg) (m : gmap Z swm) : res (gmap Z swm) :=
  match m !! mgmt with None => Ret m | Some s => s ← set_config stack c s; Ret (<[mgmt := s]> m) end.
Definition handle_ofmp_config_ack (stack : bytes) (mgmt : Z) (a : config_update_ack) (m : gmap Z swm) : res (list (Z * bool) * gmap Z swm) :=
  match m !! mgmt with None => Ret ([], m) | Some s => '(l, s) ← config_ack_handler stack a s; Ret (l, <[mgmt := s]> m) end.
Definition handle_ofmp_resources_update (mgmt : Z) (r : resources) (m : gmap Z swm) : gmap Z swm :=
  match m !! mgmt with None => m | Some s => <[mgmt := resources_update_handler r s]> m end.
