(* ===== verification/SwitchMgrProps.v ===== *)
(** * A manager and its switch (lib/switch-mgr.cc)

    The manager runs against a switch that applies an update when its old cookie is
    that of the configuration it has, refuses it otherwise, and may be edited by
    others; messages arrive in order, in both directions. *)

From S2P Require Import Prelude Bytes OfpWire OfpCore OpenflowStream OpenflowConnection Sha1 Sha1Props Cfg CfgProps Ofmp SwitchMgr.

Open Scope Z_scope.

(** ** Configurations and their cookies *)

Definition cookie (c : cfg) : bytes := Fips.sha1 (to_string c).
(** A configuration whose text fits in one message; a clean one has its cookie. *)
Record cfg_ok (c : cfg) : Prop := {
  co_bytes : text_bytes c;
  co_short : Z.of_nat (44 + length (to_string c)) < 65535;
  co_cookie : dirty c = false -> cfg_cookie c = cookie c
}.
Definition fresh (c : cfg) : cfg := Cfg (dirty c) (entries c) (cookie c).
Definition clean (c : cfg) : cfg := Cfg false (entries c) (cookie c).

Lemma fresh_ok c : cfg_ok c -> cfg_ok (fresh c).
Proof. intros []. by split. Qed.
Lemma clean_ok c : cfg_ok c -> cfg_ok (clean c).
Proof. intros []. by split. Qed.
#[export] Hint Resolve fresh_ok clean_ok : core.

Section stack.
Context (stack : bytes) (Hstack : length stack = 64%nat).

Lemma update_ok c : cfg_ok c -> update_cookie stack c = Ret (fresh c).
Proof using Hstack. intros [B L _]. apply update_cookie_ok; [done|by apply to_string_bytes|]. change (2 ^ 31) with 2147483648. lia. Qed.

Lemma get_cookie_ok c : cfg_ok c -> get_cookie stack c = Ret (cookie c, fresh c).
Proof using Hstack.
  intros O. unfold get_cookie. destruct (dirty c) eqn:D; cbn [mbind res_bind]; [by rewrite update_ok|].
  rewrite (co_cookie c O D). unfold fresh. rewrite <- (co_cookie c O D). by destruct c.
Qed.

Lemma set_dirty_ok c : cfg_ok c -> set_dirty stack false c = Ret (clean c).
Proof using Hstack. intros O. unfold set_dirty. by rewrite update_ok. Qed.
End stack.

(** ** Managers *)

Record info_ok (i : CommitInfo) : Prop := {
  io_cfg : cfg_ok (ci_cfg i);
  io_cookie : ci_cookie i = cookie (ci_cfg i);
}.

Record mgr_ok (s : swm) : Prop := {
  mo_global : cfg_ok (global_cfg s);
  mo_local : cfg_ok (local_cfg s);
  mo_last : cfg_ok (last_commit s);
  mo_cookie : global_cookie s = cookie (global_cfg s);
  mo_commits : map_Forall (fun _ => info_ok) (commits s);
  mo_xid : is_u32 (xid s)
}.

Lemma set_config_ok stack c s : length stack = 64%nat -> cfg_ok c ->
  (dirty (local_cfg s) = true -> cfg_ok (local_cfg s) /\ cfg_ok (last_commit s)) -> map_Forall (fun _ => info_ok) (commits s) -> is_u32 (xid s) ->
  exists s', set_config stack c s = Ret s' /\ mgr_ok s' /\ global_cfg s' = clean c /\ commits s' = commits s.
Proof.
  intros Hs O D' C X. unfold set_config. rewrite get_cookie_ok by done. cbn [mbind res_bind].
  rewrite set_dirty_ok by auto. cbn [mbind res_bind local_cfg]. destruct (dirty (local_cfg s)) eqn:D; cbn [negb].
  2: { eexists. split; [reflexivity|]. split; [|done]. split; cbn; auto. }
  destruct D' as [L L']; [done|]. cbn [last_commit]. rewrite get_cookie_ok by done. cbn [mbind res_bind]. destruct (negb _).
  { eexists. split; [reflexivity|]. split; [|done]. split; cbn; auto. }
  cbn [set_last local_cfg]. rewrite get_cookie_ok by done. cbn [mbind res_bind]. destruct (negb _).
  { eexists. split; [reflexivity|]. split; [|done]. split; cbn; auto. }
  rewrite set_dirty_ok by auto. cbn [mbind res_bind]. eexists. split; [reflexivity|]. split; [|done]. split; cbn; auto.
Qed.

Lemma length_cookie c : length (cookie c) = 20%nat.
Proof. unfold cookie, Fips.sha1. cbv zeta. destruct (foldl _ _ _) as [[[[? ?] ?] ?] ?]. reflexivity. Qed.

(** ** Messages of commits *)

Definition u_xid (m : bytes) : Z := ntohl (get32 4 m).
Definition u_old (m : bytes) : bytes := Bytes.load 24 20 m.
Definition u_text (m : bytes) : bytes := drop 44 m.

Lemma config_update_msg_fields raw id old t : length raw = 44%nat -> is_u32 id -> length old = 20%nat ->
  let m := config_update_msg raw id old t in
  length m = (44 + length t)%nat /\ u_xid m = id /\ u_old m = old /\ u_text m = t.
Proof.
  intros Hr Hi Ho. cbv zeta. unfold config_update_msg, u_xid, u_old, u_text, get32.
  do 44 (destruct raw as [|? raw]; [done|]). destruct raw; [|done]. do 20 (destruct old as [|? old]; [done|]). destruct old; [|done].
  set (l := htons _). set (x := htonl id). set (v := htonl _). set (w := htonl _). set (ty := htons _). set (f := htonl _).
  assert (ntohl x = id /\ 0 <= x < 2 ^ (8 * Z.of_nat 4)) as [X1 X2] by (split; [by apply ntohl_htonl|apply (htonl_range id)]).
  clearbody l x v w ty f. split; [reflexivity|]. split; [|split; reflexivity].
  transitivity (ntohl (of_le (to_le 4 x))); [reflexivity|]. by rewrite of_le_to_le_id.
Qed.

(** ** The manager, its switch and the messages between them *)

Inductive from_switch := Ack (a : config_update_ack) | Update (c : cfg).
Record world := World { mgr : swm; to_switch : list bytes; text : bytes; to_nox : list from_switch; called : list (Z * bool) }.

(** The switch takes a message: what it has then, and its answer *)
Definition switch_takes (m t : bytes) : bytes * from_switch :=
  if decide (u_old m = Fips.sha1 t) then (u_text m, Ack (Config_update_ack true 0 1 (u_xid m) (Fips.sha1 (u_text m))))
  else (t, Ack (Config_update_ack false 0 0 (u_xid m) (Fips.sha1 t))).

Inductive act :=
| Set_string (k v : bytes) | Del_entry (k v : bytes) | Revert | Commit (cb : option Z) (error : Z)
| Switch_turn | Switch_edit (c : cfg) | Nox_turn.

Definition set_mgr (s : swm) (w : world) : world := World s (to_switch w) (text w) (to_nox w) (called w).
Definition send_queue (error : Z) (m : bytes) (q : list bytes) : Z * list bytes := if error =? 0 then (0, q ++ [m]) else (error, q).

Definition do_act (stack raw : bytes) (a : act) (w : world) : res world :=
  match a with
  | Set_string k v => Ret (set_mgr (mgr_set_string k v (mgr w)) w)
  | Del_entry k v => Ret (set_mgr (mgr_del_entry k v (mgr w)) w)
  | Revert => Ret (set_mgr (revert (mgr w)) w)
  | Commit cb error =>
      '(_, s, q) ← commit (send_queue error) stack raw cb (mgr w) (to_switch w);
      Ret (World s q (text w) (to_nox w) (called w))
  | Switch_turn =>
      match to_switch w with
      | [] => Ret w
      | m :: q => let '(t, a) := switch_takes m (text w) in Ret (World (mgr w) q t (to_nox w ++ [a]) (called w))
      end
  | Switch_edit c => Ret (World (mgr w) (to_switch w) (to_string c) (to_nox w ++ [Update c]) (called w))
  | Nox_turn =>
      match to_nox w with
      | [] => Ret w
      | Ack a :: q => '(l, s) ← config_ack_handler stack a (mgr w); Ret (World s (to_switch w) (text w) q (called w ++ l))
      | Update c :: q => s ← set_config stack c (mgr w); Ret (World s (to_switch w) (text w) q (called w))
      end
  end.

(** Texts stay within one message; the number of a commit is not one that is still
    to be answered, as long as fewer than 2^32 are. *)
Definition fits (c : cfg) : Prop := text_bytes c /\ Z.of_nat (44 + length (to_string c)) < 65535.
Definition act_ok (a : act) (w : world) : Prop :=
  match a with
  | Set_string k v => fits (set_string k v (local_cfg (mgr w)))
  | Del_entry k v => fits (del_entry k v (local_cfg (mgr w)))
  | Commit _ _ => commits (mgr w) !! xid (mgr w) = None
  | Switch_edit c => cfg_ok c
  | _ => True
  end.

(** A manager begins with the configuration of its switch. *)
Definition start (s : swm) : world := World s [] (to_string (global_cfg s)) [] [].
Inductive reachable (stack raw : bytes) : world -> Prop :=
| reachable_start s : mgr_ok s -> commits s = ∅ -> reachable stack raw (start s)
| reachable_act a w w' : reachable stack raw w -> act_ok a w -> do_act stack raw a w = Ret w' -> reachable stack raw w'.

(** ** The invariant *)

(** What the messages on the way to the manager make of text [t] *)
Inductive chain (C : gmap Z CommitInfo) : bytes -> list from_switch -> bytes -> Prop :=
| chain_nil t : chain C t [] t
| chain_accepted t a i l t' : success a = true -> C !! ack_xid a = Some i -> ci_old_cookie i = Fips.sha1 t ->
    ack_cookie a = cookie (ci_cfg i) -> chain C (to_string (ci_cfg i)) l t' -> chain C t (Ack a :: l) t'
| chain_refused t a l t' : success a = false -> is_Some (C !! ack_xid a) -> chain C t l t' -> chain C t (Ack a :: l) t'
| chain_update t c l t' : cfg_ok c -> chain C (to_string c) l t' -> chain C t (Update c :: l) t'.

Definition ack_id (x : from_switch) : option Z := match x with Ack a => Some (ack_xid a) | Update _ => None end.
Definition outstanding (w : world) : list Z := (u_xid <$> to_switch w) ++ omap ack_id (to_nox w).

Definition sent (C : gmap Z CommitInfo) (m : bytes) : Prop :=
  exists i, C !! u_xid m = Some i /\ u_old m = ci_old_cookie i /\ u_text m = to_string (ci_cfg i).

Record inv (w : world) : Prop := {
  inv_mgr : mgr_ok (mgr w);
  inv_chain : chain (commits (mgr w)) (to_string (global_cfg (mgr w))) (to_nox w) (text w);
  inv_sent : Forall (sent (commits (mgr w))) (to_switch w);
  inv_nodup : NoDup (outstanding w);
  inv_answered : forall id, is_Some (commits (mgr w) !! id) -> id ∈ outstanding w
}.

Lemma chain_app C t l1 t1 l2 t2 : chain C t l1 t1 -> chain C t1 l2 t2 -> chain C t (l1 ++ l2) t2.
Proof. intros H. revert l2 t2. induction H; intros l2 t2 H'; cbn [app]; eauto using chain. Qed.

Lemma chain_agree C C' t l t' : (forall id, id ∈ omap ack_id l -> C' !! id = C !! id) -> chain C t l t' -> chain C' t l t'.
Proof.
  intros A H. induction H as [|t a i l t' S E O K _ IH|t a l t' S E _ IH|t c l t' O _ IH]; cbn in A.
  - constructor.
  - eapply chain_accepted; [done|rewrite A by (apply elem_of_cons; auto); done|done|done|]. apply IH. intros id Hid. apply A, elem_of_cons. auto.
  - apply chain_refused; [done|rewrite A by (apply elem_of_cons; auto); done|]. apply IH. intros id Hid. apply A, elem_of_cons. auto.
  - by apply chain_update; auto.
Qed.

Lemma chain_known C t l t' id : chain C t l t' -> id ∈ omap ack_id l -> is_Some (C !! id).
Proof.
  induction 1 as [|t a i l t' S E O K _ IH|t a l t' S E _ IH|t c l t' O _ IH]; cbn; intros H; [by apply elem_of_nil in H| | |auto].
  all: apply elem_of_cons in H as [->|H]; [eauto|auto].
Qed.

Lemma outstanding_known w id : inv w -> id ∈ outstanding w -> is_Some (commits (mgr w) !! id).
Proof.
  intros I [H|H]%elem_of_app; [|by eapply chain_known; [apply I|]].
  apply list_elem_of_fmap in H as (m & -> & H). pose proof (inv_sent w I) as F. rewrite Forall_forall in F.
  destruct (F m H) as (i & E & _). eauto.
Qed.

Lemma inv_start s : mgr_ok s -> commits s = ∅ -> inv (start s).
Proof.
  intros O E. split; cbn; [done|constructor|constructor|constructor|]. intros id. rewrite E, lookup_empty. by intros [].
Qed.

(** ** Every act preserves it *)

Lemma inv_edit c w : inv w -> cfg_ok c -> inv (set_mgr (set_local c (mgr w)) w).
Proof. intros [[] ? ? ? ?] O. by split; cbn; [split; cbn|..]. Qed.

Lemma fits_ok c : fits c -> dirty c = true -> cfg_ok c.
Proof. intros [B L] D. split; [done|done|by rewrite D]. Qed.

Lemma del_fits k v c : cfg_ok c -> fits (del_entry k v c) -> cfg_ok (del_entry k v c).
Proof. intros O. unfold del_entry. destruct (existsb _ _); [|done]. intros F. by apply fits_ok. Qed.

Lemma next_xid_u32 x : is_u32 x -> is_u32 (next_xid x).
Proof. unfold next_xid, in_width. destruct (Z.eqb_spec x (2 ^ 32 - 1)); lia. Qed.

Lemma outstanding_send s q m t l c s' : outstanding (World s (q ++ [m]) t l c) ≡ₚ u_xid m :: outstanding (World s' q t l c).
Proof. unfold outstanding. cbn. rewrite fmap_app, <- app_assoc. cbn. symmetry. apply Permutation_middle. Qed.

(** A commit adds its message and its entry, or nothing but a used number. *)
Lemma commit_step stack raw cb error w : length stack = 64%nat -> length raw = 44%nat -> inv w -> commits (mgr w) !! xid (mgr w) = None ->
  exists w', do_act stack raw (Commit cb error) w = Ret w' /\ inv w'.
Proof.
  intros Hs Hr I F. pose proof (inv_mgr w I) as O. pose proof (fun id => outstanding_known w id I) as K. pose proof (mo_local _ O) as OL. pose proof (mo_last _ O) as OP.
  unfold do_act, commit. rewrite !get_cookie_ok by done. cbn [mbind res_bind].
  set (id := xid (mgr w)) in *. set (c := fresh (local_cfg (mgr w))).
  destruct (config_update_msg_fields raw id (cookie (last_commit (mgr w))) (to_string c) Hr (mo_xid _ O) (length_cookie _)) as (L & X & D & T).
  set (m := config_update_msg _ _ _ _) in *. clearbody m. unfold send_ofmp_msg.
  assert (cfg_ok c) as OC by (by apply fresh_ok). pose proof (co_short c OC) as Sh.
  rewrite (proj2 (Z.ltb_lt _ _)) by lia. unfold send_queue. destruct (Z.eqb_spec error 0) as [->|N]; cbn [Z.eqb negb].
  - eexists. split; [reflexivity|]. destruct I as [_ Ch Se ND An]. split; cbn -[to_string outstanding].
    + destruct O as [? ? ? ? MC ?]. split; cbn -[to_string]; [done..| |by apply next_xid_u32].
      apply map_Forall_insert_2; [by split|exact MC].
    + eapply chain_agree, Ch. intros id' Hid. rewrite lookup_insert_ne; [done|]. intros <-.
      destruct (chain_known _ _ _ _ _ Ch Hid) as [? E]. congruence.
    + apply Forall_app_2; [|apply Forall_singleton; exists (Commit_info c (cookie (local_cfg (mgr w))) (cookie (last_commit (mgr w))) cb); by rewrite X, lookup_insert_eq].
      eapply Forall_impl; [exact Se|]. intros x (i & E & R). exists i. rewrite lookup_insert_ne; [done|]. intros Eq. rewrite <- Eq in E. congruence.
    + rewrite (outstanding_send _ _ _ _ _ _ (mgr w)), X. apply NoDup_cons_2; [|exact ND]. intros H. apply K in H as [? H]. congruence.
    + intros id' H. rewrite (outstanding_send _ _ _ _ _ _ (mgr w)), X. apply elem_of_cons. destruct (decide (id' = id)) as [|Ne]; [by left|right].
      apply An. by rewrite lookup_insert_ne in H.
  - cbn [mbind res_bind]. rewrite (proj2 (Z.eqb_neq _ _) N). cbn [negb mbind res_bind]. eexists. split; [reflexivity|]. destruct I as [_ Ch Se ND An].
    split; cbn -[to_string outstanding]; rewrite ?delete_insert_id by done; [|done..]. destruct O. split; cbn -[to_string]; rewrite ?delete_insert_id by done; try done; [by apply fresh_ok|by apply next_xid_u32].
Qed.

(** The switch answers a message: the number moves to the other queue. *)
Lemma switch_step stack raw w : inv w -> exists w', do_act stack raw Switch_turn w = Ret w' /\ inv w'.
Proof.
  intros I. unfold do_act. destruct (to_switch w) as [|m q] eqn:Q; [eauto|]. destruct I as [O Ch Se ND An]. rewrite Q in Se.
  apply Forall_cons in Se as [(i & E & Old & T) Se].
  assert (forall t a s b, ack_id a = Some (u_xid m) -> outstanding (World s q t (to_nox w ++ [a]) b) ≡ₚ outstanding w) as P.
  { intros t a s b Ha. unfold outstanding. rewrite Q. cbn. rewrite omap_app. cbn. rewrite Ha, app_assoc. cbn. symmetry. apply Permutation_cons_append. }
  unfold switch_takes. destruct (decide (u_old m = Fips.sha1 (text w))) as [H|H]; (eexists; split; [reflexivity|]).
  all: split; [done|cbn [mgr to_nox text]|done|by rewrite P|intros id Hid; rewrite P by done; by apply An].
  - eapply chain_app; [exact Ch|]. eapply chain_accepted; [done|exact E|congruence|cbn; by rewrite T|]. rewrite <- T. constructor.
  - eapply chain_app; [exact Ch|]. apply chain_refused; [done|eauto|constructor].
Qed.

Lemma edit_step stack raw c w : inv w -> cfg_ok c -> exists w', do_act stack raw (Switch_edit c) w = Ret w' /\ inv w'.
Proof.
  intros [O Ch Se ND An] Oc. eexists. split; [reflexivity|].
  assert (outstanding (World (mgr w) (to_switch w) (to_string c) (to_nox w ++ [Update c]) (called w)) = outstanding w) as P
    by (unfold outstanding; cbn; by rewrite omap_app, app_nil_r).
  split; [done|cbn [mgr to_nox text]|done|by rewrite P|by rewrite P].
  eapply chain_app; [exact Ch|]. apply chain_update; [done|constructor].
Qed.

(** The entry of an answered commit goes. *)
Lemma inv_forget id s w q l : mgr_ok s -> commits s = commits (mgr w) ->
  outstanding w ≡ₚ id :: (u_xid <$> to_switch w) ++ omap ack_id q ->
  inv w -> chain (commits s) (to_string (global_cfg s)) q (text w) ->
  inv (World (set_commits (delete id (commits s)) s) (to_switch w) (text w) q l).
Proof.
  intros O EC P [_ _ Se ND An] Ch. rewrite P in ND. apply NoDup_cons in ND as [Nid ND]. split.
  - destruct O. split; cbn; try done. by apply map_Forall_delete.
  - cbn [mgr to_nox text set_commits commits global_cfg]. eapply chain_agree, Ch. intros id' Hid. rewrite lookup_delete_ne; [done|].
    intros ->. destruct Nid. apply elem_of_app. auto.
  - cbn [mgr to_switch set_commits commits]. rewrite Forall_forall in *. intros m Hm. destruct (Se m Hm) as (i & E & R). exists i.
    rewrite EC, lookup_delete_ne; [done|]. intros ->. destruct Nid. apply elem_of_app. left. by apply list_elem_of_fmap_2.
  - exact ND.
  - cbn [mgr set_commits commits]. intros id' H. destruct (decide (id' = id)) as [->|N]; [rewrite lookup_delete_eq in H; by destruct H|].
    rewrite EC, lookup_delete_ne in H by done. apply An in H. rewrite P in H. apply elem_of_cons in H as [?|H]; [done|exact H].
Qed.

Lemma nox_step stack raw w : length stack = 64%nat -> inv w -> exists w', do_act stack raw Nox_turn w = Ret w' /\ inv w'.
Proof.
  intros Hs I. pose proof (inv_mgr w I) as O. pose proof (inv_chain w I) as Ch. unfold do_act.
  destruct (to_nox w) as [|[a|c] q] eqn:Q; [eauto| |].
  - assert (outstanding w ≡ₚ ack_xid a :: (u_xid <$> to_switch w) ++ omap ack_id q) as P
      by (unfold outstanding; rewrite Q; cbn; symmetry; apply Permutation_middle).
    unfold config_ack_handler. inversion Ch as [|? ? i ? ? S E Old K Ch'|? ? ? ? S [i E] Ch'|]; subst; rewrite E, S.
    + pose proof (mo_commits _ O _ _ E) as [Oi Ki]. rewrite bool_decide_eq_true_2 by congruence. cbn [negb].
      rewrite bool_decide_eq_true_2 by (by rewrite (mo_cookie _ O)). cbn [negb].
      destruct (set_config_ok stack (ci_cfg i) (mgr w) Hs Oi (fun _ => conj (mo_local _ O) (mo_last _ O)) (mo_commits _ O) (mo_xid _ O)) as (s & -> & Os & G & C).
      cbn [mbind res_bind]. eexists. split; [reflexivity|]. apply inv_forget; try done. rewrite C, G. exact Ch'.
    + cbn [mbind res_bind]. eexists. split; [reflexivity|]. apply (inv_forget _ (set_last _ (set_local _ (mgr w)))); try done.
      destruct O. by split.
  - inversion Ch as [| | |? ? ? ? Oc Ch']; subst.
    destruct (set_config_ok stack c (mgr w) Hs Oc (fun _ => conj (mo_local _ O) (mo_last _ O)) (mo_commits _ O) (mo_xid _ O)) as (s & -> & Os & G & C).
    cbn [mbind res_bind]. eexists. split; [reflexivity|]. destruct I as [_ _ Se ND An].
    assert (outstanding (World s (to_switch w) (text w) q (called w)) = outstanding w) as P by (unfold outstanding; by rewrite Q).
    split; [done|cbn [mgr to_nox text]; by rewrite C, G|cbn [mgr to_switch]; by rewrite C|by rewrite P|]. cbn [mgr]. by rewrite C, P.
Qed.

Lemma act_step stack raw a w : length stack = 64%nat -> length raw = 44%nat -> inv w -> act_ok a w ->
  exists w', do_act stack raw a w = Ret w' /\ inv w'.
Proof.
  intros Hs Hr I A. pose proof (inv_mgr w I) as O. destruct a as [k v|k v| |cb e| |c|]; cbn [act_ok] in A.
  - eexists. split; [reflexivity|]. apply inv_edit; [done|by apply fits_ok].
  - eexists. split; [reflexivity|]. apply inv_edit; [done|]. by apply del_fits; [apply O|].
  - eexists. split; [reflexivity|]. apply inv_edit; [done|apply O].
  - by apply commit_step.
  - by apply switch_step.
  - by apply edit_step.
  - by apply nox_step.
Qed.


(** The manager of a registered connection is such a manager. *)
Lemma registered_ok stack raw caps config r : length stack = 64%nat -> cfg_ok config ->
  exists s, registered_swm stack raw caps config r = Ret s /\ mgr_ok s /\ commits s = ∅.
Proof.
  intros Hs O. unfold registered_swm.
  destruct (set_config_ok stack config (set_capabilities caps (new_swm raw)) Hs O) as (s & -> & Os & _ & C);
    [done|apply map_Forall_empty|done|].
  eexists. split; [reflexivity|]. split; [|exact C]. destruct Os. by split.
Qed.

(** ** A commit that is answered *)

Definition stack0 : bytes := replicate 64 0.
Definition raw0 : bytes := replicate 44 0.
Definition empty_cfg : cfg := clean (new_cfg []).
Definition run_acts (acts : list act) (w : world) : res world := foldl (fun r a => r ≫= do_act stack0 raw0 a) (Ret w) acts.
Definition sample_mgr : swm := Swm 0 ∅ empty_cfg (cookie empty_cfg) empty_cfg empty_cfg empty_cfg no_resources.
Definition or_start (r : res world) : world := match r with Ret w => w | _ => start sample_mgr end.
Definition sample_set : world := Eval vm_compute in or_start (run_acts [Set_string [107] [118]] (start sample_mgr)).
Definition sample_commit : world := Eval vm_compute in or_start (run_acts [Commit (Some 1) 0] sample_set).
Definition sample_taken : world := Eval vm_compute in or_start (run_acts [Switch_turn] sample_commit).
Definition sample_acked : world := Eval vm_compute in or_start (run_acts [Nox_turn] sample_taken).

Lemma sample_reachable : reachable stack0 raw0 sample_acked.
Proof.
  apply (reachable_act _ _ Nox_turn sample_taken); [|done|vm_compute; reflexivity].
  apply (reachable_act _ _ Switch_turn sample_commit); [|done|vm_compute; reflexivity].
  apply (reachable_act _ _ (Commit (Some 1) 0) sample_set); [|reflexivity|vm_compute; reflexivity].
  apply (reachable_act _ _ (Set_string [107] [118]) (start sample_mgr)); [| |vm_compute; reflexivity].
  - apply reachable_start; [|reflexivity]. assert (cfg_ok empty_cfg) as O by (split; [constructor|vm_compute; reflexivity|intros _; vm_compute; reflexivity]).
    split; [exact O..|vm_compute; reflexivity|apply map_Forall_empty|done].
  - split; [repeat constructor; done|vm_compute; reflexivity].
Qed.


(** Reverting after others changed the switch leaves a local copy that is not the
    global one and is not dirty. *)
Definition others_cfg : cfg := Eval vm_compute in clean (set_string [120] [121] (new_cfg [])).
Theorem revert_hides_conflict : exists w,
  run_acts [Set_string [107] [118]; Switch_edit others_cfg; Nox_turn; Revert] (start sample_mgr) = Ret w /\
  is_dirty (mgr w) = false /\ to_string (local_cfg (mgr w)) = [] /\ to_string (global_cfg (mgr w)) = [120; 61; 121; 10].
Proof. eexists. split; [vm_compute; reflexivity|]. split_and!; reflexivity. Qed.
