(* ===== verification/PollLoop.v ===== *)
(** * The poll loop (lib/poll-loop.cc)

    A pool of cooperative threads polls a list of pollables.  One of them is the
    polling thread; when a pollable blocks inside [poll], the pre-block hook makes
    another one the polling thread, so that pollables are polled while others are
    blocked, and may be polled again while they are.

    List nodes have addresses, so that a use of an erased one shows: it is
    [Aborted], as a failed assertion is. *)

From S2P Require Import Prelude.

Open Scope Z_scope.

(** ** State *)

Abbreviation node := Z (only parsing).
Abbreviation pollable := Z (only parsing).
Abbreviation thread := Z (only parsing).

(** [Pollable_ref]; [None] is the null pointer of a removed pollable. *)
Record Pollable_ref := Ref { ref_pollable : option pollable; ref_cnt : Z }.

(** Where a thread is in [poll_thread_main] and [service_pollables]; iterators are
    nodes, [None] the end of the list.  [hook] says that the pre-block hook is set. *)
Inductive tstate :=
| Top                                                   (* head of the loop *)
| Dormant                                               (* in [wakeup.down] *)
| Woken                                                 (* [wakeup.up] was called *)
| Enter                                                 (* calls [service_pollables] *)
| Servicing (i : option node) (progress : bool)
| In_poll (i : node) (progress hook : bool)             (* inside [poll] of the node *)
| Yielding                                              (* [co_poll], [co_yield] *)
| After                                                 (* [service_pollables] returned false *)
| Waiting (i : option node)
| In_wait (i : node)                                    (* inside [wait] of the node *)
| Idle.                                                 (* [co_block] *)

(** [running] is the thread that runs, [None] a thread that is not of the pool; the
    last component lists the calls of pollables. *)
Record loop := Loop {
  pollables : list node;
  refs : gmap node Pollable_ref;
  pollables_pos : gmap pollable node;
  brk : Z;
  polling_thread : option thread;
  dormant_threads : list thread;
  threads : gmap thread tstate;
  running : option thread;
  calls : list pollable
}.

Definition set_thread (t : thread) (x : tstate) (s : loop) : loop :=
  Loop (pollables s) (refs s) (pollables_pos s) (brk s) (polling_thread s) (dormant_threads s) (<[t := x]> (threads s)) (running s) (calls s).
Definition set_refs (l : list node) (m : gmap node Pollable_ref) (s : loop) : loop :=
  Loop l m (pollables_pos s) (brk s) (polling_thread s) (dormant_threads s) (threads s) (running s) (calls s).
Definition set_polling (p : option thread) (s : loop) : loop :=
  Loop (pollables s) (refs s) (pollables_pos s) (brk s) p (dormant_threads s) (threads s) (running s) (calls s).
Definition set_dormant (l : list thread) (s : loop) : loop :=
  Loop (pollables s) (refs s) (pollables_pos s) (brk s) (polling_thread s) l (threads s) (running s) (calls s).
Definition set_running (t : option thread) (s : loop) : loop :=
  Loop (pollables s) (refs s) (pollables_pos s) (brk s) (polling_thread s) (dormant_threads s) (threads s) t (calls s).
Definition add_call (p : pollable) (s : loop) : loop :=
  Loop (pollables s) (refs s) (pollables_pos s) (brk s) (polling_thread s) (dormant_threads s) (threads s) (running s) (calls s ++ [p]).

(** ** Lists *)

(** What is before and after a node *)
Fixpoint split_at (i : node) (l : list node) : option (list node * list node) :=
  match l with
  | [] => None
  | x :: l =>
      if x =? i then Some ([], l)
      else match split_at i l with None => None | Some (pre, post) => Some (x :: pre, post) end
  end.

(** ** Pollables *)

(** [Poll_loop_impl::add_pollable] *)
Definition add_pollable (p : pollable) (s : loop) : loop :=
  let n := brk s in
  Loop (pollables s ++ [n]) (<[n := Ref (Some p) 0]> (refs s)) (<[p := n]> (pollables_pos s)) (n + 1)
    (polling_thread s) (dormant_threads s) (threads s) (running s) (calls s).

(** [list::erase]: the list without the node, and the iterator after it *)
Definition erase (n : node) (s : loop) : res (option node * loop) :=
  match split_at n (pollables s), refs s !! n with
  | Some (pre, post), Some _ => Ret (head post, set_refs (pre ++ post) (delete n (refs s)) s)
  | _, _ => Aborted
  end.

(** [Poll_loop_impl::remove_pollable] *)
Definition remove_pollable (p : pollable) (s : loop) : res loop :=
  match pollables_pos s !! p with
  | None => Aborted
  | Some n =>
      match refs s !! n with
      | None => Aborted
      | Some (Ref None _) => Aborted
      | Some (Ref (Some _) c) =>
          let s := set_refs (pollables s) (<[n := Ref None c]> (refs s)) s in
          if c =? 0 then '(_, s) ← erase n s; Ret s else Ret s
      end
  end.

(** The two halves of [NEXT_WITH_REFERENCE]: taking the reference, with the
    pollable to call, and dropping it, with the next iterator *)
Definition take_reference (i : node) (s : loop) : res (option pollable * loop) :=
  match refs s !! i with
  | None => Aborted
  | Some (Ref p c) => Ret (p, set_refs (pollables s) (<[i := Ref p (c + 1)]> (refs s)) s)
  end.
Definition drop_reference (i : node) (s : loop) : res (option node * loop) :=
  match refs s !! i with
  | None => Aborted
  | Some (Ref p c) =>
      let s := set_refs (pollables s) (<[i := Ref p (c - 1)]> (refs s)) s in
      if (c - 1 =? 0) && is_none p then erase i s
      else match split_at i (pollables s) with
           | None => Aborted
           | Some (_, post) => Ret (head post, s)
           end
  end.

(** ** The polling thread *)

(** [Poll_loop_impl::appoint_polling_thread] *)
Definition appoint_polling_thread (i : node) (s : loop) : res loop :=
  match split_at i (pollables s) with
  | None => Aborted
  | Some (pre, post) =>
      let s := set_refs (post ++ pre ++ [i]) (refs s) s in
      match dormant_threads s with
      | [] => Ret (set_polling None s)
      | u :: l => Ret (set_thread u Woken (set_polling (Some u) (set_dormant l s)))
      end
  end.

(** The end of a turn of the loop of [service_pollables] *)
Definition serviced (t : thread) (i : node) (progress : bool) (s : loop) : res loop :=
  '(i, s) ← drop_reference i s;
  if decide (polling_thread s = Some t) then Ret (set_thread t (Servicing i progress) s)
  else match polling_thread s with
       | Some _ => Ret (set_thread t After s)
       | None => Ret (set_thread t Yielding (set_polling (Some t) s))
       end.

Definition waited (t : thread) (i : node) (s : loop) : res loop :=
  '(i, s) ← drop_reference i s;
  Ret (set_thread t (Waiting i) s).

(** The next step of [poll_thread_main] on thread [t]; it stays where it is while it
    is dormant or inside a pollable. *)
Definition run_thread (t : thread) (s : loop) : res loop :=
  let is_polling := bool_decide (polling_thread s = Some t) in
  match threads s !! t with
  | Some Top =>
      if is_polling then Ret (set_thread t Enter s)
      else Ret (set_thread t Dormant (set_dormant (t :: dormant_threads s) s))
  | Some Woken => if is_polling then Ret (set_thread t Enter s) else Aborted
  | Some Enter => if is_polling then Ret (set_thread t (Servicing (head (pollables s)) false) s) else Aborted
  | Some (Servicing None progress) => Ret (set_thread t (if progress then Yielding else After) s)
  | Some (Servicing (Some i) progress) =>
      '(p, s) ← take_reference i s;
      match p with
      | Some p => Ret (add_call p (set_thread t (In_poll i progress true) s))
      | None => serviced t i progress s
      end
  | Some Yielding => Ret (set_thread t Enter s)
  | Some After => if is_polling then Ret (set_thread t (Waiting (head (pollables s))) s) else Ret (set_thread t Top s)
  | Some (Waiting None) => Ret (set_thread t Idle s)
  | Some (Waiting (Some i)) =>
      '(p, s) ← take_reference i s;
      match p with
      | Some p => Ret (add_call p (set_thread t (In_wait i) s))
      | None => waited t i s
      end
  | Some Idle => Ret (set_thread t Top s)
  | _ => Ret s
  end.

(** [poll] or [wait] returns on thread [t]. *)
Definition returns (b : bool) (t : thread) (s : loop) : res loop :=
  match threads s !! t with
  | Some (In_poll i progress _) => serviced t i (progress || b) s
  | Some (In_wait i) => waited t i s
  | _ => Ret s
  end.

(** Thread [t] blocks or yields, and [next] runs; the hook is called once
    ([do_schedule] in lib/threads/impl.cc). *)
Definition switch (next : option thread) (s : loop) : res loop :=
  s ← match running s with
      | None => Ret s
      | Some t =>
          match threads s !! t with
          | Some (In_poll i progress true) => s ← appoint_polling_thread i s; Ret (set_thread t (In_poll i progress false) s)
          | _ => Ret s
          end
      end;
  Ret (set_running next s).

(** ** The pool *)

(** The constructor: each of the first [n] - 1 threads has gone dormant. *)
Definition new_loop (n : nat) : loop :=
  let ts := Z.of_nat <$> seq 0 (n - 1) in
  Loop [] ∅ ∅ 0 None (reverse ts) (list_to_map ((fun t => (t, Dormant)) <$> ts)) None [].

(** [Poll_loop_impl::run], on a thread of its own *)
Definition run (t : thread) (s : loop) : loop := set_running (Some t) (set_polling (Some t) (set_thread t Top s)).

(** ** Histories *)

Inductive action :=
| Add (p : pollable) | Remove (p : pollable) | Run (t : thread) | Step | Return_ (b : bool) | Switch (next : option thread).

Definition act (a : action) (s : loop) : res loop :=
  match a, running s with
  | Add p, _ => Ret (add_pollable p s)
  | Remove p, _ => remove_pollable p s
  | Run t, _ => Ret (run t s)
  | Step, Some t => run_thread t s
  | Return_ b, Some t => returns b t s
  | Switch next, _ => switch next s
  | _, None => Ret s
  end.
