(* ===== verification/PollLoopProps.v ===== *)
(** * The poll loop is safe (lib/poll-loop.cc) *)

From S2P Require Import Prelude PollLoop.

Open Scope Z_scope.

(** ** What may happen *)

(** The pollables of the set: added, and not removed since *)
Definition in_set (s : loop) (p : pollable) : Prop := exists n c, pollables_pos s !! p = Some n /\ refs s !! n = Some (Ref (Some p) c).

(** Code of pollables and of other threads runs outside the pool's own code. *)
Definition client_runs (s : loop) : Prop :=
  match running s with
  | None => True
  | Some t => match threads s !! t with Some (In_poll _ _ _) | Some (In_wait _) => True | _ => False end
  end.
(** A thread may be left while it blocks or yields; [wait] must not block.  A
    dormant thread that is resumed waits on. *)
Definition may_leave (x : option tstate) : Prop :=
  match x with Some (In_poll _ _ _) | Some Yielding | Some Idle | Some Dormant => True | _ => False end.
Definition allowed (a : action) (s : loop) : Prop :=
  match a with
  | Add p => client_runs s /\ ~ in_set s p
  | Remove p => client_runs s /\ in_set s p
  | Run t => running s = None /\ polling_thread s = None /\ threads s !! t = None /\ (forall u x, threads s !! u = Some x -> x = Dormant)
  | Switch next =>
      match running s with None => True | Some t => may_leave (threads s !! t) end /\
      (forall u, next = Some u -> is_Some (threads s !! u))
  | _ => True
  end.

Inductive history (n : nat) : loop -> Prop :=
| history_new : history n (new_loop n)
| history_act a s s' : history n s -> allowed a s -> act a s = Ret s' -> history n s'.

(** ** The invariant *)

Definition holds (n : node) (x : tstate) : bool :=
  match x with In_poll i _ _ | In_wait i => i =? n | _ => false end.
Definition holders (m : gmap thread tstate) (n : node) : gset thread :=
  dom (filter (fun kv => holds n kv.2 = true) m).

(** Threads that must be the polling thread *)
Definition polls (x : tstate) : bool :=
  match x with Top | Dormant | After | In_poll _ _ false => false | _ => true end.
(** Threads that can be left *)
Definition parked (x : tstate) : bool :=
  match x with Dormant | Woken | Yielding | Idle | In_poll _ _ false => true | _ => false end.
Definition iterator (x : tstate) : option node :=
  match x with Servicing i _ | Waiting i => i | _ => None end.

Definition count (m : gmap thread tstate) (n : node) : nat := size (holders m n).

(** The list and its nodes, when [H n] threads are inside the pollable of [n] *)
Record mem_ok (l : list node) (m : gmap node Pollable_ref) (pos : gmap pollable node) (b : Z) (H : node -> nat) : Prop := {
  mem_nodup : NoDup l;
  mem_nodes : forall n, n ∈ l <-> is_Some (m !! n);
  mem_brk : forall n, is_Some (m !! n) -> n < b;
  mem_cnt : forall n p c, m !! n = Some (Ref p c) -> c = Z.of_nat (H n) /\ (p = None -> 0 < c);
  mem_held : forall n, (0 < H n)%nat -> is_Some (m !! n);
  mem_pos : forall n p c, m !! n = Some (Ref (Some p) c) -> pos !! p = Some n
}.

Record thr_ok (m : gmap thread tstate) (polling : option thread) (dormant : list thread) (running : option thread) : Prop := {
  thr_polling : forall t x, m !! t = Some x -> polls x = true -> polling = Some t;
  thr_awake : forall t, polling = Some t -> m !! t <> Some Dormant;
  thr_dormant : forall t, t ∈ dormant <-> m !! t = Some Dormant;
  thr_nodup : NoDup dormant;
  thr_parked : forall t x, m !! t = Some x -> running <> Some t -> parked x = true;
  thr_running : forall t, running = Some t -> is_Some (m !! t)
}.

Record inv (s : loop) : Prop := {
  inv_mem : mem_ok (pollables s) (refs s) (pollables_pos s) (brk s) (count (threads s));
  inv_thr : thr_ok (threads s) (polling_thread s) (dormant_threads s) (running s);
  inv_iterator : forall t x n, threads s !! t = Some x -> iterator x = Some n -> n ∈ pollables s
}.

(** ** Counting *)

Lemma elem_of_holders m n t : t ∈ holders m n <-> exists x, m !! t = Some x /\ holds n x = true.
Proof.
  unfold holders. rewrite elem_of_dom. split.
  - intros [x [H1 H2]%map_lookup_filter_Some]. eauto.
  - intros (x & H1 & H2). exists x. by apply map_lookup_filter_Some.
Qed.

Lemma count_same m n t x0 x : m !! t = Some x0 -> holds n x = holds n x0 -> count (<[t := x]> m) n = count m n.
Proof.
  intros E H. unfold count. f_equal. apply set_eq. intros u. rewrite !elem_of_holders. destruct (decide (u = t)) as [->|N].
  - rewrite lookup_insert_eq, E. split; intros (y & [= <-] & Hy); eexists; (split; [done|congruence]).
  - by rewrite lookup_insert_ne.
Qed.

Lemma count_more m n t x0 x : m !! t = Some x0 -> holds n x0 = false -> holds n x = true -> count (<[t := x]> m) n = S (count m n).
Proof.
  intros E H0 H. unfold count.
  replace (holders (<[t:=x]> m) n) with ({[t]} ∪ holders m n).
  - rewrite size_union, size_singleton; [done|]. intros u ->%elem_of_singleton (y & E' & Hy)%elem_of_holders. congruence.
  - apply set_eq. intros u. rewrite elem_of_union, elem_of_singleton, !elem_of_holders. destruct (decide (u = t)) as [->|N].
    + rewrite lookup_insert_eq. split; eauto.
    + rewrite lookup_insert_ne by done. split; [by intros [?|?]|auto].
Qed.

Lemma count_less m n t x0 x : m !! t = Some x0 -> holds n x0 = true -> holds n x = false -> count m n = S (count (<[t := x]> m) n).
Proof.
  intros E H0 H. rewrite <- (count_more (<[t := x]> m) n t x x0); [|by rewrite lookup_insert_eq|done..].
  by rewrite insert_insert_eq, insert_id.
Qed.

(** ** Lists *)

Lemma split_at_Some i l pre post : split_at i l = Some (pre, post) -> l = pre ++ i :: post.
Proof.
  revert pre. induction l as [|x l IH]; intros pre; cbn; [done|]. destruct (Z.eqb_spec x i) as [->|]; [by intros [= <- <-]|].
  destruct (split_at i l) as [[pre' post']|]; [|done]. intros [= <- <-]. by rewrite (IH pre' eq_refl).
Qed.
Lemma split_at_elem i l : i ∈ l -> exists pre post, split_at i l = Some (pre, post).
Proof.
  induction l as [|x l IH]; [by intros ?%elem_of_nil|]. intros [->|H]%elem_of_cons; cbn; [rewrite Z.eqb_refl; eauto|].
  destruct (x =? i); [eauto|]. destruct (IH H) as (pre & post & ->). eauto.
Qed.
Lemma head_elem {A : Type} (l : list A) x : head l = Some x -> x ∈ l.
Proof. destruct l; [done|]. intros [= ->]. by left. Qed.

(** ** Memory *)

Lemma mem_ext l m pos b H H' : (forall n, H' n = H n) -> mem_ok l m pos b H -> mem_ok l m pos b H'.
Proof. intros E []. split; try done; intros; rewrite ?E in *; eauto. Qed.

(** The count of a node changes, or its pollable goes *)
Lemma mem_update l m pos b H H' i p c p' c' : mem_ok l m pos b H -> m !! i = Some (Ref p c) -> p' = p \/ p' = None ->
  c' = Z.of_nat (H' i) -> (p' = None -> 0 < c') -> (forall n, n <> i -> H' n = H n) -> mem_ok l (<[i := Ref p' c']> m) pos b H'.
Proof.
  intros [ND NO BR CN HE PO] E Ep Ec Hc E2. split; [done| | | | |].
  - intros n. rewrite NO, lookup_insert_is_Some'. split; [auto|]. intros [<-|?]; eauto.
  - intros n. rewrite lookup_insert_is_Some'. intros [<-|?]; eauto.
  - intros n q d. destruct (decide (n = i)) as [->|N].
    + rewrite lookup_insert_eq. by intros [= <- <-].
    + rewrite lookup_insert_ne, E2 by done. apply CN.
  - intros n. rewrite lookup_insert_is_Some'. destruct (decide (i = n)); [auto|]. rewrite E2 by done. auto.
  - intros n q d. destruct (decide (n = i)) as [->|N]; [rewrite lookup_insert_eq|rewrite lookup_insert_ne by done; eauto].
    intros [= -> _]. destruct Ep as [<-|?]; [eauto|done].
Qed.

Lemma mem_delete pre post i m pos b H H' : mem_ok (pre ++ i :: post) m pos b H -> H' i = O -> (forall n, n <> i -> H' n = H n) ->
  mem_ok (pre ++ post) (delete i m) pos b H'.
Proof.
  intros [ND NO BR CN HE PO] E E2. assert (pre ++ i :: post ≡ₚ i :: pre ++ post) as P by (symmetry; apply Permutation_middle).
  rewrite P in ND. apply NoDup_cons in ND as [Ni ND]. split; [done| | | | |].
  - intros n. rewrite lookup_delete_is_Some, <- NO, P, elem_of_cons. split; [|naive_solver].
    intros Hn. split; [by intros ->|auto].
  - intros n. rewrite lookup_delete_is_Some. intros [_ ?]. auto.
  - intros n p c [N ?]%lookup_delete_Some. rewrite E2 by done. eauto.
  - intros n Hn. rewrite lookup_delete_is_Some. destruct (decide (i = n)) as [->|N]; [lia|]. rewrite E2 in Hn by done. auto.
  - intros n p c [_ ?]%lookup_delete_Some. eauto.
Qed.

Definition mem (s : loop) (H : node -> nat) : Prop := mem_ok (pollables s) (refs s) (pollables_pos s) (brk s) H.

Lemma mem_split s H i : mem s H -> is_Some (refs s !! i) -> exists pre post, split_at i (pollables s) = Some (pre, post) /\ pollables s = pre ++ i :: post.
Proof. intros M Hi. apply (mem_nodes _ _ _ _ _ M), split_at_elem in Hi as (pre & post & E). eauto using split_at_Some. Qed.

(** Erasing a node whose count is 0 from now on *)
Lemma erase_ok s r H H' i : mem s H -> refs s !! i = Some r -> H' i = O -> (forall n, n <> i -> H' n = H n) ->
  forall x, exists j l m, erase i (set_refs (pollables s) (<[i := x]> (refs s)) s) = Ret (j, set_refs l m s) /\ mem (set_refs l m s) H' /\ (forall n, j = Some n -> n ∈ l).
Proof.
  intros M E Hi Ho x. destruct (mem_split s H i M ltac:(eauto)) as (pre & post & S & L). unfold erase. cbn [pollables refs set_refs].
  rewrite S, lookup_insert_eq, delete_insert_eq. do 3 eexists. split; [reflexivity|]. split.
  - unfold mem in *. cbn. rewrite L in M. by eapply mem_delete.
  - intros n Hn. apply head_elem in Hn. apply elem_of_app. auto.
Qed.

Lemma drop_reference_ok s H H' i : mem s H -> H i = S (H' i) -> (forall n, n <> i -> H' n = H n) ->
  exists j l m, drop_reference i s = Ret (j, set_refs l m s) /\ mem (set_refs l m s) H' /\ (forall n, j = Some n -> n ∈ l).
Proof.
  intros M Hi Ho. destruct (mem_held _ _ _ _ _ M i ltac:(lia)) as [[p c] E]. destruct (mem_cnt _ _ _ _ _ M i p c E) as [Ec _].
  unfold drop_reference. rewrite E. destruct ((c - 1 =? 0) && is_none p) eqn:B.
  - apply andb_prop in B as [B _]. eapply erase_ok; [done|done|lia|done].
  - destruct (mem_split s H i M ltac:(eauto)) as (pre & post & S & L). cbn [pollables set_refs]. rewrite S. do 3 eexists. split; [reflexivity|]. split.
    + unfold mem in *. cbn. eapply mem_update; [done|done|by left|lia| |done]. intros ->. cbn in B. rewrite andb_true_r in B. lia.
    + intros n Hn. rewrite L. apply head_elem in Hn. apply elem_of_app. right. by right.
Qed.

Lemma take_reference_ok s H H' i : mem s H -> i ∈ pollables s -> H' i = S (H i) -> (forall n, n <> i -> H' n = H n) ->
  exists p m, take_reference i s = Ret (p, set_refs (pollables s) m s) /\ mem (set_refs (pollables s) m s) H' /\
    match p with Some p => in_set s p | None => True end.
Proof.
  intros M Hi Hs Ho. apply (mem_nodes _ _ _ _ _ M) in Hi as [[p c] E]. destruct (mem_cnt _ _ _ _ _ M i p c E) as [Ec Hc].
  unfold take_reference. rewrite E. do 2 eexists. split; [reflexivity|]. split.
  - unfold mem in *. cbn. eapply mem_update; [done|done|by left|lia|lia|done].
  - destruct p as [p|]; [|done]. exists i, c. split; [|done]. by eapply M.
Qed.

Lemma add_pollable_ok s H p : mem s H -> ~ in_set s p -> mem (add_pollable p s) H.
Proof.
  intros [ND NO BR CN HE PO] Hp. assert (refs s !! brk s = None) as F by (destruct (refs s !! brk s) eqn:E; [|done]; specialize (BR (brk s)); rewrite E in BR; specialize (BR (ltac:(eauto))); lia).
  split; cbn.
  - apply NoDup_app. split; [done|]. split; [|apply NoDup_singleton]. intros n Hn ->%list_elem_of_singleton. apply NO in Hn as [? Hn]. congruence.
  - intros n. rewrite elem_of_app, list_elem_of_singleton, NO, lookup_insert_is_Some'. naive_solver.
  - intros n. rewrite lookup_insert_is_Some'. intros [<-|Hn]; [lia|]. apply BR in Hn. lia.
  - intros n q c. destruct (decide (n = brk s)) as [->|N]; [rewrite lookup_insert_eq; intros [= <- <-]|rewrite lookup_insert_ne by done; apply CN].
    split; [|done]. destruct (H (brk s)) eqn:E; [done|]. destruct (HE (brk s) ltac:(lia)); congruence.
  - intros n Hn. rewrite lookup_insert_is_Some'. auto.
  - intros n q c. destruct (decide (n = brk s)) as [->|N].
    + rewrite lookup_insert_eq. intros [= <- _]. by rewrite lookup_insert_eq.
    + rewrite lookup_insert_ne by done. intros E. destruct (decide (q = p)) as [->|]; [|rewrite lookup_insert_ne by done; eauto].
      destruct Hp. exists n, c. eauto.
Qed.

Lemma remove_pollable_ok s H p : mem s H -> in_set s p ->
  exists l m, remove_pollable p s = Ret (set_refs l m s) /\ mem (set_refs l m s) H /\ ~ in_set (set_refs l m s) p.
Proof.
  intros M (n & c & P & E). unfold remove_pollable. rewrite P, E. destruct (mem_cnt _ _ _ _ _ M n _ c E) as [Ec _].
  destruct (Z.eqb_spec c 0) as [Z0|Z0].
  - destruct (erase_ok s _ H H n M E ltac:(lia) ltac:(done) (Ref None c)) as (j & l & m & Er & M' & _).
    rewrite Er. do 2 eexists. split; [reflexivity|]. split; [done|].
    intros (n' & c' & P' & E'). cbn in P', E'. assert (n' = n) as -> by congruence.
    unfold erase in Er. cbn in Er. destruct (split_at n (pollables s)) as [[? ?]|]; [|done]. rewrite lookup_insert_eq in Er. injection Er as _ _ <-.
    by rewrite lookup_delete_eq in E'.
  - do 2 eexists. split; [reflexivity|]. split.
    + unfold mem in *. cbn. eapply mem_update; [done|done|by right|done|lia|done].
    + intros (n' & c' & P' & E'). cbn in P', E'. assert (n' = n) as -> by congruence. by rewrite lookup_insert_eq in E'.
Qed.

(** ** Threads *)

Lemma thr_set t x0 x m pol dor run : thr_ok m pol dor run -> m !! t = Some x0 -> x0 <> Dormant -> x <> Dormant ->
  (polls x = true -> pol = Some t) -> (run = Some t \/ parked x = true) -> thr_ok (<[t := x]> m) pol dor run.
Proof.
  intros [PO AW DO ND PA RU] E N0 N Hp Hr. split; [| | |done| |].
  - intros u y. rewrite lookup_insert_Some. intros [[<- <-]|[? ?]]; eauto.
  - intros u Hu. destruct (decide (u = t)) as [->|Ne]; [rewrite lookup_insert_eq; congruence|rewrite lookup_insert_ne by done; auto].
  - intros u. rewrite DO. destruct (decide (u = t)) as [->|Ne]; [rewrite lookup_insert_eq, E; naive_solver|by rewrite lookup_insert_ne].
  - intros u y. rewrite lookup_insert_Some. intros [[<- <-]|[? ?]]; [by destruct Hr|eauto].
  - intros u Hu. rewrite lookup_insert_is_Some'. auto.
Qed.

(** The running thread moves on to [x], with memory that fits. *)
Lemma inv_move t x s : mem s (count (<[t := x]> (threads s))) -> thr_ok (<[t := x]> (threads s)) (polling_thread s) (dormant_threads s) (running s) ->
  running s = Some t -> (forall n, iterator x = Some n -> n ∈ pollables s) -> inv (set_thread t x s).
Proof.
  intros M T R I. split; [exact M|exact T|]. intros u y n Hu Hn. cbn in Hu. cbn. destruct (decide (u = t)) as [->|N].
  - rewrite lookup_insert_eq in Hu. injection Hu as <-. auto.
  - pose proof (thr_parked _ _ _ _ T u y Hu) as P. rewrite R in P. specialize (P ltac:(congruence)). by destruct y as [| | | | |? ? []| | | | |].
Qed.

Lemma count_alt m t x y n : is_Some (m !! t) -> holds n x = holds n y -> count (<[t := x]> m) n = count (<[t := y]> m) n.
Proof. intros [x0 E] H. rewrite <- (count_same (<[t := y]> m) n t y x); [by rewrite insert_insert_eq|by rewrite lookup_insert_eq|done]. Qed.

(** A move that takes and drops no reference *)
Lemma inv_step t x0 x s : inv s -> running s = Some t -> threads s !! t = Some x0 -> x0 <> Dormant -> x <> Dormant ->
  (forall n, holds n x = holds n x0) -> (polls x = true -> polling_thread s = Some t) ->
  (forall n, iterator x = Some n -> n ∈ pollables s) -> inv (set_thread t x s).
Proof.
  intros [M T _] R E N0 N H P I. apply inv_move; [|eapply thr_set; eauto|done|done].
  eapply mem_ext; [|exact M]. intros n. by eapply count_same.
Qed.

(** The end of a turn over the list: [H] counts the reference that is dropped. *)
Record leaving (t : thread) (i : node) (s : loop) (H : node -> nat) : Prop := {
  lv_mem : mem s H;
  lv_here : H i = S (count (<[t := After]> (threads s)) i);
  lv_others : forall n, n <> i -> count (<[t := After]> (threads s)) n = H n;
  lv_thr : thr_ok (threads s) (polling_thread s) (dormant_threads s) (running s);
  lv_running : running s = Some t;
  lv_state : exists x, threads s !! t = Some x /\ x <> Dormant
}.

Lemma serviced_ok t i pr s H : leaving t i s H -> exists s', serviced t i pr s = Ret s' /\ inv s' /\ calls s' = calls s.
Proof.
  intros [M Hi Ho T R (x0 & E & N0)]. destruct (drop_reference_ok s H _ i M Hi Ho) as (j & l & m & D & M' & J).
  assert (forall x, (forall n, holds n x = false) -> mem (set_refs l m s) (count (<[t := x]> (threads s)))) as Mx
    by (intros x Hx; eapply mem_ext; [|exact M']; intros n; apply count_alt; [eauto|by rewrite Hx]).
  unfold serviced. rewrite D. cbn [mbind res_bind]. cbn [polling_thread set_refs]. destruct (decide (polling_thread s = Some t)) as [P|P].
  - eexists. split; [reflexivity|]. split; [|done]. apply inv_move; [by apply Mx|eapply thr_set; eauto|done|exact J].
  - destruct (polling_thread s) as [u|] eqn:P'; (eexists; split; [reflexivity|]; split; [|done]).
    + apply inv_move; [by apply Mx|cbn; rewrite P'; eapply thr_set; eauto; done|done|done].
    + apply (inv_move t Yielding (set_polling (Some t) (set_refs l m s))); [by apply Mx| |done|done].
      cbn. destruct T as [PO AW DO ND PA RU]. eapply (thr_set t x0); eauto. split; try done.
      * intros u x Hu Hx. specialize (PO u x Hu Hx). congruence.
      * intros u [= <-]. congruence.
Qed.

Lemma waited_ok t i s H : leaving t i s H -> polling_thread s = Some t -> exists s', waited t i s = Ret s' /\ inv s' /\ calls s' = calls s.
Proof.
  intros [M Hi Ho T R (x0 & E & N0)] P. destruct (drop_reference_ok s H _ i M Hi Ho) as (j & l & m & D & M' & J).
  unfold waited. rewrite D. cbn [mbind res_bind]. eexists. split; [reflexivity|]. split; [|done]. apply inv_move; [|eapply thr_set; eauto|done|exact J].
  eapply mem_ext; [|exact M']. intros n. apply count_alt; [eauto|done].
Qed.

(** A thread inside a pollable leaves it. *)
Lemma leaving_inside t i x s : inv s -> running s = Some t -> threads s !! t = Some x -> (forall n, holds n x = (i =? n)) ->
  leaving t i s (count (threads s)).
Proof.
  intros [M T _] R E Hx. split; [done| | |done|done|].
  - eapply count_less; [exact E|by rewrite Hx, Z.eqb_refl|done].
  - intros n N. eapply count_same; [exact E|]. rewrite Hx. symmetry. by apply Z.eqb_neq.
  - exists x. split; [done|]. intros ->. specialize (Hx i). rewrite Z.eqb_refl in Hx. done.
Qed.

(** A thread at iterator [i] takes the reference: it goes inside, or leaves again. *)
Lemma take_ok t i x0 s : inv s -> running s = Some t -> threads s !! t = Some x0 -> iterator x0 = Some i ->
  exists p m, take_reference i s = Ret (p, set_refs (pollables s) m s) /\
    match p with
    | Some p => in_set s p /\ forall x, (forall n, holds n x = (i =? n)) -> (polls x = true -> polling_thread s = Some t) -> iterator x = None ->
        inv (set_thread t x (set_refs (pollables s) m s))
    | None => leaving t i (set_refs (pollables s) m s) (fun n => if n =? i then S (count (threads s) n) else count (threads s) n)
    end.
Proof.
  intros I R E It. destruct I as [M T IT]. set (H' := fun n => if n =? i then S (count (threads s) n) else count (threads s) n).
  assert (H' i = S (count (threads s) i)) as H1 by (unfold H'; by rewrite Z.eqb_refl).
  assert (forall n, n <> i -> H' n = count (threads s) n) as H2 by (intros n N; unfold H'; by rewrite (proj2 (Z.eqb_neq _ _) N)).
  assert (x0 <> Dormant /\ forall n, holds n x0 = false) as [N0 Hx0] by (by destruct x0).
  destruct (take_reference_ok s _ H' i M (IT t x0 i E It) H1 H2) as (p & m & Ht & M' & Hp). exists p, m. split; [exact Ht|].
  destruct p as [p|].
  - split; [done|]. intros x Hx Px Ix. apply inv_move; [| |done|cbn; congruence].
    + eapply mem_ext; [|exact M']. intros n. destruct (decide (n = i)) as [->|N].
      * rewrite H1. eapply count_more; [exact E|done|by rewrite Hx, Z.eqb_refl].
      * rewrite H2 by done. eapply count_same; [exact E|]. rewrite Hx, Hx0. apply Z.eqb_neq. congruence.
    + eapply thr_set; eauto. intros ->. specialize (Hx i). by rewrite Z.eqb_refl in Hx.
  - assert (forall n, count (<[t := After]> (threads s)) n = count (threads s) n) as C by (intros n; eapply count_same; [exact E|by rewrite Hx0]).
    split; [done|cbn; by rewrite C, H1|intros n N; cbn; by rewrite C, H2|done|done|]. exists x0. done.
Qed.

(** ** Every action preserves the invariant *)

(** A step of a pool thread; it calls at most one pollable, of the set. *)
Definition calls_of (s s' : loop) : Prop := calls s' = calls s \/ exists p, in_set s p /\ calls s' = calls s ++ [p].

Lemma goes_dormant t s : inv s -> running s = Some t -> threads s !! t = Some Top -> polling_thread s <> Some t ->
  inv (set_thread t Dormant (set_dormant (t :: dormant_threads s) s)).
Proof.
  intros [M [PO AW DO ND PA RU] IT] R E P. apply inv_move; [|cbn|done|done].
  - eapply mem_ext; [|exact M]. intros n. by eapply count_same.
  - split.
    + intros u x. rewrite lookup_insert_Some. intros [[<- <-]|[? ?]]; [done|eauto].
    + intros u Hu. rewrite lookup_insert_ne by congruence. auto.
    + intros u. rewrite elem_of_cons, DO. destruct (decide (u = t)) as [->|N]; [rewrite lookup_insert_eq; naive_solver|rewrite lookup_insert_ne by done; naive_solver].
    + apply NoDup_cons_2; [|done]. rewrite DO. congruence.
    + intros u x. rewrite lookup_insert_Some. intros [[<- <-]|[? ?]]; [done|eauto].
    + intros u Hu. rewrite lookup_insert_is_Some'. auto.
Qed.

Lemma inv_call p s : inv s -> inv (add_call p s).
Proof. intros []. by split. Qed.

Lemma run_thread_ok t s : inv s -> running s = Some t -> exists s', run_thread t s = Ret s' /\ inv s' /\ calls_of s s'.
Proof.
  intros I R. pose proof (inv_thr s I) as T. unfold run_thread. destruct (threads s !! t) as [x|] eqn:E; [|exists s; split; [done|]; split; [done|by left]].
  pose proof (thr_polling _ _ _ _ T t x E) as P.
  assert (forall y, x <> Dormant -> y <> Dormant -> (forall n, holds n y = holds n x) -> (polls y = true -> polling_thread s = Some t) ->
    (forall n, iterator y = Some n -> n ∈ pollables s) -> exists s', Ret (set_thread t y s) = Ret s' /\ inv s' /\ calls_of s s') as G.
  { intros y ? ? ? ? ?. eexists. split; [reflexivity|]. split; [by eapply inv_step|by left]. }
  assert (forall n, head (pollables s) = Some n -> n ∈ pollables s) as Hd by (intros; by apply head_elem).
  destruct x as [| | | |[i|] pr|i pr h| | |[i|]|i|]; cbn [polls] in P.
  - case_bool_decide as B; [by apply G|]. eexists. split; [reflexivity|]. split; [by apply goes_dormant|by left].
  - exists s. split; [done|]. split; [done|by left].
  - rewrite bool_decide_eq_true_2 by auto. by apply G; auto.
  - rewrite bool_decide_eq_true_2 by auto. by apply G; auto.
  - destruct (take_ok t i _ s I R E eq_refl) as (p & m & -> & H). cbn [mbind res_bind]. destruct p as [p|].
    + destruct H as [Hp H]. eexists. split; [reflexivity|]. split; [|right; by exists p]. apply inv_call, H; auto.
    + destruct (serviced_ok t i pr _ _ H) as (s' & Es & I' & C). rewrite Es. eexists. split; [reflexivity|]. split; [done|by left].
  - apply G; auto; by destruct pr; auto.
  - exists s. split; [done|]. split; [done|by left].
  - by apply G; auto.
  - case_bool_decide as B; by apply G.
  - destruct (take_ok t i _ s I R E eq_refl) as (p & m & -> & H). cbn [mbind res_bind]. destruct p as [p|].
    + destruct H as [Hp H]. eexists. split; [reflexivity|]. split; [|right; by exists p]. apply inv_call, H; auto.
    + destruct (waited_ok t i _ _ H ltac:(auto)) as (s' & Es & I' & C). rewrite Es. eexists. split; [reflexivity|]. split; [done|by left].
  - by apply G; auto.
  - exists s. split; [done|]. split; [done|by left].
  - by apply G; auto.
Qed.

Lemma returns_ok b t s : inv s -> running s = Some t -> exists s', returns b t s = Ret s' /\ inv s' /\ calls s' = calls s.
Proof.
  intros I R. unfold returns. destruct (threads s !! t) as [x|] eqn:E; [|by exists s].
  destruct x as [| | | |[i|] pr|i pr h| | |[i|]|i|]; try by exists s.
  - eapply serviced_ok, leaving_inside; [done|done|exact E|done].
  - eapply waited_ok; [eapply leaving_inside; [done|done|exact E|done]|]. by eapply (thr_polling _ _ _ _ (inv_thr s I) _ _ E).
Qed.

Lemma mem_permute l l' m pos b H : l ≡ₚ l' -> mem_ok l m pos b H -> mem_ok l' m pos b H.
Proof. intros P []. split; try done; [by rewrite <- P|]. intros n. by rewrite <- P. Qed.

(** Blocking inside [poll]: another thread is appointed, and the list rotated so
    that it goes on with the next pollable. *)
Lemma blocks_ok t i pr s : inv s -> running s = Some t -> threads s !! t = Some (In_poll i pr true) ->
  exists pre post s', pollables s = pre ++ i :: post /\ appoint_polling_thread i s = Ret s' /\ pollables s' = post ++ pre ++ [i] /\
    inv (set_thread t (In_poll i pr false) s') /\ calls s' = calls s /\ running s' = Some t /\ forall u, is_Some (threads s !! u) -> is_Some (threads s' !! u).
Proof.
  intros I R E. pose proof (inv_mem s I) as M. destruct (inv_thr s I) as [PO AW DO ND PA RU].
  assert (0 < count (threads s) i)%nat as Hc.
  { rewrite (count_less _ i t _ Top E); [lia|cbn; by rewrite Z.eqb_refl|done]. }
  destruct (mem_split s _ i M (mem_held _ _ _ _ _ M i Hc)) as (pre & post & S & L).
  exists pre, post. unfold appoint_polling_thread. rewrite S. cbn [dormant_threads set_refs].
  assert (mem (set_refs (post ++ pre ++ [i]) (refs s) s) (count (<[t := In_poll i pr false]> (threads s)))) as M'.
  { unfold mem in *. cbn. eapply mem_ext; [intros n; by apply (count_same _ n t _ (In_poll i pr false) E)|]. eapply mem_permute; [|exact M].
    rewrite L. rewrite (Permutation_app_comm post), <- app_assoc. done. }
  pose proof (PO t _ E eq_refl) as P. destruct (dormant_threads s) as [|u l] eqn:D; eexists; (split; [done|]); (split; [reflexivity|]); (split; [done|]).
  - split; [|done]. apply inv_move; [exact M'|cbn|done|done]. split.
    + intros v x. rewrite lookup_insert_Some. intros [[<- <-]|[N Hv]]; [done|]. intros Hx. specialize (PO v x Hv Hx). congruence.
    + done.
    + intros v. rewrite D, DO. destruct (decide (v = t)) as [->|N]; [rewrite lookup_insert_eq, E; naive_solver|by rewrite lookup_insert_ne].
    + by rewrite D.
    + intros v x. rewrite lookup_insert_Some. intros [[<- <-]|[? ?]]; [done|eauto].
    + intros v Hv. rewrite lookup_insert_is_Some'. auto.
  - assert (threads s !! u = Some Dormant) as Eu by (apply DO; by left). assert (u <> t) as Nu by congruence.
    split; [|split; [done|]; split; [done|]; cbn; intros v Hv; rewrite lookup_insert_is_Some'; auto]. apply inv_move; [|cbn|done|done].
    { eapply mem_ext; [|exact M']. cbn. intros n. rewrite insert_insert_ne by done. apply (count_same _ n u Dormant); [|done]. by rewrite lookup_insert_ne. }
    apply NoDup_cons in ND as [Nl ND]. split.
    + intros v x. rewrite !lookup_insert_Some. intros [[<- <-]|[N [[<- <-]|[N2 Hv]]]]; [done|done|]. intros Hx. specialize (PO v x Hv Hx). congruence.
    + intros v [= <-]. rewrite lookup_insert_ne, lookup_insert_eq by done. done.
    + intros v. destruct (decide (v = t)) as [->|N]; [rewrite lookup_insert_eq; split; [|done]; intros Hv|].
      { assert (t ∈ u :: l) as Hv' by (by right). apply DO in Hv'. congruence. }
      rewrite lookup_insert_ne by done. destruct (decide (v = u)) as [->|N2]; [rewrite lookup_insert_eq; naive_solver|].
      rewrite lookup_insert_ne, <- DO, elem_of_cons by done. naive_solver.
    + done.
    + intros v x. rewrite !lookup_insert_Some. intros [[<- <-]|[N [[<- <-]|[N2 Hv]]]]; [done|done|eauto].
    + intros v Hv. rewrite !lookup_insert_is_Some'. auto.
Qed.

Lemma inv_leave s next : inv s -> (forall t x, running s = Some t -> threads s !! t = Some x -> parked x = true) ->
  (forall u, next = Some u -> is_Some (threads s !! u)) -> inv (set_running next s).
Proof.
  intros [M [PO AW DO ND PA RU] IT] L N. split; [done| |done]. split; try done. intros t x E _. destruct (decide (running s = Some t)) as [R|R]; eauto.
Qed.

Lemma switch_ok next s : inv s -> allowed (Switch next) s -> exists s', switch next s = Ret s' /\ inv s' /\ calls s' = calls s.
Proof.
  intros I [L N]. unfold switch. destruct (running s) as [t|] eqn:R.
  2: { eexists. split; [reflexivity|]. split; [|done]. apply inv_leave; [done|by rewrite R|done]. }
  destruct (threads s !! t) as [x|] eqn:E; [|done].
  assert (parked x = true -> exists s', Ret (set_running next s) = Ret s' /\ inv s' /\ calls s' = calls s) as G.
  { intros P. eexists. split; [reflexivity|]. split; [|done]. apply inv_leave; [done| |done]. intros t' x' R' E'. congruence. }
  destruct x as [| | | |[i|] pr|i pr []| | |[i|]|i|]; try done; try by apply G.
  destruct (blocks_ok t i pr s I R E) as (pre & post & s' & _ & -> & _ & I' & C & R' & E'). cbn [mbind res_bind].
  eexists. split; [reflexivity|]. split; [|done]. apply inv_leave; [done| |].
  - cbn. intros t' x' Ht. assert (t' = t) as -> by congruence. rewrite lookup_insert_eq. by intros [= <-].
  - intros u Hu. cbn. rewrite lookup_insert_is_Some'. auto.
Qed.

(** While client code runs, no thread keeps an iterator without a reference. *)
Lemma no_iterators s t x : inv s -> client_runs s -> threads s !! t = Some x -> iterator x = None.
Proof.
  intros I C E. pose proof (thr_parked _ _ _ _ (inv_thr s I) t x E) as P. unfold client_runs in C.
  destruct (decide (running s = Some t)) as [R|R]; [rewrite R, E in C; by destruct x|]. specialize (P R). by destruct x as [| | | | |? ? []| | | | |].
Qed.

Lemma add_ok p s : inv s -> client_runs s -> ~ in_set s p -> inv (add_pollable p s).
Proof.
  intros I C Hp. split; [by apply add_pollable_ok; [apply I|]|apply I|]. intros t x n E H. rewrite (no_iterators s t x I C E) in H. done.
Qed.

Lemma remove_ok p s : inv s -> client_runs s -> in_set s p ->
  exists s', remove_pollable p s = Ret s' /\ inv s' /\ calls s' = calls s /\ ~ in_set s' p.
Proof.
  intros I C Hp. destruct (remove_pollable_ok s _ p (inv_mem s I) Hp) as (l & m & -> & M & N). eexists. split; [reflexivity|].
  split; [|done]. split; [exact M|apply I|]. intros t x n E H. rewrite (no_iterators s t x I C E) in H. done.
Qed.

Lemma run_ok t s : inv s -> allowed (PollLoop.Run t) s -> inv (run t s).
Proof.
  intros [M [PO AW DO ND PA RU] IT] (R & P & E & A). split.
  - eapply mem_ext; [|exact M]. intros n. unfold count. cbn. f_equal. apply set_eq. intros u. rewrite !elem_of_holders.
    destruct (decide (u = t)) as [->|N]; [rewrite lookup_insert_eq, E|by rewrite lookup_insert_ne].
    split; [by intros (x & [= <-] & ?)|by intros (x & ? & ?)].
  - cbn. split.
    + intros u x. rewrite lookup_insert_Some. intros [[<- <-]|[_ Hu]]; [done|]. by rewrite (A u x Hu).
    + intros u [= <-]. by rewrite lookup_insert_eq.
    + intros u. rewrite DO. destruct (decide (u = t)) as [->|N]; [rewrite lookup_insert_eq, E; done|by rewrite lookup_insert_ne].
    + done.
    + intros u x. rewrite lookup_insert_Some. intros [[<- <-]|[_ Hu]]; [done|]. by rewrite (A u x Hu).
    + intros u [= <-]. rewrite lookup_insert_eq. eauto.
  - intros u x n. cbn. rewrite lookup_insert_Some. intros [[<- <-]|[_ Hu]]; [done|]. by rewrite (A u x Hu).
Qed.

Lemma inv_new n : inv (new_loop n).
Proof.
  assert (forall t, threads (new_loop n) !! t = if decide (t ∈ Z.of_nat <$> seq 0 (n - 1)) then Some Dormant else None) as L.
  { intros t. cbn. induction (Z.of_nat <$> seq 0 (n - 1)) as [|u l IH]; cbn; [done|]. destruct (decide (t = u)) as [->|N].
    - rewrite lookup_insert_eq, decide_True; [done|by left].
    - rewrite lookup_insert_ne, IH by done. apply decide_ext. rewrite elem_of_cons. naive_solver. }
  assert (forall t x, threads (new_loop n) !! t = Some x -> x = Dormant) as D by (intros t x; rewrite L; case_decide; congruence).
  split.
  - split; [constructor| | | | |]; cbn.
    + intros k. rewrite lookup_empty. split; [by intros ?%elem_of_nil|by intros []].
    + intros k [? H]. by rewrite lookup_empty in H.
    + intros k p c H. by rewrite lookup_empty in H.
    + intros k H. unfold count in H. assert (holders (threads (new_loop n)) k = ∅) as E.
      { apply set_eq. intros t. rewrite elem_of_holders. split; [|by intros ?%elem_of_empty]. intros (x & Hx & H'). by rewrite (D t x Hx) in H'. }
      cbn in E. rewrite E, size_empty in H. lia.
    + intros k p c H. by rewrite lookup_empty in H.
  - split.
    + intros t x H. by rewrite (D t x H).
    + done.
    + intros t. rewrite L. change (dormant_threads (new_loop n)) with (reverse (Z.of_nat <$> seq 0 (n - 1))). rewrite reverse_Permutation. case_decide; naive_solver.
    + change (NoDup (reverse (Z.of_nat <$> seq 0 (n - 1)))). rewrite reverse_Permutation.
      apply NoDup_fmap_2; [apply _|apply NoDup_seq].
    + intros t x H _. by rewrite (D t x H).
    + done.
  - intros t x k H. by rewrite (D t x H).
Qed.

Lemma action_ok a s : inv s -> allowed a s -> exists s', act a s = Ret s' /\ inv s' /\ calls_of s s'.
Proof.
  intros I A. destruct a as [p|p|t| |b|next]; cbn [act].
  - destruct A as [C Hp]. eexists. split; [reflexivity|]. split; [by apply add_ok|by left].
  - destruct A as [C Hp]. destruct (remove_ok p s I C Hp) as (s' & E & I' & K & _). exists s'. split; [done|]. split; [done|by left].
  - eexists. split; [reflexivity|]. split; [by apply run_ok|by left].
  - destruct (running s) as [t|] eqn:R; [by apply run_thread_ok|]. exists s. split; [done|]. split; [done|by left].
  - destruct (running s) as [t|] eqn:R; [|exists s; split; [done|]; split; [done|by left]].
    destruct (returns_ok b t s I R) as (s' & E & I' & K). exists s'. split; [done|]. split; [done|by left].
  - destruct (switch_ok next s I A) as (s' & E & I' & K). exists s'. split; [done|]. split; [done|by left].
Qed.

Lemma loop_history_inv n s : history n s -> inv s.
Proof. induction 1 as [|a s s' _ IH A E]; [apply inv_new|]. destruct (action_ok a s IH A) as (s2 & E2 & I2 & _). congruence. Qed.

(** C34: The poll loop is safe for any number of threads and pollables, with
    pollables that block at any point, are polled again while they are blocked, and
    add and remove pollables, themselves included, from within a call or from other
    threads.  No operation fails: no list node is used after its erasure and no
    assertion fails.  Only a pollable of the set is called, so never one that was
    removed.  At most one thread services the list.  Each node counts the threads
    inside its pollable, and a node without a pollable is kept only while a thread
    is inside. *)
Theorem poll_loop_safe n s : history n s ->
  (forall a, allowed a s -> exists s', act a s = Ret s' /\ calls_of s s') /\
  (forall t u x y, threads s !! t = Some x -> threads s !! u = Some y -> polls x = true -> polls y = true -> t = u) /\
  (forall k, k ∈ pollables s <-> is_Some (refs s !! k)) /\
  (forall k p c, refs s !! k = Some (Ref p c) -> c = Z.of_nat (count (threads s) k) /\
     (p = None -> exists t x, threads s !! t = Some x /\ holds k x = true)).
Proof.
  intros Hs. pose proof (loop_history_inv n s Hs) as I. pose proof (inv_mem s I) as M. pose proof (inv_thr s I) as T. split_and!.
  - intros a A. destruct (action_ok a s I A) as (s' & E & _ & C). eauto.
  - intros t u x y Ht Hu Hx Hy. apply (thr_polling _ _ _ _ T) in Ht, Hu; try done. congruence.
  - apply M.
  - intros k p c E. destruct (mem_cnt _ _ _ _ _ M k p c E) as [-> H]. split; [done|]. intros Hp. specialize (H Hp).
    destruct (set_choose_L (holders (threads s) k)) as [t Ht]; [|by apply elem_of_holders in Ht as (x & ? & ?); eauto].
    intros E'. unfold count in H. rewrite E', size_empty in H. lia.
Qed.

(** When a pollable blocks, the next polling thread goes on behind it. *)
Theorem next_thread_goes_on n s t i pr next s' : history n s -> running s = Some t -> threads s !! t = Some (In_poll i pr true) ->
  act (Switch next) s = Ret s' -> exists pre post, pollables s = pre ++ i :: post /\ pollables s' = post ++ pre ++ [i].
Proof.
  intros Hs R E A. destruct (blocks_ok t i pr s (loop_history_inv n s Hs) R E) as (pre & post & s1 & L & Ap & L' & _). exists pre, post. split; [done|].
  cbn [act] in A. unfold switch in A. rewrite R, E, Ap in A. cbn [mbind res_bind] in A. by injection A as <-.
Qed.

(** Two threads; pollable 8 is polled, removes itself and blocks, and the other
    thread polls 7. *)
Definition sample_actions : list action := [Add 8; Add 7; PollLoop.Run 1; Step; Step; Step; Remove 8; Switch (Some 0); Step; Step; Step].
Definition run_actions (l : list action) (s : loop) : res loop := foldl (fun r a => r ≫= act a) (Ret s) l.
Definition after_actions (k : nat) : loop := match run_actions (take k sample_actions) (new_loop 2) with Ret s => s | _ => new_loop 2 end.

Lemma sample_history : history 2 (after_actions 11).
Proof.
  assert (forall k a, sample_actions !! k = Some a -> allowed a (after_actions k) -> history 2 (after_actions k) ->
    act a (after_actions k) = Ret (after_actions (S k)) -> history 2 (after_actions (S k))) as G by (intros; by eapply history_act).
  assert (history 2 (after_actions 0)) as H0 by apply history_new.
  assert (history 2 (after_actions 1)) as H1. { eapply G; [reflexivity| |exact H0|vm_compute; reflexivity]. split; [done|]. by intros (n & c & H & _). }
  assert (history 2 (after_actions 2)) as H2.
  { eapply G; [reflexivity| |exact H1|vm_compute; reflexivity]. split; [done|]. by intros (n & c & H & _). }
  assert (history 2 (after_actions 3)) as H3.
  { eapply G; [reflexivity| |exact H2|vm_compute; reflexivity]. split_and!; try done. intros u x Hu. vm_compute in Hu.
    destruct u as [|p|p]; [|destruct p; discriminate|discriminate]. by injection Hu as <-. }
  assert (history 2 (after_actions 6)) as H6.
  { do 3 (eapply G; [reflexivity|exact Logic.I| |vm_compute; reflexivity]). exact H3. }
  assert (history 2 (after_actions 7)) as H7. { eapply G; [reflexivity| |exact H6|vm_compute; reflexivity]. split; [done|]. by exists 0, 1. }
  assert (history 2 (after_actions 8)) as H8. { eapply G; [reflexivity| |exact H7|vm_compute; reflexivity]. split; [done|]. intros u [= <-]. vm_compute. by eexists. }
  do 3 (eapply G; [reflexivity|exact Logic.I| |vm_compute; reflexivity]). exact H8.
Qed.

Lemma poll_loop_safe_witness : calls (after_actions 11) = [8; 7] /\
  exists t x, threads (after_actions 11) !! t = Some x /\ holds 0 x = true.
Proof.
  split; [reflexivity|]. destruct (poll_loop_safe 2 (after_actions 11) sample_history) as (_ & _ & _ & H).
  destruct (H 0 None 1 eq_refl) as [_ W]. by apply W.
Defined.
