(* ===== verification/CoThreads.v ===== *)
(** * Waitqueues and synchronisation of cooperative threads (lib/threads/impl.cc,
    lib/threads/cooperative.cc)

    A waitqueue is a singly linked list of events whose last [next] field, and whose
    head when it is empty, are not initialised: [tail] points to the cell that the
    next event will be stored in.  The synchronisation primitives are built on it. *)

From S2P Require Import Prelude.

Open Scope Z_scope.

(** ** Waitqueues

    Events and queues have addresses; a pointer is [None] or the address of an
    event.  [Aborted] is a failed assertion or a use of memory that is not there. *)

Inductive cell := Head (q : Z) | Next (e : Z).
#[export] Instance cell_eq_dec : EqDecision cell.
Proof. solve_decision. Defined.

(** [co_event]; [retval] is what [retvalp] points to, [None] when it is null. *)
Record co_event := Event { wq : option Z; next : option Z; thread : Z; retval : option Z }.

(** [co_group], with the heads and tails of its queues and the events of its
    threads *)
Record group := Group {
  heads : gmap Z (option Z);
  tails : gmap Z cell;
  events : gmap Z co_event;
  ready_list : list Z;
  block_list : list Z
}.

Definition set_head (q : Z) (p : option Z) (g : group) : group :=
  Group (<[q := p]> (heads g)) (tails g) (events g) (ready_list g) (block_list g).
Definition set_tail (q : Z) (c : cell) (g : group) : group :=
  Group (heads g) (<[q := c]> (tails g)) (events g) (ready_list g) (block_list g).
Definition set_event (e : Z) (ev : co_event) (g : group) : group :=
  Group (heads g) (tails g) (<[e := ev]> (events g)) (ready_list g) (block_list g).

(** What a cell holds, and storing into it *)
Definition load (c : cell) (g : group) : option (option Z) :=
  match c with Head q => heads g !! q | Next e => next <$> events g !! e end.
Definition store (c : cell) (p : option Z) (g : group) : res group :=
  match c with
  | Head q => match heads g !! q with None => Aborted | Some _ => Ret (set_head q p g) end
  | Next e =>
      match events g !! e with
      | None => Aborted
      | Some ev => Ret (set_event e (Event (wq ev) p (thread ev) (retval ev)) g)
      end
  end.

Definition tail_of (q : Z) (g : group) : res cell := match tails g !! q with None => Aborted | Some c => Ret c end.
Definition deref (c : cell) (g : group) : res (option Z) := match load c g with None => Aborted | Some p => Ret p end.

(** [Co_waitqueue::Co_waitqueue]; the head is [garbage]. *)
Definition new_waitqueue (q : Z) (garbage : option Z) (g : group) : group := set_tail q (Head q) (set_head q garbage g).

Definition empty (q : Z) (g : group) : bool := bool_decide (tails g !! q = Some (Head q)).

(** [remove_from_lists] with [COTF_BLOCKING], [make_ready] *)
Definition make_ready (t : Z) (g : group) : group :=
  let blocked := remove_first (Z.eqb t) (block_list g) in
  if existsb (Z.eqb t) (ready_list g) then Group (heads g) (tails g) (events g) (ready_list g) blocked
  else Group (heads g) (tails g) (events g) (ready_list g ++ [t]) blocked.

(** [do_event_wake] *)
Definition do_event_wake (e : Z) (r : Z) (g : group) : res group :=
  match events g !! e with
  | None => Aborted
  | Some ev =>
      if r =? 0 then Aborted
      else Ret (make_ready (thread ev) (set_event e (Event None (next ev) (thread ev) ((fun _ => r) <$> retval ev)) g))
  end.

(** [*tail = NULL] *)
Definition terminate (q : Z) (g : group) : res group := c ← tail_of q g; store c None g.

(** The loop of [wake_n], and of [wake_all] without a maximum *)
Fixpoint wake_loop (fuel : nat) (r : Z) (max : option Z) (e : option Z) (n : Z) (g : group) : res (option Z * Z * group) :=
  match e with
  | None => Ret (None, n, g)
  | Some a =>
      if match max with None => false | Some m => m <=? n end then Ret (e, n, g)
      else
        match fuel with
        | O => NoFuel
        | S fuel => g ← do_event_wake a r g; e ← deref (Next a) g; wake_loop fuel r max e (n + 1) g
        end
  end.

Definition wake_n (q r max : Z) (g : group) : res (Z * group) :=
  if r =? 0 then Aborted
  else
    g ← terminate q g;
    e ← deref (Head q) g;
    '(e, n, g) ← wake_loop (size (events g)) r (Some max) e 0 g;
    match e with
    | Some _ => Ret (n, set_head q e g)
    | None => Ret (n, set_tail q (Head q) g)
    end.

Definition wake_all (q r : Z) (g : group) : res group :=
  if r =? 0 then Aborted
  else
    g ← terminate q g;
    e ← deref (Head q) g;
    '(_, _, g) ← wake_loop (size (events g)) r None e 0 g;
    Ret (set_tail q (Head q) g).

(** [Co_waitqueue::wake_1]: the thread that was awakened *)
Definition wake_1 (q r : Z) (g : group) : res (option Z * group) :=
  if r =? 0 then Aborted
  else
    g ← terminate q g;
    e ← deref (Head q) g;
    match e with
    | None => Ret (None, g)
    | Some a =>
        next ← deref (Next a) g;
        g ← do_event_wake a r g;
        Ret (thread <$> events g !! a,
             match next with Some _ => set_head q next g | None => set_tail q (Head q) g end)
    end.

(** [*tail = event; tail = &event->next] *)
Definition append (q e : Z) (g : group) : res group :=
  c ← tail_of q g;
  g ← store c (Some e) g;
  Ret (set_tail q (Next e) g).

(** [Co_waitqueue::wait], for an event that [add_event] puts at [e], where memory
    holds [garbage]; [has_retval] says that [retvalp] is not null. *)
Definition wait (q e t : Z) (garbage : option Z) (has_retval : bool) (g : group) : res group :=
  append q e (set_event e (Event (Some q) garbage t (if has_retval then Some 0 else None)) g).

(** [Co_waitqueue::dequeue]; the loop looks for the cell that points to [e]. *)
Fixpoint find_cell (fuel : nat) (e : Z) (prev : cell) (g : group) : res cell :=
  p ← deref prev g;
  match p with
  | None => Aborted
  | Some a =>
      if a =? e then Ret prev
      else match fuel with O => NoFuel | S fuel => find_cell fuel e (Next a) g end
  end.
Definition dequeue (q e : Z) (g : group) : res group :=
  match events g !! e with
  | None => Aborted
  | Some ev =>
      if decide (wq ev <> Some q) then Aborted
      else
        g ← terminate q g;
        prev ← find_cell (size (events g)) e (Head q) g;
        p ← deref (Next e) g;
        match p with
        | Some _ => store prev p g
        | None => Ret (set_tail q prev g)
        end
  end.

(** [dequeue_event], and [cancel_events] for a thread whose events are [es] *)
Definition dequeue_event (e : Z) (g : group) : res group :=
  match events g !! e with
  | None => Aborted
  | Some ev => match wq ev with Some q => dequeue q e g | None => Ret g end
  end.
Fixpoint dequeue_events (es : list Z) (g : group) : res group :=
  match es with [] => Ret g | e :: es => g ← dequeue_event e g; dequeue_events es g end.
Definition delete_event (e : Z) (g : group) : group :=
  Group (heads g) (tails g) (delete e (events g)) (ready_list g) (block_list g).
Definition cancel_events (es : list Z) (g : group) : res group := g ← dequeue_events es g; Ret (foldr delete_event g es).

(** ** Primitives

    Over the list that a waitqueue stands for.  A call that may block is split at
    [co_block]: it returns whether it got through at once; a thread that waits is in
    the queue, and the rest of the call runs when it was awakened.  A thread may
    wait for several events, and be awakened by another one: [cancel] is what
    [cancel_events] does then. *)

Definition cancel (t : Z) (l : list Z) : list Z := remove_first (Z.eqb t) l.

(** [Co_mutex] *)
Module Mutex.
Record mutex := Mutex { owner : option Z; wq : list Z }.
Definition new : mutex := Mutex None [].
Definition try_lock (t : Z) (m : mutex) : bool * mutex :=
  match owner m with None => (true, Mutex (Some t) (wq m)) | Some _ => (false, m) end.
(** [lock] up to [co_block], and after it *)
Definition lock (t : Z) (m : mutex) : res (bool * mutex) :=
  if decide (owner m = Some t) then Aborted
  else let '(got, m) := try_lock t m in if got then Ret (true, m) else Ret (false, Mutex (owner m) (wq m ++ [t])).
Definition lock_resumed (t : Z) (m : mutex) : res mutex := if decide (owner m = Some t) then Ret m else Aborted.
(** [wait] does not look for the caller. *)
Definition wait (t : Z) (m : mutex) : bool * mutex :=
  let '(got, m) := try_lock t m in if got then (true, m) else (false, Mutex (owner m) (wq m ++ [t])).
(** The thread that is awakened, and the mutex *)
Definition unlock (t : Z) (m : mutex) : res (option Z * mutex) :=
  if decide (owner m = Some t) then Ret (head (wq m), Mutex (head (wq m)) (tail (wq m))) else Aborted.
End Mutex.

(** [Co_sema]; [downed] is the result that the wake-up stored. *)
Module Sema.
Record sema := Sema { value : Z; wq : list Z }.
Definition new : sema := Sema 0 [].
Definition try_down (s : sema) : bool * sema := if 0 <? value s then (true, Sema (value s - 1) (wq s)) else (false, s).
Definition down (t : Z) (s : sema) : bool * sema :=
  let '(got, s) := try_down s in if got then (true, s) else (false, Sema (value s) (wq s ++ [t])).
Definition up (s : sema) : option Z * sema :=
  match wq s with [] => (None, Sema (value s + 1) []) | t :: l => (Some t, Sema (value s) l) end.
End Sema.

(** [Co_rwlock] *)
Module Rwlock.
Record rwlock := Rwlock { write_owner : option Z; read_owners : Z; read_wq : list Z; write_wq : list Z }.
Definition new : rwlock := Rwlock None 0 [] [].
Definition is_null {A : Type} (o : option A) : bool := match o with None => true | Some _ => false end.
Definition read_try_lock (l : rwlock) : bool * rwlock :=
  if is_null (write_owner l) && is_nil (write_wq l) then (true, Rwlock (write_owner l) (read_owners l + 1) (read_wq l) (write_wq l))
  else (false, l).
Definition read_lock (t : Z) (l : rwlock) : res (bool * rwlock) :=
  if decide (write_owner l = Some t) then Aborted
  else let '(got, l) := read_try_lock l in
    if got then Ret (true, l) else Ret (false, Rwlock (write_owner l) (read_owners l) (read_wq l ++ [t]) (write_wq l)).
Definition read_lock_resumed (l : rwlock) : res rwlock := if read_owners l =? 0 then Aborted else Ret l.
(** The threads that are awakened, and the lock *)
Definition read_unlock (l : rwlock) : res (list Z * rwlock) :=
  if read_owners l =? 0 then Aborted
  else if read_owners l - 1 =? 0 then
    Ret (option_list (head (write_wq l)), Rwlock (head (write_wq l)) 0 (read_wq l) (tail (write_wq l)))
  else Ret ([], Rwlock (write_owner l) (read_owners l - 1) (read_wq l) (write_wq l)).
Definition write_try_lock (t : Z) (l : rwlock) : bool * rwlock :=
  if (read_owners l =? 0) && is_null (write_owner l) then (true, Rwlock (Some t) (read_owners l) (read_wq l) (write_wq l))
  else (false, l).
Definition write_lock (t : Z) (l : rwlock) : res (bool * rwlock) :=
  if decide (write_owner l = Some t) then Aborted
  else let '(got, l) := write_try_lock t l in
    if got then Ret (true, l) else Ret (false, Rwlock (write_owner l) (read_owners l) (read_wq l) (write_wq l ++ [t])).
Definition read_wait (t : Z) (l : rwlock) : bool * rwlock :=
  let '(got, l) := read_try_lock l in if got then (true, l) else (false, Rwlock (write_owner l) (read_owners l) (read_wq l ++ [t]) (write_wq l)).
Definition write_wait (t : Z) (l : rwlock) : bool * rwlock :=
  let '(got, l) := write_try_lock t l in if got then (true, l) else (false, Rwlock (write_owner l) (read_owners l) (read_wq l) (write_wq l ++ [t])).
Definition write_lock_resumed (t : Z) (l : rwlock) : res rwlock := if decide (write_owner l = Some t) then Ret l else Aborted.
Definition write_unlock (t : Z) (l : rwlock) : res (list Z * rwlock) :=
  if decide (write_owner l <> Some t) then Aborted
  else match read_wq l with
       | [] => Ret (option_list (head (write_wq l)), Rwlock None (read_owners l) [] (tail (write_wq l)))
       | rs => Ret (rs, Rwlock None (Z.of_nat (length rs)) [] (write_wq l))
       end.
End Rwlock.

(** [Co_barrier] *)
Module Barrier.
Record barrier := Barrier { count : Z; wq : list Z }.
Definition new (n : Z) : barrier := Barrier n [].
(** Whether the thread goes on at once, and the threads that are awakened *)
Definition block (t : Z) (b : barrier) : res (bool * list Z * barrier) :=
  if count b =? 0 then Aborted
  else if count b - 1 =? 0 then Ret (true, wq b, Barrier 0 [])
  else Ret (false, [], Barrier (count b - 1) (wq b ++ [t])).
Definition block_resumed (b : barrier) : res barrier := if count b =? 0 then Ret b else Aborted.
End Barrier.

(** [Co_completion] *)
Module Completion.
Record completion := Completion { complete : bool; wq : list Z }.
Definition new : completion := Completion false [].
Definition latch (c : completion) : completion := Completion false (wq c).
Definition release (c : completion) : list Z * completion := if complete c then ([], c) else (wq c, Completion true []).
Definition wait (t : Z) (c : completion) : bool * completion := if complete c then (true, c) else (false, Completion false (wq c ++ [t])).
End Completion.

(** [Co_cond] *)
Module Cond.
Definition signal (wq : list Z) : option Z * list Z := (head wq, tail wq).
Definition broadcast (wq : list Z) : list Z * list Z := (wq, []).
Definition wait (t : Z) (wq : list Z) : list Z := wq ++ [t].
End Cond.
