(* ===== verification/CoThreadsProps.v ===== *)
(** * Waitqueues are queues, and the primitives built on them (lib/threads) *)

From S2P Require Import Prelude CoThreads.

Open Scope Z_scope.

(** ** What a waitqueue stands for *)

Definition cells (q : Z) (l : list Z) : list cell := Head q :: (Next <$> l).

(** Queue [q] holds the events [l]: each cell but the last points to the next event;
    what the last one holds does not matter. *)
Record rep (g : group) (q : Z) (l : list Z) : Prop := {
  rep_nodup : NoDup l;
  rep_head : is_Some (heads g !! q);
  rep_tail : exists c, tails g !! q = Some c /\ cells q l !! length l = Some c;
  rep_events : forall e, e ∈ l -> exists ev, events g !! e = Some ev /\ wq ev = Some q;
  rep_links : forall i e c, cells q l !! i = Some c -> l !! i = Some e -> load c g = Some (Some e)
}.

Lemma cells_nodup q l : NoDup l -> NoDup (cells q l).
Proof. intros N. apply NoDup_cons_2; [|by apply NoDup_fmap_2; [intros ? ? [= ->]|]]. by intros (e & ? & _)%list_elem_of_fmap. Qed.
Lemma cells_S q l i : cells q l !! S i = Next <$> l !! i.
Proof. apply list_lookup_fmap. Qed.
Lemma length_cells q l : length (cells q l) = S (length l).
Proof. apply (f_equal S), length_fmap. Qed.

(** Cells of a queue exist. *)
Lemma cells_load g q l i c : rep g q l -> cells q l !! i = Some c -> is_Some (load c g).
Proof.
  intros R H. destruct i as [|i]; [injection H as <-; apply R|]. rewrite cells_S in H. destruct (l !! i) as [e|] eqn:E; [|done]. injection H as <-.
  destruct (rep_events g q l R e) as (ev & Ev & _); [by eapply list_elem_of_lookup_2|]. cbn. rewrite Ev. by eexists.
Qed.

(** What does not change when cells are written: everything but links *)
Record same_shape (g g' : group) : Prop := {
  ss_tails : tails g' = tails g;
  ss_ready : ready_list g' = ready_list g;
  ss_block : block_list g' = block_list g;
  ss_dom : dom (events g') = dom (events g);
  ss_heads : forall q, is_Some (heads g !! q) -> is_Some (heads g' !! q);
  ss_events : forall e ev, events g !! e = Some ev -> exists p, events g' !! e = Some (Event (wq ev) p (thread ev) (retval ev))
}.

Lemma store_ok c p g : is_Some (load c g) ->
  exists g', store c p g = Ret g' /\ (forall d, load d g' = if decide (d = c) then Some p else load d g) /\ same_shape g g'.
Proof.
  destruct c as [q|e]; cbn [load store].
  - intros [p0 E]. rewrite E. eexists. split; [reflexivity|]. split.
    + intros [q'|e']; cbn; [destruct (decide (q' = q)) as [->|N]|]; [by rewrite lookup_insert_eq, decide_True| |by rewrite decide_False].
      by rewrite lookup_insert_ne, decide_False by congruence.
    + split; try done; cbn; [intros q'; rewrite lookup_insert_is_Some'; auto|]. intros e ev Ev. exists (next ev). rewrite Ev. by destruct ev.
  - destruct (events g !! e) as [ev|] eqn:E; [|by intros []]. intros _. eexists. split; [reflexivity|]. split.
    + intros [q'|e']; cbn; [by rewrite decide_False|]. destruct (decide (e' = e)) as [->|N]; [by rewrite lookup_insert_eq, decide_True|].
      by rewrite lookup_insert_ne, decide_False by congruence.
    + split; try done; cbn.
      * rewrite dom_insert_L. assert (e ∈ dom (events g)) by (apply elem_of_dom; eauto). set_solver.
      * intros e' ev' Ev. destruct (decide (e' = e)) as [->|N]; [rewrite lookup_insert_eq; exists p; congruence|].
        rewrite lookup_insert_ne by done. exists (next ev'). rewrite Ev. by destruct ev'.
Qed.

(** A store into the last cell of [q], or into a cell of no queue, keeps a queue. *)
Lemma rep_store g g' c p q l : rep g q l -> (forall d, load d g' = if decide (d = c) then Some p else load d g) -> same_shape g g' ->
  (forall i, (i < length l)%nat -> cells q l !! i <> Some c) -> rep g' q l.
Proof.
  intros [ND HD TL EV LK] L [ST _ _ _ SH SE] N. split; [done|by apply SH|by rewrite ST| |].
  - intros e He. destruct (EV e He) as (ev & Ev & W). destruct (SE e ev Ev) as [p' Ev']. eexists. split; [exact Ev'|done].
  - intros i e d Hd He. rewrite L, decide_False; [by eapply LK|]. intros ->. apply (N i); [by eapply lookup_lt_Some|done].
Qed.

(** Different queues have different cells. *)
Lemma rep_apart g q l q' l' c i : rep g q l -> rep g q' l' -> q <> q' -> cells q' l' !! i = Some c -> forall j, cells q l !! j <> Some c.
Proof.
  intros R R' N H' j H. destruct i as [|i]; [injection H' as <-; destruct j as [|j]; [cbn in H; congruence|rewrite cells_S in H; by destruct (l !! j)]|].
  rewrite cells_S in H'. destruct (l' !! i) as [e|] eqn:E'; [|done]. injection H' as <-.
  destruct j as [|j]; [done|]. rewrite cells_S in H. destruct (l !! j) as [e0|] eqn:E; [|done]. injection H as ->.
  destruct (rep_events _ _ _ R e) as (ev & Ev & W); [by eapply list_elem_of_lookup_2|].
  destruct (rep_events _ _ _ R' e) as (ev' & Ev' & W'); [by eapply list_elem_of_lookup_2|].
  rewrite Ev in Ev'. injection Ev' as <-. congruence.
Qed.

(** After [*tail = NULL] the list can be traversed to its end. *)
Definition ended (g : group) (q : Z) (l : list Z) : Prop := forall i c, cells q l !! i = Some c -> load c g = Some (l !! i).

Lemma terminate_ok g q l : rep g q l -> exists g', terminate q g = Ret g' /\ rep g' q l /\ ended g' q l /\ same_shape g g' /\
  forall q' l', q' <> q -> rep g q' l' -> rep g' q' l'.
Proof.
  intros R. destruct (rep_tail g q l R) as (c & T & C). unfold terminate, tail_of. rewrite T. cbn [mbind res_bind].
  destruct (store_ok c None g (cells_load g q l _ c R C)) as (g' & -> & L & S). exists g'. split; [done|].
  pose proof (cells_nodup q l (rep_nodup g q l R)) as ND. split_and!.
  - eapply rep_store; [done..|]. intros i Hi H. assert (i = length l) by (by eapply NoDup_lookup). lia.
  - intros i d Hd. rewrite L. destruct (decide (d = c)) as [->|N].
    + assert (i = length l) as -> by (by eapply NoDup_lookup). by rewrite lookup_ge_None_2.
    + destruct (l !! i) as [e|] eqn:E; [by eapply rep_links|]. apply lookup_ge_None in E. apply lookup_lt_Some in Hd as Hl. rewrite length_cells in Hl.
      assert (i = length l) as -> by lia. congruence.
  - done.
  - intros q' l' N R'. eapply rep_store; [done..|]. intros i _. eapply rep_apart; [exact R'|exact R|done|exact C].
Qed.

(** What is known of an event but its link: its queue, its thread and its result *)
Abbreviation event_info := (option Z * Z * option Z)%type (only parsing).
Definition info_of (ev : co_event) : event_info := (wq ev, thread ev, retval ev).
Definition info (g : group) (e : Z) : option event_info := info_of <$> events g !! e.
Definition wake_info (r : Z) : event_info -> event_info := fun '(_, t, v) => (None, t, (fun _ => r) <$> v).

Lemma same_shape_info g g' e : same_shape g g' -> info g' e = info g e.
Proof.
  intros [_ _ _ D _ SE]. unfold info. destruct (events g !! e) as [ev|] eqn:E; [by destruct (SE e ev E) as [p ->]|].
  apply not_elem_of_dom in E. rewrite <- D in E. apply not_elem_of_dom in E. by rewrite E.
Qed.

(** ** Appending *)

Lemma append_ok g q l e ev : rep g q l -> e ∉ l -> events g !! e = Some ev -> wq ev = Some q ->
  exists g', append q e g = Ret g' /\ rep g' q (l ++ [e]) /\ (forall q' l', q' <> q -> rep g q' l' -> rep g' q' l') /\
    ready_list g' = ready_list g /\ forall x, info g' x = info g x.
Proof.
  intros R Ne Ev W. destruct (rep_tail g q l R) as (c & T & C). unfold append, tail_of. rewrite T. cbn [mbind res_bind].
  destruct (store_ok c (Some e) g (cells_load g q l _ c R C)) as (g1 & -> & L & SS). cbn [mbind res_bind]. eexists. split; [reflexivity|].
  pose proof (cells_nodup q l (rep_nodup g q l R)) as ND. pose proof SS as [ST SR SB SD SH SE].
  assert (forall i, cells q (l ++ [e]) !! i = (cells q l ++ [Next e]) !! i) as CA by (intros i; unfold cells; by rewrite fmap_app).
  assert (cells q (l ++ [e]) !! length l = Some c) as CL by (rewrite CA, lookup_app_l by (rewrite length_cells; lia); exact C).
  split_and!; [split| |done|intros x; by apply (same_shape_info g g1)].
  - apply NoDup_app. split; [apply R|]. split; [|apply NoDup_singleton]. intros x Hx ->%list_elem_of_singleton. done.
  - cbn. apply SH, R.
  - exists (Next e). cbn. rewrite lookup_insert_eq. split; [done|]. rewrite length_app. cbn [length]. rewrite Nat.add_1_r.
    change ((Head q :: (Next <$> l ++ [e])) !! S (length l)) with (cells q (l ++ [e]) !! S (length l)). rewrite cells_S. by rewrite lookup_app_r, Nat.sub_diag.
  - intros x [Hx| ->%list_elem_of_singleton]%elem_of_app.
    + destruct (rep_events g q l R x Hx) as (evx & Evx & Wx). destruct (SE x evx Evx) as [p Ep]. eexists. split; [exact Ep|done].
    + destruct (SE e ev Ev) as [p Ep]. eexists. split; [exact Ep|done].
  - intros i x d Hd Hx. assert (forall d, load d (set_tail q (Next e) g1) = load d g1) as LT by (by intros []). rewrite LT, L.
    apply lookup_app_Some in Hx as [Hx|[Hi Hx]].
    + apply lookup_lt_Some in Hx as Hi. rewrite CA, lookup_app_l in Hd by (rewrite length_cells; lia).
      rewrite decide_False; [by eapply rep_links|]. intros ->. assert (i = length l) by (by eapply NoDup_lookup). lia.
    + apply list_lookup_singleton_Some in Hx as [Hi0 ->]. assert (i = length l) as -> by lia. rewrite decide_True; [done|congruence].
  - intros q' l' N R'. destruct (rep_tail g q' l' R') as (c' & T' & C').
    assert (rep g1 q' l') as [A1 A2 A3 A4 A5].
    { eapply rep_store; [exact R'|exact L|by split|]. intros i _. eapply rep_apart; [exact R'|exact R|done|exact C]. }
    split; [done|done| |done|by intros i x [] H1 H2; apply (A5 i x _ H1 H2)]. cbn. rewrite lookup_insert_ne by done. done.
Qed.

Lemma rep_fresh g q l e ev : rep g q l -> events g !! e = None -> rep (set_event e ev g) q l.
Proof.
  intros [ND HD TL EV LK] F. assert (forall x, x ∈ l -> x <> e) as N by (intros x Hx ->; destruct (EV e Hx) as (? & ? & _); congruence).
  split; try done.
  - intros x Hx. destruct (EV x Hx) as (evx & Ex & W). exists evx. cbn. by rewrite lookup_insert_ne by (symmetry; auto).
  - intros i x [q'|x'] Hd Hx; [by apply (LK i x _ Hd Hx)|]. pose proof (LK i x _ Hd Hx) as K. cbn in *.
    rewrite lookup_insert_ne; [done|]. intros <-. by rewrite F in K.
Qed.

Lemma wait_ok g q l e t garbage b : rep g q l -> events g !! e = None ->
  exists g', wait q e t garbage b g = Ret g' /\ rep g' q (l ++ [e]) /\ (forall q' l', q' <> q -> rep g q' l' -> rep g' q' l') /\
    ready_list g' = ready_list g /\ forall x, info g' x = if decide (x = e) then Some (Some q, t, if b then Some 0 else None) else info g x.
Proof.
  intros R F. unfold wait. set (ev := Event _ _ _ _). destruct (append_ok (set_event e ev g) q l e ev) as (g' & E & R' & Fr & Rd & I).
  - by apply rep_fresh.
  - intros He. destruct (rep_events g q l R e He) as (? & ? & _). congruence.
  - cbn. by rewrite lookup_insert_eq.
  - done.
  - exists g'. split_and!; [done|done| |done|].
    + intros q' l' N R2. apply Fr; [done|]. by apply rep_fresh.
    + intros x. rewrite I. unfold info. cbn. destruct (decide (x = e)) as [->|N]; [by rewrite lookup_insert_eq|by rewrite lookup_insert_ne].
Qed.

(** ** Waking *)

Definition wake_event (r : Z) (e : Z) (g : group) : group :=
  match events g !! e with
  | None => g
  | Some ev => make_ready (thread ev) (set_event e (Event None (next ev) (thread ev) ((fun _ => r) <$> retval ev)) g)
  end.
Definition wake_events (r : Z) (es : list Z) (g : group) : group := foldl (fun g e => wake_event r e g) g es.

Lemma make_ready_same t g : heads (make_ready t g) = heads g /\ tails (make_ready t g) = tails g /\ events (make_ready t g) = events g.
Proof. unfold make_ready. by destruct (existsb _ _). Qed.

Lemma wake_event_same r e g : (forall d, load d (wake_event r e g) = load d g) /\ tails (wake_event r e g) = tails g /\
  heads (wake_event r e g) = heads g /\ dom (events (wake_event r e g)) = dom (events g).
Proof.
  unfold wake_event. destruct (events g !! e) as [ev|] eqn:E; [|done].
  destruct (make_ready_same (thread ev) (set_event e (Event None (next ev) (thread ev) ((fun _ => r) <$> retval ev)) g)) as (H1 & H2 & H3).
  split_and!; [|by rewrite H2|by rewrite H1|].
  - intros [q|x]; cbn; [by rewrite H1|]. rewrite H3. cbn. destruct (decide (x = e)) as [->|N]; [by rewrite lookup_insert_eq, E|by rewrite lookup_insert_ne].
  - rewrite H3. cbn. rewrite dom_insert_L. assert (e ∈ dom (events g)) by (apply elem_of_dom; eauto). set_solver.
Qed.

Lemma wake_event_lookup r e g x : events (wake_event r e g) !! x =
  if decide (x = e) then (fun ev => Event None (next ev) (thread ev) ((fun _ => r) <$> retval ev)) <$> events g !! x else events g !! x.
Proof.
  unfold wake_event. destruct (events g !! e) as [ev|] eqn:E; [|by destruct (decide (x = e)) as [->|]; rewrite ?E].
  destruct (make_ready_same (thread ev) (set_event e (Event None (next ev) (thread ev) ((fun _ => r) <$> retval ev)) g)) as (_ & _ & ->).
  cbn. destruct (decide (x = e)) as [->|N]; [by rewrite lookup_insert_eq, E|by rewrite lookup_insert_ne].
Qed.

Lemma wake_events_same r es g : (forall d, load d (wake_events r es g) = load d g) /\ tails (wake_events r es g) = tails g /\
  heads (wake_events r es g) = heads g /\ dom (events (wake_events r es g)) = dom (events g).
Proof.
  revert g. induction es as [|e es IH]; intros g; [done|]. change (wake_events r (e :: es) g) with (wake_events r es (wake_event r e g)). destruct (IH (wake_event r e g)) as (A1 & A2 & A3 & A4).
  destruct (wake_event_same r e g) as (B1 & B2 & B3 & B4). split_and!; [intros d; by rewrite A1, B1|by rewrite A2, B2|by rewrite A3, B3|by rewrite A4, B4].
Qed.

Lemma wake_events_lookup r es g x : NoDup es -> events (wake_events r es g) !! x =
  if decide (x ∈ es) then (fun ev => Event None (next ev) (thread ev) ((fun _ => r) <$> retval ev)) <$> events g !! x else events g !! x.
Proof.
  revert g. induction es as [|e es IH]; intros g ND; [by rewrite decide_False by apply not_elem_of_nil|]. apply NoDup_cons in ND as [Ne ND].
  change (wake_events r (e :: es) g) with (wake_events r es (wake_event r e g)). rewrite IH, wake_event_lookup by done. destruct (decide (x = e)) as [->|N].
  - rewrite (decide_False (P := e ∈ es)), decide_True by (done || by left). done.
  - destruct (decide (x ∈ es)) as [H|H]; [by rewrite (decide_True (P := x ∈ e :: es)) by (by right)|].
    rewrite decide_False; [done|]. by intros [?|?]%elem_of_cons.
Qed.

(** The events from position [i] are awakened until there are [max] of them. *)
Definition n_woken (max : option Z) (n : Z) (len : nat) : nat :=
  match max with None => len | Some m => Nat.min len (Z.to_nat (m - n)) end.

Lemma do_event_wake_ok r e g : r <> 0 -> is_Some (events g !! e) -> do_event_wake e r g = Ret (wake_event r e g).
Proof. intros R [ev E]. unfold do_event_wake, wake_event. rewrite E. by rewrite (proj2 (Z.eqb_neq r 0) R). Qed.

Lemma wake_loop_ok r max q l : r <> 0 -> forall fuel i n g, ended g q l -> (forall e, e ∈ l -> is_Some (events g !! e)) -> (length l - i <= fuel)%nat ->
  let k := n_woken max n (length l - i) in
  wake_loop fuel r max (l !! i) n g = Ret (l !! (i + k)%nat, n + Z.of_nat k, wake_events r (take k (drop i l)) g).
Proof.
  intros R fuel. induction fuel as [|fuel IH]; intros i n g E X F; cbn zeta.
  - assert (n_woken max n (length l - i) = 0%nat) as -> by (unfold n_woken; destruct max; lia).
    rewrite Nat.add_0_r, (lookup_ge_None_2 l i) by lia. cbn. by rewrite Z.add_0_r.
  - destruct (l !! i) as [a|] eqn:A.
    2:{ apply lookup_ge_None in A. assert (n_woken max n (length l - i) = 0%nat) as -> by (unfold n_woken; destruct max; lia).
        cbn. rewrite Nat.add_0_r, Z.add_0_r, (lookup_ge_None_2 l i) by lia. done. }
    apply lookup_lt_Some in A as Hi. cbn [wake_loop].
    destruct (match max with None => false | Some m => m <=? n end) eqn:M.
    + assert (n_woken max n (length l - i) = 0%nat) as -> by (unfold n_woken; destruct max; [|done]; apply Z.leb_le in M; lia).
      rewrite Nat.add_0_r, Z.add_0_r, A. done.
    + assert (n_woken max n (length l - i) = S (n_woken max (n + 1) (length l - S i))) as ->
        by (unfold n_woken; destruct max; [apply Z.leb_gt in M; lia|lia]).
      rewrite do_event_wake_ok by (done || apply X; by eapply list_elem_of_lookup_2). cbn [mbind res_bind].
      destruct (wake_event_same r a g) as (L & _ & _ & D).
      assert (load (Next a) (wake_event r a g) = Some (l !! S i)) as LN by (rewrite L; apply E; by rewrite cells_S, A).
      unfold deref. rewrite LN. cbn [mbind res_bind]. rewrite IH.
      * rewrite (drop_S l a i A). cbn [take]. rewrite <- Nat.add_succ_comm, Nat2Z.inj_succ.
        match goal with |- Ret (_, ?x, _) = Ret (_, ?y, _) => replace x with y by lia end. done.
      * intros j c Hc. rewrite L. by apply E.
      * intros e He. apply elem_of_dom. rewrite D. apply elem_of_dom. by apply X.
      * lia.
Qed.

(** ** Removing events *)

Lemma nodup_split {A : Type} k (l : list A) : NoDup l -> NoDup (take k l) /\ NoDup (drop k l) /\ forall x, x ∈ take k l -> x ∉ drop k l.
Proof. intros ND. rewrite <- (take_drop k l) in ND. by apply NoDup_app in ND as (? & ? & ?). Qed.
Lemma elem_of_front {A : Type} k (l : list A) x : x ∈ take k l -> x ∈ l.
Proof. intros H. rewrite <- (take_drop k l). apply elem_of_app. by left. Qed.
Lemma elem_of_back {A : Type} k (l : list A) x : x ∈ drop k l -> x ∈ l.
Proof. intros H. rewrite <- (take_drop k l). apply elem_of_app. by right. Qed.

(** [head = e] or [tail = &head], after the first [k] events were awakened *)
Definition advance (q : Z) (p : option Z) (g : group) : group :=
  match p with Some _ => set_head q p g | None => set_tail q (Head q) g end.

Lemma rep_frame g g' q l : rep g q l -> tails g' !! q = tails g !! q -> is_Some (heads g' !! q) ->
  (forall c i, cells q l !! i = Some c -> load c g' = load c g) ->
  (forall e, e ∈ l -> exists ev, events g' !! e = Some ev /\ wq ev = Some q) -> rep g' q l.
Proof.
  intros [ND HD TL EV LK] T H L E. split; [done|done| |done|].
  - by rewrite T.
  - intros i e c Hc He. rewrite (L c i Hc). by eapply LK.
Qed.

Lemma queue_advance_ok r k q l g : rep g q l -> ended g q l -> (k <= length l)%nat ->
  rep (advance q (l !! k) (wake_events r (take k l) g)) q (drop k l).
Proof.
  intros R E K. destruct (wake_events_same r (take k l) g) as (WL & WT & WH & WD).
  assert (forall e, e ∈ drop k l -> exists ev, events (wake_events r (take k l) g) !! e = Some ev /\ wq ev = Some q) as EV.
  { intros e He. destruct (rep_events g q l R e) as (ev & Ev & W); [by apply (elem_of_back k)|]. exists ev. split; [|done].
    rewrite wake_events_lookup by (by apply nodup_split, R). rewrite decide_False; [done|]. intros Ht.
    by destruct (nodup_split k l (rep_nodup g q l R)) as (_ & _ & ND); apply (ND e). }
  assert (NoDup (drop k l)) as ND by (by apply nodup_split, R).
  destruct (l !! k) as [a|] eqn:A; cbn [advance].
  - apply lookup_lt_Some in A as Hk. split; [done|cbn; rewrite lookup_insert_eq; by eexists| |done|].
    + destruct (rep_tail g q l R) as (c & T & C). exists c. cbn. rewrite WT. split; [done|].
      rewrite length_drop. destruct (length l) as [|n] eqn:N; [lia|]. rewrite cells_S in C.
      replace (S n - k)%nat with (S (n - k)) by lia. change (cells q (drop k l) !! S (n - k) = Some c). rewrite cells_S, lookup_drop. by replace (k + (n - k))%nat with n by lia.
    + intros [|i] e c Hc He.
      * injection Hc as <-. rewrite lookup_drop, Nat.add_0_r in He. cbn. rewrite lookup_insert_eq. congruence.
      * rewrite cells_S, lookup_drop in Hc. destruct (l !! (k + i)%nat) as [x|] eqn:X; [|done]. injection Hc as <-.
        change (load (Next x) (wake_events r (take k l) g) = Some (Some e)). rewrite WL. rewrite lookup_drop in He. rewrite <- He.
        replace (k + S i)%nat with (S (k + i)) by lia. apply E. by rewrite cells_S, X.
  - apply lookup_ge_None in A. rewrite drop_ge in * by lia. split; [done| | | |].
    + cbn. rewrite WH. apply R.
    + exists (Head q). cbn. by rewrite lookup_insert_eq.
    + done.
    + done.
Qed.

(** Events of other queues are not touched. *)
Lemma advance_frame r k q l g q' l' p : rep g q l -> rep g q' l' -> q' <> q -> rep (advance q p (wake_events r (take k l) g)) q' l'.
Proof.
  intros R R' N. destruct (wake_events_same r (take k l) g) as (WL & WT & WH & WD).
  eapply rep_frame; [exact R'|destruct p; cbn; rewrite ?lookup_insert_ne by done; by rewrite WT| | |].
  - destruct p; cbn; [rewrite lookup_insert_ne by done|]; rewrite WH; apply R'.
  - intros c i Hc. rewrite <- WL. destruct p; [|by destruct c]. destruct c as [q''|e]; [|done]. cbn. rewrite lookup_insert_ne; [done|].
    destruct i; [cbn in Hc; congruence|]. rewrite cells_S in Hc. by destruct (l' !! i).
  - intros e He. destruct (rep_events g q' l' R' e He) as (ev & Ev & W). exists ev. split; [|done].
    assert (events (advance q p (wake_events r (take k l) g)) = events (wake_events r (take k l) g)) as -> by (by destruct p).
    rewrite wake_events_lookup by (by apply nodup_split, R). rewrite decide_False; [done|]. intros Ht.
    destruct (rep_events g q l R e) as (ev' & Ev' & W'); [by apply (elem_of_front k)|]. congruence.
Qed.

(** The list of threads that are ready after threads were awakened *)
Definition add_ready (rs : list Z) (t : Z) : list Z := if existsb (Z.eqb t) rs then rs else rs ++ [t].
Definition ready_after (look : Z -> option event_info) (rs : list Z) (es : list Z) : list Z :=
  foldl (fun rs e => match look e with Some (_, t, _) => add_ready rs t | None => rs end) rs es.

Lemma wake_events_info r es g e : NoDup es -> info (wake_events r es g) e = if decide (e ∈ es) then wake_info r <$> info g e else info g e.
Proof. intros ND. unfold info. rewrite wake_events_lookup by done. destruct (decide (e ∈ es)); [|done]. by destruct (events g !! e). Qed.

Lemma wake_events_ready r es g : NoDup es -> ready_list (wake_events r es g) = ready_after (info g) (ready_list g) es.
Proof.
  revert g. induction es as [|e es IH]; intros g ND; [done|]. apply NoDup_cons in ND as [Ne ND].
  change (wake_events r (e :: es) g) with (wake_events r es (wake_event r e g)). rewrite IH by done. unfold ready_after at 2. cbn [foldl].
  assert (ready_list (wake_event r e g) = match info g e with Some (_, t, _) => add_ready (ready_list g) t | None => ready_list g end) as ->.
  { unfold wake_event, info. destruct (events g !! e) as [ev|]; [|done]. unfold make_ready, add_ready. cbn. by destruct (existsb _ _). }
  assert (forall rs es', e ∉ es' -> ready_after (info (wake_event r e g)) rs es' = ready_after (info g) rs es') as Q; [|by rewrite Q].
  intros rs es'. revert rs. induction es' as [|x es' IH']; intros rs N; [done|]. apply not_elem_of_cons in N as [N1 N2]. unfold ready_after. cbn [foldl].
  assert (info (wake_event r e g) x = info g x) as -> by (unfold info; by rewrite wake_event_lookup, decide_False).
  by apply IH'.
Qed.

(** The first [k] events of [q] were awakened with [r]. *)
Record woke (r q : Z) (l : list Z) (k : nat) (g g' : group) : Prop := {
  woke_queue : rep g' q (drop k l);
  woke_others : forall q' l', q' <> q -> rep g q' l' -> rep g' q' l';
  woke_info : forall e, info g' e = if decide (e ∈ take k l) then wake_info r <$> info g e else info g e;
  woke_ready : ready_list g' = ready_after (info g) (ready_list g) (take k l)
}.

Lemma ready_after_ext f f' rs es : (forall e, f e = f' e) -> ready_after f rs es = ready_after f' rs es.
Proof. intros H. unfold ready_after. revert rs. induction es as [|e es IH]; intros rs; [done|]. cbn. by rewrite H. Qed.

Lemma length_events g q l : rep g q l -> (length l <= size (events g))%nat.
Proof.
  intros R. rewrite <- size_dom. rewrite <- (size_list_to_set (C := gset Z) l) by apply R. apply subseteq_size.
  intros e He%elem_of_list_to_set. apply elem_of_dom. destruct (rep_events g q l R e He) as (ev & -> & _). by eexists.
Qed.

(** [wake_n], [wake_all] and [wake_1] do this once the list was terminated. *)
Lemma woke_advance r k q l g g1 : rep g1 q l -> ended g1 q l -> same_shape g g1 -> (forall q' l', q' <> q -> rep g q' l' -> rep g1 q' l') ->
  (k <= length l)%nat -> woke r q l k g (advance q (l !! k) (wake_events r (take k l) g1)).
Proof.
  intros R E S O K. assert (NoDup (take k l)) as ND by (by apply nodup_split, R). split.
  - by apply queue_advance_ok.
  - intros q' l' N R'. apply advance_frame; auto.
  - intros e. rewrite <- !(same_shape_info g g1) by done. rewrite <- wake_events_info by done. unfold info. by destruct (l !! k).
  - rewrite (ready_after_ext _ (info g1)) by (intros; by rewrite (same_shape_info g g1)). rewrite <- (ss_ready g g1) by done.
    rewrite <- wake_events_ready with (r := r) by done. by destruct (l !! k).
Qed.

(** The traversal that [wake_n] and [wake_all] share *)
Lemma wake_traversal r max q l g : rep g q l -> r <> 0 -> exists g1, terminate q g = Ret g1 /\ deref (Head q) g1 = Ret (l !! 0%nat) /\
  let k := n_woken max 0 (length l) in
  wake_loop (size (events g1)) r max (l !! 0%nat) 0 g1 = Ret (l !! k, Z.of_nat k, wake_events r (take k l) g1) /\
  woke r q l k g (advance q (l !! k) (wake_events r (take k l) g1)).
Proof.
  intros R N. destruct (terminate_ok g q l R) as (g1 & T & R1 & E & S & O). exists g1. split; [done|].
  assert (load (Head q) g1 = Some (l !! 0%nat)) as LH by (by apply (E 0%nat)).
  split; [unfold deref; by rewrite LH|]. cbn zeta. split.
  - pose proof (length_events g1 q l R1). assert (forall e, e ∈ l -> is_Some (events g1 !! e)) as X.
    { intros e He. destruct (rep_events g1 q l R1 e He) as (ev & -> & _). by eexists. }
    rewrite (wake_loop_ok r max q l N) by (done || lia). by rewrite Nat.sub_0_r, drop_0, Nat.add_0_l, Z.add_0_l.
  - apply woke_advance; try done. unfold n_woken. destruct max; lia.
Qed.

Lemma wake_n_ok r max q l g : rep g q l -> r <> 0 -> let k := Nat.min (length l) (Z.to_nat max) in
  exists g', wake_n q r max g = Ret (Z.of_nat k, g') /\ woke r q l k g g'.
Proof.
  intros R N. destruct (wake_traversal r (Some max) q l g R N) as (g1 & T & D & W & K). cbn zeta in *. unfold n_woken in *. rewrite Z.sub_0_r in *.
  unfold wake_n. rewrite (proj2 (Z.eqb_neq r 0) N), T. cbn [mbind res_bind]. rewrite D. cbn [mbind res_bind]. rewrite W. cbn [mbind res_bind].
  eexists. split; [|exact K]. by destruct (l !! Nat.min (length l) (Z.to_nat max)).
Qed.

Lemma wake_all_ok r q l g : rep g q l -> r <> 0 -> exists g', wake_all q r g = Ret g' /\ woke r q l (length l) g g'.
Proof.
  intros R N. destruct (wake_traversal r None q l g R N) as (g1 & T & D & W & K). cbn zeta in *. unfold n_woken in *.
  unfold wake_all. rewrite (proj2 (Z.eqb_neq r 0) N), T. cbn [mbind res_bind]. rewrite D. cbn [mbind res_bind]. rewrite W. cbn [mbind res_bind].
  eexists. split; [reflexivity|]. by rewrite (lookup_ge_None_2 l (length l)) in K by lia.
Qed.

Lemma wake_1_ok r q l g : rep g q l -> r <> 0 -> exists g',
  wake_1 q r g = Ret (e ← head l; '(_, t, _) ← info g e; Some t, g') /\ woke r q l (Nat.min (length l) 1) g g'.
Proof.
  intros R N. destruct (terminate_ok g q l R) as (g1 & T & R1 & E & S & O).
  unfold wake_1. rewrite (proj2 (Z.eqb_neq r 0) N), T. cbn [mbind res_bind]. unfold deref.
  assert (load (Head q) g1 = Some (l !! 0%nat)) as -> by (by apply (E 0%nat)). cbn [mbind res_bind]. destruct l as [|a l].
  - exists g1. split; [done|]. split; [exact R1|done| |by apply S]. intros e. rewrite decide_False by apply not_elem_of_nil. by apply same_shape_info.
  - assert (load (Next a) g1 = Some (l !! 0%nat)) as LN by (by apply (E 1%nat)).
    cbn [lookup list_lookup]. rewrite LN. cbn [mbind res_bind]. destruct (rep_events g1 q (a :: l) R1 a) as (ev & Ev & W); [left|].
    rewrite do_event_wake_ok by (done || by eexists). cbn [mbind res_bind].
    assert (thread <$> events (wake_event r a g1) !! a = (e ← head (a :: l); '(_, t, _) ← info g e; Some t)) as ->.
    { cbn. rewrite wake_event_lookup, decide_True by done. rewrite <- (same_shape_info g g1) by done. unfold info. by rewrite Ev. }
    eexists. split; [reflexivity|]. pose proof (woke_advance r 1 q (a :: l) g g1 R1 E S O) as K. rewrite Nat.min_r by (cbn; lia). apply K. cbn. lia.
Qed.

(** [dequeue] finds the cell that points to the event. *)
Lemma find_cell_ok q l g e k : ended g q l -> NoDup l -> l !! k = Some e -> forall fuel i c, (i <= k)%nat -> cells q l !! i = Some c -> (k - i <= fuel)%nat ->
  exists d, find_cell fuel e c g = Ret d /\ cells q l !! k = Some d.
Proof.
  intros E ND K fuel. induction fuel as [|fuel IH]; intros i c Hi Hc F; cbn [find_cell]; unfold deref; rewrite (E i c Hc); cbn [mbind res_bind];
    (destruct (decide (i = k)) as [->|N]; [rewrite K, Z.eqb_refl; eauto|]); [lia|].
  apply lookup_lt_Some in K as Hk. destruct (lookup_lt_is_Some_2 l i) as [a A]; [lia|]. rewrite A.
  rewrite (proj2 (Z.eqb_neq a e)); [|intros ->; by apply N; eapply NoDup_lookup]. apply (IH (S i)); [lia| |lia]. by rewrite cells_S, A.
Qed.

Lemma cells_delete q l k i : (k < length l)%nat -> cells q (delete k l) !! i = if decide (i <= k)%nat then cells q l !! i else cells q l !! S i.
Proof.
  intros K. destruct i as [|i]; [by rewrite decide_True by lia|]. rewrite cells_S, list_lookup_delete. destruct (decide (i < k)%nat).
  - rewrite decide_True by lia. by rewrite cells_S.
  - rewrite decide_False by lia. by rewrite cells_S.
Qed.

Lemma nodup_delete {A : Type} (l : list A) k : NoDup l -> NoDup (delete k l).
Proof. intros ND. by eapply sublist_NoDup, sublist_delete. Qed.

(** Unlinking an event from the middle of a terminated list, and from its end *)
Lemma rep_unlink g q l k x p g' : rep g q l -> ended g q l -> l !! S k = Some x -> cells q l !! k = Some p ->
  (forall d, load d g' = if decide (d = p) then Some (Some x) else load d g) -> same_shape g g' -> rep g' q (delete k l).
Proof.
  intros R E X P L S. apply lookup_lt_Some in X as HX. pose proof (cells_nodup q l (rep_nodup g q l R)) as CN.
  assert (length (delete k l) = (length l - 1)%nat) as LD by (apply length_delete, lookup_lt_is_Some_2; lia).
  split.
  - by apply nodup_delete, R.
  - apply S, R.
  - destruct (rep_tail g q l R) as (c & T & C). exists c. rewrite (ss_tails g g') by done. split; [done|].
    rewrite LD, cells_delete, decide_False by lia. by replace (Datatypes.S (length l - 1)) with (length l) by lia.
  - intros e He%list_elem_of_delete_inv. destruct (rep_events g q l R e He) as (ev & Ev & W). destruct (ss_events g g' S e ev Ev) as [n En]. eexists. split; [exact En|done].
  - intros i e c. rewrite cells_delete, list_lookup_delete by lia. intros Hc He. rewrite L. destruct (lt_eq_lt_dec i k) as [[Hi| ->]|Hi].
    + rewrite decide_True in Hc by lia. rewrite decide_True in He by lia. rewrite decide_False; [by rewrite (E i c Hc), He|].
      intros ->. assert (i = k) by (by eapply NoDup_lookup). lia.
    + rewrite decide_True in Hc by lia. rewrite decide_False in He by lia. rewrite decide_True; congruence.
    + rewrite decide_False in Hc by lia. rewrite decide_False in He by lia. rewrite decide_False; [by rewrite (E _ c Hc), He|].
      intros ->. assert (Datatypes.S i = k) by (by eapply NoDup_lookup). lia.
Qed.

Lemma rep_unlink_last g q l k p : rep g q l -> ended g q l -> length l = S k -> cells q l !! k = Some p -> rep (set_tail q p g) q (delete k l).
Proof.
  intros R E K P. assert (length (delete k l) = k) as LD by (rewrite length_delete; [lia|apply lookup_lt_is_Some_2; lia]). split.
  - by apply nodup_delete, R.
  - apply R.
  - exists p. cbn. rewrite lookup_insert_eq. split; [done|]. change (cells q (delete k l) !! length (delete k l) = Some p).
    by rewrite LD, cells_delete, decide_True by lia.
  - intros e He%list_elem_of_delete_inv. by apply R.
  - intros i e c Hc He. apply lookup_lt_Some in He as Hi. rewrite LD in Hi. rewrite cells_delete, decide_True in Hc by lia.
    rewrite list_lookup_delete, decide_True in He by lia. assert (load c (set_tail q p g) = load c g) as -> by (by destruct c). by rewrite (E i c Hc), He.
Qed.

Lemma dequeue_ok g q l k e : rep g q l -> l !! k = Some e -> exists g', dequeue q e g = Ret g' /\ rep g' q (delete k l) /\
  (forall q' l', q' <> q -> rep g q' l' -> rep g' q' l') /\ (forall x, info g' x = info g x) /\ ready_list g' = ready_list g.
Proof.
  intros R K. assert (e ∈ l) as He by (by eapply list_elem_of_lookup_2). destruct (rep_events g q l R e He) as (ev & Ev & W).
  unfold dequeue. rewrite Ev, decide_False by congruence. destruct (terminate_ok g q l R) as (g1 & -> & R1 & E & S & O). cbn [mbind res_bind].
  pose proof (length_events g1 q l R1) as LE. apply lookup_lt_Some in K as Hk.
  destruct (find_cell_ok q l g1 e k E (rep_nodup _ _ _ R) K (size (events g1)) 0 (Head q)) as (p & -> & P); [lia|done|lia|]. cbn [mbind res_bind].
  assert (load (Next e) g1 = Some (l !! Datatypes.S k)) as LN by (apply E; by rewrite cells_S, K). unfold deref. rewrite LN. cbn [mbind res_bind].
  destruct (l !! Datatypes.S k) as [x|] eqn:X.
  - destruct (store_ok p (Some x) g1 (cells_load g1 q l k p R1 P)) as (g2 & -> & L2 & S2). exists g2. split; [done|]. split_and!.
    + by eapply rep_unlink.
    + intros q' l' N R'. eapply rep_store; [by apply O|exact L2|exact S2|]. intros i _. eapply rep_apart; [by apply O|exact R1|done|exact P].
    + intros y. by rewrite (same_shape_info g1), (same_shape_info g).
    + by rewrite (ss_ready g1 g2), (ss_ready g g1).
  - apply lookup_ge_None in X. eexists. split; [reflexivity|]. split_and!.
    + apply rep_unlink_last; try done. lia.
    + intros q' l' N R'. specialize (O q' l' N R'). eapply rep_frame; [exact O|cbn; by rewrite lookup_insert_ne|apply O|by intros []|apply O].
    + intros y. change (info g1 y = info g y). by apply same_shape_info.
    + cbn. by apply S.
Qed.

(** ** Waitqueues as queues

    What a client may rely on: named FIFO queues of events, what is known of each
    event, and the list of ready threads. *)

Record spec := Spec { queues : gmap Z (list Z); infos : gmap Z event_info; ready : list Z }.

Inductive op :=
| New (q : Z) (garbage : option Z)
| Wait (q e t : Z) (garbage : option Z) (has_retval : bool)
| Wake_n (q r max : Z)
| Wake_all (q r : Z)
| Wake_1 (q r : Z)
| Cancel (es : list Z).

Inductive out := Nothing | Count (n : Z) | Awakened (t : option Z).

Definition run_op (o : op) (g : group) : res (out * group) :=
  match o with
  | New q garbage => Ret (Nothing, new_waitqueue q garbage g)
  | Wait q e t garbage b => g ← wait q e t garbage b g; Ret (Nothing, g)
  | Wake_n q r max => '(n, g) ← wake_n q r max g; Ret (Count n, g)
  | Wake_all q r => g ← wake_all q r g; Ret (Nothing, g)
  | Wake_1 q r => '(t, g) ← wake_1 q r g; Ret (Awakened t, g)
  | Cancel es => g ← cancel_events es g; Ret (Nothing, g)
  end.
Fixpoint run_ops (os : list op) (g : group) : res (list out * group) :=
  match os with
  | [] => Ret ([], g)
  | o :: os => '(x, g) ← run_op o g; '(xs, g) ← run_ops os g; Ret (x :: xs, g)
  end.

(** The first [k] events leave the queue, in order. *)
Definition spec_wake (q r : Z) (l : list Z) (k : nat) (a : spec) : spec :=
  Spec (<[q := drop k l]> (queues a)) (foldr (alter (wake_info r)) (infos a) (take k l))
    (ready_after (fun e => infos a !! e) (ready a) (take k l)).
Definition spec_unlink (e : Z) (a : spec) : spec :=
  match infos a !! e with
  | Some (Some q, _, _) => Spec (alter (cancel e) q (queues a)) (infos a) (ready a)
  | _ => a
  end.
Definition spec_cancel (es : list Z) (a : spec) : spec :=
  let a' := foldl (fun a e => spec_unlink e a) a es in Spec (queues a') (foldr delete (infos a') es) (ready a').

(** [None] is a call that breaks the rules: an unknown queue, an event that is in
    use, a result of 0. *)
Definition spec_op (o : op) (a : spec) : option (out * spec) :=
  match o with
  | New q _ => match queues a !! q with None => Some (Nothing, Spec (<[q := []]> (queues a)) (infos a) (ready a)) | Some _ => None end
  | Wait q e t _ b =>
      match queues a !! q, infos a !! e with
      | Some l, None => Some (Nothing, Spec (<[q := l ++ [e]]> (queues a)) (<[e := (Some q, t, if b : bool then Some 0 else None)]> (infos a)) (ready a))
      | _, _ => None
      end
  | Wake_n q r max =>
      match queues a !! q with
      | Some l => if r =? 0 then None
          else let k := Nat.min (length l) (Z.to_nat max) in Some (Count (Z.of_nat k), spec_wake q r l k a)
      | None => None
      end
  | Wake_all q r =>
      match queues a !! q with
      | Some l => if r =? 0 then None else Some (Nothing, spec_wake q r l (length l) a)
      | None => None
      end
  | Wake_1 q r =>
      match queues a !! q with
      | Some l => if r =? 0 then None
          else Some (Awakened (e ← head l; '(_, t, _) ← infos a !! e; Some t), spec_wake q r l (Nat.min (length l) 1) a)
      | None => None
      end
  | Cancel es => if decide (NoDup es /\ Forall (fun e => is_Some (infos a !! e)) es) then Some (Nothing, spec_cancel es a) else None
  end.
Fixpoint spec_ops (os : list op) (a : spec) : option (list out * spec) :=
  match os with
  | [] => Some ([], a)
  | o :: os => '(x, a) ← spec_op o a; '(xs, a) ← spec_ops os a; Some (x :: xs, a)
  end.

Record sim (a : spec) (g : group) : Prop := {
  sim_queues : forall q l, queues a !! q = Some l -> rep g q l;
  sim_infos : forall e, infos a !! e = info g e;
  sim_ready : ready a = ready_list g;
  sim_waiting : forall e q t v, infos a !! e = Some (Some q, t, v) -> exists l, queues a !! q = Some l /\ e ∈ l
}.

Lemma foldr_alter_lookup r es (m : gmap Z event_info) e : NoDup es ->
  foldr (alter (wake_info r)) m es !! e = if decide (e ∈ es) then wake_info r <$> m !! e else m !! e.
Proof.
  induction es as [|x es IH]; intros ND; [by rewrite decide_False by apply not_elem_of_nil|]. apply NoDup_cons in ND as [Nx ND]. cbn.
  destruct (decide (x = e)) as [->|N]; [rewrite lookup_alter_eq, IH, decide_False, decide_True by (done || by left); done|].
  rewrite lookup_alter_ne, IH by done. destruct (decide (e ∈ es)) as [H|H]; [by rewrite decide_True by (by right)|].
  rewrite decide_False; [done|]. by intros [?|?]%elem_of_cons.
Qed.

Lemma sim_wake a g g' q r l k : sim a g -> queues a !! q = Some l -> (k <= length l)%nat -> woke r q l k g g' -> sim (spec_wake q r l k a) g'.
Proof.
  intros [SQ SI SR SW] Q K [WQ WO WI WR]. assert (NoDup l) as ND by (by apply (SQ q)).
  destruct (nodup_split k l ND) as (NT & _ & Apart). split; cbn.
  - intros q' l' Hq. destruct (decide (q' = q)) as [->|N]; [rewrite lookup_insert_eq in Hq; by injection Hq as <-|].
    rewrite lookup_insert_ne in Hq by done. apply WO; [done|]. by apply SQ.
  - intros e. rewrite foldr_alter_lookup, WI, SI by done. done.
  - rewrite WR, SR. by apply ready_after_ext.
  - intros e q' t v. rewrite foldr_alter_lookup by done. destruct (decide (e ∈ take k l)) as [H|H].
    + destruct (infos a !! e) as [[[? ?] ?]|]; [|done]. done.
    + intros He. destruct (SW e q' t v He) as (l' & Hl & Hin). destruct (decide (q' = q)) as [->|N].
      * exists (drop k l). rewrite lookup_insert_eq. split; [done|]. rewrite Q in Hl. injection Hl as <-.
        rewrite <- (take_drop k l) in Hin. apply elem_of_app in Hin as [|]; done.
      * exists l'. by rewrite lookup_insert_ne.
Qed.

Lemma sim_new a g q garbage : sim a g -> queues a !! q = None -> sim (Spec (<[q := []]> (queues a)) (infos a) (ready a)) (new_waitqueue q garbage g).
Proof.
  intros [SQ SI SR SW] Q. split; [|done|done|].
  - cbn. intros q' l Hl. destruct (decide (q' = q)) as [->|N].
    + rewrite lookup_insert_eq in Hl. injection Hl as <-. split; [constructor|cbn; rewrite lookup_insert_eq; by eexists| |by intros ? ?%elem_of_nil|done].
      exists (Head q). cbn. by rewrite lookup_insert_eq.
    + rewrite lookup_insert_ne in Hl by done. pose proof (SQ q' l Hl) as R. eapply rep_frame; [exact R|cbn; by rewrite lookup_insert_ne| | |apply R].
      * cbn. rewrite lookup_insert_ne by done. apply R.
      * intros [q''|e] i Hc; [|done]. cbn. rewrite lookup_insert_ne; [done|]. destruct i; [cbn in Hc; congruence|]. rewrite cells_S in Hc. by destruct (l !! i).
  - intros e q' t v He. destruct (SW e q' t v He) as (l & Hl & Hin). exists l. split; [|done]. cbn. rewrite lookup_insert_ne; [done|]. intros <-. congruence.
Qed.

Lemma sim_wait a g q e t garbage b l : sim a g -> queues a !! q = Some l -> infos a !! e = None -> exists g', wait q e t garbage b g = Ret g' /\
  sim (Spec (<[q := l ++ [e]]> (queues a)) (<[e := (Some q, t, if b then Some 0 else None)]> (infos a)) (ready a)) g'.
Proof.
  intros [SQ SI SR SW] Q E. assert (events g !! e = None) as F by (rewrite SI in E; unfold info in E; by destruct (events g !! e)).
  destruct (wait_ok g q l e t garbage b (SQ q l Q) F) as (g' & W & R & O & Rd & I). exists g'. split; [done|]. split; cbn.
  - intros q' l' Hl. destruct (decide (q' = q)) as [->|N]; [rewrite lookup_insert_eq in Hl; by injection Hl as <-|].
    rewrite lookup_insert_ne in Hl by done. apply O; [done|]. by apply SQ.
  - intros x. rewrite I. destruct (decide (x = e)) as [->|N]; [by rewrite lookup_insert_eq|]. by rewrite lookup_insert_ne.
  - congruence.
  - intros x q' t' v. destruct (decide (x = e)) as [->|N].
    + rewrite lookup_insert_eq. intros [= <- <- <-]. exists (l ++ [e]). rewrite lookup_insert_eq. split; [done|]. apply elem_of_app. right. by apply list_elem_of_singleton.
    + rewrite lookup_insert_ne by done. intros Hx. destruct (SW x q' t' v Hx) as (l' & Hl & Hin). destruct (decide (q' = q)) as [->|Nq].
      * exists (l ++ [e]). rewrite lookup_insert_eq. split; [done|]. apply elem_of_app. left. congruence.
      * exists l'. by rewrite lookup_insert_ne.
Qed.

Record linked (a : spec) (g : group) : Prop := {
  lk_queues : forall q l, queues a !! q = Some l -> rep g q l;
  lk_infos : forall e, infos a !! e = info g e;
  lk_ready : ready a = ready_list g
}.

Lemma cancel_filter e l : NoDup l -> cancel e l = filter (fun x => x <> e) l.
Proof.
  unfold cancel. induction l as [|x l IH]; intros ND; [done|]. apply NoDup_cons in ND as [Nx ND]. cbn.
  destruct (Z.eqb_spec e x) as [->|N]; [|by rewrite decide_True, IH by done].
  rewrite decide_False by (intros H; by apply H). symmetry. apply filter_all. intros y Hy ->. done.
Qed.
Lemma cancel_delete e l k : NoDup l -> l !! k = Some e -> cancel e l = delete k l.
Proof.
  unfold cancel. revert k. induction l as [|x l IH]; intros k ND K; [done|]. apply NoDup_cons in ND as [Nx ND]. cbn. destruct k as [|k].
  - injection K as ->. by rewrite Z.eqb_refl.
  - rewrite (proj2 (Z.eqb_neq e x)); [by rewrite (IH k)|]. intros ->. apply Nx. by eapply list_elem_of_lookup_2.
Qed.

(** An event is in the queue it names, and in no other. *)
Lemma linked_in a g q l e : linked a g -> queues a !! q = Some l -> e ∈ l -> exists t v, infos a !! e = Some (Some q, t, v).
Proof.
  intros [LQ LI _] Q E. destruct (rep_events g q l (LQ q l Q) e E) as (ev & Ev & W). rewrite LI. unfold info. rewrite Ev. exists (thread ev), (retval ev).
  cbn. unfold info_of. by rewrite W.
Qed.

Lemma unlink_lookup a g e q : linked a g -> queues (spec_unlink e a) !! q = filter (fun x => x <> e) <$> queues a !! q.
Proof.
  intros L. assert (forall l, queues a !! q = Some l -> e ∉ l -> filter (fun x => x <> e) l = l) as K by (intros l _ N; apply filter_all; by intros y Hy ->).
  unfold spec_unlink. destruct (infos a !! e) as [[[[q'|] t] v]|] eqn:I; cbn.
  - destruct (decide (q' = q)) as [->|N].
    + rewrite lookup_alter_eq. destruct (queues a !! q) as [l|] eqn:Q; [|done]. cbn. f_equal. apply cancel_filter. by apply (lk_queues a g L q).
    + rewrite lookup_alter_ne by done. destruct (queues a !! q) as [l|] eqn:Q; [|done]. cbn. f_equal. symmetry. apply (K l); [done|].
      intros He. destruct (linked_in a g q l e L Q He) as (? & ? & ?). congruence.
  - destruct (queues a !! q) as [l|] eqn:Q; [|done]. cbn. f_equal. symmetry. apply (K l); [done|]. intros He. destruct (linked_in a g q l e L Q He) as (? & ? & ?). congruence.
  - destruct (queues a !! q) as [l|] eqn:Q; [|done]. cbn. f_equal. symmetry. apply (K l); [done|]. intros He. destruct (linked_in a g q l e L Q He) as (? & ? & ?). congruence.
Qed.

Definition queued (a : spec) (e : Z) : Prop := forall q t v, infos a !! e = Some (Some q, t, v) -> exists l, queues a !! q = Some l /\ e ∈ l.

Lemma unlink_ok a g e : linked a g -> is_Some (infos a !! e) -> queued a e -> exists g', dequeue_event e g = Ret g' /\ linked (spec_unlink e a) g'.
Proof.
  intros L [[[q' t] v] I] Qd. pose proof L as [LQ LI LR]. unfold dequeue_event, spec_unlink. rewrite I.
  rewrite LI in I. unfold info in I. destruct (events g !! e) as [ev|] eqn:Ev; [|done]. injection I as Wq _ _. rewrite Wq. destruct q' as [q|]; [|by exists g].
  destruct (Qd q (thread ev) (retval ev)) as (l & Q & Hin); [rewrite LI; unfold info; rewrite Ev; cbn; unfold info_of; by rewrite Wq|].
  apply list_elem_of_lookup in Hin as [k K]. destruct (dequeue_ok g q l k e (LQ q l Q) K) as (g' & D & R & O & Inf & Rd). exists g'. split; [done|]. split; cbn.
  - intros q1 l1. destruct (decide (q1 = q)) as [->|N].
    + rewrite lookup_alter_eq, Q. intros [= <-]. rewrite (cancel_delete e l k); [done| |done]. by apply (LQ q).
    + rewrite lookup_alter_ne by done. intros Hl. apply O; [done|]. by apply LQ.
  - intros x. by rewrite Inf.
  - congruence.
Qed.

Lemma unlink_infos e a : infos (spec_unlink e a) = infos a /\ ready (spec_unlink e a) = ready a.
Proof. unfold spec_unlink. by destruct (infos a !! e) as [[[[?|] ?] ?]|]. Qed.

Lemma unlinks_ok es : forall a g, linked a g -> NoDup es -> (forall e, e ∈ es -> is_Some (infos a !! e) /\ queued a e) ->
  let a' := foldl (fun a e => spec_unlink e a) a es in
  exists g', dequeue_events es g = Ret g' /\ linked a' g' /\ infos a' = infos a /\ forall q, queues a' !! q = filter (fun x => x ∉ es) <$> queues a !! q.
Proof.
  induction es as [|e es IH]; intros a g L ND H; cbn [foldl dequeue_events].
  - exists g. split_and!; try done. intros q. destruct (queues a !! q) as [l|]; [|done]. cbn. f_equal. symmetry. apply filter_all. intros x _. apply not_elem_of_nil.
  - apply NoDup_cons in ND as [Ne ND]. destruct (H e) as [He Hq]; [left|]. destruct (unlink_ok a g e L He Hq) as (g1 & -> & L1). cbn [mbind res_bind].
    pose proof (unlink_infos e a) as [U1 _].
    destruct (IH (spec_unlink e a) g1 L1 ND) as (g' & D & L' & I' & Q').
    + intros x Hx. destruct (H x) as [X1 X2]; [by right|]. rewrite U1. split; [done|]. intros q t v. rewrite U1. intros Ix. destruct (X2 q t v Ix) as (l & Q & Hin).
      exists (filter (fun x => x <> e) l). rewrite (unlink_lookup a g) by done. rewrite Q. split; [done|]. apply list_elem_of_filter. split; [|done]. by intros ->.
    + exists g'. split_and!; [done|done|by rewrite I', U1|]. intros q. rewrite Q', (unlink_lookup a g) by done. destruct (queues a !! q) as [l|]; [|done]. cbn. f_equal.
      rewrite list_filter_filter. apply list_filter_iff. intros x. rewrite not_elem_of_cons. tauto.
Qed.

Lemma rep_delete g q l e : rep g q l -> e ∉ l -> rep (delete_event e g) q l.
Proof.
  intros [ND HD TL EV LK] N. split; try done.
  - intros x Hx. destruct (EV x Hx) as (ev & Ev & W). exists ev. cbn. rewrite lookup_delete_ne; [done|]. by intros ->.
  - intros i x [q'|y] Hc Hx; [by apply (LK i x _ Hc Hx)|]. cbn. rewrite lookup_delete_ne; [by apply (LK i x _ Hc Hx)|]. intros ->.
    destruct i; [done|]. rewrite cells_S in Hc. destruct (l !! i) as [z|] eqn:Z; [|done]. injection Hc as ->. by apply N; eapply list_elem_of_lookup_2.
Qed.

Lemma delete_events_same es g : ready_list (foldr delete_event g es) = ready_list g /\ events (foldr delete_event g es) = foldr delete (events g) es.
Proof. induction es as [|e es [IH1 IH2]]; [done|]. cbn. by rewrite IH1, IH2. Qed.
Lemma foldr_delete_lookup {A : Type} (m : gmap Z A) es x : foldr delete m es !! x = if decide (x ∈ es) then None else m !! x.
Proof.
  induction es as [|e es IH]; [by rewrite decide_False by apply not_elem_of_nil|]. cbn. destruct (decide (x = e)) as [->|N].
  - by rewrite lookup_delete_eq, decide_True by left.
  - rewrite lookup_delete_ne, IH by done. destruct (decide (x ∈ es)); [by rewrite decide_True by (by right)|].
    rewrite decide_False; [done|]. by intros [|]%elem_of_cons.
Qed.
Lemma delete_events_rep es g q l : rep g q l -> (forall e, e ∈ es -> e ∉ l) -> rep (foldr delete_event g es) q l.
Proof. intros R. induction es as [|e es IH]; intros H; [done|]. cbn. apply rep_delete; [apply IH; intros x Hx; apply H; by right|apply H; left]. Qed.

Lemma sim_cancel a g es : sim a g -> NoDup es -> (forall e, e ∈ es -> is_Some (infos a !! e)) ->
  exists g', cancel_events es g = Ret g' /\ sim (spec_cancel es a) g'.
Proof.
  intros [SQ SI SR SW] ND H. destruct (unlinks_ok es a g) as (g1 & D & [LQ LI LR] & I & Q); [by split|done|intros e He; split; [by apply H|by intros q t v; apply SW]|].
  unfold cancel_events. rewrite D. cbn [mbind res_bind]. eexists. split; [reflexivity|]. unfold spec_cancel. set (a' := foldl _ _ _) in *. cbn zeta.
  destruct (delete_events_same es g1) as [D1 D2]. split; cbn.
  - intros q l Hl. apply delete_events_rep; [by apply LQ|]. intros e He Hin. rewrite Q in Hl. destruct (queues a !! q); [|done]. injection Hl as <-.
    by apply list_elem_of_filter in Hin as [? _].
  - intros e. unfold info. rewrite D2, !foldr_delete_lookup. destruct (decide (e ∈ es)); [done|]. apply LI.
  - congruence.
  - intros e q t v. rewrite foldr_delete_lookup, I. destruct (decide (e ∈ es)) as [|N]; [done|]. intros He. destruct (SW e q t v He) as (l & Hl & Hin).
    exists (filter (fun x => x ∉ es) l). rewrite Q, Hl. split; [done|]. by apply list_elem_of_filter.
Qed.

Lemma sim_op o a g x a' : sim a g -> spec_op o a = Some (x, a') -> exists g', run_op o g = Ret (x, g') /\ sim a' g'.
Proof.
  intros S. destruct o as [q garbage|q e t garbage b|q r max|q r|q r|es]; cbn.
  - destruct (queues a !! q) eqn:Q; [done|]. intros [= <- <-]. eexists. split; [reflexivity|]. by apply sim_new.
  - destruct (queues a !! q) as [l|] eqn:Q; [|done]. destruct (infos a !! e) eqn:E; [done|]. intros [= <- <-].
    destruct (sim_wait a g q e t garbage b l S Q E) as (g' & -> & S'). by exists g'.
  - destruct (queues a !! q) as [l|] eqn:Q; [|done]. destruct (Z.eqb_spec r 0) as [|N]; [done|]. intros [= <- <-].
    destruct (wake_n_ok r max q l g (sim_queues a g S q l Q) N) as (g' & -> & W). exists g'. split; [done|]. eapply sim_wake; [done..| |done]. lia.
  - destruct (queues a !! q) as [l|] eqn:Q; [|done]. destruct (Z.eqb_spec r 0) as [|N]; [done|]. intros [= <- <-].
    destruct (wake_all_ok r q l g (sim_queues a g S q l Q) N) as (g' & -> & W). exists g'. split; [done|]. eapply sim_wake; [done..| |done]. lia.
  - destruct (queues a !! q) as [l|] eqn:Q; [|done]. destruct (Z.eqb_spec r 0) as [|N]; [done|]. intros [= <- <-].
    destruct (wake_1_ok r q l g (sim_queues a g S q l Q) N) as (g' & E & W). rewrite E. exists g'. split; [|eapply sim_wake; [done..| |done]; lia].
    cbn [mbind res_bind]. do 3 f_equal. destruct l as [|e l]; [done|]. cbn. by rewrite (sim_infos a g S).
  - destruct (decide _) as [[ND F]|]; [|done]. intros [= <- <-]. destruct (sim_cancel a g es S ND) as (g' & -> & S'); [by apply Forall_forall|]. by exists g'.
Qed.

Lemma sim_ops os : forall a g xs a', sim a g -> spec_ops os a = Some (xs, a') -> exists g', run_ops os g = Ret (xs, g') /\ sim a' g'.
Proof.
  induction os as [|o os IH]; intros a g xs a' S E; cbn in *; [injection E as <- <-; eauto|].
  destruct (spec_op o a) as [[x a1]|] eqn:O; [|done]. cbn in E. destruct (spec_ops os a1) as [[xs1 a2]|] eqn:Os; [|done]. injection E as <- <-.
  destruct (sim_op o a g x a1 S O) as (g1 & -> & S1). cbn [mbind res_bind]. destruct (IH a1 g1 xs1 a2 S1 Os) as (g2 & -> & S2). by exists g2.
Qed.

Definition no_queues : spec := Spec ∅ ∅ [].
Definition empty_group : group := Group ∅ ∅ ∅ [] [].

Lemma sim_empty : sim no_queues empty_group.
Proof. by split. Qed.

Lemma queue_rep_empty g q l : rep g q l -> empty q g = is_nil l.
Proof.
  intros R. destruct (rep_tail g q l R) as (c & T & C). unfold empty. destruct l as [|e l]; [injection C as <-; by apply bool_decide_eq_true|].
  apply bool_decide_eq_false. rewrite T. intros [= ->]. cbn [length] in C. rewrite cells_S in C. by destruct ((e :: l) !! length l).
Qed.

(** C35: the waitqueues of the cooperative threads, singly linked lists whose last link
    and whose head when empty are never initialised, are FIFO queues.  Every
    sequence of operations that the queues of the specification allow (queues are
    created, threads wait, [wake_n], [wake_all] and [wake_1] take events from the
    front and make their threads ready in that order with the given result, and the
    events of a thread that goes on for another reason are taken out from anywhere)
    runs without a failed assertion, whatever the uninitialised fields hold, with the
    same results, the same ready list and the same state of every event; each list
    holds the events of its queue in order, and [empty] says whether there are any. *)
Theorem waitqueues_are_queues (os : list op) (xs : list out) (a : spec) :
  spec_ops os no_queues = Some (xs, a) ->
  exists g, run_ops os empty_group = Ret (xs, g) /\
    ready_list g = ready a /\ (forall e, info g e = infos a !! e) /\
    forall q l, queues a !! q = Some l -> rep g q l /\ empty q g = is_nil l.
Proof.
  intros E. destruct (sim_ops os no_queues empty_group xs a sim_empty E) as (g & R & [SQ SI SR _]). exists g.
  split_and!; [done|done|by intros e|]. intros q l Q. split; [by apply SQ|]. by eapply queue_rep_empty, SQ.
Qed.

Definition sample_ops : list op :=
  [New 1 (Some 77); New 2 None; Wait 1 10 100 (Some 99) true; Wait 2 20 100 None true; Wait 1 11 101 (Some 10) false;
   Wait 1 12 102 None true; Cancel [11]; Wake_1 1 1; Cancel [10; 20]; Wake_n 1 7 5; Wake_all 2 1].
Lemma waitqueues_are_queues_witness : exists g, run_ops sample_ops empty_group =
    Ret ([Nothing; Nothing; Nothing; Nothing; Nothing; Nothing; Nothing; Awakened (Some 100); Nothing; Count 1; Nothing], g) /\
  ready_list g = [100; 102] /\ info g 12 = Some (None, 102, Some 7) /\ info g 20 = None.
Proof.
  edestruct (waitqueues_are_queues sample_ops) as (g & R & Rd & I & _); [vm_compute; reflexivity|]. exists g. rewrite R, Rd, !I. vm_compute. auto.
Defined.
