(* ===== verification/CoSyncProps.v ===== *)
(** * Mutexes, reader-writer locks, semaphores and barriers of cooperative threads
    (lib/threads/cooperative.cc)

    Histories of what threads do with one lock.  Threads are interleaved in any
    order that the primitive allows: a thread does nothing while it waits, and goes
    on at some time after it was awakened. *)

From S2P Require Import Prelude CoThreads.

Open Scope Z_scope.

Definition forget (t : Z) (l : list Z) : list Z := remove_first (Z.eqb t) l.

Lemma forget_elem t l x : x ∈ forget t l -> x ∈ l.
Proof. unfold forget. induction l as [|y l IH]; cbn; [done|]. destruct (t =? y); [by right|]. intros [->|H]%elem_of_cons; [left|right; by apply IH]. Qed.
Lemma forget_nodup t l : NoDup l -> NoDup (forget t l) /\ t ∉ forget t l.
Proof.
  unfold forget. induction l as [|y l IH]; intros N; cbn; [split; [done|apply not_elem_of_nil]|]. apply NoDup_cons in N as [Ny N].
  destruct (Z.eqb_spec t y) as [->|D]; [done|]. destruct (IH N) as [I1 I2]. split; [|by apply not_elem_of_cons].
  apply NoDup_cons. split; [|done]. intros H%forget_elem. done.
Qed.
Lemma forget_singleton t : forget t [t] = [].
Proof. unfold forget. cbn. by rewrite Z.eqb_refl. Qed.

(** Without its last [t] *)
Definition forget_last (t : Z) (l : list Z) : list Z := reverse (forget t (reverse l)).
Lemma forget_app t l k : t ∈ l -> forget t (l ++ k) = forget t l ++ k.
Proof.
  unfold forget. induction l as [|y l IH]; intros H; [by apply elem_of_nil in H|]. cbn. destruct (Z.eqb_spec t y) as [->|N]; [done|].
  apply elem_of_cons in H as [->|H]; [done|]. cbn. by rewrite IH.
Qed.
Lemma forget_filter t l : NoDup l -> forget t l = filter (fun x => x <> t) l.
Proof.
  unfold forget. induction l as [|x l IH]; intros ND; [done|]. apply NoDup_cons in ND as [Nx ND]. cbn.
  destruct (Z.eqb_spec t x) as [->|N]; [|by rewrite decide_True, IH by done].
  rewrite decide_False by (intros H; by apply H). symmetry. apply filter_all. intros y Hy ->. done.
Qed.
Lemma reverse_filter (P : Z -> Prop) `{!forall x, Decision (P x)} l : filter P (reverse l) = reverse (filter P l).
Proof.
  induction l as [|x l IH]; [done|]. rewrite reverse_cons, filter_app, IH, !filter_cons, filter_nil. destruct (decide (P x)); [by rewrite reverse_cons|by rewrite app_nil_r].
Qed.
Lemma forget_last_app t k l : NoDup l -> t ∈ l -> forget_last t (k ++ l) = k ++ forget t l.
Proof.
  intros N H. unfold forget_last. rewrite reverse_app, forget_app by (by apply elem_of_reverse). rewrite reverse_app, reverse_involutive. f_equal.
  assert (NoDup (reverse l)) by (by rewrite reverse_Permutation). rewrite !forget_filter by done. by rewrite reverse_filter, reverse_involutive.
Qed.

(** ** Mutexes *)

Module MutexHistory.

(** The mutex, the thread that was awakened and has not run since, and the threads
    that returned from [lock], [try_lock] or [wait] with the mutex; the requests that
    did not give up, and those that were granted, in order *)
Record state := State { m : Mutex.mutex; woken : list Z; inside : list Z; asked : list Z; granted : list Z }.

Inductive act :=
| Lock (t : Z) | Try_lock (t : Z) | Wait (t : Z) | Unlock (t : Z)
| Resume (t : Z)  (* [co_block] returns in a thread that was awakened *)
| Cancel (t : Z). (* [co_block] returns in a waiting thread for another event *)

Definition idle (t : Z) (s : state) : bool := negb (bool_decide (t ∈ Mutex.wq (m s) ++ woken s ++ inside s)).
(** [waits] says that the thread queues when it does not get the mutex. *)
Definition got (waits : bool) (t : Z) (r : bool * Mutex.mutex) (s : state) : state :=
  State (snd r) (woken s) (if fst r then t :: inside s else inside s)
    (if fst r || waits then asked s ++ [t] else asked s) (if fst r then granted s ++ [t] else granted s).

(** [None] when the thread cannot do this now *)
Definition step (a : act) (s : state) : option (res state) :=
  match a with
  | Lock t => if idle t s then Some (r ← Mutex.lock t (m s); Ret (got true t r s)) else None
  | Try_lock t => if idle t s then Some (Ret (got false t (Mutex.try_lock t (m s)) s)) else None
  | Wait t => if idle t s then Some (Ret (got true t (Mutex.wait t (m s)) s)) else None
  | Unlock t =>
      if bool_decide (t ∈ inside s) then
        Some ('(o, m') ← Mutex.unlock t (m s); Ret (State m' (woken s ++ option_list o) (forget t (inside s)) (asked s) (granted s ++ option_list o)))
      else None
  | Resume t =>
      if bool_decide (t ∈ woken s) then
        Some (m' ← Mutex.lock_resumed t (m s); Ret (State m' (forget t (woken s)) (t :: inside s) (asked s) (granted s)))
      else None
  | Cancel t =>
      if bool_decide (t ∈ Mutex.wq (m s)) then Some (Ret (State (Mutex.Mutex (Mutex.owner (m s)) (cancel t (Mutex.wq (m s)))) (woken s) (inside s) (forget_last t (asked s)) (granted s)))
      else None
  end.

(** Steps that are not possible are skipped. *)
Fixpoint run (h : list act) (s : state) : res state :=
  match h with
  | [] => Ret s
  | a :: h => match step a s with None => run h s | Some r => s ← r; run h s end
  end.
Definition start : state := State Mutex.new [] [] [] [].

Record ok (s : state) : Prop := {
  ok_nodup : NoDup (Mutex.wq (m s));
  ok_apart : forall t, t ∈ Mutex.wq (m s) -> t ∉ woken s ++ inside s;
  ok_owner : match Mutex.owner (m s) with
             | None => Mutex.wq (m s) = [] /\ woken s = [] /\ inside s = []
             | Some t => (woken s = [t] /\ inside s = []) \/ (woken s = [] /\ inside s = [t])
             end;
  ok_order : asked s = granted s ++ Mutex.wq (m s)
}.

Lemma mutex_idle_spec t s : idle t s = true -> (t ∉ Mutex.wq (m s)) /\ t ∉ woken s ++ inside s.
Proof. unfold idle. rewrite negb_true_iff, bool_decide_eq_false, !not_elem_of_app. tauto. Qed.

(** A thread that does not have the mutex takes it or queues for it. *)
Lemma mutex_wait_ok t s : ok s -> idle t s = true -> ok (got true t (Mutex.wait t (m s)) s).
Proof.
  intros [ND AP OW OR] [I1 I2]%mutex_idle_spec. unfold Mutex.wait, Mutex.try_lock, got. destruct (Mutex.owner (m s)) as [o|] eqn:O; cbn.
  - split; cbn.
    + apply NoDup_app. split; [done|]. split; [|apply NoDup_singleton]. by intros x Hx ->%list_elem_of_singleton.
    + intros x [Hx| ->%list_elem_of_singleton]%elem_of_app; [by apply AP|done].
    + by rewrite O.
    + by rewrite OR, app_assoc.
  - destruct OW as (W1 & W2 & W3). split; cbn; rewrite ?W1, ?W2, ?W3; [constructor|by intros x ?%elem_of_nil|by right|]. by rewrite OR, W1, !app_nil_r.
Qed.

Lemma mutex_step_ok a s r : ok s -> step a s = Some r -> exists s', r = Ret s' /\ ok s'.
Proof.
  intros K. pose proof K as [ND AP OW OR]. destruct a as [t|t|t|t|t|t]; cbn.
  - destruct (idle t s) eqn:I; [|done]. intros [= <-]. unfold Mutex.lock. apply mutex_idle_spec in I as [I1 I2].
    assert (Mutex.owner (m s) <> Some t) as N.
    { intros E. rewrite E in OW. apply I2, elem_of_app. destruct OW as [[-> _]|[_ ->]]; [left|right]; by apply list_elem_of_singleton. }
    rewrite decide_False by done. assert (ok (got true t (Mutex.wait t (m s)) s)) as G.
    { apply mutex_wait_ok; [done|]. unfold idle. rewrite negb_true_iff, bool_decide_eq_false, not_elem_of_app. tauto. }
    unfold Mutex.wait in G. destruct (Mutex.try_lock t (m s)) as [[] m']; cbn [mbind res_bind]; eauto.
  - destruct (idle t s) eqn:I; [|done]. intros [= <-]. eexists. split; [done|]. pose proof (mutex_wait_ok t s K I) as G.
    unfold Mutex.wait, Mutex.try_lock, got in *. destruct (Mutex.owner (m s)) eqn:O; cbn in *; [|done]. split; cbn; [done|done|by rewrite O|done].
  - destruct (idle t s) eqn:I; [|done]. intros [= <-]. eexists. split; [done|]. by apply mutex_wait_ok.
  - destruct (bool_decide_reflect (t ∈ inside s)) as [H|]; [|done]. intros [= <-]. unfold Mutex.unlock.
    destruct (Mutex.owner (m s)) as [o|] eqn:O; [|by destruct OW as (_ & _ & E); rewrite E in H; apply elem_of_nil in H].
    destruct OW as [[_ E]|[E1 E2]]; [by rewrite E in H; apply elem_of_nil in H|]. rewrite E2 in H. apply list_elem_of_singleton in H as ->.
    rewrite decide_True by done. cbn [mbind res_bind]. eexists. split; [done|]. rewrite E1, E2, forget_singleton in *. destruct (Mutex.wq (m s)) as [|x l] eqn:Q.
    + split; cbn; [constructor|by intros ? ?%elem_of_nil|done|]. by rewrite OR, !app_nil_r.
    + apply NoDup_cons in ND as [Nx ND]. split; cbn; [done| |by left|by rewrite OR, <- app_assoc]. intros y Hy. rewrite list_elem_of_singleton. by intros ->.
  - destruct (bool_decide_reflect (t ∈ woken s)) as [H|]; [|done]. intros [= <-]. unfold Mutex.lock_resumed.
    destruct (Mutex.owner (m s)) as [o|] eqn:O; [|by destruct OW as (_ & E & _); rewrite E in H; apply elem_of_nil in H].
    destruct OW as [[E1 E2]|[E _]]; [|by rewrite E in H; apply elem_of_nil in H]. rewrite E1 in H. apply list_elem_of_singleton in H as ->.
    rewrite decide_True by done. cbn [mbind res_bind]. eexists. split; [done|]. rewrite E1, E2, forget_singleton in *. split; cbn; [done| |rewrite O; by right|done].
    intros y Hy. rewrite list_elem_of_singleton. intros ->. apply (AP o Hy). by apply list_elem_of_singleton.
  - destruct (bool_decide_reflect (t ∈ Mutex.wq (m s))) as [H|]; [|done]. intros [= <-]. eexists. split; [done|]. split; cbn.
    + by apply (forget_nodup t).
    + intros x Hx%forget_elem. by apply AP.
    + destruct (Mutex.owner (m s)); [done|]. destruct OW as (E & _). rewrite E in H. by apply elem_of_nil in H.
    + rewrite OR. by apply forget_last_app.
Qed.

Lemma mutex_run_ok h s : ok s -> exists s', run h s = Ret s' /\ ok s'.
Proof.
  revert s. induction h as [|a h IH]; intros s K; cbn; [eauto|]. destruct (step a s) as [r|] eqn:E; [|by apply IH].
  destruct (mutex_step_ok a s r K E) as (s' & -> & K'). by apply IH.
Qed.

Lemma mutex_start_ok : ok start.
Proof. split; cbn; [constructor|by intros ? ?%elem_of_nil|done|done]. Qed.

End MutexHistory.

(** C36: a mutex of the cooperative threads excludes and is fair.  In every history of
    [lock], [try_lock], [wait] and [unlock] by any number of threads, in which a
    thread that was awakened goes on at any later time and a thread that waits with
    [wait] may be awakened by another event first, no assertion fails, at most one
    thread is inside, and only the owner; nobody waits for a mutex that is free; and the
    mutex is granted in the order of the requests. *)
Theorem mutex_excludes (h : list MutexHistory.act) : exists s, MutexHistory.run h MutexHistory.start = Ret s /\
  (length (MutexHistory.inside s) <= 1)%nat /\ (forall t, t ∈ MutexHistory.inside s -> Mutex.owner (MutexHistory.m s) = Some t) /\
  (Mutex.owner (MutexHistory.m s) = None -> Mutex.wq (MutexHistory.m s) = []) /\
  MutexHistory.asked s = MutexHistory.granted s ++ Mutex.wq (MutexHistory.m s).
Proof.
  destruct (MutexHistory.mutex_run_ok h _ MutexHistory.mutex_start_ok) as (s & R & [_ _ OW OR]). exists s. split; [done|].
  destruct (Mutex.owner (MutexHistory.m s)) as [o|]; [destruct OW as [[_ ->]|[_ ->]]|destruct OW as (Q & _ & ->)]; split_and!; try (cbn; lia); try done;
    intros t H; first [by apply elem_of_nil in H|by apply list_elem_of_singleton in H as ->].
Qed.

(** ** Reader-writer locks *)

Module RwlockHistory.

Import Rwlock.

(** The lock, the threads that were awakened and have not run since, and the threads
    that hold it; a thread may hold it for reading several times. *)
Record state := State { l : rwlock; woken_readers : list Z; woken_writers : list Z; readers : list Z; writers : list Z }.

Inductive act :=
| Read_lock (t : Z) | Read_try_lock (t : Z) | Read_wait (t : Z) | Read_unlock (t : Z) | Read_resume (t : Z) | Read_cancel (t : Z)
| Write_lock (t : Z) | Write_try_lock (t : Z) | Write_wait (t : Z) | Write_unlock (t : Z) | Write_resume (t : Z) | Write_cancel (t : Z).

Definition blocked (t : Z) (s : state) : bool := bool_decide (t ∈ (read_wq (l s) ++ write_wq (l s)) ++ woken_readers s ++ woken_writers s).
(** A thread that runs and does not hold the lock for writing *)
Definition may_lock (t : Z) (s : state) : bool := negb (blocked t s) && negb (bool_decide (t ∈ writers s)).
Definition holds (t : Z) (held : list Z) (s : state) : bool := bool_decide (t ∈ held) && negb (blocked t s).

Definition got_read (t : Z) (r : bool * rwlock) (s : state) : state :=
  State (snd r) (woken_readers s) (woken_writers s) (if fst r then t :: readers s else readers s) (writers s).
Definition got_write (t : Z) (r : bool * rwlock) (s : state) : state :=
  State (snd r) (woken_readers s) (woken_writers s) (readers s) (if fst r then t :: writers s else writers s).

Definition step (a : act) (s : state) : option (res state) :=
  match a with
  | Read_lock t => if may_lock t s then Some (r ← read_lock t (l s); Ret (got_read t r s)) else None
  | Read_try_lock t => if may_lock t s then Some (Ret (got_read t (read_try_lock (l s)) s)) else None
  | Read_wait t => if may_lock t s then Some (Ret (got_read t (read_wait t (l s)) s)) else None
  | Read_unlock t =>
      if holds t (readers s) s then
        Some ('(ws, l') ← read_unlock (l s); Ret (State l' (woken_readers s) (woken_writers s ++ ws) (forget t (readers s)) (writers s)))
      else None
  | Read_resume t =>
      if bool_decide (t ∈ woken_readers s) then
        Some (l' ← read_lock_resumed (l s); Ret (State l' (forget t (woken_readers s)) (woken_writers s) (t :: readers s) (writers s)))
      else None
  | Read_cancel t =>
      if bool_decide (t ∈ read_wq (l s)) then
        Some (Ret (State (Rwlock (write_owner (l s)) (read_owners (l s)) (cancel t (read_wq (l s))) (write_wq (l s)))
          (woken_readers s) (woken_writers s) (readers s) (writers s)))
      else None
  | Write_lock t => if may_lock t s then Some (r ← write_lock t (l s); Ret (got_write t r s)) else None
  | Write_try_lock t => if may_lock t s then Some (Ret (got_write t (write_try_lock t (l s)) s)) else None
  | Write_wait t => if may_lock t s then Some (Ret (got_write t (write_wait t (l s)) s)) else None
  | Write_unlock t =>
      if holds t (writers s) s then
        Some ('(ts, l') ← write_unlock t (l s);
              Ret (if is_nil (read_wq (l s)) then State l' (woken_readers s) (woken_writers s ++ ts) (readers s) (forget t (writers s))
                   else State l' (woken_readers s ++ ts) (woken_writers s) (readers s) (forget t (writers s))))
      else None
  | Write_resume t =>
      if bool_decide (t ∈ woken_writers s) then
        Some (l' ← write_lock_resumed t (l s); Ret (State l' (woken_readers s) (forget t (woken_writers s)) (readers s) (t :: writers s)))
      else None
  | Write_cancel t =>
      if bool_decide (t ∈ write_wq (l s)) then
        Some (Ret (State (Rwlock (write_owner (l s)) (read_owners (l s)) (read_wq (l s)) (cancel t (write_wq (l s))))
          (woken_readers s) (woken_writers s) (readers s) (writers s)))
      else None
  end.

Fixpoint run (h : list act) (s : state) : res state :=
  match h with
  | [] => Ret s
  | a :: h => match step a s with None => run h s | Some r => s ← r; run h s end
  end.
Definition start : state := State new [] [] [] [].

(** A writer unlocks while writers wait and no reader does. *)
Definition hands_to_writer (a : act) (s : state) : bool :=
  match a with
  | Write_unlock t => holds t (writers s) s && is_nil (read_wq (l s)) && negb (is_nil (write_wq (l s)))
  | _ => false
  end.
Fixpoint no_handover (h : list act) (s : state) : bool :=
  match h with
  | [] => true
  | a :: h =>
      negb (hands_to_writer a s) &&
      match step a s with None => no_handover h s | Some (Ret s') => no_handover h s' | Some _ => true end
  end.

Record ok (s : state) : Prop := {
  ok_queues : NoDup ((read_wq (l s) ++ write_wq (l s)) ++ woken_readers s ++ woken_writers s);
  ok_readers : read_owners (l s) = Z.of_nat (length (woken_readers s) + length (readers s));
  ok_writer : match write_owner (l s) with
              | None => woken_writers s = [] /\ writers s = []
              | Some t => read_owners (l s) = 0 /\ ((woken_writers s = [t] /\ writers s = []) \/ (woken_writers s = [] /\ writers s = [t]))
              end
}.

Lemma rw_start_ok : ok start.
Proof. split; cbn; [constructor|done|done]. Qed.

Lemma not_owner t s : ok s -> may_lock t s = true -> write_owner (l s) <> Some t /\ t ∉ (read_wq (l s) ++ write_wq (l s)) ++ woken_readers s ++ woken_writers s.
Proof.
  intros [_ _ W]. unfold may_lock, blocked. rewrite andb_true_iff, !negb_true_iff, !bool_decide_eq_false. intros [B N]. split; [|done]. intros E. rewrite E in W.
  destruct W as [_ [[E1 _]|[_ E2]]]; [|rewrite E2 in N; apply N; by apply list_elem_of_singleton].
  apply B. rewrite E1. apply elem_of_app. right. apply elem_of_app. right. by apply list_elem_of_singleton.
Qed.

(** Queueing for the lock *)
Lemma queue_reader t s : ok s -> t ∉ (read_wq (l s) ++ write_wq (l s)) ++ woken_readers s ++ woken_writers s ->
  ok (State (Rwlock (write_owner (l s)) (read_owners (l s)) (read_wq (l s) ++ [t]) (write_wq (l s))) (woken_readers s) (woken_writers s) (readers s) (writers s)).
Proof.
  intros [Q R W] N. split; cbn; [|done|done].
  assert (((read_wq (l s) ++ [t]) ++ write_wq (l s)) ++ woken_readers s ++ woken_writers s ≡ₚ t :: (read_wq (l s) ++ write_wq (l s)) ++ woken_readers s ++ woken_writers s) as -> by solve_Permutation.
  by apply NoDup_cons.
Qed.
Lemma queue_writer t s : ok s -> t ∉ (read_wq (l s) ++ write_wq (l s)) ++ woken_readers s ++ woken_writers s ->
  ok (State (Rwlock (write_owner (l s)) (read_owners (l s)) (read_wq (l s)) (write_wq (l s) ++ [t])) (woken_readers s) (woken_writers s) (readers s) (writers s)).
Proof.
  intros [Q R W] N. split; cbn; [|done|done].
  assert ((read_wq (l s) ++ write_wq (l s) ++ [t]) ++ woken_readers s ++ woken_writers s ≡ₚ t :: (read_wq (l s) ++ write_wq (l s)) ++ woken_readers s ++ woken_writers s) as -> by solve_Permutation.
  by apply NoDup_cons.
Qed.

Lemma read_try_ok t s : ok s -> ok (got_read t (read_try_lock (l s)) s).
Proof.
  intros K. pose proof K as [Q R W]. unfold read_try_lock. destruct (is_null (write_owner (l s)) && is_nil (write_wq (l s))) eqn:E; [|by destruct s].
  apply andb_true_iff in E as [E1 E2]. destruct (write_owner (l s)) eqn:O; [done|]. split; cbn; [done|lia|done].
Qed.
Lemma write_try_ok t s : ok s -> ok (got_write t (write_try_lock t (l s)) s).
Proof.
  intros K. pose proof K as [Q R W]. unfold write_try_lock. destruct ((read_owners (l s) =? 0) && is_null (write_owner (l s))) eqn:E; [|by destruct s].
  apply andb_true_iff in E as [E1%Z.eqb_eq E2]. destruct (write_owner (l s)) eqn:O; [done|]. destruct W as [W1 W2]. split; cbn; [done|done|].
  split; [done|]. right. by rewrite W1, W2.
Qed.
Lemma read_wait_ok t s : ok s -> may_lock t s = true -> ok (got_read t (read_wait t (l s)) s).
Proof.
  intros K M. pose proof (read_try_ok t s K) as G. destruct (not_owner t s K M) as [_ N]. unfold read_wait, read_try_lock in *.
  destruct (is_null _ && is_nil _); [done|]. by apply queue_reader.
Qed.
Lemma write_wait_ok t s : ok s -> may_lock t s = true -> ok (got_write t (write_wait t (l s)) s).
Proof.
  intros K M. pose proof (write_try_ok t s K) as G. destruct (not_owner t s K M) as [_ N]. unfold write_wait, write_try_lock in *.
  destruct (_ && is_null _); [done|]. by apply queue_writer.
Qed.

Lemma forget_split t k : t ∈ k -> k ≡ₚ t :: forget t k.
Proof. intros H. apply remove_first_Permutation; [done|]. intros y _. rewrite Z.eqb_eq. by split. Qed.
Lemma forget_length t k : t ∈ k -> length k = S (length (forget t k)).
Proof. intros H. by rewrite (forget_split t k H) at 1. Qed.

Lemma holds_in t k s : holds t k s = true -> t ∈ k.
Proof. unfold holds. rewrite andb_true_iff, bool_decide_eq_true. tauto. Qed.

Lemma read_unlock_ok t s : ok s -> t ∈ readers s -> exists ws l', read_unlock (l s) = Ret (ws, l') /\
  ok (State l' (woken_readers s) (woken_writers s ++ ws) (forget t (readers s)) (writers s)).
Proof.
  intros [Q R W] H. pose proof (forget_length t _ H) as L. unfold read_unlock. rewrite (proj2 (Z.eqb_neq (read_owners (l s)) 0)) by lia.
  assert (write_owner (l s) = None) as O by (destruct (write_owner (l s)); [lia|done]). rewrite O in W. destruct W as [W1 W2].
  destruct (Z.eqb_spec (read_owners (l s) - 1) 0) as [E|E]; do 2 eexists; (split; [reflexivity|]).
  - destruct (write_wq (l s)) as [|w ws] eqn:D; cbn.
    + rewrite app_nil_r. split; cbn; [by rewrite W1 in *|lia|done].
    + split; cbn; [|lia|split; [done|left; by rewrite W1, W2]].
      eapply NoDup_Permutation_proper; [|exact Q]. rewrite W1. solve_Permutation.
  - rewrite app_nil_r. split; cbn; [done|lia|]. by rewrite O.
Qed.

Lemma write_unlock_ok t s : ok s -> t ∈ writers s -> hands_to_writer (Write_unlock t) s = false -> holds t (writers s) s = true ->
  exists ts l', write_unlock t (l s) = Ret (ts, l') /\
  ok (if is_nil (read_wq (l s)) then State l' (woken_readers s) (woken_writers s ++ ts) (readers s) (forget t (writers s))
      else State l' (woken_readers s ++ ts) (woken_writers s) (readers s) (forget t (writers s))).
Proof.
  intros [Q R W] H F Ho. destruct (write_owner (l s)) as [o|] eqn:O; [|by destruct W as [_ E]; rewrite E in H; apply elem_of_nil in H].
  destruct W as [W0 [[_ E]|[W1 W2]]]; [by rewrite E in H; apply elem_of_nil in H|]. rewrite W2 in H. apply list_elem_of_singleton in H as ->.
  unfold write_unlock. rewrite O, decide_False by (by intros C; apply C). unfold hands_to_writer in F. rewrite Ho in F. cbn in F.
  destruct (read_wq (l s)) as [|x rs] eqn:Rq; cbn in F.
  - destruct (write_wq (l s)) as [|w ws]; [|done]. do 2 eexists. split; [reflexivity|]. cbn. rewrite app_nil_r, W2, forget_singleton.
    split; cbn; [done|done|done].
  - do 2 eexists. split; [reflexivity|]. cbn [is_nil]. rewrite W2, forget_singleton. split; cbn; [|rewrite length_app; cbn; lia|done].
    eapply NoDup_Permutation_proper; [|exact Q]. solve_Permutation.
Qed.

Lemma nodup_forget_mid t k1 k2 k3 : NoDup (k1 ++ k2 ++ k3) -> NoDup (k1 ++ forget t k2 ++ k3).
Proof.
  intros N. eapply sublist_NoDup; [exact N|]. apply sublist_app; [done|]. apply sublist_app; [|done]. unfold forget. clear.
  induction k2 as [|x k IH]; [done|]. cbn. destruct (t =? x); [by apply sublist_cons|by apply sublist_skip].
Qed.

Lemma read_resume_ok t s : ok s -> t ∈ woken_readers s -> read_lock_resumed (l s) = Ret (l s) /\
  ok (State (l s) (forget t (woken_readers s)) (woken_writers s) (t :: readers s) (writers s)).
Proof.
  intros [Q R W] H. pose proof (forget_length t _ H) as L. unfold read_lock_resumed. rewrite (proj2 (Z.eqb_neq _ 0)) by lia. split; [done|]. split; cbn; [|lia|done].
  by apply nodup_forget_mid.
Qed.
Lemma write_resume_ok t s : ok s -> t ∈ woken_writers s -> write_lock_resumed t (l s) = Ret (l s) /\
  ok (State (l s) (woken_readers s) (forget t (woken_writers s)) (readers s) (t :: writers s)).
Proof.
  intros [Q R W] H. destruct (write_owner (l s)) as [o|] eqn:O; [|by destruct W as [E _]; rewrite E in H; apply elem_of_nil in H].
  destruct W as [W0 [[W1 W2]|[E _]]]; [|by rewrite E in H; apply elem_of_nil in H]. rewrite W1 in H. apply list_elem_of_singleton in H as ->.
  unfold write_lock_resumed. rewrite O, decide_True by done. split; [done|]. rewrite W1, W2, forget_singleton in *. split; cbn; [|done|rewrite O; split; [done|by right]].
  rewrite app_nil_r, app_assoc in *. by apply NoDup_app in Q as [? _].
Qed.
Lemma cancel_ok t s : ok s ->
  ok (State (Rwlock (write_owner (l s)) (read_owners (l s)) (cancel t (read_wq (l s))) (write_wq (l s))) (woken_readers s) (woken_writers s) (readers s) (writers s)) /\
  ok (State (Rwlock (write_owner (l s)) (read_owners (l s)) (read_wq (l s)) (cancel t (write_wq (l s)))) (woken_readers s) (woken_writers s) (readers s) (writers s)).
Proof.
  intros [Q R W]. rewrite <- app_assoc in Q. split; (split; cbn; [|done|done]); rewrite <- app_assoc; [apply (nodup_forget_mid t []), Q|by apply nodup_forget_mid].
Qed.

Lemma rw_step_ok a s r : ok s -> hands_to_writer a s = false -> step a s = Some r -> exists s', r = Ret s' /\ ok s'.
Proof.
  intros K F. destruct a as [t|t|t|t|t|t|t|t|t|t|t|t]; cbn [step].
  - destruct (may_lock t s) eqn:M; [|done]. intros [= <-]. destruct (not_owner t s K M) as [N _]. unfold read_lock. rewrite decide_False by done.
    pose proof (read_wait_ok t s K M) as G. unfold read_wait in G. destruct (read_try_lock (l s)) as [[] l']; cbn [mbind res_bind]; eauto.
  - destruct (may_lock t s); [|done]. intros [= <-]. eauto using read_try_ok.
  - destruct (may_lock t s) eqn:M; [|done]. intros [= <-]. eauto using read_wait_ok.
  - destruct (holds t (readers s) s) eqn:H; [|done]. intros [= <-]. destruct (read_unlock_ok t s K (holds_in _ _ _ H)) as (ws & l' & -> & K'). cbn. eauto.
  - destruct (bool_decide_reflect (t ∈ woken_readers s)) as [H|]; [|done]. intros [= <-]. destruct (read_resume_ok t s K H) as [-> K']. cbn. eauto.
  - destruct (bool_decide (t ∈ read_wq (l s))); [|done]. intros [= <-]. eexists. split; [done|]. by apply cancel_ok.
  - destruct (may_lock t s) eqn:M; [|done]. intros [= <-]. destruct (not_owner t s K M) as [N _]. unfold write_lock. rewrite decide_False by done.
    pose proof (write_wait_ok t s K M) as G. unfold write_wait in G. destruct (write_try_lock t (l s)) as [[] l']; cbn [mbind res_bind]; eauto.
  - destruct (may_lock t s); [|done]. intros [= <-]. eauto using write_try_ok.
  - destruct (may_lock t s) eqn:M; [|done]. intros [= <-]. eauto using write_wait_ok.
  - destruct (holds t (writers s) s) eqn:H; [|done]. intros [= <-]. destruct (write_unlock_ok t s K (holds_in _ _ _ H) F H) as (ts & l' & -> & K'). cbn. eauto.
  - destruct (bool_decide_reflect (t ∈ woken_writers s)) as [H|]; [|done]. intros [= <-]. destruct (write_resume_ok t s K H) as [-> K']. cbn. eauto.
  - destruct (bool_decide (t ∈ write_wq (l s))); [|done]. intros [= <-]. eexists. split; [done|]. by apply cancel_ok.
Qed.

Lemma rw_run_ok h s : ok s -> no_handover h s = true -> exists s', run h s = Ret s' /\ ok s'.
Proof.
  revert s. induction h as [|a h IH]; intros s K C; cbn in *; [eauto|]. apply andb_true_iff in C as [C1%negb_true_iff C2].
  destruct (step a s) as [r|] eqn:E; [|by apply IH]. destruct (rw_step_ok a s r K C1 E) as (s' & -> & K'). by apply IH.
Qed.

(** A writer that was awakened without being made the owner *)
Definition stranded (w : Z) (s : state) : Prop := w ∈ woken_writers s /\ write_owner (l s) <> Some w /\ w ∉ write_wq (l s).

Lemma stranded_blocked w t s : stranded w s -> blocked t s = false -> t <> w.
Proof. intros (H & _ & _). unfold blocked. rewrite bool_decide_eq_false. intros N ->. apply N, elem_of_app. right. apply elem_of_app. by right. Qed.
Lemma head_not (w : Z) k : w ∉ k -> head k <> Some w /\ w ∉ tail k.
Proof. destruct k as [|x k]; cbn; [done|]. intros [N1 N2]%not_elem_of_cons. split; congruence. Qed.
Lemma forget_other (t w : Z) k : t <> w -> w ∈ k -> w ∈ forget t k.
Proof.
  intros N. unfold forget. induction k as [|x k IH]; [done|]. cbn. intros [<-|H]%elem_of_cons.
  - rewrite (proj2 (Z.eqb_neq t w)) by done. left.
  - destruct (t =? x); [done|right; by apply IH].
Qed.
Lemma may_lock_blocked t s : may_lock t s = true -> blocked t s = false.
Proof. unfold may_lock. rewrite andb_true_iff, negb_true_iff. tauto. Qed.

Lemma stranded_append (t w : Z) k : t <> w -> w ∉ k -> w ∉ k ++ [t].
Proof. intros N H. rewrite not_elem_of_app, list_elem_of_singleton. split; [done|congruence]. Qed.

Lemma stranded_step w a s r : stranded w s -> step a s = Some r -> r = Aborted \/ exists s', r = Ret s' /\ stranded w s'.
Proof.
  intros S. pose proof S as (S1 & S2 & S3). destruct a as [t|t|t|t|t|t|t|t|t|t|t|t]; cbn [step].
  - destruct (may_lock t s); [|done]. intros [= <-]. unfold read_lock, read_try_lock. destruct (decide _); [by left|].
    destruct (_ && _); right; eexists; (split; [reflexivity|]); by split_and!.
  - destruct (may_lock t s); [|done]. intros [= <-]. unfold read_try_lock. destruct (_ && _); right; eexists; (split; [reflexivity|]); by split_and!.
  - destruct (may_lock t s); [|done]. intros [= <-]. unfold read_wait, read_try_lock. destruct (_ && _); right; eexists; (split; [reflexivity|]); by split_and!.
  - destruct (holds t (readers s) s); [|done]. intros [= <-]. unfold read_unlock. destruct (_ =? 0); [by left|]. destruct (head_not w _ S3) as [H1 H2].
    destruct (_ =? 0); right; eexists; (split; [reflexivity|]); (split_and!; [apply elem_of_app; by left|done|done]).
  - destruct (bool_decide _); [|done]. intros [= <-]. unfold read_lock_resumed. destruct (_ =? 0); [by left|]. right; eexists; (split; [reflexivity|]); by split_and!.
  - destruct (bool_decide _); [|done]. intros [= <-]. right; eexists; (split; [reflexivity|]); by split_and!.
  - destruct (may_lock t s) eqn:M; [|done]. intros [= <-]. pose proof (stranded_blocked w t s S (may_lock_blocked t s M)) as N. unfold write_lock, write_try_lock.
    destruct (decide _); [by left|]. destruct (_ && _); right; eexists; (split; [reflexivity|]); (split_and!; [done|cbn; congruence|]); [done|by apply stranded_append].
  - destruct (may_lock t s) eqn:M; [|done]. intros [= <-]. pose proof (stranded_blocked w t s S (may_lock_blocked t s M)) as N. unfold write_try_lock.
    destruct (_ && _); right; eexists; (split; [reflexivity|]); (split_and!; [done|cbn; congruence|done]).
  - destruct (may_lock t s) eqn:M; [|done]. intros [= <-]. pose proof (stranded_blocked w t s S (may_lock_blocked t s M)) as N. unfold write_wait, write_try_lock.
    destruct (_ && _); right; eexists; (split; [reflexivity|]); (split_and!; [done|cbn; congruence|]); [done|by apply stranded_append].
  - destruct (holds t (writers s) s); [|done]. intros [= <-]. unfold write_unlock. destruct (decide _); [by left|]. destruct (head_not w _ S3) as [H1 H2].
    right. destruct (read_wq (l s)); eexists; (split; [reflexivity|]); (split_and!; [cbn; rewrite ?elem_of_app; auto|done|done]).
  - destruct (bool_decide _); [|done]. intros [= <-]. unfold write_lock_resumed. destruct (decide _) as [E|]; [|by left]. right. eexists. split; [reflexivity|].
    split_and!; [apply forget_other; [congruence|done]|done|done].
  - destruct (bool_decide _); [|done]. intros [= <-]. right; eexists; (split; [reflexivity|]). split_and!; [done|done|]. cbn. by intros ?%forget_elem.
Qed.

Lemma stranded_run w h s : stranded w s -> run (h ++ [Write_resume w]) s = Aborted.
Proof.
  revert s. induction h as [|a h IH]; intros s S; cbn [run app].
  - destruct S as (S1 & S2 & _). cbn [step]. rewrite bool_decide_eq_true_2 by done. unfold write_lock_resumed. by rewrite decide_False.
  - destruct (step a s) as [r|] eqn:E; [|by apply IH]. destruct (stranded_step w a s r S E) as [->|(s' & -> & S')]; [done|]. by apply IH.
Qed.

Lemma run_app h1 h2 s : run (h1 ++ h2) s = s' ← run h1 s; run h2 s'.
Proof.
  revert s. induction h1 as [|a h IH]; intros s; [done|]. cbn. destruct (step a s) as [r|]; [|done]. by destruct r; cbn.
Qed.

End RwlockHistory.

(** C37: a reader-writer lock of the cooperative threads excludes as long as no writer
    unlocks it while other writers wait and no reader does.  In every such history of
    the twelve operations, in any interleaving and with waiting threads that give up,
    no assertion fails, and a thread that holds the lock for writing is alone. *)
Theorem rwlock_excludes (h : list RwlockHistory.act) :
  RwlockHistory.no_handover h RwlockHistory.start = true ->
  exists s, RwlockHistory.run h RwlockHistory.start = Ret s /\
    (length (RwlockHistory.writers s) <= 1)%nat /\
    (RwlockHistory.writers s <> [] -> RwlockHistory.readers s = []) /\
    (forall t, t ∈ RwlockHistory.writers s -> Rwlock.write_owner (RwlockHistory.l s) = Some t).
Proof.
  intros C. destruct (RwlockHistory.rw_run_ok h _ RwlockHistory.rw_start_ok C) as (s & R & [_ RO W]). exists s. split; [done|].
  destruct (Rwlock.write_owner (RwlockHistory.l s)) as [o|]; [|destruct W as [_ ->]; split_and!; [cbn; lia|done|by intros t ?%elem_of_nil]].
  destruct W as (W0 & [[_ ->]|[_ ->]]); (split_and!; [cbn; lia| |]).
  - done.
  - by intros t ?%elem_of_nil.
  - intros _. destruct (RwlockHistory.readers s); [done|]. cbn in RO. lia.
  - by intros t ->%list_elem_of_singleton.
Qed.

Definition reader_writer_history : list RwlockHistory.act :=
  [RwlockHistory.Read_lock 1; RwlockHistory.Read_lock 2; RwlockHistory.Write_lock 3; RwlockHistory.Read_lock 4; RwlockHistory.Write_wait 5;
   RwlockHistory.Read_unlock 1; RwlockHistory.Read_unlock 2; RwlockHistory.Write_resume 3; RwlockHistory.Write_unlock 3;
   RwlockHistory.Read_resume 4; RwlockHistory.Read_unlock 4; RwlockHistory.Write_resume 5].
Lemma rwlock_excludes_witness : RwlockHistory.no_handover reader_writer_history RwlockHistory.start = true /\
  exists s, RwlockHistory.run reader_writer_history RwlockHistory.start = Ret s /\ RwlockHistory.writers s = [5].
Proof.
  split; [vm_compute; reflexivity|]. destruct (rwlock_excludes reader_writer_history) as (s & R & _); [vm_compute; reflexivity|].
  exists s. split; [exact R|]. vm_compute in R. injection R as <-. reflexivity.
Defined.



(** A writer that gives up strands the readers that came after it: the lock is free,
    and the reader 3 waits for a thread to lock it for writing and unlock it. *)
Definition give_up_history : list RwlockHistory.act :=
  [RwlockHistory.Read_lock 1; RwlockHistory.Write_wait 2; RwlockHistory.Read_lock 3; RwlockHistory.Write_cancel 2; RwlockHistory.Read_unlock 1].
Lemma reader_stranded : RwlockHistory.run give_up_history RwlockHistory.start = Ret (RwlockHistory.State (Rwlock.Rwlock None 0 [3] []) [] [] [] []).
Proof. vm_compute. reflexivity. Qed.

(** A thread that reads and locks for reading again waits for itself when a writer
    came in between. *)
Lemma recursive_read_deadlock : RwlockHistory.run [RwlockHistory.Read_lock 1; RwlockHistory.Write_lock 2; RwlockHistory.Read_lock 1] RwlockHistory.start =
  Ret (RwlockHistory.State (Rwlock.Rwlock None 1 [1] [2]) [] [] [1] []).
Proof. vm_compute. reflexivity. Qed.

(** ** Semaphores *)

Module SemaHistory.

(** The semaphore, how often it was raised, and how often a thread got past it *)
Record state := State { sema : Sema.sema; ups : Z; downs : Z }.
Inductive act := Up | Down (t : Z) | Try_down | Cancel (t : Z).

Definition step (a : act) (s : state) : state :=
  match a with
  | Up => let '(o, s') := Sema.up (sema s) in State s' (ups s + 1) (downs s + match o with Some _ => 1 | None => 0 end)
  | Down t => let '(got, s') := Sema.down t (sema s) in State s' (ups s) (downs s + if got : bool then 1 else 0)
  | Try_down => let '(got, s') := Sema.try_down (sema s) in State s' (ups s) (downs s + if got : bool then 1 else 0)
  | Cancel t => State (Sema.Sema (Sema.value (sema s)) (cancel t (Sema.wq (sema s)))) (ups s) (downs s)
  end.
Definition run (h : list act) : state := foldl (fun s a => step a s) (State Sema.new 0 0) h.

Record ok (s : state) : Prop := {
  sema_sum : Sema.value (sema s) + downs s = ups s;
  sema_positive : 0 <= Sema.value (sema s);
  sema_waiting : Sema.wq (sema s) <> [] -> Sema.value (sema s) = 0
}.

Lemma sema_step_ok a s : ok s -> ok (step a s).
Proof.
  intros [S P W]. destruct a as [|t| |t]; cbn.
  - unfold Sema.up. destruct (Sema.wq (sema s)) as [|x k] eqn:Q; split; cbn; try done; try lia. intros _. by apply W.
  - unfold Sema.down, Sema.try_down. destruct (Z.ltb_spec 0 (Sema.value (sema s))) as [L|L]; split; cbn; try lia.
    intros H. specialize (W H). lia.
  - unfold Sema.try_down. destruct (Z.ltb_spec 0 (Sema.value (sema s))) as [L|L]; split; cbn; try lia; try exact W.
    intros H. specialize (W H). lia.
  - split; cbn; [done|done|]. intros H. apply W. intros E. apply H. by rewrite E.
Qed.

Lemma sema_run_ok h : ok (run h).
Proof.
  unfold run. assert (ok (State Sema.new 0 0)) as K by (by split). revert K. generalize (State Sema.new 0 0).
  induction h as [|a h IH]; intros s K; [done|]. cbn. by apply IH, sema_step_ok.
Qed.

End SemaHistory.

(** No [up] is lost and none is used twice, also when waiting threads give up: the value
    is what was raised and not yet taken, and threads wait only while it is 0. *)
Lemma semaphore_counts (h : list SemaHistory.act) :
  Sema.value (SemaHistory.sema (SemaHistory.run h)) = SemaHistory.ups (SemaHistory.run h) - SemaHistory.downs (SemaHistory.run h) /\
  0 <= Sema.value (SemaHistory.sema (SemaHistory.run h)) /\
  (Sema.wq (SemaHistory.sema (SemaHistory.run h)) <> [] -> Sema.value (SemaHistory.sema (SemaHistory.run h)) = 0).
Proof. destruct (SemaHistory.sema_run_ok h) as [S P W]. split_and!; [lia|done|done]. Qed.

(** ** Barriers *)

(** The threads that arrive, one after the other *)
Fixpoint arrive (ts : list Z) (b : Barrier.barrier) : res (list Z * Barrier.barrier) :=
  match ts with
  | [] => Ret ([], b)
  | t :: ts => '(_, woken, b) ← Barrier.block t b; '(woken', b) ← arrive ts b; Ret (woken ++ woken', b)
  end.

Lemma arrive_waits ts n k : Z.of_nat (length ts) < n -> arrive ts (Barrier.Barrier n k) = Ret ([], Barrier.Barrier (n - Z.of_nat (length ts)) (k ++ ts)).
Proof.
  revert n k. induction ts as [|t ts IH]; intros n k H; cbn [length arrive] in *; [by rewrite app_nil_r, Z.sub_0_r|]. unfold Barrier.block. cbn [Barrier.count Barrier.wq].
  rewrite (proj2 (Z.eqb_neq n 0)), (proj2 (Z.eqb_neq (n - 1) 0)) by lia. cbn [mbind res_bind]. rewrite IH by lia. cbn [mbind res_bind]. rewrite <- app_assoc. cbn.
  do 3 f_equal. lia.
Qed.
Lemma arrive_app ts ts' b : arrive (ts ++ ts') b = '(w, b) ← arrive ts b; '(w', b) ← arrive ts' b; Ret (w ++ w', b).
Proof.
  revert b. induction ts as [|t ts IH]; intros b; cbn [arrive app].
  - cbn [mbind res_bind]. by destruct (arrive ts' b) as [[? ?]| | |].
  - destruct (Barrier.block t b) as [[[? w] b']| | |]; cbn [mbind res_bind]; [|done..]. rewrite IH. destruct (arrive ts b') as [[w1 b1]| | |]; cbn [mbind res_bind]; [|done..].
    destruct (arrive ts' b1) as [[w2 b2]| | |]; cbn [mbind res_bind]; [|done..]. by rewrite app_assoc.
Qed.

(** A barrier for [n] threads holds the first [n - 1] and lets all of them go when
    the last one arrives; they go on without a failed assertion.  One more is an
    error. *)
Lemma barrier_breaks ts t u n : n = Z.of_nat (length ts) + 1 ->
  arrive ts (Barrier.new n) = Ret ([], Barrier.Barrier 1 ts) /\
  arrive (ts ++ [t]) (Barrier.new n) = Ret (ts, Barrier.Barrier 0 []) /\ Barrier.block_resumed (Barrier.Barrier 0 []) = Ret (Barrier.Barrier 0 []) /\
  Barrier.block u (Barrier.Barrier 0 []) = Aborted.
Proof.
  intros ->. unfold Barrier.new. assert (arrive ts (Barrier.Barrier (Z.of_nat (length ts) + 1) []) = Ret ([], Barrier.Barrier 1 ts)) as A.
  { rewrite arrive_waits by lia. do 3 f_equal. lia. }
  split_and!; [done| |done|done]. rewrite arrive_app, A. cbn [mbind res_bind].
  assert (arrive [t] (Barrier.Barrier 1 ts) = Ret (ts ++ [], Barrier.Barrier 0 [])) as -> by done. cbn [mbind res_bind app]. by rewrite app_nil_r.
Qed.
