(* ===== verification/Addresses.v ===== *)
(** * Textual Ethernet addresses, IP addresses, prefixes and datapath identifiers
    (lib/netinet++/ethernetaddr.cc, include/netinet++/ipaddr.hh, cidr.hh,
    datapathid.hh)

    Strings are lists of character codes; those of prefixes contain no NUL.  [Throw 0] is [bad_ethernetaddr_cast] or
    [bad_ipaddr_cast]. *)

From S2P Require Import Prelude Bytes Ethernetaddr.

Open Scope Z_scope.

(** ** Pointers into strings

    The rest of the string, or [None] behind its terminator, where reading is an
    error. *)
Abbreviation cursor := (option (list Z)) (only parsing).
Definition deref (p : cursor) : res Z := match p with None => Aborted | Some [] => Ret 0 | Some (c :: _) => Ret c end.
Definition step (p : cursor) : cursor := match p with Some (_ :: s) => Some s | _ => None end.

(** ** Ethernet addresses *)

(** [hexit_value] *)
Definition hexit_value (c : Z) : Z :=
  if (48 <=? c) && (c <=? 57) then c - 48
  else if (97 <=? c) && (c <=? 102) then c - 97 + 10
  else if (65 <=? c) && (c <=? 70) then c - 65 + 10
  else -1.

(** The loop of [init_from_string]; [k] octets are left. *)
Fixpoint init_octets (k : nat) (str : cursor) : res (bytes * cursor) :=
  match k with
  | O => Ret ([], str)
  | S k =>
      c1 ← deref str;
      let digit1 := hexit_value c1 in
      if digit1 <? 0 then Throw 0
      else
        let str := step str in
        c2 ← deref str;
        let digit2 := hexit_value c2 in
        let '(o, str) := if 0 <=? digit2 then (wrap 8 (digit1 * 16 + digit2), step str) else (digit1, str) in
        c ← deref str;
        let last := Nat.eqb k 0 in
        if negb last && negb (c =? 45) && negb (c =? 58) then Throw 0
        else
          '(os, str) ← init_octets k (if last then str else step str);
          Ret (o :: os, str)
  end.

(** [ethernetaddr::init_from_string] *)
Definition init_from_string (str : list Z) : res ethernetaddr :=
  '(os, p) ← init_octets LEN (Some str);
  c ← deref p;
  if negb (c =? 0) then Throw 0 else Ret (Ethernetaddr os).

(** [%02x] of a byte *)
Definition hex_char (d : Z) : Z := if d <? 10 then 48 + d else 87 + d.
Definition hex2 (o : Z) : list Z := [hex_char (o `div` 16); hex_char (o `mod` 16)].
Fixpoint separated (sep : Z) (gs : list (list Z)) : list Z :=
  match gs with [] => [] | [g] => g | g :: gs => g ++ sep :: separated sep gs end.
(** [ethernetaddr::string] *)
Definition ethernetaddr_string (a : ethernetaddr) : list Z := separated 58 (map hex2 (octet a)).

(** ** IP addresses

    [addr] is in network byte order. *)

Record ipaddr := Ipaddr { addr : Z }.
#[export] Instance ipaddr_eq_dec : EqDecision ipaddr.
Proof. solve_decision. Defined.

Module Ip.

(** [ipaddr(uint32_t)], the constructor from four bytes, [operator=(uint32_t)] *)
Definition of_host (x : Z) : ipaddr := Ipaddr (htonl x).
Definition of_bytes (b : bytes) : ipaddr := Ipaddr (of_le (take 4 b)).
Definition assign (x : Z) : ipaddr := Ipaddr x.
(** [ipaddr(const sockaddr&)]: the first four bytes of the structure, which are the
    family and the port *)
Definition of_sockaddr (family : Z) (sa : bytes) : res ipaddr := if negb (family =? 2) then Throw 0 else Ret (Ipaddr (of_le (take 4 sa))).

Definition lnot (a : ipaddr) : ipaddr := of_host (htonl (u32 (Z.lnot (addr a)))).
Definition land (a b : ipaddr) : ipaddr := of_host (htonl (Z.land (addr a) (addr b))).
Definition land_host (a : ipaddr) (x : Z) : ipaddr := of_host (Z.land (ntohl (addr a)) x).
Definition lor (a b : ipaddr) : ipaddr := of_host (htonl (Z.lor (addr a) (addr b))).
Definition lor_word (a : ipaddr) (x : Z) : ipaddr := of_host (htonl (Z.lor (addr a) x)).

Definition incr (a : ipaddr) : ipaddr := Ipaddr (htonl (u32 (htonl (addr a) + 1))).
Definition decr (a : ipaddr) : ipaddr := Ipaddr (htonl (u32 (htonl (addr a) - 1))).
Definition add_assign (a : ipaddr) (x : Z) : ipaddr := Ipaddr (htonl (u32 (htonl (addr a) + x))).
Definition add (a : ipaddr) (x : Z) : ipaddr := of_host (u32 (htonl (addr a) + x)).
Definition sub_int (a : ipaddr) (x : Z) : ipaddr := of_host (u32 (htonl (addr a) - x)).
Definition ltb (a b : ipaddr) : bool := htonl (addr a) <? htonl (addr b).
Definition leb (a b : ipaddr) : bool := htonl (addr a) <=? htonl (addr b).
Definition eqb (a b : ipaddr) : bool := addr a =? addr b.

Definition is_multicast (a : ipaddr) : bool := (0xE0000000 <=? ntohl (addr a)) && (ntohl (addr a) <=? 0xEFFFFFFF).
Definition is_private (a : ipaddr) : bool :=
  ((0x10000000 <=? ntohl (addr a)) && (ntohl (addr a) <=? 0x10FFFFFF))
  || ((0xAC100000 <=? ntohl (addr a)) && (ntohl (addr a) <=? 0xAC1FFFFF))
  || ((0xC0A80000 <=? ntohl (addr a)) && (ntohl (addr a) <=? 0xC0ABFFFF)).

(** Decimal digits of a number below 1000; [inet_ntop] *)
Definition dec (n : Z) : list Z :=
  if n <? 10 then [48 + n]
  else if n <? 100 then [48 + n `div` 10; 48 + n `mod` 10]
  else [48 + n `div` 100; 48 + (n `div` 10) `mod` 10; 48 + n `mod` 10].
Definition string (a : ipaddr) : list Z := separated 46 (map dec (to_le 4 (addr a))).

Section resolver.
(** [gethostbyname], with the four bytes of the address *)
Variable gethostbyname : list Z -> option bytes.
Definition of_string (s : list Z) : res ipaddr :=
  match gethostbyname s with
  | None => Throw 0
  | Some b => if negb (Nat.eqb (length b) 4) then Aborted else Ret (Ipaddr (of_le b))
  end.
End resolver.

End Ip.

(** ** Prefixes *)

Record cidr_ipaddr := Cidr { base : ipaddr; mask : Z }.

Module Cidr_ops.

Definition all_ones : Z := u32 (Z.lnot 0).
(** The mask of [set_mask] and of the constructor from an address and a length *)
Definition mask_of (len : Z) : Z := if len =? 0 then 0 else htonl (u32 (Z.shiftl all_ones (32 - len))).
Definition masked (a : ipaddr) (m : Z) : cidr_ipaddr := Cidr (Ipaddr (Z.land (addr a) m)) m.

Definition of_len (ip : ipaddr) (len : Z) : res cidr_ipaddr := if 32 <? len then Throw 0 else Ret (masked ip (mask_of len)).

(** [isdigit], the loop of [set_mask], and [atoi] of digits: a value that is not an
    [int] is undefined. *)
Definition isdigit (c : Z) : bool := (48 <=? c) && (c <=? 57).
Fixpoint atoi_from (n : Z) (s : list Z) : Z := match s with [] => n | c :: s => atoi_from (n * 10 + (c - 48)) s end.
Definition INT_MAX : Z := 2147483647.
Definition atoi (s : list Z) : res Z := let n := atoi_from 0 s in if INT_MAX <? n then Aborted else Ret n.
(** [slash] is what follows the slash. *)
Definition set_mask (slash : list Z) : res Z :=
  if negb (forallb isdigit slash) then Throw 0
  else if is_nil slash then Throw 0
  else
    len ← atoi slash;
    if 32 <? len then Throw 0 else Ret (mask_of len).

(** Up to the first slash, and after it *)
Fixpoint split_slash (s : list Z) : list Z * option (list Z) :=
  match s with
  | [] => ([], None)
  | c :: s => if c =? 47 then ([], Some s) else let '(a, r) := split_slash s in (c :: a, r)
  end.

(** [cidr_ipaddr(const std::string&)] *)
Definition of_string (gethostbyname : list Z -> option bytes) (s : list Z) : res cidr_ipaddr :=
  match split_slash s with
  | (a, Some len) => ip ← Ip.of_string gethostbyname a; m ← set_mask len; Ret (masked ip m)
  | (_, None) => ip ← Ip.of_string gethostbyname s; Ret (masked ip all_ones)
  end.

Definition matches (c : cidr_ipaddr) (ip : ipaddr) : bool := addr (base c) =? Z.land (addr ip) (mask c).

(** [get_prefix_len]; the mask has 32 bits. *)
Fixpoint prefix_loop (fuel : nat) (m len : Z) : res Z :=
  if m =? 0 then Ret len else match fuel with O => NoFuel | S fuel => prefix_loop fuel (u32 (Z.shiftl m 1)) (len + 1) end.
Definition get_prefix_len (c : cidr_ipaddr) : res Z := prefix_loop 32 (ntohl (mask c)) 0.

(** [fill_string] *)
Definition string (c : cidr_ipaddr) : res (list Z) :=
  len ← get_prefix_len c;
  if 4 <=? Z.of_nat (length (Ip.dec len)) then Aborted else Ret (Ip.string (base c) ++ 47 :: Ip.dec len).

Definition eqb (a b : cidr_ipaddr) : bool := Ip.eqb (base a) (base b) && (mask a =? mask b).

End Cidr_ops.

(** ** Datapath identifiers *)

Module Dpid.
Definition from_net (x : Z) : Z := ntohll x.
Definition as_net (id : Z) : Z := htonll id.
(** Six bytes are copied behind two zero bytes. *)
Definition from_bytes (b : bytes) : Z := from_net (of_le (store 2 (take 6 b) (replicate 8 0))).
End Dpid.

(** ** What texts are Ethernet addresses *)

Definition spells_octet (g : list Z) (o : Z) : Prop :=
  (exists c, g = [c] /\ 0 <= hexit_value c /\ o = hexit_value c) \/
  (exists c d, g = [c; d] /\ 0 <= hexit_value c /\ 0 <= hexit_value d /\ o = hexit_value c * 16 + hexit_value d).
(** One or two hexadecimal digits per octet, with a colon or a dash in between *)
Inductive spells : list Z -> bytes -> Prop :=
| spells_last g o : spells_octet g o -> spells g [o]
| spells_cons g o c s os : spells_octet g o -> c = 58 \/ c = 45 -> spells s os -> spells (g ++ c :: s) (o :: os).

Lemma hexit_range c : hexit_value c < 16.
Proof. unfold hexit_value. repeat case_match; try lia. all: apply andb_true_iff in H as [? ?]; lia. Qed.
Lemma hexit_sep c : c = 58 \/ c = 45 -> hexit_value c = -1.
Proof. by intros [->| ->]. Qed.

(** What follows a group that was read completely *)
Definition ends (rest : list Z) : Prop := match rest with [] => True | c :: _ => hexit_value c < 0 end.
Lemma deref_ends rest : ends rest -> exists c, deref (Some rest) = Ret c /\ hexit_value c < 0.
Proof. destruct rest as [|c rest]; cbn; [by exists 0|eauto]. Qed.

Lemma octet_byte g o : spells_octet g o -> is_u8 o.
Proof. unfold in_width. intros [(c & _ & H & ->)|(c & d & _ & H1 & H2 & ->)]; pose proof hexit_range; [specialize (H0 c); lia|pose proof (H c); pose proof (H d); lia]. Qed.

(** One round of the loop on a group *)
Lemma octet_read k g o rest : spells_octet g o -> ends rest -> init_octets (S k) (Some (g ++ rest)) =
  (c ← deref (Some rest);
   if negb (Nat.eqb k 0) && negb (c =? 45) && negb (c =? 58) then Throw 0
   else '(os, str) ← init_octets k (if Nat.eqb k 0 then Some rest else step (Some rest)); Ret (o :: os, str)).
Proof.
  intros G E. pose proof (octet_byte g o G) as B. destruct G as [(c & -> & H & ->)|(c & d & -> & H1 & H2 & ->)].
  - cbn [init_octets app deref mbind res_bind step]. rewrite (proj2 (Z.ltb_ge _ _) H). destruct rest as [|x rest]; [done|]. cbn [mbind res_bind]. cbn in E.
    by rewrite (proj2 (Z.leb_gt _ _) E).
  - cbn [init_octets app deref mbind res_bind step]. rewrite (proj2 (Z.ltb_ge _ _) H1). cbn [mbind res_bind].
    rewrite (proj2 (Z.leb_le _ _) H2). cbn [mbind res_bind]. by rewrite (wrap_small 8 (hexit_value c * 16 + hexit_value d)).
Qed.

Lemma spells_nonempty s os : spells s os -> os <> [].
Proof. by destruct 1. Qed.

Lemma init_octets_complete s os : spells s os -> forall rest, ends rest -> init_octets (length os) (Some (s ++ rest)) = Ret (os, Some rest).
Proof.
  induction 1 as [g o G|g o c s os G C S IH]; intros rest E; cbn [length].
  - rewrite (octet_read 0 g o rest G E). destruct (deref_ends rest E) as (x & -> & _). done.
  - rewrite <- app_assoc. cbn [app]. rewrite (octet_read (length os) g o); [|done|cbn; rewrite hexit_sep by done; lia]. cbn [deref mbind res_bind step].
    assert (Nat.eqb (length os) 0 = false) as -> by (apply Nat.eqb_neq; intros L%length_zero_iff_nil; by apply spells_nonempty in S).
    cbn [negb andb]. assert (negb (c =? 45) && negb (c =? 58) = false) as -> by (by destruct C as [->| ->]). by rewrite IH.
Qed.

Lemma init_octets_sound k : forall s, init_octets (S k) (Some s) = Throw 0 \/
  exists t rest os, s = t ++ rest /\ init_octets (S k) (Some s) = Ret (os, Some rest) /\ spells t os /\ length os = S k.
Proof.
  induction k as [|k IH]; intros s.
  - destruct s as [|c s]; [by left|]. cbn. destruct (Z.ltb_spec (hexit_value c) 0) as [H|H]; [by left|]. destruct s as [|d s]; cbn.
    + right. exists [c], [], [hexit_value c]. split_and!; try done. constructor. left. eauto.
    + destruct (Z.leb_spec 0 (hexit_value d)) as [D|D]; right.
      * exists [c; d], s, [hexit_value c * 16 + hexit_value d].
        assert (spells_octet [c; d] (hexit_value c * 16 + hexit_value d)) as G by (right; eauto 6).
        split_and!; [done| |by constructor|done]. destruct s; cbn; by rewrite wrap_small by (by eapply octet_byte).
      * exists [c], (d :: s), [hexit_value c]. split_and!; try done. constructor. left. eauto.
  - (* the group, and what is left *)
    assert (init_octets (S (S k)) (Some s) = Throw 0 \/ exists g o rest, s = g ++ rest /\ spells_octet g o /\ ends rest) as [->|(g & o & rest & -> & G & E)].
    { destruct s as [|c s]; [by left|]. cbn [init_octets deref mbind res_bind]. destruct (Z.ltb_spec (hexit_value c) 0) as [H|H]; [by left|].
      destruct s as [|d s]; [by left|]. cbn [step deref mbind res_bind]. destruct (Z.leb_spec 0 (hexit_value d)) as [D|D].
      - cbn [mbind res_bind step]. destruct s as [|x s]; [by left|]. cbn [deref mbind res_bind].
        destruct (negb (Nat.eqb (S k) 0) && negb (x =? 45) && negb (x =? 58)) eqn:X; [by left|]. right. exists [c; d], (hexit_value c * 16 + hexit_value d), (x :: s).
        split_and!; [done|right; eauto 6|]. cbn. rewrite hexit_sep; [lia|]. cbn in X. destruct (Z.eqb_spec x 45); [by right|]. destruct (Z.eqb_spec x 58); [by left|done].
      - right. exists [c], (hexit_value c), (d :: s). split_and!; [done|left; eauto|]. cbn. lia. }
    { by left. }
    rewrite (octet_read (S k) g o rest G E). destruct rest as [|x rest]; [by left|]. cbn [deref mbind res_bind step Nat.eqb negb andb].
    destruct (negb (x =? 45) && negb (x =? 58)) eqn:X; [by left|].
    assert (x = 58 \/ x = 45) as C by (destruct (Z.eqb_spec x 45); [by right|]; destruct (Z.eqb_spec x 58); [by left|done]).
    destruct (IH rest) as [->|(t & rest' & os & -> & -> & S & L)]; [by left|]. right. exists (g ++ x :: t), rest', (o :: os).
    split_and!; [by rewrite <- app_assoc|done|by constructor|cbn; lia].
Qed.

Lemma init_from_string_spec s os : 0 ∉ s -> (init_from_string s = Ret (Ethernetaddr os) <-> spells s os /\ length os = LEN) /\
  (init_from_string s = Throw 0 \/ exists os, init_from_string s = Ret (Ethernetaddr os)).
Proof.
  intros N. unfold init_from_string. assert (spells s os -> length os = LEN -> init_octets LEN (Some s) = Ret (os, Some [])) as C.
  { intros S L. rewrite <- (app_nil_r s) at 1. rewrite <- L. by apply init_octets_complete. }
  destruct (init_octets_sound 5 s) as [E|(t & rest & os' & -> & E & S & L)]; fold LEN in E; rewrite E in C |- *; cbn [mbind res_bind].
  - split; [|by left]. split; [done|]. intros [S L]. by specialize (C S L).
  - assert (deref (Some rest) = Ret 0 <-> rest = []) as D.
    { destruct rest as [|c rest]; [done|]. cbn. split; [|done]. intros [= ->]. destruct N. apply elem_of_app. right. left. }
    destruct rest as [|c rest].
    + rewrite app_nil_r in *. cbn. split; [|by right; eauto]. split; [intros [= <-]; done|]. intros [S' L']. specialize (C S' L'). congruence.
    + cbn. destruct (Z.eqb_spec c 0) as [->|_]; [by destruct D as [D _]; specialize (D eq_refl)|]. cbn. split; [|by left]. split; [done|]. intros [S' L'].
      specialize (C S' L'). congruence.
Qed.

Lemma hex_char_value d : 0 <= d < 16 -> hexit_value (hex_char d) = d.
Proof. intros H. unfold hex_char, hexit_value. destruct (Z.ltb_spec d 10); repeat match goal with |- context [?a <=? ?b] => destruct (Z.leb_spec a b) end; cbn; lia. Qed.
Lemma hex2_spells o : is_u8 o -> spells_octet (hex2 o) o.
Proof.
  unfold in_width. change (2 ^ 8) with 256. intros H. right. pose proof (Z.div_mod o 16). pose proof (Z.mod_pos_bound o 16).
  assert (0 <= o `div` 16 < 16) by (split; [by apply Z.div_pos; lia|apply Z.div_lt_upper_bound; lia]).
  do 2 eexists. split; [reflexivity|]. rewrite !hex_char_value by lia. lia.
Qed.
Lemma string_spells os : is_bytes os -> os <> [] -> spells (separated 58 (map hex2 os)) os.
Proof.
  induction 1 as [|o os B F IH]; intros N; [done|]. destruct os as [|o' os]; [by apply spells_last, hex2_spells|].
  change (separated 58 (map hex2 (o :: o' :: os))) with (hex2 o ++ 58 :: separated 58 (map hex2 (o' :: os))). apply spells_cons; [by apply hex2_spells|by left|by apply IH].
Qed.
Lemma hex_char_positive d : 0 <= d < 16 -> hex_char d <> 0.
Proof. unfold hex_char. case_match; lia. Qed.
Lemma string_no_nul os : is_bytes os -> 0 ∉ separated 58 (map hex2 os).
Proof.
  induction 1 as [|o os B F IH]; [apply not_elem_of_nil|]. unfold in_width in B. change (2 ^ 8) with 256 in B.
  pose proof (Z.mod_pos_bound o 16). assert (0 <= o `div` 16 < 16) by (split; [by apply Z.div_pos; lia|apply Z.div_lt_upper_bound; lia]).
  assert (0 ∉ hex2 o) as Hn by (unfold hex2; rewrite !not_elem_of_cons; split_and!; [apply not_eq_sym, hex_char_positive; lia..|apply not_elem_of_nil]).
  destruct os as [|o' os]; [done|]. change (separated 58 (map hex2 (o :: o' :: os))) with (hex2 o ++ 58 :: separated 58 (map hex2 (o' :: os))).
  by rewrite not_elem_of_app, not_elem_of_cons.
Qed.



(** ** Byte order and bits *)

Lemma of_le_bit l n : is_bytes l -> 0 <= n -> Z.testbit (of_le l) n = Z.testbit (nth (Z.to_nat (n `div` 8)) l 0) (n `mod` 8).
Proof.
  intros B. revert n. induction B as [|b l Hb F IH]; intros n Hn; cbn [of_le].
  - rewrite Z.bits_0. destruct (Z.to_nat (n `div` 8)); by rewrite Z.bits_0.
  - unfold in_width in Hb. destruct (Z.lt_ge_cases n 8) as [L|L].
    + rewrite Z.div_small, Z.mod_small by lia. cbn [Z.to_nat nth]. rewrite <- (Z.mod_pow2_bits_low _ 8 n) by lia. f_equal.
      change (2 ^ 8) with 256 in *. rewrite Z.mul_comm, Z.mod_add by lia. by apply Z.mod_small.
    + assert (n = (n - 8) + 8) as E by lia. rewrite E at 1. rewrite <- Z.div_pow2_bits by lia. change (2 ^ 8) with 256 in *.
      rewrite Z.mul_comm, Z.div_add, Z.div_small, Z.add_0_l by lia. rewrite IH by lia.
      assert (n `div` 8 = (n - 8) `div` 8 + 1) as D by (rewrite E at 1; rewrite <- (Z.div_add (n - 8) 1 8) by lia; f_equal; lia).
      assert (n `mod` 8 = (n - 8) `mod` 8) as M by (rewrite E at 1; rewrite <- (Z.mod_add (n - 8) 1 8) by lia; f_equal; lia).
      rewrite D, M. rewrite Z2Nat.inj_add by (try lia; apply Z.div_pos; lia). rewrite Nat.add_1_r. done.
Qed.

Lemma htonl_bit x n : 0 <= n < 32 -> Z.testbit (htonl x) n = Z.testbit x (8 * (3 - n `div` 8) + n `mod` 8).
Proof.
  intros H. unfold htonl. rewrite of_le_bit; [|apply is_bytes_rev, to_le_bytes|lia]. pose proof (Z.mod_pos_bound n 8).
  assert (forall y m, 0 <= m < 8 -> Z.testbit (y `mod` 256) m = Z.testbit y m) as K by (intros y m Hm; apply (Z.mod_pow2_bits_low y 8 m); lia).
  assert (forall y m, 0 <= m -> Z.testbit (y `div` 256) m = Z.testbit y (m + 8)) as D by (intros y m Hm; apply (Z.div_pow2_bits y 8 m); lia).
  assert (n `div` 8 = 0 \/ n `div` 8 = 1 \/ n `div` 8 = 2 \/ n `div` 8 = 3) as C.
  { assert (0 <= n `div` 8) by (by apply Z.div_pos; lia). assert (n `div` 8 < 4) by (apply Z.div_lt_upper_bound; lia). lia. }
  destruct C as [E|[E|[E|E]]]; rewrite E; cbn [to_le rev app];
    [change (Z.to_nat 0) with 0%nat|change (Z.to_nat 1) with 1%nat|change (Z.to_nat 2) with 2%nat|change (Z.to_nat 3) with 3%nat];
    cbn [nth]; rewrite K, ?D by lia; f_equal; lia.
Qed.

Lemma bits_ext32 x y : is_u32 x -> is_u32 y -> (forall n, 0 <= n < 32 -> Z.testbit x n = Z.testbit y n) -> x = y.
Proof.
  unfold in_width. intros Hx Hy H. apply Z.bits_inj'. intros n Hn. destruct (Z.lt_ge_cases n 32) as [L|L]; [by apply H|].
  assert (forall z, 0 <= z < 2 ^ 32 -> Z.testbit z n = false) as K; [|by rewrite !K].
  intros z Hz. rewrite <- (Z.mod_small z (2 ^ 32)) by done. apply Z.mod_pow2_bits_high. lia.
Qed.

Lemma land_is_u32 x y : is_u32 x -> is_u32 (Z.land x y).
Proof.
  unfold in_width. intros Hx. rewrite <- (Z.mod_small x (2 ^ 32)) by done. rewrite <- Z.land_ones, <- Z.land_assoc, (Z.land_comm (Z.ones 32)), Z.land_assoc, Z.land_ones by lia.
  apply Z.mod_pos_bound. lia.
Qed.
Lemma lor_is_u32 x y : is_u32 x -> is_u32 y -> is_u32 (Z.lor x y).
Proof.
  unfold in_width. intros Hx Hy. assert (0 <= Z.lor x y) by (by apply Z.lor_nonneg; lia). split; [done|].
  rewrite <- (Z.mod_small x (2 ^ 32)), <- (Z.mod_small y (2 ^ 32)) by done. rewrite <- !Z.land_ones, <- Z.land_lor_distr_l, Z.land_ones by lia.
  apply Z.mod_pos_bound. lia.
Qed.

Lemma htonl_land x y : is_u32 x -> is_u32 y -> htonl (Z.land x y) = Z.land (htonl x) (htonl y).
Proof.
  intros X Y. apply bits_ext32; [apply htonl_range|apply land_is_u32, htonl_range|]. intros n Hn. by rewrite Z.land_spec, !htonl_bit, Z.land_spec by done.
Qed.
Lemma htonl_lor x y : is_u32 x -> is_u32 y -> htonl (Z.lor x y) = Z.lor (htonl x) (htonl y).
Proof.
  intros X Y. apply bits_ext32; [apply htonl_range|apply lor_is_u32; apply htonl_range|]. intros n Hn. by rewrite Z.lor_spec, !htonl_bit, Z.lor_spec by done.
Qed.
Lemma htonl_htonl x : is_u32 x -> htonl (htonl x) = x.
Proof. apply ntohl_htonl. Qed.
Lemma htonl_inj x y : is_u32 x -> is_u32 y -> htonl x = htonl y -> x = y.
Proof. intros X Y E. by rewrite <- (htonl_htonl x X), <- (htonl_htonl y Y), E. Qed.

(** ** Addresses as numbers *)

Definition host (a : ipaddr) : Z := ntohl (addr a).
Definition ip_ok (a : ipaddr) : Prop := is_u32 (addr a).

Lemma host_range a : is_u32 (host a).
Proof. apply htonl_range. Qed.
Lemma host_of_host x : is_u32 x -> host (Ip.of_host x) = x.
Proof. apply ntohl_htonl. Qed.
Lemma lnot_u32 x : is_u32 x -> is_u32 (u32 (Z.lnot x)) /\ htonl (u32 (Z.lnot x)) = u32 (Z.lnot (htonl x)).
Proof.
  intros X. assert (forall y, is_u32 (u32 y)) as U by (intros; by apply wrap_range). split; [done|].
  apply bits_ext32; [apply htonl_range|done|]. intros n Hn. pose proof (Z.mod_pos_bound n 8).
  assert (0 <= n `div` 8) by (by apply Z.div_pos; lia). assert (n `div` 8 < 4) by (apply Z.div_lt_upper_bound; lia).
  rewrite htonl_bit by done. unfold wrap. rewrite !Z.mod_pow2_bits_low, !Z.lnot_spec by lia. by rewrite htonl_bit.
Qed.

(** The operators act on addresses as on the numbers that their dotted form reads as. *)
Lemma ip_operators a b x : ip_ok a -> ip_ok b -> is_u32 x ->
  host (Ip.land a b) = Z.land (host a) (host b) /\ host (Ip.lor a b) = Z.lor (host a) (host b) /\ host (Ip.lnot a) = u32 (Z.lnot (host a)) /\
  host (Ip.land_host a x) = Z.land (host a) x /\
  host (Ip.incr a) = u32 (host a + 1) /\ host (Ip.decr a) = u32 (host a - 1) /\ (forall i, host (Ip.add a i) = u32 (host a + i)) /\
  (forall i, host (Ip.sub_int a i) = u32 (host a - i)) /\
  Ip.ltb a b = (host a <? host b) /\ Ip.leb a b = (host a <=? host b) /\ Ip.eqb a b = (host a =? host b).
Proof.
  unfold ip_ok, host. intros A B X. assert (forall y, is_u32 (u32 y)) as U by (intros; by apply wrap_range). destruct (lnot_u32 _ A) as [L1 L2].
  unfold Ip.land, Ip.lor, Ip.lnot, Ip.land_host, Ip.incr, Ip.decr, Ip.add, Ip.sub_int, Ip.of_host, Ip.ltb, Ip.leb, Ip.eqb, ntohl. cbn [addr].
  split_and!; try done.
  - rewrite (htonl_htonl (Z.land _ _)) by (by apply land_is_u32). by apply htonl_land.
  - rewrite (htonl_htonl (Z.lor _ _)) by (by apply lor_is_u32). by apply htonl_lor.
  - by rewrite (htonl_htonl (u32 _)) by done.
  - apply htonl_htonl, land_is_u32, htonl_range.
  - by apply htonl_htonl.
  - by apply htonl_htonl.
  - intros i. by apply htonl_htonl.
  - intros i. by apply htonl_htonl.
  - apply eq_iff_eq_true. rewrite !Z.eqb_eq. split; [by intros ->|by apply htonl_inj].
Qed.

(** ** Prefixes *)

Lemma host_mask len : 0 <= len <= 32 -> ntohl (Cidr_ops.mask_of len) = 2 ^ 32 - 2 ^ (32 - len) /\ is_u32 (Cidr_ops.mask_of len).
Proof.
  intros H. unfold Cidr_ops.mask_of. destruct (Z.eqb_spec len 0) as [->|N]; [split; [by vm_compute|unfold in_width; lia]|]. split; [|apply htonl_range].
  unfold ntohl. rewrite htonl_htonl by (by apply wrap_range). rewrite Z.shiftl_mul_pow2 by lia. change Cidr_ops.all_ones with (2 ^ 32 - 1).
  set (k := 32 - len). assert (0 <= k <= 31) as K by lia. assert (2 ^ 0 <= 2 ^ k <= 2 ^ 31) as P by (split; apply Z.pow_le_mono_r; lia).
  unfold wrap. replace ((2 ^ 32 - 1) * 2 ^ k) with ((2 ^ 32 - 2 ^ k) + (2 ^ k - 1) * 2 ^ 32) by lia.
  rewrite Z.mod_add by lia. apply Z.mod_small. lia.
Qed.

Lemma land_high v k : is_u32 v -> 0 <= k <= 32 -> Z.land v (2 ^ 32 - 2 ^ k) = (v `div` 2 ^ k) * 2 ^ k.
Proof.
  intros V K. replace (2 ^ 32 - 2 ^ k) with (Z.shiftl (Z.ones (32 - k)) k).
  2:{ rewrite Z.shiftl_mul_pow2, Z.ones_equiv by lia. replace (2 ^ 32) with (2 ^ (32 - k) * 2 ^ k) by (rewrite <- Z.pow_add_r by lia; f_equal; lia). lia. }
  rewrite <- Z.shiftl_mul_pow2, <- Z.shiftr_div_pow2 by lia. apply Z.bits_inj'. intros n Hn. rewrite Z.land_spec. destruct (Z.lt_ge_cases n k) as [L|L].
  - by rewrite !Z.shiftl_spec_low, andb_false_r by lia.
  - rewrite !Z.shiftl_spec, Z.shiftr_spec by lia. replace (n - k + k) with n by lia. destruct (Z.lt_ge_cases n 32) as [L'|L'].
    + by rewrite Z.ones_spec_low, andb_true_r by lia.
    + unfold in_width in V. rewrite <- (Z.mod_small v (2 ^ 32)) by done. by rewrite Z.mod_pow2_bits_high by lia.
Qed.

Lemma cidr_matches a b len : ip_ok a -> ip_ok b -> 0 <= len <= 32 ->
  Cidr_ops.matches (Cidr_ops.masked a (Cidr_ops.mask_of len)) b = (host a `div` 2 ^ (32 - len) =? host b `div` 2 ^ (32 - len)).
Proof.
  unfold ip_ok. intros A B L. destruct (host_mask len L) as [M U]. unfold Cidr_ops.matches, Cidr_ops.masked. cbn [addr base mask].
  pose proof (htonl_range (addr a)) as HA. pose proof (htonl_range (addr b)) as HB. assert (0 < 2 ^ (32 - len)) as P by (apply Z.pow_pos_nonneg; lia).
  apply eq_iff_eq_true. rewrite !Z.eqb_eq. unfold host, ntohl in *. split.
  - intros E. apply (f_equal htonl) in E. rewrite !htonl_land, M, !land_high in E by (done || lia). by apply Z.mul_cancel_r in E; [|lia].
  - intros E. apply htonl_inj; [by apply land_is_u32|by apply land_is_u32|]. rewrite !htonl_land, M, !land_high by (done || lia). by rewrite E.
Qed.

Lemma prefix_loop_ok fuel k n : 0 <= k <= 32 -> (Z.to_nat (32 - k) <= fuel)%nat -> Cidr_ops.prefix_loop fuel (2 ^ 32 - 2 ^ k) n = Ret (n + (32 - k)).
Proof.
  revert k n. induction fuel as [|fuel IH]; intros k n K F; cbn [Cidr_ops.prefix_loop].
  - assert (k = 32) as -> by lia. change (2 ^ 32 - 2 ^ 32 =? 0) with true. cbn. f_equal. lia.
  - destruct (Z.eqb_spec (2 ^ 32 - 2 ^ k) 0) as [E|E]; [assert (k = 32) as -> by (apply (Z.pow_inj_r 2); lia); f_equal; lia|].
    assert (k < 32) by (destruct (Z.eq_dec k 32) as [->|]; [done|lia]). assert (2 ^ 0 <= 2 ^ k <= 2 ^ 31) as P by (split; apply Z.pow_le_mono_r; lia).
    replace (u32 (Z.shiftl (2 ^ 32 - 2 ^ k) 1)) with (2 ^ 32 - 2 ^ (k + 1)).
    + rewrite IH by lia. f_equal. lia.
    + rewrite Z.shiftl_mul_pow2, Z.pow_add_r by lia. unfold wrap. replace ((2 ^ 32 - 2 ^ k) * 2 ^ 1) with ((2 ^ 32 - 2 ^ k * 2 ^ 1) + 1 * 2 ^ 32) by lia.
      rewrite Z.mod_add by lia. symmetry. apply Z.mod_small. lia.
Qed.

(** *** The text of a prefix *)

Lemma separated_no sep c gs : c <> sep -> Forall (fun g => c ∉ g) gs -> c ∉ separated sep gs.
Proof.
  intros N. induction 1 as [|g gs G F IH]; [apply not_elem_of_nil|]. destruct gs as [|g' gs]; [done|].
  change (separated sep (g :: g' :: gs)) with (g ++ sep :: separated sep (g' :: gs)). by rewrite not_elem_of_app, not_elem_of_cons.
Qed.
Lemma dec_no_slash n : 0 <= n < 1000 -> 47 ∉ Ip.dec n.
Proof.
  intros H. pose proof (Z.mod_pos_bound n 10). pose proof (Z.mod_pos_bound (n `div` 10) 10).
  assert (0 <= n `div` 10) by (by apply Z.div_pos; lia). assert (0 <= n `div` 100) by (by apply Z.div_pos; lia).
  unfold Ip.dec. repeat case_match; rewrite !not_elem_of_cons; split_and!; try lia; apply not_elem_of_nil.
Qed.
Lemma split_at_slash s r : 47 ∉ s -> Cidr_ops.split_slash (s ++ 47 :: r) = (s, Some r).
Proof.
  induction s as [|c s IH]; intros N; [done|]. apply not_elem_of_cons in N as [Nc N]. cbn. rewrite (proj2 (Z.eqb_neq c 47)) by congruence. by rewrite IH.
Qed.
Lemma set_mask_dec len : 0 <= len <= 32 -> Cidr_ops.set_mask (Ip.dec len) = Ret (Cidr_ops.mask_of len) /\ (length (Ip.dec len) < 4)%nat.
Proof.
  intros H. assert (forallb (fun l => match Cidr_ops.set_mask (Ip.dec l) with Ret m => m =? Cidr_ops.mask_of l | _ => false end && (length (Ip.dec l) <? 4)%nat) (map Z.of_nat (seq 0 33)) = true) as F
    by (vm_compute; reflexivity).
  rewrite forallb_forall in F. specialize (F len). destruct (Cidr_ops.set_mask (Ip.dec len)) as [m| | |]; cbn [andb] in F.
  1: destruct (proj1 (andb_true_iff _ _) (F ltac:(apply in_map_iff; exists (Z.to_nat len); rewrite in_seq; lia))) as [E%Z.eqb_eq L%Nat.ltb_lt]; by rewrite E.
  all: specialize (F ltac:(apply in_map_iff; exists (Z.to_nat len); rewrite in_seq; lia)); done.
Qed.

Section prefixes.
(** [gethostbyname] reads addresses in dotted form. *)
Context (gethostbyname : list Z -> option bytes).
Context (resolves_dotted : forall b, length b = 4%nat -> is_bytes b -> gethostbyname (separated 46 (map Ip.dec b)) = Some b).

Lemma ip_text a : ip_ok a -> Ip.of_string gethostbyname (Ip.string a) = Ret a.
Proof.
  intros A. unfold Ip.of_string, Ip.string. rewrite resolves_dotted; [|apply length_to_le|apply to_le_bytes]. rewrite length_to_le. cbn [Nat.eqb negb].
  rewrite of_le_to_le_id; [by destruct a|exact A].
Qed.

Lemma cidr_text a len : ip_ok a -> 0 <= len <= 32 -> let c := Cidr_ops.masked a (Cidr_ops.mask_of len) in
  exists s, Cidr_ops.string c = Ret s /\ Cidr_ops.of_string gethostbyname s = Ret c.
Proof.
  intros A L c. destruct (host_mask len L) as [M U]. destruct (set_mask_dec len L) as [SM SL]. unfold Cidr_ops.string, Cidr_ops.get_prefix_len.
  cbn [c mask Cidr_ops.masked]. rewrite M, prefix_loop_ok by lia. cbn [mbind res_bind]. replace (0 + (32 - (32 - len))) with len by lia.
  rewrite (proj2 (Z.leb_gt _ _)) by lia. eexists. split; [reflexivity|]. unfold Cidr_ops.of_string. rewrite split_at_slash.
  - assert (ip_ok (base c)) as B by (by apply land_is_u32). rewrite (ip_text (base c) B). cbn [mbind res_bind]. rewrite SM. cbn [mbind res_bind].
    unfold c, Cidr_ops.masked. cbn [addr base]. by rewrite <- Z.land_assoc, Z.land_diag.
  - apply separated_no; [lia|]. apply Forall_forall. intros g (o & -> & Ho)%list_elem_of_fmap. apply dec_no_slash.
    pose proof (to_le_bytes 4 (addr (base c))) as B. rewrite Forall_forall in B. specialize (B o Ho). unfold in_width in B. lia.
Qed.

(** A prefix made of an address and a length up to 32 matches exactly the addresses
    that agree with it in that many leading bits, [get_prefix_len] gives the length back,
    and its text is read as the same prefix; a longer length is refused. *)
Theorem cidr_prefixes (a b : ipaddr) (len : Z) : ip_ok a -> ip_ok b -> 0 <= len < 256 ->
  (32 < len -> Cidr_ops.of_len a len = Throw 0) /\
  (len <= 32 -> exists c s, Cidr_ops.of_len a len = Ret c /\
     Cidr_ops.matches c b = (host a `div` 2 ^ (32 - len) =? host b `div` 2 ^ (32 - len)) /\
     Cidr_ops.get_prefix_len c = Ret len /\
     Cidr_ops.string c = Ret s /\ Cidr_ops.of_string gethostbyname s = Ret c).
Proof.
  intros A B L. unfold Cidr_ops.of_len. split; intros H; [by rewrite (proj2 (Z.ltb_lt _ _) H)|]. rewrite (proj2 (Z.ltb_ge _ _) H).
  destruct (cidr_text a len A) as (s & S1 & S2); [lia|]. do 2 eexists. split_and!; [reflexivity|by apply cidr_matches; [done|done|lia]| |exact S1|exact S2].
  unfold Cidr_ops.get_prefix_len. destruct (host_mask len) as [M _]; [lia|]. cbn [mask Cidr_ops.masked]. rewrite M, prefix_loop_ok by lia. f_equal. lia.
Qed.

End prefixes.

(** A resolver that reads dotted numbers *)
Fixpoint demo_numbers (n : Z) (s : list Z) : bytes :=
  match s with [] => [n] | c :: s => if c =? 46 then n :: demo_numbers 0 s else demo_numbers (n * 10 + (c - 48)) s end.
Definition demo_resolver (s : list Z) : option bytes := Some (demo_numbers 0 s).
Lemma demo_digits n : 0 <= n < 256 -> forall k s, demo_numbers k (Ip.dec n ++ s) = demo_numbers (if n <? 10 then k * 10 + n else if n <? 100 then k * 100 + n else k * 1000 + n) s.
Proof.
  intros H k s. pose proof (Z.div_mod n 10). pose proof (Z.mod_pos_bound n 10). pose proof (Z.div_mod (n `div` 10) 10). pose proof (Z.mod_pos_bound (n `div` 10) 10).
  assert ((n `div` 10) `div` 10 = n `div` 100) as D by (rewrite Z.div_div by lia; f_equal; lia).
  assert (0 <= n `div` 10) by (by apply Z.div_pos; lia). assert (0 <= n `div` 100) by (by apply Z.div_pos; lia).
  unfold Ip.dec. destruct (n <? 10) eqn:E1; [|destruct (n <? 100) eqn:E2]; cbn [app demo_numbers]; repeat (rewrite (proj2 (Z.eqb_neq _ 46)) by lia); f_equal; lia.
Qed.
Lemma demo_resolves b : length b = 4%nat -> is_bytes b -> demo_resolver (separated 46 (map Ip.dec b)) = Some b.
Proof.
  intros L B. unfold demo_resolver. f_equal. assert (b <> []) as N by (by intros ->). clear L. induction B as [|o b Ho B IH]; [done|]. unfold in_width in Ho. change (2 ^ 8) with 256 in Ho.
  destruct b as [|o' b].
  - cbn [map separated]. rewrite <- (app_nil_r (Ip.dec o)), demo_digits by done. cbn. repeat case_match; f_equal; lia.
  - change (separated 46 (map Ip.dec (o :: o' :: b))) with (Ip.dec o ++ 46 :: separated 46 (map Ip.dec (o' :: b))). rewrite demo_digits by done. cbn [demo_numbers Z.eqb Pos.eqb].
    rewrite IH by done. repeat case_match; f_equal; lia.
Qed.

Lemma cidr_prefixes_witness : exists c, Cidr_ops.of_len (Ip.of_host 0x0a0b0c0d) 12 = Ret c /\ Cidr_ops.get_prefix_len c = Ret 12 /\
  Cidr_ops.of_string demo_resolver [49; 48; 46; 48; 46; 48; 46; 48; 47; 49; 50] = Ret c.
Proof.
  destruct (cidr_prefixes demo_resolver demo_resolves (Ip.of_host 0x0a0b0c0d) (Ip.of_host 0x0a0fffff) 12) as [_ H]; [apply htonl_range|apply htonl_range|lia|].
  destruct H as (c & s & C & _ & P & S & R); [lia|]. exists c. split_and!; [exact C|exact P|]. rewrite <- R. f_equal. vm_compute in C. injection C as <-. vm_compute in S. by injection S as <-.
Defined.

(** *** Private and multicast addresses *)

Definition prefix (x len : Z) : cidr_ipaddr := Cidr_ops.masked (Ip.of_host x) (Cidr_ops.mask_of len).

Lemma in_block v x k : 0 <= k -> 0 <= v -> (x * 2 ^ k <=? v) && (v <=? x * 2 ^ k + (2 ^ k - 1)) = (x =? v `div` 2 ^ k).
Proof.
  intros K V. assert (0 < 2 ^ k) by (by apply Z.pow_pos_nonneg; lia). apply eq_iff_eq_true. rewrite andb_true_iff, !Z.leb_le, Z.eqb_eq. split.
  - intros [H1 H2]. apply (Z.div_unique v (2 ^ k) x (v - x * 2 ^ k)); lia.
  - intros ->. pose proof (Z.div_mod v (2 ^ k)). pose proof (Z.mod_pos_bound v (2 ^ k)). lia.
Qed.

(** [isMulticast] is 224.0.0.0/4; [isPrivate] is 16.0.0.0/8 (not 10.0.0.0/8), 172.16.0.0/12
    and 192.168.0.0/14 (not /16). *)
Lemma ip_classes a : ip_ok a ->
  Ip.is_multicast a = Cidr_ops.matches (prefix 0xE0000000 4) a /\
  Ip.is_private a = Cidr_ops.matches (prefix 0x10000000 8) a || Cidr_ops.matches (prefix 0xAC100000 12) a || Cidr_ops.matches (prefix 0xC0A80000 14) a.
Proof.
  intros A. pose proof (host_range a) as [V _]. unfold prefix. rewrite !cidr_matches by (lia || done || apply htonl_range). rewrite !host_of_host by (unfold in_width; lia).
  unfold Ip.is_multicast, Ip.is_private. fold (host a).
  rewrite <- (in_block (host a) (0xE0000000 `div` 2 ^ (32 - 4)) (32 - 4)), <- (in_block (host a) (0x10000000 `div` 2 ^ (32 - 8)) (32 - 8)),
    <- (in_block (host a) (0xAC100000 `div` 2 ^ (32 - 12)) (32 - 12)), <- (in_block (host a) (0xC0A80000 `div` 2 ^ (32 - 14)) (32 - 14)) by lia.
  done.
Qed.
Lemma private_is_wrong : Ip.is_private (Ip.of_host 0x0a000001) = false /\ Ip.is_private (Ip.of_host 0x10000001) = true /\ Ip.is_private (Ip.of_host 0xC0A90001) = true.
Proof. vm_compute. auto. Qed.

(** A mask of more digits than an [int] has is not refused but undefined. *)
Lemma long_mask_undefined : Cidr_ops.of_string demo_resolver ([49; 46; 50; 46; 51; 46; 52; 47] ++ [52; 50; 57; 52; 57; 54; 55; 50; 57; 55]) = Aborted.
Proof. vm_compute. reflexivity. Qed.

(** ** Datapath identifiers *)

Lemma dpid_bytes b : length b = 6%nat -> is_bytes b -> Dpid.from_bytes b = of_be b /\ (forall id, is_u64 id -> Dpid.from_net (Dpid.as_net id) = id).
Proof.
  intros L B. split; [|intros id H; by apply ntohll_htonll]. unfold Dpid.from_bytes, Dpid.from_net. rewrite (take_ge b 6) by lia.
  assert (store 2 b (replicate 8 0) = [0; 0] ++ b) as -> by (unfold store; rewrite L; cbn [replicate take drop Nat.add]; by rewrite app_nil_r).
  rewrite ntohll_be; [|cbn; lia|by repeat constructor]. unfold of_be. cbn [app rev]. rewrite <- app_assoc. cbn [app]. rewrite of_le_app. cbn. lia.
Qed.
