(* ===== verification/NetworkState.v ===== *)
(** * Network state applications: known datapaths, link load and round-trip times
    (nox/netapps/networkstate)

    The hash map of datapaths is iterated over by the two probing components, which
    keep an iterator between events: its elements are nodes with addresses, in some
    order.  Times are in microseconds. *)

From S2P Require Import Prelude Bytes Buffer Ethernetaddr Flow FlowSpec Addresses.

Open Scope Z_scope.

(** ** Known datapaths ([datapathmem]) *)

(** [Port], with what is used of it *)
Record port := Port { port_no : Z; speed : Z }.
(** A node of [dp_events] *)
Record node := Node { address : Z; dpid : Z; ports : list port }.

Definition OFPPR_ADD : Z := 0.
Definition OFPPR_DELETE : Z := 1.
Definition OFPPR_MODIFY : Z := 2.

Definition find_dp (dp : Z) (m : list node) : option node := find (fun n => dpid n =? dp) m.
Definition set_ports (dp : Z) (ps : list port) (m : list node) : list node :=
  map (fun n => if dpid n =? dp then Node (address n) (dpid n) ps else n) m.

(** [handle_dp_join]; a new node is at [a], before the node at [position]. *)
Definition handle_dp_join (a : Z) (position : nat) (dp : Z) (ps : list port) (m : list node) : list node :=
  match find_dp dp m with
  | Some _ => m
  | None => take position m ++ Node a dp ps :: drop position m
  end.

Definition handle_dp_leave (dp : Z) (m : list node) : list node := remove_first (fun n => dpid n =? dp) m.

(** The loops of [handle_port_event]: they do not look for the end of the vector. *)
Fixpoint erase_port (no : Z) (ps : list port) : res (list port) :=
  match ps with
  | [] => Aborted
  | p :: ps => if port_no p =? no then Ret ps else ps ← erase_port no ps; Ret (p :: ps)
  end.
Fixpoint replace_port (q : port) (ps : list port) : res (list port) :=
  match ps with
  | [] => Aborted
  | p :: ps => if port_no p =? port_no q then Ret (q :: ps) else ps ← replace_port q ps; Ret (p :: ps)
  end.
Definition handle_port_event (dp reason : Z) (p : port) (m : list node) : res (list node) :=
  match find_dp dp m with
  | None => Ret m
  | Some n =>
      if reason =? OFPPR_ADD then Ret (set_ports dp (ports n ++ [p]) m)
      else if reason =? OFPPR_DELETE then ps ← erase_port (port_no p) (ports n); Ret (set_ports dp ps m)
      else if reason =? OFPPR_MODIFY then ps ← replace_port p (ports n); Ret (set_ports dp ps m)
      else Ret m
  end.

(** [get_link_speed] does not look for [end()]. *)
Definition get_link_speed (dp no : Z) (m : list node) : res Z :=
  match find_dp dp m with
  | None => Aborted
  | Some n => Ret (match find (fun p => port_no p =? no) (ports n) with Some p => speed p | None => 0 end)
  end.

(** ** Probing in turn

    [linkload::stat_probe] and [switchrtt::periodic_probe] share this; the iterator is
    [None] at the end. *)
Abbreviation iterator := (option Z) (only parsing).
Fixpoint after (a : Z) (m : list node) : iterator :=
  match m with [] => None | n :: m => if address n =? a then address <$> head m else after a m end.
(** The datapath that is probed, and the iterator afterwards *)
Definition probe (dpi : iterator) (m : list node) : res (option Z * iterator) :=
  match m with
  | [] => Ret (None, dpi)
  | first :: _ =>
      let a := match dpi with None => address first | Some a => a end in
      match find (fun n => address n =? a) m with
      | None => Aborted
      | Some n => Ret (Some (dpid n), after a m)
      end
  end.
(** [get_next_time], in seconds *)
Definition get_next_time (interval : Z) (m : list node) : Z :=
  let t := match m with [] => interval | _ => Z.quot interval (Z.of_nat (length m)) end in if t =? 0 then 1 else t.

(** ** Link load ([linkload]) *)

Record port_stats := Stats { stats_port : Z; tx_bytes : Z; rx_bytes : Z }.
Record load := Load { txLoad : Z; rxLoad : Z; interval : Z }.
Record linkload := Linkload { statmap : gmap (Z * Z) port_stats; loadmap : gmap (Z * Z) load; load_interval : Z }.

Definition updateLoad (dp no : Z) (old new : port_stats) (s : linkload) : linkload :=
  Linkload (statmap s) (<[(dp, no) := Load (u64 (tx_bytes new - tx_bytes old)) (u64 (rx_bytes new - rx_bytes old)) (load_interval s)]> (loadmap s)) (load_interval s).
Definition one_port (dp : Z) (st : port_stats) (s : linkload) : linkload :=
  let s := match statmap s !! (dp, stats_port st) with Some old => updateLoad dp (stats_port st) old st s | None => s end in
  Linkload (<[(dp, stats_port st) := st]> (statmap s)) (loadmap s) (load_interval s).
Definition handle_port_stats (dp : Z) (sts : list port_stats) (s : linkload) : linkload := foldl (fun s st => one_port dp st s) s sts.
Definition load_port_event (dp reason no : Z) (s : linkload) : linkload :=
  if reason =? OFPPR_DELETE then Linkload (delete (dp, no) (statmap s)) (delete (dp, no) (loadmap s)) (load_interval s) else s.
Definition load_dp_leave (dp : Z) (s : linkload) : linkload :=
  Linkload (filter (fun kv => kv.1.1 <> dp) (statmap s)) (filter (fun kv => kv.1.1 <> dp) (loadmap s)) (load_interval s).
Definition get_link_load (dp no : Z) (s : linkload) : load := match loadmap s !! (dp, no) with Some l => l | None => Load 0 0 0 end.

(** ** Round-trip times ([switchrtt])

    All echo requests are the same message, with the transaction id of the
    constructor: [xid] of the state. *)
Record switchrtt := Switchrtt { echoSent : gmap Z (Z * Z); rtt : gmap Z Z; xid : Z }.

(** [insert] keeps an entry that is there. *)
Definition rtt_probe (dp now : Z) (s : switchrtt) : switchrtt :=
  Switchrtt (match echoSent s !! dp with Some _ => echoSent s | None => <[dp := (xid s, now)]> (echoSent s) end) (rtt s) (xid s).
Definition handle_echo_reply (dp reply_xid now : Z) (s : switchrtt) : switchrtt :=
  match echoSent s !! dp with
  | None => s
  | Some (x, sent) => if negb (reply_xid =? x) then s else Switchrtt (delete dp (echoSent s)) (<[dp := now - sent]> (rtt s)) (xid s)
  end.
Definition rtt_dp_leave (dp : Z) (s : switchrtt) : switchrtt := Switchrtt (delete dp (echoSent s)) (delete dp (rtt s)) (xid s).

(** ** Loads are differences *)

Inductive load_event := Port_stats_in (dp : Z) (sts : list port_stats) | Port_status (dp reason no : Z) | Dp_leave (dp : Z).
Definition load_handle (s : linkload) (e : load_event) : linkload :=
  match e with
  | Port_stats_in dp sts => handle_port_stats dp sts s
  | Port_status dp reason no => load_port_event dp reason no s
  | Dp_leave dp => load_dp_leave dp s
  end.

(** The statistics of a port since it was deleted or its datapath left, latest first *)
Definition seen_stats (k : Z * Z) (seen : list port_stats) (dp : Z) (sts : list port_stats) : list port_stats :=
  foldl (fun seen st => if decide ((dp, stats_port st) = k) then st :: seen else seen) seen sts.
Definition seen_event (k : Z * Z) (seen : list port_stats) (e : load_event) : list port_stats :=
  match e with
  | Port_stats_in dp sts => seen_stats k seen dp sts
  | Port_status dp reason no => if decide (reason = OFPPR_DELETE /\ (dp, no) = k) then [] else seen
  | Dp_leave dp => if decide (dp = k.1) then [] else seen
  end.
Definition seen_of (h : list load_event) (k : Z * Z) : list port_stats := foldl (seen_event k) [] h.

Definition difference (t : Z) (seen : list port_stats) : option load :=
  match seen with
  | new :: old :: _ => Some (Load (u64 (tx_bytes new - tx_bytes old)) (u64 (rx_bytes new - rx_bytes old)) t)
  | _ => None
  end.
Definition tracks (s : linkload) (k : Z * Z) (seen : list port_stats) : Prop :=
  statmap s !! k = head seen /\ loadmap s !! k = difference (load_interval s) seen.

Lemma one_port_tracks dp st s k seen : tracks s k seen -> tracks (one_port dp st s) k (if decide ((dp, stats_port st) = k) then st :: seen else seen) /\
  load_interval (one_port dp st s) = load_interval s.
Proof.
  intros [S L]. unfold one_port, tracks. destruct (decide ((dp, stats_port st) = k)) as [<-|N].
  - destruct (statmap s !! (dp, stats_port st)) as [old|] eqn:E; cbn; rewrite !lookup_insert_eq; (split; [|done]); (split; [done|]).
    + destruct seen as [|o seen]; [by rewrite S in E|]. cbn in *. congruence.
    + destruct seen as [|o seen]; [|by rewrite S in E]. done.
  - destruct (statmap s !! (dp, stats_port st)); cbn; rewrite ?lookup_insert_ne by done; done.
Qed.

Lemma load_handle_tracks e s k seen : tracks s k seen -> tracks (load_handle s e) k (seen_event k seen e) /\ load_interval (load_handle s e) = load_interval s.
Proof.
  intros T. destruct e as [dp sts|dp reason no|dp]; cbn.
  - unfold handle_port_stats, seen_stats. revert s seen T. induction sts as [|st sts IH]; intros s seen T; [done|]. cbn.
    destruct (one_port_tracks dp st s k seen T) as [T' I]. destruct (IH _ _ T') as [T2 I2]. split; [done|congruence].
  - destruct T as [S L]. unfold load_port_event. destruct (Z.eqb_spec reason OFPPR_DELETE) as [->|N].
    + unfold tracks. cbn. destruct (decide ((dp, no) = k)) as [<-|N].
      * rewrite decide_True by done. by rewrite !lookup_delete_eq.
      * rewrite decide_False by tauto. by rewrite !lookup_delete_ne.
    + rewrite decide_False by tauto. by split.
  - destruct T as [S L]. unfold load_dp_leave, tracks. cbn. split; [|done]. destruct (decide (dp = k.1)) as [->|N].
    + split; apply map_lookup_filter_None; right; intros ? _ H; by apply H.
    + split; [destruct (head seen) as [x|] eqn:E|destruct (difference (load_interval s) seen) as [x|] eqn:E].
      * by apply map_lookup_filter_Some.
      * apply map_lookup_filter_None. by left.
      * by apply map_lookup_filter_Some.
      * apply map_lookup_filter_None. by left.
Qed.

Definition new_linkload (t : Z) : linkload := Linkload ∅ ∅ t.

(** After any port statistics, port changes and departures, in any order and with any
    number of ports per message, the load of every port is the difference, modulo
    2^64, of the last two statistics that arrived for it since it was last deleted or
    its datapath left, and there is none before the second. *)
Theorem loads_are_differences (t : Z) (h : list load_event) (dp no : Z) :
  get_link_load dp no (foldl load_handle (new_linkload t) h) =
  match seen_of h (dp, no) with
  | new :: old :: _ => Load (u64 (tx_bytes new - tx_bytes old)) (u64 (rx_bytes new - rx_bytes old)) t
  | _ => Load 0 0 0
  end.
Proof.
  assert (forall s seen, load_interval s = t -> tracks s (dp, no) seen -> loadmap (foldl load_handle s h) !! (dp, no) = difference t (foldl (seen_event (dp, no)) seen h)) as K.
  { induction h as [|e h IH]; intros s seen I T; [by rewrite <- I; apply T|]. cbn [foldl]. destruct (load_handle_tracks e s (dp, no) seen T) as [T' I']. apply IH; [congruence|done]. }
  unfold get_link_load. rewrite (K _ []); [|done|done]. unfold seen_of, difference. by destruct (foldl _ [] h) as [|? [|? ?]].
Qed.

Definition stats_sample : list load_event :=
  [Port_stats_in 1 [Stats 1 100 10; Stats 2 7 7]; Port_stats_in 1 [Stats 1 250 15]; Port_status 1 OFPPR_DELETE 2; Port_stats_in 1 [Stats 2 1 1; Stats 1 50 20]].
Lemma loads_sample : get_link_load 1 1 (foldl load_handle (new_linkload 60) stats_sample) = Load (2 ^ 64 - 200) 5 60 /\
  get_link_load 1 2 (foldl load_handle (new_linkload 60) stats_sample) = Load 0 0 0.
Proof. vm_compute. auto. Qed.

(** ** Probes go round *)

Lemma find_address m i n : NoDup (address <$> m) -> m !! i = Some n ->
  find (fun x => address x =? address n) m = Some n /\ after (address n) m = address <$> m !! S i.
Proof.
  revert i. induction m as [|x m IH]; intros i ND H; [done|]. cbn in ND. apply NoDup_cons in ND as [Nx ND]. destruct i as [|i].
  - injection H as ->. cbn. rewrite Z.eqb_refl. by destruct m.
  - cbn in H. cbn. assert (address x <> address n) as N. { intros E. apply Nx. rewrite E. apply list_elem_of_fmap. exists n. split; [done|]. by eapply list_elem_of_lookup_2. }
    rewrite (proj2 (Z.eqb_neq _ _) N). by apply IH.
Qed.

(** At the node at position [i], or at the end for the first one *)
Lemma probe_at dpi m i n : NoDup (address <$> m) -> m !! i = Some n -> dpi = Some (address n) \/ (dpi = None /\ i = 0%nat) ->
  probe dpi m = Ret (Some (dpid n), address <$> m !! S i).
Proof.
  intros ND H D. destruct (find_address m i n ND H) as [F A]. unfold probe. destruct m as [|x m]; [done|].
  assert (match dpi with None => address x | Some a => a end = address n) as ->.
  { destruct D as [->|[-> ->]]; [done|]. by injection H as ->. }
  by rewrite F, A.
Qed.

Fixpoint probes (k : nat) (dpi : iterator) (m : list node) : res (list (option Z) * iterator) :=
  match k with
  | O => Ret ([], dpi)
  | S k => '(dp, dpi) ← probe dpi m; '(dps, dpi) ← probes k dpi m; Ret (dp :: dps, dpi)
  end.

Lemma probes_from m i : NoDup (address <$> m) -> (i < length m)%nat -> forall dpi, (dpi = address <$> m !! i \/ (dpi = None /\ i = 0%nat)) ->
  probes (length m - i) dpi m = Ret (Some <$> (dpid <$> drop i m), None).
Proof.
  intros ND. remember (length m - i)%nat as k eqn:K. revert i K. induction k as [|k IH]; intros i K Hi dpi D; [lia|]. destruct (lookup_lt_is_Some_2 m i Hi) as [n N].
  cbn [probes]. rewrite (probe_at dpi m i n ND N) by (rewrite N in D; exact D). cbn [mbind res_bind]. rewrite (drop_S m n i N). destruct (decide (S i < length m)%nat) as [L|L].
  - rewrite (IH (S i)) by (try lia; by left). done.
  - assert (k = 0%nat) as -> by lia. cbn. rewrite (lookup_ge_None_2 m (S i)), drop_ge by lia. done.
Qed.

(** As long as no datapath joins or leaves, one round of probes reaches every
    datapath once, and leaves the iterator at the end again. *)
Lemma probes_go_round m : NoDup (address <$> m) -> m <> [] -> probes (length m) None m = Ret (Some <$> (dpid <$> m), None).
Proof.
  intros ND N. pose proof (probes_from m 0 ND) as P. rewrite Nat.sub_0_r, drop_0 in P. apply P; [destruct m; [done|cbn; lia]|by right].
Qed.

(** The iterator is good as long as its node is there: joins keep it, and so do
    departures of other datapaths. *)
Lemma probe_survives dpi m : NoDup (address <$> m) -> m <> [] -> (forall a, dpi = Some a -> a ∈ address <$> m) ->
  exists n dpi', n ∈ m /\ probe dpi m = Ret (Some (dpid n), dpi') /\ (forall a, dpi' = Some a -> a ∈ address <$> m) /\
  (forall b i dp ps a, dpi' = Some a -> a ∈ address <$> handle_dp_join b i dp ps m) /\
  (forall dp a, dpi' = Some a -> (forall x, x ∈ m -> address x = a -> dpid x <> dp) -> a ∈ address <$> handle_dp_leave dp m).
Proof.
  intros ND N V. assert (exists i n, m !! i = Some n /\ (dpi = Some (address n) \/ (dpi = None /\ i = 0%nat))) as (i & n & Hn & D).
  { destruct dpi as [a|]; [|destruct m as [|n m]; [done|]; exists 0%nat, n; split; [done|by right]].
    destruct (proj1 (list_elem_of_fmap _ _ _) (V a eq_refl)) as (n & -> & H). apply list_elem_of_lookup in H as [i H]. exists i, n. split; [done|by left]. }
  exists n, (address <$> m !! S i). assert (forall a, address <$> m !! S i = Some a -> exists x, x ∈ m /\ address x = a) as I.
  { intros a. destruct (m !! S i) as [x|] eqn:E; [|done]. intros [= <-]. exists x. split; [by eapply list_elem_of_lookup_2|done]. }
  split_and!; [by eapply list_elem_of_lookup_2|by eapply probe_at|..].
  - intros a H. destruct (I a H) as (x & Hx & <-). by apply list_elem_of_fmap_2.
  - intros b j dp ps a H. destruct (I a H) as (x & Hx & <-). apply list_elem_of_fmap_2. unfold handle_dp_join. destruct (find_dp dp m); [done|].
    rewrite <- (take_drop j m) in Hx. rewrite elem_of_app, elem_of_cons. apply elem_of_app in Hx as [|]; auto.
  - intros dp a H O. destruct (I a H) as (x & Hx & <-). specialize (O x Hx eq_refl). apply list_elem_of_fmap_2. unfold handle_dp_leave. clear -Hx O.
    induction m as [|y m IH]; [done|]. cbn. destruct (Z.eqb_spec (dpid y) dp) as [E|E].
    + apply elem_of_cons in Hx as [->|]; [done|done].
    + apply elem_of_cons in Hx as [->|Hx]; [left|right; by apply IH].
Qed.

(** A departure of the datapath that is to be probed next leaves the iterator at a node
    that was freed: the next probe uses it. *)
Lemma departure_dangles m n : NoDup (address <$> m) -> n ∈ m -> (forall x, x ∈ m -> dpid x = dpid n -> x = n) -> handle_dp_leave (dpid n) m <> [] ->
  probe (Some (address n)) (handle_dp_leave (dpid n) m) = Aborted.
Proof.
  intros ND Hn U R. unfold probe. destruct (handle_dp_leave (dpid n) m) as [|x m'] eqn:E; [done|]. rewrite <- E. clear R.
  destruct (find (fun y => address y =? address n) (handle_dp_leave (dpid n) m)) as [y|] eqn:F; [|done]. apply find_some in F as [Hy Ay%Z.eqb_eq]. exfalso. clear E.
  apply list_elem_of_In in Hy. unfold handle_dp_leave in Hy. induction m as [|z m IH]; [by apply elem_of_nil in Hn|]. cbn in ND, Hy. apply NoDup_cons in ND as [Nz ND].
  destruct (Z.eqb_spec (dpid z) (dpid n)) as [D|D].
  - assert (z = n) as -> by (apply U; [left|done]). apply Nz. rewrite <- Ay. by apply list_elem_of_fmap_2.
  - apply elem_of_cons in Hn as [->|Hn]; [done|]. apply elem_of_cons in Hy as [->|Hy].
    + apply Nz. rewrite Ay. by apply list_elem_of_fmap_2.
    + apply IH; [done|done|intros w Hw; apply U; by right|done].
Qed.

(** ** Round-trip times *)

Inductive rtt_event := Probe (dp now : Z) | Reply (dp reply_xid now : Z) | Leave (dp : Z).
Definition rtt_handle (s : switchrtt) (e : rtt_event) : switchrtt :=
  match e with Probe dp now => rtt_probe dp now s | Reply dp x now => handle_echo_reply dp x now s | Leave dp => rtt_dp_leave dp s end.
(** Not a reply or a departure of [dp] *)
Definition no_answer (dp : Z) (e : rtt_event) : bool := match e with Probe _ _ => true | Reply d _ _ | Leave d => negb (d =? dp) end.

Lemma outstanding_kept dp x e s : echoSent s !! dp = Some x -> no_answer dp e = true -> echoSent (rtt_handle s e) !! dp = Some x.
Proof.
  intros E N. destruct e as [d now|d y now|d]; cbn in N |- *; [|apply negb_true_iff, Z.eqb_neq in N..].
  - destruct (decide (d = dp)) as [->|D]; [by rewrite E|]. destruct (echoSent s !! d); [done|]. by rewrite lookup_insert_ne.
  - unfold handle_echo_reply. destruct (echoSent s !! d) as [[? ?]|]; [|done]. destruct (negb (y =? _)); [done|]. cbn. by rewrite lookup_delete_ne.
  - by rewrite lookup_delete_ne.
Qed.

(** The time that an answer gives is counted from the first request since the last answer.
    When an answer is lost, the next one is measured from the request that was lost,
    however many requests were sent in between. *)
Lemma rtt_from_first s dp t h now : echoSent s !! dp = None -> forallb (no_answer dp) h = true ->
  rtt (foldl rtt_handle s (Probe dp t :: h ++ [Reply dp (xid s) now])) !! dp = Some (now - t).
Proof.
  intros E H. cbn [foldl]. rewrite foldl_app. cbn [foldl].
  assert (echoSent (rtt_handle s (Probe dp t)) !! dp = Some (xid s, t)) as P by (cbn; by rewrite E, lookup_insert_eq).
  revert P. generalize (rtt_handle s (Probe dp t)) as s1. generalize (xid s) as y. clear E. intros y. induction h as [|e h IH]; intros s1 P; cbn [foldl].
  - cbn. unfold handle_echo_reply. rewrite P, Z.eqb_refl. cbn. by rewrite lookup_insert_eq.
  - cbn in H. apply andb_true_iff in H as [H1 H2]. apply IH; [done|]. by apply outstanding_kept.
Qed.

(** ** Addresses of hosts ([hostip]) *)

Module Hostip.

Abbreviation ip_map := (gmap Z ethernetaddr) (only parsing).

Definition get_mac (ip : Z) (m : ip_map) : ethernetaddr := match m !! ip with Some a => a | None => zero_addr end.

(** [handle_pkt_in] for a packet of flow [f]; [after] are the two bytes that
    [is_broadcast] reads behind the address. *)
Definition handle_flow (after : bytes) (f : flow) (m : ip_map) : ip_map :=
  if (dl_type f =? htons ETH_TYPE_IP) && negb (is_multicast (dl_src f)) && negb (is_broadcast after (dl_src f)) &&
     negb (Ip.is_multicast (Ip.of_host (nw_src f)))
  then <[nw_src f := dl_src f]> m else m.
Definition handle_pkt_in (after : bytes) (in_port : Z) (b : buffer) (m : ip_map) : res ip_map :=
  f ← flow_of_packet (htons in_port) b 0; Ret (handle_flow after f m).

(** The address of a flow is in network order already, and is turned around once more:
    the test looks at its last octet. *)
Lemma tests_last_octet f : is_u32 (nw_src f) -> Ip.is_multicast (Ip.of_host (nw_src f)) = (14 =? nth 3 (to_le 4 (nw_src f)) 0 `div` 16).
Proof.
  intros H. unfold Ip.is_multicast, Ip.of_host, ntohl. cbn [addr]. rewrite htonl_htonl by done. unfold in_width in H.
  assert (0xE0000000 = 14 * 2 ^ 28) as -> by reflexivity. assert (0xEFFFFFFF = 14 * 2 ^ 28 + (2 ^ 28 - 1)) as -> by reflexivity.
  rewrite in_block by lia. cbn [to_le nth]. f_equal. rewrite !Z.div_div by lia. change (256 * 256 * 256) with (2 ^ 24).
  rewrite (Z.mod_small (nw_src f `div` 2 ^ 24)) by (split; [apply Z.div_pos; lia|apply Z.div_lt_upper_bound; lia]). by rewrite Z.div_div by lia.
Qed.

(** Of the IP packets of unicast senders the map keeps the latest sender of every address
    whose last octet is not 224 to 239. *)
Definition recorded (after : bytes) (f : flow) : bool :=
  (dl_type f =? htons ETH_TYPE_IP) && negb (is_multicast (dl_src f)) && negb (is_broadcast after (dl_src f)) && negb (14 =? nth 3 (to_le 4 (nw_src f)) 0 `div` 16).
Fixpoint last_sender (after : bytes) (ip : Z) (fs : list flow) : option ethernetaddr :=
  match fs with
  | [] => None
  | f :: fs => match last_sender after ip fs with Some a => Some a | None => if recorded after f && (nw_src f =? ip) then Some (dl_src f) else None end
  end.
Lemma hostip_keeps_last after fs ip : Forall flow_ok fs -> get_mac ip (foldl (fun m f => handle_flow after f m) ∅ fs) = default zero_addr (last_sender after ip fs).
Proof.
  intros F. assert (forall m, foldl (fun m f => handle_flow after f m) m fs !! ip = match last_sender after ip fs with Some a => Some a | None => m !! ip end) as K.
  { induction F as [|f fs Hf F IH]; intros m; [done|]. cbn. rewrite IH. destruct (last_sender after ip fs); [done|].
    unfold handle_flow, recorded. rewrite tests_last_octet by apply Hf. destruct (_ && negb (14 =? _)); [|done].
    destruct (Z.eqb_spec (nw_src f) ip) as [<-|N]; [by rewrite lookup_insert_eq|by rewrite lookup_insert_ne]. }
  unfold get_mac. rewrite K, lookup_empty. by destruct (last_sender after ip fs).
Qed.

End Hostip.
