(* ===== verification/RouteInstaller.v ===== *)
(** * Multicast routes and their installation
    (nox/netapps/route/routeinstaller.cc, lib/network_graph.cc, lib/openflow-action.cc)

    A route is a tree of hops; destinations are merged into it one after the other, and
    a flow entry is sent to every switch in it. *)

From S2P Require Import Prelude Bytes Buffer Ethernetaddr Flow FlowSpec OfpWire OfpCore OfpActions OfpMessages FlowMatch OpenflowStream OpenflowSend Switch Routing.

Open Scope Z_scope.

(** ** Trees of hops *)

(** [network::hop]; a branch ends at a hop with the empty datapath id. *)
Inductive hop := Hop (dpid port : Z) (next_hops : list (Z * hop)).
Definition dpid (h : hop) : Z := match h with Hop d _ _ => d end.
Definition in_port_of (h : hop) : Z := match h with Hop _ i _ => i end.
Definition next_hops (h : hop) : list (Z * hop) := match h with Hop _ _ ns => ns end.
Definition leaf : hop := Hop 0 0 [].

(** [route2tree]: the next hops of the source *)
Fixpoint chain (path : list link) (port : Z) : list (Z * hop) :=
  match path with
  | [] => [(port, leaf)]
  | l :: path => [(outport l, Hop (l_dst l) (inport l) (chain path port))]
  end.
Definition route2tree (dst_port : Z) (path : list link) (route : hop) : hop := Hop (dpid route) (in_port_of route) (chain path dst_port).

(** The loop of [merge_route]: the hops before the one that leaves by the same port to
    the same switch, that hop, and those after it *)
Fixpoint same_hop (p d : Z) (ns : list (Z * hop)) : option (list (Z * hop) * hop * list (Z * hop)) :=
  match ns with
  | [] => None
  | (q, h) :: ns =>
      if (q =? p) && (dpid h =? d) then Some ([], h, ns)
      else match same_hop p d ns with Some (l, e, r) => Some ((q, h) :: l, e, r) | None => None end
  end.

(** [merge_route]; the loop reads what [routeOut] points to. *)
Fixpoint merge_route (route : hop) (tree : hop) : res hop :=
  match route with
  | Hop _ _ [] => if is_nil (next_hops tree) then Ret tree else Aborted
  | Hop _ _ ((p, c) :: _) =>
      match same_hop p (dpid c) (next_hops tree) with
      | Some (l, e, r) => e ← merge_route c e; Ret (Hop (dpid tree) (in_port_of tree) (l ++ (p, e) :: r))
      | None => Ret (Hop (dpid tree) (in_port_of tree) ((p, c) :: next_hops tree))
      end
  end.

(** [get_shortest_path]: whether a route exists, and the route afterwards; a
    termination is a datapath and a port. *)
Definition get_shortest_path (s : routing) (dst : Z * Z) (route : hop) : bool * hop :=
  match get_route (dpid route, fst dst) s with
  | None => (false, route)
  | Some r => (true, route2tree (snd dst) (path r) route)
  end.
Fixpoint merge_paths (s : routing) (dsts : list (Z * Z)) (route : hop) : res (bool * hop) :=
  match dsts with
  | [] => Ret (true, route)
  | d :: dsts =>
      let '(found, r2) := get_shortest_path s d route in
      if negb found then Ret (false, route)
      else route ← merge_route r2 route; merge_paths s dsts route
  end.
Definition get_shortest_paths (s : routing) (dsts : list (Z * Z)) (route : hop) : res (bool * hop) :=
  match dsts with
  | [] => Ret (false, route)
  | d :: dsts =>
      let '(found, route) := get_shortest_path s d route in
      if negb found then Ret (false, route) else merge_paths s dsts route
  end.

(** ** Actions *)

(** [ofp_action]: its bytes; memory that was not written is [raw]. *)
Definition OFPAT_ENQUEUE : Z := 11.
Definition set_action_output (raw : bytes) (port max_len : Z) : bytes := of_action_output.pack (of_action_output.mk OFPAT_OUTPUT 8 port max_len) raw.
Definition set_action_enqueue (raw : bytes) (port queueid : Z) : bytes :=
  of_action_enqueue.pack (of_action_enqueue.mk OFPAT_ENQUEUE 16 port [0; 0; 0; 0; 0; 0] queueid) raw.
Definition set_action_nw_addr (raw : bytes) (type ip : Z) : bytes := of_action_nw_addr.pack (of_action_nw_addr.mk type 8 ip) raw.
Definition set_action_dl_addr (raw : bytes) (type : Z) (mac : ethernetaddr) : bytes :=
  of_action_dl_addr.pack (of_action_dl_addr.mk type 16 (octet mac) [0; 0; 0; 0; 0; 0]) raw.

(** The length that [get_header] reads; [mem_size], a 16-bit sum; [pack] at an offset of the
    message, with copies that must stay inside both. *)
Definition action_len (a : bytes) : Z := ntohs (get16 2 a).
Definition mem_size (l : list bytes) : Z := foldl (fun size a => u16 (size + action_len a)) 0 l.
Fixpoint pack_actions (off : nat) (l : list bytes) (b : bytes) : res bytes :=
  match l with
  | [] => Ret b
  | a :: l =>
      let n := Z.to_nat (action_len a) in
      if (n <=? length a)%nat && (off + n <=? length b)%nat then pack_actions (off + n) l (store off (load 0 n a) b) else Aborted
  end.

(** ** Installation *)

Definition OFPFC_MODIFY_STRICT : Z := 2.
Definition OFPP_NONE : Z := 0xffff.

(** What an entry is made with: the flow, the packet's buffer, wildcards and timeouts *)
Record request := Request { r_flow : flow; r_buffer : Z; r_wildcards : Z; r_idle : Z; r_hard : Z }.

Definition entry_match (rq : request) (port : Z) : of_match.t :=
  let m := get_exact_match (r_flow rq) in
  of_match.mk (r_wildcards rq) port (of_match.dl_src m) (of_match.dl_dst m) (of_match.dl_vlan m) (of_match.dl_vlan_pcp m)
    (of_match.pad1 m) (of_match.dl_type m) (of_match.nw_tos m) (of_match.nw_proto m) (of_match.pad2 m)
    (of_match.nw_src m) (of_match.nw_dst m) (of_match.tp_src m) (of_match.tp_dst m).
Definition entry (rq : request) (size xid port command : Z) : of_flow_mod.t :=
  of_flow_mod.mk (built_header OFPT_FLOW_MOD (u16 size) xid) (entry_match rq port) 0 command (r_idle rq) (r_hard rq) OFP_DEFAULT_PRIORITY
    (r_buffer rq) OFPP_NONE ofd_flow_mod_flags.

Section memory.
(** What [new] returns, and the transaction ids in the order they are given out *)
Variable new_bytes : Z -> bytes.
Variable xids : nat -> Z.

(** [install_flow_entry]: an addition, then a strict modification made of the same bytes *)
Definition install_flow_entry (xid : Z) (rq : request) (port : Z) (acts : list bytes) : res (bytes * bytes) :=
  let size := 72 + mem_size acts in
  let b := of_flow_mod.pack (entry rq size xid port OFPFC_ADD) (new_bytes size) in
  b ← pack_actions 72 acts b;
  Ret (b, of_flow_mod.pack (entry rq size xid port OFPFC_MODIFY_STRICT) b).

(** [real_install_route]: the auxiliary actions are changed in place; the messages for each
    switch in the order they are sent *)
Definition outputs_of (ns : list (Z * hop)) : list bytes := map (fun n => set_action_output (new_bytes 8) (fst n) 0) ns.
Fixpoint real_install_route (rq : request) (skipoutput : list Z) (route : hop) (s : gmap Z (list bytes) * list (Z * bytes))
    : res (gmap Z (list bytes) * list (Z * bytes)) :=
  match route with
  | Hop d i ns =>
      if d =? 0 then Ret s
      else
        s ← (fix rest (ns : list (Z * hop)) s :=
               match ns with
               | [] => Ret s
               | (_, c) :: ns => s ← (if negb (dpid c =? 0) then real_install_route rq skipoutput c s else Ret s); rest ns s
               end) ns s;
        let '(actions, sent) := s in
        let oal := default [] (actions !! d) ++ (if bool_decide (d ∈ skipoutput) then [] else outputs_of ns) in
        let actions := match actions !! d with None => actions | Some _ => <[d := oal]> actions end in
        '(m1, m2) ← install_flow_entry (xids (length sent)) rq i oal;
        Ret (actions, sent ++ [(d, m1); (d, m2)])
  end.
Definition install_route (rq : request) (route : hop) : res (list (Z * bytes)) :=
  '(_, sent) ← real_install_route rq [] route (∅, []);
  Ret sent.
End memory.

(** ** Trees *)

Lemma hop_induction (P : hop -> Prop) : (forall d i ns, Forall (fun n => P (snd n)) ns -> P (Hop d i ns)) -> forall h, P h.
Proof.
  intros H. fix IH 1. intros [d i ns]. apply H. induction ns as [|n ns IHns]; [constructor|]. constructor; [apply IH|exact IHns].
Qed.

Definition key (n : Z * hop) : Z * Z := (fst n, dpid (snd n)).

(** The ways from the source to the ends: at each switch the port, and the next switch *)
Fixpoint branches (h : hop) : list (list (Z * Z)) :=
  match h with
  | Hop _ _ [] => [[]]
  | Hop _ _ ns => flat_map (fun n => map (cons (fst n, dpid (snd n))) (branches (snd n))) ns
  end.
Fixpoint path_branch (path : list link) (port : Z) : list (Z * Z) :=
  match path with [] => [(port, 0)] | l :: path => (outport l, l_dst l) :: path_branch path port end.

Lemma branches_in d i ns b : ns <> [] -> b ∈ branches (Hop d i ns) <-> exists n b', n ∈ ns /\ b = key n :: b' /\ b' ∈ branches (snd n).
Proof.
  intros N. destruct ns as [|x ns]; [done|]. cbn [branches]. rewrite list_elem_of_In, in_flat_map. split.
  - intros (n & H1 & H2). apply in_map_iff in H2 as (b' & <- & H2). exists n, b'. rewrite !list_elem_of_In. done.
  - intros (n & b' & H1%list_elem_of_In & -> & H2%list_elem_of_In). exists n. split; [done|]. apply in_map_iff. by exists b'.
Qed.

Section network.
(** The other end of the link at a port of a switch *)
Context (peer : Z * Z -> option (Z * Z)).

(** Trees whose edges are links, whose ends are access ports, and in which no edge is
    double *)
Inductive good : hop -> Prop :=
| good_hop d i ns : d <> 0 -> ns <> [] -> NoDup (key <$> ns) ->
    (forall p c, (p, c) ∈ ns -> (c = leaf /\ peer (d, p) = None) \/ (peer (d, p) = Some (dpid c, in_port_of c) /\ good c)) -> good (Hop d i ns).

Fixpoint path_ok (d : Z) (path : list link) (port : Z) : Prop :=
  match path with
  | [] => peer (d, port) = None
  | l :: path => l_dst l <> 0 /\ peer (d, outport l) = Some (l_dst l, inport l) /\ path_ok (l_dst l) path port
  end.

Lemma good_dpid h : good h -> dpid h <> 0.
Proof. by destruct 1. Qed.

Lemma chain_good path : forall d i port, d <> 0 -> path_ok d path port ->
  good (Hop d i (chain path port)) /\ forall b, b ∈ branches (Hop d i (chain path port)) <-> b = path_branch path port.
Proof.
  induction path as [|l path IH]; intros d i port N P; cbn [chain path_ok] in *.
  - split; [|intros b; cbn; by rewrite list_elem_of_singleton]. constructor; [done|done|apply NoDup_singleton|]. intros p c [= -> ->]%list_elem_of_singleton. by left.
  - destruct P as (L & Pe & P). destruct (IH (l_dst l) (inport l) port L P) as [G B]. split.
    + constructor; [done|done|apply NoDup_singleton|]. intros p c [= -> ->]%list_elem_of_singleton. by right.
    + intros b. rewrite branches_in by done. cbn [path_branch]. split.
      * intros (n & b' & ->%list_elem_of_singleton & -> & Hb). cbn [snd] in Hb. apply B in Hb as ->. done.
      * intros ->. eexists (outport l, Hop (l_dst l) (inport l) (chain path port)), _. split_and!; [by apply list_elem_of_singleton|reflexivity|]. by apply B.
Qed.

Lemma same_hop_some p d ns l e r : same_hop p d ns = Some (l, e, r) -> ns = l ++ (p, e) :: r /\ dpid e = d.
Proof.
  revert l. induction ns as [|[q h] ns IH]; intros l; cbn [same_hop]; [done|]. destruct ((q =? p) && (dpid h =? d)) eqn:E.
  - intros [= <- <- <-]. apply andb_true_iff in E as [->%Z.eqb_eq ?%Z.eqb_eq]. done.
  - destruct (same_hop p d ns) as [[[l' e'] r']|] eqn:S; [|done]. intros [= <- <- <-]. destruct (IH l' eq_refl) as [-> ?]. done.
Qed.
Lemma same_hop_none p d ns : same_hop p d ns = None -> (p, d) ∉ key <$> ns.
Proof.
  induction ns as [|[q h] ns IH]; cbn [same_hop]; [intros _; apply not_elem_of_nil|]. destruct ((q =? p) && (dpid h =? d)) eqn:E; [done|].
  destruct (same_hop p d ns) as [[[? ?] ?]|]; [done|]. intros _. apply not_elem_of_cons. split; [|by apply IH]. intros [= -> ->]. by rewrite !Z.eqb_refl in E.
Qed.

Lemma merge_cons d i p c ns t : merge_route (Hop d i ((p, c) :: ns)) t =
  match same_hop p (dpid c) (next_hops t) with
  | Some (l, e, r) => e ← merge_route c e; Ret (Hop (dpid t) (in_port_of t) (l ++ (p, e) :: r))
  | None => Ret (Hop (dpid t) (in_port_of t) ((p, c) :: next_hops t))
  end.
Proof. done. Qed.

(** Merging a route into a tree adds its way, and keeps what is there. *)
Lemma merge_chain path : forall t i port, good t -> path_ok (dpid t) path port -> exists t', merge_route (Hop (dpid t) i (chain path port)) t = Ret t' /\
  good t' /\ dpid t' = dpid t /\ in_port_of t' = in_port_of t /\ forall b, b ∈ branches t' <-> b ∈ branches t \/ b = path_branch path port.
Proof.
  induction path as [|l path IH]; intros t i port G P; pose proof G as G'; destruct G' as [d i' ns Hd Hns ND K]; cbn [dpid] in P; cbn [chain]; rewrite merge_cons; cbn [dpid next_hops in_port_of].
  - destruct (same_hop port 0 ns) as [[[l e] r]|] eqn:S; cbn [dpid leaf].
    + destruct (same_hop_some _ _ _ _ _ _ S) as [-> E]. assert ((port, e) ∈ l ++ (port, e) :: r) as Hin by (apply elem_of_app; right; left).
      destruct (K port e Hin) as [[-> _]|[_ Ge]]; [|by apply good_dpid in Ge]. change (dpid leaf) with 0. rewrite S. cbn [merge_route leaf is_nil next_hops mbind res_bind].
      eexists. split_and!; [reflexivity|done..|]. intros b. split; [by left|]. intros [|E']; [done|]. rewrite E'. apply branches_in; [done|]. exists (port, leaf), []. split_and!; [done|done|]. cbn. by apply list_elem_of_singleton.
    + change (dpid leaf) with 0. rewrite S. eexists. split_and!; [reflexivity| |done|done|].
      * constructor; [done|done|cbn; apply NoDup_cons; split; [by apply same_hop_none|done]|]. intros p c [[= -> ->]|H]%elem_of_cons; [by left|by apply K].
      * intros b. rewrite !branches_in by done. split.
        -- intros (n & b' & [->|Hn]%elem_of_cons & -> & Hb); [right; cbn in Hb; by apply list_elem_of_singleton in Hb as ->|left; eauto].
        -- intros [(n & b' & Hn & -> & Hb)| ->]; [exists n, b'; split_and!; [by right|done|done]|]. exists (port, leaf), []. split_and!; [left|done|cbn; by apply list_elem_of_singleton].
  - destruct P as (L & Pe & P). destruct (same_hop (outport l) (l_dst l) ns) as [[[pre e] post]|] eqn:S.
    + destruct (same_hop_some _ _ _ _ _ _ S) as [-> E]. assert ((outport l, e) ∈ pre ++ (outport l, e) :: post) as Hin by (apply elem_of_app; right; left).
      destruct (K _ e Hin) as [[-> _]|[Pe' Ge]]; [by cbn in E|]. rewrite <- E in *. destruct (IH e (inport l) port Ge P) as (e' & -> & Ge' & De & Ie & Be). cbn [mbind res_bind].
      eexists. split_and!; [reflexivity| |done|done|].
      * constructor; [done|by destruct pre| |].
        -- assert (key (outport l, e') = key (outport l, e)) as KE by (unfold key; cbn [fst snd]; by rewrite De).
           rewrite fmap_app, fmap_cons, KE. by rewrite fmap_app, fmap_cons in ND.
        -- intros p c Hc. rewrite elem_of_app, elem_of_cons in Hc. destruct Hc as [Hc|[[= -> ->]|Hc]]; [apply K, elem_of_app; by left| |apply K, elem_of_app; right; by right].
           right. by rewrite De, Ie.
      * intros b. rewrite !branches_in by (by destruct pre). cbn [path_branch]. split.
        -- intros (n & b' & Hn & -> & Hb). rewrite elem_of_app, elem_of_cons in Hn. destruct Hn as [Hn|[->|Hn]].
           ++ left. exists n, b'. split_and!; [apply elem_of_app; by left|done|done].
           ++ cbn [snd] in Hb. apply Be in Hb as [Hb| ->]; [left; exists (outport l, e), b'; split_and!; [done|unfold key; cbn [fst snd]; by rewrite De|done]|].
              right. unfold key. cbn [fst snd]. by rewrite De, ?E.
           ++ left. exists n, b'. split_and!; [apply elem_of_app; right; by right|done|done].
        -- intros [(n & b' & Hn & -> & Hb)| ->].
           ++ rewrite elem_of_app, elem_of_cons in Hn. destruct Hn as [Hn|[->|Hn]]; [exists n, b'; split_and!; [apply elem_of_app; by left|done|done]| |
                exists n, b'; split_and!; [apply elem_of_app; right; by right|done|done]].
              exists (outport l, e'), b'. split_and!; [apply elem_of_app; right; left|unfold key; cbn [fst snd]; by rewrite De|]. apply Be. by left.
           ++ exists (outport l, e'), (path_branch path port). split_and!; [apply elem_of_app; right; left|unfold key; cbn [fst snd]; by rewrite De, ?E|]. apply Be. by right.
    + eexists. split_and!; [reflexivity| |done|done|].
      * constructor; [done|done|cbn; apply NoDup_cons; split; [by apply same_hop_none|done]|]. intros p c [[= -> ->]|H]%elem_of_cons; [|by apply K].
        right. split; [done|]. by apply chain_good.
      * intros b. rewrite !branches_in by done. destruct (chain_good path (l_dst l) (inport l) port L P) as [_ B]. split.
        -- intros (n & b' & [->|Hn]%elem_of_cons & -> & Hb); [right; cbn [snd] in Hb; apply B in Hb as ->; done|left; eauto].
        -- intros [(n & b' & Hn & -> & Hb)| ->]; [exists n, b'; split_and!; [by right|done|done]|]. eexists (outport l, Hop (l_dst l) (inport l) (chain path port)), _.
           split_and!; [left|reflexivity|]. by apply B.
Qed.

(** Where a path ends, and where a way in a tree does *)
Fixpoint path_end (d : Z) (path : list link) : Z := match path with [] => d | l :: path => path_end (l_dst l) path end.
Fixpoint end_of (d : Z) (b : list (Z * Z)) : Z * Z :=
  match b with [] => (d, 0) | (p, d') :: b => if d' =? 0 then (d, p) else end_of d' b end.
Lemma end_of_path path : forall d port, path_ok d path port -> end_of d (path_branch path port) = (path_end d path, port).
Proof. induction path as [|l path IH]; intros d port P; cbn in *; [done|]. destruct P as (L & _ & P). rewrite (proj2 (Z.eqb_neq _ 0) L). by apply IH. Qed.

(** Routing knows a way over links to each destination, which is an access port. *)
Definition known_route (s : routing) (src : Z) (dst : Z * Z) (path0 : list link) : Prop :=
  (exists r, get_route (src, fst dst) s = Some r /\ path r = path0) /\ path_ok src path0 (snd dst) /\ path_end src path0 = fst dst.

Lemma merge_paths_ok s src dsts : forall t, good t -> dpid t = src -> (forall d, d ∈ dsts -> exists p, known_route s src d p) ->
  exists t', merge_paths s dsts t = Ret (true, t') /\ good t' /\ dpid t' = src /\ in_port_of t' = in_port_of t /\
  forall b, b ∈ branches t' <-> b ∈ branches t \/ exists d p, d ∈ dsts /\ known_route s src d p /\ b = path_branch p (snd d).
Proof.
  induction dsts as [|d dsts IH]; intros t G Ht K; cbn [merge_paths].
  - exists t. split_and!; try done. intros b. split; [by left|]. intros [|(d & p & H & _)]; [done|by apply elem_of_nil in H].
  - destruct (K d) as (p & Kp); [left|]. pose proof Kp as ((r & R & Pr) & Po & Pe). unfold get_shortest_path. rewrite Ht, R, Pr. cbn [negb]. unfold route2tree. rewrite Ht.
    rewrite <- Ht in Po. destruct (merge_chain p t (in_port_of t) (snd d) G Po) as (t1 & E & G1 & D1 & I1 & B1). rewrite Ht in E. rewrite E. cbn [mbind res_bind].
    destruct (IH t1 G1) as (t' & E' & G' & D' & I' & B'); [congruence|intros x Hx; apply K; by right|]. exists t'. split_and!; [done|done|done|congruence|].
    intros b. rewrite B', B1. split.
    + intros [[|Hb]|(x & q & Hx & Hq)]; [by left|right; exists d, p; split_and!; [left|done|done]|right; exists x, q; split; [by right|done]].
    + intros [|(x & q & [->|Hx]%elem_of_cons & Kq & ->)]; [by left; left| |right; by exists x, q]. left. right. destruct Kq as ((r' & R' & Pr') & _). congruence.
Qed.

Lemma get_shortest_paths_ok s src i ns0 dsts : src <> 0 -> dsts <> [] -> (forall d, d ∈ dsts -> exists p, known_route s src d p) ->
  exists t, get_shortest_paths s dsts (Hop src i ns0) = Ret (true, t) /\ good t /\ dpid t = src /\ in_port_of t = i /\
  forall b, b ∈ branches t <-> exists d p, d ∈ dsts /\ known_route s src d p /\ b = path_branch p (snd d).
Proof.
  intros N Nd K. destruct dsts as [|d dsts]; [done|]. unfold get_shortest_paths, get_shortest_path. cbn [dpid]. destruct (K d) as (p & Kp); [left|].
  pose proof Kp as ((r & R & Pr) & Po & Pe). rewrite R, Pr. cbn [negb]. unfold route2tree. cbn [dpid in_port_of]. destruct (chain_good p src i (snd d) N Po) as [G B].
  destruct (merge_paths_ok s src dsts (Hop src i (chain p (snd d))) G eq_refl) as (t & E & G' & D & I & B'); [intros x Hx; apply K; by right|]. exists t. split_and!; [done|done|done|done|].
  intros b. rewrite B', B. split.
  - intros [->|(x & q & Hx & Hq)]; [exists d, p; split_and!; [left|done|done]|exists x, q; split; [by right|done]].
  - intros (x & q & [->|Hx]%elem_of_cons & Kq & ->); [|right; by exists x, q]. left. destruct Kq as ((r' & R' & Pr') & _). congruence.
Qed.

(** *** Where a tree ends *)

Fixpoint terminations (h : hop) : list (Z * Z) :=
  match h with Hop d _ ns => flat_map (fun n => if dpid (snd n) =? 0 then [(d, fst n)] else terminations (snd n)) ns end.

Lemma branches_flat d i ns : ns <> [] -> branches (Hop d i ns) = flat_map (fun n => map (cons (key n)) (branches (snd n))) ns.
Proof. by destruct ns. Qed.

Lemma terminations_ends h : good h -> terminations h = map (end_of (dpid h)) (branches h).
Proof.
  induction h as [d i ns IH] using hop_induction. intros G. inversion G as [? ? ? Hd Hns ND K]; subst. rewrite branches_flat by done. cbn [terminations dpid].
  clear Hns ND G. induction ns as [|[p c] ns IHns]; [done|]. apply Forall_cons in IH as [Hc IH]. cbn [flat_map fst snd] in *. rewrite map_app, map_map. f_equal.
  - destruct (K p c) as [[-> _]|[_ Gc]]; [left|done|]. rewrite (proj2 (Z.eqb_neq _ 0) (good_dpid c Gc)), Hc by done. apply map_ext. intros b. unfold key. cbn [end_of fst snd].
    by rewrite (proj2 (Z.eqb_neq _ 0) (good_dpid c Gc)).
  - apply IHns; [done|]. intros q x Hx. apply K. by right.
Qed.

Lemma branches_nodup h : good h -> NoDup (branches h).
Proof.
  induction h as [d i ns IH] using hop_induction. intros G. inversion G as [? ? ? Hd Hns ND K]; subst. rewrite branches_flat by done. clear Hns G.
  induction ns as [|[p c] ns IHns]; [constructor|]. apply Forall_cons in IH as [Hc IH]. rewrite fmap_cons in ND. apply NoDup_cons in ND as [Nk ND]. cbn [flat_map fst snd] in *.
  apply NoDup_app. split_and!.
  - apply NoDup_fmap_2; [by intros ? ? [= ->]|]. destruct (K p c) as [[-> _]|[_ Gc]]; [left|cbn; apply NoDup_singleton|by apply Hc].
  - intros b Hb Hb'. apply list_elem_of_fmap in Hb as (b1 & -> & _). rewrite list_elem_of_In, in_flat_map in Hb'. destruct Hb' as (n & Hn & Hb'). apply in_map_iff in Hb' as (b2 & [= E1 E2 _] & _).
    apply Nk. replace (key (p, c)) with (key n) by (unfold key; cbn [fst snd]; congruence). apply list_elem_of_fmap_2. by apply list_elem_of_In.
  - apply IHns; [done|done|]. intros q x Hx. apply K. by right.
Qed.

(** The tree ends exactly at the destinations, once at each. *)
Lemma tree_terminations s src dsts t : good t -> dpid t = src -> NoDup dsts -> (forall d, d ∈ dsts -> exists p, known_route s src d p) ->
  (forall b, b ∈ branches t <-> exists d p, d ∈ dsts /\ known_route s src d p /\ b = path_branch p (snd d)) -> terminations t ≡ₚ dsts.
Proof.
  intros G D ND K B. assert (forall d p, known_route s src d p -> end_of src (path_branch p (snd d)) = d) as E.
  { intros [d q] p (_ & Po & Pe). rewrite end_of_path by done. cbn in *. by rewrite Pe. }
  rewrite terminations_ends, D by done. apply NoDup_Permutation; [|done|].
  - apply NoDup_fmap_2_strong; [|by apply branches_nodup]. intros b1 b2 H1 H2 Eq. apply B in H1 as (d1 & p1 & _ & K1 & ->). apply B in H2 as (d2 & p2 & _ & K2 & ->).
    rewrite !E in Eq by done. subst d2. destruct K1 as ((r1 & R1 & Pr1) & _), K2 as ((r2 & R2 & Pr2) & _). congruence.
  - intros x. rewrite list_elem_of_fmap. split.
    + intros (b & -> & Hb). apply B in Hb as (d & p & Hd & Kp & ->). by rewrite E.
    + intros Hx. destruct (K x Hx) as (p & Kp). exists (path_branch p (snd x)). split; [by rewrite E|]. apply B. by exists x, p.
Qed.
End network.

(** ** What the entries do with a packet *)

(** The switches of a tree, each after those behind it: the port a packet arrives at, and
    the ports it leaves by *)
Fixpoint nodes (h : hop) : list (Z * Z * list Z) :=
  match h with Hop d i ns => if d =? 0 then [] else flat_map (fun n => nodes (snd n)) ns ++ [((d, i), map fst ns)] end.
Fixpoint depth (h : hop) : nat := match h with Hop _ _ ns => S (foldr (fun n k => Nat.max (depth (snd n)) k) 0%nat ns) end.

Section forwarding.
Context (peer : Z * Z -> option (Z * Z)).

(** The access ports a packet leaves the network by, when it arrives at a port of a switch
    with the given flow entries *)
Fixpoint forward (fuel : nat) (tbl : gmap (Z * Z) (list Z)) (d i : Z) : list (Z * Z) :=
  match fuel with
  | O => []
  | S fuel =>
      flat_map (fun p => match peer (d, p) with Some (d', i') => forward fuel tbl d' i' | None => [(d, p)] end) (default [] (tbl !! (d, i)))
  end.

Lemma forward_tree tbl h : good peer h -> (forall n, n ∈ nodes h -> tbl !! fst n = Some (snd n)) ->
  forall fuel, (depth h <= fuel)%nat -> forward fuel tbl (dpid h) (in_port_of h) = terminations h.
Proof.
  induction h as [d i ns IH] using hop_induction. intros G T fuel F. inversion G as [? ? ? Hd Hns ND K]; subst. cbn [nodes] in T. rewrite (proj2 (Z.eqb_neq d 0) Hd) in T.
  destruct fuel as [|fuel]; [cbn in F; lia|]. cbn [forward dpid in_port_of terminations].
  assert (tbl !! (d, i) = Some (map fst ns)) as -> by (apply (T ((d, i), map fst ns)), elem_of_app; right; by apply list_elem_of_singleton).
  change (default [] (Some (map fst ns))) with (map fst ns). assert (forall n, n ∈ flat_map (fun n => nodes (snd n)) ns -> tbl !! fst n = Some (snd n)) as T' by (intros n Hn; apply T, elem_of_app; by left). clear T ND G Hns.
  cbn [depth] in F. assert (foldr (fun n k => Nat.max (depth (snd n)) k) 0%nat ns <= fuel)%nat as F' by lia. clear F.
  induction ns as [|[p c] ns IHns]; [done|]. apply Forall_cons in IH as [Hc IH]. cbn [map flat_map fst snd foldr] in *. f_equal.
  - destruct (K p c) as [[-> E]|[E Gc]]; [left|by rewrite E|]. rewrite E, (proj2 (Z.eqb_neq _ 0) (good_dpid _ c Gc)). apply Hc; [done| |lia]. intros n Hn. apply T', elem_of_app. by left.
  - apply IHns; [done| | |lia]; [intros q x Hx; apply K; by right|]. intros n Hn. apply T', elem_of_app. by right.
Qed.
End forwarding.

(** ** What the messages say *)

(** The ports of a list of output actions *)
Fixpoint read_outputs (fuel : nat) (b : bytes) : option (list Z) :=
  match b, fuel with
  | [], _ => Some []
  | _, O => None
  | _, S fuel =>
      a ← of_action_output.unpack b;
      if (of_action_output.type_ a =? OFPAT_OUTPUT) && (of_action_output.len a =? 8) then ps ← read_outputs fuel (drop 8 b); Some (of_action_output.port a :: ps)
      else None
  end.
(** The port and the ports of an entry for the packets of a request *)
Definition read_entry (rq : request) (msg : bytes) : option (Z * list Z) :=
  fm ← of_flow_mod.unpack msg;
  let i := of_match.in_port (of_flow_mod.match_ fm) in
  if of_match.eqb (of_flow_mod.match_ fm) (entry_match rq i) && ((of_flow_mod.command fm =? OFPFC_ADD) || (of_flow_mod.command fm =? OFPFC_MODIFY_STRICT))
  then ps ← read_outputs (length msg) (drop 72 msg); Some (i, ps)
  else None.
Definition install_one (rq : request) (tbl : gmap (Z * Z) (list Z)) (m : Z * bytes) : gmap (Z * Z) (list Z) :=
  match read_entry rq (snd m) with Some (i, ps) => <[(fst m, i) := ps]> tbl | None => tbl end.
(** The entries of the network after the messages *)
Definition entries (rq : request) (ms : list (Z * bytes)) : gmap (Z * Z) (list Z) := foldl (install_one rq) ∅ ms.

Definition output_wire (p : Z) : bytes := of_action_output.wire (of_action_output.mk OFPAT_OUTPUT 8 p 0).

Lemma output_wire_length p : length (output_wire p) = 8%nat.
Proof. by apply of_action_output.action_output_wire_length. Qed.

Lemma read_outputs_wire ps : Forall is_u16 ps -> forall fuel, (length ps <= fuel)%nat -> read_outputs fuel (flat_map output_wire ps) = Some ps.
Proof.
  induction 1 as [|p ps Hp F IH]; intros fuel L; [by destruct fuel|]. destruct fuel as [|fuel]; [cbn in L; lia|].
  assert (of_action_output.unpack (flat_map output_wire (p :: ps)) = Some (of_action_output.mk OFPAT_OUTPUT 8 p 0)) as U.
  { cbn [flat_map]. apply of_action_output.action_output_unpack_wire. by split_and!. }
  assert (drop 8 (flat_map output_wire (p :: ps)) = flat_map output_wire ps) as D.
  { cbn [flat_map]. rewrite drop_app_ge by (rewrite output_wire_length; lia). by rewrite output_wire_length. }
  assert (exists x r, flat_map output_wire (p :: ps) = x :: r) as (x & r & E) by (do 2 eexists; reflexivity).
  cbn [read_outputs]. rewrite E in *. rewrite U. cbn [mbind option_bind of_action_output.type_ of_action_output.len of_action_output.port].
  change ((OFPAT_OUTPUT =? OFPAT_OUTPUT) && (8 =? 8)) with true. cbn iota. rewrite D, IH by (cbn in L; lia). done.
Qed.

Lemma action_len_wire p : action_len (output_wire p) = 8.
Proof. done. Qed.

Lemma mem_size_outputs ps : 8 * Z.of_nat (length ps) < 65536 -> mem_size (map output_wire ps) = 8 * Z.of_nat (length ps).
Proof.
  unfold mem_size. assert (forall k, 0 <= k -> k + 8 * Z.of_nat (length ps) < 65536 -> foldl (fun size a => u16 (size + action_len a)) k (map output_wire ps) = k + 8 * Z.of_nat (length ps)) as K.
  { induction ps as [|p ps IH]; intros k Hk H; cbn [map foldl length] in *; [lia|]. rewrite action_len_wire, wrap_small by (change (2 ^ 16) with 65536; lia). rewrite IH by lia. lia. }
  intros H. by rewrite K by lia.
Qed.

Lemma pack_actions_ok ps : forall off b, length b = (off + 8 * length ps)%nat ->
  pack_actions off (map output_wire ps) b = Ret (take off b ++ flat_map output_wire ps).
Proof.
  induction ps as [|p ps IH]; intros off b L; cbn [map pack_actions flat_map length] in *; [by rewrite take_ge, app_nil_r by lia|].
  rewrite action_len_wire, output_wire_length. change (Z.to_nat 8) with 8%nat. rewrite (proj2 (Nat.leb_le 8 8)), (proj2 (Nat.leb_le (off + 8) (length b))) by lia. cbn [andb].
  assert (load 0 8 (output_wire p) = output_wire p) as -> by (unfold load; rewrite drop_0, take_ge; [done|rewrite output_wire_length; lia]).
  assert (store off (output_wire p) b = (take off b ++ output_wire p) ++ drop (off + 8) b) as -> by (unfold store; by rewrite output_wire_length, app_assoc).
  rewrite IH by (rewrite !length_app, length_take, length_drop, output_wire_length; lia). f_equal.
  rewrite take_app_length' by (rewrite length_app, length_take, output_wire_length; lia). by rewrite app_assoc.
Qed.

Record request_ok (rq : request) : Prop := {
  rq_flow : flow_ok (r_flow rq);
  rq_buffer : is_u32 (r_buffer rq);
  rq_wildcards : is_u32 (r_wildcards rq);
  rq_idle : is_u16 (r_idle rq);
  rq_hard : is_u16 (r_hard rq)
}.

Lemma entry_match_wf rq port : request_ok rq -> is_u16 port -> of_match.wf (entry_match rq port).
Proof.
  intros [F _ W _ _] P. pose proof (match_shape _ F) as S. destruct F. unfold of_match.wf. split; [exact S|].
  split_and!; try done; try apply htons_range; try apply htonl_range. cbn. unfold in_width. lia.
Qed.
Lemma entry_wf rq size xid port command : request_ok rq -> is_u16 port -> is_u32 xid -> is_u16 command -> of_flow_mod.wf (entry rq size xid port command).
Proof.
  intros R P X C. pose proof (entry_match_wf rq port R P) as M. destruct R. unfold of_flow_mod.wf, of_flow_mod.shape. split; [split; [done|by destruct M]|].
  split_and!; try done; [apply built_header_wf; [done|by apply wrap_range|done]].
Qed.

Section installing.
Context (new_bytes : Z -> bytes) (xids : nat -> Z).
Context (new_length : forall n, 0 <= n -> length (new_bytes n) = Z.to_nat n).
Context (xids_ok : forall k, is_u32 (xids k)).
Context (rq : request) (rq_ok : request_ok rq).

Lemma set_output_wire p : set_action_output (new_bytes 8) p 0 = output_wire p.
Proof.
  unfold set_action_output. rewrite of_action_output.action_output_pack_wire; [|done|rewrite new_length by lia; done].
  rewrite drop_ge, app_nil_r; [done|]. rewrite new_length by lia. done.
Qed.

(** A message for the packets that arrive at [i], with one output action for each of [ps] *)
Definition says (msg : bytes) (i : Z) (ps : list Z) : Prop := read_entry rq msg = Some (i, ps).

Lemma message_says size xid i command ps : is_u16 i -> is_u32 xid -> command = OFPFC_ADD \/ command = OFPFC_MODIFY_STRICT -> Forall is_u16 ps ->
  says (of_flow_mod.wire (entry rq size xid i command) ++ flat_map output_wire ps) i ps.
Proof.
  intros I X C P. assert (is_u16 command) as Hc by (by destruct C as [->| ->]). pose proof (entry_wf rq size xid i command rq_ok I X Hc) as W.
  pose proof (of_flow_mod.flow_mod_wire_length _ (proj1 W)) as L. unfold says, read_entry. rewrite (of_flow_mod.flow_mod_unpack_wire _ _ W). cbn [mbind option_bind of_flow_mod.match_ of_flow_mod.command entry].
  change (of_match.in_port (entry_match rq i)) with i. pose proof (entry_match_wf rq i rq_ok I) as [S _].
  rewrite (proj2 (of_match.match_eqb_eq (entry_match rq i) (entry_match rq i) S S) eq_refl). assert ((command =? OFPFC_ADD) || (command =? OFPFC_MODIFY_STRICT) = true) as -> by (by destruct C as [->| ->]).
  cbn [andb]. rewrite drop_app_ge, L by (rewrite L; done). change (72 - of_flow_mod.size)%nat with 0%nat. rewrite drop_0, read_outputs_wire; [done|done|].
  rewrite length_app. clear -ps. assert (length ps <= length (flat_map output_wire ps))%nat; [|lia].
  induction ps as [|p ps IH]; cbn [flat_map length]; [done|]. rewrite length_app, output_wire_length. lia.
Qed.

Lemma flat_outputs_length ps : length (flat_map output_wire ps) = (8 * length ps)%nat.
Proof. induction ps as [|p ps IH]; [done|]. cbn [flat_map length]. rewrite length_app, IH, output_wire_length. lia. Qed.

Lemma install_flow_entry_ok xid i ps : is_u16 i -> is_u32 xid -> Forall is_u16 ps -> 72 + 8 * Z.of_nat (length ps) < 65536 ->
  exists m1 m2, install_flow_entry new_bytes xid rq i (map output_wire ps) = Ret (m1, m2) /\ says m1 i ps /\ says m2 i ps.
Proof.
  intros I X P L. unfold install_flow_entry. rewrite mem_size_outputs by lia. set (size := 72 + 8 * Z.of_nat (length ps)).
  assert (length (new_bytes size) = (72 + 8 * length ps)%nat) as N by (rewrite new_length by lia; lia).
  pose proof (entry_wf rq size xid i OFPFC_ADD rq_ok I X ltac:(done)) as W1. pose proof (entry_wf rq size xid i OFPFC_MODIFY_STRICT rq_ok I X ltac:(done)) as W2.
  pose proof (of_flow_mod.flow_mod_wire_length _ (proj1 W1)) as L1. pose proof (of_flow_mod.flow_mod_wire_length _ (proj1 W2)) as L2. unfold of_flow_mod.size in *.
  rewrite of_flow_mod.flow_mod_pack_wire by (apply W1 || unfold of_flow_mod.size; lia). rewrite pack_actions_ok by (rewrite length_app, L1, length_drop, N; unfold of_flow_mod.size; lia).
  cbn [mbind res_bind]. rewrite take_app_length' by done. do 2 eexists. split; [reflexivity|]. split; [apply message_says; auto|].
  rewrite of_flow_mod.flow_mod_pack_wire by (apply W2 || unfold of_flow_mod.size; rewrite length_app, L1; lia).
  rewrite drop_app_ge, L1 by (rewrite L1; done). change (of_flow_mod.size - 72)%nat with 0%nat. rewrite drop_0. apply message_says; auto.
Qed.

(** Ports are port numbers, and the actions fit into a message. *)
Definition fits (n : Z * Z * list Z) : Prop := is_u16 (snd (fst n)) /\ Forall is_u16 (snd n) /\ 72 + 8 * Z.of_nat (length (snd n)) < 65536.

(** Every switch of the tree is sent its entry twice. *)
Definition carries (ms : list (Z * bytes)) (ns : list (Z * Z * list Z)) : Prop :=
  Forall2 (fun m n => fst m = fst (fst n) /\ says (snd m) (snd (fst n)) (snd n)) ms (flat_map (fun n => [n; n]) ns).

Lemma real_install_ok h : Forall fits (nodes h) -> forall sent, exists ms,
  real_install_route new_bytes xids rq [] h (∅, sent) = Ret (∅, sent ++ ms) /\ carries ms (nodes h).
Proof.
  induction h as [d i ns IH] using hop_induction. intros F sent. cbn [real_install_route nodes] in *. destruct (Z.eqb_spec d 0) as [->|Hd].
  { exists []. rewrite app_nil_r. split; [done|constructor]. }
  apply Forall_app in F as [F1 F2]. apply Forall_cons in F2 as [(Fi & Fp & Fl) _]. cbn [fst snd] in Fi, Fp, Fl.
  assert (forall sent, exists ms, (fix rest (ns : list (Z * hop)) s := match ns with [] => Ret s | (_, c) :: ns =>
      s ← (if negb (dpid c =? 0) then real_install_route new_bytes xids rq [] c s else Ret s); rest ns s end) ns (∅, sent) = Ret (∅, sent ++ ms) /\
      carries ms (flat_map (fun n => nodes (snd n)) ns)) as K.
  { clear Fi Fp Fl. induction ns as [|[p c] ns IHns]; intros sent0; [exists []; rewrite app_nil_r; split; [done|constructor]|].
    apply Forall_cons in IH as [Hc IH]. cbn [flat_map snd] in F1 |- *. apply Forall_app in F1 as [F1 F1'].
    assert (exists ms, (if negb (dpid c =? 0) then real_install_route new_bytes xids rq [] c (∅, sent0) else Ret (∅, sent0)) = Ret (∅, sent0 ++ ms) /\ carries ms (nodes c)) as (ms & E & C).
    { destruct (Z.eqb_spec (dpid c) 0) as [Z|Z]; cbn [negb]; [|by apply Hc]. exists []. rewrite app_nil_r. split; [done|]. destruct c as [d' ? ?]. cbn in Z. subst d'. constructor. }
    rewrite E. cbn [mbind res_bind]. destruct (IHns IH F1' (sent0 ++ ms)) as (ms' & E' & C'). exists (ms ++ ms'). rewrite E', app_assoc. split; [done|].
    unfold carries. rewrite flat_map_app. by apply Forall2_app. }
  destruct (K sent) as (ms & E & C). rewrite E. cbn [mbind res_bind]. rewrite lookup_empty. change (default [] None ++ (if bool_decide (d ∈ []) then [] else outputs_of new_bytes ns)) with (outputs_of new_bytes ns).
  assert (outputs_of new_bytes ns = map output_wire (map fst ns)) as -> by (unfold outputs_of; rewrite map_map; apply map_ext; intros n; apply set_output_wire).
  destruct (install_flow_entry_ok (xids (length (sent ++ ms))) i (map fst ns) Fi (xids_ok _) Fp Fl) as (m1 & m2 & -> & S1 & S2). cbn [mbind res_bind].
  exists (ms ++ [(d, m1); (d, m2)]). rewrite app_assoc. split; [done|]. unfold carries. rewrite flat_map_app. apply Forall2_app; [done|]. by repeat constructor.
Qed.
End installing.

(** ** Packets reach the destinations *)

Lemma insert_all (l : list (Z * Z * list Z)) (tbl : gmap (Z * Z) (list Z)) n : n ∈ l -> (forall x y, x ∈ l -> y ∈ l -> fst x = fst y -> x = y) ->
  foldl (fun t x => <[fst x := snd x]> t) tbl l !! fst n = Some (snd n).
Proof.
  induction l as [|x l IH] using rev_ind; intros H U; [by apply elem_of_nil in H|]. rewrite foldl_app. cbn [foldl]. destruct (decide (fst x = fst n)) as [E|E].
  - assert (x = n) as -> by (apply U; [apply elem_of_app; right; by apply list_elem_of_singleton|done|done]). by rewrite lookup_insert_eq.
  - rewrite lookup_insert_ne by done. apply IH; [|intros a b Ha Hb; apply U; apply elem_of_app; by left].
    apply elem_of_app in H as [|H%list_elem_of_singleton]; [done|congruence].
Qed.

Lemma entries_of rq ms ns : carries rq ms ns -> NoDup (fst <$> ns) -> forall n, n ∈ ns -> entries rq ms !! fst n = Some (snd n).
Proof.
  intros C ND n Hn. assert (forall tbl, foldl (install_one rq) tbl ms = foldl (fun t x => <[fst x := snd x]> t) tbl (flat_map (fun n => [n; n]) ns)) as E.
  { unfold carries in C. clear ND Hn n. induction C as [|[d m] [[d' i] ps] ms' ns' [D S] C IH]; intros tbl; [done|]. cbn [foldl]. rewrite IH. f_equal. cbn in D. subst d'.
    unfold install_one. cbn [fst snd] in *. by rewrite S. }
  unfold entries. rewrite E. assert (forall x, x ∈ flat_map (fun n => [n; n]) ns <-> x ∈ ns) as M.
  { intros x. rewrite !list_elem_of_In, in_flat_map. split; [intros (y & Hy & [-> | [-> | Fa]]); done|intros H; exists x; split; [done|by left]]. }
  apply insert_all; [by apply M|]. intros x y Hx%M Hy%M Exy. apply list_elem_of_lookup in Hx as [a Ha]. apply list_elem_of_lookup in Hy as [b Hb].
  assert (a = b) as ->; [|congruence]. eapply NoDup_lookup; [exact ND|rewrite list_lookup_fmap, Ha; reflexivity|rewrite list_lookup_fmap, Hb; cbn; by rewrite Exy].
Qed.


(** *** An example: switch 1 is linked to 2 by port 5 and to 3 by port 6, and 2 to 4 by port 7 *)
Definition demo_peer (x : Z * Z) : option (Z * Z) :=
  if bool_decide (x = (1, 5)) then Some (2, 15) else if bool_decide (x = (1, 6)) then Some (3, 16) else if bool_decide (x = (2, 7)) then Some (4, 17) else None.
Definition demo_routing : routing :=
  Routing (<[(1, 2) := Route 1 2 [Link 2 5 15]]> (<[(1, 3) := Route 1 3 [Link 3 6 16]]> (<[(1, 4) := Route 1 4 [Link 2 5 15; Link 4 7 17]]> ∅))) ∅ ∅ ∅ ∅ ∅.
Definition demo_request : request :=
  Request (Flow false 1 (htons 0xffff) 0 (of_id 0x0a0b0c0d0e0f) (of_id 0x010203040506) (htons 0x0800) (htonl 0x0a000001) (htonl 0x0a000002) 6 0 (htons 4000) (htons 80) 0) 0xffffffff 0 5 0.
Definition demo_dsts : list (Z * Z) := [(4, 1); (2, 2); (3, 3); (1, 4)].
Definition demo_tree : hop := Hop 1 9 [(4, leaf); (6, Hop 3 16 [(3, leaf)]); (5, Hop 2 15 [(2, leaf); (7, Hop 4 17 [(1, leaf)])])].


(** Two ways that part and come back to the same link make two entries for the same switch
    and port, and the second replaces the first: here the packet for (4, 1) is lost. *)
Definition rejoining_tree : hop :=
  Hop 1 9 [(5, Hop 2 15 [(7, Hop 4 17 [(1, leaf)])]); (6, Hop 3 16 [(8, Hop 2 18 [(7, Hop 4 17 [(2, leaf)])])])].
Lemma rejoining_ways_lose : match install_route (fun n => replicate (Z.to_nat n) 7) (fun _ => 3) demo_request rejoining_tree with
  | Ret ms => entries demo_request ms !! (4, 17) = Some [2]
  | _ => False
  end.
Proof. vm_compute. reflexivity. Qed.

(** The auxiliary actions of a switch are extended in place: installing a route a second time
    with the same actions doubles its outputs. *)
Lemma actions_accumulate : match real_install_route (fun n => replicate (Z.to_nat n) 7) (fun _ => 3) demo_request [] (Hop 1 9 [(4, leaf)]) ({[1 := []]}, []) with
  | Ret (acts, ms) =>
      match real_install_route (fun n => replicate (Z.to_nat n) 7) (fun _ => 3) demo_request [] (Hop 1 9 [(4, leaf)]) (acts, []) with
      | Ret (_, ms2) => entries demo_request ms !! (1, 9) = Some [4] /\ entries demo_request ms2 !! (1, 9) = Some [4; 4]
      | _ => False
      end
  | _ => False
  end.
Proof. vm_compute. auto. Qed.
